(* ===== verification/_CoqProject ===== *)
-Q . S2P
Prelude.v
PyStr.v
PyFloat.v
PyValue.v
PyRe.v
PyTime.v
PyJson.v
FS.v
PublicMetadata.v
AccountState.v
Gateway.v
Health.v
Capacity.v
PyBase64.v
PySha.v
AgentIdentity.v
Wp.v
FileData.v
CpaRecords.v
CpaAuth.v
JsonRoundTrip.v
AccountContract.v
QuarantineSafety.v
Importer.v
ImporterSafety.v
CpaSweep.v
CpaQuota.v
CpaHealth.v
CpaHealthFacts.v
LocalSweep.v
ApiFailure.v
Streams.v
ObserverRefinement.v
Broker.v
BrokerFacts.v
PyUrl.v
LocalConfig.v
Capabilities.v
LocalImport.v
LocalImportSafety.v
LocalProbe.v
LocalMaintenance.v
LocalMaintenanceSafety.v
PyJsonHook.v
LegacyBridge.v
LegacyBridgeFacts.v
HttpImporterGate.v
Releases.v
CloudRelease.v
CloudReleaseFacts.v
Trees.v
Bundle.v
CloudStage.v
CloudStageFacts.v
PyShlex.v
LocalSettings.v
Remote.v
LocalReleases.v
ShellHook.v
Updater.v
Upgrade.v
Accounts.v
BrokerClient.v
ImportUi.v
CloudCli.v
ApiDiagnosis.v
CloudConfig.v
CloudMain.v
Modes.v
LocalCpa.v
DesktopMain.v
ReleaseLib.v
Ops.v
Acceptance.v
AcceptanceSafety.v
PolicyInstall.v
PolicyInstallSafety.v
ActiveImport.v
Promotion.v
PromotionFacts.v
