(* ===== verification/Prelude.v ===== *)
(** * Cloudx: a verification library

    Cloudx runs an account pool for a coding assistant: a helper on a cloud host
    ([cloud/cloudx_cloud]) keeps credential files of an external proxy service (the CPA),
    observes its health and installs releases; a desktop program ([local/cloudx_local])
    imports credentials, keeps an SSH tunnel to the gateway, selects accounts and modes of a
    shell, classifies the failures of the gateway and archives credentials that failed for
    good; programs under [scripts/] make releases and change a running host.  This library
    models them in Rocq, function by function, and proves what makes their parts correct.
    File names below are relative to [src/].

    ** How the program is modelled

    Python values are modelled once and shared: [PyStr] (text as its UTF-8 bytes), [PyFloat]
    (IEEE doubles kept exactly), [PyValue] (JSON values, dictionaries in insertion order, the
    tests [isinstance], truth and [==]), [PyRe] (the regular expressions), [PyTime]
    ([datetime]), [PyJson] and [PyJsonHook] ([json], with and without an
    [object_pairs_hook]), [JsonRoundTrip], [PyBase64], [PySha], [PyUrl], [PyShlex].  A function that can raise
    returns [res] (this file): a value or an exception with its class; [catches] is
    [isinstance].

    Effects are the monad [M] of [FS]: a file system (a map from paths to files, directories
    and symbolic links) and a counter of system calls; [Trees] adds the calls on whole
    directories.  The environment [env] says which calls fail, with what time, random text and
    lock they are answered; every theorem about effects quantifies over it, so it covers every
    pattern of failures, including a failure of every call of an error handler.  [Wp] is a
    program logic for [M]; [FileData] states what the calls do to the bytes of the files, and
    [Ops] says of whole programs which files they leave alone.  The broker has its own state
    monad over the server object ([Broker]), with the processes, the ports and the clocks as
    environment.

    What is outside the source enters as a parameter: the HTTP clients ([urlopen], [opener],
    [http], [url_open], [m_http], [gateway]); processes (SSH, [ssh-keygen], [git], [systemctl],
    [launchctl], the Codex executable, the interpreter that runs an artifact); the connection
    to a socket; archives and property lists; the [argparse] parsers; [expanduser], [which] and
    the password database; terminals and redirected input; the data of the package.  Where a
    theorem needs something of them it says so: that they leave certain files alone ([leaves],
    [quiet], [spares], [untouched]), or that what is packed is what is unpacked.

    ** The files

    Cloud side:
    - [PublicMetadata]: [public_metadata.py], what may be printed or published;
    - [AccountState], [Gateway], [Health], [Capacity]: [account_state.py], [gateway.py],
      [health.py] with [version.py], [capacity.py], from the monitor's summary to the
      published health document and the capacity verdict; [AccountContract] proves that the
      first two ends of that chain agree;
    - [LegacyBridge], [LegacyBridgeFacts]: [legacy_health_bridge.py], the document of an
      older consumer;
    - [HttpImporterGate]: [http_importer_gate.py];
    - [AgentIdentity]: [agent_identity.py] (both copies);
    - [CpaRecords], [CpaAuth], [QuarantineSafety]: [cpa_auth.py], how a credential is read,
      quarantined and restored;
    - [Importer], [ImporterSafety]: [importer.py];
    - [CpaSweep], [CpaQuota], [CpaHealth], [CpaHealthFacts]: [cpa_sweep.py], [cpa_quota.py],
      [cpa_health.py], the triggers, the probe of one credential, the monitor of the pool;
    - [Releases], [CloudRelease], [CloudReleaseFacts], [Bundle], [CloudStage],
      [CloudStageFacts]: [release.py], the selectors, the bundle and the staging of a release;
    - [CloudConfig], [CloudMain]: [config.py] with the packaged documents
      ([consumer_credential.py], [consumer_traffic.py], [compatibility_profile.py],
      [compatibility_scripts.py], [systemd_templates.py]); [cli.py].

    Desktop side:
    - [LocalConfig], [LocalSettings], [Capabilities]: [config.py], [files.py] and the
      environment of a process, [cpa_capabilities.py];
    - [LocalImport], [LocalImportSafety], [LocalCpa], [ImportUi]: [local_cpa_import.py],
      [local_cpa.py], [import_ui.py];
    - [LocalSweep], [LocalProbe], [LocalMaintenance], [LocalMaintenanceSafety]:
      [local_cpa_sweep.py], [local_cpa_probe.py], [local_cpa_maintenance.py];
    - [ApiFailure], [Streams], [ObserverRefinement], [ApiDiagnosis]: [api_failure.py], the
      classification of a failed answer and the observer of the bytes of a connection, and
      [api_diagnosis.py], what a failed turn came from;
    - [Broker], [BrokerFacts], [BrokerClient]: [broker.py], the tunnel server, its relay and
      its client;
    - [Remote], [LocalReleases], [ShellHook], [Updater], [Upgrade]: [remote.py], [updater.py],
      [upgrade.py];
    - [Accounts], [Modes], [CloudCli], [DesktopMain]: [accounts.py] and [profile.py], [modes.py],
      [cloud_cli.py], [codexx_cli.py] and [cli.py].

    Scripts:
    - [ReleaseLib]: [release_lib.py], [build.py], [create_release.py], [verify_release.py] and
      [backup_legacy_local.py];
    - [Ops], [Acceptance], [AcceptanceSafety]: [cloud_cpa_failure_policy_transaction.py];
    - [PolicyInstall], [PolicyInstallSafety]: [install_cpa_policy_candidate.py] and
      [local_cpa_activation_support.py];
    - [ActiveImport], [Promotion], [PromotionFacts]: [import_active_cloud_cpa_credential.py],
      [promote_cloud_agent_identity_batch.py] and [cloud_agent_identity_promotion_support.py].

    ** What is proved

    - Transactions keep credentials, whatever calls fail: quarantine, restore, both imports,
      the archives of the monitor and of the desktop, the live acceptance of the failure
      policy.  Moving an account moves it whole.
    - Releases: the selectors always name complete releases, staging is all or nothing, a
      rollback undoes an activation, an upgrade reports what the selector shows, what the
      release tools make the endpoints accept; the activation of the CPA's policy build is
      undone as a whole.
    - State machines: the invariant of every reachable state of the broker, the recovery of a
      lost tunnel, requests that never move it, the root cause kept behind later failures; the
      lease of a cloud mode.
    - Refinement and equivalence: the bounded observer against one that keeps every byte;
      the desktop's trigger protocol, answer classification and configuration against the
      cloud's; the bridge's validation against its construction; the records of the importer
      against those a promotion accepts.
    - Decision procedures: which answers fail a credential for good, which credentials are
      isolated, when an attestation, a trigger, a gate or a capacity verdict is given, on which
      log a diagnosis rests, each as an equivalence or as the list of grounds.
    - Round trips: [json], [datetime] and shell words, normal forms of credentials, the
      published documents as their consumers read them, requests and answers however their
      bytes are cut, the lines of the shell hook.
    - Termination: the unbounded search for a free archive name, the expansion of a source,
      the walks and loops whose fuel is shown to be enough.
    - Where the code does not do what it means to, the theorem says what it does: files that
      can be lost, messages that are not true, exceptions that escape.

    ** Bounds

    [MAX_LINKS] (40) symbolic links are followed; [TMP_MAX] (10000) is [tempfile]'s own
    limit.  The scanner of [PyJson] has three units of fuel per character and every call
    consumes one; the walks over JSON values have their depth or size as fuel, the searches for a
    free name one more candidate than there are files, the lock of the desktop import its 201
    attempts; that the fuel is enough is proved where a result depends on it.  [serve_turns]
    bounds the turns of the server that a theorem looks at.  A loop that waits until a deadline
    with a pause in every turn has more turns than the pauses that fit before the deadline
    ([READY_TURNS], [WAIT_ACTIVE_TURNS], [UNLOADED_TURNS], [WAIT_TURNS]); a clock that does not
    move ends it as the deadline does.

    ** Approximations

    Case mapping, white space and line breaks are those of ASCII.  The limits of the interpreter
    (recursion depth, digits of an [int]) are not modelled.  A link is followed in the last part
    of a path only, and [..] in a path is looked up as a name; [umask], inodes and the owner of
    a file are not modelled, and [flock] excludes other processes as the environment says.
    Thread pools run their tasks in order; leases of the broker are iterated in the order of the
    map, the entries of a directory in the order of their names.  Clocks are integers:
    microseconds, milliseconds for the scripts, and seconds for the broker.  A process that runs
    out of time raises [OSError] where the source handles the two alike.

    ** Not modelled

    Sockets, threads and the last cleanup of the broker's [serve]; the texts of the help and of
    the parsers; the choice of a proxy in the quota probe; the operator scripts other than
    those named above (quarantine, removal and migration of the predecessor, scheduling,
    rehearsals, checks of consumers), one-off operations on a machine; tests and documents. *)

From stdpp Require Export base list strings gmap pretty.
From Stdlib Require Export ZArith Lia Ascii.
From Stdlib Require Export Sorting.Sorted.

#[global] Set Default Goal Selector "!".
#[global] Open Scope Z_scope.

Declare Scope cloudx_scope.
Delimit Scope cloudx_scope with cloudx.
#[global] Open Scope cloudx_scope.

(** ** Boolean string tests, reflected. *)

Notation "s =s? t" := (String.eqb s t) (at level 70, no associativity) : cloudx_scope.
Notation "s <>s? t" := (negb (String.eqb s t)) (at level 70, no associativity) : cloudx_scope.

Create HintDb cloudx discriminated.
Create Rewrite HintDb cloudx.

Lemma eqs_spec (s t : string) : reflect (s = t) (s =s? t).
Proof. apply String.eqb_spec. Qed.

Lemma eqs_refl s : (s =s? s) = true.
Proof. apply String.eqb_refl. Qed.

Lemma eqs_ne s t : s ≠ t → (s =s? t) = false.
Proof. apply String.eqb_neq. Qed.

(** [x in {a, b, ...}] on strings. *)
Definition mem (s : string) (l : list string) : bool := existsb (String.eqb s) l.

Lemma mem_spec s l : mem s l = true ↔ In s l.
Proof.
  unfold mem. rewrite existsb_exists. split.
  - intros (x & Hx & He). apply String.eqb_eq in He. by subst.
  - intros H. exists s. by rewrite eqs_refl.
Qed.

Lemma mem_false s l : mem s l = false ↔ ¬ In s l.
Proof. rewrite <- mem_spec. destruct (mem s l); naive_solver. Qed.

#[export] Hint Rewrite eqs_refl : cloudx.
#[export] Hint Resolve eqs_ne : cloudx.

(** ** Exceptions

    A Python function returns a value or raises; the class decides which
    [except] clause sees it.  [exn_class] lists the classes the program names. *)

Inductive exn_class :=
| PublicMetadataRejected | AccountStateRejected | LegacyHealthRejected
| EvidenceRejected | CpaAuthRejected | CpaHealthUnavailable | CpaCapabilityError
| ImportRejected | AgentIdentityError | LocalImportError
| LocalCpaMaintenanceRejected | HelperUnavailable
| AcceptanceRejected | CpaPolicyInstallRejected | SupportRejected | ActiveImportRejected
| RuntimeError | ValueError | TypeError | KeyError | IndexError | AttributeError
| OverflowError | OSError | FileNotFoundError | BlockingIOError
| UnicodeDecodeError | JSONDecodeError.

#[global] Instance exn_class_eq_dec : EqDecision exn_class.
Proof. solve_decision. Defined.

(** [isinstance] on exception classes: the direct base class of each. *)
Definition exn_base (c : exn_class) : option exn_class :=
  match c with
  | PublicMetadataRejected | AccountStateRejected | LegacyHealthRejected
  | CpaAuthRejected | CpaHealthUnavailable | CpaCapabilityError
  | ImportRejected | LocalImportError | LocalCpaMaintenanceRejected
  | HelperUnavailable | AcceptanceRejected | CpaPolicyInstallRejected
  | SupportRejected | ActiveImportRejected => Some RuntimeError
  | EvidenceRejected | AgentIdentityError
  | UnicodeDecodeError | JSONDecodeError => Some ValueError
  | FileNotFoundError | BlockingIOError => Some OSError
  | _ => None
  end.

Definition catches (handler raised : exn_class) : bool :=
  bool_decide (handler = raised) || bool_decide (exn_base raised = Some handler).

Record exn := Exn { exn_cls : exn_class; exn_code : string; exn_msg : string }.

#[global] Instance exn_eq_dec : EqDecision exn.
Proof. solve_decision. Defined.

Inductive res (A : Type) := Ok (a : A) | Raise (e : exn).
Arguments Ok {A} a.
Arguments Raise {A} e.

#[global] Instance res_eq_dec {A} `{EqDecision A} : EqDecision (res A).
Proof. solve_decision. Defined.

(** [raise Cls(msg)] and [raise ImportRejected(code, msg)]. *)
Definition raise {A} (c : exn_class) (msg : string) : res A := Raise (Exn c "" msg).
Definition raise_code {A} (c : exn_class) (code msg : string) : res A :=
  Raise (Exn c code msg).

Definition is_ok {A} (r : res A) : bool := match r with Ok _ => true | Raise _ => false end.

Notation "'let*' x := m 'in' k" :=
  (match m with Ok x => k | Raise e => Raise e end)
  (at level 10, x pattern, m at level 200, k at level 200) : cloudx_scope.
Notation "'let?' x := m 'in' k" :=
  (match m with Some x => k | None => None end)
  (at level 10, x pattern, m at level 200, k at level 200) : cloudx_scope.

(** Left-to-right evaluation of a comprehension whose body may raise. *)
Fixpoint map_res {A B} (f : A → res B) (l : list A) : res (list B) :=
  match l with
  | [] => Ok []
  | x :: l => let* y := f x in let* ys := map_res f l in Ok (y :: ys)
  end.

Fixpoint iter_res {A} (f : A → res unit) (l : list A) : res unit :=
  match l with
  | [] => Ok tt
  | x :: l => let* _ := f x in iter_res f l
  end.

Fixpoint fold_res {A S} (f : S → A → res S) (s : S) (l : list A) : res S :=
  match l with
  | [] => Ok s
  | x :: l => let* s' := f s x in fold_res f s' l
  end.

Lemma map_res_Forall2 {A B} (f : A → res B) l ys :
  map_res f l = Ok ys ↔ Forall2 (λ x y, f x = Ok y) l ys.
Proof.
  revert ys. induction l as [|x l IH]; intros ys; simpl.
  - split; [intros [= <-]; constructor | by inversion 1].
  - split.
    + destruct (f x) as [y|] eqn:Hx; [|done].
      destruct (map_res f l) as [ys'|] eqn:Hl; [|done].
      intros [= <-]. constructor; [done|]. by apply IH.
    + inversion 1 as [|? y ? ys' Hx Hl]; subst. rewrite Hx.
      apply IH in Hl. by rewrite Hl.
Qed.

Lemma map_res_length {A B} (f : A → res B) l ys :
  map_res f l = Ok ys → length ys = length l.
Proof. intros H%map_res_Forall2. symmetry. by eapply Forall2_length. Qed.

Lemma iter_res_ok {A} (f : A → res unit) l :
  iter_res f l = Ok tt ↔ Forall (λ x, f x = Ok tt) l.
Proof.
  induction l as [|x l IH]; simpl.
  - split; [constructor|done].
  - destruct (f x) as [[]|e] eqn:Hx.
    + rewrite IH. split; [by constructor|by inversion 1].
    + split; [done|]. inversion 1; congruence.
Qed.

(** ** Tactics of the development *)

(** Case analysis on the discriminee of a [match] or [if] of the goal or of a
    hypothesis, remembering the equation; used to walk through the early returns of
    a translated function. *)
Ltac break_goal :=
  match goal with
  | |- context [match ?x with _ => _ end] => destruct x eqn:?; try discriminate
  end.
Ltac break_hyp H :=
  match type of H with
  | context [match ?x with _ => _ end] => destruct x eqn:?; try discriminate
  end.
Ltac inv_res :=
  repeat match goal with
  | H : Ok _ = Ok _ |- _ => injection H as H
  | H : Raise _ = Raise _ |- _ => injection H as H
  | H : Some _ = Some _ |- _ => injection H as H
  | H : Ok _ = Raise _ |- _ => discriminate
  | H : Raise _ = Ok _ |- _ => discriminate
  | H : raise _ _ = Ok _ |- _ => discriminate
  | H : Ok _ = raise _ _ |- _ => discriminate
  end; subst.
(** Follow a translated function along the path on which it returns. *)
Ltac walk H := repeat (break_hyp H); inv_res.
Ltac bool_prop :=
  repeat match goal with
  | H : _ && _ = true |- _ => apply andb_true_iff in H as [??]
  | H : _ || _ = false |- _ => apply orb_false_iff in H as [??]
  | H : negb _ = true |- _ => apply negb_true_iff in H
  | H : negb _ = false |- _ => apply negb_false_iff in H
  | H : (_ =s? _) = true |- _ => apply String.eqb_eq in H
  | H : (_ =s? _) = false |- _ => apply String.eqb_neq in H
  | H : (_ =? _) = true |- _ => apply Z.eqb_eq in H
  | H : (_ =? _) = false |- _ => apply Z.eqb_neq in H
  | H : (_ <? _) = true |- _ => apply Z.ltb_lt in H
  | H : (_ <? _) = false |- _ => apply Z.ltb_ge in H
  | H : (_ <=? _) = true |- _ => apply Z.leb_le in H
  | H : (_ <=? _) = false |- _ => apply Z.leb_gt in H
  end.
(** Decide the boolean integer tests of the goal from the arithmetic hypotheses. *)
Ltac z_bool :=
  repeat match goal with
  | |- context [?a <? ?b] => destruct (Z.ltb_spec a b); try lia
  | |- context [?a <=? ?b] => destruct (Z.leb_spec a b); try lia
  | |- context [?a =? ?b] => destruct (Z.eqb_spec a b); try lia
  end.

(** ** Stable sorting

    Python's [sorted] is stable; [sort_by leb] inserts each element before the
    first element that is not smaller. *)
Section sort.
Context {A : Type} (leb : A → A → bool).

Fixpoint insert_by (x : A) (l : list A) : list A :=
  match l with
  | [] => [x]
  | y :: l' => if leb x y then x :: l else y :: insert_by x l'
  end.

Fixpoint sort_by (l : list A) : list A :=
  match l with
  | [] => []
  | x :: l => insert_by x (sort_by l)
  end.

Lemma insert_by_perm x l : insert_by x l ≡ₚ x :: l.
Proof.
  induction l as [|y l IH]; simpl; [done|].
  destruct (leb x y); [done|]. rewrite IH. apply Permutation_swap.
Qed.

Lemma sort_by_perm l : sort_by l ≡ₚ l.
Proof. induction l as [|x l IH]; simpl; [done|]. by rewrite insert_by_perm, IH. Qed.

Lemma sort_by_In x l : In x (sort_by l) ↔ In x l.
Proof. split; apply Permutation_in; [|symmetry]; apply sort_by_perm. Qed.

Context (leb_total : ∀ x y, leb x y = false → leb y x = true).

Lemma insert_by_sorted x l :
  Sorted (λ a b, leb a b = true) l → Sorted (λ a b, leb a b = true) (insert_by x l).
Proof.
  induction 1 as [|y l Hs IH Hd]; simpl.
  - by repeat constructor.
  - destruct (leb x y) eqn:E; [by repeat constructor|].
    constructor; [done|]. destruct Hd as [|z l Hz]; simpl.
    + constructor. auto.
    + destruct (leb x z) eqn:?; constructor; auto.
Qed.

Lemma sort_by_sorted l : Sorted (λ a b, leb a b = true) (sort_by l).
Proof. induction l; simpl; [constructor|by apply insert_by_sorted]. Qed.
End sort.

Definition str_leb (s t : string) : bool := bool_decide (String.le s t).

Lemma str_leb_total s t : str_leb s t = false → str_leb t s = true.
Proof.
  unfold str_leb. intros H%bool_decide_eq_false. apply bool_decide_eq_true.
  destruct (total String.le s t); [contradiction|done].
Qed.

(** [sorted(set(l))] on strings. *)
Fixpoint dedup (l : list string) : list string :=
  match l with
  | [] => []
  | s :: l => if mem s l then dedup l else s :: dedup l
  end.
Definition sorted_set (l : list string) : list string := sort_by str_leb (dedup l).

Lemma dedup_In s l : In s (dedup l) ↔ In s l.
Proof.
  induction l as [|t l IH]; simpl; [done|].
  destruct (mem t l) eqn:E; simpl; rewrite IH; [|done].
  apply mem_spec in E. naive_solver.
Qed.

Lemma dedup_NoDup l : List.NoDup (dedup l).
Proof.
  induction l as [|t l IH]; simpl; [constructor|].
  destruct (mem t l) eqn:E; [done|]. constructor; [|done].
  rewrite dedup_In. by apply mem_false.
Qed.

Lemma sorted_set_In s l : In s (sorted_set l) ↔ In s l.
Proof. unfold sorted_set. by rewrite sort_by_In, dedup_In. Qed.

Lemma NoDup_map_eq {A B} (g : A → B) l x y :
  NoDup (map g l) → In x l → In y l → g x = g y → x = y.
Proof.
  induction l as [|z l IH]; [done|]. intros [Hz Hl]%NoDup_cons. rewrite list_elem_of_In in Hz.
  intros [->|Hx] [->|Hy] Heq; [done|destruct Hz|destruct Hz|by apply IH].
  - rewrite Heq. by apply in_map.
  - rewrite <- Heq. by apply in_map.
Qed.
