(* ===== verification/PyStr.v ===== *)
(** * Python's [str] and [bytes]

    A Python string is a Rocq [string], one character per byte of its UTF-8
    encoding; [bytes] are Rocq strings too.  Equality, substring tests, prefixes,
    suffixes, splitting and ordering agree with Python's on such encodings.
    Case mapping and white space are those of the ASCII range: other bytes are left
    unchanged by [lower] and [casefold] and are not stripped by [strip]. *)

From S2P Require Import Prelude.

Definition chr (n : nat) : string := String (ascii_of_nat n) EmptyString.
Definition ord (c : ascii) : nat := nat_of_ascii c.

Definition LF : string := chr 10.
Definition CR : string := chr 13.
Definition NUL : string := chr 0.
Definition QUOTE : string := chr 34.

Definition str_len (s : string) : Z := Z.of_nat (String.length s).

Fixpoint chars (s : string) : list ascii :=
  match s with EmptyString => [] | String c s => c :: chars s end.
Fixpoint of_chars (l : list ascii) : string :=
  match l with [] => EmptyString | c :: l => String c (of_chars l) end.

Fixpoint str_map (f : ascii → ascii) (s : string) : string :=
  match s with EmptyString => EmptyString | String c s => String (f c) (str_map f s) end.
Fixpoint str_filter (f : ascii → bool) (s : string) : string :=
  match s with
  | EmptyString => EmptyString
  | String c s => if f c then String c (str_filter f s) else str_filter f s
  end.
Fixpoint str_forall (f : ascii → bool) (s : string) : bool :=
  match s with EmptyString => true | String c s => f c && str_forall f s end.
Definition str_exists (f : ascii → bool) (s : string) : bool :=
  negb (str_forall (λ c, negb (f c)) s).

Definition str_rev (s : string) : string := of_chars (reverse (chars s)).

Definition in_range (lo hi : nat) (c : ascii) : bool :=
  (Nat.leb lo (ord c) && Nat.leb (ord c) hi)%bool.

Definition is_digit : ascii → bool := in_range 48 57.
Definition is_upper : ascii → bool := in_range 65 90.
Definition is_lower : ascii → bool := in_range 97 122.
Definition is_alpha (c : ascii) : bool := is_upper c || is_lower c.
Definition is_alnum (c : ascii) : bool := is_alpha c || is_digit c.
(** [\t\n\v\f\r], the separators 0x1c-0x1f, and the blank. *)
Definition is_space (c : ascii) : bool :=
  in_range 9 13 c || in_range 28 31 c || Nat.eqb (ord c) 32.
Definition is_control (c : ascii) : bool := Nat.ltb (ord c) 32 || Nat.eqb (ord c) 127.

Definition to_lower (c : ascii) : ascii :=
  if is_upper c then ascii_of_nat (ord c + 32) else c.

Definition str_lower : string → string := str_map to_lower.
Definition casefold : string → string := str_map to_lower.

Fixpoint drop_while (f : ascii → bool) (s : string) : string :=
  match s with
  | EmptyString => EmptyString
  | String c s' => if f c then drop_while f s' else s
  end.
Definition lstrip_by (f : ascii → bool) (s : string) : string := drop_while f s.
Definition rstrip_by (f : ascii → bool) (s : string) : string :=
  str_rev (drop_while f (str_rev s)).
Definition strip_by (f : ascii → bool) (s : string) : string := rstrip_by f (lstrip_by f s).
Definition strip : string → string := strip_by is_space.
Definition rstrip : string → string := rstrip_by is_space.

Definition starts_with (p s : string) : bool := String.prefix p s.
Definition ends_with (p s : string) : bool := String.prefix (str_rev p) (str_rev s).

Fixpoint str_drop (n : nat) (s : string) : string :=
  match n, s with
  | S n, String _ s => str_drop n s
  | _, _ => s
  end.
Fixpoint str_take (n : nat) (s : string) : string :=
  match n, s with
  | S n, String c s => String c (str_take n s)
  | _, _ => EmptyString
  end.
(** [str_take] with an integer bound. *)
Fixpoint str_take_z (n : Z) (s : string) : string :=
  match s with
  | EmptyString => EmptyString
  | String c s => if n <=? 0 then EmptyString else String c (str_take_z (n - 1) s)
  end.
(** [s[:-n]] and [s[-n:]]. *)
Definition drop_last (n : nat) (s : string) : string := str_take (String.length s - n) s.
Definition take_last (n : nat) (s : string) : string := str_drop (String.length s - n) s.

(** [sub in s], [s.find(sub)] (the first index), [s.rfind(sub)]. *)
Fixpoint find_from (i : nat) (sub s : string) : option nat :=
  if String.prefix sub s then Some i
  else match s with EmptyString => None | String _ s => find_from (S i) sub s end.
Definition str_find (sub s : string) : option nat := find_from 0 sub s.
Definition contains (sub s : string) : bool :=
  match str_find sub s with Some _ => true | None => false end.
Fixpoint rfind_from (i : nat) (sub s : string) : option nat :=
  match s with
  | EmptyString => if String.prefix sub s then Some i else None
  | String _ s' =>
      match rfind_from (S i) sub s' with
      | Some j => Some j
      | None => if String.prefix sub s then Some i else None
      end
  end.
Definition str_rfind (sub s : string) : option nat := rfind_from 0 sub s.

(** [s.count(c)] for one character. *)
Fixpoint count_char (c : ascii) (s : string) : nat :=
  match s with
  | EmptyString => 0
  | String d s => (if Ascii.eqb c d then 1 else 0) + count_char c s
  end%nat.

(** [s.split(c)] for one character. *)
Fixpoint split_char (c : ascii) (s : string) : list string :=
  match s with
  | EmptyString => [EmptyString]
  | String d s =>
      if Ascii.eqb c d then EmptyString :: split_char c s
      else match split_char c s with
           | [] => [String d EmptyString]
           | x :: xs => String d x :: xs
           end
  end.

(** [s.split(sep, 1)] when [sep] occurs. *)
Definition split_once (sep s : string) : option (string * string) :=
  match str_find sep s with
  | Some i => Some (str_take i s, str_drop (i + String.length sep) s)
  | None => None
  end.

(** [s.split()]: the words between runs of white space. *)
Fixpoint words_go (cur : string) (s : string) : list string :=
  match s with
  | EmptyString => match cur with EmptyString => [] | _ => [str_rev cur] end
  | String c s =>
      if is_space c then
        match cur with EmptyString => words_go EmptyString s
                     | _ => str_rev cur :: words_go EmptyString s end
      else words_go (String c cur) s
  end.
Definition str_words (s : string) : list string := words_go EmptyString s.

(** [s.splitlines()]: a final line break starts no further line. *)
Definition is_line_break (c : ascii) : bool := in_range 10 13 c || in_range 28 30 c.
Fixpoint splitlines_go (cur : string) (s : string) : list string :=
  match s with
  | EmptyString => match cur with EmptyString => [] | _ => [str_rev cur] end
  | String c s =>
      if Nat.eqb (ord c) 13 then
        match s with
        | String d s' =>
            if Nat.eqb (ord d) 10 then str_rev cur :: splitlines_go EmptyString s'
            else str_rev cur :: splitlines_go EmptyString s
        | EmptyString => [str_rev cur]
        end
      else if is_line_break c then str_rev cur :: splitlines_go EmptyString s
      else splitlines_go (String c cur) s
  end.
Definition splitlines (s : string) : list string := splitlines_go EmptyString s.

Fixpoint str_join (sep : string) (l : list string) : string :=
  match l with
  | [] => EmptyString
  | [s] => s
  | s :: l => s +:+ sep +:+ str_join sep l
  end.

Definition replace_char (c d : ascii) : string → string :=
  str_map (λ x, if Ascii.eqb x c then d else x).

(** [str(n)] and ["%d" % n]; [int(s)] on a string of digits. *)
Definition str_of_Z (z : Z) : string := pretty z.
Definition digit_val (c : ascii) : Z := Z.of_nat (ord c) - 48.
Fixpoint digits_val (acc : Z) (s : string) : Z :=
  match s with
  | EmptyString => acc
  | String c s => digits_val (acc * 10 + digit_val c) s
  end.
Definition all_digits (s : string) : bool := str_forall is_digit s && (s <>s? "").

(** ** UTF-8 *)

(** [raw.decode("utf-8")]: the well-formed byte sequences of RFC 3629. *)
Definition cont (c : ascii) : bool := in_range 128 191 c.
Fixpoint utf8_valid (s : string) : bool :=
  match s with
  | EmptyString => true
  | String a s1 =>
      if Nat.leb (ord a) 127 then utf8_valid s1
      else match s1 with
      | EmptyString => false
      | String b s2 =>
          if in_range 194 223 a then cont b && utf8_valid s2
          else match s2 with
          | EmptyString => false
          | String c s3 =>
              if Nat.eqb (ord a) 224 then in_range 160 191 b && cont c && utf8_valid s3
              else if Nat.eqb (ord a) 237 then in_range 128 159 b && cont c && utf8_valid s3
              else if in_range 225 239 a then cont b && cont c && utf8_valid s3
              else match s3 with
              | EmptyString => false
              | String d s4 =>
                  let rest := cont c && cont d && utf8_valid s4 in
                  if Nat.eqb (ord a) 240 then in_range 144 191 b && rest
                  else if Nat.eqb (ord a) 244 then in_range 128 143 b && rest
                  else if in_range 241 243 a then cont b && rest
                  else false
              end
          end
      end
  end.
(** [raw.decode("utf-8", "ignore")]: the bytes of the valid sequences.  [seq_len] is the
    length of the sequence the text starts with, [0] when it starts with none. *)
Definition cont_at (i : nat) (lo hi : nat) (s : string) : bool :=
  match String.get i s with Some c => in_range lo hi c | None => false end.
Definition seq_len (s : string) : nat :=
  match s with
  | EmptyString => 0
  | String a _ =>
      if Nat.leb (ord a) 127 then 1
      else if in_range 194 223 a then if cont_at 1 128 191 s then 2 else 0
      else if in_range 224 239 a then
        let lo := if Nat.eqb (ord a) 224 then 160 else 128 in
        let hi := if Nat.eqb (ord a) 237 then 159 else 191 in
        if cont_at 1 lo hi s && cont_at 2 128 191 s then 3 else 0
      else if in_range 240 244 a then
        let lo := if Nat.eqb (ord a) 240 then 144 else 128 in
        let hi := if Nat.eqb (ord a) 244 then 143 else 191 in
        if cont_at 1 lo hi s && cont_at 2 128 191 s && cont_at 3 128 191 s then 4 else 0
      else 0
  end%nat.
Fixpoint utf8_ignore_go (skip : nat) (s : string) : string :=
  match s with
  | EmptyString => EmptyString
  | String c s' =>
      match skip with
      | S k => String c (utf8_ignore_go k s')
      | O => match seq_len s with
             | O => utf8_ignore_go O s'
             | S k => String c (utf8_ignore_go k s')
             end
      end
  end.
Definition utf8_ignore (s : string) : string := utf8_ignore_go O s.

Definition decode_utf8 (raw : string) : option string :=
  if utf8_valid raw then Some raw else None.

(** [len(s)] and [s[:n]] in characters: the continuation bytes follow their first
    byte. *)
Fixpoint ulen (s : string) : nat :=
  match s with
  | EmptyString => 0
  | String c s => (if cont c then 0 else 1) + ulen s
  end%nat.
Fixpoint utake (n : nat) (s : string) : string :=
  match s with
  | EmptyString => EmptyString
  | String c s =>
      if cont c then String c (utake n s)
      else match n with O => EmptyString | S n => String c (utake n s) end
  end.

(** ** Lemmas *)

Lemma chars_of_chars l : chars (of_chars l) = l.
Proof. induction l; simpl; congruence. Qed.
Lemma of_chars_chars s : of_chars (chars s) = s.
Proof. induction s; simpl; congruence. Qed.
Lemma length_chars s : length (chars s) = String.length s.
Proof. induction s; simpl; congruence. Qed.
Lemma length_of_chars l : String.length (of_chars l) = length l.
Proof. induction l; simpl; congruence. Qed.

Lemma str_rev_involutive s : str_rev (str_rev s) = s.
Proof. unfold str_rev. by rewrite chars_of_chars, reverse_involutive, of_chars_chars. Qed.
Lemma str_rev_length s : String.length (str_rev s) = String.length s.
Proof. unfold str_rev. by rewrite length_of_chars, length_reverse, length_chars. Qed.

Lemma str_map_length f s : String.length (str_map f s) = String.length s.
Proof. induction s; simpl; congruence. Qed.

Lemma to_lower_idem c : to_lower (to_lower c) = to_lower c.
Proof. by destruct c as [[][][][][][][][]]. Qed.
Lemma str_lower_idem s : str_lower (str_lower s) = str_lower s.
Proof. unfold str_lower. induction s as [|c s IH]; simpl; [done|]. by rewrite to_lower_idem, IH. Qed.
Lemma casefold_idem s : casefold (casefold s) = casefold s.
Proof. apply str_lower_idem. Qed.

Lemma drop_while_idem f s : drop_while f (drop_while f s) = drop_while f s.
Proof. induction s as [|c s IH]; simpl; [done|]. destruct (f c) eqn:E; [done|]. simpl. by rewrite E. Qed.

Lemma drop_while_length f s : (String.length (drop_while f s) <= String.length s)%nat.
Proof. induction s as [|c s IH]; simpl; [done|]. destruct (f c); simpl; lia. Qed.

Lemma strip_length s : (String.length (strip s) <= String.length s)%nat.
Proof.
  unfold strip, strip_by, rstrip_by, lstrip_by. rewrite str_rev_length.
  etrans; [apply drop_while_length|]. rewrite str_rev_length. apply drop_while_length.
Qed.

(** The head of a list, of a string, and what [drop_while] leaves. *)
Definition head_ok (f : ascii → bool) (l : list ascii) : Prop :=
  match l with [] => True | c :: _ => f c = false end.

Lemma chars_drop_while f s :
  ∃ l, chars s = l ++ chars (drop_while f s) ∧ Forall (λ c, f c = true) l ∧
       head_ok f (chars (drop_while f s)).
Proof.
  induction s as [|c s (l & E & F & H)]; simpl; [by exists []|].
  destruct (f c) eqn:Hc.
  - exists (c :: l). split; [by rewrite E at 1|]. split; [by constructor|done].
  - by exists [].
Qed.

Lemma drop_while_head_ok f s : head_ok f (chars s) → drop_while f s = s.
Proof. destruct s as [|c s]; simpl; [done|]. by intros ->. Qed.

(** A suffix that keeps at least one character keeps the head of the whole. *)
Lemma head_ok_prefix f l k : head_ok f (l ++ k) → head_ok f l.
Proof. by destruct l. Qed.

Lemma chars_str_rev s : chars (str_rev s) = reverse (chars s).
Proof. unfold str_rev. by rewrite chars_of_chars. Qed.

Lemma strip_by_idem f s : strip_by f (strip_by f s) = strip_by f s.
Proof.
  unfold strip_by, rstrip_by, lstrip_by.
  set (t := drop_while f s).
  assert (Ht : head_ok f (chars t)).
  { by destruct (chars_drop_while f s) as (? & ? & ? & ?). }
  destruct (chars_drop_while f (str_rev t)) as (l & E & _ & Hh).
  set (u := drop_while f (str_rev t)) in *.
  assert (Hu : head_ok f (chars (str_rev u))).
  { rewrite chars_str_rev in E. apply (f_equal reverse) in E.
    rewrite reverse_involutive, reverse_app in E. rewrite E in Ht.
    apply head_ok_prefix in Ht. by rewrite chars_str_rev. }
  rewrite (drop_while_head_ok f (str_rev u)) by done.
  rewrite str_rev_involutive. f_equal. by apply drop_while_head_ok.
Qed.

Lemma strip_idem s : strip (strip s) = strip s.
Proof. apply strip_by_idem. Qed.

Lemma prefix_app_same p s : String.prefix p (p +:+ s) = true.
Proof.
  induction p as [|c p IH]; simpl; [by destruct s|].
  by destruct (ascii_dec c c).
Qed.

Lemma find_from_prefix sub s : String.prefix sub s = true → contains sub s = true.
Proof. unfold contains, str_find. intros H. destruct s; simpl in *; by rewrite H. Qed.

Lemma str_of_Z_inj z z' : str_of_Z z = str_of_Z z' → z = z'.
Proof. intros H. by apply (inj pretty). Qed.

Lemma str_length_app a b : String.length (a +:+ b) = (String.length a + String.length b)%nat.
Proof. induction a as [|c a IH]; simpl; [done|]. by rewrite <- IH. Qed.
Lemma str_app_assoc (a b c : string) : (a +:+ b) +:+ c = a +:+ b +:+ c.
Proof. induction a as [|x a IH]; simpl; [done|]. exact (f_equal (String x) IH). Qed.
Lemma str_app_inj_r s t u : s +:+ u = t +:+ u → s = t.
Proof.
  intros H. assert (Hl : String.length s = String.length t).
  { apply (f_equal String.length) in H. rewrite !str_length_app in H. lia. }
  revert t H Hl. induction s as [|a s IH]; intros [|b t] H Hl; try done.
  simpl in H. injection H as -> H. f_equal. apply IH; [done|]. by injection Hl.
Qed.
Lemma str_app_nil_r s : s +:+ "" = s.
Proof. induction s as [|c s IH]; [done|]. exact (f_equal (String c) IH). Qed.

Lemma str_rev_app a b : str_rev (a +:+ b) = str_rev b +:+ str_rev a.
Proof.
  unfold str_rev.
  assert (Hc : ∀ x y, chars (x +:+ y) = chars x ++ chars y).
  { intros x y. induction x as [|c x IH]; [done|]. exact (f_equal (cons c) IH). }
  assert (Ho : ∀ x y, of_chars (x ++ y) = of_chars x +:+ of_chars y).
  { intros x y. induction x as [|c x IH]; [done|]. exact (f_equal (String c) IH). }
  by rewrite Hc, reverse_app, Ho.
Qed.

(** *** Predicates on all characters *)

Lemma str_forall_app f s t : str_forall f (s +:+ t) = str_forall f s && str_forall f t.
Proof. induction s as [|c s IH]; simpl; [done|]. by rewrite IH, andb_assoc. Qed.
Lemma str_forall_chars f s : str_forall f s = forallb f (chars s).
Proof. induction s; simpl; congruence. Qed.
Lemma str_forall_rev f s : str_forall f (str_rev s) = str_forall f s.
Proof.
  rewrite !str_forall_chars, chars_str_rev. apply eq_true_iff_eq.
  rewrite !forallb_forall. by setoid_rewrite <- list_elem_of_In; setoid_rewrite elem_of_reverse.
Qed.
Lemma str_forall_mono (f g : ascii → bool) s :
  (∀ c, f c = true → g c = true) → str_forall f s = true → str_forall g s = true.
Proof. intros Hfg. induction s; simpl; [done|]. rewrite !andb_true_iff. naive_solver. Qed.
Lemma str_forall_filter f g s : str_forall g s = true → str_forall g (str_filter f s) = true.
Proof.
  induction s as [|c s IH]; simpl; [done|]. rewrite andb_true_iff. intros [Hc Hs].
  destruct (f c); simpl; rewrite ?Hc; auto.
Qed.
Lemma str_filter_forall f s : str_forall f (str_filter f s) = true.
Proof. induction s as [|c s IH]; simpl; [done|]. destruct (f c) eqn:E; simpl; by rewrite ?E. Qed.
Lemma drop_while_forall f g s : str_forall g s = true → str_forall g (drop_while f s) = true.
Proof.
  induction s as [|c s IH]; simpl; [done|]. intros H. pose proof H as [_ Hs]%andb_true_iff.
  destruct (f c); auto.
Qed.
Lemma rstrip_by_forall f g s : str_forall g s = true → str_forall g (rstrip_by f s) = true.
Proof. intros H. unfold rstrip_by. by rewrite str_forall_rev, drop_while_forall; rewrite ?str_forall_rev. Qed.
Lemma strip_by_forall f g s : str_forall g s = true → str_forall g (strip_by f s) = true.
Proof. intros H. by apply rstrip_by_forall, drop_while_forall. Qed.
Lemma utake_forall g n s : str_forall g s = true → str_forall g (utake n s) = true.
Proof.
  revert n. induction s as [|c s IH]; intros n; simpl; [done|].
  rewrite andb_true_iff. intros [Hc Hs].
  destruct (cont c); [|destruct n]; simpl; rewrite ?Hc; try done; by apply IH.
Qed.
Lemma str_join_forall g sep l :
  str_forall g sep = true → Forall (λ s, str_forall g s = true) l →
  str_forall g (str_join sep l) = true.
Proof.
  intros Hsep Hl. induction Hl as [|s l Hs Hl IH]; [done|].
  destruct l; simpl in *; [done|]. by rewrite !str_forall_app, Hs, Hsep.
Qed.

(** Every word of [s.split()] keeps the property of the characters of [s] and has no
    white space. *)
Lemma words_go_forall g cur s :
  str_forall g cur = true → str_forall g s = true →
  Forall (λ w, str_forall g w = true) (words_go cur s).
Proof.
  revert cur. induction s as [|c s IH]; intros cur Hcur; simpl.
  - intros _. destruct cur; constructor; [|done]. by rewrite str_forall_rev.
  - rewrite andb_true_iff. intros [Hc Hs]. destruct (is_space c).
    + destruct cur as [|d cur']; [by apply IH|]. constructor; [by rewrite str_forall_rev|by apply IH].
    + apply IH; [simpl; by rewrite Hc|done].
Qed.
Lemma words_go_nospace cur s :
  str_forall (λ c, negb (is_space c)) cur = true →
  Forall (λ w, str_forall (λ c, negb (is_space c)) w = true) (words_go cur s).
Proof.
  revert cur. induction s as [|c s IH]; intros cur Hcur; simpl.
  - destruct cur; constructor; [|done]. by rewrite str_forall_rev.
  - destruct (is_space c) eqn:E.
    + destruct cur as [|d cur']; [by apply IH|]. constructor; [by rewrite str_forall_rev|by apply IH].
    + apply IH. simpl. by rewrite E.
Qed.

Lemma ulen_app s t : ulen (s +:+ t) = (ulen s + ulen t)%nat.
Proof. induction s as [|c s IH]; simpl; [done|]. rewrite IH. lia. Qed.
Lemma ulen_rev s : ulen (str_rev s) = ulen s.
Proof.
  assert (Hf : ∀ u, ulen u = length (List.filter (λ c, negb (cont c)) (chars u))).
  { induction u as [|c u IH]; simpl; [done|]. rewrite IH. by destruct (cont c). }
  rewrite !Hf, chars_str_rev. apply Permutation_length.
  assert (∀ l : list ascii, List.filter (λ c, negb (cont c)) (reverse l) ≡ₚ
    List.filter (λ c, negb (cont c)) l) as ->; [|done].
  induction l as [|c l IH]; [done|].
  rewrite reverse_cons, List.filter_app. simpl.
  destruct (negb (cont c)); rewrite ?app_nil_r, <- ?Permutation_cons_append; by rewrite IH.
Qed.
Lemma ulen_drop_while f s : (ulen (drop_while f s) <= ulen s)%nat.
Proof. induction s as [|c s IH]; simpl; [done|]. destruct (f c); simpl; lia. Qed.
Lemma ulen_rstrip_by f s : (ulen (rstrip_by f s) <= ulen s)%nat.
Proof.
  unfold rstrip_by. rewrite ulen_rev. etrans; [apply ulen_drop_while|]. by rewrite ulen_rev.
Qed.
Lemma ulen_utake n s : (ulen (utake n s) <= n)%nat.
Proof.
  revert n. induction s as [|c s IH]; intros n; simpl; [lia|].
  destruct (cont c) eqn:E; [|destruct n]; simpl; rewrite ?E; [apply IH|lia|].
  specialize (IH n). lia.
Qed.

#[export] Hint Rewrite strip_idem casefold_idem str_lower_idem : cloudx.
