(* ===== verification/PyFloat.v ===== *)
(** * Python's [float]

    IEEE 754 double precision, each finite value kept exactly as a signed integer
    times a power of two.  [FFin neg m e] is the value [(-1)^neg * m * 2^e] with
    [m] odd, or [m = e = 0] for the two zeros, so that distinct representations are
    distinct doubles.  The operations are those the program uses: rounding of an
    exact quotient (decimal literals, [int / int]), ordering against integers and
    floats, truncation, addition and the shortest [repr]. *)

From S2P Require Import Prelude PyStr.

Inductive pyfloat := FFin (neg : bool) (m e : Z) | FInf (neg : bool) | FNan.

#[global] Instance pyfloat_eq_dec : EqDecision pyfloat.
Proof. solve_decision. Defined.

(** Remove the factors of two of a positive significand. *)
Definition fnorm (neg : bool) (m e : Z) : pyfloat :=
  if m =? 0 then FFin neg 0 0
  else let t := Z.log2 (Z.land m (- m)) in FFin neg (Z.shiftr m t) (e + t).

(** Nearest integer to [n / d], ties to even ([d > 0]). *)
Definition round_half_even (n d : Z) : Z :=
  let q := n / d in
  let r := n mod d in
  if 2 * r <? d then q
  else if d <? 2 * r then q + 1
  else if Z.even q then q else q + 1.

(** Nearest double to [num / den], [num >= 0], [den > 0]. *)
Definition round_pos (neg : bool) (num den : Z) : pyfloat :=
  if num =? 0 then FFin neg 0 0
  else
    let k := Z.log2 num - Z.log2 den in
    let ge := if 0 <=? k then den * 2 ^ k <=? num else den <=? num * 2 ^ (- k) in
    let fl := if ge then k else k - 1 in
    let e := Z.max (-1074) (fl - 52) in
    let m := if 0 <=? e then round_half_even num (den * 2 ^ e)
             else round_half_even (num * 2 ^ (- e)) den in
    if (if 0 <=? e then 2 ^ 1024 <=? m * 2 ^ e else false) then FInf neg
    else fnorm neg m e.

Definition round_rat (num den : Z) : pyfloat :=
  if num <? 0 then round_pos true (- num) den else round_pos false num den.

(** [float(z)]; [None] when Python raises [OverflowError]. *)
Definition float_of_Z (z : Z) : option pyfloat :=
  match round_rat z 1 with FInf _ => None | f => Some f end.

Definition signed (neg : bool) (m : Z) : Z := if neg then - m else m.

(** Comparison of exact values: [m1 * 2^e1] against [m2 * 2^e2]. *)
Definition dyadic_compare (m1 e1 m2 e2 : Z) : comparison :=
  let e := Z.min e1 e2 in (m1 * 2 ^ (e1 - e)) ?= (m2 * 2 ^ (e2 - e)).

(** [None] when either side is a NaN: every ordering test is then false. *)
Definition fcompare (a b : pyfloat) : option comparison :=
  match a, b with
  | FNan, _ | _, FNan => None
  | FInf true, FInf true | FInf false, FInf false => Some Eq
  | FInf true, _ => Some Lt
  | FInf false, _ => Some Gt
  | _, FInf true => Some Gt
  | _, FInf false => Some Lt
  | FFin s1 m1 e1, FFin s2 m2 e2 =>
      Some (dyadic_compare (signed s1 m1) e1 (signed s2 m2) e2)
  end.

(** An integer is compared exactly, without conversion to a double. *)
Definition fcompare_Z (a : pyfloat) (z : Z) : option comparison :=
  match a with
  | FNan => None
  | FInf true => Some Lt
  | FInf false => Some Gt
  | FFin s m e => Some (dyadic_compare (signed s m) e z 0)
  end.

Definition is_cmp (f : comparison → bool) (c : option comparison) : bool :=
  match c with Some c => f c | None => false end.
Definition cmp_lt c := match c with Lt => true | _ => false end.
Definition cmp_le c := match c with Gt => false | _ => true end.
Definition cmp_gt c := match c with Gt => true | _ => false end.
Definition cmp_ge c := match c with Lt => false | _ => true end.
Definition cmp_eq c := match c with Eq => true | _ => false end.

Definition fle (a b : pyfloat) : bool := is_cmp cmp_le (fcompare a b).
Definition fzero (a : pyfloat) : bool := is_cmp cmp_eq (fcompare_Z a 0).

(** [int(f)]: truncation towards zero; NaN and the infinities raise. *)
Inductive trunc_result := TInt (z : Z) | TNan | TInf.
Definition ftrunc (a : pyfloat) : trunc_result :=
  match a with
  | FNan => TNan
  | FInf _ => TInf
  | FFin s m e => TInt (signed s (if 0 <=? e then m * 2 ^ e else m / 2 ^ (- e)))
  end.

(** The sum of two finite doubles, correctly rounded. *)
Definition fadd (a b : pyfloat) : pyfloat :=
  match a, b with
  | FNan, _ | _, FNan => FNan
  | FInf s, FInf t => if Bool.eqb s t then FInf s else FNan
  | FInf s, _ => FInf s
  | _, FInf s => FInf s
  | FFin s1 m1 e1, FFin s2 m2 e2 =>
      let e := Z.min e1 e2 in
      let n := signed s1 m1 * 2 ^ (e1 - e) + signed s2 m2 * 2 ^ (e2 - e) in
      if n =? 0 then FFin (s1 && s2) 0 0
      else if 0 <=? e then round_rat (n * 2 ^ e) 1 else round_rat n (2 ^ (- e))
  end.

(** ** [repr] *)

(** The exact value of a finite positive double as a fraction. *)
Definition frac_of (m e : Z) : Z * Z :=
  if 0 <=? e then (m * 2 ^ e, 1) else (m, 2 ^ (- e)).

Definition pow10_mul (num den k : Z) : Z * Z :=
  if 0 <=? k then (num * 10 ^ k, den) else (num, den * 10 ^ (- k)).

(** The decimal exponent [p] with [10^(p-1) <= num/den < 10^p]. *)
Fixpoint decpt_search (fuel : nat) (num den p : Z) : Z :=
  match fuel with
  | O => p
  | S fuel =>
      let '(n, d) := pow10_mul num den (- p) in
      if d <=? n then decpt_search fuel num den (p + 1)
      else if 10 * n <? d then decpt_search fuel num den (p - 1)
      else p
  end.
Definition decpt_guess (num den : Z) : Z :=
  ((Z.log2 num - Z.log2 den) * 30103) / 100000 + 1.

(** Candidates with [n] significant digits: the floor and the ceiling of the scaled
    value; kept when they round back to the double, the closer one first. *)
Definition digits_try (m e num den p : Z) (n : Z) : option (Z * Z) :=
  let '(a, b) := pow10_mul num den (n - p) in
  let lo := a / b in
  let hi := lo + 1 in
  let back (c : Z) :=
    let '(x, y) := pow10_mul c 1 (p - n) in
    bool_decide (round_pos false x y = FFin false m e) in
  let r := a mod b in
  let lo_first := (2 * r <? b) || ((2 * r =? b) && Z.even lo) in
  if lo_first then
    if back lo then Some (lo, n) else if back hi then Some (hi, n) else None
  else if back hi then Some (hi, n) else if back lo then Some (lo, n) else None.
Fixpoint shortest (fuel : nat) (m e num den p n : Z) : Z * Z :=
  match fuel with
  | O => (0, 1)
  | S fuel =>
      match digits_try m e num den p n with
      | Some r => r
      | None => shortest fuel m e num den p (n + 1)
      end
  end.

Fixpoint zeros (n : nat) : string :=
  match n with O => EmptyString | S n => String "0" (zeros n) end.

Definition strip_zeros (s : string) : string := rstrip_by (Ascii.eqb "0") s.

Definition fexp (x : Z) : string :=
  let a := str_of_Z (Z.abs x) in
  (if x <? 0 then "-" else "+") +:+ (if Z.abs x <? 10 then "0" +:+ a else a).

Definition frepr (f : pyfloat) : string :=
  match f with
  | FNan => "nan"
  | FInf true => "-inf"
  | FInf false => "inf"
  | FFin s m e =>
      (if s then "-" else "") +:+
      (if m =? 0 then "0.0"
       else
         let '(num, den) := frac_of m e in
         let p := decpt_search 700 num den (decpt_guess num den) in
         let '(c, n) := shortest 17 m e num den p 1 in
         let full := str_of_Z c in
         (* a carry to the next power of ten adds a digit *)
         let p := p + (str_len full - n) in
         let ds := strip_zeros full in
         let k := Z.of_nat (String.length ds) in
         if (-4 <? p) && (p <=? 16) then
           if p <=? 0 then "0." +:+ zeros (Z.to_nat (- p)) +:+ ds
           else if k <=? p then ds +:+ zeros (Z.to_nat (p - k)) +:+ ".0"
           else str_take (Z.to_nat p) ds +:+ "." +:+ str_drop (Z.to_nat p) ds
         else
           let head := str_take 1 ds in
           let tail := str_drop 1 ds in
           head +:+ (if tail =s? "" then "" else "." +:+ tail) +:+ "e" +:+ fexp (p - 1))
  end.

(** ** Lemmas *)

Lemma fcompare_refl s m e : fcompare (FFin s m e) (FFin s m e) = Some Eq.
Proof. simpl. unfold dyadic_compare. by rewrite Z.compare_refl. Qed.

Lemma dyadic_compare_antisym m1 e1 m2 e2 :
  dyadic_compare m2 e2 m1 e1 = CompOpp (dyadic_compare m1 e1 m2 e2).
Proof. unfold dyadic_compare. rewrite (Z.min_comm e2 e1). apply Z.compare_antisym. Qed.

(** Truncation moves the value towards zero by less than one. *)
Lemma ftrunc_bound s m e z :
  0 <= m → ftrunc (FFin s m e) = TInt z →
  Z.abs z * 2 ^ Z.max 0 (- e) <= m * 2 ^ Z.max 0 e < (Z.abs z + 1) * 2 ^ Z.max 0 (- e).
Proof.
  intros Hm [= <-].
  replace (Z.abs (signed s _)) with (if 0 <=? e then m * 2 ^ e else m / 2 ^ (- e)).
  - destruct (Z.leb_spec 0 e).
    + rewrite (Z.max_r 0 e), (Z.max_l 0 (- e)) by lia. change (2 ^ 0) with 1. lia.
    + rewrite (Z.max_l 0 e), (Z.max_r 0 (- e)) by lia. change (2 ^ 0) with 1.
      assert (0 < 2 ^ (- e)) by (apply Z.pow_pos_nonneg; lia).
      pose proof (Z.div_mod m (2 ^ (- e)) ltac:(lia)).
      pose proof (Z.mod_pos_bound m (2 ^ (- e)) ltac:(lia)). nia.
  - assert (0 <= (if 0 <=? e then m * 2 ^ e else m / 2 ^ (- e))).
    { destruct (Z.leb_spec 0 e).
      - apply Z.mul_nonneg_nonneg; [done|]. apply Z.pow_nonneg; lia.
      - apply Z.div_pos; [done|]. apply Z.pow_pos_nonneg; lia. }
    destruct s; simpl; lia.
Qed.
