(* ===== verification/PyValue.v ===== *)
(** * JSON-shaped Python values

    What [json.loads] returns and [json.dumps] takes: [None], [bool], [int],
    [float], [str], [list] and [dict] with string keys.  A [dict] is its items in
    insertion order.  The tests the program writes on such values ([isinstance],
    truth, [or], [==], [in], [str()]) are defined here once. *)

From S2P Require Import Prelude PyStr PyFloat.

Inductive json :=
| JNull
| JBool (b : bool)
| JInt (z : Z)
| JFloat (f : pyfloat)
| JStr (s : string)
| JList (l : list json)
| JDict (d : list (string * json)).

Abbreviation dict := (list (string * json)) (only parsing).

(** Induction through the lists. *)
Section json_ind.
Context (P : json → Prop)
  (Hnull : P JNull) (Hbool : ∀ b, P (JBool b)) (Hint : ∀ z, P (JInt z))
  (Hfloat : ∀ f, P (JFloat f)) (Hstr : ∀ s, P (JStr s))
  (Hlist : ∀ l, Forall P l → P (JList l))
  (Hdict : ∀ d, Forall (λ kv, P kv.2) d → P (JDict d)).

Fixpoint json_rect' (v : json) : P v :=
  match v with
  | JNull => Hnull
  | JBool b => Hbool b
  | JInt z => Hint z
  | JFloat f => Hfloat f
  | JStr s => Hstr s
  | JList l =>
      Hlist l ((fix go (l : list json) : Forall P l :=
        match l with
        | [] => Forall_nil_2 P
        | x :: l => Forall_cons_2 P x l (json_rect' x) (go l)
        end) l)
  | JDict d =>
      Hdict d ((fix go (d : list (string * json)) : Forall (λ kv, P kv.2) d :=
        match d with
        | [] => Forall_nil_2 _
        | kv :: d => Forall_cons_2 (λ kv, P kv.2) kv d (json_rect' kv.2) (go d)
        end) d)
  end.
End json_ind.

(** Structural equality, decided. *)
Fixpoint json_beq (a b : json) : bool :=
  match a, b with
  | JNull, JNull => true
  | JBool x, JBool y => Bool.eqb x y
  | JInt x, JInt y => x =? y
  | JFloat x, JFloat y => bool_decide (x = y)
  | JStr x, JStr y => x =s? y
  | JList x, JList y =>
      (fix go x y := match x, y with
        | [], [] => true
        | a :: x, b :: y => json_beq a b && go x y
        | _, _ => false
        end) x y
  | JDict x, JDict y =>
      (fix go (x y : list (string * json)) := match x, y with
        | [], [] => true
        | (k, a) :: x, (k', b) :: y => (k =s? k') && json_beq a b && go x y
        | _, _ => false
        end) x y
  | _, _ => false
  end.

Lemma json_beq_eq a b : json_beq a b = true ↔ a = b.
Proof.
  revert b. induction a as [|x|x|x|x|l IH|d IH] using json_rect'; intros [|y|y|y|y|m|m];
    simpl; try (split; congruence).
  - rewrite Bool.eqb_true_iff. split; congruence.
  - rewrite Z.eqb_eq. split; congruence.
  - rewrite bool_decide_eq_true. split; congruence.
  - rewrite String.eqb_eq. split; congruence.
  - revert m. induction IH as [|x l Hx Hl IH]; intros [|y m]; try (split; congruence).
    rewrite andb_true_iff, Hx, IH. split; [intros []|intros [=]]; subst; naive_solver.
  - revert m. induction IH as [|[k x] l Hx Hl IH]; intros [|[k' y] m]; try (split; congruence).
    rewrite !andb_true_iff, Hx, IH, String.eqb_eq.
    split; [intros [[]]|intros [=]]; subst; naive_solver.
Qed.

#[global] Instance json_eq_dec : EqDecision json.
Proof.
  intros a b. destruct (json_beq a b) eqn:E.
  - left. by apply json_beq_eq.
  - right. intros H%json_beq_eq. congruence.
Defined.

(** ** [dict] *)

Fixpoint dlookup (k : string) (d : dict) : option json :=
  match d with
  | [] => None
  | (k', v) :: d => if k =s? k' then Some v else dlookup k d
  end.

(** [d.get(k)], [d.get(k, default)], [k in d]. *)
Definition dget (k : string) (d : dict) : json := default JNull (dlookup k d).
Definition dget_or (k : string) (dflt : json) (d : dict) : json := default dflt (dlookup k d).
Definition dmem (k : string) (d : dict) : bool :=
  match dlookup k d with Some _ => true | None => false end.

(** [d[k] = v]: an existing key keeps its position. *)
Fixpoint dset (k : string) (v : json) (d : dict) : dict :=
  match d with
  | [] => [(k, v)]
  | (k', v') :: d => if k =s? k' then (k', v) :: d else (k', v') :: dset k v d
  end.

(** [d.pop(k, None)] and [d.update(e)]. *)
Definition ddel (k : string) (d : dict) : dict :=
  List.filter (λ kv, k <>s? kv.1) d.
Definition dupdate (d e : dict) : dict :=
  fold_left (λ acc kv, dset kv.1 kv.2 acc) e d.

Definition dkeys (d : dict) : list string := map fst d.

(** ** Tests *)

Definition is_dict v := match v with JDict _ => true | _ => false end.
Definition is_list v := match v with JList _ => true | _ => false end.
Definition is_str v := match v with JStr _ => true | _ => false end.
Definition is_bool v := match v with JBool _ => true | _ => false end.
(** [isinstance(v, int)]: a [bool] is an [int]. *)
Definition is_int v := match v with JInt _ | JBool _ => true | _ => false end.
Definition is_none v := match v with JNull => true | _ => false end.

(** [isinstance(v, int) and not isinstance(v, bool)]: the integer itself. *)
Definition as_int v : option Z := match v with JInt z => Some z | _ => None end.
Definition as_str v : option string := match v with JStr s => Some s | _ => None end.
Definition as_dict v : option dict := match v with JDict d => Some d | _ => None end.
(** [v if isinstance(v, dict) else {}]. *)
Definition dict_or_empty v : dict := match v with JDict d => d | _ => [] end.
Definition list_or_empty v : list json := match v with JList l => l | _ => [] end.

(** [not isinstance(v, int) or isinstance(v, bool) or v < 0] raises. *)
Definition nonneg_int v : option Z :=
  match v with JInt z => if z <? 0 then None else Some z | _ => None end.

Definition truthy (v : json) : bool :=
  match v with
  | JNull => false
  | JBool b => b
  | JInt z => negb (z =? 0)
  | JFloat f => negb (fzero f)
  | JStr s => s <>s? ""
  | JList l => match l with [] => false | _ => true end
  | JDict d => match d with [] => false | _ => true end
  end.

(** [a or b]. *)
Definition py_or (a b : json) : json := if truthy a then a else b.

(** [a == b]: booleans are integers, integers and floats compare by value, dicts
    irrespective of order. *)
Definition num_of (v : json) : option (Z + pyfloat) :=
  match v with
  | JBool b => Some (inl (if b then 1 else 0))
  | JInt z => Some (inl z)
  | JFloat f => Some (inr f)
  | _ => None
  end.
Definition num_eq (a b : Z + pyfloat) : bool :=
  match a, b with
  | inl x, inl y => x =? y
  | inr f, inl y | inl y, inr f => is_cmp cmp_eq (fcompare_Z f y)
  | inr f, inr g => is_cmp cmp_eq (fcompare f g)
  end.
Fixpoint py_eq (a b : json) : bool :=
  match a, b with
  | JNull, JNull => true
  | JStr x, JStr y => x =s? y
  | JList x, JList y =>
      (fix go x y := match x, y with
        | [], [] => true
        | a :: x, b :: y => py_eq a b && go x y
        | _, _ => false
        end) x y
  | JDict x, JDict y =>
      Nat.eqb (length x) (length y) &&
      (fix go (x : list (string * json)) := match x with
        | [] => true
        | (k, a) :: x =>
            match dlookup k y with Some b => py_eq a b && go x | None => false end
        end) x
  | _, _ =>
      match num_of a, num_of b with
      | Some m, Some n => num_eq m n
      | _, _ => false
      end
  end.

Definition eq_str (v : json) (s : string) : bool := py_eq v (JStr s).
Definition eq_int (v : json) (z : Z) : bool := py_eq v (JInt z).
(** [v is True], [v is False]. *)
Definition is_true v := match v with JBool true => true | _ => false end.
Definition is_false v := match v with JBool false => true | _ => false end.

(** [v in (s1, s2, ...)]: equality with each; and [v in {s1, s2, ...}]: a list or a
    dict cannot be hashed and raises [TypeError]. *)
Definition in_strs (v : json) (l : list string) : bool :=
  match v with JStr s => mem s l | _ => false end.
Definition in_set (v : json) (l : list string) : res bool :=
  match v with
  | JList _ => raise TypeError "unhashable type: 'list'"
  | JDict _ => raise TypeError "unhashable type: 'dict'"
  | _ => Ok (in_strs v l)
  end.

(** A numeric test [v > 0] guarded by [isinstance(v, (int, float))] and no [bool]. *)
Definition num_positive (v : json) : bool :=
  match v with
  | JInt z => 0 <? z
  | JFloat f => is_cmp cmp_gt (fcompare_Z f 0)
  | _ => false
  end.
(** [float(v)] on an [int] or a [float]. *)
Definition to_float (v : json) : option pyfloat :=
  match v with JInt z => float_of_Z z | JFloat f => Some f | _ => None end.

(** ** [str] and [repr]

    Bytes above the ASCII range are taken as printable. *)

Definition hex_digit (n : nat) : ascii :=
  if Nat.ltb n 10 then ascii_of_nat (48 + n) else ascii_of_nat (87 + n).
Definition hex2 (n : nat) : string :=
  String (hex_digit (n / 16)%nat) (String (hex_digit (n mod 16)%nat) EmptyString).

Definition repr_char (q : ascii) (c : ascii) : string :=
  if Ascii.eqb c q then "\" +:+ String c EmptyString
  else if Ascii.eqb c "\" then "\\"
  else match ord c with
       | 9%nat => "\t" | 10%nat => "\n" | 13%nat => "\r"
       | n => if is_control c then "\x" +:+ hex2 n else String c EmptyString
       end.
Fixpoint str_flat_map (f : ascii → string) (s : string) : string :=
  match s with EmptyString => EmptyString | String c s => f c +:+ str_flat_map f s end.
Definition repr_str (s : string) : string :=
  let q := if contains "'" s && negb (contains QUOTE s) then ascii_of_nat 34 else "'"%char in
  String q EmptyString +:+ str_flat_map (repr_char q) s +:+ String q EmptyString.

Fixpoint py_repr (v : json) : string :=
  match v with
  | JNull => "None"
  | JBool true => "True"
  | JBool false => "False"
  | JInt z => str_of_Z z
  | JFloat f => frepr f
  | JStr s => repr_str s
  | JList l => "[" +:+ str_join ", " (map py_repr l) +:+ "]"
  | JDict d =>
      "{" +:+ str_join ", " (map (λ kv, repr_str kv.1 +:+ ": " +:+ py_repr kv.2) d) +:+ "}"
  end.
Definition py_str (v : json) : string := match v with JStr s => s | _ => py_repr v end.

(** [str(v or "")]. *)
Definition str_or_empty (v : json) : string := if truthy v then py_str v else "".
Definition opt_str (o : option string) : json := match o with Some s => JStr s | None => JNull end.
Definition opt_int (o : option Z) : json := match o with Some z => JInt z | None => JNull end.

(** ** Lemmas *)

Lemma dlookup_dset k k' v d :
  dlookup k (dset k' v d) = if k =s? k' then Some v else dlookup k d.
Proof.
  induction d as [|[j w] d IH]; simpl; [done|].
  destruct (eqs_spec k' j) as [->|]; simpl.
  - by destruct (k =s? j).
  - rewrite IH. destruct (eqs_spec k j) as [->|]; [|done]. by rewrite (eqs_ne j k').
Qed.
Lemma dget_dset k v d : dget k (dset k v d) = v.
Proof. unfold dget. by rewrite dlookup_dset, eqs_refl. Qed.
Lemma dlookup_dset_ne k k' v d : k ≠ k' → dlookup k (dset k' v d) = dlookup k d.
Proof. intros. by rewrite dlookup_dset, eqs_ne. Qed.

Lemma dlookup_ddel k d : dlookup k (ddel k d) = None.
Proof.
  unfold ddel. induction d as [|[k' v] d IH]; simpl; [done|].
  destruct (eqs_spec k k'); simpl; [done|]. by rewrite eqs_ne.
Qed.

Lemma dlookup_ddel_ne k k' d : k ≠ k' → dlookup k (ddel k' d) = dlookup k d.
Proof.
  intros Hk. unfold ddel. induction d as [|[j v] d IH]; simpl; [done|].
  destruct (eqs_spec k' j) as [->|]; simpl; [by rewrite (eqs_ne k j)|].
  by destruct (k =s? j).
Qed.

Lemma dlookup_In k v d : dlookup k d = Some v → In (k, v) d.
Proof.
  induction d as [|[k' v'] d IH]; simpl; [done|].
  destruct (eqs_spec k k') as [->|]; [intros [= ->]; by left|]. auto.
Qed.

Lemma dlookup_None k d : dlookup k d = None ↔ ¬ In k (dkeys d).
Proof.
  unfold dkeys. induction d as [|[k' v'] d IH]; simpl; [naive_solver|].
  destruct (eqs_spec k k') as [->|]; [naive_solver|]. rewrite IH. naive_solver.
Qed.

Lemma In_dlookup k v d : List.NoDup (dkeys d) → In (k, v) d → dlookup k d = Some v.
Proof.
  unfold dkeys. induction d as [|[k' v'] d IH]; simpl; [done|].
  inversion 1 as [|? ? Hn Hd]; subst. intros [[= -> ->]|Hin]; [by rewrite eqs_refl|].
  rewrite eqs_ne; [by apply IH|]. intros ->. apply Hn.
  apply in_map_iff. by exists (k', v).
Qed.

Lemma dkeys_dset k v d :
  dkeys (dset k v d) = if dmem k d then dkeys d else dkeys d ++ [k].
Proof.
  unfold dkeys, dmem. induction d as [|[k' v'] d IH]; simpl; [done|].
  destruct (eqs_spec k k') as [->|]; simpl; [done|].
  rewrite IH. by destruct (dlookup k d).
Qed.

Lemma dset_NoDup k v d : List.NoDup (dkeys d) → List.NoDup (dkeys (dset k v d)).
Proof.
  rewrite dkeys_dset. unfold dmem. destruct (dlookup k d) eqn:E; [done|].
  intros Hd. apply dlookup_None in E. apply NoDup_ListNoDup, NoDup_app.
  split; [by apply NoDup_ListNoDup|]. split; [|apply NoDup_singleton].
  intros x Hx ->%list_elem_of_singleton. by apply list_elem_of_In in Hx.
Qed.

Lemma truthy_str s : truthy (JStr s) = (s <>s? "").
Proof. done. Qed.

Lemma nonneg_int_spec v z : nonneg_int v = Some z ↔ v = JInt z ∧ 0 <= z.
Proof.
  destruct v; simpl; try (split; [done|naive_solver]).
  destruct (Z.ltb_spec z0 0); split; intros; simplify_eq; naive_solver lia.
Qed.

Lemma as_int_spec v z : as_int v = Some z ↔ v = JInt z.
Proof. destruct v; simpl; naive_solver. Qed.
Lemma as_str_spec v s : as_str v = Some s ↔ v = JStr s.
Proof. destruct v; simpl; naive_solver. Qed.
Lemma as_dict_spec v d : as_dict v = Some d ↔ v = JDict d.
Proof. destruct v; simpl; naive_solver. Qed.

Lemma eq_str_spec v s : eq_str v s = true ↔ v = JStr s.
Proof.
  destruct v; unfold eq_str; simpl; try (split; [done|congruence]).
  rewrite String.eqb_eq. split; congruence.
Qed.

Lemma in_strs_spec v l : in_strs v l = true ↔ ∃ s, v = JStr s ∧ In s l.
Proof.
  destruct v; simpl; try (split; [done|naive_solver]).
  rewrite mem_spec. naive_solver.
Qed.

#[export] Hint Rewrite dget_dset dlookup_ddel : cloudx.
#[export] Hint Resolve dset_NoDup : cloudx.
