(* ===== verification/PyRe.v ===== *)
(** * Python's [re]

    The regular expressions of the program are syntax trees; [ends r p s] lists the
    ways [r] can match at the front of [s], best first, where [p] is the character
    before [s].  [\w] and [\b] treat a byte above the ASCII range as part of a word;
    [\s] is the white space of [PyStr].  [$] matches at the end and before a final
    newline, as Python's does without [re.MULTILINE]. *)

From S2P Require Import Prelude PyStr.

Inductive re :=
| REps
| RChar (f : ascii → bool)
| RLit (s : string)
| RSeq (a b : re)
| RAlt (a b : re)
| RStar (a : re)
| RBol        (* ^ *)
| REol        (* $ *)
| RWordB.     (* \b *)

Definition ROpt (a : re) : re := RAlt a REps.
Definition RPlus (a : re) : re := RSeq a (RStar a).
Fixpoint RRep (n : nat) (a : re) : re :=
  match n with O => REps | S n => RSeq a (RRep n a) end.
(** [a{n,m}]: [n] times, then up to [k = m - n] more. *)
Fixpoint RUpTo (k : nat) (a : re) : re :=
  match k with O => REps | S k => ROpt (RSeq a (RUpTo k a)) end.
Definition RBetween (n k : nat) (a : re) : re := RSeq (RRep n a) (RUpTo k a).
Fixpoint RSeqs (l : list re) : re :=
  match l with [] => REps | [r] => r | r :: l => RSeq r (RSeqs l) end.
(** An alternation; [RNever] matches nothing. *)
Definition RNever : re := RChar (λ _, false).
Fixpoint RAlts (l : list re) : re :=
  match l with [] => RNever | [r] => r | r :: l => RAlt r (RAlts l) end.

Definition same_fold (c d : ascii) : bool := Ascii.eqb (to_lower c) (to_lower d).
(** A literal under [(?i)]. *)
Fixpoint RLitI (s : string) : re :=
  match s with
  | EmptyString => REps
  | String c s => RSeq (RChar (same_fold c)) (RLitI s)
  end.
Definition one_of (s : string) (c : ascii) : bool := existsb (Ascii.eqb c) (chars s).

Definition is_word (c : ascii) : bool := is_alnum c || Ascii.eqb c "_" || Nat.leb 128 (ord c).
Definition opt_word (c : option ascii) : bool := match c with Some c => is_word c | None => false end.
Definition head_char (s : string) : option ascii :=
  match s with EmptyString => None | String c _ => Some c end.
Definition at_eol (s : string) : bool := (s =s? "") || (s =s? LF).

(** A position: the previous character and what follows. *)
Definition pos : Type := option ascii * string.

Fixpoint lit_end (l : string) (p : option ascii) (s : string) : option pos :=
  match l, s with
  | EmptyString, _ => Some (p, s)
  | String c l, String d s => if Ascii.eqb c d then lit_end l (Some d) s else None
  | _, _ => None
  end.

Section star.
Context (step : option ascii → string → list pos).
Fixpoint star_ends (fuel : nat) (p : option ascii) (s : string) : list pos :=
  match fuel with
  | O => [(p, s)]
  | S fuel =>
      List.flat_map (λ q : pos,
        if Nat.ltb (String.length q.2) (String.length s)
        then star_ends fuel q.1 q.2 else []) (step p s) ++ [(p, s)]
  end.
End star.

Fixpoint ends (r : re) (p : option ascii) (s : string) : list pos :=
  match r with
  | REps => [(p, s)]
  | RChar f =>
      match s with
      | String c s => if f c then [(Some c, s)] else []
      | EmptyString => []
      end
  | RLit l => match lit_end l p s with Some q => [q] | None => [] end
  | RSeq a b => List.flat_map (λ q : pos, ends b q.1 q.2) (ends a p s)
  | RAlt a b => ends a p s ++ ends b p s
  | RStar a => star_ends (ends a) (String.length s) p s
  | RBol => match p with None => [(p, s)] | Some _ => [] end
  | REol => if at_eol s then [(p, s)] else []
  | RWordB => if xorb (opt_word p) (opt_word (head_char s)) then [(p, s)] else []
  end.

Definition nonempty {A} (l : list A) : bool := match l with [] => false | _ => true end.

(** [r.match(s)], [r.fullmatch(s)], [r.search(s)] as truth values. *)
Definition re_match (r : re) (s : string) : bool := nonempty (ends r None s).
Definition re_fullmatch (r : re) (s : string) : bool :=
  existsb (λ q : pos, q.2 =s? "") (ends r None s).
Fixpoint search_from (r : re) (p : option ascii) (s : string) : bool :=
  nonempty (ends r p s) ||
  match s with EmptyString => false | String c s => search_from r (Some c) s end.
Definition re_search (r : re) (s : string) : bool := search_from r None s.

(** ** The language, declaratively *)

Inductive Match : re → option ascii → string → option ascii → string → Prop :=
| MEps p s : Match REps p s p s
| MChar f p c s : f c = true → Match (RChar f) p (String c s) (Some c) s
| MLit l p s q t : lit_end l p s = Some (q, t) → Match (RLit l) p s q t
| MSeq a b p s q t u v : Match a p s q t → Match b q t u v → Match (RSeq a b) p s u v
| MAltL a b p s q t : Match a p s q t → Match (RAlt a b) p s q t
| MAltR a b p s q t : Match b p s q t → Match (RAlt a b) p s q t
| MStarEnd a p s : Match (RStar a) p s p s
| MStarStep a p s q t u v :
    Match a p s q t → (String.length t < String.length s)%nat →
    Match (RStar a) q t u v → Match (RStar a) p s u v
| MBol s : Match RBol None s None s
| MEol p s : at_eol s = true → Match REol p s p s
| MWordB p s : xorb (opt_word p) (opt_word (head_char s)) = true → Match RWordB p s p s.

Lemma star_ends_spec a :
  (∀ p s q t, In (q, t) (ends a p s) ↔ Match a p s q t) →
  ∀ n p s q t, (String.length s <= n)%nat →
    (In (q, t) (star_ends (ends a) n p s) ↔ Match (RStar a) p s q t).
Proof.
  intros Ha. induction n as [|n IH]; intros p s q t Hn; simpl.
  - split.
    + intros [[= <- <-]|[]]. constructor.
    + inversion 1; subst; [by left|lia].
  - rewrite in_app_iff, in_flat_map. split.
    + intros [([q' t'] & Hin & Hq)|[[= <- <-]|[]]]; [|constructor].
      simpl in Hq. destruct (Nat.ltb_spec (String.length t') (String.length s)); [|done].
      apply IH in Hq; [|lia]. econstructor; [by apply Ha|done|done].
    + inversion 1 as [| | | | | |?|? ? ? q' t' ? ? Hm Hl Hr| | |]; subst.
      * right. by left.
      * left. exists (q', t'). split; [by apply Ha|]. simpl.
        rewrite (proj2 (Nat.ltb_lt _ _)) by done. apply IH; [lia|done].
Qed.

(** The matcher finds exactly the matches of the relation. *)
Lemma ends_spec r p s q t : In (q, t) (ends r p s) ↔ Match r p s q t.
Proof.
  revert p s q t. induction r as [|f|l|a IHa b IHb|a IHa b IHb|a IHa| | |]; intros p s q t; simpl.
  - split; [intros [[= <- <-]|[]]; constructor|inversion 1; by left].
  - destruct s as [|c s]; [split; [done|by inversion 1]|].
    destruct (f c) eqn:E; split; try done.
    + intros [[= <- <-]|[]]. by constructor.
    + inversion 1; subst. by left.
    + inversion 1; subst. congruence.
  - destruct (lit_end l p s) as [[q' t']|] eqn:E; split; try done.
    + intros [[= <- <-]|[]]. by constructor.
    + inversion 1; subst. left. congruence.
    + inversion 1; subst. congruence.
  - rewrite in_flat_map. split.
    + intros ([q' t'] & H1 & H2). econstructor; [by apply IHa|by apply IHb].
    + inversion 1; subst. eexists (_, _). split; [by apply IHa|by apply IHb].
  - rewrite in_app_iff, IHa, IHb. split; [intros []; by constructor|inversion 1; auto].
  - by apply star_ends_spec.
  - destruct p; split; try done; [by inversion 1|intros [[= <- <-]|[]]; constructor|].
    inversion 1; by left.
  - destruct (at_eol s) eqn:E; split; try done.
    + intros [[= <- <-]|[]]. by constructor.
    + inversion 1; by left.
    + inversion 1; congruence.
  - destruct (xorb _ _) eqn:E; split; try done.
    + intros [[= <- <-]|[]]. by constructor.
    + inversion 1; by left.
    + inversion 1; congruence.
Qed.

Lemma nonempty_spec {A} (l : list A) : nonempty l = true ↔ ∃ x, In x l.
Proof. destruct l as [|x l]; simpl; [naive_solver|]. split; [|done]. exists x. by left. Qed.

(** [p] and [s] reached from the front of [s0]: a position of the searched text. *)
Inductive Position (s0 : string) : option ascii → string → Prop :=
| PStart : Position s0 None s0
| PNext p c s : Position s0 p (String c s) → Position s0 (Some c) s.

Lemma search_from_spec r s0 p s :
  Position s0 p s →
  (search_from r p s = true → ∃ q t u v, Position s0 q t ∧ Match r q t u v).
Proof.
  revert p. induction s as [|c s IH]; intros p Hp; simpl; rewrite ?orb_true_iff.
  - rewrite nonempty_spec. intros [([u v] & H%ends_spec)|]; [|done]. naive_solver.
  - rewrite nonempty_spec. intros [([u v] & H%ends_spec)|H]; [naive_solver|].
    eapply IH; [|done]. by econstructor.
Qed.

Lemma search_from_mono r s0 q t :
  Position s0 q t → search_from r q t = true → search_from r None s0 = true.
Proof.
  induction 1 as [|p c s Hp IH]; [done|]. intros H. apply IH. simpl.
  rewrite orb_true_iff. by right.
Qed.

Lemma re_search_spec r s :
  re_search r s = true ↔ ∃ q t u v, Position s q t ∧ Match r q t u v.
Proof.
  unfold re_search. split.
  - apply search_from_spec. constructor.
  - intros (q & t & u & v & Hp & Hm). apply search_from_mono with q t; [done|].
    destruct t; simpl; rewrite orb_true_iff; left; apply nonempty_spec;
      eexists (_, _); by apply ends_spec.
Qed.

Lemma re_match_spec r s : re_match r s = true ↔ ∃ u v, Match r None s u v.
Proof.
  unfold re_match. rewrite nonempty_spec. split.
  - intros ([u v] & H%ends_spec). naive_solver.
  - intros (u & v & H). exists (u, v). by apply ends_spec.
Qed.

Lemma re_fullmatch_spec r s : re_fullmatch r s = true ↔ ∃ u, Match r None s u "".
Proof.
  unfold re_fullmatch. rewrite existsb_exists. split.
  - intros ([u v] & H%ends_spec & E). simpl in E. apply String.eqb_eq in E as ->. by exists u.
  - intros (u & H). exists (u, ""). split; [by apply ends_spec|done].
Qed.

(** * [re.sub]

    The leftmost match, the best there, is replaced; the search goes on after it. *)

(** The first match of [a b] at a position: where [a] ends and where [b] ends. *)
Definition first_match (a b : re) (p : option ascii) (s : string) : option (pos * pos) :=
  head (List.flat_map (λ q : pos, map (λ e, (q, e)) (ends b q.1 q.2)) (ends a p s)).

(** [skip] characters belong to a match that was replaced. *)
Fixpoint sub_go (a b : re) (put : string → string) (skip : nat) (p : option ascii) (s : string) : string :=
  match s with
  | EmptyString => EmptyString
  | String c s' =>
      match skip with
      | S k => sub_go a b put k (Some c) s'
      | O =>
          match first_match a b p s with
          | Some (q, e) =>
              let n := (String.length s - String.length e.2)%nat in
              if Nat.eqb n 0 then String c (sub_go a b put O (Some c) s')
              else put (str_take (String.length s - String.length q.2) s) +:+ sub_go a b put (n - 1) (Some c) s'
          | None => String c (sub_go a b put O (Some c) s')
          end
      end
  end.
(** [r.sub(text, s)]; [(a)b] with [\1] and a text. *)
Definition re_sub (r : re) (text s : string) : string := sub_go REps r (λ _, text) 0 None s.
Definition re_sub_keep (a b : re) (text s : string) : string := sub_go a b (λ g, g +:+ text) 0 None s.

Example re_sub_samples :
  re_sub (RPlus (RChar is_digit)) "#" "a12b3" = "a#b#" ∧
  re_sub_keep (RLit "key=") (RPlus (RChar is_alnum)) "?" "x key=abc, key= y" = "x key=?, key= y".
Proof. split; reflexivity. Qed.
