(* ===== verification/PyTime.v ===== *)
(** * Python's [datetime]

    A [datetime] is its wall clock in microseconds since 0001-01-01T00:00 of the
    proleptic Gregorian calendar and, when aware, its UTC offset in microseconds.
    [fromisoformat] is the parser of CPython 3.9, the oldest version the program is
    tested with; it accepts what [isoformat] prints. *)

From S2P Require Import Prelude PyStr PyFloat.

Record datetime := DT { dt_wall : Z; dt_off : option Z }.

#[global] Instance datetime_eq_dec : EqDecision datetime.
Proof. solve_decision. Defined.

Definition US : Z := 1000000.
Definition DAY_US : Z := 86400 * US.
(** Days of 0001-01-01 .. 9999-12-31. *)
Definition MAX_DAYS : Z := 3652059.
Definition WALL_MAX : Z := MAX_DAYS * DAY_US.
(** The epoch, 1970-01-01T00:00. *)
Definition EPOCH_US : Z := 719162 * DAY_US.

(** ** The calendar *)

Definition is_leap (y : Z) : bool :=
  (y mod 4 =? 0) && (negb (y mod 100 =? 0) || (y mod 400 =? 0)).
Definition days_before_year (y : Z) : Z :=
  let y := y - 1 in y * 365 + y / 4 - y / 100 + y / 400.
Definition days_before_month (leap : bool) (m : Z) : Z :=
  let l := if leap then 1 else 0 in
  match m with
  | 1 => 0 | 2 => 31 | 3 => 59 + l | 4 => 90 + l | 5 => 120 + l | 6 => 151 + l
  | 7 => 181 + l | 8 => 212 + l | 9 => 243 + l | 10 => 273 + l | 11 => 304 + l
  | 12 => 334 + l | _ => 365 + l
  end.
Definition days_in_month (leap : bool) (m : Z) : Z :=
  days_before_month leap (m + 1) - days_before_month leap m.

(** Days since 0001-01-01 (so [ymd2days 1 1 1 = 0]). *)
Definition ymd2days (y m d : Z) : Z :=
  days_before_year y + days_before_month (is_leap y) m + d - 1.

Definition month_of (leap : bool) (n : Z) : Z :=
  if n <? days_before_month leap 2 then 1
  else if n <? days_before_month leap 3 then 2
  else if n <? days_before_month leap 4 then 3
  else if n <? days_before_month leap 5 then 4
  else if n <? days_before_month leap 6 then 5
  else if n <? days_before_month leap 7 then 6
  else if n <? days_before_month leap 8 then 7
  else if n <? days_before_month leap 9 then 8
  else if n <? days_before_month leap 10 then 9
  else if n <? days_before_month leap 11 then 10
  else if n <? days_before_month leap 12 then 11
  else 12.

(** The year and the day of the year of a day number, as [_ord2ymd] computes them. *)
Definition year_yday (n : Z) : Z * Z :=
  let n400 := n / 146097 in let n := n mod 146097 in
  let n100 := n / 36524 in let n := n mod 36524 in
  let n4 := n / 1461 in let n := n mod 1461 in
  let n1 := n / 365 in let n := n mod 365 in
  let y := n400 * 400 + 1 + n100 * 100 + n4 * 4 + n1 in
  if (n1 =? 4) || (n100 =? 4) then (y - 1, 365) else (y, n).
Definition days2ymd (n : Z) : Z * Z * Z :=
  let '(y, yday) := year_yday n in
  let leap := is_leap y in
  let m := month_of leap yday in
  (y, m, yday - days_before_month leap m + 1).

(** ** Parsing *)

Definition valid_date (y m d : Z) : bool :=
  (1 <=? y) && (y <=? 9999) && (1 <=? m) && (m <=? 12) &&
  (1 <=? d) && (d <=? days_in_month (is_leap y) m).
Definition valid_time (h mi s us : Z) : bool :=
  (0 <=? h) && (h <? 24) && (0 <=? mi) && (mi <? 60) &&
  (0 <=? s) && (s <? 60) && (0 <=? us) && (us <? US).
Definition wall_of (y m d h mi s us : Z) : Z :=
  ymd2days y m d * DAY_US + ((h * 60 + mi) * 60 + s) * US + us.

(** Exactly [n] digits. *)
Fixpoint parse_digits (n : nat) (acc : Z) (s : string) : option (Z * string) :=
  match n with
  | O => Some (acc, s)
  | S n =>
      match s with
      | String c s => if is_digit c then parse_digits n (acc * 10 + digit_val c) s else None
      | EmptyString => None
      end
  end.

Definition expect (c : ascii) (s : string) : option string :=
  match s with
  | String d s => if Ascii.eqb c d then Some s else None
  | EmptyString => None
  end.

Definition parse_date (s : string) : option (Z * Z * Z * string) :=
  let? (y, s) := parse_digits 4 0 s in
  let? s := expect "-" s in
  let? (m, s) := parse_digits 2 0 s in
  let? s := expect "-" s in
  let? (d, s) := parse_digits 2 0 s in
  Some (y, m, d, s).

(** [parse_hh_mm_ss_ff]: [s] is the text up to the time zone, [tail] whether text
    follows it.  The boolean of the result is "not at the end of the whole string". *)
Definition parse_us (h mi sec : Z) (s : string) (tail : bool) : option (Z * Z * Z * Z * bool) :=
  let n := String.length s in
  if Nat.eqb n 3 then
    let? (us, _) := parse_digits 3 0 s in Some (h, mi, sec, us * 1000, tail)
  else if Nat.eqb n 6 then
    let? (us, _) := parse_digits 6 0 s in Some (h, mi, sec, us, tail)
  else None.

Definition parse_time (s : string) (tail : bool) : option (Z * Z * Z * Z * bool) :=
  let? (h, s) := parse_digits 2 0 s in
  match s with
  | "" => Some (h, 0, 0, 0, tail)
  | String c "" => Some (h, 0, 0, 0, true)
  | String c s =>
    if Ascii.eqb c "." then parse_us h 0 0 s tail
    else if negb (Ascii.eqb c ":") then None else
    let? (mi, s) := parse_digits 2 0 s in
    match s with
    | "" => Some (h, mi, 0, 0, tail)
    | String c "" => Some (h, mi, 0, 0, true)
    | String c s =>
      if Ascii.eqb c "." then parse_us h mi 0 s tail
      else if negb (Ascii.eqb c ":") then None else
      let? (sec, s) := parse_digits 2 0 s in
      match s with
      | "" => Some (h, mi, sec, 0, tail)
      | String c "" => Some (h, mi, sec, 0, true)
      | String c s =>
        if Ascii.eqb c "." || Ascii.eqb c ":" then parse_us h mi sec s tail else None
      end
    end
  end%string.

Fixpoint split_zone (s : string) : string * string :=
  match s with
  | EmptyString => (EmptyString, EmptyString)
  | String c s' =>
      if Ascii.eqb c "+" || Ascii.eqb c "-" then (EmptyString, s)
      else let '(a, b) := split_zone s' in (String c a, b)
  end.

Definition parse_zone (s : string) : option (option Z) :=
  match s with
  | EmptyString => Some None
  | String sign s' =>
      let n := String.length s in
      if Nat.eqb n 6 || Nat.eqb n 9 || Nat.eqb n 16 then
        let? (h, mi, sec, us, more) := parse_time s' false in
        let off := ((h * 60 + mi) * 60 + sec) * US + us in
        if more || negb (off <? DAY_US) then None
        else Some (Some (if Ascii.eqb sign "-" then - off else off))
      else None
  end.

(** The separator is one character: one to four bytes of UTF-8. *)
Definition drop_separator (s : string) : string :=
  match s with
  | EmptyString => EmptyString
  | String c s =>
      let n := ord c in
      if Nat.ltb n 192 then s
      else if Nat.ltb n 224 then str_drop 1 s
      else if Nat.ltb n 240 then str_drop 2 s
      else str_drop 3 s
  end.

Definition fromisoformat (s : string) : option datetime :=
  let? (y, m, d, rest) := parse_date s in
  if negb (valid_date y m d) then None else
  if rest =s? "" then Some (DT (wall_of y m d 0 0 0 0) None) else
  let '(t, z) := split_zone (drop_separator rest) in
  let? (h, mi, sec, us, more) := parse_time t (z <>s? "") in
  if more && (z =s? "") then None else
  let? off := parse_zone z in
  if negb (valid_time h mi sec us) then None else
  Some (DT (wall_of y m d h mi sec us) off).

(** ** Printing *)

Fixpoint pad (n : nat) (z : Z) : string :=
  match n with
  | O => EmptyString
  | S n => pad n (z / 10) +:+ chr (Z.to_nat (48 + z mod 10))
  end.

Definition print_zone (off : Z) : string :=
  let a := Z.abs off in
  let us := a mod US in let sec := a / US in
  (if off <? 0 then "-" else "+") +:+ pad 2 (sec / 3600) +:+ ":" +:+ pad 2 ((sec / 60) mod 60) +:+
  (if (sec mod 60 =? 0) && (us =? 0) then "" else
   ":" +:+ pad 2 (sec mod 60) +:+ (if us =? 0 then "" else "." +:+ pad 6 us)).

Definition isoformat (t : datetime) : string :=
  let '(y, m, d) := days2ymd (dt_wall t / DAY_US) in
  let r := dt_wall t mod DAY_US in
  let us := r mod US in let sec := r / US in
  pad 4 y +:+ "-" +:+ pad 2 m +:+ "-" +:+ pad 2 d +:+ "T" +:+
  pad 2 (sec / 3600) +:+ ":" +:+ pad 2 ((sec / 60) mod 60) +:+ ":" +:+ pad 2 (sec mod 60) +:+
  (if us =? 0 then "" else "." +:+ pad 6 us) +:+
  (match dt_off t with None => "" | Some off => print_zone off end).

(** ** Instants *)

Definition valid_wall (w : Z) : bool := (0 <=? w) && (w <? WALL_MAX).
Definition utc (w : Z) : datetime := DT w (Some 0).

(** [dt.astimezone(timezone.utc)] on an aware value: [None] is [OverflowError]. *)
Definition astimezone_utc (t : datetime) : option datetime :=
  match dt_off t with
  | Some off => let w := dt_wall t - off in if valid_wall w then Some (utc w) else None
  | None => None
  end.

(** The instant of an aware value, in microseconds since the epoch;
    [dt.timestamp()] is the nearest double of its seconds. *)
Definition instant_us (t : datetime) : Z := dt_wall t - default 0 (dt_off t) - EPOCH_US.
Definition timestamp (t : datetime) : pyfloat := round_rat (instant_us t) US.

(** [datetime.fromtimestamp(f, tz=timezone.utc)]: [None] when it raises. *)
Definition fromtimestamp (f : pyfloat) : option datetime :=
  match f with
  | FFin s m e =>
      let '(ip, fr) :=
        if 0 <=? e then (m * 2 ^ e, 0) else (m / 2 ^ (- e), m mod 2 ^ (- e)) in
      let us :=
        match round_rat (fr * US) (if 0 <=? e then 1 else 2 ^ (- e)) with
        | FFin _ m' e' => if 0 <=? e' then m' * 2 ^ e' else round_half_even m' (2 ^ (- e'))
        | _ => 0
        end in
      let w := EPOCH_US + signed s (ip * US + us) in
      if valid_wall w then Some (utc w) else None
  | _ => None
  end.

(** [text[:-1] + "+00:00" if text.endswith("Z") else text]. *)
Definition z_suffix (text : string) : string :=
  if ends_with "Z" text then drop_last 1 text +:+ "+00:00" else text.

(** [s.replace("+00:00", "Z")]. *)
Fixpoint replace_utc_go (fuel : nat) (s : string) : string :=
  match fuel with
  | O => s
  | S fuel =>
      match split_once "+00:00" s with
      | Some (a, b) => a +:+ "Z" +:+ replace_utc_go fuel b
      | None => s
      end
  end.
Definition replace_utc (s : string) : string := replace_utc_go (String.length s) s.

(** * [isoformat] and [fromisoformat] agree

    The calendar arithmetic is inverted, and every UTC instant printed by [isoformat]
    is read back. *)

(** ** The calendar *)

Lemma year_split n :
  0 <= n →
  ∃ a b c d r, n = 146097 * a + 36524 * b + 1461 * c + 365 * d + r ∧
    0 <= a ∧ 0 <= b <= 3 ∧ 0 <= c <= 24 ∧ 0 <= d <= 3 ∧ 0 <= r ∧
    (r < 365 ∨ r = 365 ∧ d = 3 ∧ (c ≠ 24 ∨ b = 3)) ∧
    year_yday n = (400 * a + 100 * b + 4 * c + d + 1, r).
Proof.
  intros Hn. unfold year_yday.
  set (a := n / 146097). set (n1 := n mod 146097).
  set (b := n1 / 36524). set (n2 := n1 mod 36524).
  set (c := n2 / 1461). set (n3 := n2 mod 1461).
  set (d := n3 / 365). set (r := n3 mod 365).
  assert (Ha : n = 146097 * a + n1 ∧ 0 <= n1 < 146097 ∧ 0 <= a).
  { pose proof (Z.div_mod n 146097). pose proof (Z.mod_pos_bound n 146097).
    assert (0 <= n / 146097) by (apply Z.div_pos; lia). unfold a, n1. lia. }
  assert (Hb : n1 = 36524 * b + n2 ∧ 0 <= n2 < 36524 ∧ 0 <= b).
  { pose proof (Z.div_mod n1 36524). pose proof (Z.mod_pos_bound n1 36524).
    assert (0 <= n1 / 36524) by (apply Z.div_pos; lia). unfold b, n2. lia. }
  assert (Hc : n2 = 1461 * c + n3 ∧ 0 <= n3 < 1461 ∧ 0 <= c).
  { pose proof (Z.div_mod n2 1461). pose proof (Z.mod_pos_bound n2 1461).
    assert (0 <= n2 / 1461) by (apply Z.div_pos; lia). unfold c, n3. lia. }
  assert (Hd : n3 = 365 * d + r ∧ 0 <= r < 365 ∧ 0 <= d).
  { pose proof (Z.div_mod n3 365). pose proof (Z.mod_pos_bound n3 365).
    assert (0 <= n3 / 365) by (apply Z.div_pos; lia). unfold d, r. lia. }
  clearbody a n1 b n2 c n3 d r.
  destruct (Z.eqb_spec d 4) as [->|Hd4]; simpl.
  - exists a, b, c, 3, 365. split_and!; try lia. f_equal; lia.
  - destruct (Z.eqb_spec b 4) as [->|Hb4].
    + exists a, 3, 24, 3, 365. split_and!; try lia. f_equal; lia.
    + exists a, b, c, d, r. split_and!; try lia. f_equal; lia.
Qed.

Lemma dby_split a b c d :
  0 <= b <= 3 → 0 <= c <= 24 → 0 <= d <= 3 →
  days_before_year (400 * a + 100 * b + 4 * c + d + 1) =
    146097 * a + 36524 * b + 1461 * c + 365 * d.
Proof.
  intros Hb Hc Hd. unfold days_before_year.
  replace (400 * a + 100 * b + 4 * c + d + 1 - 1) with (400 * a + 100 * b + 4 * c + d) by lia.
  rewrite <- (Z.div_unique (400 * a + 100 * b + 4 * c + d) 4 (100 * a + 25 * b + c) d) by lia.
  rewrite <- (Z.div_unique (400 * a + 100 * b + 4 * c + d) 100 (4 * a + b) (4 * c + d)) by lia.
  rewrite <- (Z.div_unique (400 * a + 100 * b + 4 * c + d) 400 a (100 * b + 4 * c + d)) by lia.
  lia.
Qed.

Lemma is_leap_split a b c d :
  0 <= b <= 3 → 0 <= c <= 24 → 0 <= d <= 3 →
  is_leap (400 * a + 100 * b + 4 * c + d + 1) = (d =? 3) && (negb (c =? 24) || (b =? 3)).
Proof.
  intros Hb Hc Hd. unfold is_leap.
  assert (Hm : ∀ m q r, 400 * a + 100 * b + 4 * c + d + 1 = m * q + r → 0 <= r < m →
    (400 * a + 100 * b + 4 * c + d + 1) mod m = r).
  { intros m q r E Hr. symmetry. apply (Z.mod_unique _ _ q); lia. }
  destruct (Z.eqb_spec d 3) as [->|Hd3].
  - rewrite (Hm 4 (100 * a + 25 * b + c + 1) 0) by lia. simpl.
    destruct (Z.eqb_spec c 24) as [->|Hc24]; simpl.
    + rewrite (Hm 100 (4 * a + b + 1) 0) by lia. simpl.
      destruct (Z.eqb_spec b 3) as [->|Hb3].
      * by rewrite (Hm 400 (a + 1) 0) by lia.
      * rewrite (Hm 400 a (100 * b + 100)) by lia. by apply Z.eqb_neq; lia.
    + rewrite (Hm 100 (4 * a + b) (4 * c + 4)) by lia.
      by rewrite (proj2 (Z.eqb_neq _ _)) by lia.
  - rewrite (Hm 4 (100 * a + 25 * b + c) (d + 1)) by lia.
    by rewrite (proj2 (Z.eqb_neq (d + 1) 0)) by lia.
Qed.

Lemma month_of_spec (leap : bool) n :
  0 <= n < (if leap then 366 else 365) →
  let m := month_of leap n in
  1 <= m <= 12 ∧
  1 <= n - days_before_month leap m + 1 <= days_in_month leap m.
Proof.
  intros Hn. unfold month_of, days_in_month.
  repeat match goal with
  | |- context [if ?x <? ?y then _ else _] =>
      let H := fresh in destruct (Z.ltb_spec x y) as [H|H]; [|]
  end; unfold days_before_month in *; destruct leap; simpl in *; lia.
Qed.

Lemma days2ymd_spec n :
  0 <= n < MAX_DAYS →
  let '(y, m, d) := days2ymd n in valid_date y m d = true ∧ ymd2days y m d = n.
Proof.
  intros Hn. unfold days2ymd.
  destruct (year_split n) as (a & b & c & d & r & Hs & Ha & Hb & Hc & Hd & Hr & Hr' & ->); [lia|].
  set (y := 400 * a + 100 * b + 4 * c + d + 1).
  assert (Hleap : is_leap y = (d =? 3) && (negb (c =? 24) || (b =? 3))) by (by apply is_leap_split).
  assert (Hlt : 0 <= r < (if is_leap y then 366 else 365)).
  { rewrite Hleap. destruct Hr' as [Hr'|(-> & -> & Hcb)].
    - destruct (_ && _); lia.
    - assert (negb (c =? 24) || (b =? 3) = true) as ->; [|simpl; lia].
      destruct Hcb as [Hc24| ->]; [by rewrite (proj2 (Z.eqb_neq _ _)) by done|apply orb_true_r]. }
  destruct (month_of_spec (is_leap y) r Hlt) as [Hm Hday].
  assert (Hy : 1 <= y <= 9999) by (unfold MAX_DAYS in Hn; unfold y; lia).
  split.
  - unfold valid_date. rewrite !andb_true_iff, !Z.leb_le. lia.
  - unfold ymd2days. unfold y at 1. rewrite dby_split by done. lia.
Qed.

(** ** Digits *)

Lemma pad_digits n : ∀ z acc k,
  0 <= z < 10 ^ Z.of_nat n →
  parse_digits n acc (pad n z +:+ k) = Some (acc * 10 ^ Z.of_nat n + z, k).
Proof.
  assert (Happ : ∀ n z acc k t, 0 <= z < 10 ^ Z.of_nat n →
    parse_digits (n + t) acc (pad n z +:+ k) = parse_digits t (acc * 10 ^ Z.of_nat n + z) k).
  { clear. intros n. induction n as [|n IH]; intros z acc k t Hz.
    - simpl in *. f_equal. lia.
    - rewrite Nat2Z.inj_succ, Z.pow_succ_r in Hz by lia.
      pose proof (Z.div_mod z 10). pose proof (Z.mod_pos_bound z 10).
      assert (0 <= z / 10 < 10 ^ Z.of_nat n).
      { split; [apply Z.div_pos; lia|]. apply Z.div_lt_upper_bound; lia. }
      replace (S n + t)%nat with (n + S t)%nat by lia. simpl pad.
      replace ((pad n (z / 10) +:+ chr (Z.to_nat (48 + z mod 10))) +:+ k)
        with (pad n (z / 10) +:+ String (ascii_of_nat (Z.to_nat (48 + z mod 10))) k).
      2:{ generalize (pad n (z / 10)). intros s. induction s as [|x s IHs]; [done|].
          exact (f_equal (String x) IHs). }
      rewrite IH by done. simpl.
      assert (Hc : 0 <= z mod 10 < 10) by lia.
      assert (is_digit (ascii_of_nat (Z.to_nat (48 + z mod 10))) = true ∧
              digit_val (ascii_of_nat (Z.to_nat (48 + z mod 10))) = z mod 10) as [-> ->].
      { clear -Hc. revert Hc. generalize (z mod 10). intros q Hq.
        assert (q = 0 ∨ q = 1 ∨ q = 2 ∨ q = 3 ∨ q = 4 ∨ q = 5 ∨ q = 6 ∨ q = 7 ∨ q = 8 ∨ q = 9)
          as Hqs by lia.
        by repeat (destruct Hqs as [->|Hqs]; [done|]); subst. }
      f_equal. rewrite Nat2Z.inj_succ, Z.pow_succ_r by lia. lia. }
  intros z acc k Hz. pose proof (Happ n z acc k 0%nat Hz) as H.
  by rewrite Nat.add_0_r in H.
Qed.

Lemma pad_length n z : String.length (pad n z) = n.
Proof.
  revert z. induction n as [|n IH]; intros z; [done|]. simpl.
  assert (∀ a b, String.length (a +:+ b) = (String.length a + String.length b)%nat) as ->.
  { intros a b. induction a; simpl; [done|]. by rewrite <- IHa. }
  rewrite IH. simpl. lia.
Qed.

Lemma pad_digit_chars n z : str_forall is_digit (pad n z) = true.
Proof.
  revert z. induction n as [|n IH]; intros z; [done|]. simpl.
  rewrite str_forall_app, IH. simpl. rewrite andb_true_r.
  pose proof (Z.mod_pos_bound z 10 ltac:(lia)) as Hc. revert Hc. generalize (z mod 10). intros q Hq.
  assert (q = 0 ∨ q = 1 ∨ q = 2 ∨ q = 3 ∨ q = 4 ∨ q = 5 ∨ q = 6 ∨ q = 7 ∨ q = 8 ∨ q = 9)
    as Hqs by lia.
  by repeat (destruct Hqs as [->|Hqs]; [done|]); subst.
Qed.

Lemma pad_app_shape n z k : ∃ c t, pad (S n) z +:+ k = String c t ∧ is_digit c = true.
Proof.
  pose proof (pad_length (S n) z) as Hl. pose proof (pad_digit_chars (S n) z) as Hd.
  destruct (pad (S n) z) as [|c t]; [done|]. simpl in Hd. apply andb_true_iff in Hd as [Hc _].
  by exists c, (t +:+ k).
Qed.

(** ** The time *)

Definition frac_text (us : Z) : string := if us =? 0 then "" else "." +:+ pad 6 us.
Definition time_text (h mi s us : Z) : string :=
  pad 2 h +:+ ":" +:+ pad 2 mi +:+ ":" +:+ pad 2 s +:+ frac_text us.

Lemma parse_time_text h mi s us tail :
  0 <= h < 100 → 0 <= mi < 100 → 0 <= s < 100 → 0 <= us < 1000000 →
  parse_time (time_text h mi s us) tail = Some (h, mi, s, us, tail).
Proof.
  intros Hh Hmi Hs Hus. unfold parse_time, time_text.
  rewrite (pad_digits 2) by done.
  destruct (pad_app_shape 1 mi (":" +:+ pad 2 s +:+ frac_text us)) as (c1 & t1 & E1 & _).
  rewrite E1. change (":" +:+ String c1 t1) with (String ":" (String c1 t1)).
  cbv iota beta. change (Ascii.eqb ":" ".") with false. change (Ascii.eqb ":" ":") with true.
  simpl negb. cbv iota.
  rewrite <- E1. rewrite (pad_digits 2) by done.
  destruct (pad_app_shape 1 s (frac_text us)) as (c2 & t2 & E2 & _).
  rewrite E2. change (":" +:+ String c2 t2) with (String ":" (String c2 t2)).
  cbv iota beta. change (Ascii.eqb ":" ".") with false. change (Ascii.eqb ":" ":") with true.
  simpl negb. cbv iota.
  rewrite <- E2. rewrite (pad_digits 2) by done.
  unfold frac_text. destruct (Z.eqb_spec us 0) as [->|Hne].
  - repeat f_equal; lia.
  - pose proof (pad_app_shape 5 us "") as (c3 & t3 & E3 & _). rewrite str_app_nil_r in E3.
    rewrite E3. change ("." +:+ String c3 t3) with (String "." (String c3 t3)).
    cbv iota beta. change (Ascii.eqb "." "." || Ascii.eqb "." ":") with true. cbv iota.
    rewrite <- E3.
    unfold parse_us. rewrite pad_length. simpl Nat.eqb. cbv iota.
    rewrite <- (str_app_nil_r (pad 6 us)), (pad_digits 6) by done.
    repeat f_equal; lia.
Qed.

Definition no_sign (c : ascii) : bool := negb (Ascii.eqb c "+" || Ascii.eqb c "-").
Lemma split_zone_app a z :
  str_forall no_sign a = true → split_zone (a +:+ String "+" z) = (a, String "+" z).
Proof.
  induction a as [|c a IH]; [done|]. simpl str_forall. rewrite andb_true_iff. intros [Hc Ha].
  change (String c a +:+ String "+" z) with (String c (a +:+ String "+" z)).
  cbn [split_zone]. unfold no_sign in Hc. apply negb_true_iff in Hc.
  rewrite Hc. by rewrite (IH Ha).
Qed.

Lemma digit_no_sign s : str_forall is_digit s = true → str_forall no_sign s = true.
Proof.
  intros H. eapply str_forall_mono; [|done]. intros c.
  by destruct c as [[][][][][][][][]].
Qed.

Lemma time_text_no_sign h mi s us : str_forall no_sign (time_text h mi s us) = true.
Proof.
  assert (Hp : ∀ n z, str_forall no_sign (pad n z) = true)
    by (intros; apply digit_no_sign, pad_digit_chars).
  unfold time_text, frac_text. destruct (us =? 0); by rewrite !str_forall_app, !Hp.
Qed.

(** ** The round trip *)

Definition date_text (y m d : Z) : string := pad 4 y +:+ "-" +:+ pad 2 m +:+ "-" +:+ pad 2 d.

Lemma isoformat_utc w :
  isoformat (utc w) =
    let '(y, m, d) := days2ymd (w / DAY_US) in
    let r := w mod DAY_US in
    let sec := r / US in
    date_text y m d +:+ "T" +:+
    time_text (sec / 3600) ((sec / 60) mod 60) (sec mod 60) (r mod US) +:+ "+00:00".
Proof.
  unfold isoformat, utc, date_text, time_text, frac_text. simpl dt_wall. simpl dt_off.
  destruct (days2ymd _) as [[y m] d].
  change (print_zone 0) with "+00:00".
  assert (Ha : ∀ a b c : string, (a +:+ b) +:+ c = a +:+ b +:+ c).
  { intros a b c. induction a as [|x a IH]; [done|]. exact (f_equal (String x) IH). }
  by rewrite !Ha.
Qed.

Ltac expect_step :=
  match goal with
  | |- context [expect ?c (?t +:+ ?X)] => change (expect c (t +:+ X)) with (Some X)
  end; cbv iota beta.

Lemma parse_date_text y m d k :
  0 <= y < 10000 → 0 <= m < 100 → 0 <= d < 100 →
  parse_date (date_text y m d +:+ k) = Some (y, m, d, k).
Proof.
  intros Hy Hm Hd. unfold parse_date, date_text.
  assert (Ha : ∀ a b c : string, (a +:+ b) +:+ c = a +:+ b +:+ c).
  { intros a b c. induction a as [|x a IH]; [done|]. exact (f_equal (String x) IH). }
  rewrite !Ha. rewrite (pad_digits 4) by done. expect_step.
  rewrite (pad_digits 2) by done. expect_step.
  rewrite (pad_digits 2) by done. repeat f_equal; lia.
Qed.

Lemma wall_parts w :
  0 <= w < WALL_MAX →
  let r := w mod DAY_US in let sec := r / US in
  0 <= w / DAY_US < MAX_DAYS ∧
  valid_time (sec / 3600) ((sec / 60) mod 60) (sec mod 60) (r mod US) = true ∧
  w = w / DAY_US * DAY_US + ((sec / 3600 * 60 + (sec / 60) mod 60) * 60 + sec mod 60) * US + r mod US.
Proof.
  intros Hw r sec. unfold WALL_MAX in Hw.
  assert (Hd : 0 < DAY_US) by (unfold DAY_US, US; lia).
  pose proof (Z.div_mod w DAY_US ltac:(lia)) as E. fold r in E.
  pose proof (Z.mod_pos_bound w DAY_US Hd) as Hr. fold r in Hr.
  assert (0 <= w / DAY_US) by (apply Z.div_pos; lia).
  assert (w / DAY_US < MAX_DAYS) by (apply Z.div_lt_upper_bound; lia).
  assert (HU : 0 < US) by (unfold US; lia).
  pose proof (Z.div_mod r US ltac:(lia)) as E2. fold sec in E2.
  pose proof (Z.mod_pos_bound r US HU) as Hus.
  assert (Hsec : 0 <= sec < 86400).
  { split; [apply Z.div_pos; lia|]. apply Z.div_lt_upper_bound; [done|]. unfold DAY_US in Hr. lia. }
  pose proof (Z.div_mod sec 60 ltac:(lia)). pose proof (Z.mod_pos_bound sec 60 ltac:(lia)).
  pose proof (Z.div_mod (sec / 60) 60 ltac:(lia)). pose proof (Z.mod_pos_bound (sec / 60) 60 ltac:(lia)).
  assert (Hh : sec / 3600 = sec / 60 / 60) by (rewrite Z.div_div by lia; done).
  assert (0 <= sec / 3600 < 24).
  { split; [apply Z.div_pos; lia|]. apply Z.div_lt_upper_bound; lia. }
  split_and!; [lia|lia| |].
  - unfold valid_time. rewrite !andb_true_iff, !Z.leb_le, !Z.ltb_lt. lia.
  - rewrite Hh. rewrite <- Hh in *. lia.
Qed.

Lemma fromisoformat_isoformat w :
  valid_wall w = true → fromisoformat (isoformat (utc w)) = Some (utc w).
Proof.
  unfold valid_wall. rewrite andb_true_iff, Z.leb_le, Z.ltb_lt. intros Hw.
  rewrite isoformat_utc. destruct (wall_parts w Hw) as (Hday & Ht & Hsum).
  pose proof (days2ymd_spec _ Hday) as Hd. destruct (days2ymd (w / DAY_US)) as [[y m] d].
  destruct Hd as [Hv Hymd].
  set (r := w mod DAY_US) in *. set (sec := r / US) in *.
  assert (Hb : 0 <= y < 10000 ∧ 0 <= m < 100 ∧ 0 <= d < 100).
  { unfold valid_date, days_in_month in Hv. rewrite !andb_true_iff, !Z.leb_le in Hv.
    destruct Hv as [[[[[? ?] ?] ?] ?] Hdm]. split_and!; try lia.
    revert Hdm. unfold days_before_month. destruct (is_leap y);
    assert (m = 1 ∨ m = 2 ∨ m = 3 ∨ m = 4 ∨ m = 5 ∨ m = 6 ∨ m = 7 ∨ m = 8 ∨ m = 9 ∨ m = 10 ∨ m = 11 ∨ m = 12)
      as Hm by lia; repeat destruct Hm as [->|Hm]; subst; simpl; lia. }
  pose proof Ht as Ht'. unfold valid_time in Ht'. rewrite !andb_true_iff, !Z.leb_le, !Z.ltb_lt in Ht'.
  change (r mod US < US) with (r mod US < 1000000) in Ht'.
  unfold fromisoformat. rewrite parse_date_text by lia. rewrite Hv. simpl negb. cbv iota.
  set (tt := time_text _ _ _ _).
  change (("T" +:+ tt +:+ "+00:00") =s? "") with false. cbv iota.
  change (drop_separator ("T" +:+ tt +:+ "+00:00")) with (tt +:+ String "+" "00:00").
  rewrite split_zone_app by apply time_text_no_sign.
  unfold tt. fold sec. rewrite parse_time_text by lia.
  change (parse_zone (String "+" "00:00")) with (Some (Some 0)).
  rewrite Ht. unfold wall_of. rewrite Hymd. simpl. unfold utc. by rewrite <- Hsum.
Qed.
