(* ===== verification/PyJson.v ===== *)
(** * Python's [json]

    [json.loads] (the scanner with its white space, the literals [NaN], [Infinity]
    and [-Infinity], escapes with surrogate pairs, strict control characters) and
    [json.dumps] with its [indent], [separators], [sort_keys] and [ensure_ascii].
    The scanner is fuelled by the length of its text: every recursive call consumes
    a character.  A [\u] escape of an unpaired surrogate is kept as the three bytes of its
    generalised UTF-8 form, as Python keeps the surrogate in the [str].  Not
    modelled: the recursion limit on nesting and the digit limit of [int]. *)

From S2P Require Import Prelude PyStr PyFloat PyValue.

(** ** Code points *)

Definition b (n : Z) : ascii := ascii_of_nat (Z.to_nat n).
Definition encode_cp (c : Z) : string :=
  if c <? 128 then String (b c) ""
  else if c <? 2048 then String (b (192 + c / 64)) (String (b (128 + c mod 64)) "")
  else if c <? 65536 then
    String (b (224 + c / 4096)) (String (b (128 + (c / 64) mod 64)) (String (b (128 + c mod 64)) ""))
  else String (b (240 + c / 262144)) (String (b (128 + (c / 4096) mod 64))
       (String (b (128 + (c / 64) mod 64)) (String (b (128 + c mod 64)) ""))).

(** The code points of a UTF-8 string; a malformed byte stands for itself. *)
Fixpoint code_points (s : string) : list Z :=
  match s with
  | EmptyString => []
  | String c1 s1 =>
      let n1 := Z.of_nat (ord c1) in
      let lo (c : ascii) := Z.of_nat (ord c) mod 64 in
      match s1 with
      | String c2 s2 =>
          if n1 <? 192 then n1 :: code_points s1
          else if n1 <? 224 then (n1 mod 32) * 64 + lo c2 :: code_points s2
          else match s2 with
          | String c3 s3 =>
              if n1 <? 240 then ((n1 mod 16) * 64 + lo c2) * 64 + lo c3 :: code_points s3
              else match s3 with
              | String c4 s4 => (((n1 mod 8) * 64 + lo c2) * 64 + lo c3) * 64 + lo c4 :: code_points s4
              | EmptyString => n1 :: code_points s1
              end
          | EmptyString => n1 :: code_points s1
          end
      | EmptyString => [n1]
      end
  end.

(** ** Printing *)

Definition hex4 (n : Z) : string :=
  let k := Z.to_nat n in hex2 (k / 256)%nat +:+ hex2 (k mod 256)%nat.

Definition escape_ascii (c : Z) : option string :=
  match c with
  | 34 => Some ("\" +:+ QUOTE) | 92 => Some "\\"
  | 10 => Some "\n" | 13 => Some "\r" | 9 => Some "\t" | 12 => Some "\f" | 8 => Some "\b"
  | _ => if c <? 32 then Some ("\u" +:+ hex4 c) else None
  end.
Definition escape_cp (ascii_only : bool) (c : Z) : string :=
  match escape_ascii c with
  | Some e => e
  | None =>
      if negb ascii_only || (c <? 128) then encode_cp c
      else if c <? 65536 then "\u" +:+ hex4 c
      else let d := c - 65536 in
           "\u" +:+ hex4 (55296 + d / 1024) +:+ "\u" +:+ hex4 (56320 + d mod 1024)
  end.
(** DEL is printed as it is. *)
Definition dumps_str (ascii_only : bool) (s : string) : string :=
  QUOTE +:+ foldr (λ c acc, escape_cp ascii_only c +:+ acc) "" (code_points s) +:+ QUOTE.

Arguments dumps_str : simpl never.

Definition dumps_float (f : pyfloat) : string :=
  match f with
  | FNan => "NaN" | FInf true => "-Infinity" | FInf false => "Infinity"
  | _ => frepr f
  end.

(** Python's [str] order is that of code points, which UTF-8 preserves. *)
Definition sort_items {A} (l : list (string * A)) : list (string * A) :=
  sort_by (λ x y, str_leb x.1 y.1) l.

Record style := Style {
  st_indent : option nat; st_item : string; st_key : string;
  st_sort : bool; st_ascii : bool }.
(** [json.dumps(v)]; [json.dumps(v, indent=n, sort_keys=..., ensure_ascii=...)]; the
    compact separators [(",", ":")]. *)
Definition st_default (sort ascii_only : bool) : style := Style None ", " ": " sort ascii_only.
Definition st_pretty (n : nat) (sort ascii_only : bool) : style :=
  Style (Some n) "," ": " sort ascii_only.
Definition st_compact (sort ascii_only : bool) : style := Style None "," ":" sort ascii_only.

Fixpoint spaces (n : nat) : string :=
  match n with O => "" | S n => String " " (spaces n) end.
Definition newline_at (st : style) (level : nat) : string :=
  match st_indent st with None => "" | Some n => LF +:+ spaces (n * level)%nat end.

Definition enclose (st : style) (level : nat) (l r : string) (items : list string) : string :=
  match items with
  | [] => l +:+ r
  | _ => l +:+ newline_at st (S level) +:+
         str_join (st_item st +:+ newline_at st (S level)) items +:+
         newline_at st level +:+ r
  end.

Fixpoint dumps_at (st : style) (level : nat) (v : json) : string :=
  match v with
  | JNull => "null"
  | JBool true => "true"
  | JBool false => "false"
  | JInt z => str_of_Z z
  | JFloat f => dumps_float f
  | JStr s => dumps_str (st_ascii st) s
  | JList l => enclose st level "[" "]" (map (dumps_at st (S level)) l)
  | JDict d =>
      let items := map (λ kv, (kv.1, dumps_at st (S level) kv.2)) d in
      let items := if st_sort st then sort_items items else items in
      enclose st level "{" "}"
        (map (λ kv, dumps_str (st_ascii st) kv.1 +:+ st_key st +:+ kv.2) items)
  end.
Definition dumps (st : style) (v : json) : string := dumps_at st 0 v.

(** ** Scanning *)

Definition is_ws (c : ascii) : bool :=
  match ord c with 9%nat | 10%nat | 13%nat | 32%nat => true | _ => false end.
Definition skip_ws (s : string) : string := drop_while is_ws s.

Definition hex_val (c : ascii) : option Z :=
  let n := Z.of_nat (ord c) in
  if is_digit c then Some (n - 48)
  else if in_range 97 102 c then Some (n - 87)
  else if in_range 65 70 c then Some (n - 55)
  else None.
Definition scan_hex4 (s : string) : option (Z * string) :=
  match s with
  | String c1 (String c2 (String c3 (String c4 s))) =>
      let? v1 := hex_val c1 in let? v2 := hex_val c2 in
      let? v3 := hex_val c3 in let? v4 := hex_val c4 in
      Some (((v1 * 16 + v2) * 16 + v3) * 16 + v4, s)
  | _ => None
  end.
(** The escape after [\u]: a high surrogate joins a low one that follows. *)
Definition scan_unicode (s : string) : option (Z * string) :=
  let? (u, s) := scan_hex4 s in
  if (55296 <=? u) && (u <=? 56319) then
    match s with
    | String x (String y s') =>
        if Ascii.eqb x "\" && Ascii.eqb y "u" then
          match scan_hex4 s' with
          | Some (v, s'') =>
              if (56320 <=? v) && (v <=? 57343)
              then Some (65536 + (u - 55296) * 1024 + (v - 56320), s'')
              else Some (u, s)
          | None => Some (u, s)
          end
        else Some (u, s)
    | _ => Some (u, s)
    end
  else Some (u, s).

Definition simple_escape (c : ascii) : option ascii :=
  match ord c with
  | 34%nat => Some c | 92%nat => Some c | 47%nat => Some c
  | 98%nat => Some (ascii_of_nat 8) | 102%nat => Some (ascii_of_nat 12)
  | 110%nat => Some (ascii_of_nat 10) | 114%nat => Some (ascii_of_nat 13)
  | 116%nat => Some (ascii_of_nat 9) | _ => None
  end.

(** The body of a string after its opening quote. *)
Fixpoint scan_string (fuel : nat) (s : string) : option (string * string) :=
  match fuel with
  | O => None
  | S fuel =>
      match s with
      | EmptyString => None
      | String c s =>
          if Nat.eqb (ord c) 34 then Some (EmptyString, s)
          else if Nat.eqb (ord c) 92 then
            match s with
            | EmptyString => None
            | String e s' =>
                if Ascii.eqb e "u" then
                  let? (u, s'') := scan_unicode s' in
                  let? (r, k) := scan_string fuel s'' in Some (encode_cp u +:+ r, k)
                else
                  let? d := simple_escape e in
                  let? (r, k) := scan_string fuel s' in Some (String d r, k)
            end
          else if Nat.ltb (ord c) 32 then None
          else let? (r, k) := scan_string fuel s in Some (String c r, k)
      end
  end.

(** The longest run of digits. *)
Fixpoint span_digits (s : string) : string * string :=
  match s with
  | String c s' => if is_digit c then let '(a, k) := span_digits s' in (String c a, k) else ("", s)
  | EmptyString => ("", s)
  end%string.

(** [(-?(?:0|[1-9]\d* ))(\.\d+)?([eE][-+]?\d+)?]: the parts of a number. *)
Definition scan_sign (s : string) : bool * string :=
  match s with
  | String c s' => if Ascii.eqb c "-" then (true, s') else (false, s)
  | EmptyString => (false, s)
  end.
Definition scan_int_part (s : string) : option (string * string) :=
  match s with
  | String c s' =>
      if Ascii.eqb c "0" then Some ("0"%string, s')
      else if is_digit c then Some (span_digits s) else None
  | EmptyString => None
  end.
Definition scan_frac (s : string) : option string * string :=
  match s with
  | String c s' =>
      if Ascii.eqb c "." then
        match span_digits s' with (EmptyString, _) => (None, s) | (d, k) => (Some d, k) end
      else (None, s)
  | EmptyString => (None, s)
  end.
Definition scan_exp (s : string) : option Z * string :=
  match s with
  | String c s' =>
      if Ascii.eqb c "e" || Ascii.eqb c "E" then
        let '(neg, s1) := match s' with
          | String g s2 =>
              if Ascii.eqb g "-" then (true, s2) else if Ascii.eqb g "+" then (false, s2)
              else (false, s')
          | EmptyString => (false, s') end in
        match span_digits s1 with
        | (EmptyString, _) => (None, s)
        | (d, k) => (Some (if neg then - digits_val 0 d else digits_val 0 d), k)
        end
      else (None, s)
  | EmptyString => (None, s)
  end.

(** The value of the parts; beyond the tested exponents every significand of its
    length is 0 or infinite. *)
Definition float_literal (neg : bool) (ip fd : string) (ex : Z) : pyfloat :=
  let n := digits_val 0 (ip +:+ fd) in
  let e := ex - str_len fd in
  if n =? 0 then FFin neg 0 0
  else if 400 <? e then FInf neg
  else if e + str_len (ip +:+ fd) <? -400 then FFin neg 0 0
  else if 0 <=? e then round_pos neg (n * 10 ^ e) 1
  else round_pos neg n (10 ^ (- e)).
Definition number_value (neg : bool) (ip : string) (fr : option string) (ex : option Z) : json :=
  match fr, ex with
  | None, None => JInt (if neg then - digits_val 0 ip else digits_val 0 ip)
  | _, _ => JFloat (float_literal neg ip (default "" fr) (default 0 ex))
  end.

Definition scan_number (s : string) : option (json * string) :=
  let '(neg, s) := scan_sign s in
  let? (ip, s) := scan_int_part s in
  let '(fr, s) := scan_frac s in
  let '(ex, s) := scan_exp s in
  Some (number_value neg ip fr ex, s).

Arguments scan_number : simpl never.

(** A JSON object read from its pairs: a repeated key keeps its first position and
    takes its last value. *)
Definition dict_of_pairs (l : list (string * json)) : list (string * json) :=
  fold_left (λ d kv, dset kv.1 kv.2 d) l [].

Fixpoint scan (fuel : nat) (s : string) : option (json * string) :=
  match fuel with
  | O => None
  | S fuel =>
      match s with
      | EmptyString => None
      | String c s' =>
          match ord c with
          | 34%nat => let? (r, k) := scan_string (S (String.length s')) s' in Some (JStr r, k)
          | 123%nat =>
              match skip_ws s' with
              | String d k as s1 =>
                  if Ascii.eqb d "}" then Some (JDict [], k)
                  else let? (ps, k) := scan_members fuel s1 in Some (JDict (dict_of_pairs ps), k)
              | EmptyString => None
              end
          | 91%nat =>
              match skip_ws s' with
              | String d k as s1 =>
                  if Ascii.eqb d "]" then Some (JList [], k)
                  else let? (vs, k) := scan_items fuel s1 in Some (JList vs, k)
              | EmptyString => None
              end
          | _ =>
              if String.prefix "null" s then Some (JNull, str_drop 4 s)
              else if String.prefix "true" s then Some (JBool true, str_drop 4 s)
              else if String.prefix "false" s then Some (JBool false, str_drop 5 s)
              else match scan_number s with
              | Some r => Some r
              | None =>
                  if String.prefix "NaN" s then Some (JFloat FNan, str_drop 3 s)
                  else if String.prefix "Infinity" s then Some (JFloat (FInf false), str_drop 8 s)
                  else if String.prefix "-Infinity" s then Some (JFloat (FInf true), str_drop 9 s)
                  else None
              end
          end
      end
  end
with scan_members (fuel : nat) (s : string) : option (list (string * json) * string) :=
  match fuel with
  | O => None
  | S fuel =>
      match s with
      | EmptyString => None
      | String q s =>
          if negb (Nat.eqb (ord q) 34) then None else
          let? (key, s) := scan_string (S (String.length s)) s in
          match skip_ws s with
          | String c s =>
              if negb (Ascii.eqb c ":") then None else
              let? (v, s) := scan fuel (skip_ws s) in
              match skip_ws s with
              | String c s =>
                  if Ascii.eqb c "}" then Some ([(key, v)], s)
                  else if Ascii.eqb c "," then
                    let? (ps, k) := scan_members fuel (skip_ws s) in Some ((key, v) :: ps, k)
                  else None
              | EmptyString => None
              end
          | EmptyString => None
          end
      end
  end
with scan_items (fuel : nat) (s : string) : option (list json * string) :=
  match fuel with
  | O => None
  | S fuel =>
      let? (v, s) := scan fuel s in
      match skip_ws s with
      | String c s =>
          if Ascii.eqb c "]" then Some ([v], s)
          else if Ascii.eqb c "," then
            let? (vs, k) := scan_items fuel (skip_ws s) in Some (v :: vs, k)
          else None
      | EmptyString => None
      end
  end.

(** [JSONDecoder().raw_decode(s)] at the start of [s], with the rest of the text; each level of the scanner
    uses at most three units of fuel per character. *)
Definition scan_fuel (s : string) : nat := (3 * String.length s + 3)%nat.
Definition raw_decode (s : string) : option (json * string) := scan (scan_fuel s) s.

Definition loads_opt (s : string) : option json :=
  let? (v, k) := raw_decode (skip_ws s) in
  if skip_ws k =s? "" then Some v else None.

(** [json.loads(text)]; a text starting with a BOM is rejected. *)
Definition BOM : string := of_chars (map ascii_of_nat [239; 187; 191]%nat).
Definition loads (s : string) : res json :=
  if starts_with BOM s then raise JSONDecodeError "Unexpected UTF-8 BOM (decode using utf-8-sig)"
  else match loads_opt s with
       | Some v => Ok v
       | None => raise JSONDecodeError "Expecting value"
       end.

(** [json.loads(raw.decode("utf-8"))]. *)
Definition decode_res (raw : string) : res string :=
  match decode_utf8 raw with
  | Some s => Ok s
  | None => raise UnicodeDecodeError "invalid utf-8"
  end.
Definition loads_bytes (raw : string) : res json := let* s := decode_res raw in loads s.

Lemma loads_raises s e : loads s = Raise e → exn_cls e = JSONDecodeError.
Proof. unfold loads. intros H. repeat break_hyp H; by injection H as <-. Qed.

Lemma loads_bytes_raises s e :
  loads_bytes s = Raise e → exn_cls e = JSONDecodeError ∨ exn_cls e = UnicodeDecodeError.
Proof.
  unfold loads_bytes, decode_res. destruct (decode_utf8 s) as [t|]; simpl.
  - intros H%loads_raises. by left.
  - intros [= <-]. by right.
Qed.
