(* ===== verification/FS.v ===== *)
(** * Files, faults and time

    The effects of the program as a state monad with exceptions.  The state is a
    file system, a finite map from paths to nodes, and a counter of system calls.
    The environment decides which calls fail: call number [n] raises [OSError] when
    [fault n]; it also supplies the random part of temporary names, the clock, the
    modification time and the device of each path and the locks other processes hold.  A theorem quantified over the environment therefore covers
    every pattern of failures.

    Paths are those of [pathlib]: an absolute flag and the parts.  [..] is kept as a
    part, as [pathlib] keeps it, and a symbolic link is followed only in the last
    part of a path.  A write that fails leaves the file it wrote to empty.  Locks exclude
    other runs of the same code and have no other effect here. *)

From S2P Require Import Prelude PyStr PyFloat PyValue PyJson.

Abbreviation path := (prod bool (list string)).

(** ** [pathlib] *)

Definition path_parts (s : string) : list string :=
  List.filter (λ x, (x <>s? "") && (x <>s? ".")) (split_char "/" s).
Definition path_of (s : string) : path := (starts_with "/" s, path_parts s).
Definition path_str (p : path) : string :=
  match p with
  | (true, l) => "/" +:+ str_join "/" l
  | (false, []) => "."
  | (false, l) => str_join "/" l
  end.
(** [p / s]. *)
Definition path_join (p : path) (s : string) : path :=
  if starts_with "/" s then path_of s else (p.1, p.2 ++ path_parts s).
Definition p_name (p : path) : string := List.last p.2 "".
Definition p_parent (p : path) : path := (p.1, List.removelast p.2).
Definition name_split (n : string) : string * string :=
  match str_rfind "." n with
  | Some i =>
      if (Nat.ltb 0 i && Nat.ltb i (String.length n - 1))%bool
      then (str_take i n, str_drop i n) else (n, "")
  | None => (n, "")
  end.
Definition p_stem (p : path) : string := (name_split (p_name p)).1.
Definition p_suffix (p : path) : string := (name_split (p_name p)).2.
(** [p.relative_to(root)]: [None] when it raises [ValueError]. *)
Fixpoint strip_prefix (l k : list string) : option (list string) :=
  match l, k with
  | [], _ => Some k
  | x :: l, y :: k => if x =s? y then strip_prefix l k else None
  | _ :: _, [] => None
  end.
Definition relative_to (p root : path) : option path :=
  if Bool.eqb p.1 root.1 then
    match strip_prefix root.2 p.2 with Some l => Some (false, l) | None => None end
  else None.

(** ** Nodes, worlds, environments *)

Inductive node :=
| File (data : string) (mode : Z)
| Dir (mode : Z)
| Link (target : path)
| Special.

#[global] Instance node_eq_dec : EqDecision node.
Proof. solve_decision. Defined.

Abbreviation fs := (gmap path node).

Record world := World { w_fs : fs; w_tick : nat }.
Record env := Env {
  fault : nat → bool;
  rand : nat → string;
  clock : nat → Z;       (* microseconds since the epoch *)
  mtime : nat → path → pyfloat;
  locked : nat → path → bool;   (* held by another process *)
  dev : path → Z }.

Definition M (A : Type) : Type := env → world → res A * world.

Definition ret {A} (a : A) : M A := λ _ w, (Ok a, w).
Definition throw {A} (e : exn) : M A := λ _ w, (Raise e, w).
Definition mraise {A} (c : exn_class) (msg : string) : M A := throw (Exn c "" msg).
Definition mraise_code {A} (c : exn_class) (code msg : string) : M A := throw (Exn c code msg).
Definition bind {A B} (m : M A) (k : A → M B) : M B :=
  λ E w, match m E w with
         | (Ok a, w') => k a E w'
         | (Raise e, w') => (Raise e, w')
         end.
Notation "'let!' x := m 'in' k" := (bind m (λ x, k))
  (at level 10, x pattern, m at level 200, k at level 200) : cloudx_scope.
Notation "m ;; k" := (bind m (λ _, k)) (at level 100, right associativity) : cloudx_scope.
Definition lift {A} (r : res A) : M A := λ _ w, (r, w).

(** [try: m except ...: h e]: [h e = None] lets the exception through. *)
Definition try_with {A} (m : M A) (h : exn → option (M A)) : M A :=
  λ E w, match m E w with
         | (Raise e, w') => match h e with Some k => k E w' | None => (Raise e, w') end
         | r => r
         end.
Definition except {A} (cs : list exn_class) (k : exn → M A) (e : exn) : option (M A) :=
  if existsb (λ c, catches c (exn_cls e)) cs then Some (k e) else None.
(** [except Exception]. *)
Definition except_all {A} (k : exn → M A) (e : exn) : option (M A) := Some (k e).
(** [try: m except OSError: pass]. *)
Definition ignore_oserror (m : M unit) : M unit := try_with m (except [OSError] (λ _, ret tt)).
(** [try: m finally: f]. *)
Definition finally {A} (m : M A) (f : M unit) : M A :=
  λ E w, match m E w with
         | (r, w') => match f E w' with
                      | (Ok _, w'') => (r, w'')
                      | (Raise e, w'') => (Raise e, w'')
                      end
         end.

Fixpoint mmap {A B} (f : A → M B) (l : list A) : M (list B) :=
  match l with
  | [] => ret []
  | x :: l => let! y := f x in let! ys := mmap f l in ret (y :: ys)
  end.
Fixpoint miter {A} (f : A → M unit) (l : list A) : M unit :=
  match l with [] => ret tt | x :: l => f x ;; miter f l end.
Fixpoint mfold {A S} (f : S → A → M S) (s : S) (l : list A) : M S :=
  match l with [] => ret s | x :: l => let! s' := f s x in mfold f s' l end.

(** ** System calls *)

Definition oserror {A} (msg : string) : M A := mraise OSError msg.
Definition missing {A} : M A := mraise FileNotFoundError "no such file".

(** One call: it fails when the environment says so. *)
Definition sys : M unit :=
  λ E w, ((if fault E (w_tick w) then Raise (Exn OSError "" "system call failed") else Ok tt),
          World (w_fs w) (S (w_tick w))).
Definition get_fs : M fs := λ _ w, (Ok (w_fs w), w).
Definition put_fs (f : fs) : M unit := λ _ w, (Ok tt, World f (w_tick w)).
Definition now_us : M Z := λ E w, (Ok (clock E (w_tick w)), World (w_fs w) (S (w_tick w))).
(** [fcntl.flock(..., LOCK_EX | LOCK_NB)]. *)
Definition try_lock (p : path) : M unit :=
  sys ;; λ E w, if locked E (w_tick w) p
                then mraise BlockingIOError "resource temporarily unavailable" E w
                else (Ok tt, w).

(** The node a path denotes once a final link is followed. *)
Fixpoint follow (fuel : nat) (f : fs) (p : path) : option (path * node) :=
  match f !! p with
  | Some (Link t) => match fuel with O => None | S fuel => follow fuel f t end
  | Some n => Some (p, n)
  | None => None
  end.
Definition MAX_LINKS : nat := 40.
Definition stat_node (f : fs) (p : path) : option node :=
  match follow MAX_LINKS f p with Some (_, n) => Some n | None => None end.

Arguments stat_node : simpl never.

Definition is_reg (n : node) : bool := match n with File _ _ => true | _ => false end.
Definition is_dirn (n : node) : bool := match n with Dir _ => true | _ => false end.
Definition is_link (n : node) : bool := match n with Link _ => true | _ => false end.
Definition node_size (n : node) : Z := match n with File d _ => str_len d | _ => 0 end.
Definition node_mode (n : node) : Z :=
  match n with File _ m => m | Dir m => m | _ => 511 end.
Definition opt_is (t : node → bool) (o : option node) : bool :=
  match o with Some n => t n | None => false end.

(** [p.lstat()], [p.stat()]. *)
Definition lstat (p : path) : M node :=
  sys ;; let! f := get_fs in
  match f !! p with Some n => ret n | None => missing end.
Definition stat (p : path) : M node :=
  sys ;; let! f := get_fs in
  match stat_node f p with Some n => ret n | None => missing end.
(** [p.exists()], [p.is_file()], [p.is_dir()], [p.is_symlink()]: a missing file is
    an answer, any other failure is raised. *)
Definition exists_p (p : path) : M bool :=
  sys ;; let! f := get_fs in ret (opt_is (λ _, true) (stat_node f p)).
Definition is_file_p (p : path) : M bool :=
  sys ;; let! f := get_fs in ret (opt_is is_reg (stat_node f p)).
Definition is_dir_p (p : path) : M bool :=
  sys ;; let! f := get_fs in ret (opt_is is_dirn (stat_node f p)).
Definition is_symlink_p (p : path) : M bool :=
  sys ;; let! f := get_fs in ret (opt_is is_link (f !! p)).
Definition st_dev (p : path) : M Z :=
  sys ;; let! f := get_fs in
  match stat_node f p with
  | Some _ => λ E w, (Ok (dev E p), w)
  | None => missing
  end.
Definition st_mtime (p : path) : M pyfloat :=
  sys ;; let! f := get_fs in
  match stat_node f p with
  | Some _ => λ E w, (Ok (mtime E (w_tick w) p), w)
  | None => missing
  end.

(** [os.open(p, O_RDONLY | O_NOFOLLOW)], then [fstat] and [read] on the descriptor,
    each a call of its own; [open_read] follows a final link. *)
Definition open_nofollow (p : path) : M node :=
  sys ;; let! f := get_fs in
  match f !! p with
  | Some (Link _) => oserror "too many levels of symbolic links"
  | Some n => ret n
  | None => missing
  end.
Definition open_read (p : path) : M node :=
  sys ;; let! f := get_fs in
  match stat_node f p with Some n => ret n | None => missing end.
Definition fstat (n : node) : M node := sys ;; ret n.
Definition read_node (n : node) : M string :=
  sys ;; match n with
         | File d _ => ret d
         | Dir _ => oserror "is a directory"
         | _ => ret ""
         end.
(** [p.read_bytes()]. *)
Definition read_bytes (p : path) : M string := let! n := open_read p in read_node n.
(** [p.read_text(encoding="utf-8")]. *)
Definition read_text (p : path) : M string :=
  let! raw := read_bytes p in lift (decode_res raw).

Definition update (p : path) (n : node) : M unit := λ E w, put_fs (<[p := n]> (w_fs w)) E w.

Definition parent_is_dir (f : fs) (p : path) : bool :=
  match p.2 with [] => true | [_] => true
  | _ => opt_is is_dirn (stat_node f (p_parent p)) end.

(** [tempfile.mkstemp(prefix, dir)]: names are tried until one is free. *)
Fixpoint mkstemp_go (fuel : nat) (prefix suffix : string) (dir : path) : M path :=
  match fuel with
  | O => oserror "No usable temporary file name found"
  | S fuel =>
      λ E w,
        let p := (dir.1, dir.2 ++ [prefix +:+ rand E (w_tick w) +:+ suffix]) in
        (sys ;; let! f := get_fs in
         match f !! p with
         | Some _ => mkstemp_go fuel prefix suffix dir
         | None =>
             if parent_is_dir f p then update p (File "" 384) ;; ret p
             else oserror "no such directory"
         end) E w
  end.
Definition TMP_MAX : nat := 10000.
Definition mkstemp (prefix : string) (dir : path) : M path := mkstemp_go TMP_MAX prefix "" dir.

(** [os.fchmod]/[os.chmod], [write], [fsync], [os.replace], [os.unlink]. *)
Definition set_mode (n : node) (mode : Z) : node :=
  match n with File d _ => File d mode | Dir _ => Dir mode | n => n end.
Definition chmod (p : path) (mode : Z) : M unit :=
  sys ;; let! f := get_fs in
  match follow MAX_LINKS f p with
  | Some (q, n) => update q (set_mode n mode)
  | None => missing
  end.
Definition write_file (p : path) (data : string) : M unit :=
  sys ;; let! f := get_fs in
  match f !! p with
  | Some (File _ m) => update p (File data m)
  | _ => oserror "not a regular file"
  end.
Definition fsync : M unit := sys.
Definition replace (src dst : path) : M unit :=
  sys ;; let! f := get_fs in
  match f !! src, f !! dst with
  | None, _ => missing
  | Some (Dir _), _ => oserror "is a directory"
  | _, Some (Dir _) => oserror "is a directory"
  | Some n, _ =>
      if parent_is_dir f dst then put_fs (<[dst := n]> (delete src f))
      else oserror "no such directory"
  end.
Definition unlink (p : path) : M unit :=
  sys ;; let! f := get_fs in
  match f !! p with
  | None => missing
  | Some (Dir _) => oserror "is a directory"
  | Some _ => put_fs (delete p f)
  end.
(** [p.unlink(missing_ok=True)]. *)
Definition unlink_missing_ok (p : path) : M unit :=
  let! f := get_fs in match f !! p with None => sys | Some _ => unlink p end.
(** [p.symlink_to(target)]. *)
Definition symlink_to (p target : path) : M unit :=
  sys ;; let! f := get_fs in
  match f !! p with
  | Some _ => oserror "file exists"
  | None => if parent_is_dir f p then update p (Link target) else oserror "no such directory"
  end.
(** [_fsync_directory]: [os.open] and [os.fsync] on a directory. *)
Definition fsync_directory (p : path) : M unit := let! _ := open_read p in fsync.

(** [p.mkdir(parents=True, exist_ok=True, mode=mode)]. *)
Fixpoint prefixes_of (done rest : list string) : list (list string) :=
  match rest with [] => [] | x :: rest => (done ++ [x]) :: prefixes_of (done ++ [x]) rest end.
Definition mkdir1 (p : path) (mode : Z) : M unit :=
  let! f := get_fs in
  match stat_node f p with
  | Some (Dir _) => ret tt
  | Some _ => oserror "file exists"
  | None => if opt_is (λ _, true) (f !! p) then oserror "file exists" else update p (Dir mode)
  end.
Definition mkdir_parents (p : path) (mode : Z) : M unit :=
  sys ;; miter (λ l, mkdir1 (p.1, l) (if bool_decide (l = p.2) then mode else 493))
               (prefixes_of [] p.2).

(** [with path.open("a+")]: creates a missing file. *)
Definition open_append (p : path) : M unit :=
  sys ;; let! f := get_fs in
  match stat_node f p with
  | Some (File _ _) => ret tt
  | Some _ => oserror "is a directory"
  | None =>
      if opt_is (λ _, true) (f !! p) || negb (parent_is_dir f p) then missing
      else update p (File "" 420)
  end.

(** The block by which [account_state.publish], [health.publish] and
    [importer._atomic_write] write a file: a temporary file in the same directory,
    its mode, its bytes, [fsync], [close], then the rename; on any exception the temporary file is
    removed and the exception raised again. *)
Definition write_replace (prefix : string) (mode : Z) (p : path) (data : string) : M unit :=
  let! t := mkstemp prefix (p_parent p) in
  try_with (chmod t mode ;; write_file t data ;; fsync ;; sys ;; replace t p)
    (except_all (λ e, ignore_oserror sys ;; ignore_oserror (unlink t) ;; throw e)).

(** ** Lemmas *)

Lemma bind_ok {A B} (m : M A) (k : A → M B) E w b w' :
  bind m k E w = (Ok b, w') → ∃ a w1, m E w = (Ok a, w1) ∧ k a E w1 = (Ok b, w').
Proof. unfold bind. destruct (m E w) as [[a|e] w1]; [naive_solver|done]. Qed.

Lemma bind_raise {A B} (m : M A) (k : A → M B) E w e w' :
  bind m k E w = (Raise e, w') →
  m E w = (Raise e, w') ∨ ∃ a w1, m E w = (Ok a, w1) ∧ k a E w1 = (Raise e, w').
Proof. unfold bind. destruct (m E w) as [[a|e1] w1]; naive_solver. Qed.

Lemma bind_eq_ok {A B} (m : M A) (k : A → M B) E w a w1 :
  m E w = (Ok a, w1) → bind m k E w = k a E w1.
Proof. unfold bind. by intros ->. Qed.
Lemma bind_eq_raise {A B} (m : M A) (k : A → M B) E w e w1 :
  m E w = (Raise e, w1) → bind m k E w = (Raise e, w1).
Proof. unfold bind. by intros ->. Qed.

(** A computation that never touches the files. *)
Definition fs_pure {A} (m : M A) : Prop := ∀ E w, w_fs (m E w).2 = w_fs w.

Lemma fs_pure_ret {A} (a : A) : fs_pure (ret a).
Proof. done. Qed.
Lemma fs_pure_throw {A} e : fs_pure (@throw A e).
Proof. done. Qed.
Lemma fs_pure_lift {A} (r : res A) : fs_pure (lift r).
Proof. done. Qed.
Lemma fs_pure_sys : fs_pure sys.
Proof. done. Qed.
Lemma fs_pure_get_fs : fs_pure get_fs.
Proof. done. Qed.
Lemma fs_pure_now : fs_pure now_us.
Proof. done. Qed.
Lemma fs_pure_bind {A B} (m : M A) (k : A → M B) :
  fs_pure m → (∀ a, fs_pure (k a)) → fs_pure (bind m k).
Proof.
  intros Hm Hk E w. unfold bind. specialize (Hm E w).
  destruct (m E w) as [[a|e] w1]; simpl in *; [|done]. by rewrite Hk.
Qed.
Lemma fs_pure_try {A} (m : M A) h :
  fs_pure m → (∀ e k, h e = Some k → fs_pure k) → fs_pure (try_with m h).
Proof.
  intros Hm Hh E w. unfold try_with. specialize (Hm E w).
  destruct (m E w) as [[a|e] w1]; simpl in *; [done|].
  destruct (h e) as [k|] eqn:Hk; [|done]. by rewrite (Hh e k).
Qed.
Lemma fs_pure_except {A} cs (k : exn → M A) e k' :
  (∀ e, fs_pure (k e)) → except cs k e = Some k' → fs_pure k'.
Proof. intros Hk. unfold except. destruct (existsb _ _); naive_solver. Qed.
Lemma fs_pure_finally {A} (m : M A) f : fs_pure m → fs_pure f → fs_pure (finally m f).
Proof.
  intros Hm Hf E w. unfold finally. specialize (Hm E w).
  destruct (m E w) as [r w1]. specialize (Hf E w1).
  destruct (f E w1) as [[]] ; simpl in *; congruence.
Qed.
Lemma fs_pure_mmap {A B} (f : A → M B) l : (∀ a, fs_pure (f a)) → fs_pure (mmap f l).
Proof.
  intros Hf. induction l; simpl; [done|].
  apply fs_pure_bind; [done|]. intros. apply fs_pure_bind; [done|]. intros. done.
Qed.
Lemma fs_pure_mfold {A S} (f : S → A → M S) s l : (∀ s a, fs_pure (f s a)) → fs_pure (mfold f s l).
Proof. intros Hf. revert s. induction l; intros s; simpl; [done|]. by apply fs_pure_bind. Qed.

#[export] Hint Resolve fs_pure_ret fs_pure_throw fs_pure_lift fs_pure_sys fs_pure_get_fs
  fs_pure_now fs_pure_bind fs_pure_try fs_pure_finally fs_pure_mmap fs_pure_mfold : cloudx.
#[export] Hint Extern 1 (fs_pure _) => eapply fs_pure_except; [|eassumption] : cloudx.

(** Prove [fs_pure] by the structure of the program. *)
Ltac fs_pure_tac :=
  repeat match goal with
  | |- fs_pure (bind _ _) => apply fs_pure_bind; [|intros ?]
  | |- fs_pure (try_with _ _) =>
      apply fs_pure_try; [|intros ? ?; first [ apply fs_pure_except; intros ? | unfold except_all; intros [= <-]
                                            | let H := fresh in intros H; repeat break_hyp H; inv_res ]]
  | |- fs_pure (finally _ _) => apply fs_pure_finally
  | |- fs_pure (match ?x with _ => _ end) => destruct x
  | |- fs_pure _ => first [ done | solve [eauto with cloudx nocore] ]
  end.

Lemma fs_pure_lstat p : fs_pure (lstat p).
Proof. unfold lstat. fs_pure_tac. Qed.
Lemma fs_pure_stat p : fs_pure (stat p).
Proof. unfold stat. fs_pure_tac. Qed.
Lemma fs_pure_exists p : fs_pure (exists_p p).
Proof. unfold exists_p. fs_pure_tac. Qed.
Lemma fs_pure_is_file p : fs_pure (is_file_p p).
Proof. unfold is_file_p. fs_pure_tac. Qed.
Lemma fs_pure_is_dir p : fs_pure (is_dir_p p).
Proof. unfold is_dir_p. fs_pure_tac. Qed.
Lemma fs_pure_is_symlink p : fs_pure (is_symlink_p p).
Proof. unfold is_symlink_p. fs_pure_tac. Qed.
Lemma fs_pure_st_dev p : fs_pure (st_dev p).
Proof. unfold st_dev. fs_pure_tac. Qed.
Lemma fs_pure_st_mtime p : fs_pure (st_mtime p).
Proof. unfold st_mtime. fs_pure_tac. Qed.
Lemma fs_pure_try_lock p : fs_pure (try_lock p).
Proof.
  apply fs_pure_bind; [done|]. intros _ E w. by destruct (locked E (w_tick w) p).
Qed.
Lemma fs_pure_open_nofollow p : fs_pure (open_nofollow p).
Proof. unfold open_nofollow. fs_pure_tac. Qed.
Lemma fs_pure_open_read p : fs_pure (open_read p).
Proof. unfold open_read. fs_pure_tac. Qed.
Lemma fs_pure_fstat n : fs_pure (fstat n).
Proof. unfold fstat. fs_pure_tac. Qed.
Lemma fs_pure_read_node n : fs_pure (read_node n).
Proof. unfold read_node. fs_pure_tac. Qed.
#[export] Hint Resolve fs_pure_lstat fs_pure_stat fs_pure_exists fs_pure_is_file fs_pure_is_dir
  fs_pure_is_symlink fs_pure_st_dev fs_pure_st_mtime fs_pure_try_lock fs_pure_open_nofollow fs_pure_open_read fs_pure_fstat
  fs_pure_read_node : cloudx.
Lemma fs_pure_read_bytes p : fs_pure (read_bytes p).
Proof. unfold read_bytes. fs_pure_tac. Qed.
#[export] Hint Resolve fs_pure_read_bytes : cloudx.
Lemma fs_pure_read_text p : fs_pure (read_text p).
Proof. unfold read_text. fs_pure_tac. Qed.
Lemma fs_pure_fsync : fs_pure fsync.
Proof. done. Qed.
Lemma fs_pure_fsync_directory p : fs_pure (fsync_directory p).
Proof. unfold fsync_directory. fs_pure_tac. Qed.
#[export] Hint Resolve fs_pure_read_text fs_pure_fsync fs_pure_fsync_directory : cloudx.

(** *** Outcomes

    [outcome m E w a f]: [m] either returns [a] and leaves the files [f], or raises
    [OSError] and leaves them as they were. *)
Definition os_exn (e : exn) : Prop := catches OSError (exn_cls e) = true.
Definition outcome {A} (m : M A) (E : env) (w : world) (a : A) (f : fs) : Prop :=
  (∃ k, m E w = (Ok a, World f k)) ∨
  (∃ e k, os_exn e ∧ m E w = (Raise e, World (w_fs w) k)).

Lemma sys_outcome E w : outcome sys E w tt (w_fs w).
Proof. unfold outcome, sys. destruct (fault E (w_tick w)); [right|left]; by repeat eexists. Qed.

Lemma outcome_sys_then {A} (k : M A) E w a f :
  (∀ w', w_fs w' = w_fs w → outcome k E w' a f) →
  outcome (sys ;; k) E w a f.
Proof.
  intros Hk. destruct (sys_outcome E w) as [[n Hs]|(e & n & He & Hs)]; unfold outcome, bind; rewrite Hs.
  - destruct (Hk (World (w_fs w) n) eq_refl) as [[? H]|(? & ? & ? & H)]; rewrite H; eauto.
  - eauto.
Qed.

Lemma chmod_outcome E w t d m0 mode :
  w_fs w !! t = Some (File d m0) →
  outcome (chmod t mode) E w tt (<[t := File d mode]> (w_fs w)).
Proof.
  intros Ht. apply outcome_sys_then. intros w' Hw. left. exists (w_tick w').
  unfold bind, get_fs. simpl. rewrite Hw, Ht. unfold update, put_fs. by rewrite Hw.
Qed.

Lemma write_file_outcome E w t d0 m data :
  w_fs w !! t = Some (File d0 m) →
  outcome (write_file t data) E w tt (<[t := File data m]> (w_fs w)).
Proof.
  intros Ht. apply outcome_sys_then. intros w' Hw. left. exists (w_tick w').
  unfold bind, get_fs. simpl. rewrite Hw, Ht. unfold update, put_fs. by rewrite Hw.
Qed.

Lemma replace_outcome E w src dst d m :
  w_fs w !! src = Some (File d m) →
  outcome (replace src dst) E w tt (<[dst := File d m]> (delete src (w_fs w))).
Proof.
  intros Hs. apply outcome_sys_then. intros w' Hw.
  unfold outcome, bind, get_fs, oserror, mraise, throw, put_fs. simpl. rewrite Hw, Hs.
  destruct (w_fs w !! dst) as [[]|]; try destruct (parent_is_dir (w_fs w) dst);
    try (left; by exists (w_tick w')); right; eexists _, (w_tick w');
    (split; [|destruct w'; simpl in *; subst; done]; done).
Qed.

Lemma unlink_outcome E w t d m :
  w_fs w !! t = Some (File d m) → outcome (unlink t) E w tt (delete t (w_fs w)).
Proof.
  intros Ht. apply outcome_sys_then. intros w' Hw. left. exists (w_tick w').
  unfold bind, get_fs. simpl. rewrite Hw, Ht. by unfold put_fs.
Qed.

(** A temporary file of a directory, by its prefix. *)
Definition is_temp (prefix : string) (dir t : path) : Prop :=
  ∃ x, t = (dir.1, dir.2 ++ [prefix +:+ x]).

(** [mkstemp] creates a file that was not there, or changes nothing. *)
Lemma mkstemp_spec prefix dir E w :
  (∃ t k, mkstemp prefix dir E w = (Ok t, World (<[t := File "" 384]> (w_fs w)) k) ∧
     is_temp prefix dir t ∧ w_fs w !! t = None) ∨
  (∃ e k, os_exn e ∧ mkstemp prefix dir E w = (Raise e, World (w_fs w) k)).
Proof.
  unfold mkstemp. generalize TMP_MAX. intros n. revert w. induction n as [|n IH]; intros w.
  - right. destruct w. by repeat eexists.
  - cbn [mkstemp_go]. cbv beta zeta. set (t := (dir.1, _)).
    unfold bind, sys, get_fs. simpl.
    destruct (fault E (w_tick w)); [right; by repeat eexists|].
    destruct (w_fs w !! t) eqn:Ht.
    + by apply (IH (World (w_fs w) (S (w_tick w)))).
    + destruct (parent_is_dir (w_fs w) t); [|right; by repeat eexists].
      left. eexists t, _. split; [done|]. split; [|done].
      exists (rand E (w_tick w)). unfold t. by rewrite str_app_nil_r.
Qed.

(** The whole block: the new file is in place, or nothing but a temporary file (one
    whose removal failed too) is new. *)
Definition write_outcome (prefix : string) (dir : path) (m : M unit) (E : env) (w : world) (f : fs) : Prop :=
  (∃ k, m E w = (Ok tt, World f k)) ∨
  (∃ e k f', os_exn e ∧ m E w = (Raise e, World f' k) ∧
     (f' = w_fs w ∨ ∃ t d mo, is_temp prefix dir t ∧ w_fs w !! t = None ∧
        f' = <[t := File d mo]> (w_fs w))).

Lemma cleanup_spec {A} t d m e f0 E w :
  f0 !! t = None → w_fs w = <[t := File d m]> f0 →
  ∃ k f', (ignore_oserror sys ;; ignore_oserror (unlink t) ;; @throw A e) E w = (Raise e, World f' k) ∧
    (f' = f0 ∨ f' = <[t := File d m]> f0).
Proof.
  intros Ht Hw. unfold ignore_oserror.
  assert (Hs : ∃ k, try_with sys (except [OSError] (λ _, ret tt)) E w = (Ok tt, World (w_fs w) k)).
  { unfold try_with. destruct (sys_outcome E w) as [[k ->]|(e1 & k & He & ->)]; [by eexists|].
    simpl. unfold except. simpl. rewrite He. by eexists. }
  destruct Hs as [k Hs]. unfold bind at 1. rewrite Hs.
  unfold bind, try_with.
  assert (Hu : w_fs (World (w_fs w) k) !! t = Some (File d m)).
  { simpl. by rewrite Hw, lookup_insert_eq. }
  destruct (unlink_outcome E _ t d m Hu) as [[k' ->]|(e1 & k' & He & ->)].
  - simpl. rewrite Hw. eexists _, _. split; [done|]. left. by rewrite delete_insert_id.
  - unfold except. simpl. rewrite He, Hw. eexists _, _. split; [done|]. by right.
Qed.

(** The calls between the creation of the temporary file [t] and its rename: they end
    in [f], or fail while [t] is still the only new file. *)
Definition tmp_stage (t : path) (f0 f : fs) (m : M unit) (E : env) (w : world) : Prop :=
  (∃ k, m E w = (Ok tt, World f k)) ∨
  (∃ e k d mo, os_exn e ∧ m E w = (Raise e, World (<[t := File d mo]> f0) k)).

Lemma tmp_stage_bind t f0 f (m1 : M unit) m2 E w d mo d' mo' :
  w_fs w = <[t := File d mo]> f0 →
  outcome m1 E w tt (<[t := File d' mo']> f0) →
  (∀ w', w_fs w' = <[t := File d' mo']> f0 → tmp_stage t f0 f m2 E w') →
  tmp_stage t f0 f (m1 ;; m2) E w.
Proof.
  intros Hw [[k Hm]|(e & k & He & Hm)] Hk; unfold tmp_stage, bind; rewrite Hm.
  - by apply Hk.
  - right. rewrite Hw. eauto 6.
Qed.

Lemma tmp_stage_last t f0 f (m : M unit) E w d mo :
  w_fs w = <[t := File d mo]> f0 → outcome m E w tt f → tmp_stage t f0 f m E w.
Proof.
  intros Hw [[k Hm]|(e & k & He & Hm)]; [left; eauto|right]. rewrite Hw in Hm. eauto 6.
Qed.

Lemma write_replace_outcome prefix mode p data E w :
  write_outcome prefix (p_parent p) (write_replace prefix mode p data) E w
    (<[p := File data mode]> (w_fs w)).
Proof.
  unfold write_replace, write_outcome.
  destruct (mkstemp_spec prefix (p_parent p) E w) as [(t & k & Hm & Htmp & Ht)|(e & k & He & Hm)];
    [|rewrite (bind_eq_raise _ _ _ _ _ _ Hm); right; eexists _, _, _; split; [done|]; split; [done|by left]].
  rewrite (bind_eq_ok _ _ _ _ _ _ Hm).
  set (f0 := w_fs w) in *.
  assert (Hbody : tmp_stage t f0 (<[p := File data mode]> f0)
    (chmod t mode ;; write_file t data ;; fsync ;; sys ;; replace t p) E
    (World (<[t := File "" 384]> f0) k)).
  { assert (Hi : ∀ (a b : node) (f : fs), <[t := b]> (<[t := a]> f) = <[t := b]> f)
      by (intros; apply insert_insert_eq).
    eapply tmp_stage_bind; [done| |intros w1 Hw1].
    { set (w0 := World _ k).
      pose proof (chmod_outcome E w0 t "" 384 mode (lookup_insert_eq _ _ _)) as Ho.
      simpl in Ho. rewrite Hi in Ho. exact Ho. }
    eapply tmp_stage_bind; [done| |intros w2 Hw2].
    { assert (Hl : w_fs w1 !! t = Some (File "" mode)) by (rewrite Hw1; apply lookup_insert_eq).
      pose proof (write_file_outcome E w1 t "" mode data Hl) as Ho.
      rewrite Hw1, Hi in Ho. exact Ho. }
    eapply tmp_stage_bind; [done| |intros w3 Hw3]. { rewrite <- Hw2. apply sys_outcome. }
    eapply tmp_stage_bind; [done| |intros w4 Hw4]. { rewrite <- Hw3. apply sys_outcome. }
    eapply tmp_stage_last; [done|].
    rewrite <- (delete_insert_id f0 t (File data mode)) by done. rewrite <- Hw4.
    apply replace_outcome. rewrite Hw4. apply lookup_insert_eq. }
  unfold try_with. destruct Hbody as [[k' ->]|(e & k' & d & mo & He & ->)]; [left; eauto|].
  right. unfold except_all.
  destruct (cleanup_spec (A:=unit) t d mo e f0 E (World (<[t := File d mo]> f0) k'))
    as (k'' & f' & -> & Hf); [done..|].
  eexists _, _, f'. split; [done|]. split; [done|]. destruct Hf; [by left|right; naive_solver].
Qed.
