(* ===== verification/PublicMetadata.v ===== *)
(** * Public metadata ([cloud/cloudx_cloud/public_metadata.py])

    Every document, text and error message the helper prints passes through this
    module: documents and texts naming prohibited metadata are refused, error
    messages are cleaned, bounded and replaced when they would reveal a path. *)

From S2P Require Import Prelude PyStr PyValue PyRe PyJson.

Definition PHI_CONSUMER_CREDENTIAL_SCHEMA : string := "cloudx.phi-cloud-consumer-credential.v1".
Definition PHI_CONSUMER_CREDENTIAL_SCHEMA_ID : string :=
  "cloudx.phi-cloud-consumer-credential.v1.schema.json".
Definition CLOUDX_RELEASE_MANIFEST_SCHEMA : string := "cloudx.release-manifest.v1".
Definition CLOUDX_RELEASE_MANIFEST_SCHEMA_ID : string := "cloudx.release-manifest.v1.schema.json".

Definition FORBIDDEN_KEYS : list string :=
  ["approval"; "approvalid"; "approvaldevice"; "approvals"; "artifact"; "artifactid";
   "artifactmetadata"; "artifacts"; "content"; "contextrequest"; "contextrequests"; "cwd";
   "device"; "deviceid"; "devices"; "executionlease"; "executionleaseid"; "files"; "lease";
   "leaseid"; "leases"; "localaction"; "localactions"; "localpath"; "metadata";
   "origindevice"; "origindeviceid"; "path"; "paths"; "payload"; "session"; "sessionid";
   "sessions"; "sourcepath"; "targetdevice"; "targetdeviceid"; "targetpath"; "task";
   "taskid"; "tasks"; "transfer"; "transfercontent"; "transferid"; "transfers";
   "workspace"; "workspacepath"; "writerlease"; "writerleaseid"; "workingdirectory"].

(** An optional group of suffixes after a stem, case ignored. *)
Definition stem (s : string) (suffixes : list string) : re :=
  match suffixes with
  | [] => RLitI s
  | _ => RSeq (RLitI s) (ROpt (RAlts (map RLitI suffixes)))
  end.

Definition FORBIDDEN_ASSIGNMENT : re :=
  RSeqs [RWordB;
    RAlts [stem "approval" ["Id"; "Device"]; stem "artifact" ["Id"; "Metadata"];
      stem "contextRequest" []; stem "device" ["Id"]; stem "executionLease" ["Id"];
      stem "lease" ["Id"]; stem "localAction" []; stem "localPath" [];
      stem "originDevice" ["Id"]; stem "session" ["Id"]; stem "sourcePath" [];
      stem "targetDevice" ["Id"]; stem "targetPath" []; stem "task" ["Id"];
      stem "transfer" ["Id"; "Content"]; stem "workspacePath" [];
      stem "writerLease" ["Id"]];
    RWordB; RStar (RChar is_space); RChar (one_of ":=")].

Definition quote_or_eq (c : ascii) : bool :=
  is_space c || one_of QUOTE c || one_of "'=" c.
Definition path_char (c : ascii) : bool := negb (is_space c || one_of QUOTE c || one_of "'" c).
Definition boundary : re := RAlt RBol (RChar quote_or_eq).

Definition LOCAL_USER_PATH : re :=
  RSeqs [boundary; ROpt (RLitI "file://"); RAlt (RLitI "/Users/") (RLitI "/home/");
         RStar (RChar path_char)].
Definition ABSOLUTE_PATH : re :=
  RSeqs [boundary; RLit "/";
         RPlus (RSeq (RPlus (RChar (λ c, path_char c && negb (Ascii.eqb c "/")))) (RLit "/"));
         RStar (RChar path_char)].
(** [\x00-\x08\x0b\x0c\x0e-\x1f\x7f]. *)
Definition CONTROL (c : ascii) : bool :=
  in_range 0 8 c || in_range 11 12 c || in_range 14 31 c || Nat.eqb (ord c) 127.

Definition normalized (value : string) : string :=
  str_filter (λ c, is_lower c || is_digit c) (casefold value).

Definition credential_policy (document : dict) : bool :=
  if eq_str (dget "schema" document) PHI_CONSUMER_CREDENTIAL_SCHEMA then true
  else ends_with PHI_CONSUMER_CREDENTIAL_SCHEMA_ID (str_or_empty (dget "$id" document)).

Definition release_manifest (document : dict) : bool :=
  if eq_str (dget "schema" document) CLOUDX_RELEASE_MANIFEST_SCHEMA then true
  else ends_with CLOUDX_RELEASE_MANIFEST_SCHEMA_ID (str_or_empty (dget "$id" document)).

Definition allowed_negative_representation
    (root : dict) (path : list string) (key : string) (value : json) : bool :=
  if negb (credential_policy root) || negb (mem key ["device"; "task"; "session"]) then false
  else if bool_decide (path = ["representation"]) then is_false value
  else if bool_decide (path = ["properties"; "representation"; "properties"]) then
    is_dict value && py_eq value (JDict [("const", JBool false)])
  else false.

Definition allowed_cloudx_release_artifacts
    (root : dict) (path : list string) (key : string) : bool :=
  if (key <>s? "artifacts") || negb (release_manifest root) then false
  else bool_decide (path = []) || bool_decide (path = ["properties"]).

Definition rejected {A} : res A :=
  raise PublicMetadataRejected "public output contains prohibited Phi metadata".

(** The condition under which [_walk] refuses a key. *)
Definition key_refused (root : dict) (path : list string) (key : string) (item : json) : bool :=
  mem key FORBIDDEN_KEYS &&
  negb (allowed_negative_representation root path key item) &&
  negb (allowed_cloudx_release_artifacts root path key).
Definition text_refused (value : string) : bool :=
  re_search FORBIDDEN_ASSIGNMENT value || re_search LOCAL_USER_PATH value.

Fixpoint walk (root : dict) (value : json) (path : list string) : res unit :=
  match value with
  | JDict d =>
      (fix items (d : list (string * json)) : res unit :=
        match d with
        | [] => Ok tt
        | (raw_key, item) :: d =>
            let key := normalized raw_key in
            if key_refused root path key item then rejected
            else let* _ := walk root item (path ++ [key]) in items d
        end) d
  | JList l =>
      (fix items (l : list json) : res unit :=
        match l with
        | [] => Ok tt
        | item :: l => let* _ := walk root item path in items l
        end) l
  | JStr s => if text_refused s then rejected else Ok tt
  | _ => Ok tt
  end.

Definition validate_public_document (document : json) : res json :=
  match document with
  | JDict d => let* _ := walk d document [] in Ok document
  | _ => raise PublicMetadataRejected "public output must be an object"
  end.

Definition validate_public_text (value : string) : res string :=
  if text_refused value then rejected else Ok value.

(** [error] is the text of the exception ([str(error or "")]). *)
Definition sanitize_public_error (error : string) : string :=
  let message := strip (str_filter (λ c, negb (CONTROL c)) error) in
  let message := str_join " " (str_words message) in
  if text_refused message || re_search ABSOLUTE_PATH message then
    "request failed without exposing prohibited Phi metadata"
  else
    let message := if Nat.ltb 300 (ulen message)
                   then rstrip (utake 297 message) +:+ "..." else message in
    if message <>s? "" then message else "request failed without a reported reason".

(** What is written to standard output or standard error. *)
Definition emit_json (ensure_ascii sort_keys : bool) (document : json) : res string :=
  let* d := validate_public_document document in
  Ok (dumps (st_compact sort_keys ensure_ascii) d +:+ LF).
Definition emit_text (value : string) : res string := validate_public_text value.
Definition emit_error (label error : string) : string :=
  label +:+ ": " +:+ sanitize_public_error error +:+ LF.

(** ** What acceptance means *)

(** [Node v path w]: walking [v] reaches the value [w] below the normalised keys
    [path]; an item of a list has the path of the list. *)
Inductive Node (v : json) : list string → json → Prop :=
| NodeRoot : Node v [] v
| NodeKey path d k w : Node v path (JDict d) → In (k, w) d → Node v (path ++ [normalized k]) w
| NodeItem path l w : Node v path (JList l) → In w l → Node v path w.

(** No prohibited key and no prohibited text at any node. *)
Definition Clean (root : dict) (base : list string) (v : json) : Prop :=
  (∀ path d k w, Node v path (JDict d) → In (k, w) d →
     key_refused root (base ++ path) (normalized k) w = false) ∧
  (∀ path s, Node v path (JStr s) → text_refused s = false).

Lemma Node_key_front v k d w path u :
  v = JDict d → In (k, w) d → Node w path u → Node v (normalized k :: path) u.
Proof.
  intros -> Hin. induction 1 as [|path d' k' w' _ IH Hin'|path l w' _ IH Hin'].
  - change [normalized k] with ([] ++ [normalized k]). econstructor; [constructor|done].
  - rewrite app_comm_cons. by econstructor.
  - by econstructor.
Qed.
Lemma Node_item_front v l w path u :
  v = JList l → In w l → Node w path u → Node v path u.
Proof.
  intros -> Hin. induction 1 as [|path d' k' w' _ IH Hin'|path l' w' _ IH Hin'].
  - econstructor; [constructor|done].
  - by econstructor.
  - by econstructor.
Qed.

(** The first step of a path. *)
Lemma Node_inv v path u :
  Node v path u →
  (path = [] ∧ u = v) ∨
  (∃ d k w path', v = JDict d ∧ In (k, w) d ∧ path = normalized k :: path' ∧ Node w path' u) ∨
  (∃ l w, v = JList l ∧ In w l ∧ Node w path u).
Proof.
  induction 1 as [|path d k w Hn IH Hin|path l w Hn IH Hin]; [by left| |].
  - destruct IH as [[-> <-]|[(d' & k' & w' & p & -> & Hin' & -> & Hn')|(l & w' & -> & Hin' & Hn')]].
    + right. left. exists d, k, w, []. repeat split; [done|constructor].
    + right. left. exists d', k', w', (p ++ [normalized k]).
      repeat split; [done|]. by econstructor.
    + right. right. exists l, w'. repeat split; [done|]. by econstructor.
  - destruct IH as [[-> <-]|[(d' & k' & w' & p & -> & Hin' & -> & Hn')|(l' & w' & -> & Hin' & Hn')]].
    + right. right. exists l, w. repeat split; [done|constructor].
    + right. left. exists d', k', w', p. repeat split; [done|]. by econstructor.
    + right. right. exists l', w'. repeat split; [done|]. by econstructor.
Qed.

Lemma Clean_dict root base d :
  Clean root base (JDict d) ↔
  Forall (λ kv, key_refused root base (normalized kv.1) kv.2 = false ∧
                Clean root (base ++ [normalized kv.1]) kv.2) d.
Proof.
  rewrite List.Forall_forall. split.
  - intros [Hk Ht] [k w] Hin. simpl. split; [|split].
    + specialize (Hk [] d k w). rewrite app_nil_r in Hk. apply Hk; [constructor|done].
    + intros path d' k' w' Hn Hin'. rewrite <- app_assoc. simpl.
      eapply Hk; [|done]. by eapply Node_key_front.
    + intros path s Hn. eapply Ht. by eapply Node_key_front.
  - intros H. split.
    + intros path d' k' w' Hn Hin'.
      apply Node_inv in Hn as [[-> [= <-]]|[(d1 & k & w & p & [= <-] & Hin & -> & Hn)|
        (l & w & [=] & _)]].
      * rewrite app_nil_r. by apply (H (k', w')).
      * destruct (H (k, w) Hin) as [_ [Hk _]]. simpl in Hk.
        specialize (Hk p d' k' w' Hn Hin'). by rewrite <- app_assoc in Hk.
    + intros path s Hn.
      apply Node_inv in Hn as [[_ [=]]|[(d1 & k & w & p & [= <-] & Hin & -> & Hn)|
        (l & w & [=] & _)]].
      destruct (H (k, w) Hin) as [_ [_ Ht]]. by eapply Ht.
Qed.

Lemma Clean_list root base l :
  Clean root base (JList l) ↔ Forall (Clean root base) l.
Proof.
  rewrite List.Forall_forall. split.
  - intros [Hk Ht] w Hin. split.
    + intros path d k w' Hn. eapply Hk. by eapply Node_item_front.
    + intros path s Hn. eapply Ht. by eapply Node_item_front.
  - intros H. split.
    + intros path d' k' w' Hn Hin'.
      apply Node_inv in Hn as [[_ [=]]|[(d1 & k & w & p & [=] & _)|(l' & w & [= <-] & Hin & Hn)]].
      by eapply (H w Hin).
    + intros path s Hn.
      apply Node_inv in Hn as [[_ [=]]|[(d1 & k & w & p & [=] & _)|(l' & w & [= <-] & Hin & Hn)]].
      by eapply (H w Hin).
Qed.

Lemma Clean_leaf root base v :
  is_dict v = false → is_list v = false →
  Clean root base v ↔ match v with JStr s => text_refused s = false | _ => True end.
Proof.
  intros Hd Hl. split.
  - intros [_ Ht]. destruct v; try done. eapply Ht. constructor.
  - intros H. split.
    + intros path d k w Hn.
      apply Node_inv in Hn as [[_ <-]|[(?&?&?&?& -> &_)|(?&?& -> &_)]]; done.
    + intros path s Hn.
      apply Node_inv in Hn as [[_ <-]|[(?&?&?&?& -> &_)|(?&?& -> &_)]]; done.
Qed.

(** [_walk] returns exactly on the clean values. *)
Lemma walk_clean root v path : walk root v path = Ok tt ↔ Clean root path v.
Proof.
  revert path. induction v as [|bv|z|f|s|l IH|d IH] using json_rect'; intros path;
    try (by rewrite Clean_leaf).
  - rewrite Clean_leaf by done. simpl. by destruct (text_refused s).
  - rewrite Clean_list. simpl. induction IH as [|w l Hw _ IHl]; [done|].
    rewrite Forall_cons, <- Hw, <- IHl. destruct (walk root w path) as [[]|]; naive_solver.
  - rewrite Clean_dict. simpl. induction IH as [|[k w] d Hw _ IHd]; [done|].
    rewrite Forall_cons, <- IHd. simpl in *. rewrite <- Hw.
    destruct (key_refused root path (normalized k) w); [naive_solver|].
    destruct (walk root w _) as [[]|]; naive_solver.
Qed.

Lemma walk_raises root v path e :
  walk root v path = Raise e → exn_cls e = PublicMetadataRejected.
Proof.
  revert path. induction v as [|bv|z|f|s|l IH|d IH] using json_rect'; intros path; simpl; try done.
  - destruct (text_refused s); [|done]. by intros [= <-].
  - induction IH as [|w l Hw _ IHl]; [done|].
    destruct (walk root w path) as [[]|] eqn:E; [done|]. intros [= <-]. by eapply Hw.
  - induction IH as [|[k w] d Hw _ IHd]; [done|].
    destruct (key_refused _ _ _ _); [by intros [= <-]|].
    destruct (walk root w _) as [[]|] eqn:E; [done|]. intros [= <-]. by eapply Hw.
Qed.

Lemma validate_ok v v' :
  validate_public_document v = Ok v' ↔ v' = v ∧ ∃ d, v = JDict d ∧ Clean d [] v.
Proof.
  unfold validate_public_document. destruct v as [| | | | | |d]; try naive_solver.
  pose proof (walk_clean d (JDict d) []) as Hw.
  destruct (walk d (JDict d) []) as [[]|]; naive_solver.
Qed.

(** *** The theorems *)

(** A document is published exactly when it is an object none of whose keys, at
    any depth, is prohibited where it stands, and none of whose texts assigns
    prohibited metadata or names a local user path; it is returned unchanged, and
    every refusal is a [PublicMetadataRejected]. *)
Theorem validate_public_document_spec v :
  (validate_public_document v = Ok v ↔ ∃ d, v = JDict d ∧ Clean d [] v) ∧
  (∀ v', validate_public_document v = Ok v' → v' = v) ∧
  (∀ e, validate_public_document v = Raise e → exn_cls e = PublicMetadataRejected).
Proof.
  split; [|split].
  - rewrite validate_ok. naive_solver.
  - intros v'. rewrite validate_ok. naive_solver.
  - intros e. unfold validate_public_document.
    destruct v as [| | | | | |d]; try (by intros [= <-]).
    destruct (walk d (JDict d) []) eqn:E; [done|]. intros [= <-]. by eapply walk_raises.
Qed.

(** The characters of a cleaned message. *)
Definition printable (c : ascii) : bool := negb (CONTROL c) && negb (one_of (LF +:+ CR) c || Nat.eqb (ord c) 9).

Lemma printable_split c : negb (CONTROL c) = true → negb (is_space c) = true → printable c = true.
Proof. by destruct c as [[][][][][][][][]]. Qed.

Lemma str_forall_and f g s :
  str_forall f s = true → str_forall g s = true → str_forall (λ c, f c && g c) s = true.
Proof. induction s; simpl; [done|]. rewrite !andb_true_iff. naive_solver. Qed.

Lemma words_printable s :
  str_forall (λ c, negb (CONTROL c)) s = true →
  Forall (λ w, str_forall printable w = true) (str_words s).
Proof.
  intros H. unfold str_words.
  pose proof (words_go_forall _ "" s eq_refl H) as H1.
  pose proof (words_go_nospace "" s eq_refl) as H2.
  eapply Forall_impl; [apply Forall_and; split; [apply H1|apply H2]|].
  intros w [Ha Hb]. eapply str_forall_mono; [|by apply (str_forall_and _ _ w Ha Hb)].
  intros c [??]%andb_true_iff. by apply printable_split.
Qed.

(** The error text printed is one line of at most 300 characters without control
    characters, and it is never empty. *)
Theorem sanitize_public_error_bounded error :
  str_forall printable (sanitize_public_error error) = true ∧
  (ulen (sanitize_public_error error) <= 300)%nat ∧
  sanitize_public_error error <> "".
Proof.
  unfold sanitize_public_error.
  set (m := str_join " " (str_words _)).
  assert (Hm : str_forall printable m = true).
  { apply str_join_forall; [done|]. apply words_printable, strip_by_forall, str_filter_forall. }
  destruct (text_refused m || re_search ABSOLUTE_PATH m); [by split_and!; [| apply Nat.leb_le |]|].
  destruct (Nat.ltb_spec 300 (ulen m)) as [Hl|Hl].
  - assert (Hne : (rstrip (utake 297 m) +:+ "..." <>s? "") = true).
    { by destruct (rstrip (utake 297 m)). }
    rewrite Hne. split; [|split].
    + rewrite str_forall_app. rewrite (rstrip_by_forall is_space printable); [done|].
      by apply utake_forall.
    + rewrite ulen_app. change (ulen "...") with 3%nat.
      pose proof (ulen_rstrip_by is_space (utake 297 m)). pose proof (ulen_utake 297 m).
      unfold rstrip. lia.
    + by destruct (rstrip (utake 297 m)).
  - destruct (eqs_spec m "") as [->|Hne]; [by split_and!; [| apply Nat.leb_le |]|].
    simpl. by split_and!; [|lia|].
Qed.
