(* ===== verification/AccountState.v ===== *)
(** * The account-state adapter ([cloud/cloudx_cloud/account_state.py])

    Reads the summary the quota monitor keeps, checks it and publishes the
    [cloudx.account-state.v1] document the health observation reads. *)

From S2P Require Import Prelude PyStr PyFloat PyValue PyTime PyJson FS PublicMetadata.

Definition MAX_STATE_BYTES : Z := 1024 * 1024.
Definition COUNT_KEYS : list string := ["total"; "ready"; "warning"; "limited"; "failed"].

Definition count (document : dict) (name : string) : res Z :=
  match nonneg_int (dget name document) with
  | Some value => Ok value
  | None => raise AccountStateRejected "credential health state contains invalid counts"
  end.

Definition timestamp_text (value : json) : res string :=
  match value with
  | JStr s =>
      if strip s =s? "" then
        raise AccountStateRejected "credential health state has no observation timestamp"
      else
        match fromisoformat (z_suffix (strip s)) with
        | None => raise AccountStateRejected "credential health state has an invalid observation timestamp"
        | Some parsed =>
            match dt_off parsed with
            | None =>
                raise AccountStateRejected "credential health state observation timestamp has no timezone"
            | Some _ =>
                match astimezone_utc parsed with
                | Some t => Ok (replace_utc (isoformat t))
                | None => raise OverflowError "date value out of range"
                end
            end
        end
  | _ => raise AccountStateRejected "credential health state has no observation timestamp"
  end.

Definition state_unavailable {A} (e : exn) : M A :=
  mraise AccountStateRejected "credential health state is unavailable".
Definition too_large {A} : M A :=
  mraise AccountStateRejected "credential health state exceeds the size limit".
Definition not_regular {A} : M A :=
  mraise AccountStateRejected "credential health state must be a regular file".

Definition read_state (p : path) (limit : Z) : M string :=
  let! metadata := try_with (lstat p) (except [OSError] state_unavailable) in
  let! link := (if negb (is_reg metadata) then ret true else is_symlink_p p) in
  if link then not_regular
  else if limit <? node_size metadata then too_large
  else
    let! raw := try_with
      (let! descriptor := open_nofollow p in
       let! opened := fstat descriptor in
       if negb (is_reg opened) then not_regular
       else if limit <? node_size opened then too_large
       else let! data := read_node descriptor in ret (str_take_z (limit + 1) data))
      (except [OSError] state_unavailable) in
    if limit <? str_len raw then too_large else ret raw.

Definition state_document (total ready warning limited failed : Z) (observed : string) : json :=
  JDict [("schema", JStr "cloudx.account-state.v1");
         ("source", JStr "credential-health-summary");
         ("observedAt", JStr observed);
         ("accountCounts", JDict
            [("total", JInt total); ("available", JInt (ready + warning));
             ("limited", JInt limited); ("unavailable", JInt 0)]);
         ("unobservedAccounts", JInt failed)].

Definition adapt_legacy_quota_state (raw : string) : res json :=
  match loads_bytes raw with
  | Raise e => raise AccountStateRejected "credential health state is not valid JSON"
  | Ok (JDict source) =>
      let* total := count source "total" in
      let* ready := count source "ready" in
      let* warning := count source "warning" in
      let* limited := count source "limited" in
      let* failed := count source "failed" in
      if negb (total =? ready + warning + limited + failed) then
        raise AccountStateRejected "credential health state counts do not add up"
      else
        let* observed := timestamp_text (dget "checked_at" source) in
        Ok (state_document total ready warning limited failed observed)
  | Ok _ => raise AccountStateRejected "credential health state must be an object"
  end.

(** [publish]: the document is checked before anything is created. *)
Definition published (document : json) : string := dumps (st_pretty 2 true true) document +:+ LF.
Definition publish (p : path) (document : json) : M unit :=
  lift (validate_public_document document) ;;
  mkdir_parents (p_parent p) 493 ;;
  write_replace ".cloudx-account-state-" 420 p (published document).

Definition adapt_file (source destination : path) : M json :=
  let! raw := read_state source MAX_STATE_BYTES in
  let! document := lift (adapt_legacy_quota_state raw) in
  publish destination document ;; ret document.

(** ** Lemmas *)

Lemma count_ok d k z : count d k = Ok z ↔ dget k d = JInt z ∧ 0 <= z.
Proof.
  unfold count. rewrite <- nonneg_int_spec. destruct (nonneg_int _); split; intros; inv_res; done.
Qed.

(** The contract of the document: five fields, whose counts account for every record. *)
Definition count_of (k : string) (v : json) : option Z :=
  match v with
  | JDict d => match dget "accountCounts" d with JDict c => nonneg_int (dget k c) | _ => None end
  | _ => None
  end.
Definition unobserved_of (v : json) : option Z :=
  match v with JDict d => nonneg_int (dget "unobservedAccounts" d) | _ => None end.

Lemma adapt_ok raw v :
  adapt_legacy_quota_state raw = Ok v →
  ∃ src total ready warning limited failed observed,
    loads_bytes raw = Ok (JDict src) ∧
    dget "total" src = JInt total ∧ dget "ready" src = JInt ready ∧
    dget "warning" src = JInt warning ∧ dget "limited" src = JInt limited ∧
    dget "failed" src = JInt failed ∧
    0 <= ready ∧ 0 <= warning ∧ 0 <= limited ∧ 0 <= failed ∧
    total = ready + warning + limited + failed ∧
    timestamp_text (dget "checked_at" src) = Ok observed ∧
    v = state_document total ready warning limited failed observed.
Proof.
  unfold adapt_legacy_quota_state. intros H.
  destruct (loads_bytes raw) as [[| | | | | |src]|] eqn:Hl; try discriminate.
  walk H. bool_prop.
  repeat match goal with H : count _ _ = Ok _ |- _ => apply count_ok in H as [??] end.
  eexists src, _, _, _, _, _, _. by split_and!.
Qed.
