(* ===== verification/Gateway.v ===== *)
(** * The gateway probe ([cloud/cloudx_cloud/gateway.py])

    The HTTP exchange is a parameter: what [urlopen] answers for a URL and its
    headers. *)

From S2P Require Import Prelude PyStr PyFloat PyValue PyJson FS.

Inductive http_outcome :=
| HttpStatus (code : Z)     (* a response *)
| HttpError (code : Z)      (* urllib.error.HTTPError *)
| HttpNetwork               (* URLError, TimeoutError, OSError *)
| HttpRaises (e : exn).     (* anything else urlopen raises *)

Record GatewayProbe := Probe { status : string; http_status : option Z; detail : string }.

#[global] Instance GatewayProbe_eq_dec : EqDecision GatewayProbe.
Proof. solve_decision. Defined.

Definition rstrip_slash (url : string) : string := rstrip_by (Ascii.eqb "/") url.

Definition read_credential (p : path) : M string :=
  let! st := stat p in
  if negb (Z.land (node_mode st) 63 =? 0) then
    mraise RuntimeError "client credential file permissions must be 0600 or stricter"
  else
  let! text := read_text p in
  let value := strip text in
  if value =s? "" then mraise RuntimeError "client credential is empty" else
  let! value := lift
    (if starts_with "{" value then
       let* data := loads value in
       match data with
       | JDict d =>
           match dget "apiKey" d with
           | JStr key => Ok (strip key)
           | _ => raise RuntimeError "client credential JSON is invalid"
           end
       | _ => raise RuntimeError "client credential JSON is invalid"
       end
     else Ok value) in
  if value =s? "" then mraise RuntimeError "client credential is empty" else ret value.

Definition classify_status (code : Z) : GatewayProbe :=
  if (200 <=? code) && (code <? 300) then Probe "healthy" (Some code) "ok"
  else if (code =? 401) || (code =? 403) then Probe "degraded" (Some code) "authentication"
  else if (400 <=? code) && (code <? 500) then Probe "degraded" (Some code) "client_response"
  else Probe "unavailable" (Some code) "server_response".

Section probe.
Context (urlopen : string → list (string * string) → http_outcome).

Definition send (url : string) (headers : list (string * string)) : M GatewayProbe :=
  match urlopen (rstrip_slash url +:+ "/v1/models") headers with
  | HttpStatus code | HttpError code => ret (classify_status code)
  | HttpNetwork => ret (Probe "unavailable" None "network")
  | HttpRaises e => throw e
  end.

Definition probe_gateway (url : string) (credential_file : option path) : M GatewayProbe :=
  let accept := [("Accept", "application/json")] in
  match credential_file with
  | None => send url accept
  | Some p =>
      let! present := is_file_p p in
      if present then
        let! key := try_with (let! k := read_credential p in ret (Some k))
          (except [OSError; ValueError; RuntimeError] (λ _, ret None)) in
        match key with
        | None => ret (Probe "degraded" None "credential_invalid")
        | Some k => send url (accept ++ [("Authorization", "Bearer " +:+ k)])
        end
      else send url accept
  end.
End probe.

(** ** Lemmas *)

(** The statuses and details a probe can carry, and how they go together. *)
Definition probe_wf (p : GatewayProbe) : Prop :=
  match status p, http_status p, detail p with
  | "healthy", Some c, "ok" => 200 <= c < 300
  | "degraded", None, "credential_invalid" => True
  | "degraded", Some c, "authentication" => c = 401 ∨ c = 403
  | "degraded", Some c, "client_response" => 400 <= c < 500 ∧ c ≠ 401 ∧ c ≠ 403
  | "unavailable", None, "network" => True
  | "unavailable", Some c, "server_response" => c < 200 ∨ 300 <= c < 400 ∨ 500 <= c
  | _, _, _ => False
  end%string.

Lemma classify_status_wf code : probe_wf (classify_status code).
Proof.
  unfold classify_status.
  destruct (Z.leb_spec 200 code), (Z.ltb_spec code 300); simpl; try done;
  destruct (Z.eqb_spec code 401), (Z.eqb_spec code 403); simpl; try (cbn; lia);
  destruct (Z.leb_spec 400 code), (Z.ltb_spec code 500); simpl; cbn; lia.
Qed.

Lemma fs_pure_read_credential p : fs_pure (read_credential p).
Proof. unfold read_credential. fs_pure_tac. Qed.
#[export] Hint Resolve fs_pure_read_credential : cloudx.
