(* ===== verification/Health.v ===== *)
(** * The health observation ([cloud/cloudx_cloud/health.py])

    Combines the gateway probe, the published account state and the import lock into
    the [cloudx.health.v1] document.  The fields of [config.Config] it reads are the
    record [Config]. *)

From S2P Require Import Prelude PyStr PyFloat PyValue PyTime PyJson FS PublicMetadata.
From S2P Require Import AccountState Gateway.

(** [version.py]. *)
Definition VERSION : string := "0.1.33".
Definition PROTOCOL_MIN : Z := 1.
Definition PROTOCOL_MAX : Z := 1.

(** [config.py]. *)
Record Config := MkConfig {
  auth_dir : path;
  import_lock_path : path;
  health_path : path;
  account_state_path : path;
  account_state_source_path : path;
  gateway_url : string;
  client_credential_file : path }.

Definition datetime_now : M datetime := let! us := now_us in ret (utc (EPOCH_US + us)).
Definition utc_text (t : datetime) : string := replace_utc (isoformat t).
Definition utc_now : M string := let! t := datetime_now in ret (utc_text t).

(** [max(0, int(a - b))] on floats; [int] raises on NaN ([ValueError]) and on an
    infinity ([OverflowError]). *)
Definition fneg (f : pyfloat) : pyfloat :=
  match f with FFin s m e => FFin (negb s) m e | FInf s => FInf (negb s) | FNan => FNan end.
Definition age_of (current observed : pyfloat) : res Z :=
  match ftrunc (fadd current (fneg observed)) with
  | TInt z => Ok (Z.max 0 z)
  | TNan => raise ValueError "cannot convert float NaN to integer"
  | TInf => raise OverflowError "cannot convert float infinity to integer"
  end.

Definition observed_instant (value : json) : res datetime :=
  match value with
  | JStr s =>
      if strip s =s? "" then raise ValueError "account state observation time is missing"
      else match fromisoformat (z_suffix (strip s)) with
           | None => raise ValueError "Invalid isoformat string"
           | Some observed =>
               match dt_off observed with
               | None => raise ValueError "account state observation time has no timezone"
               | Some _ => Ok observed
               end
           end
  | _ => raise ValueError "account state observation time is missing"
  end.
Definition observed_age (value : json) : M Z :=
  let! observed := lift (observed_instant value) in
  let! now := datetime_now in
  lift (age_of (timestamp now) (timestamp observed)).

Record counts := Counts { c_total : Z; c_available : Z; c_limited : Z; c_unavailable : Z }.
Definition no_counts : counts := Counts 0 0 0 0.
Definition HEALTH_KEYS : list string := ["total"; "available"; "limited"; "unavailable"].
Definition set_count (k : string) (v : Z) (c : counts) : counts :=
  let 'Counts t a l u := c in
  if k =s? "total" then Counts v a l u
  else if k =s? "available" then Counts t v l u
  else if k =s? "limited" then Counts t a v u
  else Counts t a l v.

(** The loop over the keys: it stops at the first invalid count and keeps what it has
    already stored. *)
Fixpoint read_counts (keys : list string) (raw : json) (c : counts) : counts * bool :=
  match keys with
  | [] => (c, true)
  | k :: keys =>
      let value := match raw with JDict d => dget k d | _ => JNull end in
      match nonneg_int value with
      | Some v => read_counts keys raw (set_count k v c)
      | None => (c, false)
      end
  end.

Definition freshness_of (age : Z) : string := if age <=? 900 then "fresh" else "stale".

(** The body of the [try]: the counts stored so far, and the age or the exception. *)
Definition observe_counts (p : path) : M (counts * res Z) :=
  λ E w,
    match (let! text := read_text p in lift (loads text)) E w with
    | (Raise e, w) => (Ok (no_counts, Raise e), w)
    | (Ok (JDict data), w) =>
        let '(c, valid) := read_counts HEALTH_KEYS (dget_or "accountCounts" (JDict data) data) no_counts in
        if negb valid then
          (Ok (c, raise ValueError "account state contains invalid counts"), w)
        else if eq_str (dget "schema" data) "cloudx.account-state.v1" then
          match nonneg_int (dget "unobservedAccounts" data) with
          | None => (Ok (c, raise ValueError "account state contains an invalid unobserved count"), w)
          | Some unobserved =>
              let classified := c_available c + c_limited c + c_unavailable c in
              if negb (c_total c =? classified + unobserved) then
                (Ok (c, raise ValueError "account state counts do not add up"), w)
              else
                let '(age, w) := observed_age (dget "observedAt" data) E w in (Ok (c, age), w)
          end
        else
          let '(age, w) :=
            (let! now := datetime_now in
             let! mt := st_mtime p in
             lift (age_of (timestamp now) mt)) E w in
          (Ok (c, age), w)
    | (Ok _, w) => (Ok (no_counts, raise ValueError "account state must be an object"), w)
    end.

Definition account_counts (config : Config) : M (counts * string * Z) :=
  let! present := is_file_p (account_state_path config) in
  if present then
    let! (c, age) := observe_counts (account_state_path config) in
    match age with
    | Ok age => ret (c, freshness_of age, age)
    | Raise e =>
        if existsb (λ k, catches k (exn_cls e)) [OSError; ValueError; TypeError]
        then ret (c, "unknown"%string, 0)
        else throw e
    end
  else ret (no_counts, "unknown"%string, 0).

Definition import_status (config : Config) : M string :=
  try_with
    (let! _ := open_read (import_lock_path config) in
     finally
       (try_with (try_lock (import_lock_path config) ;; ret "ready"%string)
          (except [BlockingIOError] (λ _, ret "busy"%string)))
       (ignore_oserror sys))
    (λ e, if catches FileNotFoundError (exn_cls e) then Some (ret "ready"%string)
          else if catches OSError (exn_cls e) then Some (ret "unavailable"%string) else None).

Definition counts_json (c : counts) : json :=
  JDict [("total", JInt (c_total c)); ("available", JInt (c_available c));
         ("limited", JInt (c_limited c)); ("unavailable", JInt (c_unavailable c))].

Definition health_document (gw imp checked fresh : string) (c : counts) (age : Z) : json :=
  JDict [("schema", JStr "cloudx.health.v1");
         ("cloudxVersion", JStr VERSION);
         ("protocolVersion", JInt PROTOCOL_MAX);
         ("gatewayStatus", JStr gw);
         ("importStatus", JStr imp);
         ("accountCounts", counts_json c);
         ("checkedAt", JStr checked);
         ("freshness", JDict [("state", JStr fresh); ("ageSeconds", JInt age)])].

Section observe.
Context (urlopen : string → list (string * string) → http_outcome).

Definition observe_health (config : Config) : M (json * GatewayProbe) :=
  let! gateway := probe_gateway urlopen (gateway_url config) (Some (client_credential_file config)) in
  let! (c, freshness, age) := account_counts config in
  let! imp := import_status config in
  let! checked := utc_now in
  ret (health_document (status gateway) imp checked freshness c age, gateway).

Definition build_health (config : Config) : M json :=
  let! (document, _) := observe_health config in ret document.
End observe.

Definition publish_health (p : path) (document : json) : M unit :=
  lift (validate_public_document document) ;;
  mkdir_parents (p_parent p) 493 ;;
  write_replace ".cloudx-health-" 420 p (published document).

(** ** Lemmas *)

Lemma fs_pure_datetime_now : fs_pure datetime_now.
Proof. unfold datetime_now. fs_pure_tac. Qed.
Lemma fs_pure_utc_now : fs_pure utc_now.
Proof. unfold utc_now. apply fs_pure_bind; [apply fs_pure_datetime_now|done]. Qed.
#[export] Hint Resolve fs_pure_datetime_now fs_pure_utc_now : cloudx.
Lemma fs_pure_observed_age v : fs_pure (observed_age v).
Proof. unfold observed_age. fs_pure_tac. Qed.
Lemma fs_pure_send urlopen url h : fs_pure (send urlopen url h).
Proof. unfold send. fs_pure_tac. Qed.
#[export] Hint Resolve fs_pure_observed_age fs_pure_send : cloudx.
Lemma fs_pure_probe urlopen url c : fs_pure (probe_gateway urlopen url c).
Proof. unfold probe_gateway. fs_pure_tac. Qed.
Lemma fs_pure_import_status config : fs_pure (import_status config).
Proof.
  unfold import_status, ignore_oserror. fs_pure_tac.
Qed.
#[export] Hint Resolve fs_pure_probe fs_pure_import_status : cloudx.
