(* ===== verification/Capacity.v ===== *)
(** * The capacity contract ([cloud/cloudx_cloud/capacity.py])

    Classifies a health document and a gateway probe into one of six capacity states
    for a consumer that speaks a range of protocol versions. *)

From S2P Require Import Prelude PyStr PyValue PyTime FS Gateway Health.

Definition HEALTH_SCHEMA : string := "cloudx.health.v1".
Definition CAP_COUNT_KEYS : list string := ["total"; "available"; "limited"; "unavailable"].
Definition PROBE_REASONS : list (string * string) :=
  [("credential_invalid", "gateway_credential_invalid");
   ("network", "gateway_network_failure");
   ("authentication", "gateway_authentication_failed");
   ("client_response", "gateway_client_response");
   ("server_response", "gateway_server_response")].

Fixpoint assoc (k : string) (l : list (string * string)) : option string :=
  match l with [] => None | (k', v) :: l => if k =s? k' then Some v else assoc k l end.

Definition protocol_range (minimum maximum : Z) : res json :=
  if (minimum <? 1) || (maximum <? minimum) then raise ValueError "consumer protocol range is invalid"
  else Ok (JDict [("min", JInt minimum); ("max", JInt maximum)]).

(** [_counts]: the counts, the unobserved remainder and whether they are valid; an
    invalid count leaves those before it in place. *)
Definition cap_counts (health : dict) : counts * Z * bool :=
  match dget "accountCounts" health with
  | JDict raw =>
      let '(c, valid) := read_counts CAP_COUNT_KEYS (JDict raw) no_counts in
      if negb valid then (c, 0, false)
      else
        let classified := c_available c + c_limited c + c_unavailable c in
        if c_total c <? classified then (c, 0, false)
        else (c, c_total c - classified, true)
  | _ => (no_counts, 0, false)
  end.

Record freshness := Fresh { f_state : string; f_age : Z }.
Definition unknown_freshness : freshness * bool := (Fresh "unknown" 0, false).

Definition cap_freshness (health : dict) : freshness * bool :=
  match dget "freshness" health with
  | JDict raw =>
      match dget "state" raw with
      | JStr s =>
          if negb (mem s ["fresh"; "stale"; "unknown"]) then unknown_freshness
          else match nonneg_int (dget "ageSeconds" raw) with
               | Some age => (Fresh s age, true)
               | None => unknown_freshness
               end
      | _ => unknown_freshness
      end
  | _ => unknown_freshness
  end.

(** [str(health.get("schema") or "unknown")]. *)
Definition health_schema (health : dict) : string :=
  py_str (py_or (dget "schema" health) (JStr "unknown")).

(** The chain of conditions: the state and its reason. *)
Definition decide_capacity (health : dict) (gateway : GatewayProbe)
    (consumer_min consumer_max : Z) : string * string :=
  let '(c, unobserved, counts_valid) := cap_counts health in
  let '(fresh, freshness_valid) := cap_freshness health in
  if health_schema health <>s? HEALTH_SCHEMA then ("incompatible_producer", "health_schema_mismatch")
  else if match dget "protocolVersion" health with
          | JInt v => negb ((PROTOCOL_MIN <=? v) && (v <=? PROTOCOL_MAX))
          | _ => true
          end then ("incompatible_producer", "health_protocol_mismatch")
  else if Z.min PROTOCOL_MAX consumer_max <? Z.max PROTOCOL_MIN consumer_min then
    ("incompatible_producer", "protocol_range_mismatch")
  else if (status gateway <>s? "healthy") || (detail gateway <>s? "ok") then
    ("probe_failure", default "gateway_probe_invalid" (assoc (detail gateway) PROBE_REASONS))
  else if f_state fresh =s? "stale" then ("stale_contract", "stale_health_observation")
  else if negb freshness_valid || (f_state fresh =s? "unknown") then
    ("unknown_observation", "missing_health_observation")
  else if negb counts_valid then ("unknown_observation", "invalid_account_counts")
  else if 0 <? c_available c then ("healthy_capacity", "available_accounts_observed")
  else if 0 <? unobserved then ("unknown_observation", "unobserved_accounts")
  else ("exhausted_capacity", "no_available_accounts").

Definition classify_capacity (health : dict) (gateway : GatewayProbe)
    (consumer_min consumer_max : Z) : M json :=
  let! consumer := lift (protocol_range consumer_min consumer_max) in
  let '(c, unobserved, _) := cap_counts health in
  let '(fresh, _) := cap_freshness health in
  let probe := if (detail gateway =s? "ok") || mem (detail gateway) (map fst PROBE_REASONS)
               then detail gateway else "invalid" in
  let! checked_at :=
    match dget "checkedAt" health with
    | JStr s => if strip s =s? "" then utc_now else ret s
    | _ => utc_now
    end in
  let '(state, reason) := decide_capacity health gateway consumer_min consumer_max in
  ret (JDict
    [("schema", JStr "cloudx.capacity.v1");
     ("state", JStr state);
     ("reason", JStr reason);
     ("producer", JDict
        [("cloudxVersion", JStr VERSION);
         ("protocol", JDict [("min", JInt PROTOCOL_MIN); ("max", JInt PROTOCOL_MAX)]);
         ("healthSchema", JStr (health_schema health))]);
     ("consumerProtocol", consumer);
     ("gateway", JDict
        [("status", JStr (if mem (status gateway) ["healthy"; "degraded"; "unavailable"; "unknown"]
                          then status gateway else "unknown"));
         ("probe", JStr probe);
         ("httpStatus", opt_int (http_status gateway))]);
     ("accountCounts", counts_json c);
     ("unobservedAccounts", JInt unobserved);
     ("checkedAt", JStr checked_at);
     ("freshness", JDict [("state", JStr (f_state fresh)); ("ageSeconds", JInt (f_age fresh))])]).

Section build.
Context (urlopen : string → list (string * string) → http_outcome).
Definition build_capacity (config : Config) (consumer_min consumer_max : Z) : M json :=
  let! (health, gateway) := observe_health urlopen config in
  match health with
  | JDict d => classify_capacity d gateway consumer_min consumer_max
  | _ => mraise AttributeError "get"
  end.
End build.

(** ** The contract *)

(** What an observation must say for its capacity to be known: a compatible producer,
    a healthy gateway, a fresh health document and consistent counts. *)
Record KnownCapacity (health : dict) (gateway : GatewayProbe) (lo hi : Z) (c : counts) : Prop := {
  kc_schema : health_schema health = HEALTH_SCHEMA;
  kc_protocol : ∃ v, dget "protocolVersion" health = JInt v ∧ PROTOCOL_MIN <= v <= PROTOCOL_MAX;
  kc_overlap : Z.max PROTOCOL_MIN lo <= Z.min PROTOCOL_MAX hi;
  kc_gateway : status gateway = "healthy"%string ∧ detail gateway = "ok"%string;
  kc_fresh : ∃ f age, dget "freshness" health = JDict f ∧ dget "state" f = JStr "fresh" ∧
               dget "ageSeconds" f = JInt age ∧ 0 <= age;
  kc_counts : ∃ a, dget "accountCounts" health = JDict a ∧
               dget "total" a = JInt (c_total c) ∧ dget "available" a = JInt (c_available c) ∧
               dget "limited" a = JInt (c_limited c) ∧ dget "unavailable" a = JInt (c_unavailable c);
  kc_nonneg : 0 <= c_total c ∧ 0 <= c_available c ∧ 0 <= c_limited c ∧ 0 <= c_unavailable c;
  kc_consistent : c_available c + c_limited c + c_unavailable c <= c_total c }.

(** The fields of a well-formed object of counts. *)
Definition counts_fields (a : dict) (c : counts) : Prop :=
  dget "total" a = JInt (c_total c) ∧ dget "available" a = JInt (c_available c) ∧
  dget "limited" a = JInt (c_limited c) ∧ dget "unavailable" a = JInt (c_unavailable c) ∧
  0 <= c_total c ∧ 0 <= c_available c ∧ 0 <= c_limited c ∧ 0 <= c_unavailable c.

Lemma read_counts_spec a c :
  read_counts HEALTH_KEYS (JDict a) no_counts = (c, true) ↔ counts_fields a c.
Proof.
  unfold counts_fields. split.
  - unfold HEALTH_KEYS, no_counts. simpl. intros H.
    repeat break_hyp H. injection H as <-.
    repeat match goal with H : nonneg_int _ = Some _ |- _ => apply nonneg_int_spec in H as [??] end.
    simpl. by split_and!.
  - intros (Ht & Ha & Hl & Hu & ? & ? & ? & ?). destruct c as [t av l u]; simpl in *.
    rewrite Ht, Ha, Hl, Hu. simpl.
    by rewrite !(proj2 (Z.ltb_ge _ _)) by done.
Qed.

Lemma cap_counts_spec health c u :
  cap_counts health = (c, u, true) ↔
  (∃ a, dget "accountCounts" health = JDict a ∧ counts_fields a c) ∧
  c_available c + c_limited c + c_unavailable c <= c_total c ∧
  u = c_total c - (c_available c + c_limited c + c_unavailable c).
Proof.
  unfold cap_counts. change CAP_COUNT_KEYS with HEALTH_KEYS.
  destruct (dget "accountCounts" health) as [| | | | | |a]; try (split; [done|naive_solver]).
  destruct (read_counts _ _ _) as [c' v] eqn:E. split.
  - destruct v; simpl; [|done]. destruct (Z.ltb_spec (c_total c') (c_available c' + c_limited c' + c_unavailable c'));
      intros [= <- <-]. split; [|split; [lia|done]].
    exists a. split; [done|]. by apply read_counts_spec.
  - intros ((a' & [= <-] & Hc) & Hle & ->). apply read_counts_spec in Hc.
    rewrite Hc in E. injection E as <- <-. simpl.
    by rewrite (proj2 (Z.ltb_ge _ _)).
Qed.

Lemma cap_freshness_fresh health :
  (f_state (cap_freshness health).1 =s? "stale") = false →
  negb (cap_freshness health).2 || (f_state (cap_freshness health).1 =s? "unknown") = false →
  ∃ f age, dget "freshness" health = JDict f ∧ dget "state" f = JStr "fresh" ∧
    dget "ageSeconds" f = JInt age ∧ 0 <= age.
Proof.
  unfold cap_freshness, unknown_freshness. intros H1 H2.
  destruct (dget "freshness" health) as [| | | | | |f] eqn:Hf; try done.
  destruct (dget "state" f) as [| | | |s| |] eqn:Hs; try done.
  destruct (mem s _) eqn:Hm; [|done]. apply mem_spec in Hm. simpl in *.
  destruct (nonneg_int _) as [age|] eqn:Ha; [|done]. simpl in *.
  apply nonneg_int_spec in Ha as [Ha ?].
  exists f, age. split_and!; [done| |done..].
  destruct Hm as [<-|[<-|[<-|[]]]]; done.
Qed.

Lemma cap_freshness_ok health f age :
  dget "freshness" health = JDict f → dget "state" f = JStr "fresh" →
  dget "ageSeconds" f = JInt age → 0 <= age →
  cap_freshness health = (Fresh "fresh" age, true).
Proof.
  intros Hf Hs Ha Hage. unfold cap_freshness. rewrite Hf, Hs, Ha. simpl.
  by rewrite (proj2 (Z.ltb_ge _ _)).
Qed.

(** The guards of [decide_capacity] that lead to a count-based answer. *)
Definition observed_ok (health : dict) (gateway : GatewayProbe) (lo hi : Z) (c : counts) (u : Z) : Prop :=
  KnownCapacity health gateway lo hi c ∧
  u = c_total c - (c_available c + c_limited c + c_unavailable c).

Definition count_decision (c : counts) (u : Z) : string * string :=
  if 0 <? c_available c then ("healthy_capacity", "available_accounts_observed")
  else if 0 <? u then ("unknown_observation", "unobserved_accounts")
  else ("exhausted_capacity", "no_available_accounts").

Lemma decide_known health gateway lo hi c u :
  observed_ok health gateway lo hi c u →
  decide_capacity health gateway lo hi = count_decision c u.
Proof.
  intros [[Hs (v & Hv & Hr) Ho [Hg Hd] (f & age & Hf & Hst & Hag & Hage) (a & Ha & Hct) Hnn Hle] ->].
  unfold decide_capacity, count_decision.
  assert (cap_counts health = (c, c_total c - (c_available c + c_limited c + c_unavailable c), true)) as ->.
  { apply cap_counts_spec. split; [|done]. exists a. split; [done|].
    unfold counts_fields. naive_solver. }
  rewrite (cap_freshness_ok health f age) by done.
  rewrite Hs, eqs_refl, Hv, Hg, Hd. simpl negb. cbv iota.
  rewrite !(proj2 (Z.leb_le _ _)) by lia. simpl.
  by rewrite (proj2 (Z.ltb_ge _ _)) by done.
Qed.

Definition unresolved_states : list string :=
  ["incompatible_producer"; "probe_failure"; "stale_contract"; "unknown_observation"].

Lemma decide_cases health gateway lo hi :
  (∃ c u, observed_ok health gateway lo hi c u ∧
     decide_capacity health gateway lo hi = count_decision c u) ∨
  mem (decide_capacity health gateway lo hi).1 unresolved_states = true.
Proof.
  assert (Hgo : ∀ c u, observed_ok health gateway lo hi c u →
    (∃ c u, observed_ok health gateway lo hi c u ∧
       decide_capacity health gateway lo hi = count_decision c u) ∨
    mem (decide_capacity health gateway lo hi).1 unresolved_states = true).
  { intros c u H. left. exists c, u. split; [done|]. by apply decide_known. }
  destruct (cap_counts health) as [[c u] cv] eqn:Hc.
  destruct (cap_freshness health) as [fr fv] eqn:Hfr.
  pose proof (cap_freshness_fresh health) as Hff. rewrite Hfr in Hff. simpl in Hff.
  destruct (health_schema health <>s? HEALTH_SCHEMA) eqn:Hs;
    [right; unfold decide_capacity; by rewrite Hc, Hfr, Hs|].
  destruct (dget "protocolVersion" health) as [| |v| | | |] eqn:Hv;
    try (right; unfold decide_capacity; by rewrite Hc, Hfr, Hs, Hv).
  destruct (negb ((PROTOCOL_MIN <=? v) && (v <=? PROTOCOL_MAX))) eqn:Hp;
    [right; unfold decide_capacity; by rewrite Hc, Hfr, Hs, Hv, Hp|].
  destruct (Z.min PROTOCOL_MAX hi <? Z.max PROTOCOL_MIN lo) eqn:Ho;
    [right; unfold decide_capacity; by rewrite Hc, Hfr, Hs, Hv, Hp, Ho|].
  destruct ((status gateway <>s? "healthy") || (detail gateway <>s? "ok")) eqn:Hg;
    [right; unfold decide_capacity; by rewrite Hc, Hfr, Hs, Hv, Hp, Ho, Hg|].
  destruct (f_state fr =s? "stale") eqn:Hst;
    [right; unfold decide_capacity; by rewrite Hc, Hfr, Hs, Hv, Hp, Ho, Hg, Hst|].
  destruct (negb fv || (f_state fr =s? "unknown")) eqn:Hu;
    [right; unfold decide_capacity; by rewrite Hc, Hfr, Hs, Hv, Hp, Ho, Hg, Hst, Hu|].
  destruct cv; [|right; unfold decide_capacity; by rewrite Hc, Hfr, Hs, Hv, Hp, Ho, Hg, Hst, Hu].
  apply cap_counts_spec in Hc as ((a & Ha & Hf1) & Hle & Heq).
  apply (Hgo c u). split; [|done].
  destruct (Hff eq_refl eq_refl) as (f & age & ?). bool_prop.
  destruct Hf1 as (?&?&?&?&?&?&?&?).
  split; try done; [by exists v|by exists f, age|by exists a].
Qed.

(** ** The theorems *)

(** A capacity other than unknown is reported exactly when the observation is
    complete (compatible producer, healthy gateway, fresh health, consistent counts):
    healthy when an account is available; exhausted when none is and every account
    was classified, so a stale, invalid or partial observation is never reported as
    exhausted. *)
Theorem capacity_exact health gateway lo hi :
  ((decide_capacity health gateway lo hi).1 = "healthy_capacity"%string ↔
     ∃ c, KnownCapacity health gateway lo hi c ∧ 0 < c_available c) ∧
  ((decide_capacity health gateway lo hi).1 = "exhausted_capacity"%string ↔
     ∃ c, KnownCapacity health gateway lo hi c ∧ c_available c = 0 ∧
          c_limited c + c_unavailable c = c_total c).
Proof.
  destruct (decide_cases health gateway lo hi) as [(c & u & Hok & ->)|Hm].
  - destruct Hok as [Hk Hu]. pose proof (kc_nonneg _ _ _ _ _ Hk). pose proof (kc_consistent _ _ _ _ _ Hk).
    assert (Hf : ∀ c', KnownCapacity health gateway lo hi c' → c' = c).
    { intros c' Hk'. destruct (kc_counts _ _ _ _ _ Hk) as (a & Ha & ?&?&?&?).
      destruct (kc_counts _ _ _ _ _ Hk') as (a' & Ha' & ?&?&?&?).
      destruct c, c'; simpl in *. congruence. }
    unfold count_decision. destruct (Z.ltb_spec 0 (c_available c)); [|destruct (Z.ltb_spec 0 u)];
      simpl; (split; (split; [try done|intros (c' & Hc' & ?); apply Hf in Hc' as ->; try lia; try done])).
    + intros _. by exists c.
    + intros _. exists c. split; [done|lia].
  - split.
    + split; [by intros E; rewrite E in Hm|]. intros (c & Hk & ?).
      rewrite (decide_known _ _ _ _ c _ (conj Hk eq_refl)). unfold count_decision.
      by rewrite (proj2 (Z.ltb_lt _ _)).
    + split; [by intros E; rewrite E in Hm|]. intros (c & Hk & ? & ?).
      rewrite (decide_known _ _ _ _ c _ (conj Hk eq_refl)). unfold count_decision.
      by rewrite !(proj2 (Z.ltb_ge _ _)) by lia.
Qed.
