(* ===== verification/PyBase64.v ===== *)
(** * Python's [base64] and the payload of a JWT

    [a2b] is [binascii.a2b_base64]: characters outside the alphabet are skipped, a
    complete padding ends the input.  Not a component of the program: the decoding of
    JWT payloads is written three times in the source, in the same way, and is defined here
    once. *)

From S2P Require Import Prelude PyStr PyValue PyJson.

Definition b64_val (c : ascii) : option Z :=
  let n := Z.of_nat (ord c) in
  if is_upper c then Some (n - 65)
  else if is_lower c then Some (n - 71)
  else if is_digit c then Some (n + 4)
  else if Ascii.eqb c "+" then Some 62
  else if Ascii.eqb c "/" then Some 63
  else None.

Definition byte (z : Z) : ascii := ascii_of_nat (Z.to_nat (z mod 256)).

Fixpoint a2b (s : string) (quad left pads : Z) : option string :=
  match s with
  | EmptyString => if quad =? 0 then Some EmptyString else None
  | String c s =>
      if Ascii.eqb c "=" then
        if 2 <=? quad then
          if 4 <=? quad + (pads + 1) then Some EmptyString else a2b s quad left (pads + 1)
        else a2b s quad left pads
      else
        match b64_val c with
        | None => a2b s quad left pads
        | Some v =>
            match quad with
            | 0 => a2b s 1 v 0
            | 1 => let? r := a2b s 2 (Z.land v 15) 0 in
                   Some (String (byte (Z.lor (Z.shiftl left 2) (Z.shiftr v 4))) r)
            | 2 => let? r := a2b s 3 (Z.land v 3) 0 in
                   Some (String (byte (Z.lor (Z.shiftl left 4) (Z.shiftr v 2))) r)
            | _ => let? r := a2b s 0 0 0 in
                   Some (String (byte (Z.lor (Z.shiftl left 6) v)) r)
            end
        end
  end.

Definition is_ascii (s : string) : bool := str_forall (λ c, Nat.ltb (ord c) 128) s.

(** [base64.b64decode(text, validate=True)]. *)
Fixpoint strip_alphabet (s : string) : string :=
  match s with
  | String c s' => match b64_val c with Some _ => strip_alphabet s' | None => s end
  | EmptyString => s
  end.
Definition b64_strict (s : string) : option string :=
  if mem (strip_alphabet s) [""; "="; "=="] then a2b s 0 0 0 else None.

(** [base64.urlsafe_b64decode(text.encode("ascii"))]. *)
Definition urlsafe_b64decode (s : string) : option string :=
  if is_ascii s then a2b (replace_char "_" "/" (replace_char "-" "+" s)) 0 0 0 else None.

(** The claims of a token: its second part, padded, decoded, parsed; the empty object
    when any step fails. *)
Definition padding (s : string) : string :=
  match (String.length s mod 4)%nat with
  | 0%nat => "" | 1%nat => "===" | 2%nat => "==" | _ => "="
  end.
(** [token.split(".", 2)[1]]. *)
Definition second_part (token : string) : string := List.nth 1 (split_char "." token) "".
Definition jwt_claims (token : string) : dict :=
  if Nat.ltb (count_char "." token) 2 then []
  else
    let encoded := second_part token in
    match urlsafe_b64decode (encoded +:+ padding encoded) with
    | Some raw =>
        match loads_bytes raw with Ok (JDict d) => d | _ => [] end
    | None => []
    end.

Example b64_word : b64_strict "Y2xvdWR4" = Some "cloudx".
Proof. reflexivity. Qed.
