(* ===== verification/PySha.v ===== *)
(** * SHA-256 ([hashlib.sha256(data).hexdigest()])

    FIPS 180-4 on lists of bytes; words are integers below [2^32]. *)

From S2P Require Import Prelude PyStr PyValue.

Definition W32 : Z := 4294967296.
Definition w32 (z : Z) : Z := z mod W32.
Definition rotr (n x : Z) : Z := Z.lor (Z.shiftr x n) (w32 (Z.shiftl x (32 - n))).
Definition xor3 (a b c : Z) : Z := Z.lxor a (Z.lxor b c).

Definition K256 : list Z :=
  [1116352408; 1899447441; 3049323471; 3921009573; 961987163; 1508970993; 2453635748; 2870763221;
   3624381080; 310598401; 607225278; 1426881987; 1925078388; 2162078206; 2614888103; 3248222580;
   3835390401; 4022224774; 264347078; 604807628; 770255983; 1249150122; 1555081692; 1996064986;
   2554220882; 2821834349; 2952996808; 3210313671; 3336571891; 3584528711; 113926993; 338241895;
   666307205; 773529912; 1294757372; 1396182291; 1695183700; 1986661051; 2177026350; 2456956037;
   2730485921; 2820302411; 3259730800; 3345764771; 3516065817; 3600352804; 4094571909; 275423344;
   430227734; 506948616; 659060556; 883997877; 958139571; 1322822218; 1537002063; 1747873779;
   1955562222; 2024104815; 2227730452; 2361852424; 2428436474; 2756734187; 3204031479; 3329325298].
Definition H256 : list Z :=
  [1779033703; 3144134277; 1013904242; 2773480762; 1359893119; 2600822924; 528734635; 1541459225].

(** Padding: a bit, zeros, and the length in bits on eight bytes. *)
Fixpoint big_endian (n : nat) (z : Z) : list Z :=
  match n with O => [] | S n => big_endian n (z / 256) ++ [z mod 256] end.
Definition sha_pad (m : list Z) : list Z :=
  let l := length m in
  m ++ [128] ++ repeat 0 ((119 - l mod 64) mod 64) ++ big_endian 8 (8 * Z.of_nat l).

Definition word_of (l : list Z) : Z := fold_left (λ a b, 256 * a + b) l 0.
Fixpoint chunks (fuel n : nat) (l : list Z) : list (list Z) :=
  match fuel, l with
  | S fuel, _ :: _ => take n l :: chunks fuel n (drop n l)
  | _, _ => []
  end.

(** The message schedule, its last word first. *)
Definition sched_next (w : list Z) : Z :=
  let at' i := List.nth i w 0 in
  let s0 := xor3 (rotr 7 (at' 14%nat)) (rotr 18 (at' 14%nat)) (Z.shiftr (at' 14%nat) 3) in
  let s1 := xor3 (rotr 17 (at' 1%nat)) (rotr 19 (at' 1%nat)) (Z.shiftr (at' 1%nat) 10) in
  w32 (at' 15%nat + s0 + at' 6%nat + s1).
Fixpoint schedule (n : nat) (w : list Z) : list Z :=
  match n with O => w | S n => schedule n (sched_next w :: w) end.

Definition sha_round (st : list Z) (kw : Z * Z) : list Z :=
  match st with
  | [a; b; c; d; e; f; g; h] =>
      let s1 := xor3 (rotr 6 e) (rotr 11 e) (rotr 25 e) in
      let ch := Z.lxor (Z.land e f) (Z.land (Z.lxor e (W32 - 1)) g) in
      let t1 := w32 (h + s1 + ch + fst kw + snd kw) in
      let s0 := xor3 (rotr 2 a) (rotr 13 a) (rotr 22 a) in
      let maj := xor3 (Z.land a b) (Z.land a c) (Z.land b c) in
      [w32 (t1 + w32 (s0 + maj)); a; b; c; w32 (d + t1); e; f; g]
  | _ => st
  end.

Definition sha_block (hs : list Z) (block : list Z) : list Z :=
  let words := map word_of (chunks 16 4 block) in
  let w := rev (schedule 48 (rev words)) in
  map (λ p, w32 (p.1 + p.2)) (combine hs (fold_left sha_round (combine K256 w) hs)).

Definition sha_bytes (m : list Z) : list Z :=
  let p := sha_pad m in
  flat_map (big_endian 4) (fold_left sha_block (chunks (length p) 64 p) H256).

Definition sha256 (data : string) : string :=
  str_join "" (map (λ z, hex2 (Z.to_nat z))
    (sha_bytes (map (λ c, Z.of_nat (ord c)) (chars data)))).

Example sha256_abc :
  sha256 "abc" = "ba7816bf8f01cfea414140de5dae2223b00361a396177a9cb410ff61f20015ad".
Proof. by vm_compute. Qed.

Example sha256_empty :
  sha256 "" = "e3b0c44298fc1c149afbf4c8996fb92427ae41e4649b934ca495991b7852b855".
Proof. by vm_compute. Qed.

Example sha256_two_blocks :
  sha256 "abcdbcdecdefdefgefghfghighijhijkijkljklmklmnlmnomnopnopq" =
  "248d6a61d20638b8e5c026930c3e6039a33ce45964ff2167f6ecedd419db06c1".
Proof. by vm_compute. Qed.
