(* ===== verification/AgentIdentity.v ===== *)
(** * Agent Identity records ([cloud/cloudx_cloud/agent_identity.py] and its copy
    [local/cloudx_local/agent_identity.py])

    Recognises, validates and normalises the one external credential type; the
    normal form keeps a fixed list of fields and drops tasks and bearer tokens. *)

From S2P Require Import Prelude PyStr PyValue PyBase64.

Definition AUTH_MODE : string := "agentIdentity".
Definition EXTERNAL_CAPABILITY : string := "codex-agent-identity-v1".
Definition bytes_of (l : list Z) : string := of_chars (map byte l).
Definition ED25519_PKCS8_PREFIX : string :=
  bytes_of [48; 46; 2; 1; 0; 48; 5; 6; 3; 43; 101; 112; 4; 34; 4; 32].
Definition ED25519_PKCS8_BYTES : nat := (String.length ED25519_PKCS8_PREFIX + 32)%nat.
Definition MAX_RUNTIME_ID : nat := 256.
Definition MAX_METADATA_TEXT : nat := 512.

Definition identity_error {A} (msg : string) : res A := raise AgentIdentityError msg.

Definition is_agent_identity (data : dict) : bool :=
  casefold (strip (str_or_empty (dget "auth_mode" data))) =s? casefold AUTH_MODE.

(** A text of at most [maximum] characters without control characters. *)
Definition text_ok (maximum : nat) (text : string) : bool :=
  Nat.leb (ulen text) maximum && str_forall (λ c, negb (is_control c)) text.

Definition required_text (data : dict) (key : string) (maximum : nat) : res string :=
  match dget key data with
  | JStr value =>
      let text := strip value in
      if text =s? "" then identity_error (key +:+ " is required")
      else if text_ok maximum text then Ok text else identity_error (key +:+ " is invalid")
  | _ => identity_error (key +:+ " is required")
  end.

Definition optional_text (data : dict) (key : string) (maximum : nat) : res string :=
  match dget key data with
  | JNull => Ok ""
  | JStr value =>
      if value =s? "" then Ok ""
      else
        let text := strip value in
        if (text =s? "") || negb (text_ok maximum text) then identity_error (key +:+ " is invalid")
        else Ok text
  | _ => identity_error (key +:+ " is invalid")
  end%string.

Definition private_key (data : dict) : res string :=
  let* encoded := required_text data "agent_private_key" 256 in
  match b64_strict encoded with
  | None => identity_error "agent_private_key is not valid base64 PKCS#8"
  | Some der =>
      if negb (Nat.eqb (String.length der) ED25519_PKCS8_BYTES) ||
         negb (starts_with ED25519_PKCS8_PREFIX der)
      then identity_error "agent_private_key is not an Ed25519 PKCS#8 private key"
      else Ok encoded
  end.

(** [if value: result[key] = value]. *)
Definition set_text (key value : string) (result : dict) : dict :=
  if value =s? "" then result else dset key (JStr value) result.

Definition METADATA_KEYS : list (string * nat) :=
  [("chatgpt_account_id", 256%nat); ("chatgpt_user_id", 256%nat); ("workspace_id", 256%nat);
   ("plan_type", 64%nat); ("label", 256%nat); ("source", 256%nat)].

Definition base_record (disabled : bool) (runtime_id key : string) : dict :=
  [("type", JStr "codex"); ("auth_kind", JStr "oauth"); ("auth_mode", JStr AUTH_MODE);
   ("disabled", JBool disabled); ("websockets", JBool false);
   ("agent_runtime_id", JStr runtime_id); ("agent_private_key", JStr key)].

(** [a or b] on strings. *)
Definition str_or (a b : string) : string := if a =s? "" then b else a.

Definition normalize (data : dict) (fallback_account_id fallback_email : string) : res dict :=
  if negb (is_agent_identity data) then identity_error "auth_mode is not agentIdentity" else
  let* runtime_id := required_text data "agent_runtime_id" MAX_RUNTIME_ID in
  let* key := private_key data in
  match dget_or "disabled" (JBool false) data with
  | JBool disabled =>
      let* account_id :=
        (let* a := optional_text data "account_id" 256 in
         if a <>s? "" then Ok a
         else let* b := optional_text data "chatgpt_account_id" 256 in
              Ok (str_or b (strip fallback_account_id))) in
      let* email :=
        (let* e := optional_text data "email" 320 in Ok (str_or e (strip fallback_email))) in
      let result := set_text "email" email (set_text "account_id" account_id
                      (base_record disabled runtime_id key)) in
      let* result := fold_res (λ r '(k, n), let* v := optional_text data k n in Ok (set_text k v r))
                       result METADATA_KEYS in
      match dget "chatgpt_account_is_fedramp" data with
      | JNull => Ok result
      | JBool b => Ok (dset "chatgpt_account_is_fedramp" (JBool b) result)
      | _ => identity_error "chatgpt_account_is_fedramp is invalid"
      end
  | _ => identity_error "disabled is invalid"
  end.

Definition fingerprint_parts (data : dict) : list string :=
  if negb (is_agent_identity data) then []
  else [AUTH_MODE; strip (str_or_empty (dget "agent_runtime_id" data));
        strip (str_or_empty (dget "agent_private_key" data))].

Definition is_valid (data : dict) : bool :=
  if negb (is_agent_identity data) then false else is_ok (normalize data "" "").

(** ** Lemmas *)

(** A text this module can have produced: stripped, not empty, within its bound. *)
Definition clean_text (maximum : nat) (s : string) : Prop :=
  s ≠ "" ∧ strip s = s ∧ text_ok maximum s = true.

Lemma required_text_ok d k n s :
  required_text d k n = Ok s → clean_text n s ∧ ∃ v, dget k d = JStr v ∧ s = strip v.
Proof.
  unfold required_text. intros H. walk H. bool_prop.
  split; [split; [done|split; [apply strip_idem|done]]|by eexists].
Qed.
Lemma required_text_clean d k n s :
  dget k d = JStr s → clean_text n s → required_text d k n = Ok s.
Proof. intros E (Hne & Hs & Ht). unfold required_text. by rewrite E, Hs, (eqs_ne s ""), Ht. Qed.

Lemma optional_text_ok d k n s :
  optional_text d k n = Ok s → s = "" ∨ clean_text n s.
Proof.
  unfold optional_text. intros H. walk H; bool_prop; [by left..|right].
  split; [done|]. split; [apply strip_idem|done].
Qed.
Lemma optional_text_clean d k n s :
  dget k d = JStr s → clean_text n s → optional_text d k n = Ok s.
Proof.
  intros E (Hne & Hs & Ht). unfold optional_text. by rewrite E, (eqs_ne s ""), Hs, (eqs_ne s ""), Ht.
Qed.
Lemma optional_text_none d k n : dlookup k d = None → optional_text d k n = Ok "".
Proof. intros E. unfold optional_text, dget. by rewrite E. Qed.

Lemma dlookup_set_text k k' v d :
  dlookup k (set_text k' v d) =
  if (k =s? k') && (v <>s? "") then Some (JStr v) else dlookup k d.
Proof.
  unfold set_text. destruct (eqs_spec v "") as [->|Hv].
  - by rewrite andb_false_r.
  - by rewrite andb_true_r, dlookup_dset.
Qed.

(** What a successful normalisation returns. *)
Record identity := Identity {
  id_disabled : bool; id_runtime : string; id_key : string; id_account : string;
  id_email : string; id_chatgpt : string; id_user : string; id_workspace : string;
  id_plan : string; id_label : string; id_source : string; id_fedramp : option bool }.

Definition render (i : identity) : dict :=
  let r := set_text "source" (id_source i) (set_text "label" (id_label i)
    (set_text "plan_type" (id_plan i) (set_text "workspace_id" (id_workspace i)
    (set_text "chatgpt_user_id" (id_user i) (set_text "chatgpt_account_id" (id_chatgpt i)
    (set_text "email" (id_email i) (set_text "account_id" (id_account i)
    (base_record (id_disabled i) (id_runtime i) (id_key i))))))))) in
  match id_fedramp i with Some b => dset "chatgpt_account_is_fedramp" (JBool b) r | None => r end.

Definition opt_clean (n : nat) (s : string) : Prop := s = "" ∨ clean_text n s.
Definition valid_key (key : string) : Prop :=
  clean_text 256 key ∧
  ∃ der, b64_strict key = Some der ∧ String.length der = ED25519_PKCS8_BYTES ∧
         starts_with ED25519_PKCS8_PREFIX der = true.

(** The texts of a record that needed no fallback. *)
Record canonical (i : identity) : Prop := {
  ca_runtime : clean_text MAX_RUNTIME_ID (id_runtime i);
  ca_key : valid_key (id_key i);
  ca_account : opt_clean 256 (id_account i);
  ca_default : id_account i = "" → id_chatgpt i = "";
  ca_email : opt_clean 320 (id_email i);
  ca_chatgpt : opt_clean 256 (id_chatgpt i);
  ca_user : opt_clean 256 (id_user i);
  ca_workspace : opt_clean 256 (id_workspace i);
  ca_plan : opt_clean 64 (id_plan i);
  ca_label : opt_clean 256 (id_label i);
  ca_source : opt_clean 256 (id_source i) }.

Lemma private_key_ok d key : private_key d = Ok key → valid_key key.
Proof.
  unfold private_key. intros H.
  destruct (required_text _ _ _) as [e|] eqn:E; [|done].
  apply required_text_ok in E as [Hc _]. walk H. bool_prop.
  split; [done|]. eexists. split; [done|].
  split; [by apply Nat.eqb_eq|done].
Qed.
Lemma private_key_clean d key :
  dget "agent_private_key" d = JStr key → valid_key key → private_key d = Ok key.
Proof.
  intros E (Hc & der & Hd & Hl & Hp). unfold private_key.
  rewrite (required_text_clean _ _ _ key) by done. by rewrite Hd, Hl, Nat.eqb_refl, Hp.
Qed.

Lemma normalize_ok d fa fe r :
  normalize d fa fe = Ok r →
  ∃ i, r = render i ∧
    is_agent_identity d = true ∧
    required_text d "agent_runtime_id" MAX_RUNTIME_ID = Ok (id_runtime i) ∧
    private_key d = Ok (id_key i) ∧
    clean_text MAX_RUNTIME_ID (id_runtime i) ∧ valid_key (id_key i) ∧
    (opt_clean 256 (id_account i) ∨ id_account i = strip fa) ∧
    (id_account i = "" → id_chatgpt i = "") ∧
    (opt_clean 320 (id_email i) ∨ id_email i = strip fe) ∧
    opt_clean 256 (id_chatgpt i) ∧ opt_clean 256 (id_user i) ∧ opt_clean 256 (id_workspace i) ∧
    opt_clean 64 (id_plan i) ∧ opt_clean 256 (id_label i) ∧ opt_clean 256 (id_source i).
Proof.
  unfold normalize. intros H.
  destruct (is_agent_identity d) eqn:Hd; [|done]. simpl negb in H. cbv iota in H.
  destruct (required_text d "agent_runtime_id" _) as [rt|] eqn:Hrt; [|done].
  destruct (private_key d) as [key|] eqn:Hkey; [|done].
  destruct (dget_or "disabled" _ d) as [|dis| | | | |]; try done.
  match type of H with (match ?x with _ => _ end) = _ => destruct x as [acc|] eqn:Hacc; [|done] end.
  match type of H with (match ?x with _ => _ end) = _ => destruct x as [em|] eqn:Hem; [|done] end.
  cbn [METADATA_KEYS fold_res] in H.
  destruct (optional_text d "chatgpt_account_id" 256) as [cg|] eqn:Hcg; [|done].
  destruct (optional_text d "chatgpt_user_id" 256) as [us|] eqn:Hus; [|done].
  destruct (optional_text d "workspace_id" 256) as [ws|] eqn:Hws; [|done].
  destruct (optional_text d "plan_type" 64) as [pl|] eqn:Hpl; [|done].
  destruct (optional_text d "label" 256) as [lb|] eqn:Hlb; [|done].
  destruct (optional_text d "source" 256) as [so|] eqn:Hso; [|done].
  pose proof Hrt as Hrt0. pose proof Hkey as Hkey0.
  apply required_text_ok in Hrt as [Hrt _]. apply private_key_ok in Hkey.
  apply optional_text_ok in Hus, Hws, Hpl, Hlb, Hso.
  assert (Ha : (opt_clean 256 acc ∨ acc = strip fa) ∧ (acc = "" → cg = "")).
  { destruct (optional_text d "account_id" 256) as [a|] eqn:Ha; [|done].
    apply optional_text_ok in Ha. apply optional_text_ok in Hcg.
    destruct (eqs_spec a "") as [->|Hne]; simpl in Hacc; injection Hacc as <-.
    - unfold str_or. destruct (eqs_spec cg "") as [->|]; [by split; [right|]|].
      split; [by left|]. by intros ->.
    - split; [by left|]. by intros ->. }
  apply optional_text_ok in Hcg.
  assert (He : opt_clean 320 em ∨ em = strip fe).
  { destruct (optional_text d "email" 320) as [e|] eqn:He; [|done].
    apply optional_text_ok in He. injection Hem as <-. unfold str_or.
    destruct (e =s? ""); [by right|by left]. }
  destruct Ha as [Ha Hde].
  destruct (dget "chatgpt_account_is_fedramp" d) as [|fb| | | | |]; try done; injection H as <-.
  - exists (Identity dis rt key acc em cg us ws pl lb so None). by split_and!.
  - exists (Identity dis rt key acc em cg us ws pl lb so (Some fb)). by split_and!.
Qed.

Lemma render_lookup i k :
  dlookup k (render i) =
  (let text key v := if (k =s? key) && (v <>s? "") then Some (JStr v) else None in
   match (if k =s? "chatgpt_account_is_fedramp" then option_map JBool (id_fedramp i) else None) with
   | Some v => Some v
   | None =>
     match text "source" (id_source i), text "label" (id_label i), text "plan_type" (id_plan i),
       text "workspace_id" (id_workspace i), text "chatgpt_user_id" (id_user i),
       text "chatgpt_account_id" (id_chatgpt i), text "email" (id_email i),
       text "account_id" (id_account i)
     with
     | Some v, _, _, _, _, _, _, _ | None, Some v, _, _, _, _, _, _ | None, None, Some v, _, _, _, _, _
     | None, None, None, Some v, _, _, _, _ | None, None, None, None, Some v, _, _, _
     | None, None, None, None, None, Some v, _, _ | None, None, None, None, None, None, Some v, _
     | None, None, None, None, None, None, None, Some v => Some v
     | None, None, None, None, None, None, None, None =>
         dlookup k (base_record (id_disabled i) (id_runtime i) (id_key i))
     end
   end)%string.
Proof.
  unfold render. destruct (id_fedramp i) as [fb|]; simpl option_map;
    rewrite ?dlookup_dset, !dlookup_set_text.
  - destruct (k =s? "chatgpt_account_is_fedramp"); [done|]. by repeat case_match.
  - destruct (k =s? "chatgpt_account_is_fedramp"); by repeat case_match.
Qed.

Lemma optional_text_render i k n v :
  opt_clean n v → dlookup k (render i) = (if v <>s? "" then Some (JStr v) else None) →
  optional_text (render i) k n = Ok v.
Proof.
  intros Hv Hl. destruct (eqs_spec v "") as [->|Hne]; simpl in Hl.
  - by apply optional_text_none.
  - apply optional_text_clean; [unfold dget; by rewrite Hl|by destruct Hv].
Qed.

Ltac render_lookup := rewrite render_lookup; simpl; try done; by case_match.

Lemma normalize_render i : canonical i → normalize (render i) "" "" = Ok (render i).
Proof.
  intros [Hrt Hkey Hacc Hdef Hem Hcg Hus Hws Hpl Hlb Hso].
  assert (Hi : is_agent_identity (render i) = true).
  { unfold is_agent_identity, dget. by rewrite render_lookup. }
  unfold normalize. rewrite Hi. simpl negb. cbv iota.
  rewrite (required_text_clean _ _ _ (id_runtime i)); [|unfold dget; by rewrite render_lookup|done].
  rewrite (private_key_clean _ (id_key i)); [|unfold dget; by rewrite render_lookup|done].
  assert (dget_or "disabled" (JBool false) (render i) = JBool (id_disabled i)) as ->.
  { unfold dget_or. by rewrite render_lookup. }
  cbn [METADATA_KEYS fold_res].
  rewrite (optional_text_render i "account_id" 256 (id_account i)) by (done || render_lookup).
  rewrite (optional_text_render i "chatgpt_account_id" 256 (id_chatgpt i)) by (done || render_lookup).
  rewrite (optional_text_render i "email" 320 (id_email i)) by (done || render_lookup).
  rewrite (optional_text_render i "chatgpt_user_id" 256 (id_user i)) by (done || render_lookup).
  rewrite (optional_text_render i "workspace_id" 256 (id_workspace i)) by (done || render_lookup).
  rewrite (optional_text_render i "plan_type" 64 (id_plan i)) by (done || render_lookup).
  rewrite (optional_text_render i "label" 256 (id_label i)) by (done || render_lookup).
  rewrite (optional_text_render i "source" 256 (id_source i)) by (done || render_lookup).
  assert (dget "chatgpt_account_is_fedramp" (render i) =
          match id_fedramp i with Some b => JBool b | None => JNull end) as ->.
  { unfold dget. rewrite render_lookup. by destruct (id_fedramp i). }
  assert (str_or (id_email i) (strip "") = id_email i) as ->.
  { unfold str_or. by destruct (eqs_spec (id_email i) "") as [->|]. }
  destruct (eqs_spec (id_account i) "") as [Ha|Ha]; simpl negb; cbv iota.
  - rewrite (Hdef Ha). unfold render. rewrite (Hdef Ha), Ha. by destruct (id_fedramp i).
  - unfold render. by destruct (id_fedramp i).
Qed.

(** The names a normalised record may have. *)
Definition IDENTITY_FIELDS : list string :=
  ["type"; "auth_kind"; "auth_mode"; "disabled"; "websockets"; "agent_runtime_id";
   "agent_private_key"; "account_id"; "email"; "chatgpt_account_id"; "chatgpt_user_id";
   "workspace_id"; "plan_type"; "label"; "source"; "chatgpt_account_is_fedramp"].

Lemma render_fields i k v : dlookup k (render i) = Some v → In k IDENTITY_FIELDS.
Proof.
  rewrite render_lookup. intros H. apply mem_spec.
  destruct (mem k IDENTITY_FIELDS) eqn:E; [done|]. exfalso.
  unfold IDENTITY_FIELDS, mem in E. simpl in E. bool_prop.
  simpl in H.
  repeat match type of H with context [k =s? ?c] => rewrite (eqs_ne k c) in H by done end.
  done.
Qed.

(** ** The theorems *)

(** A normalised Agent Identity is a fixed point of the normalisation, is valid,
    has no field outside the fixed list (so no task and no bearer token survives) and
    identifies the same credential as the record it came from. *)
Theorem normalize_canonical d r :
  normalize d "" "" = Ok r →
  normalize r "" "" = Ok r ∧ is_valid r = true ∧
  (∀ k v, dlookup k r = Some v → In k IDENTITY_FIELDS) ∧
  fingerprint_parts r = fingerprint_parts d.
Proof.
  intros H. pose proof H as Hd.
  apply normalize_ok in H as (i & -> & Hid & Hrt0 & Hkey0 & Hrt & Hkey & Hacc & Hdef & Hem & Hcg & Hus & Hws & Hpl & Hlb & Hso).
  assert (Hc : canonical i).
  { split; try done; [destruct Hacc as [?|Ha]; [done|by left]|destruct Hem as [?|Ha]; [done|by left]]. }
  pose proof (normalize_render i Hc) as Hn.
  assert (Hi : is_agent_identity (render i) = true).
  { unfold is_agent_identity, dget. by rewrite render_lookup. }
  split_and!; [done| |by intros k v; apply render_fields|].
  - unfold is_valid. by rewrite Hi, Hn.
  - unfold private_key in Hkey0. destruct (required_text d "agent_private_key" 256) eqn:Hk; [|done].
    assert (id_key i = a) as Hka by (walk Hkey0; done). rewrite <- Hka in Hk.
    apply required_text_ok in Hrt0 as [(_ & Hs1 & _) (v1 & Hv1 & He1)].
    apply required_text_ok in Hk as [(_ & Hs2 & _) (v2 & Hv2 & He2)].
    unfold fingerprint_parts. rewrite Hi, Hid. simpl negb. cbv iota.
    assert (∀ v, str_or_empty (JStr v) = v) as Hse.
    { intros v. unfold str_or_empty. simpl. by destruct (eqs_spec v "") as [->|]. }
    rewrite Hv1, Hv2. unfold dget. rewrite !render_lookup. simpl default.
    by rewrite !Hse, He1, He2, !strip_idem.
Qed.

(** A concrete identity: a key of 32 zero bytes behind the PKCS#8 prefix. *)
Definition sample_key : string :=
  "MC4CAQAwBQYDK2VwBCIEIAAAAAAAAAAAAAAAAAAAAAAAAAAAAAAAAAAAAAAAAAAA".
Definition sample_identity : dict :=
  [("auth_mode", JStr " AgentIdentity"); ("agent_runtime_id", JStr " rt-1 ");
   ("agent_private_key", JStr sample_key); ("access_token", JStr "a.b.c");
   ("chatgpt_account_id", JStr "acct"); ("task_id", JStr "t")].

Lemma normalize_canonical_witness :
  ∃ r, normalize sample_identity "" "" = Ok r ∧ normalize r "" "" = Ok r ∧ is_valid r = true ∧
    (∀ k v, dlookup k r = Some v → In k IDENTITY_FIELDS) ∧
    fingerprint_parts r = fingerprint_parts sample_identity.
Proof.
  eexists. split; [vm_compute; reflexivity|].
  apply (normalize_canonical sample_identity). vm_compute. reflexivity.
Defined.

(** The fallbacks taken from the enclosing record are not validated: a record
    can be normalised with a fallback account that makes the result invalid. *)
Theorem normalize_fallback_invalid :
  let fallback := "acct" +:+ chr 1 +:+ "x" in
  ∃ r, normalize (ddel "chatgpt_account_id" sample_identity) fallback "" = Ok r ∧
       is_valid r = false.
Proof. eexists. split; [vm_compute; reflexivity|by vm_compute]. Qed.
