(* ===== verification/Wp.v ===== *)
(** * A program logic for the effects

    [wp m E w Φ] says that every end of [m], by a value or by an exception, satisfies
    [Φ].  The rules forget the number of the system call, so that a proof covers
    every pattern of faults. *)

From S2P Require Import Prelude PyStr PyValue PyJson FS.

Implicit Types (E : env) (f g : fs) (k : nat) (w : world).

Definition wp {A} (m : M A) (E : env) (w : world) (Φ : res A → world → Prop) : Prop :=
  Φ (m E w).1 (m E w).2.

Lemma wp_mono {A} (m : M A) E w (Φ Ψ : res A → world → Prop) :
  wp m E w Φ → (∀ r w', Φ r w' → Ψ r w') → wp m E w Ψ.
Proof. unfold wp. auto. Qed.

Lemma wp_ret {A} (a : A) E w (Φ : res A → world → Prop) : Φ (Ok a) w → wp (ret a) E w Φ.
Proof. done. Qed.
Lemma wp_throw {A} e E w (Φ : res A → world → Prop) : Φ (Raise e) w → wp (throw e) E w Φ.
Proof. done. Qed.
Lemma wp_lift {A} (r : res A) E w (Φ : res A → world → Prop) : Φ r w → wp (lift r) E w Φ.
Proof. done. Qed.

Lemma wp_bind {A B} (m : M A) (c : A → M B) E w (Φ : res B → world → Prop) :
  wp m E w (λ r w', match r with Ok a => wp (c a) E w' Φ | Raise e => Φ (Raise e) w' end) →
  wp (bind m c) E w Φ.
Proof. unfold wp, bind. by destruct (m E w) as [[a|e] w']. Qed.

Lemma wp_try {A} (m : M A) h E w (Φ : res A → world → Prop) :
  wp m E w (λ r w', match r with
                    | Ok a => Φ (Ok a) w'
                    | Raise e => match h e with
                                 | Some c => wp c E w' Φ
                                 | None => Φ (Raise e) w'
                                 end
                    end) →
  wp (try_with m h) E w Φ.
Proof.
  unfold wp, try_with. destruct (m E w) as [[a|e] w']; simpl; [done|]. by destruct (h e).
Qed.

Lemma wp_finally {A} (m : M A) (c : M unit) E w (Φ : res A → world → Prop) :
  wp m E w (λ r w', wp c E w' (λ r' w'', match r' with
                                          | Ok _ => Φ r w''
                                          | Raise e => Φ (Raise e) w''
                                          end)) →
  wp (finally m c) E w Φ.
Proof.
  unfold wp, finally. destruct (m E w) as [r w']. simpl. by destruct (c E w') as [[] ?].
Qed.

Lemma wp_get_fs E f k (Φ : res fs → world → Prop) :
  Φ (Ok f) (World f k) → wp get_fs E (World f k) Φ.
Proof. done. Qed.

Lemma wp_now E f k (Φ : res Z → world → Prop) :
  Φ (Ok (clock E k)) (World f (S k)) → wp now_us E (World f k) Φ.
Proof. done. Qed.

Lemma wp_sys E f k (Φ : res unit → world → Prop) :
  (∀ k, Φ (Ok tt) (World f k)) → (∀ e k, os_exn e → Φ (Raise e) (World f k)) →
  wp sys E (World f k) Φ.
Proof. unfold wp, sys. intros Ho Hr. simpl. destruct (fault E k); [by apply Hr|apply Ho]. Qed.

(** Without faults a call succeeds. *)
Definition no_faults (E : env) : Prop := ∀ n, fault E n = false.
Lemma sys_ok E f k : no_faults E → sys E (World f k) = (Ok tt, World f (S k)).
Proof. intros H. unfold sys. simpl. by rewrite H. Qed.
Lemma wp_sys_ok E f k (Φ : res unit → world → Prop) :
  no_faults E → (∀ k, Φ (Ok tt) (World f k)) → wp sys E (World f k) Φ.
Proof. unfold wp, sys. intros H Ho. simpl. rewrite H. apply Ho. Qed.

Lemma wp_outcome {A} (m : M A) E f k a f' (Φ : res A → world → Prop) :
  outcome m E (World f k) a f' →
  (∀ k, Φ (Ok a) (World f' k)) → (∀ e k, os_exn e → Φ (Raise e) (World f k)) →
  wp m E (World f k) Φ.
Proof.
  intros [[k' H]|(e & k' & He & H)] Ho Hr; unfold wp; rewrite H; simpl; [apply Ho|by apply Hr].
Qed.

(** A computation that leaves the files alone: only its result is unknown. *)
Lemma wp_pure {A} (m : M A) E f k (Φ : res A → world → Prop) :
  fs_pure m → (∀ r k, Φ r (World f k)) → wp m E (World f k) Φ.
Proof.
  intros Hm H. specialize (Hm E (World f k)). unfold wp.
  destruct (m E (World f k)) as [r [f' k']]. simpl in *. subst. apply H.
Qed.

Lemma wp_mkstemp prefix dir E f k (Φ : res path → world → Prop) :
  (∀ t k, is_temp prefix dir t → f !! t = None → Φ (Ok t) (World (<[t := File "" 384]> f) k)) →
  (∀ e k, os_exn e → Φ (Raise e) (World f k)) →
  wp (mkstemp prefix dir) E (World f k) Φ.
Proof.
  intros Ho Hr.
  destruct (mkstemp_spec prefix dir E (World f k)) as [(t & k' & H & Ht & Hf)|(e & k' & He & H)];
    unfold wp; rewrite H; simpl; [by apply Ho|by apply Hr].
Qed.

Lemma wp_ignore_oserror (m : M unit) E w (Φ : res unit → world → Prop) :
  wp m E w (λ r w', match r with
                    | Ok a => Φ (Ok a) w'
                    | Raise e => if catches OSError (exn_cls e) then Φ (Ok tt) w' else Φ (Raise e) w'
                    end) →
  wp (ignore_oserror m) E w Φ.
Proof.
  intros H. apply wp_try. eapply wp_mono; [done|]. intros [a|e] w'; [done|].
  unfold except. simpl. rewrite orb_false_r. by destruct (catches OSError (exn_cls e)).
Qed.

Lemma wp_write_replace prefix mode p data E f k (Φ : res unit → world → Prop) :
  (∀ k, Φ (Ok tt) (World (<[p := File data mode]> f) k)) →
  (∀ e k, os_exn e → Φ (Raise e) (World f k)) →
  (∀ e k t d mo, os_exn e → is_temp prefix (p_parent p) t → f !! t = None →
     Φ (Raise e) (World (<[t := File d mo]> f) k)) →
  wp (write_replace prefix mode p data) E (World f k) Φ.
Proof.
  intros Ho Hr Ht. unfold wp.
  destruct (write_replace_outcome prefix mode p data E (World f k)) as
    [[k' ->]|(e & k' & f' & He & -> & [->|(t & d & mo & ? & ? & ->)])]; simpl; eauto.
Qed.

(** *** [mkdir] *)

(** Directories may be added where nothing was. *)
Definition dirs_added (f f' : fs) : Prop :=
  ∀ p, f' !! p = f !! p ∨ (f !! p = None ∧ ∃ m, f' !! p = Some (Dir m)).

Lemma dirs_added_refl f : dirs_added f f.
Proof. intros p. by left. Qed.
Lemma dirs_added_trans f g h : dirs_added f g → dirs_added g h → dirs_added f h.
Proof.
  intros H1 H2 p. destruct (H1 p) as [E1|[E1 [m E1']]], (H2 p) as [E2|[E2 [m' E2']]].
  - left. congruence.
  - right. split; [congruence|eauto].
  - right. split; [done|]. exists m. congruence.
  - congruence.
Qed.
Lemma dirs_added_file f f' p d m :
  dirs_added f f' → f !! p = Some (File d m) → f' !! p = Some (File d m).
Proof. intros H E. destruct (H p) as [->|[E' _]]; congruence. Qed.

Lemma wp_mkdir1 p mode E f k (Φ : res unit → world → Prop) :
  (∀ f' k, dirs_added f f' → Φ (Ok tt) (World f' k)) →
  (∀ e k, os_exn e → Φ (Raise e) (World f k)) →
  wp (mkdir1 p mode) E (World f k) Φ.
Proof.
  intros Ho Hr. unfold mkdir1. apply wp_bind, wp_get_fs.
  destruct (stat_node f p) as [[]|]; try (apply wp_throw, Hr; done).
  - apply Ho, dirs_added_refl.
  - destruct (f !! p) eqn:Hp; simpl; [by apply wp_throw, Hr|]. apply Ho. intros q.
    destruct (decide (q = p)) as [->|Hne].
    + right. split; [done|]. exists mode. apply lookup_insert_eq.
    + left. by apply lookup_insert_ne.
Qed.

Lemma wp_mkdir_parents p mode E f k (Φ : res unit → world → Prop) :
  (∀ f' k, dirs_added f f' → Φ (Ok tt) (World f' k)) →
  (∀ e f' k, os_exn e → dirs_added f f' → Φ (Raise e) (World f' k)) →
  wp (mkdir_parents p mode) E (World f k) Φ.
Proof.
  intros Ho Hr. unfold mkdir_parents. apply wp_bind, wp_sys; [|intros; apply Hr; [done|apply dirs_added_refl]].
  intros k1. generalize (prefixes_of [] p.2). intros l.
  assert (Hl : ∀ f1 k1, dirs_added f f1 →
    wp (miter (λ l, mkdir1 (p.1, l) (if bool_decide (l = p.2) then mode else 493)) l) E (World f1 k1) Φ).
  { induction l as [|x l IH]; intros f1 k2 Hf; simpl; [by apply Ho|].
    apply wp_bind, wp_mkdir1.
    - intros f2 k3 Hf2. apply IH. by eapply dirs_added_trans.
    - intros e k3 He. by apply Hr. }
  apply Hl, dirs_added_refl.
Qed.

(** Every directory on the way exists: nothing is created. *)
Definition dirs_exist (f : fs) (p : path) : Prop :=
  ∀ l, In l (prefixes_of [] p.2) → ∃ m, f !! (p.1, l) = Some (Dir m).

Lemma stat_dir f p m : f !! p = Some (Dir m) → stat_node f p = Some (Dir m).
Proof. intros H. unfold stat_node, MAX_LINKS. simpl. by rewrite H. Qed.
Lemma stat_file f p d m : f !! p = Some (File d m) → stat_node f p = Some (File d m).
Proof. intros H. unfold stat_node, MAX_LINKS. simpl. by rewrite H. Qed.
Lemma stat_missing f p : f !! p = None → stat_node f p = None.
Proof. intros H. unfold stat_node, MAX_LINKS. simpl. by rewrite H. Qed.

Lemma mkdir_parents_noop E p mode f k :
  dirs_exist f p → outcome (mkdir_parents p mode) E (World f k) tt f.
Proof.
  intros Hd. apply outcome_sys_then. intros [f' k'] [= ->]. left. exists k'.
  unfold dirs_exist in Hd. induction (prefixes_of [] p.2) as [|x l IH]; simpl; [done|].
  destruct (Hd x) as [m Hm]; [by left|].
  assert (mkdir1 (p.1, x) (if bool_decide (x = p.2) then mode else 493) E (World f k') =
          (Ok tt, World f k')) as Hx.
  { unfold mkdir1, bind, get_fs. simpl. by rewrite (stat_dir _ _ _ Hm). }
  rewrite (bind_eq_ok _ _ _ _ _ _ Hx).
  apply IH. intros y Hy. apply Hd. by right.
Qed.

(** *** Tactics *)

(** One step of a proof: the head of the computation decides the rule. *)
Ltac wp_step :=
  lazymatch goal with
  | |- wp (bind _ _) _ _ _ => apply wp_bind
  | |- wp (ret _) _ _ _ => apply wp_ret
  | |- wp (throw _) _ _ _ => apply wp_throw
  | |- wp (mraise _ _) _ _ _ => apply wp_throw
  | |- wp (mraise_code _ _ _) _ _ _ => apply wp_throw
  | |- wp (lift _) _ _ _ => apply wp_lift
  | |- wp (try_with _ _) _ _ _ => apply wp_try
  | |- wp (finally _ _) _ _ _ => apply wp_finally
  | |- wp (ignore_oserror _) _ _ _ => apply wp_ignore_oserror
  | |- wp sys _ _ _ => apply wp_sys; [intros ?|intros ? ? ?]
  | |- wp fsync _ _ _ => apply wp_sys; [intros ?|intros ? ? ?]
  | |- wp get_fs _ _ _ => apply wp_get_fs
  end.
