(* ===== verification/FileData.v ===== *)
(** * The bytes of the files

    What a call does to the contents of the files, apart from modes and directories:
    [keeps T f g], no file outside [T] is lost or changed; [same_data T f g], no file
    outside [T] is new either.  With the rules of [wp] for the calls in these terms. *)

From S2P Require Import Prelude PyStr PyValue PyJson FS Wp.

Implicit Types (E : env) (f g : fs) (k : nat) (w : world).

(** The bytes of a regular file. *)
Definition data_at (f : fs) (p : path) : option string :=
  match f !! p with Some (File d _) => Some d | _ => None end.

(** Every file outside [T] keeps its bytes. *)
Definition keeps (T : path → Prop) (f g : fs) : Prop :=
  ∀ p d, ¬ T p → data_at f p = Some d → data_at g p = Some d.

Lemma keeps_refl T f : keeps T f f.
Proof. by intros p d. Qed.
Lemma keeps_trans T f g h : keeps T f g → keeps T g h → keeps T f h.
Proof. intros H1 H2 p d Hp Hd. by apply H2, H1. Qed.
Lemma keeps_weaken (T U : path → Prop) f g : (∀ p, T p → U p) → keeps T f g → keeps U f g.
Proof. intros HT H p d Hp. apply H. auto. Qed.

Definition none : path → Prop := λ _, False.
Lemma keeps_none T f g : keeps none f g → keeps T f g.
Proof. apply keeps_weaken. by intros ? []. Qed.
Lemma keeps_at f g p d : keeps none f g → data_at f p = Some d → data_at g p = Some d.
Proof. intros H. apply H. by intros []. Qed.
Definition only (q : path) : path → Prop := λ p, p = q.

(** Nothing but directories, modes and files at [T] changed. *)
Definition same_data (T : path → Prop) (f g : fs) : Prop :=
  ∀ p, ¬ T p → data_at g p = data_at f p.
Lemma same_keeps T f g : same_data T f g → keeps T f g.
Proof. intros H p d Hp Hd. by rewrite (H p Hp). Qed.
Lemma same_trans T f g h : same_data T f g → same_data T g h → same_data T f h.
Proof. intros H1 H2 p Hp. by rewrite (H2 p Hp), (H1 p Hp). Qed.
Lemma same_refl T f : same_data T f f.
Proof. by intros p _. Qed.
Lemma same_none T f g : same_data none f g → same_data T f g.
Proof. intros H p _. apply H. by intros []. Qed.

Lemma same_at f g p : same_data none f g → data_at g p = data_at f p.
Proof. intros H. apply H. by intros []. Qed.

Lemma data_at_insert f p d m : data_at (<[p := File d m]> f) p = Some d.
Proof. unfold data_at. by rewrite lookup_insert_eq. Qed.
Lemma data_at_insert_ne f p q n : p ≠ q → data_at (<[q := n]> f) p = data_at f p.
Proof. intros H. unfold data_at. by rewrite lookup_insert_ne. Qed.
Lemma data_at_delete_ne f p q : p ≠ q → data_at (delete q f) p = data_at f p.
Proof. intros H. unfold data_at. by rewrite lookup_delete_ne. Qed.

Lemma keeps_insert f q n : keeps (only q) f (<[q := n]> f).
Proof. intros p d Hp Hd. by rewrite data_at_insert_ne. Qed.
Lemma keeps_insert_free f q n : data_at f q = None → keeps none f (<[q := n]> f).
Proof.
  intros Hq p d _ Hd. rewrite data_at_insert_ne; [done|]. by intros ->; rewrite Hd in Hq.
Qed.
Lemma keeps_insert_same f q d m : data_at f q = Some d → keeps none f (<[q := File d m]> f).
Proof.
  intros Hq p d' _ Hd. destruct (decide (p = q)) as [->|Hne].
  - rewrite data_at_insert. congruence.
  - by rewrite data_at_insert_ne.
Qed.
Lemma keeps_dirs f g : dirs_added f g → keeps none f g.
Proof.
  intros H p d _ Hd. unfold data_at in *. destruct (f !! p) as [[]|] eqn:E; try done.
  by rewrite (dirs_added_file f g p _ _ H E).
Qed.
Lemma same_dirs f g : dirs_added f g → same_data none f g.
Proof.
  intros H p _. unfold data_at. by destruct (H p) as [->|[-> [m ->]]].
Qed.
Lemma data_at_fresh f p : f !! p = None → data_at f p = None.
Proof. unfold data_at. by intros ->. Qed.

(** ** Rules of the calls *)

Lemma wp_chmod p mode E f k (Φ : res unit → world → Prop) :
  (∀ g k, same_data none f g → Φ (Ok tt) (World g k)) →
  (∀ e k, os_exn e → Φ (Raise e) (World f k)) →
  wp (chmod p mode) E (World f k) Φ.
Proof.
  intros Ho Hr. unfold chmod. apply wp_bind, wp_sys; [intros k1|intros; by apply Hr].
  apply wp_bind, wp_get_fs.
  assert (Hfol : ∀ n p q x, follow n f p = Some (q, x) → f !! q = Some x).
  { induction n as [|n IH]; intros p1 q x; simpl; destruct (f !! p1) as [[]|] eqn:Hp; try done;
      try (by intros [= <- <-]). by apply IH. }
  destruct (follow MAX_LINKS f p) as [[q n]|] eqn:Hf; [|by apply wp_throw, Hr].
  apply Hfol in Hf. unfold update, wp, put_fs. simpl. apply Ho. intros r _.
  destruct (decide (r = q)) as [->|Hne]; [|by apply data_at_insert_ne].
  unfold data_at. rewrite lookup_insert_eq, Hf. by destruct n.
Qed.

Lemma wp_open_append p E f k (Φ : res unit → world → Prop) :
  (∀ g k, keeps none f g → same_data (only p) f g → Φ (Ok tt) (World g k)) →
  (∀ e k, Φ (Raise e) (World f k)) →
  wp (open_append p) E (World f k) Φ.
Proof.
  intros Ho Hr. unfold open_append. apply wp_bind, wp_sys; [intros k1|by intros].
  apply wp_bind, wp_get_fs. destruct (stat_node f p) as [[]|]; try (apply wp_throw, Hr).
  - apply wp_ret, Ho; [apply keeps_refl|apply same_refl].
  - destruct (opt_is _ _) eqn:Hp; simpl; [by apply wp_throw|].
    destruct (parent_is_dir f p); simpl; [|by apply wp_throw].
    unfold update, wp, put_fs. simpl. apply Ho.
    + apply keeps_insert_free, data_at_fresh. by destruct (f !! p).
    + intros q Hq. by apply data_at_insert_ne.
Qed.

Lemma wp_exists p E f k (Φ : res bool → world → Prop) :
  (∀ k, Φ (Ok (opt_is (λ _, true) (stat_node f p))) (World f k)) →
  (∀ e k, os_exn e → Φ (Raise e) (World f k)) →
  wp (exists_p p) E (World f k) Φ.
Proof.
  intros Ho Hr. unfold exists_p. apply wp_bind, wp_sys; [intros k1|intros; by apply Hr].
  apply wp_bind, wp_get_fs, wp_ret, Ho.
Qed.

Lemma exists_false o : opt_is (λ _, true) o = false → o = None.
Proof. by destruct o. Qed.

Lemma wp_unlink_quiet t E f k (Φ : res unit → world → Prop) :
  (∀ k, Φ (Ok tt) (World f k)) → (∀ k, Φ (Ok tt) (World (delete t f) k)) →
  wp (ignore_oserror (unlink t)) E (World f k) Φ.
Proof.
  intros H1 H2. apply wp_ignore_oserror. unfold unlink.
  apply wp_bind, wp_sys; [intros k1|intros e k1 He; by rewrite He].
  apply wp_bind, wp_get_fs.
  destruct (f !! t) as [[]|]; first [apply wp_throw; simpl; apply H1|unfold wp, put_fs; simpl; apply H2].
Qed.

Lemma wp_fsync_directory p E f k (Φ : res unit → world → Prop) :
  (∀ k, Φ (Ok tt) (World f k)) → (∀ e k, os_exn e → Φ (Raise e) (World f k)) →
  wp (fsync_directory p) E (World f k) Φ.
Proof.
  intros Ho Hr. unfold fsync_directory, open_read. apply wp_bind, wp_bind, wp_sys; [intros k1|done].
  apply wp_bind, wp_get_fs. destruct (stat_node f p) as [n|]; [|by apply wp_throw, Hr].
  apply wp_ret, wp_sys; done.
Qed.

Lemma data_at_none g p : stat_node g p = None → data_at g p = None.
Proof.
  intros H. unfold data_at. destruct (g !! p) as [[d m|m|t|]|] eqn:E; try done.
  by rewrite (stat_file g p d m E) in H.
Qed.
Lemma data_at_stat g p d m :
  opt_is is_link (g !! p) = false → stat_node g p = Some (File d m) → data_at g p = Some d.
Proof.
  intros Hl Hs. unfold data_at. unfold stat_node, MAX_LINKS in Hs. simpl in Hs.
  destruct (g !! p) as [[]|]; simpl in *; try done. by injection Hs as -> _.
Qed.

Lemma wp_is_symlink p E f k (Φ : res bool → world → Prop) :
  (∀ k, Φ (Ok (opt_is is_link (f !! p))) (World f k)) →
  (∀ e k, Φ (Raise e) (World f k)) → wp (is_symlink_p p) E (World f k) Φ.
Proof. intros Ho Hr. unfold is_symlink_p, is_file_p. repeat wp_step; [apply Ho|apply Hr]. Qed.
Lemma wp_is_file p E f k (Φ : res bool → world → Prop) :
  (∀ k, Φ (Ok (opt_is is_reg (stat_node f p))) (World f k)) →
  (∀ e k, Φ (Raise e) (World f k)) → wp (is_file_p p) E (World f k) Φ.
Proof. intros Ho Hr. unfold is_symlink_p, is_file_p. repeat wp_step; [apply Ho|apply Hr]. Qed.
Lemma wp_read_bytes p d m E f k (Φ : res string → world → Prop) :
  stat_node f p = Some (File d m) →
  (∀ k, Φ (Ok d) (World f k)) → (∀ e k, Φ (Raise e) (World f k)) →
  wp (read_bytes p) E (World f k) Φ.
Proof.
  intros Hs Ho Hr. unfold read_bytes, open_read, read_node. repeat wp_step; try apply Hr.
  rewrite Hs. repeat wp_step; [apply Ho|apply Hr].
Qed.
