(* ===== verification/CpaRecords.v ===== *)
(** * Credential records ([cloud/cloudx_cloud/cpa_auth.py], the part without effects)

    How a credential file is read: its tokens in any of the supported layouts, the
    records of a bundle, the authentication a probe uses, and the static reasons for
    which a record is isolated. *)

From S2P Require Import Prelude PyStr PyFloat PyValue PyTime PyJson FS PyBase64 AgentIdentity.

(** [a or b or ... or ""]: the first true value. *)
Fixpoint first_true (l : list json) : json :=
  match l with [] => JStr "" | v :: l => if truthy v then v else first_true l end.
Definition str_first (l : list json) : string := py_str (first_true l).

Definition token_of (k : string) (data : dict) : string :=
  let token := dict_or_empty (dget "token" data) in
  let tokens := dict_or_empty (dget "tokens" data) in
  strip (str_first [dget k data; dget k token; dget k tokens]).

(** [(access, refresh, id)]. *)
Definition auth_tokens (data : dict) : string * string * string :=
  (token_of "access_token" data, token_of "refresh_token" data, token_of "id_token" data).

Definition auth_account_id (data : dict) : string :=
  let token := dict_or_empty (dget "token" data) in
  let tokens := dict_or_empty (dget "tokens" data) in
  strip (str_first [dget "account_id" data; dget "chatgpt_account_id" data;
                    dget "account_id" token; dget "account_id" tokens]).

Definition any_token (t : string * string * string) : bool :=
  let '(a, r, i) := t in (a <>s? "") || (r <>s? "") || (i <>s? "").

Definition BUNDLE_KEYS : list string :=
  ["name"; "platform"; "type"; "extra"; "concurrency"; "priority"; "rate_multiplier";
   "auto_pause_on_expired"].

Definition sub2api_payload (entry : dict) : dict :=
  match dget "credentials" entry with
  | JDict [] => []
  | JDict credentials =>
      let payload := credentials in
      let payload :=
        if truthy (dget "expires_at" payload) && negb (truthy (dget "auth_expires_at" payload))
        then dset "auth_expires_at" (dget "expires_at" payload) (ddel "expires_at" payload)
        else payload in
      let payload := fold_left (λ p k,
        match dlookup k entry with
        | Some v => if dmem k p then p else dset k v p
        | None => p
        end) BUNDLE_KEYS payload in
      let payload :=
        if truthy (dget "chatgpt_account_id" payload) && negb (truthy (dget "account_id" payload))
        then dset "account_id" (dget "chatgpt_account_id" payload) payload else payload in
      let payload :=
        if truthy (dget "name" payload) && negb (truthy (dget "label" payload))
        then dset "label" (dget "name" payload) payload else payload in
      if negb (truthy (dget "email" payload)) then
        let name := strip (str_or_empty (dget "name" entry)) in
        if contains "@" name then dset "email" (JStr name) payload else payload
      else payload
  | _ => []
  end.

Definition has (s : string) : json := JBool (s <>s? "").

Definition bundle_record (source : path) (name : string) (payload : dict) : dict :=
  let '(access_token, refresh_token, id_token) := auth_tokens payload in
  [("path", JStr (path_str source)); ("name", JStr name); ("type", JStr "codex");
   ("label", JStr name); ("email", JStr (strip (str_or_empty (dget "email" payload))));
   ("account_id", JStr (auth_account_id payload)); ("bundle_account", JStr name);
   ("source", JStr "sub2api"); ("codexx_account", JStr ""); ("disabled", JBool false);
   ("has_access_token", has access_token); ("has_refresh_token", has refresh_token);
   ("has_id_token", has id_token);
   ("expires_at", JStr (strip (str_or_empty (dget "auth_expires_at" payload))));
   ("status", JStr "active"); ("reason", JStr "")].

Fixpoint bundle_records (source : path) (index : Z) (accounts : list json) : list (dict * dict) :=
  match accounts with
  | [] => []
  | JDict entry :: accounts =>
      let payload := sub2api_payload entry in
      let rest := bundle_records source (index + 1) accounts in
      if any_token (auth_tokens payload) then
        let name := strip (str_first [dget "name" entry; dget "email" payload;
                                      JStr ("account-" +:+ str_of_Z index)]) in
        (bundle_record source name payload, payload) :: rest
      else rest
  | _ :: accounts => bundle_records source (index + 1) accounts
  end.

(** The expiry a record states. *)
Definition stated_expiry (data : dict) : string :=
  strip (str_first [dget "expired" data; dget "expiry" data; dget "auth_expires_at" data]).

Definition payload_records (source : path) (data : dict) : list (dict * dict) :=
  let records := match dget "accounts" data with
                 | JList accounts => bundle_records source 1 accounts
                 | _ => [] end in
  match records with
  | _ :: _ => records
  | [] =>
      let '(access_token, refresh_token, id_token) := auth_tokens data in
      if negb (any_token (auth_tokens data)) then []
      else
        let name := strip (str_first [dget "codexx_account" data; dget "label" data;
                      dget "email" data; dget "user_email" data; JStr (p_stem source)]) in
        [([("path", JStr (path_str source)); ("name", JStr name);
           ("type", JStr (py_str (py_or (dget "type" data) (JStr "codex"))));
           ("label", JStr (str_or_empty (dget "label" data)));
           ("email", JStr (str_first [dget "email" data; dget "user_email" data]));
           ("account_id", JStr (auth_account_id data));
           ("source", JStr (str_or_empty (dget "source" data)));
           ("codexx_account", JStr (str_or_empty (dget "codexx_account" data)));
           ("disabled", JBool (truthy (dget "disabled" data)));
           ("has_access_token", has access_token); ("has_refresh_token", has refresh_token);
           ("has_id_token", has id_token);
           ("expires_at", JStr (stated_expiry data));
           ("status", JStr "active"); ("reason", JStr "")], data)]
  end.

Definition AUTH_TEXT_KEYS : list string :=
  ["email"; "user_email"; "last_refresh"; "plan_label"; "renews_at"; "plan_expires_at"].

Definition nonempty_items (l : list (string * string)) : dict :=
  map (λ kv, (kv.1, JStr kv.2)) (List.filter (λ kv, kv.2 <>s? "") l).

Definition payload_auth (payload : dict) : dict :=
  let '(access_token, refresh_token, id_token) := auth_tokens payload in
  let tokens := nonempty_items
    [("access_token", access_token); ("refresh_token", refresh_token);
     ("id_token", id_token); ("account_id", auth_account_id payload)] in
  fold_left (λ auth k,
    match dget k payload with
    | JStr v => if strip v =s? "" then auth else dset k (JStr (strip v)) auth
    | _ => auth
    end) AUTH_TEXT_KEYS
    [("auth_mode", JStr "chatgpt"); ("tokens", JDict tokens)].

(** ** The configuration *)

Definition cliproxy (config : dict) : dict := dict_or_empty (dget "cliproxy" config).

Definition configured_path (config : dict) (key : string) : res path :=
  let raw := strip (str_or_empty (dget key (cliproxy config))) in
  if (raw =s? "") || negb (path_of raw).1 then
    raise CpaAuthRejected "CPA credential path is not configured safely"
  else Ok (path_of raw).
Definition configured_auth_dir (config : dict) : res path := configured_path config "auth_dir".
Definition configured_archive_dir (config : dict) : res path := configured_path config "quarantine_dir".

(** [int(text)]: white space, a sign, digits with single underscores between them. *)
Fixpoint int_digits (acc : Z) (after_digit : bool) (s : string) : option Z :=
  match s with
  | EmptyString => if after_digit then Some acc else None
  | String c s =>
      if is_digit c then int_digits (acc * 10 + digit_val c) true s
      else if Ascii.eqb c "_" && after_digit then int_digits acc false s
      else None
  end.
Definition int_of_str (s : string) : option Z :=
  match strip s with
  | String c r =>
      if Ascii.eqb c "-" then option_map Z.opp (int_digits 0 false r)
      else if Ascii.eqb c "+" then int_digits 0 false r
      else int_digits 0 false (String c r)
  | EmptyString => None
  end.
(** [int(v)]. *)
Definition py_int (v : json) : res Z :=
  match v with
  | JInt z => Ok z
  | JBool b => Ok (if b then 1 else 0)
  | JFloat f =>
      match ftrunc f with
      | TInt z => Ok z
      | TNan => raise ValueError "cannot convert float NaN to integer"
      | TInf => raise OverflowError "cannot convert float infinity to integer"
      end
  | JStr s =>
      match int_of_str s with
      | Some z => Ok z
      | None => raise ValueError "invalid literal for int()"
      end
  | _ => raise TypeError "int() argument must be a string or a number"
  end.

Definition failure_confirmations (config : dict) : res Z :=
  match py_int (dget "failure_confirmations" (cliproxy config)) with
  | Ok z => Ok (Z.max 1 z)
  | Raise e =>
      if existsb (λ c, catches c (exn_cls e)) [TypeError; ValueError] then Ok 3 else Raise e
  end.

(** ** Scanning *)

Definition iso_from_epoch (value : json) : string :=
  match to_float value with
  | Some f => match fromtimestamp f with Some t => isoformat t | None => "" end
  | None => ""
  end.

Definition invalid_record (p : path) (type reason : string) : dict :=
  [("path", JStr (path_str p)); ("name", JStr (p_stem p)); ("type", JStr type);
   ("status", JStr "invalid"); ("reason", JStr reason)].

(** [expires_at] of a record: what the file states, else what its tokens claim. *)
Definition record_expiry (data : dict) : string :=
  let '(access_token, _, id_token) := auth_tokens data in
  let stated := stated_expiry data in
  if stated =s? "" then
    str_or (iso_from_epoch (dget "exp" (jwt_claims access_token)))
           (iso_from_epoch (dget "exp" (jwt_claims id_token)))
  else stated.

(** The records of one file: [error] is the reason it could not be read. *)
Definition scan_file (p : path) (data : dict) (error : string) : list dict :=
  if error <>s? "" then [invalid_record p "-" error]
  else
  let bundled := if is_list (dget "accounts" data) then payload_records p data else [] in
  match bundled with
  | _ :: _ => map fst bundled
  | [] =>
      let auth_type := str_lower (strip (str_first [dget "type" data; dget "provider" data])) in
      if (auth_type <>s? "") && (auth_type <>s? "codex") then []
      else
        let identity_mode := is_agent_identity data in
        let valid_identity := if identity_mode then is_valid data else false in
        let shown_type := if auth_type =s? "" then "codex" else auth_type in
        if identity_mode && negb valid_identity then
          [invalid_record p shown_type "invalid-agent-identity"]
        else
          let '(access_token, refresh_token, id_token) := auth_tokens data in
          if negb ((auth_type =s? "codex") || truthy (dget "codexx_account" data) ||
                   any_token (auth_tokens data)) then []
          else
            [[("path", JStr (path_str p));
              ("name", JStr (str_first [dget "codexx_account" data; dget "label" data; JStr (p_stem p)]));
              ("type", JStr shown_type);
              ("label", JStr (str_or_empty (dget "label" data)));
              ("source", JStr (str_or_empty (dget "source" data)));
              ("codexx_account", JStr (str_or_empty (dget "codexx_account" data)));
              ("disabled", JBool (truthy (dget "disabled" data)));
              ("has_access_token", has access_token); ("has_refresh_token", has refresh_token);
              ("has_id_token", has id_token);
              ("has_agent_identity", JBool valid_identity);
              ("expires_at", JStr (record_expiry data));
              ("status", JStr "active"); ("reason", JStr "")]]
  end.

(** Shallow files first, then the path: the record kept for an account. *)
Definition record_path (record : dict) : string := str_or_empty (dget "path" record).
Definition rank (auth_dir : path) (record : dict) : nat * string :=
  let p := path_of (record_path record) in
  (match relative_to p auth_dir with Some r => length r.2 | None => 999%nat end, path_str p).
Definition rank_leb (x y : nat * string) : bool :=
  if Nat.eqb x.1 y.1 then str_leb x.2 y.2 else Nat.ltb x.1 y.1.

Definition record_key (record : dict) : string :=
  let account := strip (str_or_empty (dget "codexx_account" record)) in
  if account <>s? "" then "codexx:" +:+ account else record_path record.

(** The first record of each key. *)
Fixpoint first_by_key (seen : list string) (l : list dict) : list dict :=
  match l with
  | [] => []
  | r :: l =>
      let k := record_key r in
      if mem k seen then first_by_key seen l else r :: first_by_key (k :: seen) l
  end.

Definition dedup_records (auth_dir : path) (records : list dict) : list dict :=
  sort_by (λ x y, str_leb (record_path x) (record_path y))
    (first_by_key [] (sort_by (λ x y, rank_leb (rank auth_dir x) (rank auth_dir y)) records)).

(** ** Static failures *)

(** A time without a zone is taken as UTC. *)
Definition parse_time (raw : json) : option datetime :=
  match raw with
  | JStr s =>
      if strip s =s? "" then None
      else match fromisoformat (z_suffix (strip s)) with
           | None => None
           | Some parsed =>
               match dt_off parsed with
               | None => Some (utc (dt_wall parsed))
               | Some _ => Some parsed
               end
           end
  | _ => None
  end.

(** [now] is the instant in microseconds since the epoch. *)
Definition static_failure_reason (now : Z) (record : dict) : string * bool :=
  if eq_str (dget "status" record) "invalid" then
    (str_first [dget "reason" record; JStr "invalid-auth-json"], true)
  else if truthy (dget "disabled" record) then ("disabled"%string, false)
  else if truthy (dget "has_agent_identity" record) then ("unknown"%string, false)
  else if negb (truthy (dget "has_access_token" record)) &&
          negb (truthy (dget "has_refresh_token" record)) then
    ("missing-refresh-and-access-token"%string, true)
  else
    let expired := match parse_time (dget "expires_at" record) with
                   | Some t => instant_us t <=? now
                   | None => false end in
    if expired && negb (truthy (dget "has_refresh_token" record)) then
      ("expired-without-refresh-token"%string, true)
    else ("unknown"%string, false).

(** * Properties of the credential records

    Which credentials the static checks isolate, and what the deduplication keeps. *)

(** ** Static isolation *)

(** The file holds a bundle of accounts. *)
Definition is_bundle (p : path) (data : dict) : bool :=
  is_list (dget "accounts" data) && negb (bool_decide (payload_records p data = [])).

Definition expired_at (now : Z) (expires_at : string) : bool :=
  match parse_time (JStr expires_at) with Some t => instant_us t <=? now | None => false end.

(** What the static checks take for a credential that cannot be used. *)
Definition unusable (now : Z) (data : dict) : bool :=
  if is_agent_identity data then negb (is_valid data)
  else negb (truthy (dget "disabled" data)) &&
       (token_of "refresh_token" data =s? "") &&
       ((token_of "access_token" data =s? "") || expired_at now (record_expiry data)).

(** The record of a readable file that is no bundle. *)
Lemma scan_single p data r :
  is_bundle p data = false → In r (scan_file p data "") →
  (is_agent_identity data = true ∧ is_valid data = false ∧
     ∃ t, r = invalid_record p t "invalid-agent-identity") ∨
  (dget "status" r = JStr "active" ∧
   dget "disabled" r = JBool (truthy (dget "disabled" data)) ∧
   dget "has_access_token" r = has (token_of "access_token" data) ∧
   dget "has_refresh_token" r = has (token_of "refresh_token" data) ∧
   dget "expires_at" r = JStr (record_expiry data) ∧
   (if is_agent_identity data then is_valid data = true else True) ∧
   dget "has_agent_identity" r = JBool (is_agent_identity data)).
Proof.
  unfold is_bundle, scan_file. intros Hb. simpl negb. cbv iota zeta.
  assert (H0 : (if is_list (dget "accounts" data) then payload_records p data else []) = []).
  { destruct (is_list _); [|done]. simpl in Hb. apply negb_false_iff, bool_decide_eq_true in Hb. done. }
  rewrite H0. match goal with |- In _ (if ?b then [] else _) → _ => destruct b; [done|] end.
  pose proof (eq_refl (auth_tokens data)) as Ht. unfold auth_tokens in Ht at 2. rewrite Ht.
  destruct (is_agent_identity data) eqn:Hi; simpl andb; cbv iota;
    [destruct (is_valid data) eqn:Hv; simpl negb; cbv iota|];
    [|intros [<-|[]]; left; split_and!; try done; by eexists|];
    match goal with |- In _ (if ?b then [] else _) → _ => destruct b; [done|] end;
    intros [<-|[]]; right; by split_and!.
Qed.

(** Scan_auth_records and static_failure_reason isolate for good exactly the
    credentials that cannot be used: an agent identity that does not validate, or, of an
    enabled account, no refresh token and an access token that is missing or expired.  A
    disabled account, a valid identity and a refresh token are never isolated. *)
Theorem static_isolation_exact (p : path) (data r : dict) (now : Z)
    (Hbundle : is_bundle p data = false) (Hr : In r (scan_file p data "")) :
  snd (static_failure_reason now r) = unusable now data.
Proof.
  unfold static_failure_reason, unusable.
  destruct (scan_single p data r Hbundle Hr)
    as [(Hi & Hv & t & ->)|(Hs & Hd & Ha & Hrf & He & Hv & Hi)].
  - by rewrite Hi, Hv.
  - rewrite Hs, Hd, Ha, Hrf, He, Hi. simpl eq_str. cbv iota. simpl truthy.
    destruct (is_agent_identity data).
    + rewrite Hv. by destruct (truthy (dget "disabled" data)).
    + destruct (truthy (dget "disabled" data)); [done|]. unfold has. simpl truthy. cbv iota.
      change (match parse_time (JStr (record_expiry data)) with
              | Some t => instant_us t <=? now | None => false end)
        with (expired_at now (record_expiry data)).
      destruct (token_of "access_token" data =s? ""), (token_of "refresh_token" data =s? ""),
        (expired_at now (record_expiry data)); done.
Qed.

(** An access token alone, with a stated expiry. *)
Definition sample_auth : dict :=
  [("access_token", JStr "tok"); ("expired", JStr "2026-01-01T00:00:00Z")].
Definition sample_auth_record : dict :=
  List.hd [] (scan_file (path_of "/auth/a.json") sample_auth "").

Lemma static_isolation_exact_witness :
  is_bundle (path_of "/auth/a.json") sample_auth = false ∧
  In sample_auth_record (scan_file (path_of "/auth/a.json") sample_auth "") ∧
  snd (static_failure_reason 1800000000000000 sample_auth_record) =
    unusable 1800000000000000 sample_auth.
Proof.
  assert (H : is_bundle (path_of "/auth/a.json") sample_auth = false) by (by vm_compute).
  assert (Hr : In sample_auth_record (scan_file (path_of "/auth/a.json") sample_auth ""))
    by (by left).
  split; [exact H|]. split; [exact Hr|].
  apply (static_isolation_exact (path_of "/auth/a.json") sample_auth sample_auth_record
           1800000000000000 H Hr).
Defined.

(** ** Deduplication *)

Lemma first_by_key_spec (R : dict → dict → Prop) seen l :
  (∀ r, R r r) → StronglySorted R l →
  (∀ r, In r (first_by_key seen l) → In r l ∧ mem (record_key r) seen = false) ∧
  List.NoDup (map record_key (first_by_key seen l)) ∧
  (∀ r, In r l → mem (record_key r) seen = false →
     ∃ r', In r' (first_by_key seen l) ∧ record_key r' = record_key r ∧ R r' r).
Proof.
  intros Hrefl Hs. revert seen. induction Hs as [|a l Hs IH Ha]; intros seen; simpl.
  - split_and!; [done|constructor|done].
  - rewrite List.Forall_forall in Ha. destruct (mem (record_key a) seen) eqn:Hm.
    + destruct (IH seen) as (H1 & H2 & H3). split_and!; [|done|].
      * intros r Hr. destruct (H1 r Hr). auto.
      * intros r [->|Hr] Hk; [congruence|]. by apply H3.
    + destruct (IH (record_key a :: seen)) as (H1 & H2 & H3). split_and!.
      * intros r [->|Hr]; [auto|]. destruct (H1 r Hr) as [Hin Hk]. split; [auto|].
        simpl in Hk. by apply orb_false_iff in Hk as [_ Hk].
      * simpl. constructor; [|done]. intros (r & Hk & Hr)%in_map_iff.
        destruct (H1 r Hr) as [_ Hm']. simpl in Hm'. rewrite Hk, eqs_refl in Hm'. done.
      * intros r [->|Hr] Hk; [exists r; split_and!; [by left|done|apply Hrefl]|].
        destruct (String.eqb (record_key r) (record_key a)) eqn:Heq.
        -- apply String.eqb_eq in Heq. exists a. split_and!; [by left|done|by apply Ha].
        -- destruct (H3 r Hr) as (r' & ? & ? & ?); [|exists r'; split_and!; [by right|done|done]].
           unfold mem in *. simpl. by rewrite Heq.
Qed.

Lemma str_leb_refl s : str_leb s s = true.
Proof. by apply bool_decide_eq_true. Qed.
Lemma str_leb_trans s t u : str_leb s t = true → str_leb t u = true → str_leb s u = true.
Proof. unfold str_leb. rewrite !bool_decide_eq_true. by apply transitivity. Qed.

Lemma rank_leb_refl x : rank_leb x x = true.
Proof. unfold rank_leb. rewrite Nat.eqb_refl. apply str_leb_refl. Qed.
Lemma rank_leb_total x y : rank_leb x y = false → rank_leb y x = true.
Proof.
  unfold rank_leb. destruct (Nat.eqb_spec x.1 y.1) as [->|Hne].
  - rewrite Nat.eqb_refl. apply str_leb_total.
  - intros H%Nat.ltb_ge. destruct (Nat.eqb_spec y.1 x.1); [lia|]. apply Nat.ltb_lt. lia.
Qed.
Lemma rank_leb_trans x y z : rank_leb x y = true → rank_leb y z = true → rank_leb x z = true.
Proof.
  unfold rank_leb.
  destruct (Nat.eqb_spec x.1 y.1) as [E1|E1], (Nat.eqb_spec y.1 z.1) as [E2|E2],
    (Nat.eqb_spec x.1 z.1) as [E3|E3]; try lia; rewrite ?Nat.ltb_lt; try lia.
  apply str_leb_trans.
Qed.

(** The deduplication of scan_auth_records: the records it returns are records it was
    given, in the order of their paths, no two for the same account; and every record it
    was given has, for its account, one that is returned and lies no deeper in the
    credential directory (at the same depth, no later by path). *)
Theorem dedup_records_spec (auth_dir : path) (records : list dict) :
  let out := dedup_records auth_dir records in
  List.NoDup (map record_key out) ∧
  Sorted (λ x y, str_leb (record_path x) (record_path y) = true) out ∧
  (∀ r, In r out → In r records) ∧
  (∀ r, In r records → ∃ r', In r' out ∧ record_key r' = record_key r ∧
     rank_leb (rank auth_dir r') (rank auth_dir r) = true).
Proof.
  cbv zeta. unfold dedup_records.
  set (le := λ x y, rank_leb (rank auth_dir x) (rank auth_dir y)).
  set (ranked := sort_by le records).
  assert (Hs : StronglySorted (λ x y, le x y = true) ranked).
  { apply Sorted_StronglySorted; [intros x y z; apply rank_leb_trans|].
    apply sort_by_sorted. intros x y. apply rank_leb_total. }
  destruct (first_by_key_spec _ [] ranked (λ r, rank_leb_refl _) Hs) as (H1 & H2 & H3).
  split_and!.
  - eapply Permutation_NoDup; [|exact H2]. apply Permutation_map. symmetry. apply sort_by_perm.
  - apply sort_by_sorted. intros x y. apply str_leb_total.
  - intros r Hr%sort_by_In. apply H1 in Hr as [Hr _]. by apply sort_by_In in Hr.
  - intros r Hr. destruct (H3 r) as (r' & Hr' & Hk & Hle); [by apply sort_by_In|done|].
    exists r'. split; [by apply sort_by_In|done].
Qed.
