(* ===== verification/CpaAuth.v ===== *)
(** * Credential files and their quarantine ([cloud/cloudx_cloud/cpa_auth.py])

    Walking the credential directory, reading a credential without following links,
    and the two transactions: a credential is moved to the archive and recorded in its
    manifest, or moved back. *)

From S2P Require Import Prelude PyStr PyFloat PyValue PyRe PyTime PyJson PyBase64 FS Wp.
From S2P Require Import AgentIdentity CpaRecords.

Definition MAX_AUTH_FILE_BYTES : Z := 1024 * 1024.
Definition MAX_AUTH_FILES : nat := 4096.
Definition MAX_MANIFEST_BYTES : Z := 1024 * 1024.
Definition MANIFEST_SCHEMA : string := "cloudx.cpa-quarantine.v1".

Definition rejected_auth {A} (msg : string) : M A := mraise CpaAuthRejected msg.

Definition ensure_real_directory (p : path) (create : bool) : M unit :=
  (if create then mkdir_parents p 448 else ret tt) ;;
  let! info := try_with (lstat p)
    (except [OSError] (λ _, rejected_auth "CPA credential directory is unavailable")) in
  if is_link info || negb (is_dirn info) then
    rejected_auth "CPA credential directory is unsafe"
  else ret tt.

(** ** Walking *)

(** The names of the entries of a directory, sorted. *)
Definition child_name (dir p : path) : option string :=
  if Bool.eqb dir.1 p.1 && bool_decide (dir.2 = List.removelast p.2) && negb (bool_decide (p.2 = []))
  then Some (List.last p.2 "") else None.
Definition child_names (f : fs) (dir : path) : list string :=
  sort_by str_leb (omap (λ kv, child_name dir kv.1) (map_to_list f)).
Definition child (dir : path) (name : string) : path := (dir.1, dir.2 ++ [name]).

Definition is_json_name (name : string) : bool := ends_with ".json" (str_lower name).

(** [os.walk(root, topdown=True, followlinks=False)]: a directory that cannot be
    listed has no entries; links to directories are not followed. *)
Fixpoint walk_json (fuel : nat) (dir : path) : M (list path) :=
  match fuel with
  | O => ret []
  | S fuel =>
      let! names := try_with (sys ;; let! f := get_fs in ret (child_names f dir))
        (except [OSError] (λ _, ret [])) in
      let! f := get_fs in
      let directories := List.filter (λ n, opt_is is_dirn (stat_node f (child dir n))) names in
      let files := List.filter (λ n, negb (opt_is is_dirn (stat_node f (child dir n)))) names in
      let! safe := mmap (λ n,
        let! info := try_with (let! i := lstat (child dir n) in ret (Some i))
                       (except [OSError] (λ _, ret None)) in
        ret (match info with
             | Some i => if is_dirn i && negb (is_link i) then [child dir n] else []
             | None => []
             end)) directories in
      let! deeper := mmap (walk_json fuel) (List.concat safe) in
      ret (map (child dir) (List.filter is_json_name files) ++ List.concat deeper)
  end.

Definition iter_json_files (root : path) : M (list path) :=
  let! present := exists_p root in
  if negb present then ret [] else
  ensure_real_directory root false ;;
  let! f := get_fs in
  let! files := walk_json (S (size f)) root in
  if Nat.ltb MAX_AUTH_FILES (length files)
  then rejected_auth "CPA credential file count exceeds the safety limit"
  else ret files.

(** ** Reading *)

Definition unreadable : M (dict * string) := ret ([], "auth-file-unreadable"%string).

Definition read_auth_json (p : path) : M (dict * string) :=
  let! descriptor := try_with (let! n := open_nofollow p in ret (Some n))
                       (except [OSError] (λ _, ret None)) in
  match descriptor with
  | None => unreadable
  | Some n =>
      let! raw := try_with
        (let! info := fstat n in
         if negb (is_reg info) then ret (inr "auth-file-not-regular"%string)
         else if MAX_AUTH_FILE_BYTES <? node_size info then ret (inr "auth-file-too-large"%string)
         else let! raw := read_node n in ret (inl (str_take_z (MAX_AUTH_FILE_BYTES + 1) raw)))
        (except [OSError] (λ _, ret (inr "auth-file-unreadable"%string))) in
      match raw with
      | inr error => ret ([], error)
      | inl raw =>
          if MAX_AUTH_FILE_BYTES <? str_len raw then ret ([], "auth-file-too-large"%string)
          else match loads_bytes raw with
               | Raise _ => ret ([], "invalid-auth-json"%string)
               | Ok (JDict payload) => ret (payload, ""%string)
               | Ok _ => ret ([], "auth-json-not-object"%string)
               end
      end
  end.

Record context := Context_ {
  ctx_proxy_account : string; ctx_state_key : string; ctx_path : path;
  ctx_record : dict; ctx_payload : dict }.

(** The contexts of one file; [index] counts its records from 1. *)
Fixpoint file_contexts (account : string) (p auth_dir : path) (index : Z)
    (l : list (dict * dict)) : list context :=
  match l with
  | [] => []
  | (record, payload) :: l =>
      let selector := py_str (py_or (dget "bundle_account" record)
                                (py_or (dget "name" record) (JInt index))) in
      match relative_to p auth_dir with
      | Some relative =>
          Context_ account
            ("cliproxy:" +:+ account +:+ ":" +:+ path_str relative +:+ "#" +:+ selector)
            p record payload :: file_contexts account p auth_dir (index + 1) l
      | None => file_contexts account p auth_dir (index + 1) l
      end
  end.

Definition auth_contexts (config : dict) (proxy_account : string) : M (list context) :=
  let configured_account :=
    str_or (strip (str_first [dget "account_name" (cliproxy config); JStr "api"])) "api" in
  if (proxy_account <>s? "") && (proxy_account <>s? configured_account) then ret [] else
  let! auth_dir := lift (configured_auth_dir config) in
  let! paths := iter_json_files auth_dir in
  let! contexts := mmap (λ p,
    let! (data, error) := read_auth_json p in
    ret (if error <>s? "" then []
         else file_contexts configured_account p auth_dir 1 (payload_records p data))) paths in
  ret (sort_by (λ x y, str_leb (ctx_state_key x) (ctx_state_key y)) (List.concat contexts)).

Definition scan_auth_records (config : dict) : M (list dict) :=
  let! auth_dir := lift (configured_auth_dir config) in
  let! paths := iter_json_files auth_dir in
  let! records := mmap (λ p,
    let! (data, error) := read_auth_json p in ret (scan_file p data error)) paths in
  ret (dedup_records auth_dir (List.concat records)).

(** ** The manifest *)

(** [_atomic_write_json]: the temporary file is removed in every case, an error of
    the removal is ignored. *)
Definition state_text (payload : dict) : string :=
  dumps (st_pretty 2 true false) (JDict payload) +:+ LF.
Definition atomic_write_json (p : path) (payload : dict) : M unit :=
  mkdir_parents (p_parent p) 448 ;;
  let! temporary := mkstemp ("." +:+ p_name p +:+ ".") (p_parent p) in
  finally
    (write_file temporary (state_text payload) ;; fsync ;; sys ;;
     chmod temporary 384 ;;
     replace temporary p ;;
     fsync_directory (p_parent p))
    (ignore_oserror (unlink temporary)).

Definition invalid_manifest {A} : M A := rejected_auth "CPA quarantine manifest is invalid".

Definition read_private_json (p : path) (strict : bool) : M dict :=
  let! present := exists_p p in
  if negb present then ret [] else
  let! payload := try_with
    (let! info := lstat p in
     if is_link info || negb (is_reg info) then oserror "unsafe private state"
     else if MAX_MANIFEST_BYTES <? node_size info then oserror "private state too large"
     else let! text := read_text p in let! v := lift (loads text) in ret (Some v))
    (except [OSError; JSONDecodeError] (λ _,
       if strict then invalid_manifest else ret None)) in
  match payload with
  | None => ret []
  | Some (JDict d) => ret d
  | Some _ => if strict then invalid_manifest else ret []
  end.

Definition MANIFEST_NAME : string := "manifest.json".
Definition LOCK_NAME : string := ".quarantine.lock".

Definition setdefault (k : string) (v : json) (d : dict) : dict := if dmem k d then d else dset k v d.

Definition manifest_of (archive_dir : path) : M dict :=
  let p := child archive_dir MANIFEST_NAME in
  let! present := exists_p p in
  if negb present then ret [("schema", JStr MANIFEST_SCHEMA); ("entries", JList [])] else
  let! payload := read_private_json p true in
  match dget "entries" payload with
  | JList _ => ret (setdefault "schema" (JStr MANIFEST_SCHEMA) payload)
  | _ => invalid_manifest
  end.

Definition quarantine_lock (archive_dir : path) : M unit :=
  ensure_real_directory archive_dir true ;;
  chmod archive_dir 448 ;;
  open_append (child archive_dir LOCK_NAME) ;;
  chmod (child archive_dir LOCK_NAME) 384 ;;
  sys (* flock *).

(** [path.resolve(strict=True)] where only the last part may be a link. *)
Definition resolve (p : path) : M path :=
  sys ;; let! f := get_fs in
  match follow MAX_LINKS f p with Some (q, _) => ret q | None => missing end.

Definition contained_relative (p root : path) : M path :=
  let! info := try_with (lstat p)
    (except [OSError] (λ _, rejected_auth "CPA credential file is unavailable")) in
  if is_link info || negb (is_reg info) then rejected_auth "CPA credential file is unsafe" else
  try_with
    (let! real := resolve p in
     let! real_root := resolve root in
     match relative_to real real_root with
     | Some relative => ret relative
     | None => mraise ValueError "is not in the subpath"
     end)
    (except [OSError; ValueError]
       (λ _, rejected_auth "CPA credential file is outside the configured directory")).

Definition reason_char (c : ascii) : bool := is_lower c || is_digit c || one_of "._-" c.
Definition safe_reason (reason : string) : string :=
  let value := str_lower (strip reason) in
  if re_fullmatch (RBetween 1 127 (RChar reason_char)) value then value else "unspecified".

Definition archive_candidate (archive_dir source : path) (index : Z) : path :=
  child archive_dir (p_stem source +:+ "." +:+ str_of_Z index +:+ p_suffix source).
Definition reserved (p : path) : bool := mem (p_name p) [MANIFEST_NAME; LOCK_NAME].

Fixpoint unique_search (fuel : nat) (archive_dir source : path) (index : Z) : M path :=
  match fuel with
  | O => mraise RuntimeError "search exhausted"
  | S fuel =>
      let candidate := archive_candidate archive_dir source index in
      let! taken := (if reserved candidate then ret true else exists_p candidate) in
      if taken then unique_search fuel archive_dir source (index + 1) else ret candidate
  end.
Definition unique_archive_path (archive_dir source : path) : M path :=
  let target := child archive_dir (p_name source) in
  let! taken := (if reserved target then ret true else exists_p target) in
  if taken then
    let! f := get_fs in unique_search (size f + 3) archive_dir source 2
  else ret target.

(** ** Quarantine *)

Definition entries_of (manifest : dict) : list json := list_or_empty (dget "entries" manifest).

Definition quarantine_entry (relative target : path) (reason moved_at : string) : json :=
  JDict [("source_relative", JStr (path_str relative));
         ("quarantine_name", JStr (p_name target));
         ("reason", JStr (safe_reason reason));
         ("moved_at", JStr moved_at)].

(** Undo a move after the manifest could not be written. *)
Definition undo_move (target source dir1 dir2 : path) (failed restored : string) : M unit :=
  try_with (replace target source ;; fsync_directory dir1 ;; fsync_directory dir2)
    (except [OSError] (λ _, rejected_auth failed)) ;;
  rejected_auth restored.

Definition quarantine_auth_record (config record : dict) (reason moved_at : string) : M dict :=
  let! auth_dir := lift (configured_auth_dir config) in
  let! archive_dir := lift (configured_archive_dir config) in
  let source := path_of (record_path record) in
  ensure_real_directory auth_dir false ;;
  let! relative := contained_relative source auth_dir in
  quarantine_lock archive_dir ;;
  let! d1 := st_dev source in
  let! d2 := st_dev archive_dir in
  if negb (d1 =? d2) then rejected_auth "CPA quarantine requires one filesystem" else
  let! manifest := manifest_of archive_dir in
  let! target := unique_archive_path archive_dir source in
  replace source target ;;
  chmod target 384 ;;
  fsync_directory (p_parent source) ;;
  fsync_directory archive_dir ;;
  let entry := quarantine_entry relative target reason moved_at in
  let manifest := dset "entries" (JList (entries_of manifest ++ [entry])) manifest in
  try_with (atomic_write_json (child archive_dir MANIFEST_NAME) manifest)
    (except [OSError] (λ _,
       undo_move target source (p_parent source) archive_dir
         "CPA quarantine transaction and rollback failed"
         "CPA quarantine manifest write failed; credential was restored")) ;;
  ret (dset "reason" (JStr (safe_reason reason))
        (dset "moved_from" (JStr (path_str source))
          (dset "path" (JStr (path_str target)) record))).

(** ** Refresh *)

(** The bookkeeping of one record: its entry in the state, and whether it is kept. *)
Definition entry_of (accounts_state : dict) (key : string) : dict :=
  match dget key accounts_state with JDict e => e | _ => [] end.

Record refresh_state := RefreshState {
  rs_accounts : dict; rs_active : list json; rs_actions : list json }.

Definition refresh_record (config : dict) (confirmations : Z) (now : string) (apply : bool)
    (s : refresh_state) (record : dict) : M refresh_state :=
  let! us := now_us in
  let '(reason, permanent) := static_failure_reason us record in
  let key := str_first [dget "path" record; dget "name" record] in
  let entry := entry_of (rs_accounts s) key in
  let store e := dset key (JDict e) (rs_accounts s) in
  if mem reason ["unknown"; "disabled"] then
    ret (RefreshState
      (store (dset "last_reason" (JStr reason) (dset "failure_count" (JInt 0) entry)))
      (rs_active s ++ [JDict (dset "refresh_status" (JStr reason) record)])
      (rs_actions s))
  else
    let! failure_count :=
      (if permanent then ret confirmations
       else let! c := lift (py_int (py_or (dget "failure_count" entry) (JInt 0))) in ret (c + 1)) in
    let entry := dset "last_failed_at" (JStr now)
                   (dset "last_reason" (JStr reason)
                     (dset "failure_count" (JInt failure_count) entry)) in
    let eligible := permanent || (confirmations <=? failure_count) in
    let action := dset "failure_count" (JInt failure_count)
      (dset "reason" (JStr reason)
        (dset "refresh_status" (JStr (if eligible then "quarantine" else "pending")) record)) in
    let! action :=
      (if eligible && apply then
         let! moved := quarantine_auth_record config record reason now in
         ret (dset "moved_from" (dget "moved_from" moved) (dset "path" (dget "path" moved) action))
       else ret action) in
    ret (RefreshState (store entry) (rs_active s) (rs_actions s ++ [JDict action])).

Definition refresh_state_path (global_config_path : option path) : path :=
  match global_config_path with
  | Some p => child (p_parent p) "cliproxy-refresh.json"
  | None => path_of "/var/lib/cloudx/cpa-health/cliproxy-refresh.json"
  end.

Definition iso_now : M string := let! us := now_us in ret (isoformat (utc (EPOCH_US + us))).

Definition refresh_auth_accounts (config : dict) (global_config_path : option path) (apply : bool)
    : M dict :=
  let! records := scan_auth_records config in
  let state_path := refresh_state_path global_config_path in
  let! state := read_private_json state_path false in
  let accounts_state := dict_or_empty (dget "accounts" state) in
  let! confirmations := lift (failure_confirmations config) in
  let! now := iso_now in
  let! s := mfold (refresh_record config confirmations now apply)
              (RefreshState accounts_state [] []) records in
  (if apply then atomic_write_json state_path (dset "accounts" (JDict (rs_accounts s)) state)
   else ret tt) ;;
  let! archive_dir := lift (configured_archive_dir config) in
  ret [("apply", JBool apply); ("active", JList (rs_active s)); ("actions", JList (rs_actions s));
       ("auth_count", JInt (Z.of_nat (length records)));
       ("quarantine_dir", JStr (path_str archive_dir)); ("state_path", JStr (path_str state_path))].

(** ** Restore *)

Definition legacy_entry_paths (entry : dict) (auth_dir archive_dir : path) : res (path * path) :=
  if truthy (dget "source_relative" entry) && truthy (dget "quarantine_name" entry) then
    let relative := path_of (str_or_empty (dget "source_relative" entry)) in
    if relative.1 || bool_decide (relative.2 = []) || mem ".." relative.2 then
      raise CpaAuthRejected "CPA quarantine manifest is invalid"
    else
      let raw := str_or_empty (dget "quarantine_name" entry) in
      if p_name (path_of raw) <>s? raw then raise CpaAuthRejected "CPA quarantine manifest is invalid"
      else Ok ((auth_dir.1, auth_dir.2 ++ relative.2), path_join archive_dir raw)
  else
    let source := path_of (str_or_empty (dget "source_path" entry)) in
    let quarantine := path_of (str_or_empty (dget "quarantine_path" entry)) in
    match relative_to source auth_dir, relative_to quarantine archive_dir with
    | Some _, Some _ => Ok (source, quarantine)
    | _, _ => raise CpaAuthRejected "CPA quarantine manifest is invalid"
    end.

(** The positions of the entries the selector names. *)
Definition entry_matches (selector : string) (entry : dict) (source : path) : bool :=
  (selector <>s? "") &&
  mem selector [p_name source; str_or_empty (dget "account" entry);
                str_or_empty (dget "codexx_account" entry)].

Fixpoint restore_matches (selector : string) (auth_dir archive_dir : path) (index : nat)
    (entries : list json) : res (list (nat * dict)) :=
  match entries with
  | [] => Ok []
  | JDict entry :: entries =>
      let* (_, source) := legacy_entry_paths entry auth_dir archive_dir in
      let* rest := restore_matches selector auth_dir archive_dir (S index) entries in
      Ok (if entry_matches selector entry source then (index, entry) :: rest else rest)
  | _ :: _ => raise CpaAuthRejected "CPA quarantine manifest is invalid"
  end.

Definition restore_quarantined_auth (config : dict) (selector : string) : M dict :=
  let! auth_dir := lift (configured_auth_dir config) in
  let! archive_dir := lift (configured_archive_dir config) in
  ensure_real_directory auth_dir false ;;
  quarantine_lock archive_dir ;;
  let! manifest := manifest_of archive_dir in
  let entries := entries_of manifest in
  let! matches := lift (restore_matches selector auth_dir archive_dir 0 entries) in
  match matches with
  | [(selected_index, selected)] =>
      let! (target, source) := lift (legacy_entry_paths selected auth_dir archive_dir) in
      let! relative := contained_relative source archive_dir in
      if p_name relative <>s? p_name source then invalid_manifest else
      let! parent_ok := is_dir_p (p_parent target) in
      let! present := (if negb parent_ok then ret true else exists_p target) in
      if present then rejected_auth "CPA restore target is unavailable" else
      let! d1 := st_dev source in
      let! d2 := st_dev (p_parent target) in
      if negb (d1 =? d2) then rejected_auth "CPA restore requires one filesystem" else
      replace source target ;;
      chmod target 384 ;;
      fsync_directory (p_parent source) ;;
      fsync_directory (p_parent target) ;;
      let manifest := dset "entries"
        (JList (take selected_index entries ++ drop (S selected_index) entries)) manifest in
      try_with (atomic_write_json (child archive_dir MANIFEST_NAME) manifest)
        (except [OSError] (λ _,
           undo_move target source (p_parent source) (p_parent target)
             "CPA restore transaction and rollback failed"
             "CPA restore manifest write failed; credential remained quarantined")) ;;
      ret [("restored", JStr (path_str target)); ("quarantine_name", JStr (p_name source))]
  | _ => rejected_auth "CPA quarantine selector did not match exactly one entry"
  end.
