(* ===== verification/JsonRoundTrip.v ===== *)
(** * What [json.dumps] prints, [json.loads] reads

    For values without floats whose strings are ASCII and whose objects have distinct
    keys, in every style of the program.  With [sort_keys] the objects come back with
    their keys in order ([reorder]). *)

From S2P Require Import Prelude PyStr PyFloat PyValue PyJson PyBase64.

(** ** Values *)

Fixpoint plain (v : json) : bool :=
  match v with
  | JFloat _ => false
  | JStr s => is_ascii s
  | JList l => forallb plain l
  | JDict d =>
      bool_decide (NoDup (map fst d)) && forallb (λ kv, is_ascii kv.1 && plain kv.2) d
  | _ => true
  end.

Fixpoint reorder (sort : bool) (v : json) : json :=
  match v with
  | JList l => JList (map (reorder sort) l)
  | JDict d =>
      let d := map (λ kv, (kv.1, reorder sort kv.2)) d in
      JDict (if sort then sort_items d else d)
  | v => v
  end.

(** ** Integers *)

Definition digits (s : string) : bool := str_forall is_digit s.

Lemma digits_val_app s : ∀ t acc, digits_val acc (s +:+ t) = digits_val (digits_val acc s) t.
Proof. induction s as [|c s IH]; intros t acc; simpl; [done|apply IH]. Qed.

Lemma pretty_N_char_digit n :
  (n < 10)%N → is_digit (pretty_N_char n) = true ∧ digit_val (pretty_N_char n) = Z.of_N n.
Proof.
  intros Hn.
  assert (n = 0 ∨ n = 1 ∨ n = 2 ∨ n = 3 ∨ n = 4 ∨ n = 5 ∨ n = 6 ∨ n = 7 ∨ n = 8 ∨ n = 9)%N
    as H by lia.
  by repeat (destruct H as [->|H]; [done|]); subst.
Qed.

Lemma pretty_N_char_zero n : (n < 10)%N → pretty_N_char n = "0"%char → n = 0%N.
Proof.
  intros Hn H. apply pretty_N_char_digit in Hn as [_ Hv]. rewrite H in Hv.
  unfold digit_val in Hv. change (ord "0") with 48%nat in Hv. lia.
Qed.

(** A positive number prints as a run of digits, not starting with 0, of its value. *)
Lemma pretty_N_go_digits x :
  (0 < x)%N → ∃ c ds, ∀ s, pretty_N_go x s = String c ds +:+ s ∧
    is_digit c = true ∧ c ≠ "0"%char ∧ digits ds = true ∧ digits_val 0 (String c ds) = Z.of_N x.
Proof.
  induction (N.lt_wf_0 x) as [x _ IH]. intros Hx.
  assert (Hm : (x `mod` 10 < 10)%N) by (apply N.mod_lt; lia).
  destruct (pretty_N_char_digit _ Hm) as [Hd Hv].
  assert (Hz : Z.of_N x = Z.of_N (x `div` 10) * 10 + Z.of_N (x `mod` 10)).
  { pose proof (N.div_mod x 10). lia. }
  destruct (decide (0 < x `div` 10)%N) as [Hq|Hq].
  - destruct (IH (x `div` 10)%N) as (c & ds & H); [apply N.div_lt; lia|done|].
    exists c, (ds +:+ String (pretty_N_char (x `mod` 10)) "").
    intros s. rewrite pretty_N_go_step by done.
    destruct (H (String (pretty_N_char (x `mod` 10)) s)) as (Hgo & Hc & Hc0 & Hds & Hval).
    split_and!; [|done|done| |].
    + rewrite Hgo. simpl. apply (f_equal (String c)). by rewrite str_app_assoc.
    + unfold digits in *. rewrite str_forall_app, Hds. simpl. by rewrite Hd.
    + change (String c (ds +:+ String (pretty_N_char (x `mod` 10)) ""))
        with (String c ds +:+ String (pretty_N_char (x `mod` 10)) "").
      rewrite digits_val_app, Hval. cbn [digits_val]. rewrite Hv. lia.
  - assert (x `div` 10 = 0)%N as Hq0 by lia.
    exists (pretty_N_char (x `mod` 10)), "". intros s. rewrite pretty_N_go_step by done.
    rewrite Hq0, pretty_N_go_0. split_and!; [done|done| |done|].
    + intros H0. apply pretty_N_char_zero in H0; [|done]. rewrite Hq0 in Hz. lia.
    + cbn [digits_val]. rewrite Hv. rewrite Hq0 in Hz. lia.
Qed.

(** What may follow a number. *)
Definition stops (k : string) : Prop :=
  match k with
  | EmptyString => True
  | String c _ => is_digit c = false ∧ c ≠ "."%char ∧ c ≠ "e"%char ∧ c ≠ "E"%char
  end.

Lemma span_digits_app ds k :
  digits ds = true → stops k → span_digits (ds +:+ k) = (ds, k).
Proof.
  induction ds as [|c ds IH]; simpl.
  - intros _ Hk. destruct k as [|c k]; [done|]. simpl. destruct Hk as [Hk _]. by rewrite Hk.
  - unfold digits in *. simpl. rewrite andb_true_iff. intros [Hc Hds] Hk.
    rewrite Hc. by rewrite IH.
Qed.

Lemma scan_frac_stops k : stops k → scan_frac k = (None, k).
Proof.
  destruct k as [|x k]; [done|]. intros (_ & Hdot & _). simpl.
  by rewrite (proj2 (Ascii.eqb_neq _ _)).
Qed.
Lemma scan_exp_stops k : stops k → scan_exp k = (None, k).
Proof.
  destruct k as [|x k]; [done|]. intros (_ & _ & He & HE). unfold scan_exp.
  by rewrite (proj2 (Ascii.eqb_neq _ _) He), (proj2 (Ascii.eqb_neq _ _) HE).
Qed.
Lemma scan_int_part_digits c ds k :
  is_digit c = true → (c = "0"%char → ds = "") → digits ds = true → stops k →
  scan_int_part (String c ds +:+ k) = Some (String c ds, k).
Proof.
  intros Hc H0 Hds Hk. unfold scan_int_part. change (String c ds +:+ k) with (String c (ds +:+ k)).
  destruct (decide (c = "0"%char)) as [->|Hne].
  - by rewrite H0.
  - rewrite (proj2 (Ascii.eqb_neq c "0") Hne), Hc. f_equal. apply (span_digits_app (String c ds)); [|done].
    unfold digits in *. simpl. by rewrite Hc.
Qed.

Lemma scan_number_int (neg : bool) c ds k :
  is_digit c = true → (c = "0"%char → ds = "") → digits ds = true → stops k →
  scan_number ((if neg then "-" else "") +:+ String c ds +:+ k) =
    Some (JInt (if neg then - digits_val 0 (String c ds) else digits_val 0 (String c ds)), k).
Proof.
  intros Hc H0 Hds Hk. unfold scan_number.
  assert (scan_sign ((if neg then "-" else "") +:+ String c ds +:+ k) = (neg, String c ds +:+ k)) as ->.
  { destruct neg; simpl; [done|]. by rewrite (proj2 (Ascii.eqb_neq c "-")) by (by intros ->). }
  by rewrite scan_int_part_digits, scan_frac_stops, scan_exp_stops.
Qed.

Lemma str_of_Z_shape z :
  ∃ (neg : bool) c ds, str_of_Z z = (if neg then "-" else "") +:+ String c ds ∧
    is_digit c = true ∧ (c = "0"%char → ds = "") ∧ digits ds = true ∧
    (if neg then - digits_val 0 (String c ds) else digits_val 0 (String c ds)) = z.
Proof.
  unfold str_of_Z, pretty, pretty_Z. destruct z as [|p|p].
  - by exists false, "0"%char, "".
  - unfold pretty, pretty_positive, pretty, pretty_N. rewrite decide_False by done.
    destruct (pretty_N_go_digits (N.pos p)) as (c & ds & H); [lia|].
    destruct (H "") as (-> & ? & ? & ? & Hv). exists false, c, ds.
    rewrite str_app_nil_r. split_and!; done.
  - unfold pretty, pretty_positive, pretty, pretty_N. rewrite decide_False by done.
    destruct (pretty_N_go_digits (N.pos p)) as (c & ds & H); [lia|].
    destruct (H "") as (-> & ? & ? & ? & Hv). exists true, c, ds.
    rewrite str_app_nil_r. split_and!; [done..|]. rewrite Hv. done.
Qed.

Lemma scan_number_Z z k : stops k → scan_number (str_of_Z z +:+ k) = Some (JInt z, k).
Proof.
  intros Hk. destruct (str_of_Z_shape z) as (neg & c & ds & -> & Hc & H0 & Hds & Hv).
  rewrite str_app_assoc. rewrite scan_number_int by done. by rewrite Hv.
Qed.

(** ** Strings *)

Definition ascii_char (c : ascii) : bool := Nat.ltb (ord c) 128.

Lemma code_points_ascii s :
  is_ascii s = true → code_points s = map (λ c, Z.of_nat (ord c)) (chars s).
Proof.
  unfold is_ascii. induction s as [|c s IH]; [done|]. simpl str_forall.
  rewrite andb_true_iff. intros [Hc Hs]. apply Nat.ltb_lt in Hc.
  simpl code_points. simpl chars. simpl map. destruct s as [|d s']; [done|].
  rewrite (proj2 (Z.ltb_lt _ _)) by lia. by rewrite <- IH.
Qed.

Lemma scan_string_char asc c fuel t :
  ascii_char c = true →
  scan_string (S fuel) (escape_cp asc (Z.of_nat (ord c)) +:+ t) =
    let? (r, k) := scan_string fuel t in Some (String c r, k).
Proof. by destruct asc, c as [[][][][][][][][]]. Qed.

Lemma escape_cp_length asc c :
  ascii_char c = true → (1 <= String.length (escape_cp asc (Z.of_nat (ord c))))%nat.
Proof. destruct asc, c as [[][][][][][][][]]; intros; vm_compute; lia. Qed.

Definition escaped (asc : bool) (s : string) : string :=
  foldr (λ c acc, escape_cp asc c +:+ acc) "" (map (λ c, Z.of_nat (ord c)) (chars s)).


Lemma escaped_length asc s : is_ascii s = true → (String.length s <= String.length (escaped asc s))%nat.
Proof.
  unfold is_ascii, escaped. induction s as [|c s IH]; simpl; [lia|].
  rewrite andb_true_iff. intros [Hc Hs]. rewrite str_length_app.
  pose proof (escape_cp_length asc c Hc). specialize (IH Hs). lia.
Qed.

Lemma scan_string_escaped asc s k fuel :
  is_ascii s = true → (String.length s < fuel)%nat →
  scan_string fuel (escaped asc s +:+ QUOTE +:+ k) = Some (s, k).
Proof.
  unfold is_ascii, escaped. revert fuel. induction s as [|c s IH]; intros fuel.
  - intros _ Hf. destruct fuel; [simpl in Hf; lia|]. done.
  - simpl str_forall. rewrite andb_true_iff. intros [Hc Hs] Hf. simpl in Hf.
    destruct fuel as [|fuel]; [lia|].
    simpl chars. simpl map. simpl foldr. rewrite str_app_assoc.
    rewrite scan_string_char by done. rewrite IH; [done|done|lia].
Qed.

Lemma dumps_str_eq asc s :
  is_ascii s = true → dumps_str asc s = QUOTE +:+ escaped asc s +:+ QUOTE.
Proof. intros H. unfold dumps_str, escaped. by rewrite code_points_ascii. Qed.

Lemma scan_dumps_str asc s k fuel :
  is_ascii s = true → scan (S fuel) (dumps_str asc s +:+ k) = Some (JStr s, k).
Proof.
  intros Hs. rewrite dumps_str_eq by done. rewrite !str_app_assoc.
  change (QUOTE +:+ escaped asc s +:+ QUOTE +:+ k)
    with (String (ascii_of_nat 34) (escaped asc s +:+ QUOTE +:+ k)).
  cbn [scan]. change (ord (ascii_of_nat 34)) with 34%nat. cbv iota.
  rewrite scan_string_escaped; [done|done|].
  rewrite str_length_app. pose proof (escaped_length asc s Hs). lia.
Qed.

(** ** Numbers among the other values *)

Lemma digit_cases c : is_digit c = true → In c (chars "0123456789").
Proof. by destruct c as [[][][][][][][][]]; vm_compute; auto 20. Qed.

Lemma scan_dispatch_number c t fuel r :
  is_digit c = true ∨ c = "-"%char →
  scan_number (String c t) = Some r → scan (S fuel) (String c t) = Some r.
Proof.
  intros Hc Hr.
  assert (Hin : In c (chars "-0123456789")).
  { destruct Hc as [Hc%digit_cases| ->]; [by right|by left]. }
  simpl in Hin. repeat destruct Hin as [<-|Hin]; try done; simpl; by rewrite Hr.
Qed.

Lemma scan_dumps_int z k fuel : stops k → scan (S fuel) (str_of_Z z +:+ k) = Some (JInt z, k).
Proof.
  intros Hk. pose proof (scan_number_Z z k Hk) as Hn.
  destruct (str_of_Z_shape z) as (neg & c & ds & Hz & Hc & _).
  rewrite Hz in *. destruct neg; apply scan_dispatch_number; try done; [by right|by left].
Qed.

(** ** Whole values *)

(** A separator: its mark, then white space. *)
Definition sep_ok (c : ascii) (s : string) : Prop :=
  ∃ w, s = String c w ∧ str_forall is_ws w = true.
Definition good_style (st : style) : Prop := sep_ok "," (st_item st) ∧ sep_ok ":" (st_key st).

Lemma good_default a b : good_style (st_default a b).
Proof. split; eexists; done. Qed.
Lemma good_pretty n a b : good_style (st_pretty n a b).
Proof. split; eexists; done. Qed.
Lemma good_compact a b : good_style (st_compact a b).
Proof. split; eexists; done. Qed.

(** A text that white space is not skipped from, and that closes nothing. *)
Definition starts_value (s : string) : Prop :=
  match s with
  | EmptyString => False
  | String c _ => is_ws c = false ∧ c ≠ "]"%char ∧ c ≠ "}"%char
  end.

Lemma skip_ws_app w s : str_forall is_ws w = true → skip_ws (w +:+ s) = skip_ws s.
Proof.
  unfold skip_ws. induction w as [|c w IH]; simpl; [done|].
  rewrite andb_true_iff. intros [Hc Hw]. rewrite Hc. auto.
Qed.
Lemma skip_ws_stop c s : is_ws c = false → skip_ws (String c s) = String c s.
Proof. intros H. unfold skip_ws. simpl. by rewrite H. Qed.
Lemma skip_ws_value s t : starts_value s → skip_ws (s +:+ t) = s +:+ t.
Proof. destruct s as [|c s]; [done|]. intros (H & _). by apply skip_ws_stop. Qed.

Lemma spaces_ws n : str_forall is_ws (spaces n) = true.
Proof. by induction n. Qed.
Lemma newline_ws st n : str_forall is_ws (newline_at st n) = true.
Proof. unfold newline_at. destruct (st_indent st); [|done]. simpl. apply spaces_ws. Qed.

Lemma stops_ws w c k :
  str_forall is_ws w = true → stops (String c k) → stops (w +:+ String c k).
Proof.
  destruct w as [|d w]; [done|]. simpl. rewrite andb_true_iff. intros [Hd _] _.
  by destruct d as [[][][][][][][][]].
Qed.

Lemma dumps_str_starts asc s : is_ascii s = true → starts_value (dumps_str asc s).
Proof. intros Hs. rewrite (dumps_str_eq asc s Hs). done. Qed.

Lemma dumps_starts st lvl v : plain v = true → starts_value (dumps_at st lvl v).
Proof.
  destruct v as [|[]|z|f|s|l|d]; simpl; try done.
  - intros _. destruct (str_of_Z_shape z) as (neg & c & ds & -> & Hc & _).
    destruct neg; simpl; [done|]. by destruct c as [[][][][][][][][]].
  - intros _. unfold enclose. by destruct (map _ l).
  - intros _. unfold enclose. by case_match.
Qed.

(** What reading a text gives, whatever follows it. *)
Definition reads (text : string) (v : json) : Prop :=
  starts_value text ∧
  ∀ k fuel, stops k → (String.length text <= fuel)%nat → scan fuel (text +:+ k) = Some (v, k).

Section lists.
Context (sep close_ws : string) (Hsep : sep_ok "," sep) (Hclose : str_forall is_ws close_ws = true).

Lemma stops_sep t : stops (sep +:+ t).
Proof. destruct Hsep as (w & -> & _). done. Qed.

Lemma scan_items_spec texts vs k fuel :
  Forall2 reads texts vs → texts ≠ [] →
  (String.length (str_join sep texts) + 1 <= fuel)%nat →
  scan_items fuel (str_join sep texts +:+ close_ws +:+ String "]" k) = Some (vs, k).
Proof.
  intros H. revert fuel. induction H as [|t v texts vs [Hst Ht] H IH]; [done|].
  intros fuel _ Hf. destruct fuel as [|fuel]; [lia|].
  destruct texts as [|t' texts].
  - inversion H; subst. simpl str_join in *. cbn [scan_items].
    rewrite Ht; [|by apply stops_ws|lia].
    by rewrite skip_ws_app by done.
  - change (str_join sep (t :: t' :: texts)) with (t +:+ sep +:+ str_join sep (t' :: texts)) in *.
    rewrite !str_length_app in Hf. rewrite !str_app_assoc. cbn [scan_items].
    rewrite Ht; [|apply stops_sep|lia].
    inversion H as [|? v' ? vs' [Hst' _] _]; subst.
    specialize (IH fuel ltac:(done)).
    set (rest := str_join sep (t' :: texts)) in *.
    assert (Hrest : starts_value rest).
    { unfold rest. simpl. destruct texts; [done|]. by destruct t'. }
    destruct Hsep as (w & Hw & Hws). rewrite Hw in *. simpl in Hf.
    change (String "," w +:+ rest +:+ close_ws +:+ String "]" k)
      with (String "," (w +:+ rest +:+ close_ws +:+ String "]" k)).
    rewrite skip_ws_stop by done. simpl.
    rewrite skip_ws_app, skip_ws_value by done.
    rewrite IH by lia. done.
Qed.

(** The members of an object: quoted key, colon, value. *)
Context (key_sep : string) (Hkey : sep_ok ":" key_sep) (asc : bool).
Definition member (kv : string * string) : string := dumps_str asc kv.1 +:+ key_sep +:+ kv.2.

Lemma scan_members_spec (items : list (string * string)) ps k fuel :
  Forall2 (λ kv p, is_ascii kv.1 = true ∧ kv.1 = p.1 ∧ reads kv.2 p.2) items ps → items ≠ [] →
  (String.length (str_join sep (map member items)) + 1 <= fuel)%nat →
  scan_members fuel (str_join sep (map member items) +:+ close_ws +:+ String "}" k) = Some (ps, k).
Proof.
  intros H. revert fuel.
  induction H as [|[key t] [key' v] items ps (Ha & Hk & Hst & Ht) H IH]; [done|].
  intros fuel _ Hf. destruct fuel as [|fuel]; [lia|]. simpl in Ha, Hk, Hst, Ht. subst key'.
  assert (Hone : ∀ more,
    scan_members (S fuel) (member (key, t) +:+ more) =
      match scan fuel (t +:+ more) with
      | Some (v, s) =>
          match skip_ws s with
          | String c s =>
              if Ascii.eqb c "}" then Some ([(key, v)], s)
              else if Ascii.eqb c "," then
                let? (ps, k) := scan_members fuel (skip_ws s) in Some ((key, v) :: ps, k)
              else None
          | EmptyString => None
          end
      | None => None
      end).
  { intros more. unfold member. simpl fst. simpl snd. rewrite dumps_str_eq by done.
    rewrite !str_app_assoc.
    change (QUOTE +:+ escaped asc key +:+ QUOTE +:+ key_sep +:+ t +:+ more)
      with (String (ascii_of_nat 34) (escaped asc key +:+ QUOTE +:+ key_sep +:+ t +:+ more)).
    cbn [scan_members]. change (Nat.eqb (ord (ascii_of_nat 34)) 34) with true. simpl negb. cbv iota.
    rewrite scan_string_escaped; [|done|rewrite str_length_app; pose proof (escaped_length asc key Ha); lia].
    destruct Hkey as (w & -> & Hw).
    change (String ":" w +:+ t +:+ more) with (String ":" (w +:+ t +:+ more)).
    rewrite skip_ws_stop by done. simpl. by rewrite skip_ws_app, skip_ws_value. }
  assert (Hlen : (String.length t <= String.length (member (key, t)))%nat).
  { unfold member. rewrite !str_length_app. simpl. lia. }
  destruct items as [|i items].
  - inversion H; subst. simpl map in *. simpl str_join in *. rewrite Hone.
    rewrite Ht; [|by apply stops_ws|lia]. by rewrite skip_ws_app by done.
  - change (str_join sep (map member ((key, t) :: i :: items)))
      with (member (key, t) +:+ sep +:+ str_join sep (map member (i :: items))) in *.
    rewrite !str_length_app in Hf. rewrite !str_app_assoc. rewrite Hone.
    rewrite Ht; [|apply stops_sep|lia].
    specialize (IH fuel ltac:(done)).
    assert (Hi : is_ascii i.1 = true) by (inversion H as [|? ? ? ? (? & ? & ?) ?]; done).
    set (rest := str_join sep (map member (i :: items))) in *.
    assert (Hrest : starts_value rest).
    { unfold rest. simpl. pose proof (dumps_str_starts asc i.1 Hi) as Hs.
      unfold member at 1 2. destruct (dumps_str asc i.1) as [|c u]; [done|]. by destruct items. }
    destruct Hsep as (w & Hw & Hws). rewrite Hw in *. simpl in Hf.
    change (String "," w +:+ rest +:+ close_ws +:+ String "}" k)
      with (String "," (w +:+ rest +:+ close_ws +:+ String "}" k)).
    rewrite skip_ws_stop by done. simpl.
    rewrite skip_ws_app, skip_ws_value by done.
    rewrite IH by lia. done.
Qed.
End lists.

Lemma sort_items_map {A B} (g : A → B) (d : list (string * A)) :
  sort_items (map (λ kv, (kv.1, g kv.2)) d) = map (λ kv, (kv.1, g kv.2)) (sort_items d).
Proof.
  unfold sort_items. induction d as [|x d IH]; simpl; [done|]. rewrite IH.
  generalize (sort_by (λ x y : string * A, str_leb x.1 y.1) d). intros l.
  induction l as [|y l IHl]; simpl; [done|]. destruct (str_leb x.1 y.1); simpl; [done|]. by rewrite IHl.
Qed.

Lemma dict_of_pairs_NoDup l : NoDup (map fst l) → dict_of_pairs l = l.
Proof.
  unfold dict_of_pairs. intros Hn.
  enough (∀ acc, NoDup (map fst (acc ++ l)) →
    fold_left (λ d kv, dset kv.1 kv.2 d) l acc = acc ++ l) as H by by apply (H []).
  clear Hn. induction l as [|[k v] l IH]; intros acc Hn; simpl; [by rewrite app_nil_r|].
  assert (Hk : dset k v acc = acc ++ [(k, v)]).
  { rewrite map_app in Hn. apply NoDup_app in Hn as (_ & Hn & _). simpl in Hn.
    assert (k ∉ map fst acc) as Hk by (intros Hin; eapply Hn; [done|left]).
    clear -Hk. induction acc as [|[j w] acc IH]; simpl in *; [done|].
    rewrite not_elem_of_cons in Hk. destruct Hk as [Hj Hk]. rewrite eqs_ne by done. by rewrite IH. }
  rewrite Hk, IH; rewrite <- app_assoc; done.
Qed.

(** The text between the brackets. *)
Lemma enclose_items st lvl l r items k :
  items ≠ [] →
  enclose st lvl l r items +:+ k =
    l +:+ newline_at st (S lvl) +:+
    str_join (st_item st +:+ newline_at st (S lvl)) items +:+ newline_at st lvl +:+ r +:+ k.
Proof. intros H. unfold enclose. destruct items; [done|]. by rewrite !str_app_assoc. Qed.

Lemma sep_newline st n : good_style st → sep_ok "," (st_item st +:+ newline_at st n).
Proof.
  intros [(w & -> & Hw) _]. exists (w +:+ newline_at st n). split; [done|].
  by rewrite str_forall_app, Hw, newline_ws.
Qed.

Lemma starts_join_items sep texts :
  texts ≠ [] → Forall starts_value texts → starts_value (str_join sep texts).
Proof.
  destruct texts as [|t texts]; [done|]. intros _. inversion 1; subst.
  destruct texts; [done|]. simpl. by destruct t.
Qed.

Lemma starts_member ks asc kv : is_ascii kv.1 = true → starts_value (member ks asc kv).
Proof.
  intros H. unfold member. pose proof (dumps_str_starts asc kv.1 H).
  by destruct (dumps_str asc kv.1).
Qed.

Lemma scan_open_items st lvl texts vs k fuel :
  good_style st → Forall2 reads texts vs →
  (String.length (enclose st lvl "[" "]" texts) <= fuel)%nat →
  scan fuel (enclose st lvl "[" "]" texts +:+ k) = Some (JList vs, k).
Proof.
  intros Hst Hr Hf. destruct fuel as [|fuel]; [by destruct texts; unfold enclose in Hf; simpl in Hf; lia|].
  destruct texts as [|t texts].
  { inversion Hr; subst. done. }
  assert (Hne : t :: texts ≠ []) by done.
  pose proof (f_equal String.length (enclose_items st lvl "[" "]" (t :: texts) "" Hne)) as Hl.
  rewrite str_app_nil_r in Hl. rewrite Hl in Hf. clear Hl.
  rewrite (enclose_items _ _ _ _ _ _ Hne).
  rewrite !str_length_app in Hf. simpl (String.length "[") in Hf. simpl (String.length "]") in Hf.
  remember (t :: texts) as ts eqn:Hts. clear Hts.
  set (X := str_join _ ts) in *.
  assert (HX : starts_value X).
  { apply starts_join_items; [done|]. eapply Forall2_Forall_l; [done|].
    apply Forall_true. by intros v t' [Hs _]. }
  match goal with |- scan _ ("[" +:+ ?Y) = _ => change ("[" +:+ Y) with (String "[" Y) end.
  cbn [scan]. change (ord "[") with 91%nat. cbv iota.
  rewrite skip_ws_app by apply newline_ws. rewrite skip_ws_value by done.
  destruct X as [|c X'] eqn:EX; [done|]. destruct HX as (_ & Hc & _).
  change (String c X' +:+ newline_at st lvl +:+ "]" +:+ k)
    with (String c (X' +:+ newline_at st lvl +:+ "]" +:+ k)).
  cbv iota. rewrite (proj2 (Ascii.eqb_neq c "]") Hc).
  change (String c (X' +:+ newline_at st lvl +:+ "]" +:+ k))
    with (String c X' +:+ newline_at st lvl +:+ String "]" k).
  rewrite <- EX. unfold X.
  rewrite (scan_items_spec _ (newline_at st lvl) (sep_newline st _ Hst) (newline_ws st lvl) _ vs);
    [done|done|done|]. fold X. rewrite EX. lia.
Qed.

Lemma scan_open_members st lvl (items : list (string * string)) ps k fuel :
  good_style st →
  Forall2 (λ kv p, is_ascii kv.1 = true ∧ kv.1 = p.1 ∧ reads kv.2 p.2) items ps →
  NoDup (map fst ps) →
  let texts := map (member (st_key st) (st_ascii st)) items in
  (String.length (enclose st lvl "{" "}" texts) <= fuel)%nat →
  scan fuel (enclose st lvl "{" "}" texts +:+ k) = Some (JDict ps, k).
Proof.
  intros Hst Hr Hnd texts Hf.
  destruct fuel as [|fuel]; [by destruct items; unfold enclose in Hf; simpl in Hf; lia|].
  destruct items as [|i items].
  { inversion Hr; subst. done. }
  assert (Hne : texts ≠ []) by done.
  pose proof (f_equal String.length (enclose_items st lvl "{" "}" texts "" Hne)) as Hl.
  rewrite str_app_nil_r in Hl. rewrite Hl in Hf. clear Hl.
  rewrite (enclose_items _ _ _ _ _ _ Hne).
  rewrite !str_length_app in Hf. simpl (String.length "{") in Hf. simpl (String.length "}") in Hf.
  assert (Hne' : i :: items ≠ []) by done.
  remember (i :: items) as its eqn:His. clear His.
  set (X := str_join _ texts) in *.
  assert (HX : starts_value X).
  { apply starts_join_items; [done|]. unfold texts. apply Forall_map.
    eapply Forall2_Forall_l; [done|]. apply Forall_true. intros p kv (Ha & _). by apply starts_member. }
  match goal with |- scan _ ("{" +:+ ?Y) = _ => change ("{" +:+ Y) with (String "{" Y) end.
  cbn [scan]. change (ord "{") with 123%nat. cbv iota.
  rewrite skip_ws_app by apply newline_ws. rewrite skip_ws_value by done.
  destruct X as [|c X'] eqn:EX; [done|]. destruct HX as (_ & _ & Hc).
  change (String c X' +:+ newline_at st lvl +:+ "}" +:+ k)
    with (String c (X' +:+ newline_at st lvl +:+ "}" +:+ k)).
  cbv iota. rewrite (proj2 (Ascii.eqb_neq c "}") Hc).
  change (String c (X' +:+ newline_at st lvl +:+ "}" +:+ k))
    with (String c X' +:+ newline_at st lvl +:+ String "}" k).
  rewrite <- EX. unfold X, texts.
  rewrite (scan_members_spec _ (newline_at st lvl) (sep_newline st _ Hst) (newline_ws st lvl)
             (st_key st) (proj2 Hst) _ _ ps);
    [by rewrite dict_of_pairs_NoDup|done|done|]. fold texts. fold X. rewrite EX. lia.
Qed.

Lemma dumps_no_bom st lvl v w : plain v = true → starts_with BOM (dumps_at st lvl v +:+ w) = false.
Proof.
  assert (H : ∀ c t, ascii_char c = true → starts_with BOM (String c t +:+ w) = false).
  { intros c t Hc. unfold starts_with, BOM.
    by destruct c as [[][][][][][][][]]. }
  destruct v as [|[]|z|f|s|l|d]; intros Hv; try done.
  - simpl. destruct (str_of_Z_shape z) as (neg & c & ds & -> & Hc & _).
    destruct neg; apply H; [done|]. by destruct c as [[][][][][][][][]].
  - simpl. unfold enclose. by case_match.
  - simpl. unfold enclose. by case_match.
Qed.

(** The value written is read back, whatever follows it. *)
Lemma scan_dumps st v :
  good_style st → plain v = true → ∀ lvl, reads (dumps_at st lvl v) (reorder (st_sort st) v).
Proof.
  intros Hst. induction v as [|b|z|f|s|l IH|d IH] using json_rect'; intros Hv lvl;
    (split; [by apply dumps_starts|]); intros k fuel Hk Hf.
  - destruct fuel; [simpl in Hf; lia|]. by destruct k.
  - destruct b, fuel; try (simpl in Hf; lia); by destruct k.
  - destruct fuel.
    + destruct (str_of_Z_shape z) as ([] & c & ds & Hz & _); simpl in Hf; rewrite Hz in Hf; simpl in Hf; lia.
    + by apply scan_dumps_int.
  - done.
  - change (dumps_at st lvl (JStr s)) with (dumps_str (st_ascii st) s) in *. destruct fuel.
    + rewrite dumps_str_eq in Hf by done. simpl in Hf. lia.
    + by apply scan_dumps_str.
  - apply scan_open_items; [done| |done]. simpl in Hv. rewrite forallb_forall in Hv.
    apply Forall2_fmap_2. apply Forall_Forall2_diag. rewrite List.Forall_forall in *.
    intros x Hx. apply IH; auto.
  - simpl in Hv. apply andb_true_iff in Hv as [Hn Hv]. apply bool_decide_eq_true in Hn.
    rewrite forallb_forall in Hv. rewrite List.Forall_forall in IH.
    set (d' := if st_sort st then sort_items d else d).
    assert (Hperm : d' ≡ₚ d) by (unfold d'; destruct (st_sort st); [apply sort_by_perm|done]).
    assert (Hdump : ∀ lvl', dumps_at st lvl' (JDict d) = enclose st lvl' "{" "}"
      (map (member (st_key st) (st_ascii st)) (map (λ kv, (kv.1, dumps_at st (S lvl') kv.2)) d'))).
    { intros lvl'. simpl. f_equal. unfold d'. destruct (st_sort st); [|done].
      by rewrite (sort_items_map (dumps_at st (S lvl')) d). }
    assert (Hre : reorder (st_sort st) (JDict d) =
      JDict (map (λ kv, (kv.1, reorder (st_sort st) kv.2)) d')).
    { simpl. f_equal. unfold d'. destruct (st_sort st); [|done].
      by rewrite (sort_items_map (reorder true) d). }
    rewrite Hre, Hdump in *. apply scan_open_members; [done| | |done].
    + apply Forall2_fmap_2, Forall_Forall2_diag. rewrite List.Forall_forall.
      intros [key x] Hin. assert (Hin' : In (key, x) d).
      { by apply (Permutation_in _ Hperm). }
      specialize (Hv _ Hin'). apply andb_true_iff in Hv as [Ha Hp]. simpl in *.
      split_and!; [done|done|]. by apply (IH _ Hin').
    + rewrite map_map. simpl. by rewrite Hperm.
Qed.

(** [json.loads(json.dumps(v) + white space)]. *)
Lemma loads_dumps st v w :
  good_style st → plain v = true → str_forall is_ws w = true →
  loads (dumps st v +:+ w) = Ok (reorder (st_sort st) v).
Proof.
  intros Hst Hv Hw. destruct (scan_dumps st v Hst Hv 0) as [Hs Hr].
  unfold loads. fold (dumps st v) in *.
  assert (Hbom : starts_with BOM (dumps st v +:+ w) = false).
  { by apply dumps_no_bom. }
  rewrite Hbom. unfold loads_opt, raw_decode. rewrite skip_ws_value by done.
  rewrite Hr.
  - assert (skip_ws w = "") as ->; [|done].
    unfold skip_ws. clear -Hw. induction w as [|c w IH]; simpl in *; [done|].
    apply andb_true_iff in Hw as [-> Hw]. by apply IH.
  - destruct w as [|c w]; [done|]. simpl in Hw. apply andb_true_iff in Hw as [Hc _].
    by destruct c as [[][][][][][][][]].
  - unfold scan_fuel. rewrite str_length_app. lia.
Qed.

(** Sorting the keys of an object does not change what they hold. *)
Lemma dlookup_perm k (d d' : dict) :
  NoDup (map fst d) → d ≡ₚ d' → dlookup k d = dlookup k d'.
Proof.
  intros Hn Hp. assert (Hn' : NoDup (map fst d')) by (by rewrite <- Hp).
  destruct (dlookup k d) as [v|] eqn:E.
  - symmetry. apply In_dlookup; [by apply NoDup_ListNoDup|].
    apply (Permutation_in _ Hp). by apply dlookup_In.
  - symmetry. apply dlookup_None. apply dlookup_None in E. intros Hin. apply E.
    unfold dkeys in *. apply (Permutation_in _ (Permutation_map fst (Permutation_sym Hp)) Hin).
Qed.

Lemma dlookup_map k (g : json → json) (d : dict) :
  dlookup k (map (λ kv, (kv.1, g kv.2)) d) = option_map g (dlookup k d).
Proof. induction d as [|[j v] d IH]; simpl; [done|]. by destruct (k =s? j). Qed.

Lemma reorder_lookup sort k (d d' : dict) :
  NoDup (map fst d) → reorder sort (JDict d) = JDict d' →
  dlookup k d' = option_map (reorder sort) (dlookup k d).
Proof.
  intros Hn [= <-]. rewrite <- dlookup_map.
  destruct sort; [|done]. apply dlookup_perm; [|apply sort_by_perm].
  unfold sort_items. rewrite sort_by_perm, map_map. done.
Qed.

Lemma reorder_dget sort k (d d' : dict) :
  NoDup (map fst d) → reorder sort (JDict d) = JDict d' →
  dget k d' = reorder sort (dget k d).
Proof.
  intros Hn Hr. unfold dget. rewrite (reorder_lookup sort k d d') by done.
  by destruct (dlookup k d).
Qed.

(** The bytes of a dumped plain value are ASCII, hence valid UTF-8. *)
Lemma ascii_utf8 s : is_ascii s = true → utf8_valid s = true.
Proof.
  unfold is_ascii. induction s as [|c s IH]; [done|]. simpl str_forall.
  rewrite andb_true_iff. intros [Hc Hs]. apply Nat.ltb_lt in Hc. cbn [utf8_valid].
  rewrite (proj2 (Nat.leb_le _ _)) by lia. auto.
Qed.

Lemma is_ascii_app a b : is_ascii (a +:+ b) = is_ascii a && is_ascii b.
Proof. apply str_forall_app. Qed.

Lemma escape_cp_ascii asc c : ascii_char c = true → is_ascii (escape_cp asc (Z.of_nat (ord c))) = true.
Proof. by destruct asc, c as [[][][][][][][][]]. Qed.

Lemma dumps_str_ascii asc s : is_ascii s = true → is_ascii (dumps_str asc s) = true.
Proof.
  intros Hs. rewrite dumps_str_eq by done. rewrite !is_ascii_app.
  assert (is_ascii (escaped asc s) = true) as ->; [|done].
  unfold escaped, is_ascii in *. induction s as [|c s IH]; [done|]. simpl in *.
  apply andb_true_iff in Hs as [Hc Hs]. rewrite str_forall_app, (IH Hs), andb_true_r.
  by apply escape_cp_ascii.
Qed.

Lemma str_join_ascii sep l :
  is_ascii sep = true → Forall (λ s, is_ascii s = true) l → is_ascii (str_join sep l) = true.
Proof. apply str_join_forall. Qed.

Lemma ws_ascii w : str_forall is_ws w = true → is_ascii w = true.
Proof. intros H. eapply str_forall_mono; [|done]. intros c. by destruct c as [[][][][][][][][]]. Qed.

Lemma sep_ascii c s : ascii_char c = true → sep_ok c s → is_ascii s = true.
Proof. intros Hc (w & -> & Hw). unfold is_ascii, ascii_char in *. simpl. rewrite Hc. by apply ws_ascii. Qed.

Lemma enclose_ascii st lvl l r items :
  good_style st → is_ascii l = true → is_ascii r = true →
  Forall (λ s, is_ascii s = true) items → is_ascii (enclose st lvl l r items) = true.
Proof.
  intros Hst Hl Hr Hi. unfold enclose. destruct items as [|i items]; [by rewrite is_ascii_app, Hl|].
  rewrite !is_ascii_app, Hl, Hr, str_join_ascii; [|rewrite is_ascii_app|done].
  - by rewrite !(ws_ascii (newline_at _ _)) by apply newline_ws.
  - destruct Hst as [Hs _]. rewrite (sep_ascii "," (st_item st)) by done.
    by rewrite (ws_ascii (newline_at _ _)) by apply newline_ws.
Qed.

Lemma dumps_ascii st v : good_style st → plain v = true → ∀ lvl, is_ascii (dumps_at st lvl v) = true.
Proof.
  intros Hst. induction v as [|b|z|f|s|l IH|d IH] using json_rect'; intros Hv lvl; try done.
  - by destruct b.
  - simpl. destruct (str_of_Z_shape z) as (neg & c & ds & -> & Hc & _ & Hds & _).
    assert (Ha : ∀ x, is_digit x = true → ascii_char x = true) by (intros x; by destruct x as [[][][][][][][][]]).
    rewrite is_ascii_app. unfold is_ascii, digits, ascii_char in *. simpl. rewrite Ha by done.
    rewrite (str_forall_mono is_digit _ ds Ha Hds). by destruct neg.
  - by apply dumps_str_ascii.
  - simpl. apply enclose_ascii; [done..|]. apply Forall_map. simpl in Hv.
    rewrite forallb_forall in Hv. rewrite List.Forall_forall in *. intros x Hx. apply IH; auto.
  - simpl in Hv. apply andb_true_iff in Hv as [_ Hv]. rewrite forallb_forall in Hv.
    simpl. apply enclose_ascii; [done..|]. apply Forall_map.
    assert (Hall : Forall (λ kv : string * string, is_ascii kv.1 = true ∧ is_ascii kv.2 = true)
              (map (λ kv, (kv.1, dumps_at st (S lvl) kv.2)) d)).
    { apply Forall_map. rewrite List.Forall_forall in *. intros [k x] Hin. simpl.
      specialize (Hv _ Hin). simpl in Hv. apply andb_true_iff in Hv as [? ?].
      split; [done|]. by apply (IH _ Hin). }
    assert (Hs : ∀ l : list (string * string),
      Forall (λ kv, is_ascii kv.1 = true ∧ is_ascii kv.2 = true) l →
      Forall (λ kv, is_ascii (dumps_str (st_ascii st) kv.1 +:+ st_key st +:+ kv.2) = true) l).
    { intros l Hl. eapply Forall_impl; [done|]. intros [k x] [Hk Hx]. simpl in *.
      rewrite !is_ascii_app, dumps_str_ascii, Hx by done. destruct Hst as [_ Hs].
      by rewrite (sep_ascii ":" (st_key st)). }
    destruct (st_sort st); apply Hs; [|done].
    unfold sort_items. rewrite List.Forall_forall in *. intros x Hx.
    apply Hall. by apply sort_by_In in Hx.
Qed.

(** What is read back of a printed document: its fields, in the order of their names. *)
Definition read_as (doc d : dict) : Prop := ∀ k, dget k d = reorder true (dget k doc).
Lemma reordered doc : plain (JDict doc) = true → ∃ d, reorder true (JDict doc) = JDict d ∧ read_as doc d.
Proof.
  intros Hd. simpl in Hd. apply andb_true_iff in Hd as [Hn _]. apply bool_decide_eq_true in Hn.
  eexists. split; [done|]. intros k. by apply (reorder_dget true k doc).
Qed.
