(* ===== verification/AccountContract.v ===== *)
(** * The account state, from the adapter to the health observation

    [account_state.adapt_legacy_quota_state] writes a document that
    [health._account_counts] reads.  This file proves that the two agree: whatever
    the adapter accepts, the reader understands, with the same counts and the same
    instant. *)

From S2P Require Import Prelude PyStr PyFloat PyValue PyTime PyJson FS PublicMetadata AccountState.
From S2P Require Import Gateway Health Capacity PyBase64 Wp JsonRoundTrip.

(** ** Texts of instants *)

Definition no_plus (c : ascii) : bool := negb (Ascii.eqb c "+").

Lemma prefix_cons_ne a b s t : a ≠ b → String.prefix (String a s) (String b t) = false.
Proof. intros H. simpl. by destruct (ascii_dec a b). Qed.

Lemma find_from_app i a s :
  str_forall no_plus a = true →
  find_from i (String "+" s) (a +:+ String "+" s) = Some (i + String.length a)%nat.
Proof.
  revert i. induction a as [|c a IH]; intros i.
  - intros _. change ("" +:+ String "+" s) with (String "+" s).
    pose proof (prefix_app_same (String "+" s) "") as H. rewrite str_app_nil_r in H.
    cbn [find_from]. rewrite H. f_equal. simpl. lia.
  - simpl str_forall. rewrite andb_true_iff. intros [Hc Ha].
    change (String c a +:+ String "+" s) with (String c (a +:+ String "+" s)).
    cbn [find_from]. unfold no_plus in Hc. apply negb_true_iff, Ascii.eqb_neq in Hc.
    assert (String.prefix (String "+" s) (String c (a +:+ String "+" s)) = false) as ->.
    { apply prefix_cons_ne. by intros <-. }
    rewrite IH by done. f_equal. simpl. lia.
Qed.

Lemma str_take_app a b : str_take (String.length a) (a +:+ b) = a.
Proof. induction a as [|c a IH]; [by destruct b|]. exact (f_equal (String c) IH). Qed.
Lemma str_drop_app a b n : str_drop (String.length a + n) (a +:+ b) = str_drop n b.
Proof. induction a as [|c a IH]; [done|]. exact IH. Qed.

Lemma replace_utc_app body :
  str_forall no_plus body = true → replace_utc (body +:+ "+00:00") = body +:+ "Z".
Proof.
  intros Hb. unfold replace_utc. rewrite str_length_app. rewrite Nat.add_comm.
  change (String.length "+00:00" + String.length body)%nat with (S (5 + String.length body)).
  cbn [replace_utc_go]. unfold split_once, str_find.
  rewrite (find_from_app 0 body "00:00") by done. cbn [Nat.add].
  rewrite str_take_app. change (String.length "+00:00") with 6%nat.
  rewrite str_drop_app. change (str_drop 6 "+00:00") with "".
  unfold split_once, str_find. simpl. by rewrite str_app_nil_r.
Qed.

(** A text whose ends are not white space is its own [strip]. *)
Lemma strip_noop s :
  head_ok is_space (chars s) → head_ok is_space (chars (str_rev s)) → strip s = s.
Proof.
  intros Hh Ht. unfold strip, strip_by, rstrip_by, lstrip_by.
  rewrite (drop_while_head_ok _ s) by done.
  by rewrite (drop_while_head_ok _ (str_rev s)), str_rev_involutive.
Qed.

Definition utc_body (w : Z) : string :=
  let '(y, m, d) := days2ymd (w / DAY_US) in
  let r := w mod DAY_US in
  let sec := r / US in
  date_text y m d +:+ "T" +:+
  time_text (sec / 3600) ((sec / 60) mod 60) (sec mod 60) (r mod US).

Lemma isoformat_body w : isoformat (utc w) = utc_body w +:+ "+00:00".
Proof.
  rewrite isoformat_utc. unfold utc_body. destruct (days2ymd _) as [[y m] d].
  by rewrite !str_app_assoc.
Qed.

Lemma sign_plus c : no_sign c = true → no_plus c = true.
Proof. unfold no_sign, no_plus. destruct (Ascii.eqb c "+"); [done|]. done. Qed.

Lemma utc_body_no_plus w : str_forall no_plus (utc_body w) = true.
Proof.
  unfold utc_body. destruct (days2ymd _) as [[y m] d].
  assert (Hp : ∀ n z, str_forall no_plus (pad n z) = true).
  { intros. eapply str_forall_mono; [apply sign_plus|]. apply digit_no_sign, pad_digit_chars. }
  assert (Ht : ∀ h mi s us, str_forall no_plus (time_text h mi s us) = true).
  { intros. eapply str_forall_mono; [apply sign_plus|]. apply time_text_no_sign. }
  unfold date_text. by rewrite !str_forall_app, !Hp, Ht.
Qed.

Lemma utc_body_head w t : ∃ c u, utc_body w +:+ t = String c u ∧ is_digit c = true.
Proof.
  unfold utc_body. destruct (days2ymd _) as [[y m] d]. unfold date_text.
  rewrite !str_app_assoc. apply pad_app_shape.
Qed.

(** The text [utc_text] prints is read back as the instant. *)
Lemma utc_text_reads w :
  valid_wall w = true →
  let text := utc_text (utc w) in
  strip text = text ∧ text ≠ "" ∧ fromisoformat (z_suffix text) = Some (utc w).
Proof.
  intros Hw. unfold utc_text. rewrite isoformat_body.
  rewrite replace_utc_app by apply utc_body_no_plus.
  destruct (utc_body_head w "Z") as (c & u & E & Hc).
  split_and!.
  - apply strip_noop.
    + rewrite E. simpl. by destruct c as [[][][][][][][][]].
    + by rewrite str_rev_app.
  - by rewrite E.
  - unfold z_suffix, ends_with. rewrite str_rev_app.
    assert (String.prefix (str_rev "Z") (str_rev "Z" +:+ str_rev (utc_body w)) = true) as ->
      by apply prefix_app_same.
    unfold drop_last. rewrite str_length_app. change (String.length "Z") with 1%nat.
    rewrite Nat.add_sub, str_take_app, <- isoformat_body. by apply fromisoformat_isoformat.
Qed.

Lemma utc_text_ascii w : is_ascii (utc_text (utc w)) = true.
Proof.
  unfold utc_text. rewrite isoformat_body, replace_utc_app by apply utc_body_no_plus.
  rewrite is_ascii_app, andb_true_r. unfold utc_body. destruct (days2ymd _) as [[y m] d].
  assert (Hp : ∀ n z, is_ascii (pad n z) = true).
  { intros. eapply str_forall_mono; [|apply pad_digit_chars]. intros c.
    by destruct c as [[][][][][][][][]]. }
  unfold date_text, time_text, frac_text.
  destruct (_ =? 0); by rewrite !is_ascii_app, !Hp.
Qed.

(** ** The adapter *)

(** The instant the monitor stated. *)
Definition source_instant (src : dict) : option datetime :=
  match dget "checked_at" src with
  | JStr s => let? t := fromisoformat (z_suffix (strip s)) in astimezone_utc t
  | _ => None
  end.

Lemma timestamp_text_ok src observed :
  timestamp_text (dget "checked_at" src) = Ok observed →
  ∃ w, source_instant src = Some (utc w) ∧ valid_wall w = true ∧ observed = utc_text (utc w).
Proof.
  unfold timestamp_text, source_instant. intros H.
  destruct (dget "checked_at" src) as [| | | |s| |]; try done.
  destruct (strip s =s? ""); [done|].
  destruct (fromisoformat _) as [t|]; [|done]. unfold astimezone_utc in *.
  destruct (dt_off t) as [off|] eqn:Ho; [|done].
  destruct (valid_wall (dt_wall t - off)) eqn:Hv; [|done].
  injection H as <-. by exists (dt_wall t - off).
Qed.

Lemma state_document_plain total ready warning limited failed observed :
  is_ascii observed = true →
  plain (state_document total ready warning limited failed observed) = true.
Proof. intros H. simpl. by rewrite H. Qed.

Lemma published_ascii v : plain v = true → is_ascii (published v) = true.
Proof.
  intros H. unfold published. rewrite is_ascii_app.
  unfold dumps. by rewrite dumps_ascii by (done || apply good_pretty).
Qed.

Lemma loads_published v : plain v = true → loads (published v) = Ok (reorder true v).
Proof. intros H. unfold published. by rewrite loads_dumps by (done || apply good_pretty). Qed.

(** Reading a file when no call fails. *)
Lemma read_text_ok E p f k d m :
  no_faults E → stat_node f p = Some (File d m) → is_ascii d = true →
  ∃ k', read_text p E (World f k) = (Ok d, World f k').
Proof.
  intros HE Hs Ha. cbv [read_text read_bytes open_read bind get_fs lift ret].
  rewrite sys_ok by done. cbn [w_fs w_tick]. rewrite Hs. cbv [read_node bind ret].
  rewrite sys_ok by done.
  unfold decode_res, decode_utf8. rewrite ascii_utf8 by done. by eexists.
Qed.


(** A monitor state of five records. *)
Definition sample_state : string :=
  dumps (st_default false true) (JDict
    [("total", JInt 5); ("ready", JInt 2); ("warning", JInt 1); ("limited", JInt 1);
     ("failed", JInt 1); ("checked_at", JStr "2026-01-02T03:04:05+02:00")]).
Definition sample_path : path := path_of "/run/cloudx/accounts.json".
Definition quiet_env : env :=
  Env (λ _, false) (λ _, "x") (λ _, 1767316000000000) (λ _ _, FNan) (λ _ _, false) (λ _, 0).

