(* ===== verification/QuarantineSafety.v ===== *)
(** * The quarantine transaction keeps credentials

    Under every pattern of failing system calls: [quarantine_auth_record] and
    [restore_quarantined_auth] lose no file.  A credential is where it was or where it
    was being moved, with the same bytes, and no other file is overwritten. *)

From S2P Require Import Prelude PyStr PyFloat PyValue PyTime PyJson PyBase64 FS Wp FileData JsonRoundTrip.
From S2P Require Import AgentIdentity CpaRecords CpaAuth.

Implicit Types (E : env) (f g : fs) (k : nat) (w : world).

(** ** The calls that prepare the move *)

Lemma wp_ensure_dir p create E f k (Φ : res unit → world → Prop) :
  (∀ g k m, same_data none f g → g !! p = Some (Dir m) → Φ (Ok tt) (World g k)) →
  (∀ e g k, same_data none f g → Φ (Raise e) (World g k)) →
  wp (ensure_real_directory p create) E (World f k) Φ.
Proof.
  intros Ho Hr. unfold ensure_real_directory. apply wp_bind.
  assert (Hrest : ∀ g k, same_data none f g →
    wp (let! info := try_with (lstat p)
          (except [OSError] (λ _, rejected_auth "CPA credential directory is unavailable")) in
        if is_link info || negb (is_dirn info) then rejected_auth "CPA credential directory is unsafe"
        else ret tt) E (World g k) Φ).
  { intros g k1 Hg. apply wp_bind, wp_try. unfold lstat.
    apply wp_bind, wp_sys; [intros k2|intros e k2 He].
    - apply wp_bind, wp_get_fs. destruct (g !! p) as [n|] eqn:Hp.
      + apply wp_ret. destruct n; simpl; try (apply wp_throw; by apply Hr).
        apply wp_ret. by eapply Ho.
      + simpl. by apply Hr.
    - unfold except. simpl. rewrite orb_false_r. destruct (catches OSError (exn_cls e)); by apply Hr. }
  destruct create; [|apply wp_ret, Hrest, same_refl].
  apply wp_mkdir_parents.
  - intros g k1 Hg. by apply Hrest, same_dirs.
  - intros e g k1 _ Hg. by apply Hr, same_dirs.
Qed.

Lemma wp_quarantine_lock dir E f k (Φ : res unit → world → Prop) :
  (∀ g k, keeps none f g → same_data (only (child dir LOCK_NAME)) f g → Φ (Ok tt) (World g k)) →
  (∀ e g k, keeps none f g → Φ (Raise e) (World g k)) →
  wp (quarantine_lock dir) E (World f k) Φ.
Proof.
  intros Ho Hr. unfold quarantine_lock.
  apply wp_bind, wp_ensure_dir; [|intros; by apply Hr, same_keeps].
  intros g1 k1 m H1 _. apply wp_bind, wp_chmod; [|intros; by apply Hr, same_keeps].
  intros g2 k2 H2. assert (H12 : same_data none f g2) by (by eapply same_trans).
  apply wp_bind, wp_open_append; [|intros; by apply Hr, same_keeps].
  intros g3 k3 H3 H3'. assert (H13 : keeps none f g3) by (eapply keeps_trans; [by apply same_keeps|done]).
  apply wp_bind, wp_chmod; [|intros; by apply Hr].
  intros g4 k4 H4.
  assert (H14 : keeps none f g4) by (eapply keeps_trans; [done|by apply same_keeps]).
  apply wp_sys; [intros k5; apply Ho|intros e k5 _; by apply Hr]; [done|].
  eapply same_trans; [by apply same_none|]. eapply same_trans; [done|]. by apply same_none.
Qed.

Lemma fs_pure_read_private p strict : fs_pure (read_private_json p strict).
Proof. unfold read_private_json, invalid_manifest. fs_pure_tac; destruct strict; fs_pure_tac. Qed.
Lemma fs_pure_manifest_of dir : fs_pure (manifest_of dir).
Proof.
  unfold manifest_of, invalid_manifest. apply fs_pure_bind; [apply fs_pure_exists|]. intros b.
  destruct b; simpl; [|done]. apply fs_pure_bind; [apply fs_pure_read_private|]. intros d.
  by destruct (dget "entries" d).
Qed.
Lemma fs_pure_contained p root : fs_pure (contained_relative p root).
Proof. unfold contained_relative, resolve. fs_pure_tac. Qed.
#[export] Hint Resolve fs_pure_read_private fs_pure_manifest_of fs_pure_contained : cloudx.

(** A credential accepted by [_contained_relative] is a regular file. *)
Lemma wp_contained p root E f k (Φ : res path → world → Prop) :
  (∀ r k d m, f !! p = Some (File d m) → Φ (Ok r) (World f k)) →
  (∀ e k, Φ (Raise e) (World f k)) →
  wp (contained_relative p root) E (World f k) Φ.
Proof.
  intros Ho Hr. unfold contained_relative. apply wp_bind, wp_try.
  unfold lstat. apply wp_bind, wp_sys; [intros k1|intros e k1 He].
  - apply wp_bind, wp_get_fs. destruct (f !! p) as [[d m|m|t|]|] eqn:Hp; simpl;
      try (apply wp_throw, Hr); try apply Hr; apply wp_ret; simpl; try (apply wp_throw, Hr).
    apply wp_pure.
    + unfold resolve. fs_pure_tac.
    + intros [r|e] k2; [by eapply Ho|apply Hr].
  - unfold except. simpl. rewrite orb_false_r. destruct (catches OSError (exn_cls e)); apply Hr.
Qed.

(** ** The archive name *)

(** A manifest with entries is a file that exists. *)
Lemma wp_manifest_of dir E f k (Φ : res dict → world → Prop) :
  (∀ m k, entries_of m ≠ [] → stat_node f (child dir MANIFEST_NAME) ≠ None → Φ (Ok m) (World f k)) →
  (∀ m k, entries_of m = [] → Φ (Ok m) (World f k)) →
  (∀ e k, Φ (Raise e) (World f k)) →
  wp (manifest_of dir) E (World f k) Φ.
Proof.
  intros Ho Hn Hr. unfold manifest_of. apply wp_bind, wp_exists; [intros k1|intros; by apply Hr].
  destruct (stat_node f _) as [n|] eqn:Hs; simpl; [|by apply wp_ret, Hn].
  apply wp_bind, wp_pure; [apply fs_pure_read_private|]. intros [d|e] k2; [|apply Hr].
  destruct (dget "entries" d); try apply wp_throw, Hr. apply wp_ret.
  set (m := setdefault _ _ d).
  destruct (decide (entries_of m = [])); [by apply Hn|by apply Ho].
Qed.

(** A free name in the archive, other than the manifest and the lock. *)
Definition free_target (archive_dir : path) (f : fs) (t : path) : Prop :=
  (∃ n, t = child archive_dir n) ∧ reserved t = false ∧ stat_node f t = None.

(** The names tried are pairwise different, and the search is long enough: a taken name
    is reserved or a file, so that one of [size f + 3] names is free. *)
Definition taken (f : fs) (c : path) : bool := reserved c || opt_is (λ _, true) (stat_node f c).

Lemma archive_candidate_inj dir source i j :
  archive_candidate dir source i = archive_candidate dir source j → i = j.
Proof.
  unfold archive_candidate, child. intros [= H]. apply app_inv_head in H. injection H as H.
  apply (inj (String.app (p_stem source))) in H. apply (inj (String.app ".")) in H.
  apply str_app_inj_r in H. by apply str_of_Z_inj.
Qed.

Lemma taken_in f dir source i :
  taken f (archive_candidate dir source i) = true →
  archive_candidate dir source i ∈
    child dir MANIFEST_NAME :: child dir LOCK_NAME :: map fst (map_to_list f).
Proof.
  unfold taken, reserved. rewrite orb_true_iff. intros [H|H].
  - apply mem_spec in H. unfold archive_candidate, p_name, child in *.
    simpl in H. rewrite List.last_last in H.
    destruct H as [<-|[<-|[]]]; set_solver.
  - do 2 right. destruct (f !! archive_candidate dir source i) as [n|] eqn:E.
    + apply list_elem_of_fmap. exists (archive_candidate dir source i, n). split; [done|].
      by apply elem_of_map_to_list.
    + exfalso. revert H. unfold stat_node. destruct MAX_LINKS; simpl; by rewrite E.
Qed.

Lemma not_all_taken f dir source i :
  ¬ ∀ j, (j < size f + 3)%nat → taken f (archive_candidate dir source (i + Z.of_nat j)) = true.
Proof.
  intros H. set (c := map (λ j, archive_candidate dir source (i + Z.of_nat j)) (seq 0 (size f + 3))).
  assert (Hnd : NoDup c).
  { apply NoDup_fmap_2_strong; [|apply NoDup_seq]. intros x y _ _ Hxy.
    apply archive_candidate_inj in Hxy. lia. }
  assert (Hsub : c ⊆ child dir MANIFEST_NAME :: child dir LOCK_NAME :: map fst (map_to_list f)).
  { intros p (j & -> & Hj%elem_of_seq)%list_elem_of_fmap. apply taken_in, H. lia. }
  pose proof (NoDup_submseteq _ _ Hnd Hsub) as Hl%submseteq_length.
  unfold c in Hl. simpl in Hl. rewrite !length_map, length_seq, length_map_to_list in Hl. lia.
Qed.

Lemma wp_unique_search fuel dir source i E f k (Φ : res path → world → Prop) :
  (¬ ∀ j, (j < fuel)%nat → taken f (archive_candidate dir source (i + Z.of_nat j)) = true) →
  (∀ t k, free_target dir f t → Φ (Ok t) (World f k)) →
  (∀ e k, os_exn e → Φ (Raise e) (World f k)) →
  wp (unique_search fuel dir source i) E (World f k) Φ.
Proof.
  intros Hfuel Ho Hr. revert i k Hfuel. induction fuel as [|fuel IH]; intros i k Hfuel.
  { destruct Hfuel. lia. }
  assert (Hnext : taken f (archive_candidate dir source i) = true →
    ¬ ∀ j, (j < fuel)%nat → taken f (archive_candidate dir source (i + 1 + Z.of_nat j)) = true).
  { intros Ht Hall. apply Hfuel. intros [|j] Hj; [by replace (i + Z.of_nat 0) with i by lia|].
    replace (i + Z.of_nat (S j)) with (i + 1 + Z.of_nat j) by lia. apply Hall. lia. }
  cbn [unique_search]. set (c := archive_candidate dir source i) in *. apply wp_bind.
  unfold taken in Hnext at 1. destruct (reserved c) eqn:Hc; [apply wp_ret, IH; auto|].
  apply wp_exists; [intros k1|intros; by apply Hr].
  destruct (opt_is _ _) eqn:He; [apply IH; auto|]. apply wp_ret, Ho. split; [by eexists|].
  split; [done|by apply exists_false].
Qed.

Lemma wp_unique dir source E f k (Φ : res path → world → Prop) :
  (∀ t k, free_target dir f t → Φ (Ok t) (World f k)) →
  (∀ e k, os_exn e → Φ (Raise e) (World f k)) →
  wp (unique_archive_path dir source) E (World f k) Φ.
Proof.
  intros Ho Hr. unfold unique_archive_path. set (c := child dir _). apply wp_bind.
  assert (Hs : ∀ k, wp (let! f := get_fs in unique_search (size f + 3) dir source 2) E (World f k) Φ).
  { intros k1. apply wp_bind, wp_get_fs. apply wp_unique_search; auto using not_all_taken. }
  destruct (reserved c) eqn:Hc; [apply wp_ret, Hs|].
  apply wp_exists; [intros k1|intros; by apply Hr].
  destruct (opt_is _ _) eqn:He; [apply Hs|]. apply wp_ret, Ho. split; [by eexists|].
  split; [done|by apply exists_false].
Qed.

Lemma free_target_data dir f t : free_target dir f t → data_at f t = None.
Proof.
  intros (_ & _ & H). unfold data_at. destruct (f !! t) as [[d m|m|u|]|] eqn:E; try done.
  by rewrite (stat_file f t d m E) in H.
Qed.

(** ** The manifest *)

Lemma temp_ne p t : is_temp ("." +:+ p_name p +:+ ".") (p_parent p) t → p ≠ t.
Proof.
  intros (x & ->) H. apply (f_equal p_name) in H.
  assert (Hl : p_name ((p_parent p).1, (p_parent p).2 ++ [("." +:+ p_name p +:+ ".") +:+ x]) =
               ("." +:+ p_name p +:+ ".") +:+ x) by (unfold p_name at 1; apply List.last_last).
  rewrite Hl in H. apply (f_equal String.length) in H. rewrite !str_length_app in H.
  cbn [String.length] in H. lia.
Qed.

Lemma keeps_of_stage f t p h :
  f !! t = None → (∀ q, q ≠ t → q ≠ p → h !! q = f !! q) → keeps (only p) f h.
Proof.
  intros Ht H q d Hq Hd. unfold data_at in *. rewrite H; [done| |done].
  intros ->. by rewrite Ht in Hd.
Qed.

Lemma wp_atomic_write_json p payload E f k (Φ : res unit → world → Prop) :
  (∀ g k, same_data (only p) f g → data_at g p = Some (state_text payload) →
     Φ (Ok tt) (World g k)) →
  (∀ e g k, os_exn e → keeps (only p) f g → Φ (Raise e) (World g k)) →
  wp (atomic_write_json p payload) E (World f k) Φ.
Proof.
  intros Ho Hr. unfold atomic_write_json. apply wp_bind, wp_mkdir_parents.
  2:{ intros e g k1 He Hg. apply Hr; [done|]. by apply keeps_none, keeps_dirs. }
  intros f1 k1 Hf1%same_dirs.
  assert (Hk : ∀ g, keeps (only p) f1 g → keeps (only p) f g).
  { intros g Hg. eapply keeps_trans; [|exact Hg]. by apply keeps_none, same_keeps. }
  assert (Hs : ∀ g, same_data (only p) f1 g → same_data (only p) f g).
  { intros g Hg. eapply same_trans; [|exact Hg]. by apply same_none. }
  apply wp_bind, wp_mkstemp.
  2:{ intros e k2 He. apply Hr; [done|]. apply Hk, keeps_refl. }
  intros t k2 Htmp Ht. pose proof (temp_ne p t Htmp) as Hne. apply wp_finally.
  (* until the rename only [t] differs from [f1] *)
  assert (Hfail : ∀ e d m k, os_exn e →
    wp (ignore_oserror (unlink t)) E (World (<[t := File d m]> f1) k)
      (λ r' w'', match r' with Ok _ => Φ (Raise e) w'' | Raise e' => Φ (Raise e') w'' end)).
  { intros e d m k3 He. apply wp_unlink_quiet; intros k4; (apply Hr; [done|]); apply Hk;
      (eapply keeps_of_stage; [exact Ht|]); intros q Hq _.
    - by rewrite lookup_insert_ne.
    - by rewrite lookup_delete_ne, lookup_insert_ne. }
  apply wp_bind. eapply wp_outcome; [eapply write_file_outcome, lookup_insert_eq| |intros; by apply Hfail].
  intros k3. simpl w_fs. rewrite insert_insert_eq.
  apply wp_bind, wp_sys; [intros k4|intros; by apply Hfail].
  apply wp_bind, wp_sys; [intros k5|intros; by apply Hfail].
  apply wp_bind. eapply wp_outcome; [eapply chmod_outcome, lookup_insert_eq| |intros; by apply Hfail].
  intros k6. simpl w_fs. rewrite insert_insert_eq.
  apply wp_bind. eapply wp_outcome; [eapply replace_outcome, lookup_insert_eq| |intros; by apply Hfail].
  intros k7. simpl w_fs. rewrite delete_insert_id by done.
  set (h := <[p := File (state_text payload) 384]> f1).
  assert (Hh : same_data (only p) f h).
  { apply Hs. intros q Hq. by apply data_at_insert_ne. }
  assert (Hh' : same_data (only p) f (delete t h)).
  { apply Hs. intros q Hq. destruct (decide (q = t)) as [->|Hqt].
    - unfold data_at. by rewrite lookup_delete_eq, Ht.
    - rewrite data_at_delete_ne by done. by apply data_at_insert_ne. }
  assert (Hd : data_at h p = Some (state_text payload)) by apply data_at_insert.
  assert (Hd' : data_at (delete t h) p = Some (state_text payload)) by (by rewrite data_at_delete_ne).
  apply wp_fsync_directory; intros; apply wp_unlink_quiet; intros k9;
    by (apply Ho || (apply Hr; [done|apply same_keeps])).
Qed.

(** ** Quarantine *)

Definition restored_message : string :=
  "CPA quarantine manifest write failed; credential was restored".
Definition moved_paths (source manifest : path) : path → Prop :=
  λ p, p = source ∨ p = manifest.

(** What holds however the call ends. *)
Record quarantine_post (archive source : path) (f : fs) (r : res dict) (g : fs) : Prop := {
  qp_others : keeps (moved_paths source (child archive MANIFEST_NAME)) f g;
  qp_credential : ∀ d, data_at f source = Some d →
    data_at g source = Some d ∨
    ∃ n, n ≠ MANIFEST_NAME ∧ data_at f (child archive n) = None ∧ data_at g (child archive n) = Some d;
  qp_restored : ∀ e, r = Raise e → exn_cls e = CpaAuthRejected → exn_msg e = restored_message →
    ∀ d, data_at f source = Some d → data_at g source = Some d;
  qp_moved : ∀ rec, r = Ok rec →
    ∃ n d m entry,
      dget "path" rec = JStr (path_str (child archive n)) ∧
      data_at f source = Some d ∧ data_at f (child archive n) = None ∧
      data_at g source = None ∧ data_at g (child archive n) = Some d ∧
      data_at g (child archive MANIFEST_NAME) = Some (state_text m) ∧
      List.last (entries_of m) JNull = JDict entry ∧
      dget "quarantine_name" entry = JStr n }.

(** The call stopped before the move. *)
Lemma quarantine_post_early archive source f e g :
  keeps none f g → quarantine_post archive source f (Raise e) g.
Proof.
  intros H. split; try done.
  - by apply keeps_none.
  - intros d Hd. left. by eapply keeps_at.
  - intros e' _ _ _ d Hd. by eapply keeps_at.
Qed.

(** The undoing of a move ends with the credential at its source or, when the rename
    itself fails again, still in the archive. *)
Lemma wp_undo_move target source d1 d2 failed restored E f k d (Φ : res unit → world → Prop) :
  data_at f target = Some d →
  (∀ k, Φ (Raise (Exn CpaAuthRejected "" failed)) (World f k)) →
  (∀ g k msg, data_at g source = Some d → keeps (λ p, p = target ∨ p = source) f g →
     Φ (Raise (Exn CpaAuthRejected "" msg)) (World g k)) →
  wp (undo_move target source d1 d2 failed restored) E (World f k) Φ.
Proof.
  intros Hd Hfail Hback. unfold undo_move. apply wp_bind, wp_try.
  assert (Hf : ∃ m, f !! target = Some (File d m)).
  { unfold data_at in Hd. destruct (f !! target) as [[]|]; try done. injection Hd as ->. by eexists. }
  destruct Hf as [m Hf].
  set (g := <[source := File d m]> (delete target f)).
  assert (Hg : data_at g source = Some d) by apply data_at_insert.
  assert (Hk : keeps (λ p, p = target ∨ p = source) f g).
  { intros q e Hq He. unfold g. rewrite data_at_insert_ne, data_at_delete_ne; [done| |]; intros ->; apply Hq; auto. }
  apply wp_bind. eapply wp_outcome; [by eapply replace_outcome| |].
  - intros k1. fold g. apply wp_bind, wp_fsync_directory.
    + intros k2. apply wp_fsync_directory.
      * intros k3. apply wp_throw. by apply Hback.
      * intros e k3 He. unfold except. simpl. rewrite He. apply wp_throw. by apply Hback.
    + intros e k2 He. unfold except. simpl. rewrite He. apply wp_throw. by apply Hback.
  - intros e k1 He. unfold except. simpl. rewrite He. apply wp_throw, Hfail.
Qed.

Lemma keeps_move f source target d m :
  data_at f target = None →
  keeps (only source) f (<[target := File d m]> (delete source f)).
Proof.
  intros Ht q e Hq He. rewrite data_at_insert_ne; [by rewrite data_at_delete_ne|].
  intros ->. congruence.
Qed.

Lemma child_name_inj dir n m : child dir n = child dir m → n = m.
Proof. unfold child. intros [= H]. apply app_inv_head in H. by injection H. Qed.

(** The credential has been moved: [g] differs from the state [f1] before the move
    only by it. *)
Definition moved_state (source target : path) (d : string) (f1 g : fs) : Prop :=
  data_at g target = Some d ∧ data_at g source = None ∧
  keeps (only source) f1 g.

Lemma moved_state_same source target d f1 g h :
  moved_state source target d f1 g → same_data none g h → moved_state source target d f1 h.
Proof.
  intros (Ht & Hs & Hk) H. split_and!.
  - by rewrite (same_at _ _ _ H).
  - by rewrite (same_at _ _ _ H).
  - eapply keeps_trans; [done|]. by apply keeps_none, same_keeps.
Qed.

Lemma quarantine_post_moved archive source f f1 n d e g :
  child archive n ≠ child archive MANIFEST_NAME → keeps none f f1 → data_at f source = Some d → data_at f1 (child archive n) = None →
  data_at g (child archive n) = Some d →
  keeps (moved_paths source (child archive MANIFEST_NAME)) f1 g →
  (exn_cls e = CpaAuthRejected → exn_msg e = restored_message → data_at g source = Some d) →
  quarantine_post archive source f (Raise e) g.
Proof.
  intros Hn H1 Hd Hfree Ht Hk Hres. split.
  - eapply keeps_trans; [by apply keeps_none|done].
  - intros d' Hd'. right. exists n. rewrite Hd in Hd'. injection Hd' as <-.
    split; [by intros ->|]. split; [|done].
    destruct (data_at f (child archive n)) as [x|] eqn:Hx; [|done].
    by rewrite (keeps_at _ _ _ _ H1 Hx) in Hfree.
  - intros e' [= <-] Hc Hm d' Hd'. rewrite Hd in Hd'. injection Hd' as <-. auto.
  - done.
Qed.

Lemma os_not_rejected e : os_exn e → exn_cls e ≠ CpaAuthRejected.
Proof. unfold os_exn. intros H E. by rewrite E in H. Qed.

(** The rest of the call, once the credential is in the archive. *)
Lemma wp_quarantine_tail archive source relative n reason moved_at manifest record d f f1 g E k :
  source <> child archive MANIFEST_NAME ->
  child archive n <> child archive MANIFEST_NAME →
  source ≠ child archive n →
  keeps none f f1 → data_at f source = Some d → data_at f1 (child archive n) = None →
  moved_state source (child archive n) d f1 g →
  let target := child archive n in
  wp (let entry := quarantine_entry relative target reason moved_at in
      let manifest := dset "entries" (JList (entries_of manifest ++ [entry])) manifest in
      try_with (atomic_write_json (child archive MANIFEST_NAME) manifest)
        (except [OSError] (λ _,
           undo_move target source (p_parent source) archive
             "CPA quarantine transaction and rollback failed" restored_message)) ;;
      ret (dset "reason" (JStr (safe_reason reason))
            (dset "moved_from" (JStr (path_str source))
              (dset "path" (JStr (path_str target)) record)))) E (World g k)
    (λ r w', quarantine_post archive source f r (w_fs w')).
Proof.
  intros Hsm Hnm Hsn H1 Hd Hfree (Ht & Hs & Hk) target. cbv zeta.
  fold target in Hnm, Hsn, Hfree, Ht. fold target.
  set (entry := quarantine_entry _ _ _ _). set (m' := dset "entries" _ manifest).
  assert (Hff : data_at f target = None).
  { destruct (data_at f target) as [x|] eqn:Hx; [|done].
    by rewrite (keeps_at _ _ _ _ H1 Hx) in Hfree. }
  assert (Hkeep : ∀ h, keeps (only (child archive MANIFEST_NAME)) g h →
    keeps (moved_paths source (child archive MANIFEST_NAME)) f1 h).
  { intros h Hh. eapply keeps_trans; [eapply keeps_weaken; [|exact Hk]|eapply keeps_weaken; [|exact Hh]];
      intros p Hp; [by left|by right]. }
  apply wp_bind, wp_try, wp_atomic_write_json.
  - intros h k1 Hh Hm. apply wp_ret. split.
    + eapply keeps_trans; [by apply keeps_none|]. by apply Hkeep, same_keeps.
    + intros d' Hd'. right. exists n. rewrite Hd in Hd'. injection Hd' as <-.
      split; [by intros ->|]. split; [done|]. by rewrite Hh.
    + done.
    + intros rec [= <-]. exists n, d, m'.
      exists [("source_relative", JStr (path_str relative)); ("quarantine_name", JStr (p_name target));
              ("reason", JStr (safe_reason reason)); ("moved_at", JStr moved_at)].
      split_and!; try done.
      * unfold dget. by rewrite !dlookup_dset.
      * by rewrite Hh.
      * by rewrite Hh.
      * unfold entries_of, m'. rewrite dget_dset. simpl. apply List.last_last.
      * unfold dget. simpl. f_equal. apply List.last_last.
  - intros e h k1 He Hh. unfold except. simpl. rewrite He. simpl.
    assert (Hth : data_at h target = Some d) by (apply Hh; done).
    apply (wp_undo_move _ _ _ _ _ _ _ _ _ d); [done| |].
    + intros k2. eapply quarantine_post_moved; try done; by auto.
    + intros g2 k2 msg Hsrc Hg2. split.
      * eapply keeps_trans; [by apply keeps_none|]. intros p x Hp Hx.
        destruct (decide (p = target)) as [->|Hpt].
        -- by rewrite Hx in Hfree.
        -- apply Hg2; [|by apply Hkeep]. intros [->| ->]; [done|]. apply Hp. by left.
      * intros d' Hd'. left. simpl. rewrite Hd in Hd'. by injection Hd' as <-.
      * intros e' _ _ _ d' Hd'. simpl. rewrite Hd in Hd'. by injection Hd' as <-.
      * done.
Qed.

Lemma wp_quarantine config record reason moved_at archive E f k :
  configured_archive_dir config = Ok archive →
  path_of (record_path record) <> child archive MANIFEST_NAME →
  wp (quarantine_auth_record config record reason moved_at) E (World f k)
    (λ r w', quarantine_post archive (path_of (record_path record)) f r (w_fs w')).
Proof.
  intros Ha Hsm. unfold quarantine_auth_record. set (source := path_of _) in *.
  apply wp_bind, wp_lift. destruct (configured_auth_dir config) as [auth|];
    [|apply quarantine_post_early, keeps_refl].
  rewrite Ha. apply wp_bind, wp_lift.
  apply wp_bind, wp_ensure_dir; [|intros; by apply quarantine_post_early, same_keeps].
  intros f0 k0 m0 Hf0 _.
  assert (Hearly : ∀ e g, keeps none f0 g → quarantine_post archive source f (Raise e) g).
  { intros e g Hg. apply quarantine_post_early. eapply keeps_trans; [|done]. by apply same_keeps. }
  apply wp_bind, wp_contained; [|intros; by apply Hearly, keeps_refl].
  intros relative k1 d m Hfile.
  assert (Hd0 : data_at f0 source = Some d) by (unfold data_at; by rewrite Hfile).
  assert (Hd : data_at f source = Some d).
  { rewrite <- Hd0. symmetry. apply Hf0. by intros []. }
  apply wp_bind, wp_quarantine_lock; [|intros; by apply Hearly].
  intros f1 k2 Hf1 _.
  assert (Hearly1 : ∀ e, quarantine_post archive source f (Raise e) f1) by (intros; by apply Hearly).
  apply wp_bind, wp_pure; [apply fs_pure_st_dev|]. intros [dev1|e] k3; [|apply Hearly1].
  apply wp_bind, wp_pure; [apply fs_pure_st_dev|]. intros [dev2|e] k4; [|apply Hearly1].
  destruct (negb _); [apply wp_throw, Hearly1|].
  apply wp_bind, wp_pure; [apply fs_pure_manifest_of|]. intros [manifest|e] k5; [|apply Hearly1].
  apply wp_bind, wp_unique; [|intros; apply Hearly1].
  intros t k6 Hfree. pose proof (free_target_data _ _ _ Hfree) as Hft.
  destruct Hfree as ((n & ->) & Hres & _).
  assert (Hd1 : data_at f1 source = Some d) by (by eapply keeps_at).
  assert (Hsn : source ≠ child archive n) by (intros E'; rewrite E' in Hd1; congruence).
  assert (Hnm : child archive n ≠ child archive MANIFEST_NAME).
  { intros E'. rewrite E' in Hres. unfold reserved, p_name, child in Hres. simpl in Hres.
    by rewrite List.last_last in Hres. }
  assert (Hm1 : ∃ m1, f1 !! source = Some (File d m1)).
  { unfold data_at in Hd1. destruct (f1 !! source) as [[]|]; try done. injection Hd1 as ->. by eexists. }
  destruct Hm1 as [m1 Hm1].
  assert (Hff1 : keeps none f f1) by (eapply keeps_trans; [by apply same_keeps|done]).
  apply wp_bind. eapply wp_outcome; [by eapply replace_outcome| |intros; apply Hearly1].
  intros k7. set (f2 := <[child archive n := File d m1]> (delete source f1)).
  assert (H2 : moved_state source (child archive n) d f1 f2).
  { split_and!; [apply data_at_insert| |by apply keeps_move]. unfold f2.
    rewrite data_at_insert_ne by done. unfold data_at. by rewrite lookup_delete_eq. }
  assert (Hlate : ∀ e g, os_exn e → moved_state source (child archive n) d f1 g →
    quarantine_post archive source f (Raise e) g).
  { intros e g He (Ht & _ & Hk). eapply quarantine_post_moved; try done.
    - eapply keeps_weaken; [|done]. intros p Hp. by left.
    - intros Hc. by apply os_not_rejected in He. }
  apply wp_bind, wp_chmod; [|intros; by apply Hlate].
  intros f3 k8 H3. pose proof (moved_state_same _ _ _ _ _ _ H2 H3) as Hf3.
  apply wp_bind, wp_fsync_directory; [intros k9|intros; by apply Hlate].
  apply wp_bind, wp_fsync_directory; [intros k10|intros; by apply Hlate].
  by apply (wp_quarantine_tail archive source relative n reason moved_at manifest record d f f1).
Qed.

(** ** Restore *)

Definition remained_message : string :=
  "CPA restore manifest write failed; credential remained quarantined".

(** What holds once an entry was chosen: [source] is the file in the archive, [target]
    where the credential came from. *)
Record restored_post (source target manifest : path) (f : fs) (r : res dict) (g : fs) : Prop := {
  rp_credential : ∀ p d, p ≠ manifest → data_at f p = Some d →
    data_at g p = Some d ∨ (p = source ∧ data_at f target = None ∧ data_at g target = Some d);
  rp_restored : ∀ doc, r = Ok doc →
    ∃ d, dget "restored" doc = JStr (path_str target) ∧
      data_at f source = Some d ∧ data_at f target = None ∧
      data_at g target = Some d ∧ data_at g source = None }.

(** What holds however a restoration ends: it is refused and no file is touched, or it
    moves the file of one entry.  An entry that names the manifest or the lock is not one
    that [quarantine_auth_record] writes ([free_target]). *)
Definition restore_post (config : dict) (archive : path) (f : fs) (r : res dict) (g : fs) : Prop :=
  ((∃ e, r = Raise e) ∧ keeps none f g) ∨
  ∃ auth entry target source,
    configured_auth_dir config = Ok auth ∧
    legacy_entry_paths entry auth archive = Ok (target, source) ∧
    (reserved source = false →
     restored_post source target (child archive MANIFEST_NAME) f r g).

Lemma restored_post_moved manifest f f1 source target d e g :
  keeps none f f1 → data_at f1 target = None → source ≠ target → source ≠ manifest →
  data_at f1 source = Some d → data_at g target = Some d →
  keeps (moved_paths source manifest) f1 g →
  restored_post source target manifest f (Raise e) g.
Proof.
  intros H1 Hfree Hst Hsm Hd Ht Hk. split; [|done].
  intros p x Hp Hx. pose proof (keeps_at _ _ _ _ H1 Hx) as Hx1.
  destruct (decide (p = source)) as [->|Hps].
  - right. split; [done|]. split; [|congruence].
    destruct (data_at f target) as [y|] eqn:Hy; [|done].
    by rewrite (keeps_at _ _ _ _ H1 Hy) in Hfree.
  - left. apply Hk; [|done]. by intros [->| ->].
Qed.

Lemma wp_restore_tail manifest_path manifest target source entries d f f1 g E k :
  source ≠ target → source ≠ manifest_path → target ≠ manifest_path →
  keeps none f f1 → data_at f source = Some d → data_at f1 source = Some d →
  data_at f1 target = None →
  moved_state source target d f1 g →
  wp (let manifest := dset "entries" entries manifest in
      try_with (atomic_write_json manifest_path manifest)
        (except [OSError] (λ _,
           undo_move target source (p_parent source) (p_parent target)
             "CPA restore transaction and rollback failed" remained_message)) ;;
      ret [("restored", JStr (path_str target)); ("quarantine_name", JStr (p_name source))])
     E (World g k) (λ r w', restored_post source target manifest_path f r (w_fs w')).
Proof.
  intros Hst Hsm Htm H1 Hd Hd1 Hfree (Ht & Hs & Hk). cbv zeta.
  assert (Hff : data_at f target = None).
  { destruct (data_at f target) as [x|] eqn:Hx; [|done].
    by rewrite (keeps_at _ _ _ _ H1 Hx) in Hfree. }
  assert (Hkeep : ∀ h, keeps (only manifest_path) g h → keeps (moved_paths source manifest_path) f1 h).
  { intros h Hh. eapply keeps_trans; [eapply keeps_weaken; [|exact Hk]|eapply keeps_weaken; [|exact Hh]];
      intros p Hp; [by left|by right]. }
  apply wp_bind, wp_try, wp_atomic_write_json.
  - intros h k1 Hh Hm. apply wp_ret.
    assert (Hth : data_at h target = Some d) by (by rewrite Hh).
    pose proof (Hkeep _ (same_keeps _ _ _ Hh)) as Hkh.
    destruct (restored_post_moved manifest_path f f1 source target d
      (Exn OSError "" "") h H1 Hfree Hst Hsm Hd1 Hth Hkh) as [Hc _].
    split; [done|]. intros doc [= <-]. exists d.
    split_and!; try done. by rewrite Hh.
  - intros e h k1 He Hh. unfold except. simpl. rewrite He. simpl.
    assert (Hth : data_at h target = Some d) by (apply Hh; done).
    apply (wp_undo_move _ _ _ _ _ _ _ _ _ d); [done| |].
    + intros k2. apply (restored_post_moved _ f f1 source target d); auto.
    + intros g2 k2 msg Hsrc Hg2. split; [|done].
      intros p x Hp Hx. pose proof (keeps_at _ _ _ _ H1 Hx) as Hx1. left.
      simpl. destruct (decide (p = source)) as [->|Hps]; [congruence|].
      destruct (decide (p = target)) as [->|Hpt]; [by rewrite Hx1 in Hfree|].
      apply Hg2; [by intros [->| ->]|]. apply Hkeep; [done|by intros [->| ->]|done].
Qed.

Lemma reserved_ne archive source n :
  reserved source = false → mem n [MANIFEST_NAME; LOCK_NAME] = true → source ≠ child archive n.
Proof.
  intros H Hn ->. unfold reserved, p_name, child in H. simpl fst in H. simpl snd in H.
  rewrite List.last_last in H. congruence.
Qed.

Section restore.
Context (config : dict) (archive auth : path) (f : fs).
Context (Harchive : configured_archive_dir config = Ok archive)
        (Hauth : configured_auth_dir config = Ok auth).

Lemma restore_early e g : keeps none f g → restore_post config archive f (Raise e) g.
Proof. intros H. left. split; [by eexists|done]. Qed.

(** The part of [restore_quarantined_auth] from the checks of the move on. *)
Lemma wp_restore_move entry target source i manifest f1 d m E k :
  legacy_entry_paths entry auth archive = Ok (target, source) →
  keeps none f f1 → same_data (only (child archive LOCK_NAME)) f f1 →
  f1 !! source = Some (File d m) → data_at f1 target = None →
  target ≠ child archive MANIFEST_NAME →
  wp (let! d1 := st_dev source in
      let! d2 := st_dev (p_parent target) in
      if negb (d1 =? d2) then rejected_auth "CPA restore requires one filesystem" else
      replace source target ;;
      chmod target 384 ;;
      fsync_directory (p_parent source) ;;
      fsync_directory (p_parent target) ;;
      let manifest := dset "entries"
        (JList (take i (entries_of manifest) ++ drop (S i) (entries_of manifest))) manifest in
      try_with (atomic_write_json (child archive MANIFEST_NAME) manifest)
        (except [OSError] (λ _,
           undo_move target source (p_parent source) (p_parent target)
             "CPA restore transaction and rollback failed" remained_message)) ;;
      ret [("restored", JStr (path_str target)); ("quarantine_name", JStr (p_name source))])
    E (World f1 k) (λ r w', restore_post config archive f r (w_fs w')).
Proof.
  intros Hle H1 Hl Hfile Hft Htm.
  assert (Hd1 : data_at f1 source = Some d) by (unfold data_at; by rewrite Hfile).
  assert (Hearly : ∀ e, restore_post config archive f (Raise e) f1) by (intros; by apply restore_early).
  assert (Hst : source ≠ target) by (intros ->; congruence).
  apply wp_bind, wp_pure; [apply fs_pure_st_dev|]. intros [dev1|e] k6; [|apply Hearly].
  apply wp_bind, wp_pure; [apply fs_pure_st_dev|]. intros [dev2|e] k7; [|apply Hearly].
  destruct (negb _); [apply wp_throw, Hearly|].
  eapply (wp_mono _ _ _ (λ r w', reserved source = false →
    restored_post source target (child archive MANIFEST_NAME) f r (w_fs w')));
    [|intros r w' H; right; by exists auth, entry, target, source].
  destruct (reserved source) eqn:Hres; [done|].
  assert (Hsm : source ≠ child archive MANIFEST_NAME) by (by apply reserved_ne).
  assert (Hsl : source ≠ child archive LOCK_NAME) by (by apply reserved_ne).
  assert (Hds : data_at f source = Some d) by (by rewrite <- (Hl source Hsl)).
  eapply (wp_mono _ _ _ (λ r w', restored_post source target (child archive MANIFEST_NAME) f r (w_fs w')));
    [|by intros r w' H _].
  apply wp_bind. eapply wp_outcome; [by eapply replace_outcome| |].
  2:{ intros e k8 He. split; [|done]. intros p x _ Hx. left. by eapply keeps_at. }
  intros k8. set (f2 := <[target := File d m]> (delete source f1)).
  assert (H2 : moved_state source target d f1 f2).
  { split_and!; [apply data_at_insert| |by apply keeps_move]. unfold f2.
    rewrite data_at_insert_ne by done. unfold data_at. by rewrite lookup_delete_eq. }
  assert (Hlate : ∀ e g, moved_state source target d f1 g →
    restored_post source target (child archive MANIFEST_NAME) f (Raise e) g).
  { intros e g (Ht & _ & Hk). eapply restored_post_moved; try done.
    eapply keeps_weaken; [|done]. intros p Hp. by left. }
  apply wp_bind, wp_chmod; [|intros; by apply Hlate].
  intros f3 k9 H3. pose proof (moved_state_same _ _ _ _ _ _ H2 H3) as Hf3.
  apply wp_bind, wp_fsync_directory; [intros k10|intros; by apply Hlate].
  apply wp_bind, wp_fsync_directory; [intros k11|intros; by apply Hlate].
  by apply (wp_restore_tail _ manifest target source _ d f f1).
Qed.

Lemma wp_restore selector E k :
  wp (restore_quarantined_auth config selector) E (World f k)
    (λ r w', restore_post config archive f r (w_fs w')).
Proof using Harchive Hauth.
  unfold restore_quarantined_auth.
  apply wp_bind, wp_lift. rewrite Hauth. apply wp_bind, wp_lift. rewrite Harchive.
  apply wp_bind, wp_ensure_dir; [|intros; by apply restore_early, same_keeps].
  intros f0 k0 m0 Hf0 _. pose proof (same_keeps _ _ _ Hf0) as Hk0.
  apply wp_bind, wp_quarantine_lock; [|intros; apply restore_early; by eapply keeps_trans].
  intros f1 k1 Hf1 Hl. assert (H1 : keeps none f f1) by (by eapply keeps_trans).
  assert (Hl' : same_data (only (child archive LOCK_NAME)) f f1)
    by (eapply same_trans; [by apply same_none|done]).
  assert (Hearly : ∀ e, restore_post config archive f (Raise e) f1) by (intros; by apply restore_early).
  apply wp_bind, wp_manifest_of; [|intros m k2 Hm|intros; apply Hearly].
  2:{ cbv zeta. rewrite Hm. apply wp_bind, wp_lift. apply Hearly. }
  intros manifest k2 _ Hex. cbv zeta. apply wp_bind, wp_lift.
  destruct (restore_matches _ _ _ _ _) as [[|[i selected] [|]]|e]; try apply Hearly.
  apply wp_bind, wp_lift.
  destruct (legacy_entry_paths selected auth archive) as [[target source]|e] eqn:Hle; [|apply Hearly].
  apply wp_bind, wp_contained; [|intros; apply Hearly].
  intros relative k3 d m Hfile.
  destruct (p_name relative <>s? p_name source); [apply wp_throw, Hearly|].
  apply wp_bind, wp_pure; [apply fs_pure_is_dir|]. intros [parent_ok|e] k4; [|apply Hearly].
  apply wp_bind. destruct parent_ok; simpl negb; cbv iota; [|apply wp_ret, wp_throw, Hearly].
  apply wp_exists; [intros k5|intros; apply Hearly].
  destruct (opt_is _ _) eqn:He; [apply wp_throw, Hearly|]. apply exists_false in He.
  eapply wp_restore_move; try done.
  - unfold data_at. destruct (f1 !! target) as [[]|] eqn:E'; try done.
    by rewrite (stat_file f1 target _ _ E') in He.
  - by intros ->.
Qed.

End restore.

(** ** The contracts *)

(** C1: quarantine_auth_record, under every pattern of failing calls: the credential ends
    with its bytes where it was or at a name of the archive that was free, no other file
    but the manifest changes, an error that says it was restored is true, and a success
    has moved it and written a manifest whose last entry names it. *)
Theorem quarantine_transaction config record reason moved_at archive E w r w'
    (Harchive : configured_archive_dir config = Ok archive)
    (Hsource : path_of (record_path record) ≠ child archive MANIFEST_NAME)
    (Hrun : quarantine_auth_record config record reason moved_at E w = (r, w')) :
  quarantine_post archive (path_of (record_path record)) (w_fs w) r (w_fs w').
Proof.
  destruct w as [f k]. pose proof (wp_quarantine config record reason moved_at archive E f k
    Harchive Hsource) as H. unfold wp in H. by rewrite Hrun in H.
Qed.


(** C34: unique_archive_path always finds a name: it ends with a path of the archive that
    is neither the manifest nor the lock and names no file, or a call of the system fails. *)
Theorem unique_archive_path_finds archive source E w :
  match unique_archive_path archive source E w with
  | (Ok target, w') => w_fs w' = w_fs w ∧ free_target archive (w_fs w) target
  | (Raise e, w') => w_fs w' = w_fs w ∧ os_exn e
  end.
Proof.
  destruct w as [f k].
  pose proof (wp_unique archive source E f k
    (λ r w', w_fs w' = f ∧ match r with Ok t => free_target archive f t | Raise e => os_exn e end)) as H.
  unfold wp in H. destruct (unique_archive_path archive source E (World f k)) as [[t|e] w'];
    apply H; auto.
Qed.

(** A credential, its directories, and an environment whose call [n] fails. *)
Definition sample_config : dict :=
  [("cliproxy", JDict [("auth_dir", JStr "/auth"); ("quarantine_dir", JStr "/archive")])].
Definition sample_fs : fs :=
  list_to_map [(path_of "/auth", Dir 448); (path_of "/archive", Dir 448);
               (path_of "/auth/a.json", File "{}" 384)].
Definition sample_record : dict := [("path", JStr "/auth/a.json")].
Definition faulty (n : nat) : env :=
  Env (λ k, Nat.eqb k n) (λ _, "x") (λ _, 0) (λ _ _, FNan) (λ _ _, false) (λ _, 0).
Definition quarantine_sample (n : nat) : res dict * world :=
  quarantine_auth_record sample_config sample_record "expired" "now" (faulty n) (World sample_fs 0).
Definition archived_fs : fs := w_fs (quarantine_sample 100).2.

Lemma quarantine_transaction_witness :
  ∃ rec w', quarantine_sample 100 = (Ok rec, w') ∧
    quarantine_post (path_of "/archive") (path_of "/auth/a.json") sample_fs (Ok rec) (w_fs w').
Proof.
  destruct (quarantine_sample 100) as [[rec|e] w'] eqn:H; [|vm_compute in H; discriminate].
  exists rec, w'. split; [done|].
  apply (quarantine_transaction sample_config sample_record "expired" "now" (path_of "/archive")
           (faulty 100) (World sample_fs 0) (Ok rec) w'); [by vm_compute|by vm_compute|exact H].
Defined.


(** Two windows of quarantine_auth_record that its messages do not tell of: when the
    mode of the moved file cannot be set (call 15) the credential stays in the archive
    with no manifest entry, and when the directory cannot be synchronised after the
    manifest was renamed (call 27) the error says that the credential was restored, which
    is true, but the manifest still lists it. *)
Theorem quarantine_fault_windows :
  match quarantine_sample 15 with
  | (Raise e, w') =>
      exn_cls e = OSError ∧
      data_at (w_fs w') (path_of "/archive/a.json") = Some "{}" ∧
      data_at (w_fs w') (path_of "/auth/a.json") = None ∧
      w_fs w' !! child (path_of "/archive") MANIFEST_NAME = None
  | _ => False
  end ∧
  match quarantine_sample 27 with
  | (Raise e, w') =>
      exn_cls e = CpaAuthRejected ∧ exn_msg e = restored_message ∧
      data_at (w_fs w') (path_of "/auth/a.json") = Some "{}" ∧
      data_at (w_fs w') (path_of "/archive/a.json") = None ∧
      (loads <$> data_at (w_fs w') (child (path_of "/archive") MANIFEST_NAME)) =
        Some (Ok (JDict
          [("entries", JList [JDict
              [("moved_at", JStr "now"); ("quarantine_name", JStr "a.json");
               ("reason", JStr "expired"); ("source_relative", JStr "a.json")]]);
           ("schema", JStr MANIFEST_SCHEMA)]))
  | _ => False
  end.
Proof. split; vm_compute; split_and!; reflexivity. Qed.
