(* ===== verification/Importer.v ===== *)
(** * The credential importer ([cloud/cloudx_cloud/importer.py])

    A source of up to 16 MiB is decoded, split into JSON documents or raw cards, each
    record flattened to one layout, duplicates dropped by fingerprint, and the rest
    written to the credential directory as one transaction.

    [opener] stands for [urllib.request.urlopen] on the token endpoint: it takes the
    body of the request and gives the body of the answer, or raises. *)

From S2P Require Import Prelude PyStr PyFloat PyValue PyRe PyTime PyJson PyBase64 PySha FS.
From S2P Require Import AgentIdentity CpaRecords.

Definition MAX_SOURCE_BYTES : Z := 16 * 1024 * 1024.
Definition DEFAULT_CODEX_CLIENT_ID : string := "app_EMoamEEZ73f0CkXaXp7hrann".

Definition rejected_import {A} (code msg : string) : res A := raise_code ImportRejected code msg.

Record import_result := ImportResult {
  ir_request_id : string; ir_request_hash : string; ir_status : string;
  ir_dry_run : bool; ir_written : Z; ir_skipped : Z }.

Definition as_dict (r : import_result) : json :=
  JDict [("schema", JStr "cloudx.import.v1"); ("requestId", JStr (ir_request_id r));
         ("requestHash", JStr (ir_request_hash r)); ("status", JStr (ir_status r));
         ("dryRun", JBool (ir_dry_run r)); ("written", JInt (ir_written r));
         ("skipped", JInt (ir_skipped r)); ("errors", JList [])].

Definition request_identity (raw : string) : string * string :=
  (str_take 16 (sha256 raw), sha256 raw).

(** [stream] is everything the stream would give. *)
Definition read_limited (stream : string) (limit : Z) : res string :=
  let raw := str_take_z (limit + 1) stream in
  if limit <? str_len raw then rejected_import "source_too_large" "import source exceeds 16 MiB"
  else if raw =s? "" then rejected_import "source_empty" "import source is empty"
  else Ok raw.

(** ** Decoding *)

Definition bytes (l : list nat) : string := of_chars (map ascii_of_nat l).
Definition BOM_LE : string := bytes [255; 254]%nat.
Definition BOM_BE : string := bytes [254; 255]%nat.

(** The UTF-8 text of UTF-16 code units; [None] on a lone surrogate. *)
Fixpoint utf16_text (units : list Z) : option string :=
  match units with
  | [] => Some ""
  | u :: units =>
      if (55296 <=? u) && (u <? 56320) then
        match units with
        | v :: units =>
            if (56320 <=? v) && (v <? 57344) then
              let? rest := utf16_text units in
              Some (encode_cp (65536 + (u - 55296) * 1024 + (v - 56320)) +:+ rest)
            else None
        | [] => None
        end
      else if (56320 <=? u) && (u <? 57344) then None
      else let? rest := utf16_text units in Some (encode_cp u +:+ rest)
  end.
Fixpoint code_units (big : bool) (s : string) : option (list Z) :=
  match s with
  | EmptyString => Some []
  | String a (String c s) =>
      let hi := Z.of_nat (ord (if big then a else c)) in
      let lo := Z.of_nat (ord (if big then c else a)) in
      let? rest := code_units big s in Some (256 * hi + lo :: rest)
  | String _ EmptyString => None
  end.
Definition decode_utf16 (raw : string) : option string :=
  let? units :=
    (if starts_with BOM_BE raw then code_units true (str_drop 2 raw)
     else if starts_with BOM_LE raw then code_units false (str_drop 2 raw)
     else code_units false raw) in
  utf16_text units.
Definition decode_utf8_sig (raw : string) : res string :=
  decode_res (if starts_with BOM raw then str_drop 3 raw else raw).

Definition decode_source (raw : string) : res string :=
  if contains NUL raw && negb (starts_with BOM_LE raw || starts_with BOM_BE raw) then
    rejected_import "source_not_text" "import source must be text"
  else match decode_utf8_sig raw with
       | Ok text => Ok text
       | Raise _ =>
           match decode_utf16 raw with
           | Some text => Ok text
           | None => rejected_import "source_encoding" "import source must be UTF-8 or UTF-16"
           end
       end.

(** [while index < len(text)]: from each brace on, one document. *)
Fixpoint decode_documents (fuel : nat) (text : string) : res (list json) :=
  match fuel with
  | O => Ok []
  | S fuel =>
      match str_find "{" text with
      | None => Ok []
      | Some start =>
          match raw_decode (str_drop start text) with
          | None => rejected_import "invalid_json" "import source contains invalid JSON"
          | Some (value, rest) =>
              let* documents := decode_documents fuel rest in Ok (value :: documents)
          end
      end
  end.
Definition json_documents (text : string) : res (list json) :=
  let stripped := strip text in
  if stripped =s? "" then rejected_import "source_empty" "import source is empty"
  else match loads stripped with
       | Ok v => Ok [v]
       | Raise _ => decode_documents (S (String.length text)) text
       end.

(** ** Records *)

Definition import_fingerprint_parts (data : dict) : list string :=
  match fingerprint_parts data with
  | [] => let '(access, refresh, identity) := auth_tokens data in [access; refresh; identity]
  | parts => parts
  end.

(** [fromtimestamp] raises outside the years 1 to 9999. *)
Definition iso_epoch (value : json) : res string :=
  let finish (o : option datetime) :=
    match o with
    | Some t => Ok (replace_utc (isoformat t))
    | None => raise ValueError "year is out of range"
    end in
  match value with
  | JBool b => finish (Some (utc (EPOCH_US + (if b then 1 else 0) * US)))
  | JInt z => let w := EPOCH_US + z * US in finish (if valid_wall w then Some (utc w) else None)
  | JFloat f => finish (fromtimestamp f)
  | _ => Ok ""
  end.

Definition AUTH_CLAIM : string := "https://api.openai.com/auth".
Definition KEPT_KEYS : list string := ["label"; "source"; "last_refresh"; "plan_type"; "status"].

(** The claims of the account, from the identity token or the access token. *)
Definition auth_claims (id_claims access_claims : dict) : dict :=
  match dget AUTH_CLAIM id_claims with
  | JDict d => d
  | _ => dict_or_empty (dget AUTH_CLAIM access_claims)
  end.

Definition auth_type_of (nested : bool) (source entry : dict) : string :=
  let nested_auth_type := casefold (str_first [dget "type" source; dget "provider" source]) in
  let outer_auth_type := casefold (str_or_empty (dget "type" entry)) in
  let outer_platform := casefold (str_or_empty (dget "platform" entry)) in
  if nested_auth_type <>s? "" then nested_auth_type
  else if nested && (outer_auth_type =s? "oauth") && (outer_platform =s? "openai") then "codex"
  else str_or outer_auth_type "codex".

Definition flat_record (source : dict) (email account_id expired : string) : dict :=
  let '(access, refresh, identity) := auth_tokens source in
  let flat :=
    [("type", JStr "codex"); ("disabled", JBool (truthy (dget_or "disabled" (JBool false) source)));
     ("websockets", JBool (truthy (dget_or "websockets" (JBool false) source)));
     ("access_token", JStr access); ("refresh_token", JStr refresh);
     ("id_token", JStr identity); ("account_id", JStr account_id)] in
  fold_left (λ flat key, match dlookup key source with Some v => dset key v flat | None => flat end)
    KEPT_KEYS (set_text "expired" expired (set_text "email" email flat)).

Definition flatten (entry : dict) : res dict :=
  let nested := is_dict (dget "credentials" entry) in
  let source := match dget "credentials" entry with JDict c => c | _ => entry end in
  if is_agent_identity source then
    match normalize source (strip (str_or_empty (dget "account_id" entry)))
            (strip (str_or_empty (dget "name" entry))) with
    | Ok r => Ok r
    | Raise e =>
        if catches AgentIdentityError (exn_cls e) then
          rejected_import "credential_invalid"
            ("an Agent Identity import record is invalid: " +:+ exn_msg e)
        else Raise e
    end
  else
  let '(access, _, identity) := auth_tokens source in
  if negb (any_token (auth_tokens source)) then
    rejected_import "missing_token" "an import record has no supported token"
  else
  let access_claims := jwt_claims access in
  let id_claims := jwt_claims identity in
  let claims := auth_claims id_claims access_claims in
  let auth_type := auth_type_of nested source entry in
  if negb (mem auth_type [""; "codex"]) then
    rejected_import "wrong_provider" "an import record is not a Codex credential"
  else
  let email := strip (str_first [dget "email" source; dget "user_email" source;
                                 dget "name" entry; dget "email" id_claims]) in
  let account_id := strip (str_first [dget "account_id" source; dget "chatgpt_account_id" source;
                                      dget "chatgpt_account_id" claims]) in
  let stated := first_true [dget "expired" source; dget "expiry" source;
                            dget "auth_expires_at" source; dget "expires_at" source] in
  let* expired :=
    (if truthy stated then Ok (strip (py_str stated))
     else let* a := iso_epoch (dget "exp" access_claims) in
          if a <>s? "" then Ok (strip a)
          else let* b := iso_epoch (dget "exp" id_claims) in Ok (strip b)) in
  Ok (flat_record source email account_id expired).

(** ** Expansion *)

(** How deep lists and dicts nest. *)
Fixpoint depth (v : json) : nat :=
  match v with
  | JList l => S (list_max (map depth l))
  | JDict d => S (list_max (map (λ kv, depth kv.2) d))
  | _ => O
  end.

(** [d.get(key)] is a dict with a list of accounts: the list. *)
Definition accounts_under (key : string) (d : dict) : option (list json) :=
  match dget key d with
  | JDict inner => match dget "accounts" inner with JList l => Some l | _ => None end
  | _ => None
  end.

Definition bundle_data (item : json) : list dict :=
  match item with
  | JDict i => match dget "data" i with JDict data => [data] | _ => [] end
  | _ => []
  end.

Fixpoint expand_go (fuel : nat) (value : json) : list dict :=
  match fuel with
  | O => []
  | S fuel =>
      match value with
      | JList l => flat_map (λ item, if is_dict item then expand_go fuel item else []) l
      | JDict d =>
          match accounts_under "result" d, accounts_under "payload" d, dget "accounts" d with
          | Some l, _, _ => expand_go fuel (JList l)
          | None, Some l, _ => expand_go fuel (JList l)
          | None, None, JList l => expand_go fuel (JList l)
          | None, None, _ =>
              match dget "files" d with
              | JList files =>
                  if in_strs (dget "type" d) ["cliproxy-auth-bundle"; "codexx-cliproxy-auth-bundle"]
                  then flat_map bundle_data files else [d]
              | _ => [d]
              end
          end
      | _ => []
      end
  end.
Definition expand (value : json) : list dict := expand_go (S (depth value)) value.

(** ** Raw cards *)

Definition is_card_char (c : ascii) : bool := is_alnum c || one_of "_-" c.
Fixpoint run_length (f : ascii → bool) (s : string) : nat :=
  match s with String c s => if f c then S (run_length f s) else O | EmptyString => O end.
Definition dashes : string → nat := run_length (Ascii.eqb "-").

(** After the client identifier: the run of four dashes or more, taken as long as a
    character is left, and the rest of the line. *)
Definition card_tail (t : string) : option string :=
  let n := dashes t in
  if Nat.ltb n 4 then None
  else if str_drop n t <>s? "" then Some (str_drop n t)
  else if Nat.leb 5 n then Some "-" else None.
(** The longest identifier for which the rest matches. *)
Fixpoint card_client (n : nat) (t : string) : option (string * string) :=
  match n with
  | O => None
  | S n' =>
      if Nat.ltb n 5 then None
      else match card_tail (str_drop n t) with
           | Some token => Some (str_take n t, token)
           | None => card_client n' t
           end
  end.
(** The shortest first group: [i] is its length. *)
Fixpoint card_from (fuel i : nat) (line : string) : option (string * string * string) :=
  match fuel with
  | O => None
  | S fuel =>
      let rest := str_drop i line in
      let n := dashes rest in
      let t := str_drop n rest in
      match (if Nat.leb 8 n && starts_with "app_" t then card_client (run_length is_card_char t) t
             else None) with
      | Some (client, token) => Some (str_take i line, client, token)
      | None => card_from fuel (S i) line
      end
  end.
(** [RAW_CARD.match(line)] on a line without line breaks. *)
Definition raw_card (line : string) : option (string * string * string) :=
  card_from (String.length line) 1 line.

(** [urllib.parse.quote_plus]. *)
Definition upper_hex (n : nat) : ascii :=
  if Nat.ltb n 10 then ascii_of_nat (48 + n) else ascii_of_nat (55 + n).
Definition quote_char (c : ascii) : string :=
  if is_alnum c || one_of "_.-~" c then String c ""
  else if Ascii.eqb c " " then "+"
  else String "%" (String (upper_hex (ord c / 16)%nat) (String (upper_hex (ord c mod 16)%nat) "")).
Definition urlencode (fields : list (string * string)) : string :=
  str_join "&" (map (λ kv, str_flat_map quote_char kv.1 +:+ "=" +:+ str_flat_map quote_char kv.2) fields).

Fixpoint lstrip_bom (fuel : nat) (s : string) : string :=
  match fuel with
  | O => s
  | S fuel => if starts_with BOM s then lstrip_bom fuel (str_drop 3 s) else s
  end.

Section importer.
Context (opener : string → M string).

Definition refresh_rejected {A} : M A :=
  lift (rejected_import "refresh_failed" "a raw card credential could not be refreshed").

Definition refresh_card (email client_id refresh_token : string) : M dict :=
  let body := urlencode [("grant_type", "refresh_token"%string); ("client_id", client_id);
                         ("refresh_token", refresh_token)] in
  let! payload := try_with (let! answer := opener body in lift (loads_bytes answer))
                    (except_all (λ _, refresh_rejected)) in
  match payload with
  | JDict payload =>
      lift (flatten
        [("email", JStr email);
         ("access_token", dget_or "access_token" (JStr "") payload);
         ("refresh_token", py_or (dget "refresh_token" payload) (JStr refresh_token));
         ("id_token", dget_or "id_token" (JStr "") payload)])
  | _ => refresh_rejected
  end.

Definition unsupported {A} : M A :=
  lift (rejected_import "unsupported_source" "import source has no supported credential records").

Definition card_line (raw_line : string) : M (list dict) :=
  let line := lstrip_bom (String.length raw_line) (strip raw_line) in
  if (line =s? "") || mem line ["card export"; "卡密导出"] then ret []
  else match raw_card line with
       | Some (email, client, token) =>
           if contains "@" email then
             let! r := refresh_card (strip email) (str_or (strip client) DEFAULT_CODEX_CLIENT_ID)
                         (strip token) in ret [r]
           else unsupported
       | None => unsupported
       end.

Definition invalid_envelope {A} : M A :=
  lift (rejected_import "invalid_envelope" "directory import envelope is invalid").

(** The files of a directory envelope, if the documents are one. *)
Definition envelope (documents : list json) : option json :=
  match documents with
  | [JDict d] => if eq_str (dget "schema" d) "cloudx.import-source.v1" then Some (dget "files" d) else None
  | _ => None
  end.

(** The text of an envelope's file is shorter than the envelope. *)
Fixpoint normalize_text (fuel : nat) (text : string) : M (list dict) :=
  match fuel with
  | O => mraise RuntimeError "maximum recursion depth exceeded"
  | S fuel =>
      let! documents := lift (json_documents text) in
      let! records :=
        match envelope documents with
        | Some (JList files) =>
            let! parts := mmap (λ item,
              match item with
              | JDict i => match dget "content" i with
                           | JStr content => normalize_text fuel content
                           | _ => invalid_envelope
                           end
              | _ => invalid_envelope
              end) files in
            ret (List.concat parts)
        | Some _ => invalid_envelope
        | None => mmap (λ entry, lift (flatten entry)) (flat_map expand documents)
        end in
      let! records :=
        match records with
        | [] => let! parts := mmap card_line (splitlines text) in ret (List.concat parts)
        | _ => ret records
        end in
      match records with [] => unsupported | _ => ret records end
  end.

Definition fingerprint (record : dict) : string :=
  sha256 (str_join NUL (import_fingerprint_parts record)).

(** [unique.setdefault(fingerprint, record)]. *)
Fixpoint unique_records (seen : list string) (l : list dict) : list dict :=
  match l with
  | [] => []
  | r :: l =>
      if mem (fingerprint r) seen then unique_records seen l
      else r :: unique_records (fingerprint r :: seen) l
  end.

Definition normalize_source (raw : string) : M (list dict) :=
  let! text := lift (decode_source raw) in
  let! records := normalize_text (S (String.length text)) text in
  ret (unique_records [] records).

(** ** The transaction *)

Definition target_of (auth_dir : path) (record : dict) : path :=
  (auth_dir.1, auth_dir.2 ++ ["codex-" +:+ str_take 24 (fingerprint record) +:+ ".json"]).
Definition serialized (record : dict) : string :=
  dumps (st_pretty 2 true true) (JDict record) +:+ LF.
Definition import_write (p : path) (data : string) : M unit :=
  write_replace ".cloudx-import-" 384 p data.

(** [locked]. *)
Definition import_lock (p : path) : M unit :=
  mkdir_parents (p_parent p) 493 ;; open_append p ;; chmod p 384 ;; sys (* flock *).

(** [(target, data, previous)] *)
Definition plan_entry : Type := (path * string * option string)%type.

Definition plan_step (auth_dir : path) (force : bool) (s : list plan_entry * Z) (record : dict)
    : M (list plan_entry * Z) :=
  let target := target_of auth_dir record in
  let! link := is_symlink_p target in
  let! unsafe :=
    (if link then ret true
     else let! present := exists_p target in
          if present then let! file := is_file_p target in ret (negb file) else ret false) in
  if unsafe then lift (rejected_import "unsafe_target" "an import target is not a regular file") else
  let data := serialized record in
  let! present := exists_p target in
  let! previous := (if present then let! d := read_bytes target in ret (Some d) else ret None) in
  match previous with
  | Some d =>
      if d =s? data then ret (s.1, s.2 + 1)
      else if negb force then
        lift (rejected_import "target_exists" "an import target already exists; use --force to replace it")
      else ret (s.1 ++ [(target, data, previous)], s.2)
  | None => ret (s.1 ++ [(target, data, previous)], s.2)
  end.

Definition rollback_one (c : path * option string) : M unit :=
  ignore_oserror (match c.2 with None => unlink c.1 | Some previous => import_write c.1 previous end).

(** The writes of the plan; [completed] are those done, the last first. *)
Fixpoint commit (plan : list plan_entry) (completed : list (path * option string)) : M unit :=
  match plan with
  | [] => ret tt
  | (target, data, previous) :: plan =>
      try_with (import_write target data)
        (except_all (λ _,
           miter rollback_one completed ;;
           lift (rejected_import "write_failed" "credential transaction failed and was rolled back"))) ;;
      commit plan ((target, previous) :: completed)
  end.

(** The refusal of Agent Identity records without a matching attestation. *)
Definition safe_attestation_reason (reason : string) : string :=
  if re_fullmatch (RBetween 1 63 (RChar (λ c, is_lower c || is_digit c || Ascii.eqb c "_"))) reason
  then reason else "attestation_failed".
Definition check_capability (checker : option (string → M string)) (records : list dict) : M unit :=
  if existsb is_agent_identity records then
    let! reason := match checker with
                   | Some c => c EXTERNAL_CAPABILITY
                   | None => ret "attestation_unavailable"%string
                   end in
    if reason <>s? "" then
      lift (rejected_import "external_capability_missing"
        ("Agent Identity credentials require hash-bound live cloud CPA capability " +:+
         EXTERNAL_CAPABILITY +:+ " (" +:+ safe_attestation_reason reason +:+ ")"))
    else ret tt
  else ret tt.

Definition import_records (raw : string) (auth_dir lock_path : path) (dry_run force : bool)
    (checker : option (string → M string)) : M import_result :=
  let '(request_id, request_hash) := request_identity raw in
  let! records := normalize_source raw in
  check_capability checker records ;;
  mkdir_parents auth_dir 493 ;;
  ignore_oserror (chmod auth_dir 448) ;;
  import_lock lock_path ;;
  let! (plan, skipped) := mfold (plan_step auth_dir force) ([], 0) records in
  if dry_run then
    ret (ImportResult request_id request_hash "accepted" true (Z.of_nat (length plan)) skipped)
  else
    commit plan [] ;;
    ret (ImportResult request_id request_hash "accepted" false (Z.of_nat (length plan)) skipped).

End importer.
