(* ===== verification/ImporterSafety.v ===== *)
(** * The import transaction

    Under every pattern of failing calls [import_records] changes no file but its own
    targets, never a present file unless forced, and a target holds what it held or a
    whole record; a success leaves every record in place.  Before it, what is imported: the
    expansion of a source and its normal form. *)

From S2P Require Import Prelude PyStr PyFloat PyValue PyRe PyTime PyJson FS PyBase64 PySha.
From S2P Require Import AgentIdentity Wp FileData CpaRecords Importer.

(** ** What the importer normalises

    The expansion of nested documents ends, its fuel does not matter; a flattened record
    is a supported credential with the tokens of its source; the records of a source are
    supported and have different fingerprints. *)

(** ** Expansion *)

Lemma depth_item l x : In x l → (depth x <= list_max (map depth l))%nat.
Proof.
  intros H. pose proof (proj1 (list_max_le (map depth l) _) (le_n _)) as Hm.
  rewrite List.Forall_forall in Hm. apply Hm. by apply in_map.
Qed.
Lemma depth_dget k d v : dget k d = v → v ≠ JNull → (depth v < depth (JDict d))%nat.
Proof.
  unfold dget. destruct (dlookup k d) as [u|] eqn:E; simpl; [|by intros <-]. intros <- _.
  apply dlookup_In in E.
  pose proof (proj1 (list_max_le (map (λ kv, depth kv.2) d) _) (le_n _)) as Hm.
  rewrite List.Forall_forall in Hm. simpl. specialize (Hm (depth u)).
  assert (In (depth u) (map (λ kv : string * json, depth kv.2) d)) by (apply in_map_iff; by exists (k, u)).
  specialize (Hm H). lia.
Qed.
Lemma accounts_depth k d l :
  accounts_under k d = Some l → (depth (JList l) < depth (JDict d))%nat.
Proof.
  unfold accounts_under. intros H. destruct (dget k d) as [| | | | | |inner] eqn:E1; try done.
  destruct (dget "accounts" inner) as [| | | | |l'|] eqn:E2; try done. injection H as ->.
  pose proof (depth_dget _ _ _ E1 ltac:(done)). pose proof (depth_dget _ _ _ E2 ltac:(done)). lia.
Qed.

(** _expand ends on every document: any fuel above the depth of the document gives
    the records the definition gives. *)
Theorem expand_fuel n v : (depth v < n)%nat → expand_go n v = expand v.
Proof.
  unfold expand. assert (Hgen : ∀ a b v, (depth v < a)%nat → (depth v < b)%nat →
    expand_go a v = expand_go b v).
  { induction a as [|a IH]; intros [|b] u Ha Hb; try lia. destruct u as [| | | | |l|d]; try done.
    - cbn [expand_go]. simpl in Ha, Hb. rewrite !flat_map_concat_map. f_equal.
      apply map_ext_in. intros x Hx%depth_item.
      destruct (is_dict x); [|done]. apply IH; lia.
    - cbn [expand_go].
      destruct (accounts_under "result" d) as [l|] eqn:E1.
      { apply accounts_depth in E1. apply IH; lia. }
      destruct (accounts_under "payload" d) as [l|] eqn:E2.
      { apply accounts_depth in E2. apply IH; lia. }
      destruct (dget "accounts" d) as [| | | | |l|] eqn:E3; try done.
      pose proof (depth_dget _ _ _ E3 ltac:(done)). apply IH; lia. }
  intros H. apply Hgen; lia.
Qed.

(** A directory export inside two wrappers. *)
Definition sample_document : json :=
  JDict [("result", JDict [("accounts", JList
    [JDict [("payload", JDict [("accounts", JList [JDict [("access_token", JStr "one")]])])];
     JDict [("type", JStr "cliproxy-auth-bundle");
            ("files", JList [JDict [("data", JDict [("id_token", JStr "two")])]])]])])].
Lemma expand_fuel_witness :
  (depth sample_document < 20)%nat ∧ expand_go 20 sample_document = expand sample_document ∧
  expand sample_document = [[("access_token", JStr "one")]; [("id_token", JStr "two")]].
Proof.
  assert (H : (depth sample_document < 20)%nat) by (simpl; lia).
  split; [exact H|]. split; [apply (expand_fuel 20 sample_document H)|reflexivity].
Defined.

(** ** Flattening *)

Lemma dget_set_text k k' v d : k ≠ k' → dget k (set_text k' v d) = dget k d.
Proof. intros H. unfold set_text, dget. destruct (v =s? ""); [done|]. by rewrite dlookup_dset_ne. Qed.

(** The kept keys do not touch the others. *)
Lemma dget_flat_record k source email account expired :
  ¬ In k ("email" :: "expired" :: KEPT_KEYS) →
  let '(access, refresh, identity) := auth_tokens source in
  dget k (flat_record source email account expired) =
  dget k [("type", JStr "codex"); ("disabled", JBool (truthy (dget_or "disabled" (JBool false) source)));
          ("websockets", JBool (truthy (dget_or "websockets" (JBool false) source)));
          ("access_token", JStr access); ("refresh_token", JStr refresh);
          ("id_token", JStr identity); ("account_id", JStr account)].
Proof.
  intros Hk. unfold flat_record. destruct (auth_tokens source) as [[a r] i].
  match goal with |- dget k (fold_left _ _ ?d0) = _ => set (d := d0) end.
  assert (Hd : dget k d = dget k [("type", JStr "codex");
    ("disabled", JBool (truthy (dget_or "disabled" (JBool false) source)));
    ("websockets", JBool (truthy (dget_or "websockets" (JBool false) source)));
    ("access_token", JStr a); ("refresh_token", JStr r); ("id_token", JStr i); ("account_id", JStr account)]).
  { unfold d. rewrite !dget_set_text; [done| |]; intros ->; apply Hk; simpl; auto. }
  rewrite <- Hd. clearbody d. clear Hd. assert (Hk' : ¬ In k KEPT_KEYS) by (simpl in *; tauto).
  clear Hk. revert d. induction KEPT_KEYS as [|j l IH]; intros d; simpl; [done|].
  rewrite IH by (intros H; apply Hk'; by right).
  destruct (dlookup j source); [|done]. unfold dget. rewrite dlookup_dset_ne; [done|].
  intros ->. apply Hk'. by left.
Qed.

Lemma token_of_strip k d : strip (token_of k d) = token_of k d.
Proof. unfold token_of. apply strip_idem. Qed.

Lemma str_first_single s : strip s = s →
  strip (str_first [JStr s; JNull; JNull]) = s.
Proof.
  intros H. unfold str_first. simpl. destruct (eqs_spec s "") as [->|Hs]; [done|]. simpl. done.
Qed.

(** The tokens of a flattened record are those of its source. *)
Lemma flat_record_tokens source email account expired :
  auth_tokens (flat_record source email account expired) = auth_tokens source.
Proof.
  assert (Hn : ∀ k, ¬ In k ("email" :: "expired" :: KEPT_KEYS) → 
    let '(a, r, i) := auth_tokens source in
    dget k (flat_record source email account expired) =
    dget k [("type", JStr "codex"); ("disabled", JBool (truthy (dget_or "disabled" (JBool false) source)));
          ("websockets", JBool (truthy (dget_or "websockets" (JBool false) source)));
          ("access_token", JStr a); ("refresh_token", JStr r);
          ("id_token", JStr i); ("account_id", JStr account)])
    by (intros k Hk; by apply dget_flat_record).
  assert (Hout : ∀ k, mem k ("email" :: "expired" :: KEPT_KEYS) = false →
    ¬ In k ("email" :: "expired" :: KEPT_KEYS)) by (intros k; apply mem_false).
  unfold auth_tokens at 1 in Hn. cbv beta iota in Hn.
  unfold auth_tokens, token_of at 1 2 3.
  rewrite (Hn "token"%string), (Hn "tokens"%string) by (by apply Hout).
  rewrite (Hn "access_token"%string), (Hn "refresh_token"%string), (Hn "id_token"%string) by (by apply Hout).
  change (dict_or_empty (dget "token" _)) with (@nil (string * json)).
  change (dict_or_empty (dget "tokens" _)) with (@nil (string * json)).
  f_equal; [f_equal|]; apply str_first_single, token_of_strip.
Qed.

(** What the importer accepts: a valid identity, or a Codex credential with a token. *)
Definition supported (r : dict) : Prop :=
  (is_agent_identity r = true ∧ ∃ d a e, normalize d a e = Ok r) ∨
  (dget "type" r = JStr "codex" ∧ any_token (auth_tokens r) = true).

Lemma normalize_mode d a e r : normalize d a e = Ok r → is_agent_identity r = true.
Proof.
  intros (i & -> & _)%normalize_ok. unfold is_agent_identity.
  assert (H : dget "auth_mode" (render i) = JStr AUTH_MODE); [|by rewrite H].
  unfold render. destruct (id_fedramp i); [unfold dget; rewrite dlookup_dset_ne by done;
    fold (dget "auth_mode" (set_text "source" (id_source i) (set_text "label" (id_label i)
    (set_text "plan_type" (id_plan i) (set_text "workspace_id" (id_workspace i)
    (set_text "chatgpt_user_id" (id_user i) (set_text "chatgpt_account_id" (id_chatgpt i)
    (set_text "email" (id_email i) (set_text "account_id" (id_account i)
    (base_record (id_disabled i) (id_runtime i) (id_key i))))))))))) |];
    by rewrite !dget_set_text.
Qed.

Lemma flatten_supported entry r : flatten entry = Ok r → supported r.
Proof.
  unfold flatten. intros H. set (source := match dget "credentials" entry with JDict c => c | _ => entry end) in *.
  destruct (is_agent_identity source).
  - destruct (normalize source _ _) as [d|e] eqn:E; [|by destruct (catches _ _)]. injection H as ->.
    left. split; [by eapply normalize_mode|]. by do 3 eexists.
  - destruct (auth_tokens source) as [[a rf] i] eqn:Ht.
    destruct (any_token (a, rf, i)) eqn:Hany; [|done]. simpl negb in H. cbv iota in H.
    destruct (negb _); [done|].
    match type of H with (match ?x with _ => _ end) = _ => destruct x as [expired|]; [|done] end.
    injection H as <-. right. rewrite flat_record_tokens, Ht. split; [|done].
    rewrite <- Ht in Hany. clear Ht.
    match goal with |- dget _ (flat_record ?s ?em ?ac ?ex) = _ =>
      pose proof (dget_flat_record "type" s em ac ex) as Hty end.
    destruct (auth_tokens source) as [[? ?] ?]. rewrite Hty; [done|]. by apply mem_false.
Qed.

(** ** The records of a source *)

Lemma wp_mmap_Forall {A B} (P : B → Prop) (c : A → M B) E l w :
  (∀ a w, wp (c a) E w (λ r _, ∀ b, r = Ok b → P b)) →
  wp (mmap c l) E w (λ r _, ∀ bs, r = Ok bs → Forall P bs).
Proof.
  intros Hc. revert w. induction l as [|a l IH]; intros w; simpl.
  - apply wp_ret. by intros bs [= <-].
  - apply wp_bind. eapply wp_mono; [apply Hc|]. intros [b|e] w1 Hb; [|by intros bs [= ]].
    apply wp_bind. eapply wp_mono; [apply IH|]. intros [bs|e] w2 Hbs; [|by intros ? [= ]].
    apply wp_ret. intros ? [= <-]. constructor; auto.
Qed.

Definition all_supported (r : res (list dict)) (w : world) : Prop :=
  ∀ l, r = Ok l → Forall supported l.

Lemma wp_flatten entry E w :
  wp (lift (flatten entry)) E w (λ r _, ∀ d, r = Ok d → supported d).
Proof. apply wp_lift. intros d. apply flatten_supported. Qed.

Lemma wp_concat {A} (c : A → M (list dict)) E l w :
  (∀ a w, wp (c a) E w all_supported) →
  wp (let! parts := mmap c l in ret (List.concat parts)) E w all_supported.
Proof.
  intros Hc. apply wp_bind. eapply wp_mono; [by apply (wp_mmap_Forall (Forall supported))|].
  intros [bs|e] w1 H; [|by intros ? [= ]]. apply wp_ret. intros ? [= <-].
  apply Forall_concat. by apply H.
Qed.

Lemma wp_card_line opener line E w : wp (card_line opener line) E w all_supported.
Proof.
  unfold card_line. destruct (_ || _); [by apply wp_ret; intros ? [= <-]|].
  destruct (raw_card _) as [[[email client] token]|]; [|by apply wp_lift].
  destruct (contains _ _); [|by apply wp_lift].
  apply wp_bind. unfold refresh_card. apply wp_bind, wp_try.
  apply (wp_mono _ _ _ (λ _ _, True)); [exact I|].
  intros [[| | | | | |d]|e] w1 _; try (by intros ? [= ]).
  - eapply wp_mono; [apply wp_flatten|]. intros [r|e] w2 H; [|by intros ? [= ]].
    apply wp_ret. intros ? [= <-]. constructor; auto.
Qed.

Lemma wp_normalize_text opener fuel text E w :
  wp (normalize_text opener fuel text) E w (λ r w', all_supported r w' ∧ r ≠ Ok []).
Proof.
  revert text w. induction fuel as [|fuel IH]; intros text w; [by apply wp_throw|].
  cbn [normalize_text]. apply wp_bind, wp_lift. destruct (json_documents text) as [documents|]; [|done].
  apply wp_bind. eapply (wp_mono _ _ _ all_supported).
  - destruct (envelope documents) as [[| | | | |files|]|]; try (by apply wp_lift).
    + apply wp_concat. intros [| | | | | |i] w1; try (by apply wp_lift).
      destruct (dget "content" i); try (by apply wp_lift).
      eapply wp_mono; [apply IH|]. by intros r w2 [H _].
    + eapply wp_mono; [apply wp_mmap_Forall; intros; apply wp_flatten|]. by intros r w1 H.
  - intros [records|e] w1 H; [|by split; [intros ? [= ]|]]. apply wp_bind.
    eapply (wp_mono _ _ _ all_supported).
    + destruct records; [apply wp_concat; intros; apply wp_card_line|by apply wp_ret].
    + intros [rs|e] w2 Hrs; [|by split; [intros ? [= ]|]].
      destruct rs; [by apply wp_lift|]. by apply wp_ret.
Qed.

Lemma unique_records_spec seen l :
  List.NoDup (map fingerprint (unique_records seen l)) ∧
  (∀ r, In r (unique_records seen l) → In r l ∧ ¬ In (fingerprint r) seen) ∧
  (∀ r, In r l → In (fingerprint r) seen ∨ ∃ r', In r' (unique_records seen l) ∧ fingerprint r' = fingerprint r).
Proof.
  revert seen. induction l as [|a l IH]; intros seen; simpl; [split_and!; [constructor|done|done]|].
  destruct (mem (fingerprint a) seen) eqn:Hm.
  - destruct (IH seen) as (H1 & H2 & H3). split_and!; [done| |].
    + intros r Hr. destruct (H2 r Hr). auto.
    + intros r [->|Hr]; [left; by apply mem_spec|auto].
  - apply mem_false in Hm. destruct (IH (fingerprint a :: seen)) as (H1 & H2 & H3). simpl. split_and!.
    + constructor; [|done]. intros (r & Hr & Hin)%in_map_iff. apply H2 in Hin as [_ Hin].
      apply Hin. rewrite Hr. by left.
    + intros r [->|Hr]; [auto|]. apply H2 in Hr as [Hr Hs]. split; [auto|]. intros ?. apply Hs. by right.
    + intros r [->|Hr]; [right; exists r; auto|]. destruct (H3 r Hr) as [[Hx|Hx]|(r' & ? & ?)]; [|auto|].
      * right. exists a. auto.
      * right. exists r'. auto.
Qed.

(** C37: every record that normalize returns is supported, a normalised agent identity or a
    Codex credential with a token that is not blank; there is at least one record, and no
    two have the same fingerprint. *)
Theorem normalize_source_supported opener raw E w records w'
    (Hrun : normalize_source opener raw E w = (Ok records, w')) :
  records ≠ [] ∧ Forall supported records ∧ List.NoDup (map fingerprint records).
Proof.
  assert (H : wp (normalize_source opener raw) E w (λ r _, ∀ l, r = Ok l →
    l ≠ [] ∧ Forall supported l ∧ List.NoDup (map fingerprint l))).
  { unfold normalize_source. apply wp_bind, wp_lift. destruct (decode_source raw) as [text|]; [|done].
    apply wp_bind. eapply wp_mono; [apply wp_normalize_text|]. intros [rs|e] w1 [Hs Hne]; [|done].
    apply wp_ret. intros l [= <-].
    destruct (unique_records_spec [] rs) as (H1 & H2 & H3). split_and!; [| |done].
    - destruct rs as [|r rs]; [done|]. destruct (H3 r) as [[]|(r' & Hr' & _)]; [by left|].
      by intros E'; rewrite E' in Hr'.
    - specialize (Hs _ eq_refl). rewrite List.Forall_forall in *. intros r [Hr _]%H2. auto. }
  unfold wp in H. rewrite Hrun in H. by apply H.
Qed.

Definition sample_text : string :=
  dumps (st_default false true) (JDict [("access_token", JStr "one")]).
Lemma normalize_source_supported_witness :
  ∃ records w', normalize_source (λ _, ret "{}"%string) sample_text
      (Env (λ _, false) (λ _, ""%string) (λ _, 0) (λ _ _, FNan) (λ _ _, false) (λ _, 0)) (World ∅ 0) =
      (Ok records, w') ∧
    records ≠ [] ∧ Forall supported records ∧ List.NoDup (map fingerprint records).
Proof.
  destruct (normalize_source (λ _, ret "{}"%string) sample_text
    (Env (λ _, false) (λ _, ""%string) (λ _, 0) (λ _ _, FNan) (λ _ _, false) (λ _, 0)) (World ∅ 0))
    as [[records|e] w'] eqn:H; [|vm_compute in H; discriminate].
  exists records, w'. split; [done|].
  apply (normalize_source_supported (λ _, ret "{}"%string) sample_text
    (Env (λ _, false) (λ _, ""%string) (λ _, 0) (λ _ _, FNan) (λ _ _, false) (λ _, 0)) (World ∅ 0)
    records w'). exact H.
Defined.

(** ** The transaction *)

Implicit Types (E : env) (f g h : fs) (k : nat) (w : world).

Abbreviation TEMP := ".cloudx-import-"%string.

(** A temporary file that could not be removed, where nothing was. *)
Definition stray (auth_dir : path) (f : fs) (p : path) : Prop :=
  is_temp TEMP auth_dir p ∧ data_at f p = None.

Section transaction.
Context (auth_dir : path) (force : bool) (f : fs).

(** What a planned write was told: where, the whole record, what was there. *)
Definition entry_ok (records : list dict) (e : plan_entry) : Prop :=
  let '(t, d, previous) := e in
  previous = data_at f t ∧ previous ≠ Some d ∧ (force = false → previous = None) ∧
  ∃ r, In r records ∧ t = target_of auth_dir r ∧ d = serialized r.

(** A record is planned, or in place already. *)
Definition covered (plan : list plan_entry) (r : dict) : Prop :=
  data_at f (target_of auth_dir r) = Some (serialized r) ∨
  ∃ previous, In (target_of auth_dir r, serialized r, previous) plan.

(** One record of the plan: [n] counts the records that are in place already. *)
Lemma wp_plan_step records r plan n E k (Φ : res (list plan_entry * Z) → world → Prop) :
  In r records →
  (∀ k, data_at f (target_of auth_dir r) = Some (serialized r) → Φ (Ok (plan, n + 1)) (World f k)) →
  (∀ e k, e = (target_of auth_dir r, serialized r, data_at f (target_of auth_dir r)) →
     entry_ok records e → Φ (Ok (plan ++ [e], n)) (World f k)) →
  (∀ e k, Φ (Raise e) (World f k)) →
  wp (plan_step auth_dir force (plan, n) r) E (World f k) Φ.
Proof.
  intros Hin Hs He Hr. unfold plan_step. set (t := target_of auth_dir r) in *.
  apply wp_bind, wp_is_symlink; [intros k1|intros; apply Hr].
  destruct (opt_is is_link (f !! t)) eqn:Hl; [apply Hr|].
  assert (Hnone : stat_node f t = None → ∀ k, Φ (Ok (plan ++ [(t, serialized r, None)], n)) (World f k)).
  { intros Hst k2. pose proof (data_at_none f t Hst) as Hd. rewrite Hd in He.
    apply He; [done|]. split_and!; [by rewrite Hd|done|done|by exists r]. }
  apply wp_bind, wp_bind, wp_exists; [intros k2|intros; apply Hr].
  destruct (stat_node f t) as [x|] eqn:Hst; simpl.
  - apply wp_bind, wp_is_file; [intros k3|intros; apply Hr]. rewrite Hst. simpl.
    destruct x as [d m|m|u|]; simpl; try apply Hr.
    apply wp_bind, wp_exists; [intros k4|intros; apply Hr]. rewrite Hst. simpl.
    apply wp_bind, wp_bind. eapply wp_read_bytes; [done|intros k5|intros; apply Hr].
    apply wp_ret. pose proof (data_at_stat f t d m Hl Hst) as Hd. rewrite Hd in He, Hs.
    destruct (eqs_spec d (serialized r)) as [->|Hne]; [by apply Hs|].
    destruct force eqn:Hf; simpl; [|apply Hr].
    apply He; [done|]. split_and!; [done|congruence|congruence|by exists r].
  - apply wp_bind, wp_exists; [intros k4|intros; apply Hr]. rewrite Hst. simpl.
    apply wp_bind, wp_ret, Hnone. done.
Qed.

Lemma wp_plan records E k (Φ : res (list plan_entry * Z) → world → Prop) :
  (∀ plan n k, Forall (entry_ok records) plan → Forall (covered plan) records →
     Z.of_nat (length plan) + n = Z.of_nat (length records) → Φ (Ok (plan, n)) (World f k)) →
  (∀ e k, Φ (Raise e) (World f k)) →
  wp (mfold (plan_step auth_dir force) ([], 0) records) E (World f k) Φ.
Proof.
  intros Ho Hr.
  assert (Hgen : ∀ l done plan n k, records = done ++ l →
    Forall (entry_ok records) plan → Forall (covered plan) done →
    Z.of_nat (length plan) + n = Z.of_nat (length done) →
    wp (mfold (plan_step auth_dir force) (plan, n) l) E (World f k) Φ).
  { induction l as [|r l IH]; intros done plan n k1 Hrec Hp Hd Hn; simpl.
    - rewrite app_nil_r in Hrec. subst. by apply Ho.
    - assert (Hin : In r records) by (rewrite Hrec; apply in_or_app; right; by left).
      assert (Hrec' : records = (done ++ [r]) ++ l) by (by rewrite <- app_assoc).
      apply wp_bind, (wp_plan_step records); [done| | |intros; apply Hr].
      + intros k2 Hs. apply (IH (done ++ [r])); try done.
        * apply Forall_app. split; [done|]. constructor; [by left|done].
        * rewrite length_app. simpl. lia.
      + intros e k2 -> He. apply (IH (done ++ [r])); try done.
        * apply Forall_app. split; [done|]. by constructor.
        * apply Forall_app. split.
          -- eapply Forall_impl; [exact Hd|]. intros x [Hx|[pr Hx]]; [by left|].
             right. exists pr. apply in_or_app. by left.
          -- constructor; [|done]. right. eexists. apply in_or_app. right. by left.
        * rewrite !length_app. simpl. lia. }
  by apply (Hgen records []).
Qed.

(** ** The writes *)

(** While [plan] is written or undone. *)
Definition between (plan : list plan_entry) (g : fs) : Prop :=
  ∀ p, data_at g p = data_at f p ∨ stray auth_dir f p ∨
       ∃ d pr, In (p, d, pr) plan ∧ data_at g p = Some d.

Lemma between_refl plan : between plan f.
Proof. intros p. by left. Qed.
Lemma between_temp plan g t d m :
  between plan g → is_temp TEMP auth_dir t → g !! t = None → between plan (<[t := File d m]> g).
Proof.
  intros H Ht Hg p. destruct (decide (p = t)) as [->|Hne]; [|rewrite data_at_insert_ne; [apply H|done]].
  right. left. split; [done|]. pose proof (data_at_fresh _ _ Hg) as Hd.
  destruct (H t) as [Hx|[[_ Hx]|(? & ? & _ & Hx)]]; congruence.
Qed.
Lemma between_write plan g t d pr m :
  between plan g → In (t, d, pr) plan → between plan (<[t := File d m]> g).
Proof.
  intros H Hin p. destruct (decide (p = t)) as [->|Hne]; [|rewrite data_at_insert_ne; [apply H|done]].
  right. right. exists d, pr. split; [done|]. apply data_at_insert.
Qed.
Lemma between_undo plan g t d m :
  between plan g → data_at f t = Some d → between plan (<[t := File d m]> g).
Proof.
  intros H Hd p. destruct (decide (p = t)) as [->|Hne]; [|rewrite data_at_insert_ne; [apply H|done]].
  left. by rewrite data_at_insert.
Qed.
Lemma between_unlink plan g t :
  between plan g → data_at f t = None → between plan (delete t g).
Proof.
  intros H Hd p. destruct (decide (p = t)) as [->|Hne].
  - left. rewrite Hd. unfold data_at. by rewrite lookup_delete_eq.
  - rewrite data_at_delete_ne; [apply H|done].
Qed.

Lemma target_parent r : p_parent (target_of auth_dir r) = auth_dir.
Proof. unfold p_parent, target_of. simpl. rewrite List.removelast_last. by destruct auth_dir. Qed.

Lemma wp_import_write plan t d E g k (Φ : res unit → world → Prop) :
  p_parent t = auth_dir → between plan g →
  (∀ k, Φ (Ok tt) (World (<[t := File d 384]> g) k)) →
  (∀ e h k, os_exn e → between plan h → Φ (Raise e) (World h k)) →
  wp (import_write t d) E (World g k) Φ.
Proof.
  intros Hp Hb Ho Hr. apply wp_write_replace; [done|intros; by apply Hr|].
  intros e k1 x b m He Hx Hg. apply Hr; [done|]. rewrite Hp in Hx. by apply between_temp.
Qed.

Lemma wp_rollback plan completed E g k (Φ : res unit → world → Prop) :
  Forall (λ c, p_parent c.1 = auth_dir ∧ c.2 = data_at f c.1) completed → between plan g →
  (∀ h k, between plan h → Φ (Ok tt) (World h k)) →
  wp (miter rollback_one completed) E (World g k) Φ.
Proof.
  intros Hc. revert g k. induction Hc as [|[t pr] l [Hp Hd] Hl IH]; intros g k Hb Ho; simpl;
    [by apply Ho|]. simpl in Hp, Hd.
  unfold rollback_one. simpl. apply wp_bind. destruct pr as [d|].
  - apply wp_ignore_oserror, (wp_import_write plan); [done|done| |].
    + intros k1. apply IH; [|done]. by apply between_undo.
    + intros e h k1 He Hh. rewrite He. by apply IH.
  - apply wp_unlink_quiet; intros k1; apply IH; try done. by apply between_unlink.
Qed.

Definition write_failed : exn :=
  Exn ImportRejected "write_failed" "credential transaction failed and was rolled back".

Lemma wp_commit records plan E k (Φ : res unit → world → Prop) :
  Forall (entry_ok records) plan →
  (∀ g k, between plan g →
     (∀ t d pr, In (t, d, pr) plan → ∃ d' pr', In (t, d', pr') plan ∧ data_at g t = Some d') →
     Φ (Ok tt) (World g k)) →
  (∀ g k, between plan g → Φ (Raise write_failed) (World g k)) →
  wp (commit plan []) E (World f k) Φ.
Proof.
  intros Hall Ho Hr.
  assert (Hgen : ∀ l done completed g k, plan = done ++ l →
    Forall (λ c, p_parent c.1 = auth_dir ∧ c.2 = data_at f c.1) completed → between plan g →
    (∀ t d pr, In (t, d, pr) done → ∃ d' pr', In (t, d', pr') done ∧ data_at g t = Some d') →
    wp (commit l completed) E (World g k) Φ).
  { induction l as [|[[t d] pr] l IH]; intros done completed g k1 Hplan Hc Hb Hd; simpl.
    - rewrite app_nil_r in Hplan. subst. by apply Ho.
    - assert (Hin : In (t, d, pr) plan) by (rewrite Hplan; apply in_or_app; right; by left).
      pose proof Hall as Hall'. rewrite List.Forall_forall in Hall'.
      destruct (Hall' _ Hin) as (Hpr & _ & _ & r & _ & Ht & _).
      assert (Hpar : p_parent t = auth_dir) by (rewrite Ht; apply target_parent).
      apply wp_bind, wp_try, (wp_import_write plan); [done|done| |].
      + intros k2. apply (IH (done ++ [(t, d, pr)])).
        * by rewrite <- app_assoc.
        * by constructor.
        * by eapply between_write.
        * intros t' d' pr' Hin'. destruct (decide (t' = t)) as [->|Hne].
          -- exists d, pr. split; [apply in_or_app; right; by left|apply data_at_insert].
          -- apply in_app_or in Hin' as [Hin'|[[= -> -> ->]|[]]]; [|done].
             destruct (Hd _ _ _ Hin') as (d2 & pr2 & ? & ?). exists d2, pr2.
             split; [apply in_or_app; by left|]. by rewrite data_at_insert_ne.
      + intros e h k2 He Hh. unfold except_all. apply wp_bind, (wp_rollback plan); [done|done|].
        intros h2 k3 Hh2. by apply Hr. }
  apply (Hgen plan [] []); try done. apply between_refl.
Qed.

End transaction.

(** ** The whole import *)

Section import.
Context (opener : string → M string) (checker : option (string → M string)).
Context (Hopener : ∀ body, fs_pure (opener body))
        (Hchecker : ∀ c x, checker = Some c → fs_pure (c x)).

Lemma fs_pure_card_line line : fs_pure (card_line opener line).
Proof using Hopener. unfold card_line, refresh_card, refresh_rejected, unsupported. fs_pure_tac; apply Hopener. Qed.

Lemma fs_pure_normalize_text fuel text : fs_pure (normalize_text opener fuel text).
Proof using Hopener.
  revert text. induction fuel as [|fuel IH]; intros text; [done|]. cbn [normalize_text].
  apply fs_pure_bind; [done|]. intros documents. apply fs_pure_bind.
  - destruct (envelope documents) as [[]|]; try done.
    + apply fs_pure_bind; [|done]. apply fs_pure_mmap. intros [| | | | | |i]; try done.
      by destruct (dget "content" i).
    + by apply fs_pure_mmap.
  - intros records. apply fs_pure_bind; [|by intros []]. destruct records; [|done].
    apply fs_pure_bind; [|done]. apply fs_pure_mmap, fs_pure_card_line.
Qed.

Lemma fs_pure_normalize_source raw : fs_pure (normalize_source opener raw).
Proof using Hopener.
  unfold normalize_source. apply fs_pure_bind; [done|]. intros text.
  apply fs_pure_bind; [apply fs_pure_normalize_text|done].
Qed.

Lemma fs_pure_check_capability records : fs_pure (check_capability checker records).
Proof using Hchecker.
  unfold check_capability. destruct (existsb _ _); [|done]. apply fs_pure_bind.
  - destruct checker as [c|] eqn:E; [by apply Hchecker|done].
  - intros reason. by destruct (reason <>s? "").
Qed.

Lemma wp_import_lock p E f k (Φ : res unit → world → Prop) :
  (∀ g k, keeps none f g → same_data (only p) f g → Φ (Ok tt) (World g k)) →
  (∀ e g k, keeps none f g → same_data (only p) f g → Φ (Raise e) (World g k)) →
  wp (import_lock p) E (World f k) Φ.
Proof.
  intros Ho Hr. unfold import_lock. apply wp_bind, wp_mkdir_parents.
  2:{ intros e g k1 _ Hg. apply Hr; [by apply same_keeps, same_dirs|by apply same_none, same_dirs]. }
  intros g1 k1 H1%same_dirs. pose proof (same_keeps _ _ _ H1) as Hk1.
  apply wp_bind, wp_open_append; [|intros; apply Hr; [done|by apply same_none]].
  intros g2 k2 Hk Hs.
  assert (H12 : same_data (only p) f g2) by (eapply same_trans; [by apply same_none|done]).
  assert (Hk12 : keeps none f g2) by (by eapply keeps_trans).
  apply wp_bind, wp_chmod; [|intros; by apply Hr].
  intros g3 k3 H3.
  assert (H13 : same_data (only p) f g3) by (eapply same_trans; [done|by apply same_none]).
  assert (Hk3 : keeps none f g3).
  { eapply keeps_trans; [done|by apply same_keeps]. }
  apply wp_sys; [intros k4; by apply Ho|intros e k4 _; by apply Hr].
Qed.

(** What holds however an import of [records] ends. *)
Record import_done (auth_dir lock : path) (dry_run force : bool) (records : list dict)
    (f : fs) (r : res import_result) (g : fs) : Prop := {
  id_files : ∀ p, p ≠ lock →
    data_at g p = data_at f p ∨ stray auth_dir f p ∨
    ∃ rec, In rec records ∧ p = target_of auth_dir rec ∧ data_at g p = Some (serialized rec);
  id_force : force = false → keeps none f g;
  id_dry : dry_run = true → same_data (only lock) f g;
  id_error : ∀ e, r = Raise e → e = write_failed ∨ same_data (only lock) f g;
  id_ok : ∀ x, r = Ok x →
    ir_written x + ir_skipped x = Z.of_nat (length records) ∧
    (dry_run = false → ∀ rec, In rec records → ∃ rec', In rec' records ∧
       target_of auth_dir rec' = target_of auth_dir rec ∧
       data_at g (target_of auth_dir rec) = Some (serialized rec')) }.

Definition import_post (auth_dir lock : path) (dry_run force : bool) (f : fs) (r : res import_result) (g : fs) : Prop :=
  ((∃ e, r = Raise e) ∧ same_data none f g) ∨
  ∃ records, import_done auth_dir lock dry_run force records f r g.

Lemma import_done_early (auth_dir lock : path) (dry_run force : bool) f e g :
  keeps none f g → same_data (only lock) f g →
  import_post auth_dir lock dry_run force f (Raise e) g.
Proof.
  intros Hk Hs. right. exists []. split; try done; [|by right].
  intros p Hp. left. by apply Hs.
Qed.

Lemma between_done (auth_dir lock : path) (force : bool) f f1 records plan g r :
  Forall (entry_ok auth_dir force f1 records) plan → Forall (covered auth_dir f1 plan) records →
  keeps none f f1 → same_data (only lock) f f1 → between auth_dir f1 plan g →
  r = Raise write_failed ∨
  (∃ x, r = Ok x ∧ ir_written x + ir_skipped x = Z.of_nat (length records) ∧
     ∀ t d pr, In (t, d, pr) plan → ∃ d' pr', In (t, d', pr') plan ∧ data_at g t = Some d') →
  import_done auth_dir lock false force records f r g.
Proof.
  intros Hplan Hcov Hk Hs Hb Hr. rewrite List.Forall_forall in Hplan.
  split; [| |done| |].
  - intros p Hp. destruct (Hb p) as [Hd|[[Ht Hd]|(d & pr & Hin & Hd)]].
    + left. rewrite Hd. by apply Hs.
    + right. left. split; [done|]. by rewrite <- (Hs p Hp).
    + destruct (Hplan _ Hin) as (_ & _ & _ & rec & Hrec & -> & ->). right. right. eauto.
  - intros Hforce p d _ Hd. pose proof (keeps_at _ _ _ _ Hk Hd) as Hd1.
    destruct (Hb p) as [Hg|[[_ Hg]|(d' & pr & Hin & Hg)]]; [congruence|congruence|].
    destruct (Hplan _ Hin) as (Hpr & _ & Hf & _). rewrite (Hf Hforce) in Hpr. congruence.
  - intros e He. destruct Hr as [->|(x & -> & _)]; [|done]. left. congruence.
  - intros x Hx. destruct Hr as [->|(x' & -> & Hn & Hall)]; [done|]. injection Hx as ->.
    split; [done|]. intros _ rec Hrec. rewrite List.Forall_forall in Hcov.
    assert (Hfrom : ∀ d pr, In (target_of auth_dir rec, d, pr) plan →
      data_at g (target_of auth_dir rec) = Some d → ∃ rec', In rec' records ∧
        target_of auth_dir rec' = target_of auth_dir rec ∧
        data_at g (target_of auth_dir rec) = Some (serialized rec')).
    { intros d pr Hin Hg. destruct (Hplan _ Hin) as (_ & _ & _ & rec' & Hrec' & Ht & ->). eauto. }
    destruct (Hcov _ Hrec) as [Hd|[pr Hin]].
    + destruct (Hb (target_of auth_dir rec)) as [Hg|[[_ Hg]|(d & pr & Hin & Hg)]]; [|congruence|eauto].
      exists rec. by rewrite Hg.
    + destruct (Hall _ _ _ Hin) as (d' & pr' & Hin' & Hg). eauto.
Qed.

Lemma wp_import raw (auth_dir lock : path) (dry_run force : bool) E f k :
  wp (import_records opener raw auth_dir lock dry_run force checker) E (World f k)
    (λ r w', import_post auth_dir lock dry_run force f r (w_fs w')).
Proof using Hopener Hchecker.
  assert (Hearly : ∀ e g, same_data none f g → import_post auth_dir lock dry_run force f (Raise e) g).
  { intros e g Hg. left. split; [by eexists|done]. }
  unfold import_records. destruct (request_identity raw) as [id hash].
  apply wp_bind, wp_pure; [apply fs_pure_normalize_source|]. intros [records|e] k1; [|apply Hearly, same_refl].
  apply wp_bind, wp_pure; [apply fs_pure_check_capability|]. intros [[]|e] k2; [|apply Hearly, same_refl].
  apply wp_bind, wp_mkdir_parents; [|intros e g k3 _ Hg; by apply Hearly, same_dirs].
  intros f1 k3 H1%same_dirs. apply wp_bind, wp_ignore_oserror.
  assert (Hrest : ∀ f2 k, same_data none f f2 →
    wp (import_lock lock ;;
        let! (plan, skipped) := mfold (plan_step auth_dir force) ([], 0) records in
        if dry_run then
          ret (ImportResult id hash "accepted" true (Z.of_nat (length plan)) skipped)
        else
          commit plan [] ;;
          ret (ImportResult id hash "accepted" false (Z.of_nat (length plan)) skipped))
      E (World f2 k) (λ r w', import_post auth_dir lock dry_run force f r (w_fs w'))).
  { intros f2 k4 H2. pose proof (same_keeps _ _ _ H2) as Hk2.
    pose proof (same_none (only lock) _ _ H2) as Hs2.
    apply wp_bind, wp_import_lock.
    2:{ intros e g k5 Hkg Hg. apply import_done_early; [by eapply keeps_trans|by eapply same_trans]. }
    intros f3 k5 Hk3 Hs3.
    assert (Hk : keeps none f f3) by (by eapply keeps_trans).
    assert (Hs : same_data (only lock) f f3) by (by eapply same_trans).
    apply wp_bind, wp_plan; [|intros; by apply import_done_early].
    intros plan n k6 Hplan Hcov Hn. destruct dry_run.
    - apply wp_ret. right. exists records. split; try done.
      + intros p Hp. left. by apply Hs.
      + intros x [= <-]. split; [done|done].
    - apply wp_bind, (wp_commit auth_dir force f3 records); [done| |].
      + intros g k7 Hb Hall. apply wp_ret. right. exists records.
        eapply between_done; try done. right. eexists. split; [done|]. by split.
      + intros g k7 Hb. right. exists records. eapply between_done; try done. by left. }
  apply wp_chmod.
  - intros f2 k4 H2. apply Hrest. by eapply same_trans.
  - intros e k4 He. rewrite He. by apply Hrest.
Qed.

End import.

(** ** The contract *)


(** Two access tokens, an empty directory, and an environment whose calls [l] fail. *)
Definition sample_source : string :=
  dumps (st_default false true)
    (JList [JDict [("access_token", JStr "one")]; JDict [("access_token", JStr "two")]]).
Definition sample_auth_dir : fs := {[ path_of "/auth" := Dir 448 ]}.
Definition failing (l : list nat) : env :=
  Env (λ k, existsb (Nat.eqb k) l) (λ k, pretty k) (λ _, 0) (λ _ _, FNan) (λ _ _, false) (λ _, 0).
Definition no_answer (body : string) : M string := ret "{}"%string.
Definition import_sample (l : list nat) : res import_result * world :=
  import_records no_answer sample_source (path_of "/auth") (path_of "/auth/.lock") false false None
    (failing l) (World sample_auth_dir 0).


(** The message of write_failed is not always true: when the second write fails and
    the removal of the first file fails too, the error of the removal is dropped, the
    import says it was rolled back, and the first credential stays. *)
Theorem rollback_may_be_partial :
  match import_sample [18; 19]%nat with
  | (Raise e, w') =>
      e = write_failed ∧
      data_at (w_fs w') (path_of "/auth/codex-8311ba4c03fe7ba730d7c485.json") =
        Some (serialized [("access_token", JStr "one"); ("account_id", JStr "");
          ("disabled", JBool false); ("id_token", JStr ""); ("refresh_token", JStr "");
          ("type", JStr "codex"); ("websockets", JBool false)])
  | _ => False
  end.
Proof. vm_compute. split; reflexivity. Qed.
