(* ===== verification/CpaSweep.v ===== *)
(** * Sweep triggers ([cloud/cloudx_cloud/cpa_sweep.py])

    The request for a sweep that the gateway leaves in a directory, the observation of
    the pool, and the key under which equal credentials are probed once. *)

From S2P Require Import Prelude PyStr PyFloat PyValue PyTime PyJson FS PySha Wp FileData CpaRecords.

Definition TRIGGER_SCHEMA : string := "cloudx.cpa-sweep-trigger.v1".
Definition POOL_SCHEMA : string := "cloudx.cpa-pool-observation.v1".
Definition TRIGGER_NAME : string := "trigger.json".
Definition POOL_NAME : string := "pool-state.json".
Definition MAX_DOCUMENT_BYTES : Z := 16 * 1024.
Definition MAX_TRIGGER_AGE_SECONDS : Z := 30 * 60.
Definition MAX_FUTURE_SKEW_SECONDS : Z := 5 * 60.

Record sweep_trigger := SweepTrigger {
  st_path : path; st_digest : string; st_observed_at : datetime }.

Definition credential_key (auth : dict) : string :=
  let '(access_token, refresh_token, _) := auth_tokens auth in
  let value := JDict
    [("authMode", JStr (str_lower (strip (str_or_empty (dget "auth_mode" auth)))));
     ("accessToken", JStr access_token);
     ("accountId", JStr (auth_account_id auth));
     ("hasRefreshToken", has refresh_token)] in
  sha256 (dumps (st_compact true false) value).

(** [maximum] is [MAX_DOCUMENT_BYTES] here; [cpa_health] reads the same way. *)
Definition safe_file_bytes (p : path) (maximum : Z) : M (option string) :=
  let! descriptor := try_with (let! n := open_nofollow p in ret (Some n))
                       (except [OSError] (λ _, ret None)) in
  match descriptor with
  | None => ret None
  | Some n =>
      try_with
        (let! info := fstat n in
         if negb (is_reg info) || (maximum <? node_size info) then ret None
         else let! data := read_node n in
              let raw := str_take_z (maximum + 1) data in
              ret (if str_len raw <=? maximum then Some raw else None))
        (except [OSError] (λ _, ret None))
  end.
Definition safe_bytes (p : path) : M (option string) := safe_file_bytes p MAX_DOCUMENT_BYTES.

Definition document (p : path) : M (option dict * string) :=
  let! raw := safe_bytes p in
  ret (match raw with
       | None => (None, ""%string)
       | Some raw => (match loads_bytes raw with Ok (JDict d) => Some d | _ => None end, raw)
       end).

(** A time with a zone. *)
Definition sweep_time (value : json) : option datetime :=
  match value with
  | JStr s =>
      if strip s =s? "" then None
      else match fromisoformat (z_suffix (strip s)) with
           | Some parsed => match dt_off parsed with Some _ => Some parsed | None => None end
           | None => None
           end
  | _ => None
  end.

(** [set(document) == {k1, ...}]. *)
Definition keys_are (d : dict) (keys : list string) : bool :=
  forallb (λ k, dmem k d) keys && forallb (λ kv, mem kv.1 keys) d.

(** [(current - observed.astimezone(utc)).total_seconds()]: the conversion raises near
    the ends of the calendar; the ages are compared in microseconds, which division by
    [10**6] does not reorder with respect to whole seconds. *)
Definition age_us (now_wall : Z) (observed : datetime) : res Z :=
  match astimezone_utc observed with
  | Some t => Ok (now_wall - dt_wall t)
  | None => raise OverflowError "date value out of range"
  end.

Definition trigger_document (d : dict) : bool :=
  keys_are d ["schema"; "reason"; "observedAt"] && eq_str (dget "schema" d) TRIGGER_SCHEMA &&
  eq_str (dget "reason" d) "auth_unavailable".

Definition load_trigger (sweep_dir : path) : M (option sweep_trigger * string) :=
  let p := (sweep_dir.1, sweep_dir.2 ++ [TRIGGER_NAME]) in
  let! present := exists_p p in
  if negb present then ret (None, "absent"%string) else
  let! (doc, raw) := document p in
  match (let? d := doc in
         if trigger_document d then sweep_time (dget "observedAt" d) else None) with
  | None => ret (None, "rejected"%string)
  | Some observed =>
      let! now := now_us in
      let! age := lift (age_us (EPOCH_US + now) observed) in
      if (age <? - MAX_FUTURE_SKEW_SECONDS * US) || (MAX_TRIGGER_AGE_SECONDS * US <? age)
      then ret (None, "stale"%string)
      else ret (Some (SweepTrigger p (sha256 raw) observed), "accepted"%string)
  end.

Definition consume_trigger (trigger : sweep_trigger) : M bool :=
  let! raw := safe_bytes (st_path trigger) in
  match raw with
  | None => ret false
  | Some raw =>
      if sha256 raw <>s? st_digest trigger then ret false
      else
        let! removed := try_with (unlink (st_path trigger) ;; ret true)
                          (except [OSError] (λ _, ret false)) in
        if removed
        then try_with (fsync_directory (p_parent (st_path trigger)) ;; ret true)
               (except [OSError] (λ _, ret false))
        else ret false
  end.

Definition load_pool_observation (sweep_dir : path) : M (option (string * datetime)) :=
  let! (doc, _) := document (sweep_dir.1, sweep_dir.2 ++ [POOL_NAME]) in
  match doc with
  | Some d =>
      if negb (keys_are d ["schema"; "state"; "observedAt"]) ||
         negb (eq_str (dget "schema" d) POOL_SCHEMA) then ret None
      else
        let! known := lift (in_set (dget "state" d) ["available"; "unavailable"]) in
        if negb known then ret None
        else match dget "state" d, sweep_time (dget "observedAt" d) with
             | JStr state, Some observed => ret (Some (state, observed))
             | _, _ => ret None
             end
  | None => ret None
  end.

(** * The sweep trigger is consumed once

    A file is read without following a link; a trigger is accepted within its window of
    time only, and what is removed later is the trigger that was accepted. *)

Implicit Types (E : env) (f g : fs) (k : nat) (w : world).

Lemma fs_pure_safe_file p maximum : fs_pure (safe_file_bytes p maximum).
Proof. unfold safe_file_bytes. fs_pure_tac. Qed.
#[export] Hint Resolve fs_pure_safe_file : cloudx.

Lemma str_take_z_all n d : str_len d <= n → str_take_z n d = d.
Proof.
  unfold str_len. revert n. induction d as [|c d IH]; intros n H; [done|]. simpl in *.
  destruct (Z.leb_spec n 0); [lia|]. f_equal. apply IH. lia.
Qed.

Lemma wp_safe_file p maximum E f k (Φ : res (option string) → world → Prop) :
  (∀ d k, data_at f p = Some d → Φ (Ok (Some d)) (World f k)) →
  (∀ k, Φ (Ok None) (World f k)) → (∀ e k, Φ (Raise e) (World f k)) →
  wp (safe_file_bytes p maximum) E (World f k) Φ.
Proof.
  intros Ho Hn Hr. unfold safe_file_bytes.
  assert (Hc : ∀ {A} (m : A) e k (Ψ : res A → world → Prop), (∀ e k, Ψ (Raise e) (World f k)) →
    (∀ k, Ψ (Ok m) (World f k)) →
    match except [OSError] (λ _, ret m) e with
    | Some c => wp c E (World f k) Ψ | None => Ψ (Raise e) (World f k) end).
  { intros A m e k0 Ψ H1 H2. unfold except. destruct (existsb _ _); [apply H2|apply H1]. }
  apply wp_bind, wp_try. unfold open_nofollow. apply wp_bind, wp_bind, wp_sys;
    [intros k1|intros e k1 _; by apply Hc].
  apply wp_bind, wp_get_fs. destruct (f !! p) as [[d m|m|t|]|] eqn:Hp; simpl;
    try (apply (Hc _ None); [done|intros k2; apply wp_ret, Hn]); try apply Hn;
    apply wp_try; unfold fstat; apply wp_bind, wp_bind, wp_sys;
    try (intros e k2 _; by apply Hc); intros k2; apply wp_ret; simpl;
    try (apply wp_ret; by apply Hn).
  destruct (Z.ltb_spec maximum (str_len d)) as [Hl|Hl]; [by apply wp_ret|].
  apply wp_bind. unfold read_node. apply wp_bind, wp_sys; [intros k3|intros e k3 _; by apply Hc].
  apply wp_ret, wp_ret. rewrite str_take_z_all by lia.
  destruct (Z.leb_spec (str_len d) maximum); [|lia]. apply Ho. unfold data_at. by rewrite Hp.
Qed.

(** A trigger is accepted only from a regular file whose document has exactly the
    three fields, the schema and the reason, and whose time, which names its zone, lies
    between five minutes ahead of the clock and thirty minutes behind it; its digest is
    that of the bytes of the file. *)
Theorem load_trigger_sound sweep_dir E w trigger status w'
    (Hrun : load_trigger sweep_dir E w = (Ok (Some trigger, status), w')) :
  status = "accepted" ∧ w_fs w' = w_fs w ∧
  ∃ raw doc us, data_at (w_fs w) (st_path trigger) = Some raw ∧
    loads_bytes raw = Ok (JDict doc) ∧ trigger_document doc = true ∧
    sweep_time (dget "observedAt" doc) = Some (st_observed_at trigger) ∧
    st_digest trigger = sha256 raw ∧
    ∃ age, age_us (EPOCH_US + us) (st_observed_at trigger) = Ok age ∧
           - (300 * US) <= age <= 1800 * US.
Proof.
  destruct w as [f k].
  assert (H : wp (load_trigger sweep_dir) E (World f k) (λ r w', ∀ trigger status,
    r = Ok (Some trigger, status) → status = "accepted"%string ∧ w_fs w' = f ∧
    ∃ raw doc us, data_at f (st_path trigger) = Some raw ∧
      loads_bytes raw = Ok (JDict doc) ∧ trigger_document doc = true ∧
      sweep_time (dget "observedAt" doc) = Some (st_observed_at trigger) ∧
      st_digest trigger = sha256 raw ∧
      ∃ age, age_us (EPOCH_US + us) (st_observed_at trigger) = Ok age ∧
             - (300 * US) <= age <= 1800 * US)).
  { unfold load_trigger. apply wp_bind, wp_exists; [intros k1|done].
    destruct (opt_is _ _); cbn [negb]; [|by apply wp_ret].
    unfold document, safe_bytes. apply wp_bind, wp_bind, wp_safe_file; [|by intros; apply wp_ret|done].
    intros raw k2 Hraw. apply wp_ret. cbv beta iota.
    destruct (loads_bytes raw) as [[| | | | | |doc]|] eqn:Hl; try by apply wp_ret.
    destruct (trigger_document doc) eqn:Ht; [|by apply wp_ret].
    destruct (sweep_time _) as [observed|] eqn:Hs; [|by apply wp_ret].
    apply wp_bind, wp_now. set (us := clock E k2).
    apply wp_bind, wp_lift. destruct (age_us _ _) as [age|] eqn:Ha; [|done].
    destruct ((age <? _) || (_ <? age)) eqn:Hage; [by apply wp_ret|].
    apply orb_false_iff in Hage as [H1%Z.ltb_ge H2%Z.ltb_ge].
    apply wp_ret. intros t st [= <- <-]. split_and!; try done. exists raw, doc, us.
    split_and!; try done. exists age. split; [done|]. done. }
  unfold wp in H. rewrite Hrun in H. by apply H.
Qed.

Definition sample_trigger : dict :=
  [("schema", JStr TRIGGER_SCHEMA); ("reason", JStr "auth_unavailable");
   ("observedAt", JStr "1970-01-01T00:00:00Z")].
Definition sweep_fs (d : dict) : fs :=
  {[ path_of "/sweeps/trigger.json" := File (dumps (st_default false true) (JDict d)) 384 ]}.
Definition steady : env := Env (λ _, false) (λ _, ""%string) (λ _, 0) (λ _ _, FNan) (λ _ _, false) (λ _, 0).

Lemma load_trigger_sound_witness :
  ∃ trigger status w', load_trigger (path_of "/sweeps") steady (World (sweep_fs sample_trigger) 0) =
      (Ok (Some trigger, status), w') ∧ status = "accepted" ∧ w_fs w' = sweep_fs sample_trigger ∧
    ∃ raw doc us, data_at (sweep_fs sample_trigger) (st_path trigger) = Some raw ∧
      loads_bytes raw = Ok (JDict doc) ∧ trigger_document doc = true ∧
      sweep_time (dget "observedAt" doc) = Some (st_observed_at trigger) ∧
      st_digest trigger = sha256 raw ∧
      ∃ age, age_us (EPOCH_US + us) (st_observed_at trigger) = Ok age ∧
             - (300 * US) <= age <= 1800 * US.
Proof.
  destruct (load_trigger (path_of "/sweeps") steady (World (sweep_fs sample_trigger) 0))
    as [[[[trigger|] status]|e] w'] eqn:H; try (vm_compute in H; discriminate).
  exists trigger, status, w'. split; [done|].
  apply (load_trigger_sound (path_of "/sweeps") steady (World (sweep_fs sample_trigger) 0) trigger status w' H).
Defined.

(** consume_trigger, under every pattern of failing calls, touches no file but the
    trigger, removes it only while its bytes still have the accepted digest, and when it
    says so the trigger is gone: a trigger written in the meantime is kept. *)
Theorem consume_trigger_safe trigger E w :
  let g := w_fs (consume_trigger trigger E w).2 in
  same_data (only (st_path trigger)) (w_fs w) g ∧
  (data_at g (st_path trigger) = data_at (w_fs w) (st_path trigger) ∨
   ∃ d, data_at (w_fs w) (st_path trigger) = Some d ∧ sha256 d = st_digest trigger) ∧
  ((consume_trigger trigger E w).1 = Ok true → data_at g (st_path trigger) = None).
Proof.
  destruct w as [f k]. cbv zeta. set (p := st_path trigger).
  assert (H : wp (consume_trigger trigger) E (World f k) (λ r w',
    same_data (only p) f (w_fs w') ∧
    (data_at (w_fs w') p = data_at f p ∨ ∃ d, data_at f p = Some d ∧ sha256 d = st_digest trigger) ∧
    (r = Ok true → data_at (w_fs w') p = None))); [|exact H].
  assert (Hno : ∀ r k, r ≠ Ok true → same_data (only p) f f ∧
    (data_at f p = data_at f p ∨ ∃ d, data_at f p = Some d ∧ sha256 d = st_digest trigger) ∧
    (r = Ok true → data_at f p = None)) by (intros; split_and!; [apply same_refl|by left|done]).
  unfold consume_trigger. fold p. apply wp_bind, wp_safe_file;
    [|intros k1; by apply (Hno (Ok false))|intros e k1; by apply (Hno (Raise e))].
  intros raw k1 Hraw. cbv iota.
  destruct (eqs_spec (sha256 raw) (st_digest trigger)) as [Hs|]; cbn [negb];
    [|by apply wp_ret, (Hno (Ok false))].
  assert (Hgone : ∀ r, same_data (only p) f (delete p f) ∧
    (data_at (delete p f) p = data_at f p ∨ ∃ d, data_at f p = Some d ∧ sha256 d = st_digest trigger) ∧
    (r = Ok true → data_at (delete p f) p = None)).
  { intros r. split_and!; [|right; by exists raw|].
    - intros q Hq. by apply data_at_delete_ne.
    - intros _. unfold data_at. by rewrite lookup_delete_eq. }
  assert (Hf : ∃ m, f !! p = Some (File raw m)).
  { unfold data_at in Hraw. destruct (f !! p) as [[]|]; try done. injection Hraw as ->. by eexists. }
  destruct Hf as [m Hf]. apply wp_bind, wp_try, wp_bind.
  eapply wp_outcome; [by eapply unlink_outcome| |].
  - intros k2. apply wp_ret. cbv iota. apply wp_try, wp_bind, wp_fsync_directory.
    + intros k3. apply wp_ret. apply Hgone.
    + intros e k3 He. unfold except. simpl. rewrite He. simpl. apply wp_ret. apply (Hgone (Ok false)).
  - intros e k2 He. unfold except. simpl. rewrite He. simpl. apply wp_ret, wp_ret. by apply (Hno (Ok false)).
Qed.

(** A time of observation at the end of the calendar, west of Greenwich. *)
Definition late_trigger : dict :=
  [("schema", JStr TRIGGER_SCHEMA); ("reason", JStr "auth_unavailable");
   ("observedAt", JStr "9999-12-31T23:59:59-01:00")].

(** A trigger whose time cannot be moved to UTC is not rejected: the conversion
    raises OverflowError, which load_trigger does not handle. *)
Theorem load_trigger_overflow :
  match load_trigger (path_of "/sweeps") steady (World (sweep_fs late_trigger) 0) with
  | (Raise e, _) => exn_cls e = OverflowError
  | _ => False
  end.
Proof. vm_compute. reflexivity. Qed.
