(* ===== verification/CpaQuota.v ===== *)
(** * The quota probe ([cloud/cloudx_cloud/cpa_quota.py])

    One request to the usage endpoints for one credential, and what its answer says of
    the credential: ready, low, limited, in need of a login, or failed for good.

    [opener] stands for the HTTP client: endpoint and headers to a [reply].  The choice
    of a proxy ([url_opener_for_proxy], [_configured_url_opener]) is part of it. *)

From S2P Require Import Prelude PyStr PyFloat PyValue PyTime PyJson FS PyBase64 AgentIdentity Wp.
From S2P Require Import CpaRecords CpaAuth.

Definition USAGE_ENDPOINT_CHATGPT : string := "https://chatgpt.com/backend-api/wham/usage".
Definition USAGE_ENDPOINT_CODEXAPI : string := "https://api.openai.com/api/codex/usage".
Definition USAGE_METHOD : string := "http-usage".
Definition WARNING_PERCENT_THRESHOLD : Z := 25.
Definition ACCESS_TOKEN_REFRESH_SKEW_SECONDS : Z := 5 * 60.
Definition MAX_USAGE_RESPONSE_BYTES : Z := 1024 * 1024.

Definition PERMANENT_AUTH_FAILURE_MARKERS : list (string * string) :=
  [("deactivated_workspace", "deactivated_workspace");
   ("account_deactivated", "account_deactivated");
   ("account has been deactivated", "account_deactivated");
   ("account deactivated", "account_deactivated");
   ("account has been disabled", "account_deactivated");
   ("account disabled", "account_deactivated");
   ("account deleted", "account_deactivated");
   ("refresh_token_reused", "refresh_token_reused");
   ("refresh token reused", "refresh_token_reused");
   ("invalid_grant", "refresh_invalid_grant");
   ("refresh_token_revoked", "refresh_token_revoked");
   ("refresh token revoked", "refresh_token_revoked");
   ("token has been revoked", "refresh_token_revoked");
   ("refresh token is required", "missing_token");
   ("missing refresh token", "missing_token")].
Definition PERMANENT_AUTH_FAILURE_REASONS : list string :=
  "authentication_unauthorized" :: map snd PERMANENT_AUTH_FAILURE_MARKERS.
Definition QUOTA_FAILURE_MARKERS : list string :=
  ["weekly limit"; "weekly quota"; "usage_limit"; "usage limit"; "rate_limit"; "rate limit";
   "quota"; "too many requests"].

(** ** Tokens *)

Definition token_supported (token : string) : bool := Nat.leb 2 (count_char "." token).

(** [float(v)] on an [int] or a [float]. *)
Definition py_float (v : json) : res pyfloat :=
  match to_float v with Some f => Ok f | None => raise OverflowError "int too large to convert to float" end.
Definition is_number (v : json) : bool := match v with JInt _ | JFloat _ => true | _ => false end.

(** [current] is the clock reading of the probe, [current.timestamp()] its float. *)
Definition now_float (us : Z) : pyfloat := timestamp (utc (EPOCH_US + us)).
Definition float_of_int (z : Z) : pyfloat := round_rat z 1.
Definition token_needs_refresh (token : string) (us : Z) : res bool :=
  let expires_at := dget "exp" (jwt_claims token) in
  if negb (is_number expires_at) then Ok false
  else let* e := py_float expires_at in
       Ok (fle e (fadd (now_float us) (float_of_int ACCESS_TOKEN_REFRESH_SKEW_SECONDS))).

(** ** Percentages *)

Definition percent_or_none (value : json) : res (option Z) :=
  match value with
  | JInt z => Ok (Some z)
  | JFloat _ => let* z := py_int value in Ok (Some z)
  | _ => Ok None
  end.
Definition clamp (z : Z) : Z := Z.min 100 (Z.max 0 z).
Definition clamp_percent (value : option Z) : option Z := option_map clamp value.
Definition remaining_from_used (used : option Z) : option Z :=
  match used with None => None | Some u => clamp_percent (Some (100 - u)) end.

Definition remaining_percent (window : dict) : res (option Z) :=
  let* remaining := percent_or_none (dget "remaining_percent" window) in
  match remaining with
  | Some _ => Ok (clamp_percent remaining)
  | None =>
      let* used := percent_or_none (dget "used_percent" window) in
      match used with
      | Some _ => Ok (remaining_from_used used)
      | None =>
          let* utilization := percent_or_none (dget "utilization" window) in
          Ok (remaining_from_used utilization)
      end
  end.
Definition used_percent (window : dict) : res (option Z) :=
  let* used := percent_or_none (dget "used_percent" window) in
  match used with
  | Some _ => Ok (clamp_percent used)
  | None =>
      let* utilization := percent_or_none (dget "utilization" window) in
      match utilization with
      | Some _ => Ok (clamp_percent utilization)
      | None =>
          let* remaining := percent_or_none (dget "remaining_percent" window) in
          Ok (remaining_from_used remaining)
      end
  end.

Fixpoint window_of (rate_limit : dict) (keys : list string) : dict :=
  match keys with
  | [] => []
  | k :: keys => match dget k rate_limit with JDict d => d | _ => window_of rate_limit keys end
  end.

(** ** When a limited credential is available again *)

(** [fromtimestamp] raises outside the years 1 to 9999. *)
Definition iso_of_float (f : pyfloat) : res string :=
  match fromtimestamp f with
  | Some t => Ok (isoformat t)
  | None => raise ValueError "year is out of range"
  end.
Fixpoint offset_until (window : dict) (keys : list string) : M (option string) :=
  match keys with
  | [] => ret None
  | k :: keys =>
      let offset := dget k window in
      if num_positive offset then
        let! us := now_us in
        let! f := lift (py_float offset) in
        let! t := lift (iso_of_float (fadd (now_float us) f)) in ret (Some t)
      else offset_until window keys
  end.
Definition unavailable_until (window : dict) : M (option string) :=
  let reset_at := dget "reset_at" window in
  if num_positive reset_at then
    let! f := lift (py_float reset_at) in
    let! t := lift (iso_of_float f) in ret (Some t)
  else
    match dget "resets_at" window with
    | JStr s => if strip s <>s? "" then ret (Some (strip s))
                else offset_until window ["reset_after_seconds"; "retry_after_seconds"]
    | _ => offset_until window ["reset_after_seconds"; "retry_after_seconds"]
    end.
(** [_unavailable_until(a) or _unavailable_until(b)]. *)
Definition first_until (a b : dict) : M (option string) :=
  let! x := unavailable_until a in
  match x with Some _ => ret x | None => unavailable_until b end.

(** ** Results *)

Definition started_text (us : Z) : string := isoformat (utc (EPOCH_US + us)).
Definition opt_percent (o : option Z) : json := opt_int o.
Definition percent_text (label : string) (o : option Z) (suffix : string) : list string :=
  match o with Some z => [label +:+ str_of_Z z +:+ "%" +:+ suffix] | None => [] end.
Definition DOT : string := " · ".

Definition at_most (o : option Z) (bound : Z) : bool :=
  match o with Some z => z <=? bound | None => false end.
Definition first_some (o o' : list string) : list string := match o with [] => o' | _ => o end.

(** The verdict on the two windows: status, the window it is about and its percentage. *)
Definition window_status (limit_reached : bool) (reached_type : string) (primary secondary : option Z)
    : string * option (bool * string * option Z) :=
  let primary_exhausted := at_most primary 0 in
  let secondary_exhausted := at_most secondary 0 in
  if limit_reached || primary_exhausted || secondary_exhausted then
    if (reached_type =s? "secondary") ||
       (secondary_exhausted && match primary with None | Some 0 => false | _ => true end)
    then ("limited", Some (true, "7d", secondary))
    else if primary_exhausted then ("limited", Some (false, "5h", primary))
    else ("limited", Some (true, "7d", secondary))
  else if at_most primary WARNING_PERCENT_THRESHOLD then ("warning", Some (false, "5h", primary))
  else if at_most secondary WARNING_PERCENT_THRESHOLD then ("warning", Some (true, "7d", secondary))
  else ("ready", None)%string.

Definition build_probe_success (payload : dict) (us : Z) (endpoint : string) : M dict :=
  let rate_limit := match dget "rate_limit" payload with JDict d => d | _ => payload end in
  let primary := window_of rate_limit ["primary_window"; "short_window"; "five_hour"] in
  let secondary := window_of rate_limit ["secondary_window"; "weekly_window"; "seven_day"] in
  let! primary_remaining := lift (remaining_percent primary) in
  let! secondary_remaining := lift (remaining_percent secondary) in
  let! primary_used := lift (used_percent primary) in
  let! secondary_used := lift (used_percent secondary) in
  let remaining_percents :=
    match primary_remaining with Some z => [z] | None => [] end ++
    match secondary_remaining with Some z => [z] | None => [] end in
  let status_parts := percent_text "5h " primary_remaining " left" ++
                      percent_text "weekly " secondary_remaining " left" in
  let status_line := match status_parts with [] => JNull | _ => JStr (str_join DOT status_parts) end in
  let reached_type := str_lower (strip (str_or_empty (dget "rate_limit_reached_type" rate_limit))) in
  let '(status, about) :=
    window_status (truthy (dget "limit_reached" rate_limit)) reached_type
      primary_remaining secondary_remaining in
  let! until :=
    (if status =s? "limited" then
       match about with
       | Some (true, _, _) => first_until secondary primary
       | _ => first_until primary secondary
       end
     else ret None) in
  let summary_parts :=
    first_some (percent_text "5h used " primary_used "") (percent_text "5h left " primary_remaining "") ++
    first_some (percent_text "weekly used " secondary_used "")
               (percent_text "weekly left " secondary_remaining "") in
  ret [("status", JStr status);
       ("checked_at", JStr (started_text us));
       ("method", JStr USAGE_METHOD);
       ("warning", match about with Some _ => status_line | None => JNull end);
       ("warning_percent", match about with Some (_, _, p) => opt_percent p | None => JNull end);
       ("warning_window", match about with Some (_, w, _) => JStr w | None => JNull end);
       ("unavailable_until", opt_str until);
       ("exit_code", JInt 200);
       ("summary", JStr (match summary_parts with
                         | [] => "usage endpoint returned no quota data"
                         | _ => str_join DOT summary_parts end));
       ("status_line", status_line);
       ("remaining_percent", opt_percent primary_remaining);
       ("remaining_percents", JList (map JInt remaining_percents));
       ("quota_checked_at", match remaining_percents with [] => JNull | _ => JStr (started_text us) end);
       ("endpoint", JStr endpoint);
       ("incomplete", JBool (match remaining_percents with [] => true | _ => false end))].

Definition build_probe_error (status : string) (us : Z) (summary : string) (exit_code : option Z) : dict :=
  [("status", JStr status); ("checked_at", JStr (started_text us)); ("method", JStr USAGE_METHOD);
   ("warning", JNull); ("warning_percent", JNull); ("warning_window", JNull);
   ("unavailable_until", JNull); ("exit_code", opt_int exit_code); ("summary", JStr summary);
   ("status_line", JNull); ("remaining_percent", JNull); ("remaining_percents", JList []);
   ("quota_checked_at", JNull); ("incomplete", JBool false)].

(** [code or None]. *)
Definition code_or_none (code : Z) : option Z := if code =? 0 then None else Some code.
Definition permanent_failure (reason : string) (endpoint : option string) (d : dict) : dict :=
  let d := match endpoint with Some e => dset "endpoint" (JStr e) d | None => d end in
  dset "weekly_quota" (JBool false)
    (dset "permanent_auth_failure" (JBool true) (dset "failure_reason" (JStr reason) d)).

(** ** Requests *)

Definition endpoint_candidates (auth : dict) : list string :=
  let mode := str_lower (strip (str_or_empty (dget "auth_mode" auth))) in
  if mem mode [""; "chatgpt"; "chatgptauthtokens"]
  then [USAGE_ENDPOINT_CHATGPT; USAGE_ENDPOINT_CODEXAPI]
  else [USAGE_ENDPOINT_CODEXAPI; USAGE_ENDPOINT_CHATGPT].

Definition usage_headers (endpoint access_token account_id : string) : list (string * string) :=
  [("Authorization", "Bearer " +:+ access_token); ("Accept", "application/json");
   ("User-Agent", "codex-cli"); ("OpenAI-Beta", "codex=v1")] ++
  (if starts_with "https://chatgpt.com/" endpoint
   then [("Origin", "https://chatgpt.com"); ("Referer", "https://chatgpt.com/")] else []) ++
  (if account_id <>s? "" then [("ChatGPT-Account-Id", account_id)] else []).

(** An answer, an HTTP error with the bytes that could be read of its body, or any other
    exception. *)
Inductive reply :=
| Response (status : Z) (body : string)
| HttpError (code : Z) (body : option string)
| NoReply.

(** A body over the limit counts as no answer; of an error it is dropped. *)
Definition perform_request (r : reply) : reply :=
  match r with
  | Response _ body => if MAX_USAGE_RESPONSE_BYTES <? str_len body then NoReply else r
  | _ => r
  end.
Definition bounded_error_body (body : option string) : string :=
  match body with
  | Some b => if MAX_USAGE_RESPONSE_BYTES <? str_len b then "" else b
  | None => ""
  end.

(** The first marker of the list that occurs in the text. *)
Definition permanent_marker (value : string) : option (string * string) :=
  find (λ mr, contains mr.1 value) PERMANENT_AUTH_FAILURE_MARKERS.

Inductive classification := CQuota | CPermanent (reason : string) | CNone.
Definition body_classification (body : string) : classification :=
  let value := casefold (utf8_ignore body) in
  if existsb (λ marker, contains marker value) QUOTA_FAILURE_MARKERS then CQuota
  else match permanent_marker value with
       | Some (_, reason) => CPermanent reason
       | None => CNone
       end.

Arguments permanent_marker : simpl never.

Definition classified_http_failure (status_code : Z) (body : string) (us : Z) (endpoint : string)
    (has_refresh_token : bool) : option dict :=
  let c := body_classification body in
  if (status_code =? 429) || match c with CQuota => true | _ => false end then
    Some (dset "endpoint" (JStr endpoint)
      (build_probe_error "limited" us "usage endpoint reported exhausted or rate-limited capacity"
         (code_or_none status_code)))
  else match c with
  | CPermanent reason =>
      Some (permanent_failure reason (Some endpoint)
        (build_probe_error "invalid" us "usage endpoint reported a permanent authentication failure"
           (code_or_none status_code)))
  | _ =>
      if status_code =? 401 then
        if has_refresh_token then
          Some (dset "endpoint" (JStr endpoint)
            (build_probe_error "login" us "usage endpoint rejected the access token before refresh"
               (Some status_code)))
        else
          Some (permanent_failure "authentication_unauthorized" (Some endpoint)
            (build_probe_error "invalid" us
               "usage endpoint rejected a credential without refresh capability" (Some status_code)))
      else None
  end.

Section probe.
Context (opener : string → list (string * string) → M reply).

(** Whether the provider can be reached at all. *)
Definition probe_transport_http : M dict :=
  let! r := opener USAGE_ENDPOINT_CHATGPT
              [("Accept", "application/json"%string); ("User-Agent", "codex-cli"%string)] in
  let answered (code : Z) : dict :=
    [("status", JStr (if (code =? 429) || (500 <=? code) then "provider_error" else "reachable"));
     ("exit_code", opt_int (code_or_none code))] in
  ret (match r with
       | Response code _ | HttpError code _ => answered code
       | NoReply => [("status", JStr "transport_error"); ("exit_code", JNull)]
       end).

(** What one endpoint's answer settles: [None] when the next one is tried. *)
Definition settle (us : Z) (has_refresh_token : bool) (endpoint : string) (r : reply) : M (option dict) :=
  match perform_request r with
  | NoReply => ret None
  | HttpError code body =>
      ret (classified_http_failure code (bounded_error_body body) us endpoint has_refresh_token)
  | Response code body =>
      if 400 <=? code then ret (classified_http_failure code body us endpoint has_refresh_token)
      else match loads_bytes body with
           | Ok (JDict payload) =>
               let! d := build_probe_success payload us endpoint in ret (Some d)
           | _ => ret None
           end
  end.

Fixpoint try_endpoints (us : Z) (has_refresh_token : bool) (access_token account_id : string)
    (endpoints : list string) : M (option dict) :=
  match endpoints with
  | [] => ret None
  | endpoint :: endpoints =>
      let! r := opener endpoint (usage_headers endpoint access_token account_id) in
      let! settled := settle us has_refresh_token endpoint r in
      match settled with
      | Some _ => ret settled
      | None => try_endpoints us has_refresh_token access_token account_id endpoints
      end
  end.

Definition probe_account_quota_http (auth : dict) : M (option dict) :=
  let! us := now_us in
  let '(access_token, refresh_token, _) := auth_tokens auth in
  let account_id := auth_account_id auth in
  if negb (token_supported access_token) then ret None else
  let! stale := lift (token_needs_refresh access_token us) in
  if stale then
    ret (Some (if refresh_token =s? "" then
      permanent_failure "missing_token" None
        (build_probe_error "invalid" us "access token expired without refresh capability" None)
      else build_probe_error "login" us "access token needs refresh" None))
  else try_endpoints us (refresh_token <>s? "") access_token account_id (endpoint_candidates auth).

End probe.

(** * What the quota probe concludes

    Percentages stay in their range, the status of an answer is exactly what its two
    windows say, and a credential is failed for good only on the grounds listed. *)

(** ** Percentages *)

Definition in_percent (o : option Z) : Prop := ∀ z, o = Some z → 0 <= z <= 100.

Lemma clamp_range z : 0 <= clamp z <= 100.
Proof. unfold clamp. lia. Qed.
Lemma clamp_in o : in_percent (clamp_percent o).
Proof. destruct o; intros y [= <-]. apply clamp_range. Qed.
Lemma remaining_from_in o : in_percent (remaining_from_used o).
Proof. destruct o; [apply clamp_in|]. by intros y. Qed.

Lemma remaining_in window o : remaining_percent window = Ok o → in_percent o.
Proof.
  unfold remaining_percent.
  destruct (percent_or_none _) as [[z|]|]; [intros [= <-]; apply (clamp_in (Some z))| |done].
  destruct (percent_or_none _) as [[z|]|]; [intros [= <-]; apply (remaining_from_in (Some z))| |done].
  destruct (percent_or_none _); [intros [= <-]; apply remaining_from_in|done].
Qed.
Lemma used_in window o : used_percent window = Ok o → in_percent o.
Proof.
  unfold used_percent.
  destruct (percent_or_none _) as [[z|]|]; [intros [= <-]; apply (clamp_in (Some z))| |done].
  destruct (percent_or_none _) as [[z|]|]; [intros [= <-]; apply (clamp_in (Some z))| |done].
  destruct (percent_or_none _); [intros [= <-]; apply remaining_from_in|done].
Qed.

(** The two readings of one window agree. *)
Lemma remaining_used window p u :
  dget "remaining_percent" window = JNull →
  remaining_percent window = Ok (Some p) → used_percent window = Ok (Some u) → p + u = 100.
Proof.
  intros Hr. unfold remaining_percent, used_percent. rewrite Hr. simpl.
  destruct (percent_or_none (dget "used_percent" window)) as [[x|]|]; try done.
  - intros [= <-] [= <-]. unfold clamp. lia.
  - destruct (percent_or_none (dget "utilization" window)) as [[x|]|]; try done.
    intros [= <-] [= <-]. unfold clamp. lia.
Qed.

(** ** The status *)

Lemma at_most_spec o bound : at_most o bound = true ↔ ∃ z, o = Some z ∧ z <= bound.
Proof. destruct o; simpl; rewrite ?Z.leb_le; naive_solver. Qed.

Definition exhausted (limit_reached : bool) (p s : option Z) : Prop :=
  limit_reached = true ∨ p = Some 0 ∨ s = Some 0.
Definition nearly (p s : option Z) : Prop :=
  ∃ z, (p = Some z ∨ s = Some z) ∧ z <= WARNING_PERCENT_THRESHOLD.

Lemma at_most_zero o : in_percent o → at_most o 0 = true ↔ o = Some 0.
Proof.
  intros H. rewrite at_most_spec. split; [|naive_solver].
  intros (z & -> & Hz). specialize (H z eq_refl). do 2 f_equal. lia.
Qed.

Lemma window_status_spec lr rt p s :
  in_percent p → in_percent s →
  let status := fst (window_status lr rt p s) in
  (status = "limited"%string ↔ exhausted lr p s) ∧
  (status = "warning"%string ↔ ¬ exhausted lr p s ∧ nearly p s) ∧
  (status = "ready"%string ↔ ¬ exhausted lr p s ∧ ¬ nearly p s).
Proof.
  intros Hp Hs. cbv zeta. unfold window_status.
  assert (He : (lr || at_most p 0 || at_most s 0) = true ↔ exhausted lr p s).
  { unfold exhausted. rewrite !orb_true_iff, !at_most_zero by done. tauto. }
  assert (Hn : (at_most p WARNING_PERCENT_THRESHOLD || at_most s WARNING_PERCENT_THRESHOLD) = true ↔ nearly p s).
  { unfold nearly. rewrite orb_true_iff, !at_most_spec. naive_solver. }
  assert (Hne : "limited"%string ≠ "warning"%string ∧ "limited"%string ≠ "ready"%string ∧
                "warning"%string ≠ "ready"%string) by (split_and!; done).
  destruct (lr || at_most p 0 || at_most s 0).
  - assert (Hex : exhausted lr p s) by (by apply He).
    match goal with |- context [fst ?x] => assert (Hl : fst x = "limited"%string) end.
    { match goal with |- context [if ?b then _ else _] => destruct b end; [done|].
      by destruct (at_most p 0). }
    rewrite Hl. intuition congruence.
  - assert (Hex : ¬ exhausted lr p s) by (intros H%He; done). clear He.
    destruct (at_most p WARNING_PERCENT_THRESHOLD); simpl in *.
    { assert (nearly p s) by (by apply Hn). intuition congruence. }
    destruct (at_most s WARNING_PERCENT_THRESHOLD); simpl in *.
    + assert (nearly p s) by (by apply Hn). intuition congruence.
    + assert (¬ nearly p s) by (intros H%Hn; done). intuition congruence.
Qed.

Definition primary_of (payload : dict) : dict :=
  window_of (match dget "rate_limit" payload with JDict d => d | _ => payload end)
    ["primary_window"; "short_window"; "five_hour"].
Definition secondary_of (payload : dict) : dict :=
  window_of (match dget "rate_limit" payload with JDict d => d | _ => payload end)
    ["secondary_window"; "weekly_window"; "seven_day"].
Definition limit_flag (payload : dict) : bool :=
  truthy (dget "limit_reached" (match dget "rate_limit" payload with JDict d => d | _ => payload end)).
Definition percents (p s : option Z) : list Z :=
  match p with Some z => [z] | None => [] end ++ match s with Some z => [z] | None => [] end.

(** What a successful answer must say, [p] and [s] being what is left of the windows. *)
Record success_exact (payload : dict) (p s : option Z) (d : dict) : Prop := {
  se_range : in_percent p ∧ in_percent s;
  se_percents : dget "remaining_percents" d = JList (map JInt (percents p s));
  se_limited : dget "status" d = JStr "limited" ↔ exhausted (limit_flag payload) p s;
  se_warning : dget "status" d = JStr "warning" ↔ ¬ exhausted (limit_flag payload) p s ∧ nearly p s;
  se_ready : dget "status" d = JStr "ready" ↔ ¬ exhausted (limit_flag payload) p s ∧ ¬ nearly p s;
  se_permanent : dget "permanent_auth_failure" d = JNull;
  se_reset : dget "status" d ≠ JStr "limited" → dget "unavailable_until" d = JNull }.

Lemma wp_build_success payload us endpoint E w :
  wp (build_probe_success payload us endpoint) E w (λ r _, ∀ d, r = Ok d →
    ∃ p s, remaining_percent (primary_of payload) = Ok p ∧
           remaining_percent (secondary_of payload) = Ok s ∧ success_exact payload p s d).
Proof.
  unfold build_probe_success. fold (primary_of payload) (secondary_of payload).
  apply wp_bind, wp_lift. destruct (remaining_percent (primary_of payload)) as [p|] eqn:Hp; [|done].
  apply wp_bind, wp_lift. destruct (remaining_percent (secondary_of payload)) as [s|] eqn:Hs; [|done].
  apply wp_bind, wp_lift. destruct (used_percent _) as [pu|]; [|done].
  apply wp_bind, wp_lift. destruct (used_percent _) as [su|]; [|done].
  cbv zeta. fold (limit_flag payload) (percents p s).
  pose proof (remaining_in _ _ Hp) as Hpi. pose proof (remaining_in _ _ Hs) as Hsi.
  match goal with |- context [window_status ?lr ?rt p s] =>
    pose proof (window_status_spec lr rt p s Hpi Hsi) as Hw;
    destruct (window_status lr rt p s) as [status about] end.
  simpl in Hw. destruct Hw as (H1 & H2 & H3). apply wp_bind.
  apply (wp_mono _ _ _ (λ r _, status ≠ "limited"%string → ∀ o, r = Ok o → o = None)).
  { destruct (eqs_spec status "limited"); [|by apply wp_ret; intros _ o [= <-]].
    unfold wp. by intros ?. }
  intros [until|e] w1 Hu; [|done]. apply wp_ret. intros d [= <-]. exists p, s.
  assert (HS : ∀ a b, JStr a = JStr b ↔ a = b) by (intros; split; congruence).
  split_and!; try done. split.
  - done.
  - done.
  - cbn [dget dlookup default String.eqb Ascii.eqb Bool.eqb]. rewrite <- H1. apply HS.
  - rewrite <- H2. apply HS.
  - rewrite <- H3. apply HS.
  - done.
  - intros Hne. change (opt_str until = JNull). rewrite (Hu (λ H, Hne (f_equal JStr H)) until eq_refl). done.
Qed.


Definition sample_usage : dict :=
  [("rate_limit", JDict
     [("primary_window", JDict [("used_percent", JInt 120)]);
      ("secondary_window", JDict [("used_percent", JInt 40); ("reset_after_seconds", JInt 60)])])].
Definition calm : env := Env (λ _, false) (λ _, ""%string) (λ _, 0) (λ _ _, FNan) (λ _ _, false) (λ _, 0).

(** ** Permanent failures *)

Definition has_quota_marker (body : string) : bool :=
  existsb (λ m, contains m (casefold (utf8_ignore body))) QUOTA_FAILURE_MARKERS.
Definition has_permanent_marker (body : string) : bool :=
  existsb (λ mr, contains mr.1 (casefold (utf8_ignore body))) PERMANENT_AUTH_FAILURE_MARKERS.

(** The grounds on which an error answer fails a credential for good. *)
Definition fatal_answer (code : Z) (body : string) (has_refresh_token : bool) : bool :=
  negb (code =? 429) && negb (has_quota_marker body) &&
  (has_permanent_marker body || ((code =? 401) && negb has_refresh_token)).

Definition is_permanent (d : dict) : Prop := dget "permanent_auth_failure" d = JBool true.

Lemma permanent_marker_spec value :
  match permanent_marker value with
  | Some (marker, reason) => In (marker, reason) PERMANENT_AUTH_FAILURE_MARKERS ∧ contains marker value = true
  | None => existsb (λ mr, contains mr.1 value) PERMANENT_AUTH_FAILURE_MARKERS = false
  end.
Proof.
  unfold permanent_marker. destruct (List.find _ _) as [[m r]|] eqn:E.
  - by apply find_some in E.
  - apply not_true_is_false. intros (x & Hx & Hc)%existsb_exists.
    by rewrite (find_none _ _ E x Hx) in Hc.
Qed.
Lemma has_permanent_spec body :
  has_permanent_marker body =
  match permanent_marker (casefold (utf8_ignore body)) with Some _ => true | None => false end.
Proof.
  unfold has_permanent_marker. pose proof (permanent_marker_spec (casefold (utf8_ignore body))) as H.
  destruct (permanent_marker _) as [[m r]|]; [|done]. apply existsb_exists. by exists (m, r).
Qed.

Lemma dget_dset_other k k' v d : k ≠ k' → dget k (dset k' v d) = dget k d.
Proof. intros H. unfold dget. by rewrite dlookup_dset_ne. Qed.

Lemma permanent_failure_spec reason endpoint d :
  is_permanent (permanent_failure reason endpoint d) ∧
  dget "failure_reason" (permanent_failure reason endpoint d) = JStr reason ∧
  dget "weekly_quota" (permanent_failure reason endpoint d) = JBool false.
Proof.
  unfold is_permanent, permanent_failure. cbv zeta.
  split_and!; rewrite ?dget_dset_other by done; by rewrite dget_dset.
Qed.

(** _classified_http_failure fails a credential for good exactly when the answer is
    not a 429, names no quota, and either carries a marker of a permanent failure or is
    a 401 for a credential without a refresh token: exhausted quota is never taken for a
    dead credential.  The reason it gives is one of the permanent reasons. *)
Theorem classified_failure_exact code body us endpoint has_refresh :
  match classified_http_failure code body us endpoint has_refresh with
  | Some d =>
      (is_permanent d ↔ fatal_answer code body has_refresh = true) ∧
      (is_permanent d → dget "weekly_quota" d = JBool false ∧
         ∃ reason, dget "failure_reason" d = JStr reason ∧ In reason PERMANENT_AUTH_FAILURE_REASONS)
  | None => fatal_answer code body has_refresh = false ∧ code ≠ 401 ∧ code ≠ 429
  end.
Proof.
  unfold classified_http_failure, fatal_answer, body_classification.
  fold (has_quota_marker body). rewrite has_permanent_spec.
  pose proof (permanent_marker_spec (casefold (utf8_ignore body))) as Hf.
  assert (Hnot : ∀ s sum o e, ¬ is_permanent (dset "endpoint" e (build_probe_error s us sum o))).
  { intros s sum o e. unfold is_permanent. by rewrite dget_dset_other. }
  destruct (has_quota_marker body); simpl.
  { rewrite orb_true_r, andb_false_r. simpl. split; [|by intros ?%Hnot].
    split; [by intros ?%Hnot|done]. }
  destruct (permanent_marker _) as [[marker reason]|]; rewrite orb_false_r.
  - destruct (Z.eqb_spec code 429); simpl; [split; [split; [by intros ?%Hnot|done]|by intros ?%Hnot]|].
    match goal with |- (is_permanent (permanent_failure ?r ?e ?d) ↔ _) ∧ _ =>
      destruct (permanent_failure_spec r e d) as (H1 & H2 & H3) end.
    split; [done|]. intros _. split; [done|]. exists reason. split; [done|].
    destruct Hf as [Hf _]. right. by apply (in_map snd) in Hf.
  - destruct (Z.eqb_spec code 429); simpl; [split; [split; [by intros ?%Hnot|done]|by intros ?%Hnot]|].
    destruct (Z.eqb_spec code 401); simpl; [|done]. destruct has_refresh; simpl.
    + split; [split; [by intros ?%Hnot|done]|by intros ?%Hnot].
    + match goal with |- (is_permanent (permanent_failure ?r ?e ?d) ↔ _) ∧ _ =>
        destruct (permanent_failure_spec r e d) as (H1 & H2 & H3) end.
      split; [done|]. intros _. split; [done|]. eexists. split; [done|]. by left.
Qed.

Section probed.
Context (opener : string → list (string * string) → M reply).

(** An answer the probe received, and the bytes of it that are looked at. *)
Definition answered (E : env) (code : Z) (body : string) : Prop :=
  ∃ endpoint headers w1 w2 r, opener endpoint headers E w1 = (Ok r, w2) ∧
    match perform_request r with
    | Response c b => c = code ∧ b = body ∧ 400 <= code
    | HttpError c b => c = code ∧ bounded_error_body b = body
    | NoReply => False
    end.

Definition grounds (E : env) (us : Z) (auth : dict) : Prop :=
  (token_of "refresh_token" auth = "" ∧ token_needs_refresh (token_of "access_token" auth) us = Ok true) ∨
  ∃ code body, answered E code body ∧
    fatal_answer code body (token_of "refresh_token" auth <>s? "") = true.

Lemma wp_self {A} (m : M A) E w (Φ : res A → world → Prop) :
  (∀ r w', m E w = (r, w') → Φ r w') → wp m E w Φ.
Proof. intros H. unfold wp. destruct (m E w) as [r w']. by apply H. Qed.

Lemma wp_try_endpoints us auth refresh access account endpoints E w :
  refresh = (token_of "refresh_token" auth <>s? "") →
  wp (try_endpoints opener us refresh access account endpoints) E w
    (λ r _, ∀ d, r = Ok (Some d) → is_permanent d → grounds E us auth).
Proof.
  intros Hrefresh. revert w. induction endpoints as [|ep l IH]; intros w; simpl; [by apply wp_ret|].
  apply wp_bind, wp_self. intros [r|e] w1 Hop; [|done]. apply wp_bind.
  assert (Hclass : ∀ code body, answered E code body → ∀ d,
    classified_http_failure code body us ep refresh = Some d → is_permanent d → grounds E us auth).
  { intros code body Ha d Hd Hperm. pose proof (classified_failure_exact code body us ep refresh) as Hc.
    rewrite Hd in Hc. destruct Hc as [Hc _]. apply Hc in Hperm. right. exists code, body.
    split; [done|]. by rewrite <- Hrefresh. }
  apply (wp_mono _ _ _ (λ r _, ∀ d, r = Ok (Some d) → is_permanent d → grounds E us auth)).
  - unfold settle. destruct (perform_request r) as [code body|code body|] eqn:Hpr; [| |by apply wp_ret].
    + destruct (Z.leb_spec 400 code).
      * apply wp_ret. intros d [= Hd]. apply (Hclass code body); [|done].
        exists ep, (usage_headers ep access account), w, w1, r. by rewrite Hpr.
      * destruct (loads_bytes body) as [[| | | | | |payload]|]; try (by apply wp_ret).
        apply wp_bind. eapply wp_mono; [apply wp_build_success|].
        intros [d|e] w2 H2; [|done]. apply wp_ret. intros ? [= <-].
        destruct (H2 d eq_refl) as (p & s & _ & _ & Hs). unfold is_permanent.
        by rewrite (se_permanent _ _ _ _ Hs).
    + apply wp_ret. intros d [= Hd]. apply (Hclass code (bounded_error_body body)); [|done].
      exists ep, (usage_headers ep access account), w, w1, r. by rewrite Hpr.
  - intros [[d|]|e] w2 H; [by apply wp_ret|apply IH|done].
Qed.

(** C24: probe_account_quota_http reports a permanent failure only on its grounds: the
    access token is expired and there is no refresh token, or an endpoint answered the
    request with an error that names no quota and either carries a permanent marker or
    is a 401 for a credential without a refresh token. *)
Theorem probe_permanent_sound auth E w d w'
    (Hrun : probe_account_quota_http opener auth E w = (Ok (Some d), w'))
    (Hperm : is_permanent d) :
  token_supported (token_of "access_token" auth) = true ∧ grounds E (clock E (w_tick w)) auth.
Proof.
  assert (H : wp (probe_account_quota_http opener auth) E w (λ r _, ∀ d, r = Ok (Some d) →
    is_permanent d → token_supported (token_of "access_token" auth) = true ∧
      grounds E (clock E (w_tick w)) auth)).
  { unfold probe_account_quota_http. apply wp_bind. unfold now_us, wp at 1. simpl.
    set (us := clock E (w_tick w)).
    destruct (token_supported (token_of "access_token" auth)) eqn:Hsup; simpl; [|by apply wp_ret].
    apply wp_bind, wp_lift. destruct (token_needs_refresh _ us) as [[]|] eqn:Hn; [| |done].
    - apply wp_ret. intros d' [= <-]. destruct (eqs_spec (token_of "refresh_token" auth) "") as [He|He];
        [|by unfold is_permanent]. intros _. split; [done|]. by left.
    - eapply wp_mono; [by apply wp_try_endpoints|]. intros r w2 Hr d' Hd Hp. split; [done|by eapply Hr]. }
  unfold wp in H. rewrite Hrun in H. by apply (H d).
Qed.

End probed.

(** A token of three parts, refused by both endpoints. *)
Definition sample_token : string := "a.b.c".
Definition deactivated (endpoint : string) (headers : list (string * string)) : M reply :=
  ret (HttpError 403 (Some "The account has been Deactivated"%string)).
Lemma probe_permanent_sound_witness :
  ∃ d w', probe_account_quota_http deactivated [("access_token", JStr sample_token)] calm (World ∅ 0) =
      (Ok (Some d), w') ∧ is_permanent d ∧
    token_supported (token_of "access_token" [("access_token", JStr sample_token)]) = true ∧
    grounds deactivated calm (clock calm 0) [("access_token", JStr sample_token)].
Proof.
  set (run := probe_account_quota_http deactivated [("access_token", JStr sample_token)] calm (World ∅ 0)).
  assert (Hp : match run.1 with Ok (Some d) => is_permanent d | _ => False end) by (by vm_compute).
  destruct run as [[[d|]|e] w'] eqn:H; try done.
  exists d, w'. split; [done|]. split; [done|].
  apply (probe_permanent_sound deactivated [("access_token", JStr sample_token)] calm (World ∅ 0) d w' H Hp).
Defined.

Definition infinite_body : string :=
  str_join QUOTE ["{"; "primary_window"; ":{"; "used_percent"; ":1e999}}"].
Definition infinite (endpoint : string) (headers : list (string * string)) : M reply :=
  ret (Response 200 infinite_body).

(** An answer with a percentage that is not finite is not handled: [json.loads] reads
    1e999 as an infinity, and the probe raises OverflowError where every other malformed
    answer makes it try the next endpoint. *)
Theorem probe_nonfinite_raises :
  match probe_account_quota_http infinite [("access_token", JStr sample_token)] calm (World ∅ 0) with
  | (Raise e, _) => exn_cls e = OverflowError
  | _ => False
  end.
Proof. vm_compute. reflexivity. Qed.
