(* ===== verification/CpaHealth.v ===== *)
(** * The health monitor of the CPA pool ([cloud/cloudx_cloud/cpa_health.py])

    Probes every credential once, summarises the pool, and archives the credentials that
    failed for good: by the static checks, by the receipts of the gateway, by the probes.

    The runtime is [native_runtime]: [cpa_auth] and [cpa_quota].  [opener] is the HTTP
    client of the probes.  The thread pool runs the probes in the order of its list. *)

From S2P Require Import Prelude PyStr PyFloat PyValue PyRe PyTime PyJson PyBase64 PySha FS.
From S2P Require Import PublicMetadata AgentIdentity CpaRecords CpaAuth CpaSweep CpaQuota.

Definition MAX_PROBE_CONCURRENCY : Z := 64.
Definition FAILURE_RECEIPT_SCHEMA : string := "cloudx.cpa-auth-failure.v1".
Definition MAX_FAILURE_RECEIPT_BYTES : Z := 16 * 1024.
Definition MAX_FAILURE_RECEIPTS : nat := 2048.
Definition MAX_FAILURE_RECEIPT_AGE_SECONDS : Z := 30 * 60.
Definition MAX_FAILURE_RECEIPT_FUTURE_SKEW_SECONDS : Z := 5 * 60.
Definition MIN_RUNTIME_FAILURE_CONFIRMATIONS : Z := 1.
Definition PERMANENT_RUNTIME_FAILURES : list string :=
  ["account_deactivated"; "authentication_unauthorized"; "missing_token";
   "refresh_invalid_grant"; "refresh_token_reused"; "refresh_token_revoked"].

Definition cloudx_config (auth_dir archive_dir : path) (failure_confirmations : Z) (proxy_url : string) : dict :=
  [("cliproxy", JDict
     [("account_name", JStr "api"); ("auth_dir", JStr (path_str auth_dir));
      ("quarantine_dir", JStr (path_str archive_dir));
      ("failure_confirmations", JInt (Z.max 1 failure_confirmations));
      ("proxy_url", JStr (strip proxy_url))])].

(** ** The summary *)

Definition probe_status (item : option dict) : string :=
  match item with
  | Some d => str_first [dget "status" d; JStr "unavailable"]
  | None => "unavailable"
  end.
Definition count_status (s : string) (probes : list (option dict)) : Z :=
  Z.of_nat (length (List.filter (λ item, probe_status item =s? s) probes)).

(** The smallest integer of [remaining_percents]. *)
Definition min_remaining (item : option dict) : option Z :=
  match item with
  | Some d =>
      match omap as_int (list_or_empty (dget "remaining_percents" d)) with
      | [] => None
      | z :: l => Some (fold_left Z.min l z)
      end
  | None => None
  end.

Definition reset_times (probes : list (option dict)) : list string :=
  sort_by str_leb (omap (λ item,
    match item with
    | Some d => if truthy (dget "unavailable_until" d) then Some (py_str (dget "unavailable_until" d)) else None
    | None => None
    end) probes).

Definition pool_state (total available limited failed threshold : Z) : string :=
  if (total =? 0) || (failed =? total) then "probe_error"
  else if (available =? 0) && (0 <? limited) then "exhausted"
  else if available <=? threshold then "low_capacity"
  else "healthy".

Definition summarize_probes (probes : list (option dict)) (warning_available_accounts : Z)
    (checked_at : string) : dict :=
  let total := Z.of_nat (length probes) in
  let available := count_status "ready" probes + count_status "warning" probes in
  let limited := count_status "limited" probes in
  let failed := total - available - limited in
  let remaining := omap min_remaining probes in
  let count (f : Z → bool) : json := JInt (Z.of_nat (length (List.filter f remaining))) in
  [("state", JStr (pool_state total available limited failed (Z.max 1 warning_available_accounts)));
   ("checked_at", JStr checked_at);
   ("total", JInt total);
   ("available", JInt available);
   ("ready", JInt (count_status "ready" probes));
   ("warning", JInt (count_status "warning" probes));
   ("limited", JInt limited);
   ("invalid", JInt (count_status "invalid" probes));
   ("failed", JInt failed);
   ("zero_quota", count (λ value, value <=? 0));
   ("low_quota", count (λ value, (0 <? value) && (value <=? 10)));
   ("earliest_reset", JStr (List.hd ""%string (reset_times probes)))].

(** ** Probing *)

Definition auth_sha256 (p : path) : M string :=
  let! raw := safe_file_bytes p MAX_AUTH_FILE_BYTES in
  match raw with Some raw => ret (sha256 raw) | None => oserror "unsafe CPA auth file" end.
(** The digest, or nothing when the file cannot be read. *)
Definition digest_or_empty (p : path) : M string :=
  try_with (auth_sha256 p) (except [OSError] (λ _, ret ""%string)).

(** [unique_contexts.setdefault(key, ...)]: the authentication of each key. *)
Fixpoint unique_auths (seen : list string) (l : list (string * dict)) : list (string * dict) :=
  match l with
  | [] => []
  | (k, auth) :: l =>
      if mem k seen then unique_auths seen l else (k, auth) :: unique_auths (k :: seen) l
  end.

(** An observation of a credential file: the path, the probe, the digest before it. *)
Record observation := Observation { ob_path : string; ob_probe : option dict; ob_digest : string }.
Record candidate := Candidate { ca_path : string; ca_sha256 : string; ca_reason : string }.

(** The reason for which a probe fails its credential for good. *)
Definition permanent_reason (item : option dict) : option string :=
  match item with
  | Some d =>
      if is_true (dget "permanent_auth_failure" d) && is_false (dget "weekly_quota" d) then
        let reason := str_or_empty (dget "failure_reason" d) in
        if mem reason PERMANENT_AUTH_FAILURE_REASONS then Some reason else None
      else None
  | None => None
  end.

(** One file: every record of it failed for good, and it was read as one digest. *)
Definition candidate_of (observations : list observation) (p : string) : option candidate :=
  let mine := List.filter (λ o, ob_path o =s? p) observations in
  let reasons := omap (λ o, permanent_reason (ob_probe o)) mine in
  let digests := sorted_set (map ob_digest mine) in
  match digests with
  | [digest] =>
      if (p =s? "") || negb (Nat.eqb (length reasons) (length mine)) || (digest =s? "") then None
      else Some (Candidate p digest (List.hd ""%string (sorted_set reasons)))
  | _ => None
  end.
Definition permanent_candidates (observations : list observation) : list candidate :=
  omap (candidate_of observations) (sorted_set (map ob_path observations)).

Section monitor.
Context (opener : string → list (string * string) → M reply).

Definition clamp_concurrency (n : Z) : Z := Z.max 1 (Z.min MAX_PROBE_CONCURRENCY n).

Definition probe_accounts (config : dict) (warning_available_accounts probe_concurrency : Z)
    : M (dict * list candidate) :=
  let concurrency := clamp_concurrency probe_concurrency in
  let summary probes : M dict :=
    let! now := iso_now in ret (summarize_probes probes warning_available_accounts now) in
  let! contexts := auth_contexts config "api" in
  match contexts with
  | [] =>
      let! s := summary [] in
      ret (dset "probe_concurrency" (JInt 0) (dset "probe_gate" (JStr "no_accounts") s), [])
  | _ =>
      let! transport := probe_transport_http opener in
      let transport_status := str_first [dget "status" transport; JStr "transport_error"] in
      if transport_status <>s? "reachable" then
        let! s := summary (map (λ _, None) contexts) in
        ret (dset "probe_concurrency" (JInt 0) (dset "probe_gate" (JStr transport_status) s), [])
      else
        let! digests := mmap (λ c, digest_or_empty (ctx_path c)) contexts in
        let keyed := map (λ c, let auth := payload_auth (ctx_payload c) in (credential_key auth, auth)) contexts in
        let unique := unique_auths [] keyed in
        let! answers := mmap (λ ka, let! p := probe_account_quota_http opener ka.2 in ret (ka.1, p)) unique in
        let probe_of (k : string) : option dict :=
          match find (λ kp, kp.1 =s? k) answers with Some (_, p) => p | None => None end in
        let probes := map (λ ka, probe_of ka.1) keyed in
        let observations := map (λ x, Observation (path_str (ctx_path x.1.1)) x.1.2 x.2)
                              (combine (combine contexts probes) digests) in
        let! s := summary probes in
        ret (dset "unique_probe_credentials" (JInt (Z.of_nat (length unique)))
              (dset "probe_concurrency" (JInt (Z.min concurrency (Z.of_nat (length unique))))
                (dset "probe_gate" (JStr "reachable") s)),
             permanent_candidates observations)
  end.

(** ** The state *)

(** [with path.open("w")]: the file is emptied or created. *)
Definition open_write (p : path) : M unit :=
  sys ;; let! f := get_fs in
  match follow MAX_LINKS f p with
  | Some (q, File _ m) => update q (File "" m)
  | Some _ => oserror "is a directory"
  | None => if opt_is (λ _, true) (f !! p) || negb (parent_is_dir f p) then missing
            else update p (File "" 420)
  end.
Definition save_state (p : path) (summary : dict) : M unit :=
  mkdir_parents (p_parent p) 448 ;;
  chmod (p_parent p) 448 ;;
  let temporary := child (p_parent p) (p_name p +:+ ".tmp") in
  try_with
    (open_write temporary ;; write_file temporary (state_text summary) ;; fsync ;; sys ;;
     chmod temporary 384 ;; replace temporary p ;; fsync_directory (p_parent p))
    (except [OSError] (λ e, ignore_oserror (unlink temporary) ;; throw e)).

(** ** Archiving *)

Definition moved_name (moved_from : string) : string := p_name (path_of moved_from).

Definition archive_static_failures (config : dict) (state_dir : path) : M (list string) :=
  let! result := refresh_auth_accounts config (Some (child state_dir "codexx-monitor.toml")) true in
  ret (omap (λ action,
    match action with
    | JDict a => if truthy (dget "moved_from" a) then Some (moved_name (py_str (dget "moved_from" a))) else None
    | _ => None
    end) (list_or_empty (dget "actions" result))).

(** The last record of a path. *)
Definition record_at (records : list dict) (p : string) : option dict :=
  find (λ r, record_path r =s? p) (rev records).

Definition archive_candidate_step (config : dict) (records : list dict) (now : string)
    (s : list string * Z) (c : candidate) : M (list string * Z) :=
  let stale : M (list string * Z) := ret (s.1, s.2 + 1) in
  let p := path_of (ca_path c) in
  match record_at records (ca_path c) with
  | None | Some [] => stale
  | Some record =>
      let! file := is_file_p p in
      if negb file then stale else
      let! digest := try_with (let! d := auth_sha256 p in ret (Some d)) (except [OSError] (λ _, ret None)) in
      match digest with
      | None => stale
      | Some digest =>
          if (digest <>s? ca_sha256 c) || negb (mem (ca_reason c) PERMANENT_AUTH_FAILURE_REASONS) then stale
          else
            let! moved := quarantine_auth_record config record ("probe-" +:+ ca_reason c) now in
            ret (s.1 ++ [moved_name (str_first [dget "moved_from" moved; JStr (ca_path c)])], s.2)
      end
  end.
Definition archive_permanent_probe_failures (config : dict) (candidates : list candidate)
    : M (list string * Z) :=
  let! records := scan_auth_records config in
  let! now := iso_now in
  mfold (archive_candidate_step config records now) ([], 0)
    (sort_by (λ x y, str_leb (ca_path x) (ca_path y)) candidates).

(** ** Receipts *)

Definition is_hex (c : ascii) : bool := is_digit c || in_range 97 102 c.
Definition is_sha256 (s : string) : bool := Nat.eqb (String.length s) 64 && str_forall is_hex s.

Record receipt := Receipt { rc_auth_file : string; rc_sha256 : string; rc_reason : string }.

(** The checks of a receipt but its age: the receipt and the time it was observed. *)
Definition receipt_document (d : dict) : option (receipt * datetime) :=
  let observed := parse_time (dget "observedAt" d) in
  let auth_file := str_or_empty (dget "authFile" d) in
  let digest := str_or_empty (dget "authSha256" d) in
  let reason := str_or_empty (dget "reason" d) in
  if negb (eq_str (dget "schema" d) FAILURE_RECEIPT_SCHEMA) ||
     (p_name (path_of auth_file) <>s? auth_file) ||
     negb (ends_with ".json" auth_file) ||
     negb (is_sha256 digest) ||
     negb (mem reason PERMANENT_RUNTIME_FAILURES) ||
     negb (is_true (dget "permanentAuthFailure" d)) ||
     negb (is_false (dget "weeklyQuota" d)) ||
     match as_int (dget "failureCount" d) with Some n => n <? MIN_RUNTIME_FAILURE_CONFIRMATIONS | None => true end
  then None
  else match observed with Some t => Some (Receipt auth_file digest reason, t) | None => None end.

Definition failure_receipt (p : path) (us : Z) : M (option receipt) :=
  let! raw := safe_file_bytes p MAX_FAILURE_RECEIPT_BYTES in
  match raw with
  | None => ret None
  | Some raw =>
      match loads_bytes raw with
      | Ok (JDict d) =>
          match receipt_document d with
          | None => ret None
          | Some (r, observed) =>
              let! age := lift (age_us (EPOCH_US + us) observed) in
              ret (if (age <? - MAX_FAILURE_RECEIPT_FUTURE_SKEW_SECONDS * US) ||
                      (MAX_FAILURE_RECEIPT_AGE_SECONDS * US <? age) then None else Some r)
          end
      | _ => ret None
      end
  end.

(** [sorted(failure_dir.glob("*.json"))]. *)
Definition receipt_names (f : fs) (dir : path) : list string :=
  List.filter (ends_with ".json") (child_names f dir).

(** [archived, rejected, stale] *)
Record archive_counts := Counts_ { ac_archived : list string; ac_rejected : Z; ac_stale : Z }.

Definition in_auth_dir (config : dict) (name : string) (record : dict) : bool :=
  let p := path_of (record_path record) in
  (p_name p <>s? "") && (p_name p =s? name) &&
  bool_decide (p_parent p = path_of (str_or_empty (dget "auth_dir" (cliproxy config)))).

Definition receipt_step (config : dict) (scanned : list dict) (failure_dir : path) (us : Z)
    (s : nat * archive_counts) (name : string) : M (nat * archive_counts) :=
  let '(index, Counts_ archived rejected stale) := s in
  let reject : M (nat * archive_counts) := ret (S index, Counts_ archived (rejected + 1) stale) in
  let skip : M (nat * archive_counts) := ret (S index, Counts_ archived rejected (stale + 1)) in
  if Nat.leb MAX_FAILURE_RECEIPTS index then reject else
  let! receipt := failure_receipt (child failure_dir name) us in
  match receipt with
  | None => reject
  | Some r =>
      match List.filter (in_auth_dir config (rc_auth_file r)) scanned with
      | [record] =>
          let auth_path := path_of (record_path record) in
          let! digest := try_with (let! d := auth_sha256 auth_path in ret (Some d))
                           (except [OSError] (λ _, ret None)) in
          match digest with
          | Some digest =>
              if digest <>s? rc_sha256 r then skip
              else
                let! moved := quarantine_auth_record config record ("runtime-" +:+ rc_reason r)
                                (started_text us) in
                ignore_oserror (unlink (child failure_dir name)) ;;
                ret (S index, Counts_ (archived ++
                  [moved_name (str_first [dget "moved_from" moved; JStr (path_str auth_path)])]) rejected stale)
          | None => skip
          end
      | _ => skip
      end
  end.

Definition archive_runtime_failures (config : dict) (failure_dir : path) : M archive_counts :=
  let! dir := is_dir_p failure_dir in
  let! usable := (if dir then let! link := is_symlink_p failure_dir in ret (negb link) else ret false) in
  if negb usable then ret (Counts_ [] 0 0) else
  let! scanned := scan_auth_records config in
  let! us := now_us in
  sys ;; let! f := get_fs in
  let! s := mfold (receipt_step config scanned failure_dir us) (O, Counts_ [] 0 0) (receipt_names f failure_dir) in
  ret s.2.

(** ** Runs *)

Definition public_summary (summary : dict) : res json :=
  let result := List.filter (λ kv, negb (mem kv.1 ["archive_candidates"; "archived_files"])) summary in
  let archived := match dget "archived_files" summary with JList l => Z.of_nat (length l) | _ => 0 end in
  let candidates := match dget "archive_candidates" summary with JDict d => Z.of_nat (length d) | _ => 0 end in
  validate_public_document
    (JDict (dset "pending_archive_candidates" (JInt candidates) (dset "archived_count" (JInt archived) result))).

Definition monitor_lock (state_dir : path) : M unit :=
  mkdir_parents state_dir 448 ;; chmod state_dir 448 ;;
  open_append (child state_dir "monitor.lock") ;; chmod (child state_dir "monitor.lock") 384 ;; sys.
Definition sweep_lock (state_dir : path) : M bool :=
  mkdir_parents state_dir 448 ;;
  open_append (child state_dir "sweep.lock") ;; chmod (child state_dir "sweep.lock") 384 ;;
  try_with (try_lock (child state_dir "sweep.lock") ;; ret true)
    (except [BlockingIOError] (λ _, ret false)).

(** An observation of the pool by the gateway stands in for a probe. *)
Definition passive_pool_summary (config : dict) (sweep_dir : path) (warning_available_accounts : Z) : M dict :=
  let! contexts := auth_contexts config "api" in
  let! observation := load_pool_observation sweep_dir in
  let! now := iso_now in
  let! (state, checked_at) :=
    match observation with
    | Some (state, t) =>
        match astimezone_utc t with
        | Some u => ret (state, isoformat u)
        | None => lift (raise OverflowError "date value out of range")
        end
    | None => ret ("unobserved"%string, now)
    end in
  let unknown : list (option dict) := map (λ _, None) contexts in
  let probes := match unknown with
                | _ :: rest =>
                    if state =s? "available"
                    then Some [("status", JStr "ready"); ("remaining_percents", JList [])] :: rest
                    else unknown
                | [] => []
                end in
  ret (dset "sweep_triggered" (JBool false) (dset "pool_observation" (JStr state)
        (dset "probe_concurrency" (JInt 0) (dset "probe_gate" (JStr "not_triggered")
          (summarize_probes probes warning_available_accounts checked_at))))).

Record args := Args {
  arg_check : bool; arg_sweep_if_triggered : bool; arg_runtime_failures_only : bool;
  arg_auth_dir : path; arg_archive_dir : path; arg_state_dir : path; arg_failure_dir : path;
  arg_sweep_dir : path; arg_proxy_url : string; arg_warning_available_accounts : Z;
  arg_failure_confirmations : Z; arg_probe_concurrency : Z }.

Definition strings (l : list string) : json := JList (map JStr l).
Definition emit_summary (summary : dict) : M string :=
  lift (let* s := public_summary summary in emit_json false true s).

(** The counts of an archiving pass, in the order the summary takes them. *)
Definition with_archives (static runtime probe : list string) (stale_probe rejected stale : Z)
    (summary : dict) : dict :=
  dset "stale_failure_receipts" (JInt stale)
    (dset "rejected_failure_receipts" (JInt rejected)
      (dset "stale_probe_candidates" (JInt stale_probe)
        (dset "probe_failure_archived_count" (JInt (Z.of_nat (length probe)))
          (dset "runtime_failure_archived_count" (JInt (Z.of_nat (length (sorted_set runtime))))
            (dset "archived_files" (strings (sorted_set (static ++ runtime ++ probe))) summary))))).

Definition state_path_of (a : args) : path := child (arg_state_dir a) "state.json".

(** The archives made before and after the probes, and the candidates of the probes. *)
Definition archive_pass (config : dict) (a : args) (candidates : list candidate)
    (static : list string) (first : archive_counts) (summary : dict) : M dict :=
  let! later := archive_runtime_failures config (arg_failure_dir a) in
  let! (probe, stale_probe) := archive_permanent_probe_failures config candidates in
  ret (with_archives static (sorted_set (ac_archived first ++ ac_archived later)) probe stale_probe
         (Z.max (ac_rejected first) (ac_rejected later)) (Z.max (ac_stale first) (ac_stale later)) summary).

Definition triggered_sweep_run (config : dict) (a : args) : M string :=
  monitor_lock (arg_state_dir a) ;;
  let! static := archive_static_failures config (arg_state_dir a) in
  let! first := archive_runtime_failures config (arg_failure_dir a) in
  let! (trigger, trigger_status) := load_trigger (arg_sweep_dir a) in
  let passive (status : string) : M dict :=
    let! s := passive_pool_summary config (arg_sweep_dir a) (arg_warning_available_accounts a) in
    ret (dset "sweep_trigger_status" (JStr status)
           (with_archives static (ac_archived first) [] 0 (ac_rejected first) (ac_stale first) s)) in
  match trigger with
  | None =>
      let! s := passive trigger_status in
      monitor_lock (arg_state_dir a) ;; save_state (state_path_of a) s ;; emit_summary s
  | Some trigger =>
      let! acquired := sweep_lock (arg_state_dir a) in
      if negb acquired then let! s := passive "busy"%string in emit_summary s
      else
        let! (summary, candidates) :=
          probe_accounts config (arg_warning_available_accounts a) (arg_probe_concurrency a) in
        monitor_lock (arg_state_dir a) ;;
        let! s := archive_pass config a candidates static first summary in
        let! consumed :=
          (if in_strs (dget "probe_gate" s) ["reachable"; "no_accounts"]
           then consume_trigger trigger else ret false) in
        let s := dset "sweep_trigger_status" (JStr (if consumed then "consumed" else "retained"))
                   (dset "sweep_triggered" (JBool true) s) in
        save_state (state_path_of a) s ;; emit_summary s
  end.

(** The line it prints. *)
Definition run (a : args) : M string :=
  let config := cloudx_config (arg_auth_dir a) (arg_archive_dir a)
                  (arg_failure_confirmations a) (arg_proxy_url a) in
  if arg_check a then
    let! (summary, _) :=
      probe_accounts config (arg_warning_available_accounts a) (arg_probe_concurrency a) in
    emit_summary summary
  else if arg_sweep_if_triggered a then triggered_sweep_run config a
  else if arg_runtime_failures_only a then
    monitor_lock (arg_state_dir a) ;;
    let! c := archive_runtime_failures config (arg_failure_dir a) in
    lift (emit_json false true (JDict
      [("schema", JStr "cloudx.cpa-runtime-failure-maintenance.v1"); ("status", JStr "accepted");
       ("archived_count", JInt (Z.of_nat (length (ac_archived c))));
       ("rejected_failure_receipts", JInt (ac_rejected c));
       ("stale_failure_receipts", JInt (ac_stale c)); ("network_probes", JInt 0)]))
  else
    monitor_lock (arg_state_dir a) ;;
    let! static := archive_static_failures config (arg_state_dir a) in
    let! first := archive_runtime_failures config (arg_failure_dir a) in
    let! (summary, candidates) :=
      probe_accounts config (arg_warning_available_accounts a) (arg_probe_concurrency a) in
    monitor_lock (arg_state_dir a) ;;
    let! s := archive_pass config a candidates static first summary in
    save_state (state_path_of a) s ;; emit_summary s.

Definition restore_run (selector confirm : string) (auth_dir archive_dir : path) : M string :=
  if confirm <>s? selector then mraise CpaHealthUnavailable "CPA restore confirmation does not match"
  else
    let! _ := restore_quarantined_auth (cloudx_config auth_dir archive_dir 1 "") selector in
    lift (emit_json false true (JDict
      [("schema", JStr "cloudx.cpa-quarantine-restore.v1"); ("status", JStr "restored");
       ("restored_count", JInt 1)])).

End monitor.
