(* ===== verification/CpaHealthFacts.v ===== *)
(** * What the health monitor reports and archives

    The counts of a summary add up and decide its state; a candidate is a file all of
    whose records failed for good under one digest; a check writes nothing; and only a
    file that still has the digest of a candidate or of a receipt is archived. *)

From S2P Require Import Prelude PyStr PyFloat PyValue PyRe PyTime PyJson FS PublicMetadata PyBase64.
From S2P Require Import PySha AgentIdentity Wp FileData CpaRecords CpaAuth QuarantineSafety.
From S2P Require Import CpaSweep CpaQuota CpaHealth.

Implicit Types (E : env) (f g h : fs) (k : nat) (w : world).

(** ** The summary *)

Definition int_at (key : string) (d : dict) (z : Z) : Prop := dget key d = JInt z.

Lemma count_status_bound probes :
  0 <= count_status "ready" probes ∧ 0 <= count_status "warning" probes ∧
  0 <= count_status "limited" probes ∧ 0 <= count_status "invalid" probes ∧
  count_status "ready" probes + count_status "warning" probes + count_status "limited" probes +
    count_status "invalid" probes <= Z.of_nat (length probes).
Proof.
  split_and!; try apply Nat2Z.is_nonneg. unfold count_status.
  induction probes as [|x l IH]; simpl; [lia|].
  set (s := probe_status x).
  destruct (eqs_spec s "ready") as [->|]; [simpl; lia|].
  destruct (eqs_spec s "warning") as [->|]; [simpl; lia|].
  destruct (eqs_spec s "limited") as [->|]; [simpl; lia|].
  destruct (eqs_spec s "invalid") as [->|]; simpl; lia.
Qed.

(** The summary of a round of probes: available is ready plus warning, the total is
    available plus limited plus failed, the invalid ones are among the failed; the state
    is probe_error exactly when no probe was available or limited, exhausted when some
    were limited and none available, low_capacity when at most the threshold (and at
    least one) were available, healthy exactly when more were. *)
Theorem summary_accounts probes threshold checked_at :
  let d := summarize_probes probes threshold checked_at in
  ∃ total available ready warning limited invalid failed,
    int_at "total" d total ∧ int_at "available" d available ∧ int_at "ready" d ready ∧
    int_at "warning" d warning ∧ int_at "limited" d limited ∧ int_at "invalid" d invalid ∧
    int_at "failed" d failed ∧
    total = Z.of_nat (length probes) ∧ available = ready + warning ∧
    total = available + limited + failed ∧
    0 <= ready ∧ 0 <= warning ∧ 0 <= limited ∧ 0 <= invalid <= failed ∧
    (dget "state" d = JStr "probe_error" ↔ available = 0 ∧ limited = 0) ∧
    (dget "state" d = JStr "exhausted" ↔ available = 0 ∧ 0 < limited) ∧
    (dget "state" d = JStr "low_capacity" ↔ 0 < available <= Z.max 1 threshold) ∧
    (dget "state" d = JStr "healthy" ↔ Z.max 1 threshold < available).
Proof.
  cbv zeta. destruct (count_status_bound probes) as (H1 & H2 & H3 & H4 & H5).
  do 7 eexists. do 7 (split; [reflexivity|]). split; [done|]. split; [done|]. split; [lia|].
  do 3 (split; [lia|]). split; [lia|].
  change (dget "state" (summarize_probes probes threshold checked_at)) with
    (JStr (pool_state (Z.of_nat (length probes))
      (count_status "ready" probes + count_status "warning" probes) (count_status "limited" probes)
      (Z.of_nat (length probes) - (count_status "ready" probes + count_status "warning" probes) -
       count_status "limited" probes) (Z.max 1 threshold))).
  generalize dependent (count_status "ready" probes). generalize dependent (count_status "warning" probes).
  generalize dependent (count_status "limited" probes). generalize dependent (count_status "invalid" probes).
  generalize (Z.of_nat (length probes)). intros n i Hi l Hl wa Hw rd Hr Hs. unfold pool_state.
  assert (HS : ∀ a b, JStr a = JStr b ↔ a = b) by (intros; split; congruence). rewrite !HS.
  destruct (Z.eqb_spec n 0); destruct (Z.eqb_spec (n - (rd + wa) - l) n); simpl;
    try (split_and!; split; intros; try done; lia).
  destruct (Z.eqb_spec (rd + wa) 0); destruct (Z.ltb_spec 0 l); simpl;
    try (split_and!; split; intros; try done; lia);
    destruct (Z.leb_spec (rd + wa) (Z.max 1 threshold)); split_and!; split; intros; try done; lia.
Qed.

(** ** Candidates *)

Lemma permanent_reason_spec item reason :
  permanent_reason item = Some reason ↔
  ∃ d, item = Some d ∧ dget "permanent_auth_failure" d = JBool true ∧
    dget "weekly_quota" d = JBool false ∧ reason = str_or_empty (dget "failure_reason" d) ∧
    In reason PERMANENT_AUTH_FAILURE_REASONS.
Proof.
  unfold permanent_reason. destruct item as [d|]; [|naive_solver].
  assert (Ht : ∀ v, is_true v = true ↔ v = JBool true) by (intros [|[]| | | | |]; simpl; split; congruence).
  assert (Hf : ∀ v, is_false v = true ↔ v = JBool false) by (intros [|[]| | | | |]; simpl; split; congruence).
  destruct (is_true _ && is_false _) eqn:E.
  - apply andb_true_iff in E as [E1%Ht E2%Hf].
    destruct (mem _ _) eqn:Hm.
    + apply mem_spec in Hm. naive_solver.
    + apply mem_false in Hm. naive_solver.
  - split; [done|]. intros (d' & [= <-] & H1%Ht & H2%Hf & _). by rewrite H1, H2 in E.
Qed.

Lemma omap_cons_eq {A B} (c : A → option B) a l :
  omap c (a :: l) = match c a with Some y => y :: omap c l | None => omap c l end.
Proof. done. Qed.
Lemma omap_length {A B} (c : A → option B) l : (length (omap c l) <= length l)%nat.
Proof. induction l as [|a l IH]; [done|]. rewrite omap_cons_eq. destruct (c a); simpl; lia. Qed.
Lemma omap_length_all {A B} (c : A → option B) l :
  length (omap c l) = length l → ∀ x, In x l → ∃ y, c x = Some y.
Proof.
  induction l as [|a l IH]; [done|]. rewrite omap_cons_eq. intros H x Hx.
  pose proof (omap_length c l). destruct (c a) as [y|] eqn:E; simpl in H; [|lia].
  destruct Hx as [<-|Hx]; [by eexists|]. apply IH; [lia|done].
Qed.
Lemma omap_In {A B} (c : A → option B) l y : In y (omap c l) ↔ ∃ x, In x l ∧ c x = Some y.
Proof. rewrite <- !list_elem_of_In, list_elem_of_omap. setoid_rewrite list_elem_of_In. done. Qed.

Lemma sorted_set_hd l x : In x l → In (List.hd ""%string (sorted_set l)) l.
Proof.
  intros Hx. apply sorted_set_In in Hx. destruct (sorted_set l) as [|y r] eqn:E; [done|].
  simpl. apply sorted_set_In. rewrite E. by left.
Qed.

Lemma candidate_of_spec observations p c :
  candidate_of observations p = Some c →
  ca_path c = p ∧ p ≠ "" ∧ ca_sha256 c ≠ "" ∧ In (ca_reason c) PERMANENT_AUTH_FAILURE_REASONS ∧
  (∃ o, In o observations ∧ ob_path o = p) ∧
  ∀ o, In o observations → ob_path o = p →
    ob_digest o = ca_sha256 c ∧ ∃ reason, permanent_reason (ob_probe o) = Some reason.
Proof.
  unfold candidate_of. set (mine := List.filter _ observations).
  assert (Hmine : ∀ o, In o mine ↔ In o observations ∧ ob_path o = p).
  { intros o. unfold mine. rewrite filter_In, String.eqb_eq. done. }
  set (reasons := omap _ mine). intros H.
  destruct (sorted_set (map ob_digest mine)) as [|digest [|]] eqn:Hd; try done.
  destruct (eqs_spec p ""); [done|]. destruct (Nat.eqb_spec (length reasons) (length mine)) as [Hl|]; [|done].
  destruct (eqs_spec digest ""); [done|]. injection H as <-. simpl.
  assert (Hall : ∀ o, In o mine → ob_digest o = digest).
  { intros o Ho. assert (Hin : In (ob_digest o) (sorted_set (map ob_digest mine))).
    { apply sorted_set_In, in_map, Ho. }
    rewrite Hd in Hin. by destruct Hin as [<-|[]]. }
  assert (Hex : ∃ o, In o mine).
  { assert (Hin : In digest (map ob_digest mine)) by (apply sorted_set_In; rewrite Hd; by left).
    apply in_map_iff in Hin as (o & _ & Ho). by exists o. }
  pose proof (omap_length_all _ _ Hl) as Hr.
  destruct Hex as [o Ho]. destruct (Hr o Ho) as [reason Hre]. split_and!; try done.
  - assert (Hin : In reason reasons) by (apply omap_In; by exists o).
    apply sorted_set_hd in Hin. apply omap_In in Hin as (x & _ & Hx).
    apply permanent_reason_spec in Hx as (? & ? & ? & ? & ? & Hx). exact Hx.
  - exists o. by apply Hmine.
  - intros o' Ho' Hp. assert (In o' mine) by (by apply Hmine). split; [by apply Hall|by apply Hr].
Qed.

(** The files that the probes propose to archive: each has a path, was read as one
    digest by all of its records, and every record of it was probed and failed for good
    with weekly quota excluded; the reason is a permanent one, and no file is proposed
    twice. *)
Theorem permanent_candidates_sound observations :
  List.NoDup (map ca_path (permanent_candidates observations)) ∧
  ∀ c, In c (permanent_candidates observations) →
    ca_path c ≠ "" ∧ ca_sha256 c ≠ "" ∧ In (ca_reason c) PERMANENT_AUTH_FAILURE_REASONS ∧
    (∃ o, In o observations ∧ ob_path o = ca_path c) ∧
    ∀ o, In o observations → ob_path o = ca_path c →
      ob_digest o = ca_sha256 c ∧ ∃ d, ob_probe o = Some d ∧
        dget "permanent_auth_failure" d = JBool true ∧ dget "weekly_quota" d = JBool false.
Proof.
  unfold permanent_candidates. set (paths := sorted_set (map ob_path observations)). split.
  - assert (Hnd : List.NoDup paths).
    { eapply Permutation_NoDup; [symmetry; apply sort_by_perm|apply dedup_NoDup]. }
    induction Hnd as [|p l Hp Hl IH]; [constructor|].
    rewrite omap_cons_eq.
    destruct (candidate_of observations p) as [c|] eqn:E; [|done]. simpl. constructor; [|done].
    apply candidate_of_spec in E as [-> _]. intros (c' & Hc & Hin)%in_map_iff.
    apply omap_In in Hin as (p' & Hin & H'). apply candidate_of_spec in H' as [Hp' _]. congruence.
  - intros c (p & _ & H)%omap_In. apply candidate_of_spec in H as (<- & H1 & H2 & H3 & H4 & H5).
    split_and!; try done. intros o Ho Hp. destruct (H5 o Ho Hp) as [Hd [reason Hr]]. split; [done|].
    apply permanent_reason_spec in Hr as (d & ? & ? & ? & _). by exists d.
Qed.

(** ** Reading leaves the files alone *)

Lemma fs_pure_ensure p : fs_pure (ensure_real_directory p false).
Proof. unfold ensure_real_directory, rejected_auth, mraise. fs_pure_tac. Qed.
#[local] Hint Resolve fs_pure_ensure : cloudx.
Lemma fs_pure_walk fuel dir : fs_pure (walk_json fuel dir).
Proof.
  revert dir. induction fuel as [|fuel IH]; intros dir; [done|]. cbn [walk_json].
  apply fs_pure_bind; [fs_pure_tac|]. intros names. apply fs_pure_bind; [done|]. intros f.
  apply fs_pure_bind; [apply fs_pure_mmap; intros n; fs_pure_tac|]. intros safe.
  apply fs_pure_bind; [by apply fs_pure_mmap|done].
Qed.
#[local] Hint Resolve fs_pure_walk : cloudx.
Lemma fs_pure_iter root : fs_pure (iter_json_files root).
Proof. unfold iter_json_files, rejected_auth, mraise. fs_pure_tac. Qed.
Lemma fs_pure_read_auth p : fs_pure (read_auth_json p).
Proof. unfold read_auth_json, unreadable. fs_pure_tac. Qed.
#[local] Hint Resolve fs_pure_iter fs_pure_read_auth : cloudx.
Lemma fs_pure_scan config : fs_pure (scan_auth_records config).
Proof. unfold scan_auth_records. fs_pure_tac. apply fs_pure_mmap. intros p. fs_pure_tac. Qed.
Lemma fs_pure_contexts config account : fs_pure (auth_contexts config account).
Proof. unfold auth_contexts. fs_pure_tac. apply fs_pure_mmap. intros p. fs_pure_tac. Qed.
#[local] Hint Resolve fs_pure_scan fs_pure_contexts : cloudx.
Lemma fs_pure_sha p : fs_pure (auth_sha256 p).
Proof. unfold auth_sha256, oserror, mraise. fs_pure_tac. Qed.
#[local] Hint Resolve fs_pure_sha : cloudx.
Lemma fs_pure_iso_now : fs_pure iso_now.
Proof. unfold iso_now. fs_pure_tac. Qed.
#[local] Hint Resolve fs_pure_iso_now : cloudx.
Lemma fs_pure_receipt p us : fs_pure (failure_receipt p us).
Proof. unfold failure_receipt. fs_pure_tac. Qed.

Section check.
Context (opener : string → list (string * string) → M reply).
Context (Hopener : ∀ endpoint headers, fs_pure (opener endpoint headers)).

Lemma fs_pure_until window keys : fs_pure (offset_until window keys).
Proof. induction keys; simpl; fs_pure_tac. Qed.
#[local] Hint Resolve fs_pure_until : cloudx.
Lemma fs_pure_unavailable window : fs_pure (unavailable_until window).
Proof. unfold unavailable_until. fs_pure_tac. Qed.
#[local] Hint Resolve fs_pure_unavailable : cloudx.
Lemma fs_pure_success payload us endpoint : fs_pure (build_probe_success payload us endpoint).
Proof.
  unfold build_probe_success, first_until. cbv zeta. fs_pure_tac.
Qed.
#[local] Hint Resolve fs_pure_success : cloudx.
Lemma fs_pure_probe_account auth : fs_pure (probe_account_quota_http opener auth).
Proof using Hopener.
  unfold probe_account_quota_http. fs_pure_tac. generalize (endpoint_candidates auth). intros l.
  induction l as [|ep l IH]; simpl; [done|]. apply fs_pure_bind; [apply Hopener|]. intros r.
  apply fs_pure_bind; [unfold settle; fs_pure_tac|]. intros [d|]; done.
Qed.
Lemma fs_pure_transport : fs_pure (probe_transport_http opener).
Proof using Hopener. unfold probe_transport_http. apply fs_pure_bind; [apply Hopener|done]. Qed.

Lemma fs_pure_probe_accounts config threshold concurrency :
  fs_pure (probe_accounts opener config threshold concurrency).
Proof using Hopener.
  unfold probe_accounts. apply fs_pure_bind; [fs_pure_tac|]. intros contexts.
  assert (Hs : ∀ {A} probes (c : dict → M A), (∀ s, fs_pure (c s)) →
    fs_pure (let! s := (let! now := iso_now in ret (summarize_probes probes threshold now)) in c s)).
  { intros A probes c Hc. apply fs_pure_bind; [fs_pure_tac|done]. }
  destruct contexts as [|c l]; [by apply Hs|].
  apply fs_pure_bind; [apply fs_pure_transport|]. intros t.
  destruct (_ <>s? _); [by apply Hs|].
  apply fs_pure_bind; [apply fs_pure_mmap; intros x; unfold digest_or_empty; fs_pure_tac|]. intros digests.
  apply fs_pure_bind; [apply fs_pure_mmap; intros x; apply fs_pure_bind; [apply fs_pure_probe_account|done]|].
  intros answers. by apply Hs.
Qed.

(** The check mode only looks: under every pattern of failing calls it leaves every
    file, directory and mode as it was. *)
Theorem check_reads_only (a : args) E w (Hcheck : arg_check a = true) :
  w_fs (run opener a E w).2 = w_fs w.
Proof.
  assert (H : fs_pure (run opener a)); [|apply H]. unfold run. rewrite Hcheck.
  apply fs_pure_bind; [apply fs_pure_probe_accounts|]. intros [s c]. done.
Qed.

End check.

Definition no_reply (endpoint : string) (headers : list (string * string)) : M reply := ret NoReply.
Definition check_args : args :=
  Args true false false (path_of "/auth") (path_of "/archive") (path_of "/state") (path_of "/failures")
    (path_of "/sweeps") "" 3 3 32.
Lemma check_reads_only_witness :
  arg_check check_args = true ∧
  w_fs (run no_reply check_args (faulty 100) (World sample_fs 0)).2 = sample_fs.
Proof.
  assert (H : arg_check check_args = true) by done. split; [exact H|].
  apply (check_reads_only no_reply (λ _ _, fs_pure_ret _) check_args (faulty 100) (World sample_fs 0) H).
Defined.

(** ** Archiving *)

(** The digest is that of the file. *)
Lemma wp_digest p E f k (Φ : res (option string) → world → Prop) :
  (∀ d k, data_at f p = Some d → Φ (Ok (Some (sha256 d))) (World f k)) →
  (∀ k, Φ (Ok None) (World f k)) → (∀ e k, Φ (Raise e) (World f k)) →
  wp (try_with (let! d := auth_sha256 p in ret (Some d)) (except [OSError] (λ _, ret None)))
    E (World f k) Φ.
Proof.
  intros Ho Hn Hr. apply wp_try, wp_bind, wp_bind, wp_safe_file.
  - intros d k1 Hd. apply wp_ret, wp_ret. by apply Ho.
  - intros k1. apply wp_throw. unfold except. simpl. by apply wp_ret.
  - intros e k1. unfold except. destruct (existsb _ _); [by apply wp_ret|by apply Hr].
Qed.

(** From [g] to [h] a file other than the manifest and the files of [gone] stays, or it
    was permitted to go and its bytes are in the archive. *)
Definition archived_only (archive : path) (gone : path → Prop) (may : path → string → Prop) (g h : fs) : Prop :=
  ∀ p d, p ≠ child archive MANIFEST_NAME → ¬ gone p → data_at g p = Some d →
    data_at h p = Some d ∨
    (may p d ∧ ∃ n, n ≠ MANIFEST_NAME ∧ data_at h (child archive n) = Some d).

Section archived.
Context (archive : path) (gone : path → Prop) (may : path → string → Prop).
Context (Hgone : ∀ n, ¬ gone (child archive n)).

Lemma archived_refl g : archived_only archive gone may g g.
Proof. intros p d _ _ H. by left. Qed.
Lemma archived_delete g p : gone p → archived_only archive gone may g (delete p g).
Proof.
  intros Hp q d _ Hq Hd. left. rewrite data_at_delete_ne; [done|]. by intros ->.
Qed.
Lemma archived_trans f g h :
  archived_only archive gone may f g → archived_only archive gone may g h → archived_only archive gone may f h.
Proof using Hgone.
  intros H1 H2 p d Hp Hq Hd. destruct (H1 p d Hp Hq Hd) as [Hg|(Hm & n & Hn & Hg)].
  - by apply H2.
  - right. split; [done|].
    destruct (H2 (child archive n) d) as [Hh|(_ & n' & Hn' & Hh)]; [|by apply Hgone|done|by eauto|by eauto].
    intros E. unfold child in E. injection E as E. apply app_inv_head in E. by injection E.
Qed.

Lemma wp_quarantine_archived config record reason moved_at E g k d
    (Φ : res dict → world → Prop) :
  configured_archive_dir config = Ok archive →
  path_of (record_path record) ≠ child archive MANIFEST_NAME →
  data_at g (path_of (record_path record)) = Some d → may (path_of (record_path record)) d →
  (∀ r h k, archived_only archive gone may g h → Φ r (World h k)) →
  wp (quarantine_auth_record config record reason moved_at) E (World g k) Φ.
Proof.
  intros Ha Hne Hd Hm HΦ. eapply wp_mono; [by apply (wp_quarantine config record reason moved_at archive)|].
  intros r [h k1] [Ho Hc _ _]. apply HΦ. intros p x Hp _ Hx. simpl in *.
  destruct (decide (p = path_of (record_path record))) as [->|Hps].
  - rewrite Hd in Hx. injection Hx as <-. destruct (Hc d Hd) as [Hs|(n & Hn & _ & Ht)]; [by left|].
    right. split; [done|]. by exists n.
  - left. apply Ho; [|done]. by intros [->| ->].
Qed.

(** The steps of a fold each move what they may. *)
Lemma wp_mfold_archived {A S} (step : S → A → M S) l s E g k (Φ : res S → world → Prop) :
  (∀ s a g k, In a l → wp (step s a) E (World g k) (λ r w', archived_only archive gone may g (w_fs w'))) →
  (∀ r h k, archived_only archive gone may g h → Φ r (World h k)) →
  wp (mfold step s l) E (World g k) Φ.
Proof using Hgone.
  intros Hstep HΦ. revert s g k HΦ. induction l as [|a l IH]; intros s g k HΦ; simpl.
  - apply wp_ret, HΦ, archived_refl.
  - apply wp_bind. eapply wp_mono; [apply Hstep; by left|].
    intros [s'|e] [h k1] H; simpl in H; [|by apply HΦ].
    apply IH; [intros; apply Hstep; by right|]. intros r h' k2 H'. apply HΦ.
    by eapply archived_trans.
Qed.
End archived.

(** The file of a candidate, still with the digest the probe saw. *)
Definition condemned (candidates : list candidate) (p : path) (d : string) : Prop :=
  ∃ c, In c candidates ∧ p = path_of (ca_path c) ∧ sha256 d = ca_sha256 c ∧
       In (ca_reason c) PERMANENT_AUTH_FAILURE_REASONS.

Lemma record_at_path records p r : record_at records p = Some r → record_path r = p.
Proof. unfold record_at. intros [_ H]%find_some. by apply String.eqb_eq in H. Qed.

Lemma wp_candidate_step config records now archive candidates s c E g k :
  configured_archive_dir config = Ok archive → In c candidates →
  path_of (ca_path c) ≠ child archive MANIFEST_NAME →
  wp (archive_candidate_step config records now s c) E (World g k)
    (λ r w', archived_only archive none (condemned candidates) g (w_fs w')).
Proof.
  intros Ha Hc Hne. unfold archive_candidate_step.
  assert (Hsame : archived_only archive none (condemned candidates) g g) by apply archived_refl.
  destruct (record_at records (ca_path c)) as [record|] eqn:Hrec; [|by apply wp_ret].
  apply record_at_path in Hrec. destruct record as [|kv record]; [by apply wp_ret|].
  set (rec := kv :: record) in *.
  apply wp_bind, wp_pure; [apply fs_pure_is_file|]. intros [file|e] k1; [|done].
  destruct (negb file); [by apply wp_ret|].
  apply wp_bind, wp_digest; [|by intros; apply wp_ret|done].
  intros d k2 Hd. cbv iota.
  destruct (eqs_spec (sha256 d) (ca_sha256 c)) as [Hs|]; [|by apply wp_ret].
  destruct (mem (ca_reason c) PERMANENT_AUTH_FAILURE_REASONS) eqn:Hm; [|by apply wp_ret].
  apply mem_spec in Hm. cbn [negb orb].
  apply wp_bind. rewrite <- Hrec in Hd, Hne.
  apply (wp_quarantine_archived archive none (condemned candidates) config rec _ _ _ _ _ d); try done.
  - exists c. split_and!; try done. by rewrite Hrec.
  - intros [m|e] h k3 Hh; [by apply wp_ret|done].
Qed.

(** C22: archive_permanent_probe_failures, under every pattern of failing calls: a file is
    archived only if it is that of a candidate and its bytes, read again, still have the
    digest of the probe; its bytes are then in the archive.  Every other file but the
    manifest keeps its bytes. *)
Theorem probe_archive_safe config candidates archive E w
    (Harchive : configured_archive_dir config = Ok archive)
    (Hpaths : ∀ c, In c candidates → path_of (ca_path c) ≠ child archive MANIFEST_NAME) :
  archived_only archive none (condemned candidates) (w_fs w)
    (w_fs (archive_permanent_probe_failures config candidates E w).2).
Proof.
  destruct w as [f k].
  assert (H : wp (archive_permanent_probe_failures config candidates) E (World f k)
    (λ r w', archived_only archive none (condemned candidates) f (w_fs w'))); [|exact H].
  unfold archive_permanent_probe_failures.
  apply wp_bind, wp_pure; [apply fs_pure_scan|]. intros [records|e] k1; [|apply archived_refl].
  apply wp_bind, wp_pure; [apply fs_pure_iso_now|]. intros [now|e] k2; [|apply archived_refl].
  apply (wp_mfold_archived archive none (condemned candidates)); [by intros n []| |done].
  intros s c g k3 Hc%sort_by_In. apply wp_candidate_step; auto.
Qed.

Definition sample_candidates : list candidate :=
  [Candidate "/auth/a.json" (sha256 "{}") "account_deactivated"].
Lemma probe_archive_safe_witness :
  configured_archive_dir sample_config = Ok (path_of "/archive") ∧
  archived_only (path_of "/archive") none (condemned sample_candidates) sample_fs
    (w_fs (archive_permanent_probe_failures sample_config sample_candidates (faulty 100) (World sample_fs 0)).2).
Proof.
  assert (Ha : configured_archive_dir sample_config = Ok (path_of "/archive")) by (by vm_compute).
  split; [exact Ha|].
  apply (probe_archive_safe sample_config sample_candidates (path_of "/archive") (faulty 100)
           (World sample_fs 0) Ha).
  intros c [<-|[]]. by vm_compute.
Defined.

(** The file of a credential that a receipt of the gateway names, with its digest. *)
Definition reported (config : dict) (p : path) (d : string) : Prop :=
  p_parent p = path_of (str_or_empty (dget "auth_dir" (cliproxy config))) ∧
  ∃ doc r t, receipt_document doc = Some (r, t) ∧ p_name p = rc_auth_file r ∧ sha256 d = rc_sha256 r.

(** What a receipt must say. *)
Lemma receipt_document_spec doc r t :
  receipt_document doc = Some (r, t) →
  is_sha256 (rc_sha256 r) = true ∧ In (rc_reason r) PERMANENT_RUNTIME_FAILURES ∧
  dget "permanentAuthFailure" doc = JBool true ∧ dget "weeklyQuota" doc = JBool false ∧
  ∃ n, dget "failureCount" doc = JInt n ∧ MIN_RUNTIME_FAILURE_CONFIRMATIONS <= n.
Proof.
  unfold receipt_document. intros H.
  match type of H with (if ?b then _ else _) = _ => destruct b eqn:Hb; [done|] end.
  destruct (parse_time _) as [t'|]; [|done]. injection H as <- <-. simpl.
  rewrite !orb_false_iff in Hb. destruct Hb as [[[[[[[_ _] _] Hsha] Hre] Hp] Hw] Hn].
  apply negb_false_iff in Hsha, Hre, Hp, Hw. apply mem_spec in Hre. split_and!; try done.
  - destruct (dget "permanentAuthFailure" doc) as [|[]| | | | |]; done.
  - destruct (dget "weeklyQuota" doc) as [|[]| | | | |]; done.
  - destruct (as_int _) as [n|] eqn:Hi; [|done]. apply as_int_spec in Hi. exists n. split; [done|].
    by apply Z.ltb_ge in Hn.
Qed.

Lemma wp_receipt p us E f k (Φ : res (option receipt) → world → Prop) :
  (∀ doc r t k, receipt_document doc = Some (r, t) → Φ (Ok (Some r)) (World f k)) →
  (∀ k, Φ (Ok None) (World f k)) → (∀ e k, Φ (Raise e) (World f k)) →
  wp (failure_receipt p us) E (World f k) Φ.
Proof.
  intros Ho Hn Hr. unfold failure_receipt. apply wp_bind, wp_safe_file; [|by intros; apply wp_ret|done].
  intros raw k1 _. destruct (loads_bytes raw) as [[| | | | | |doc]|]; try by apply wp_ret.
  destruct (receipt_document doc) as [[r t]|] eqn:Hd; [|by apply wp_ret].
  apply wp_bind, wp_lift. destruct (age_us _ t) as [age|e]; [|by apply Hr].
  apply wp_ret. destruct (_ || _); [by apply Hn|by eapply Ho].
Qed.

Section receipts.
Context (config : dict) (archive failure_dir : path).
Context (Harchive : configured_archive_dir config = Ok archive)
  (Hauth : path_of (str_or_empty (dget "auth_dir" (cliproxy config))) ≠ archive)
  (Hfailure : failure_dir ≠ archive).

(** The receipts themselves are removed. *)
Definition is_receipt (p : path) : Prop := p_parent p = failure_dir.

Lemma child_parent dir n : p_parent (child dir n) = dir.
Proof. unfold p_parent, child. simpl. rewrite List.removelast_last. by destruct dir. Qed.

Lemma wp_receipt_step scanned us s name E g k :
  wp (receipt_step config scanned failure_dir us s name) E (World g k)
    (λ r w', archived_only archive is_receipt (reported config) g (w_fs w')).
Proof using Harchive Hauth Hfailure.
  assert (Hsame : archived_only archive is_receipt (reported config) g g) by apply archived_refl.
  assert (Hg : ∀ n, ¬ is_receipt (child archive n)).
  { intros n. unfold is_receipt. rewrite child_parent. by intros ->. }
  unfold receipt_step. destruct s as [index [archived rejected stale]].
  destruct (Nat.leb _ _); [by apply wp_ret|].
  apply wp_bind, wp_receipt; [|by intros; apply wp_ret|done].
  intros doc r t k1 Hdoc.
  destruct (List.filter (in_auth_dir config (rc_auth_file r)) scanned) as [|record [|]] eqn:Hf;
    [by apply wp_ret| |by apply wp_ret].
  assert (Hin : in_auth_dir config (rc_auth_file r) record = true).
  { assert (In record (List.filter (in_auth_dir config (rc_auth_file r)) scanned)) as H by (rewrite Hf; by left).
    by apply filter_In in H as [_ H]. }
  unfold in_auth_dir in Hin. apply andb_true_iff in Hin as [Hin Hpar%bool_decide_eq_true].
  apply andb_true_iff in Hin as [_ Hname%String.eqb_eq].
  apply wp_bind, wp_digest; [|by intros; apply wp_ret|done].
  intros d k2 Hd. cbv iota. destruct (eqs_spec (sha256 d) (rc_sha256 r)) as [Hs|]; [|by apply wp_ret].
  cbn [negb]. apply wp_bind.
  apply (wp_quarantine_archived archive is_receipt (reported config) config record _ _ _ _ _ d); try done.
  - intros E'. rewrite E', child_parent in Hpar. by apply Hauth.
  - split; [done|]. by exists doc, r, t.
  - intros [m|e] h k3 Hh; [|done]. apply wp_bind.
    assert (Hdel : archived_only archive is_receipt (reported config) g (delete (child failure_dir name) h)).
    { eapply archived_trans; [done|done|]. apply archived_delete. apply child_parent. }
    apply wp_unlink_quiet; intros k4; by apply wp_ret.
Qed.


End receipts.

