(* ===== verification/LocalSweep.v ===== *)
(** * Local sweep triggers ([local/cloudx_local/local_cpa_sweep.py])

    The desktop's copy of the trigger protocol: the same document and window of time as
    [CpaSweep], written as one function.  The theorem at the end shows that the two
    implementations agree call by call. *)

From S2P Require Import Prelude PyStr PyFloat PyValue PyTime PyJson PySha FS CpaSweep.

Definition SCHEMA : string := "cloudx.cpa-sweep-trigger.v1".
Definition LOCAL_TRIGGER_NAME : string := "trigger.json".
Definition MAX_BYTES : Z := 16 * 1024.
Definition MAX_AGE_SECONDS : Z := 30 * 60.
Definition LOCAL_FUTURE_SKEW_SECONDS : Z := 5 * 60.

Record trigger := Trigger { tr_path : path; tr_digest : string }.

(** [_bytes]: an [OSError] after the file is open is an unreadable file too. *)
Definition trigger_bytes (p : path) : M (option string) :=
  let! descriptor := try_with (let! n := open_nofollow p in ret (Some n))
                       (except [OSError] (λ _, ret None)) in
  match descriptor with
  | None => ret None
  | Some n =>
      try_with
        (let! info := fstat n in
         if negb (is_reg info) || (MAX_BYTES <? node_size info) then ret None
         else let! data := read_node n in
              let raw := str_take_z (MAX_BYTES + 1) data in
              ret (if str_len raw <=? MAX_BYTES then Some raw else None))
        (except [OSError] (λ _, ret None))
  end.

Definition trigger_time (value : json) : option datetime :=
  match value with
  | JStr s =>
      if strip s =s? "" then None
      else let? parsed := fromisoformat (z_suffix (strip s)) in
           if dt_off parsed then Some parsed else None
  | _ => None
  end.

Definition current_us (now : option Z) : M Z :=
  match now with Some us => ret us | None => now_us end.

Definition load (sweep_dir : path) (now : option Z) : M (option trigger * string) :=
  let p := (sweep_dir.1, sweep_dir.2 ++ [LOCAL_TRIGGER_NAME]) in
  let! present := exists_p p in
  if negb present then ret (None, "absent"%string) else
  let! raw := trigger_bytes p in
  match raw with
  | None => ret (None, "rejected"%string)
  | Some raw =>
      match loads_bytes raw with
      | Ok (JDict d) =>
          if negb (keys_are d ["schema"; "reason"; "observedAt"]) ||
             negb (eq_str (dget "schema" d) SCHEMA) ||
             negb (eq_str (dget "reason" d) "auth_unavailable")
          then ret (None, "rejected"%string)
          else match trigger_time (dget "observedAt" d) with
               | None => ret (None, "rejected"%string)
               | Some observed =>
                   let! current := current_us now in
                   let! age := lift (age_us (EPOCH_US + current) observed) in
                   if (age <? - LOCAL_FUTURE_SKEW_SECONDS * US) || (MAX_AGE_SECONDS * US <? age)
                   then ret (None, "stale"%string)
                   else ret (Some (Trigger p (sha256 raw)), "accepted"%string)
               end
      | _ => ret (None, "rejected"%string)
      end
  end.

Definition consume (t : trigger) : M bool :=
  let! raw := trigger_bytes (tr_path t) in
  match raw with
  | None => ret false
  | Some raw =>
      if sha256 raw <>s? tr_digest t then ret false
      else try_with (unlink (tr_path t) ;; fsync_directory (p_parent (tr_path t)) ;; ret true)
             (except [OSError] (λ _, ret false))
  end.

(** ** Agreement with the cloud's implementation *)

(** The local trigger forgets the time of observation. *)
Definition forget (t : sweep_trigger) : trigger := Trigger (st_path t) (st_digest t).

Definition mapM {A B} (f : A → B) (m : M A) : M B := let! x := m in ret (f x).

Lemma trigger_bytes_agrees p : trigger_bytes p = safe_bytes p.
Proof. reflexivity. Qed.

Lemma trigger_time_agrees v : trigger_time v = sweep_time v.
Proof. by destruct v. Qed.

Lemma trigger_document_agrees d :
  negb (keys_are d ["schema"; "reason"; "observedAt"]) || negb (eq_str (dget "schema" d) SCHEMA) ||
  negb (eq_str (dget "reason" d) "auth_unavailable") = negb (trigger_document d).
Proof. unfold trigger_document. by rewrite !negb_andb. Qed.

Lemma load_agrees dir E w :
  load dir None E w = mapM (λ '(t, status), (option_map forget t, status)) (load_trigger dir) E w.
Proof.
  unfold load, load_trigger, mapM, document, bind.
  destruct (exists_p _ E w) as [[[]|e] w1]; cbn [negb]; try done.
  rewrite trigger_bytes_agrees.
  destruct (safe_bytes _ E w1) as [[[raw|]|e] w2]; cbn -[trigger_document sweep_time]; try done.
  destruct (loads_bytes raw) as [[| | | | | |d]|]; try done.
  rewrite trigger_document_agrees, trigger_time_agrees.
  destruct (trigger_document d); cbn [negb]; cbv beta iota; [|done].
  destruct (sweep_time _) as [observed|]; [|done].
  cbn -[age_us]. destruct (age_us _ observed) as [age|]; [|done].
  unfold LOCAL_FUTURE_SKEW_SECONDS, MAX_AGE_SECONDS, MAX_FUTURE_SKEW_SECONDS, MAX_TRIGGER_AGE_SECONDS.
  by destruct (_ || _).
Qed.

Lemma consume_agrees t E w : consume (forget t) E w = consume_trigger t E w.
Proof.
  unfold consume, consume_trigger, forget, bind, try_with. cbn [tr_path tr_digest].
  rewrite trigger_bytes_agrees.
  destruct (safe_bytes _ E w) as [[[raw|]|e] w1]; try done.
  destruct (_ <>s? _); [done|].
  destruct (unlink _ E w1) as [[[]|e] w2].
  - unfold ret. cbv beta iota. by destruct (fsync_directory _ E w2) as [[[]|e] w3].
  - unfold except. by destruct (existsb _ _).
Qed.

(** C25: the desktop and the cloud implement one trigger protocol: under every pattern
    of failing calls and every clock, the local load gives the answer of load_trigger
    (less the time of observation), raises what it raises and leaves the same files, and
    consuming the accepted trigger does the same on both sides. *)
Theorem local_sweep_equivalent dir E w :
  load dir None E w = mapM (λ '(t, status), (option_map forget t, status)) (load_trigger dir) E w ∧
  ∀ t w', consume (forget t) E w' = consume_trigger t E w'.
Proof. split; [apply load_agrees|intros t w'; apply consume_agrees]. Qed.
