(* ===== verification/ApiFailure.v ===== *)
(** * Gateway failures ([local/cloudx_local/api_failure.py])

    The classification of a failed answer of the gateway, and the observer that watches
    the bytes of a connection for such answers while they are forwarded. *)

From S2P Require Import Prelude PyStr PyFloat PyValue PyTime PyJson FS.

Definition MAX_ERROR_BYTES : Z := 256 * 1024.
Definition ROOT_CAUSE_WINDOW_SECONDS : Z := 15 * 60.

Definition CAUSE_ACCOUNT_DEACTIVATED : string := "account_deactivated".
Definition CAUSE_QUOTA_EXHAUSTED : string := "quota_exhausted".
Definition CAUSE_RATE_LIMITED : string := "rate_limited".
Definition CAUSE_LOGIN_REQUIRED : string := "login_required".
Definition CAUSE_ACCESS_DENIED : string := "access_denied".
Definition CAUSE_NO_USABLE_ACCOUNTS : string := "no_usable_accounts".
Definition CAUSE_GATEWAY_AUTHENTICATION : string := "gateway_authentication_failed".
Definition CAUSE_GATEWAY_UNREACHABLE : string := "gateway_unreachable".
Definition CAUSE_GATEWAY_FAILURE : string := "gateway_failure".
Definition CAUSE_UPSTREAM_FAILURE : string := "upstream_failure".
Definition CAUSE_UNKNOWN : string := "unknown".

Definition DEFINITIVE_ACCOUNT_CAUSES : list string :=
  [CAUSE_ACCOUNT_DEACTIVATED; CAUSE_QUOTA_EXHAUSTED; CAUSE_RATE_LIMITED;
   CAUSE_LOGIN_REQUIRED; CAUSE_ACCESS_DENIED].

Definition SIGNAL_NONE : string := "none".
Definition SIGNAL_OTHER : string := "other".
Definition KNOWN_SIGNALS : list string :=
  ["account_deactivated"; "account_disabled"; "account_suspended"; "usage_limit_reached";
   "insufficient_quota"; "quota_exceeded"; "billing_hard_limit_reached"; "credits_exhausted";
   "rate_limit_error"; "rate_limit_exceeded"; "too_many_requests"; "refresh_token_reused";
   "invalid_grant"; "invalid_token"; "token_expired"; "invalid_api_key";
   "authentication_error"; "unauthorized"; "permission_denied"; "forbidden";
   "model_not_found"; "auth_unavailable"; "internal_server_error"].

Definition quoted (s : string) : string := QUOTE +:+ s +:+ QUOTE.
Definition ERROR_MARKERS : list string :=
  [quoted "type" +:+ ":" +:+ quoted "error"; quoted "type" +:+ ": " +:+ quoted "error";
   "response.failed"; "usage_limit_reached"; "insufficient_quota"; "account_deactivated";
   "account_suspended"; "refresh_token_reused"; "auth_unavailable"; "rate_limit_exceeded"].

Record api_failure := ApiFailure {
  af_cause : string; af_http_status : option Z; af_signal : string;
  af_observed_at : string; af_retry_at : option string; af_definitive : bool }.

Definition as_observation (f : api_failure) (source : string) : dict :=
  [("cause", JStr (af_cause f)); ("httpStatus", opt_int (af_http_status f));
   ("signal", JStr (af_signal f)); ("observedAt", JStr (af_observed_at f));
   ("retryAt", opt_str (af_retry_at f)); ("definitive", JBool (af_definitive f));
   ("source", JStr source); ("maskedBy", JNull)].

(** ** Times *)

Definition to_utc (t : datetime) : res datetime :=
  match astimezone_utc t with
  | Some u => Ok u
  | None => raise OverflowError "date value out of range"
  end.

(** [value.replace(tzinfo=utc)] when the value has no zone. *)
Definition aware (t : datetime) : datetime :=
  match dt_off t with Some _ => t | None => utc (dt_wall t) end.

Definition iso_utc (value : datetime) : res string :=
  let* u := to_utc (aware value) in Ok (replace_utc (isoformat u)).

Definition parse_timestamp (value : json) : res (option datetime) :=
  match value with
  | JStr s =>
      if strip s =s? "" then Ok None
      else match fromisoformat (z_suffix (strip s)) with
           | None => Ok None
           | Some parsed => let* u := to_utc (aware parsed) in Ok (Some u)
           end
  | _ => Ok None
  end.

(** [timedelta(seconds=f)] in microseconds: the whole seconds, and the product of the
    fraction with a million rounded as doubles are, then to the even integer; more than
    999999999 days, and the values that are not finite, raise. *)
Definition MAX_DELTA_DAYS : Z := 999999999.
Definition timedelta_us (f : pyfloat) : res Z :=
  match f with
  | FNan => raise ValueError "cannot convert float NaN to integer"
  | FInf _ => raise OverflowError "cannot convert float infinity to integer"
  | FFin s m e =>
      let '(ip, fr) :=
        if 0 <=? e then (m * 2 ^ e, 0) else (m / 2 ^ (- e), m mod 2 ^ (- e)) in
      let us :=
        match round_rat (fr * US) (if 0 <=? e then 1 else 2 ^ (- e)) with
        | FFin _ m' e' => if 0 <=? e' then m' * 2 ^ e' else round_half_even m' (2 ^ (- e'))
        | _ => 0
        end in
      let d := signed s (ip * US + us) in
      if (- MAX_DELTA_DAYS <=? d / DAY_US) && (d / DAY_US <=? MAX_DELTA_DAYS) then Ok d
      else raise OverflowError "days out of range"
  end.

Definition add_us (t : datetime) (d : Z) : res datetime :=
  if valid_wall (dt_wall t + d) then Ok (DT (dt_wall t + d) (dt_off t))
  else raise OverflowError "date value out of range".

(** ** The document of an answer *)

(** [raw.decode("utf-8", errors="replace")]: one replacement character for each longest
    incomplete start of a sequence. *)
Definition REPLACEMENT : string := of_chars (map ascii_of_nat [239; 191; 189]%nat).
Definition bad_len (s : string) : nat :=
  match s with
  | EmptyString => 0
  | String a _ =>
      if in_range 224 239 a then
        let lo := if Nat.eqb (ord a) 224 then 160 else 128 in
        let hi := if Nat.eqb (ord a) 237 then 159 else 191 in
        if cont_at 1 lo hi s then 2 else 1
      else if in_range 240 244 a then
        let lo := if Nat.eqb (ord a) 240 then 144 else 128 in
        let hi := if Nat.eqb (ord a) 244 then 143 else 191 in
        if negb (cont_at 1 lo hi s) then 1
        else if cont_at 2 128 191 s then 3 else 2
      else 1
  end%nat.
Fixpoint utf8_replace_go (copy skip : nat) (s : string) : string :=
  match s with
  | EmptyString => EmptyString
  | String c s' =>
      match copy, skip with
      | S k, _ => String c (utf8_replace_go k skip s')
      | O, S k => utf8_replace_go O k s'
      | O, O => match seq_len s with
                | O => REPLACEMENT +:+ utf8_replace_go O (bad_len s - 1) s'
                | S k => String c (utf8_replace_go k O s')
                end
      end
  end.
Definition utf8_replace (s : string) : string := utf8_replace_go O O s.

(** [s[-n:]] for a positive [n]. *)
Definition last_bytes (n : Z) (s : string) : string := str_drop (Z.to_nat (str_len s - n)) s.

(** [if text.startswith("data:"): text = text[5:].strip()]. *)
Definition data_stripped (text : string) : string :=
  if starts_with "data:" text then strip (str_drop 5 text) else text.

Definition error_candidates (text : string) : list string :=
  let stripped := strip text in
  (if starts_with "data:" stripped then [strip (str_drop 5 stripped)] else []) ++ [stripped] ++
  List.filter (λ c, starts_with "{" c && ends_with "}" c)
    (map (λ line, data_stripped (strip line)) (rev (splitlines text))).

Fixpoint first_document (candidates : list string) : dict :=
  match candidates with
  | [] => []
  | c :: candidates =>
      match loads c with Ok (JDict d) => d | _ => first_document candidates end
  end.
Definition error_document (text : string) : dict := first_document (error_candidates text).

Definition error_fields (document : dict) : dict :=
  match dget "error" document with
  | JDict error => error
  | _ => match dget "response" document with
         | JDict response => match dget "error" response with JDict error => error | _ => document end
         | _ => document
         end
  end.

Fixpoint first_signal (fields : dict) (keys : list string) : string :=
  match keys with
  | [] => SIGNAL_OTHER
  | key :: keys =>
      let value := replace_char "-" "_" (casefold (strip (str_or_empty (dget key fields)))) in
      if mem value KNOWN_SIGNALS then value else first_signal fields keys
  end.
Definition normalized_signal (fields : dict) : string :=
  first_signal fields ["type"; "code"; "error_type"].

(** The instants an answer states, then the delays; [None] goes on to the next key.  A
    number that is no instant is passed over, as is the [OverflowError] of its text. *)
Definition reset_instant (value : json) : res (option string) :=
  let* from_number :=
    (if num_positive value then
       match (let? f := to_float value in fromtimestamp f) with
       | Some t => match iso_utc t with Ok s => Ok (Some s) | Raise _ => Ok None end
       | None => Ok None
       end
     else Ok None) in
  match from_number with
  | Some s => Ok (Some s)
  | None =>
      let* parsed := parse_timestamp value in
      match parsed with
      | Some t => let* s := iso_utc t in Ok (Some s)
      | None => Ok None
      end
  end.
Definition reset_delay (observed_at : datetime) (value : json) : res (option string) :=
  if num_positive value then
    match to_float value with
    | None => raise OverflowError "int too large to convert to float"
    | Some f =>
        let* d := timedelta_us f in
        let* t := add_us observed_at d in
        let* s := iso_utc t in Ok (Some s)
    end
  else Ok None.
Fixpoint first_reset (f : json → res (option string)) (fields : dict) (keys : list string)
    : res (option string) :=
  match keys with
  | [] => Ok None
  | key :: keys =>
      let* r := f (dget key fields) in
      match r with Some s => Ok (Some s) | None => first_reset f fields keys end
  end.
Definition retry_at (fields : dict) (observed_at : datetime) : res (option string) :=
  let* instant := first_reset reset_instant fields ["resets_at"; "reset_at"] in
  match instant with
  | Some s => Ok (Some s)
  | None => first_reset (reset_delay observed_at) fields
              ["resets_in_seconds"; "retry_after_seconds"; "reset_after_seconds"]
  end.

(** ** Classification *)

Definition any_in (phrases : list string) (text : string) : bool :=
  existsb (λ phrase, contains phrase text) phrases.
Definition CURLY : string := of_chars (map ascii_of_nat [226; 128; 153]%nat).

(** The grounds in the text and the signal of an answer, in the order of the code. *)
Definition is_deactivated (signal searchable : string) : bool :=
  mem signal ["account_deactivated"; "account_disabled"; "account_suspended"] ||
  any_in ["account has been deactivated"; "account was deactivated"; "account is deactivated";
          "account has been suspended"; "account is suspended"] searchable.
Definition is_quota (signal searchable : string) : bool :=
  mem signal ["usage_limit_reached"; "insufficient_quota"; "quota_exceeded";
              "billing_hard_limit_reached"; "credits_exhausted"] ||
  any_in ["usage limit has been reached"; "you've hit your usage limit";
          "you" +:+ CURLY +:+ "ve hit your usage limit"; "exceeded your current quota";
          "billing hard limit has been reached"; "credit balance is too low";
          "no credits remaining"; "quota exhausted"] searchable.
Definition is_login (signal searchable : string) : bool :=
  mem signal ["refresh_token_reused"; "invalid_grant"; "invalid_token"; "token_expired";
              "invalid_api_key"; "authentication_error"; "unauthorized"] ||
  any_in ["invalid or expired token"; "token has expired"; "token was revoked";
          "refresh token has already been used"; "refresh token was already used";
          "please try signing in again"; "please log out and sign in again"] searchable.
Definition is_rate_limited (signal message : string) : bool :=
  mem signal ["rate_limit_error"; "rate_limit_exceeded"; "too_many_requests"] ||
  any_in ["rate limit reached"; "rate limit exceeded"; "too many requests"] message.
Definition is_no_usable (signal searchable : string) : bool :=
  (signal =s? "auth_unavailable") ||
  any_in ["auth_unavailable"; "no auth available"; "no usable accounts"] searchable.
Definition is_access_denied (signal message : string) : bool :=
  mem signal ["permission_denied"; "forbidden"; "model_not_found"] ||
  any_in ["permission denied"; "does not have access"; "model is not supported"] message.

Definition status_is (status : option Z) (z : Z) : bool :=
  match status with Some s => s =? z | None => false end.
Definition status_from (status : option Z) (z : Z) : bool :=
  match status with Some s => z <=? s | None => false end.

(** [signal] if it is known, else the one that the cause stands for. *)
Definition signal_or (signal default : string) : string :=
  if signal =s? SIGNAL_OTHER then default else signal.

Definition decide_cause (status : option Z) (signal message searchable : string)
    : string * bool * string :=
  if is_deactivated signal searchable then
    (CAUSE_ACCOUNT_DEACTIVATED, true, signal_or signal "account_deactivated")
  else if is_quota signal searchable then
    (CAUSE_QUOTA_EXHAUSTED, true, signal_or signal "usage_limit_reached")
  else if is_login signal searchable then
    (CAUSE_LOGIN_REQUIRED, true, signal_or signal "authentication_error")
  else if is_rate_limited signal message then
    (CAUSE_RATE_LIMITED, true, signal_or signal "rate_limit_exceeded")
  else if is_no_usable signal searchable then
    (CAUSE_NO_USABLE_ACCOUNTS, false, "auth_unavailable"%string)
  else if is_access_denied signal message then
    (CAUSE_ACCESS_DENIED, true, signal_or signal "forbidden")
  else if status_is status 401 then (CAUSE_LOGIN_REQUIRED, true, "http_401"%string)
  else if status_is status 403 then (CAUSE_ACCESS_DENIED, true, "http_403"%string)
  else if status_is status 429 then (CAUSE_RATE_LIMITED, true, "http_429"%string)
  else if status_from status 500 then (CAUSE_UPSTREAM_FAILURE, false, "http_5xx"%string)
  else (CAUSE_UNKNOWN, false, signal_or signal SIGNAL_NONE).

(** The last test of the function, on a signal that is still [SIGNAL_OTHER]. *)
Definition final_signal (status : option Z) (signal : string) : string :=
  match status with
  | Some s =>
      if signal =s? SIGNAL_OTHER then
        if existsb (Z.eqb s) [401; 403; 429; 500; 502; 503; 504]
        then "http_" +:+ str_of_Z s else SIGNAL_OTHER
      else signal
  | None => signal
  end.

Definition message_of (fields document : dict) : string :=
  casefold (strip (str_or_empty (py_or (dget "message" fields) (dget "message" document)))).
Definition searchable_of (status : option Z) (message text : string) : string :=
  if message <>s? "" then message
  else if status_from status 400 then casefold text else "".

Definition classify_http_failure (status : option Z) (body : string) (observed_at : datetime)
    : res api_failure :=
  let text := utf8_replace (last_bytes MAX_ERROR_BYTES body) in
  let document := error_document text in
  let fields := error_fields document in
  let signal := normalized_signal fields in
  let message := message_of fields document in
  let searchable := searchable_of status message text in
  let* retry := retry_at fields observed_at in
  let '(cause, definitive, signal) := decide_cause status signal message searchable in
  let signal := final_signal status signal in
  let* observed := iso_utc observed_at in
  Ok (ApiFailure cause status signal observed retry definitive).

(** ** The observer *)

(** [_HTTP_STATUS]: at the start of the buffer or after a line break, [HTTP/1.0] or
    [HTTP/1.1], white space, and three digits that no word character follows: the length
    of the match and the status. *)
Definition byte_space (c : ascii) : bool := Ascii.eqb c " " || in_range 9 13 c.
Definition byte_word (c : ascii) : bool := is_alnum c || Ascii.eqb c "_".
Definition status_digits (s : string) : option Z :=
  match s with
  | String a (String b (String c r)) =>
      if in_range 49 53 a && is_digit b && is_digit c &&
         match r with String d _ => negb (byte_word d) | EmptyString => true end
      then Some (digit_val a * 100 + digit_val b * 10 + digit_val c) else None
  | _ => None
  end.
Definition status_line (s : string) : option (nat * Z) :=
  if starts_with "HTTP/1." s then
    match str_drop 7 s with
    | String v r =>
        let digits := drop_while byte_space r in
        if in_range 48 49 v && Nat.ltb (String.length digits) (String.length r) then
          let? code := status_digits digits in
          Some ((8 + (String.length r - String.length digits) + 3)%nat, code)
        else None
    | EmptyString => None
    end
  else None.
Definition CRLF : string := CR +:+ LF.
Definition status_match (at_start : bool) (s : string) : option (nat * Z) :=
  match (if at_start then status_line s else None) with
  | Some m => Some m
  | None => if starts_with CRLF s then
              let? (n, code) := status_line (str_drop 2 s) in Some ((2 + n)%nat, code)
            else None
  end.
(** [finditer]: the start of each match and its status. *)
Fixpoint http_statuses (skip i : nat) (s : string) : list (nat * Z) :=
  match s with
  | EmptyString => []
  | String _ s' =>
      match skip with
      | S k => http_statuses k (S i) s'
      | O => match status_match (Nat.eqb i 0) s with
             | Some (n, code) => (i, code) :: http_statuses (n - 1) (S i) s'
             | None => http_statuses O (S i) s'
             end
      end
  end.

Record observer := Observer {
  o_buffer : string; o_status_code : option Z;
  o_last_signature : option (string * option Z * string * option string);
  o_total_bytes : Z; o_buffer_start : Z; o_last_status_offset : Z;
  o_marker_tail : string; o_failure_marker_seen : bool;
  o_response_observed_at : option datetime }.

Definition new_observer : observer := Observer "" None None 0 0 (-1) "" false None.

Definition utc_now : M datetime := let! us := now_us in ret (utc (EPOCH_US + us)).

(** [self.response_observed_at], set now if it was not set. *)
Definition observed_now (o : observer) : M observer :=
  match o_response_observed_at o with
  | Some _ => ret o
  | None =>
      let! t := utc_now in
      ret (Observer (o_buffer o) (o_status_code o) (o_last_signature o) (o_total_bytes o)
             (o_buffer_start o) (o_last_status_offset o) (o_marker_tail o)
             (o_failure_marker_seen o) (Some t))
  end.

(** The bytes of [data] appended and the front of a buffer that is too long dropped. *)
Definition absorb (o : observer) (data : string) : observer :=
  let buffer := last_bytes MAX_ERROR_BYTES (o_buffer o +:+ data) in
  let total := o_total_bytes o + str_len data in
  Observer buffer (o_status_code o) (o_last_signature o) total (total - str_len buffer)
    (o_last_status_offset o) (o_marker_tail o) (o_failure_marker_seen o)
    (o_response_observed_at o).

(** The last status line of the buffer; a new one starts a new answer. *)
Definition see_status (o : observer) : M observer :=
  match List.last (map Some (http_statuses 0 0 (o_buffer o))) None with
  | None => ret o
  | Some (start, code) =>
      let absolute := o_buffer_start o + Z.of_nat start in
      if o_last_status_offset o <? absolute then
        let fresh := 0 <=? o_last_status_offset o in
        let! t := utc_now in
        ret (Observer (if fresh then str_drop start (o_buffer o) else o_buffer o) (Some code)
               None (o_total_bytes o) (if fresh then absolute else o_buffer_start o) absolute
               "" false (Some t))
      else
        ret (Observer (o_buffer o) (Some code) (o_last_signature o) (o_total_bytes o)
               (o_buffer_start o) (o_last_status_offset o) (o_marker_tail o)
               (o_failure_marker_seen o) (o_response_observed_at o))
  end.

Definition see_markers (o : observer) (data : string) : M observer :=
  let marker_input := str_lower (o_marker_tail o +:+ data) in
  let seen := existsb (λ marker, contains marker marker_input) ERROR_MARKERS in
  let o := Observer (o_buffer o) (o_status_code o) (o_last_signature o) (o_total_bytes o)
             (o_buffer_start o) (o_last_status_offset o) (last_bytes 128 marker_input)
             (o_failure_marker_seen o || seen) (o_response_observed_at o) in
  if seen then observed_now o else ret o.

Definition may_contain_failure (o : observer) : bool :=
  if status_from (o_status_code o) 400 then
    match str_rfind (CRLF +:+ CRLF) (o_buffer o) with
    | Some separator => Nat.ltb (separator + 4) (String.length (o_buffer o))
    | None => false
    end
  else o_failure_marker_seen o.

(** What a call of the observer ends in: its new state, the observation it gave to the
    callback, and the exception it raised.  The state is kept when it raises, as the
    attributes of the object are. *)
Record observed := Observed {
  ob_state : observer; ob_observation : option dict; ob_raised : option exn }.

Definition signature_of (f : api_failure) : string * option Z * string * option string :=
  (af_cause f, af_http_status f, af_signal f, af_retry_at f).

Definition set_signature (o : observer) (f : api_failure) : observer :=
  Observer (o_buffer o) (o_status_code o) (Some (signature_of f)) (o_total_bytes o)
    (o_buffer_start o) (o_last_status_offset o) (o_marker_tail o)
    (o_failure_marker_seen o) (o_response_observed_at o).

Definition emit_if_classified (o : observer) (force : bool) : M observed :=
  let! o := observed_now o in
  ret (match classify_http_failure (o_status_code o) (o_buffer o)
               (default (utc 0) (o_response_observed_at o)) with
       | Raise e => Observed o None (Some e)
       | Ok failure =>
           if (af_cause failure =s? CAUSE_UNKNOWN) ||
              ((af_cause failure =s? CAUSE_UPSTREAM_FAILURE) && negb force) ||
              bool_decide (o_last_signature o = Some (signature_of failure))
           then Observed o None None
           else Observed (set_signature o failure)
                  (Some (as_observation failure "tunnel_observation")) None
       end).

Definition feed (o : observer) (data : string) : M observed :=
  if data =s? "" then ret (Observed o None None) else
  let! o := see_status (absorb o data) in
  let! o := see_markers o data in
  if may_contain_failure o then emit_if_classified o false else ret (Observed o None None).

Definition close (o : observer) : M observed := emit_if_classified o true.

(** * What the observer of the gateway reports

    The classification has a closed vocabulary and one meaning of "definitive"; the
    observer keeps a bounded suffix of the stream, finds the failure markers as a search
    of the whole stream would, and does not report one failure of an answer twice in a
    row.  An answer can make it raise. *)

(** ** The vocabulary *)

Definition CAUSES : list string :=
  DEFINITIVE_ACCOUNT_CAUSES ++ [CAUSE_NO_USABLE_ACCOUNTS; CAUSE_UPSTREAM_FAILURE; CAUSE_UNKNOWN].
Definition SIGNALS : list string :=
  KNOWN_SIGNALS ++ [SIGNAL_NONE; "http_401"; "http_403"; "http_429"; "http_5xx"].

Lemma first_signal_known fields keys :
  first_signal fields keys = SIGNAL_OTHER ∨ In (first_signal fields keys) KNOWN_SIGNALS.
Proof.
  induction keys as [|key keys IH]; [by left|]. cbn [first_signal]. cbv zeta.
  match goal with |- context [mem ?v KNOWN_SIGNALS] => destruct (mem v KNOWN_SIGNALS) eqn:H end;
    [right; by apply mem_spec|done].
Qed.

(** What each branch of the decision yields. *)
Definition decision_ok (d : string * bool * string) : Prop :=
  let '(cause, definitive, signal) := d in
  In cause CAUSES ∧ definitive = mem cause DEFINITIVE_ACCOUNT_CAUSES ∧ In signal SIGNALS.

Lemma signal_or_ok signal default :
  signal = SIGNAL_OTHER ∨ In signal KNOWN_SIGNALS → In default SIGNALS →
  In (signal_or signal default) SIGNALS.
Proof.
  intros Hs Hd. unfold signal_or. destruct (eqs_spec signal SIGNAL_OTHER) as [|Hne]; [done|].
  apply in_or_app. left. by destruct Hs.
Qed.

Lemma decide_cause_ok status signal message searchable :
  signal = SIGNAL_OTHER ∨ In signal KNOWN_SIGNALS →
  decision_ok (decide_cause status signal message searchable).
Proof.
  intros Hs. unfold decide_cause.
  repeat match goal with |- context [if ?b then _ else _] => destruct b end;
    (split; [by apply mem_spec|split; [done|]]);
    first [by apply mem_spec | apply signal_or_ok; [done|by apply mem_spec]].
Qed.

Lemma signals_not_other signal : In signal SIGNALS → signal ≠ SIGNAL_OTHER.
Proof. intros H ->. apply mem_spec in H. by vm_compute in H. Qed.

Lemma final_signal_id status signal : In signal SIGNALS → final_signal status signal = signal.
Proof.
  intros H%signals_not_other. unfold final_signal. destruct status; [|done].
  by rewrite (eqs_ne signal SIGNAL_OTHER).
Qed.

(** A printed instant. *)
Definition is_instant_text (s : string) : Prop := ∃ t, iso_utc t = Ok s.

Lemma reset_instant_text value s : reset_instant value = Ok (Some s) → is_instant_text s.
Proof.
  unfold reset_instant. intros H.
  assert (Hp : (let* parsed := parse_timestamp value in
                match parsed with Some t => let* s := iso_utc t in Ok (Some s) | None => Ok None end)
               = Ok (Some s) → is_instant_text s).
  { intros H'. destruct (parse_timestamp value) as [[t|]|]; try done.
    destruct (iso_utc t) eqn:Ht; [|done]. injection H' as <-. by exists t. }
  destruct (num_positive value); [|by apply Hp].
  destruct (let? f := to_float value in fromtimestamp f) as [t|]; [|by apply Hp].
  destruct (iso_utc t) eqn:Ht; [|by apply Hp]. injection H as <-. by exists t.
Qed.

Lemma reset_delay_text observed value s :
  reset_delay observed value = Ok (Some s) → is_instant_text s.
Proof. unfold reset_delay. intros H. walk H. by eexists. Qed.

Lemma first_reset_text f fields keys s :
  (∀ v s, f v = Ok (Some s) → is_instant_text s) →
  first_reset f fields keys = Ok (Some s) → is_instant_text s.
Proof.
  intros Hf. induction keys as [|key keys IH]; simpl; [done|].
  destruct (f (dget key fields)) as [[s'|]|] eqn:H; try done. intros [= <-]. by eapply Hf.
Qed.

Lemma retry_at_text fields observed s : retry_at fields observed = Ok (Some s) → is_instant_text s.
Proof.
  unfold retry_at.
  destruct (first_reset reset_instant _ _) as [[s'|]|] eqn:H; try done.
  - intros [= <-]. eapply first_reset_text; [apply reset_instant_text|done].
  - apply first_reset_text. apply reset_delay_text.
Qed.

(** A classification has a closed vocabulary: its cause is one of eight, it is
    definitive exactly for the account causes, its signal is one of the known signals or
    one of five fixed names, never the internal "other" (the last test of the function is
    dead code), and its times are printed instants: no text of the answer reaches an
    observation. *)
Theorem classification_closed status body observed_at f
    (H : classify_http_failure status body observed_at = Ok f) :
  af_http_status f = status ∧ In (af_cause f) CAUSES ∧
  af_definitive f = mem (af_cause f) DEFINITIVE_ACCOUNT_CAUSES ∧
  In (af_signal f) SIGNALS ∧ af_signal f ≠ SIGNAL_OTHER ∧
  is_instant_text (af_observed_at f) ∧ ∀ s, af_retry_at f = Some s → is_instant_text s.
Proof.
  unfold classify_http_failure in H. revert H.
  set (text := utf8_replace _). set (document := error_document text).
  set (fields := error_fields document). intros H.
  destruct (retry_at fields observed_at) as [retry|] eqn:Hr; [|done].
  pose proof (decide_cause_ok status (normalized_signal fields) (message_of fields document)
    (searchable_of status (message_of fields document) text) (first_signal_known _ _)) as Hd.
  destruct (decide_cause _ _ _ _) as [[cause definitive] signal]. destruct Hd as (Hc & Hf & Hg).
  rewrite final_signal_id in H by done.
  destruct (iso_utc observed_at) eqn:Ho; [|done]. injection H as <-. simpl.
  split_and!; try done; [by apply signals_not_other|by eexists|].
  intros s ->. by eapply retry_at_text.
Qed.

Definition quota_answer : string :=
  dumps (st_default false true) (JDict [("error", JDict
    [("type", JStr "usage_limit_reached"); ("resets_in_seconds", JInt 60)])]).

Lemma classification_closed_witness :
  ∃ f, classify_http_failure (Some 429) quota_answer (utc EPOCH_US) = Ok f ∧
       af_cause f = CAUSE_QUOTA_EXHAUSTED ∧ af_definitive f = mem (af_cause f) DEFINITIVE_ACCOUNT_CAUSES.
Proof.
  destruct (classify_http_failure (Some 429) quota_answer (utc EPOCH_US)) as [f|e] eqn:H;
    [|vm_compute in H; discriminate].
  exists f. split; [reflexivity|]. split; [vm_compute in H; injection H as <-; reflexivity|].
  apply (classification_closed (Some 429) quota_answer (utc EPOCH_US) f H).
Defined.
