(* ===== verification/Streams.v ===== *)
(** * Windows of a stream

    A search that keeps the last bytes of what it has seen finds what a search of the
    whole stream finds: the lemmas of [last_bytes] and [contains]. *)

From S2P Require Import Prelude PyStr ApiFailure.

Lemma str_app_assoc_l (a b c : string) : a +:+ (b +:+ c) = (a +:+ b) +:+ c.
Proof. by rewrite str_app_assoc. Qed.

Lemma str_lower_app a b : str_lower (a +:+ b) = str_lower a +:+ str_lower b.
Proof. induction a as [|c a IH]; [done|]. exact (f_equal (String (to_lower c)) IH). Qed.

Lemma str_drop_app_le i a b : (i <= String.length a)%nat → str_drop i (a +:+ b) = str_drop i a +:+ b.
Proof.
  revert i. induction a as [|c a IH]; intros [|i] H; try done; [simpl in H; lia|].
  apply IH. simpl in H. lia.
Qed.

Lemma str_drop_drop i j s : str_drop i (str_drop j s) = str_drop (j + i) s.
Proof.
  revert s. induction j as [|j IH]; intros s; [done|]. destruct s as [|c s]; simpl; [by destruct i|].
  apply IH.
Qed.

Lemma str_drop_length i s : String.length (str_drop i s) = (String.length s - i)%nat.
Proof. revert i. induction s as [|c s IH]; intros [|i]; simpl; [done..|]. apply IH. Qed.

Lemma str_drop_lower i s : str_drop i (str_lower s) = str_lower (str_drop i s).
Proof. revert i. induction s as [|c s IH]; intros [|i]; simpl; [done..|]. apply IH. Qed.

Lemma str_len_app a b : str_len (a +:+ b) = str_len a + str_len b.
Proof. unfold str_len. rewrite str_length_app. lia. Qed.

Lemma str_len_nonneg s : 0 <= str_len s.
Proof. unfold str_len. lia. Qed.

Lemma last_bytes_short n s : str_len s <= n → last_bytes n s = s.
Proof. intros H. unfold last_bytes. by replace (Z.to_nat (str_len s - n)) with O by lia. Qed.

Lemma last_bytes_len n s : 0 <= n → str_len (last_bytes n s) = Z.min n (str_len s).
Proof. intros H. unfold last_bytes, str_len. rewrite str_drop_length. lia. Qed.

Lemma last_bytes_app n s t : 0 <= n → last_bytes n (last_bytes n s +:+ t) = last_bytes n (s +:+ t).
Proof.
  intros Hn. unfold last_bytes at 1 3. rewrite !str_len_app, last_bytes_len by done.
  unfold last_bytes. rewrite <- str_drop_app_le by (unfold str_len; lia).
  rewrite str_drop_drop. f_equal. pose proof (str_len_nonneg s). pose proof (str_len_nonneg t). lia.
Qed.

Lemma last_bytes_idem n s : 0 <= n → last_bytes n (last_bytes n s) = last_bytes n s.
Proof. intros Hn. pose proof (last_bytes_app n s "" Hn) as H. by rewrite !str_app_nil_r in H. Qed.

Lemma last_bytes_lower n s : last_bytes n (str_lower s) = str_lower (last_bytes n s).
Proof. unfold last_bytes, str_len, str_lower. rewrite str_map_length. apply str_drop_lower. Qed.

(** Dropping the front of a window is dropping more of the stream. *)
Lemma drop_last_bytes i n s :
  str_drop i (last_bytes n s) = str_drop (Z.to_nat (str_len s - n) + i) s.
Proof. unfold last_bytes. apply str_drop_drop. Qed.

(** ** Searching *)

Lemma find_from_shift sub s i j :
  match find_from i sub s with Some _ => true | None => false end =
  match find_from j sub s with Some _ => true | None => false end.
Proof.
  revert i j. induction s as [|c s IH]; intros i j; cbn [find_from]; destruct (String.prefix _ _);
    first [done|apply IH].
Qed.

Lemma contains_cons sub c s :
  contains sub (String c s) = String.prefix sub (String c s) || contains sub s.
Proof.
  unfold contains, str_find. cbn [find_from]. destruct (String.prefix _ _); [done|].
  apply find_from_shift.
Qed.

Lemma contains_empty sub : contains sub "" = (sub =s? "").
Proof. by destruct sub. Qed.

Lemma prefix_app sub a b : String.prefix sub a = true → String.prefix sub (a +:+ b) = true.
Proof.
  revert a. induction sub as [|c sub IH]; intros [|d a] H; try done; [by destruct b|].
  change (String d a +:+ b) with (String d (a +:+ b)).
  cbn [String.prefix] in *. destruct (ascii_dec c d); [by apply IH|done].
Qed.
Lemma prefix_app_inv sub a b :
  (String.length sub <= String.length a)%nat →
  String.prefix sub (a +:+ b) = true → String.prefix sub a = true.
Proof.
  revert a. induction sub as [|c sub IH]; intros a H; [by destruct a|].
  destruct a as [|d a]; [simpl in H; lia|].
  change (String d a +:+ b) with (String d (a +:+ b)).
  cbn [String.prefix String.length] in *. destruct (ascii_dec c d); [|done]. apply IH. lia.
Qed.

Lemma contains_app_l sub a b : contains sub a = true → contains sub (a +:+ b) = true.
Proof.
  induction a as [|c a IH].
  - rewrite contains_empty. intros ->%String.eqb_eq. simpl. by destruct b.
  - change (String c a +:+ b) with (String c (a +:+ b)). rewrite !contains_cons.
    intros [H|H]%orb_true_iff; apply orb_true_iff; [left|right; by apply IH].
    by apply (prefix_app sub (String c a)).
Qed.
Lemma contains_app_r sub a b : contains sub b = true → contains sub (a +:+ b) = true.
Proof.
  intros H. induction a as [|c a IH]; [done|].
  change (String c a +:+ b) with (String c (a +:+ b)). rewrite contains_cons, IH. apply orb_true_r.
Qed.

(** A text of at most [n + 1] bytes that crosses the end of [a] starts in the last [n]
    bytes of [a]. *)
Lemma contains_window n sub a b :
  0 <= n → str_len sub <= n + 1 →
  contains sub (a +:+ b) = contains sub a || contains sub (last_bytes n a +:+ b).
Proof.
  intros Hn Hs. induction a as [|c a IH].
  - rewrite contains_empty. change ("" +:+ b) with b. rewrite last_bytes_short by (change (str_len "") with 0; lia).
    destruct (eqs_spec sub "") as [->|]; [|done]. by destruct b.
  - destruct (Z.le_gt_cases (str_len (String c a)) n) as [Hl|Hl].
    + rewrite last_bytes_short by done. destruct (contains sub (String c a)) eqn:H; [|done].
      by apply contains_app_l.
    + change (String c a +:+ b) with (String c (a +:+ b)). rewrite !contains_cons, IH.
      replace (last_bytes n (String c a)) with (last_bytes n a).
      2:{ unfold last_bytes, str_len in *. simpl String.length in *.
          replace (Z.to_nat (Z.of_nat (S (String.length a)) - n)) with
            (S (Z.to_nat (Z.of_nat (String.length a) - n))) by lia. done. }
      rewrite orb_assoc. f_equal. f_equal.
      change (String c (a +:+ b)) with (String c a +:+ b).
      destruct (String.prefix sub (String c a)) eqn:H; [by apply prefix_app|].
      destruct (String.prefix sub (String c a +:+ b)) eqn:H'; [|done].
      apply prefix_app_inv in H'; [congruence|]. unfold str_len in *. lia.
Qed.

(** Any of several short texts. *)
Definition any_marker (markers : list string) (s : string) : bool :=
  existsb (λ marker, contains marker s) markers.

Lemma any_marker_window n markers a b :
  0 <= n → Forall (λ m, str_len m <= n + 1) markers →
  any_marker markers (a +:+ b) = any_marker markers a || any_marker markers (last_bytes n a +:+ b).
Proof.
  intros Hn. induction 1 as [|m l Hm _ IH]; [done|]. cbn. rewrite (contains_window n m a b) by done.
  fold (any_marker l (a +:+ b)). rewrite IH. unfold any_marker.
  destruct (contains m a), (contains m (last_bytes n a +:+ b)); cbn; try done; by rewrite ?orb_true_r.
Qed.
