(* ===== verification/ObserverRefinement.v ===== *)
(** * The observer refines a search of the whole answer

    The specification keeps every byte of the current answer and searches all of them;
    [ApiFailure]'s observer keeps a window of [MAX_ERROR_BYTES] bytes and a tail of 128.
    Step by step they report the same observations, raise the same exceptions and read
    the clock at the same moments. *)

From S2P Require Import Prelude PyStr PyFloat PyValue PyTime PyJson FS ApiFailure Streams.

(** ** The specification *)

Record stream := Stream {
  s_answer : string;    (* every byte of the current answer *)
  s_marked : string;    (* every byte since the chunk after its status line *)
  s_total : Z; s_offset : Z; s_status : option Z;
  s_signature : option (string * option Z * string * option string);
  s_observed_at : option datetime }.

Definition new_stream : stream := Stream "" "" 0 (-1) None None None.
Definition s_window (s : stream) : string := last_bytes MAX_ERROR_BYTES (s_answer s).
Definition s_seen (s : stream) : bool := any_marker ERROR_MARKERS (str_lower (s_marked s)).

Definition s_observed (s : stream) (t : datetime) : stream :=
  Stream (s_answer s) (s_marked s) (s_total s) (s_offset s) (s_status s) (s_signature s) (Some t).
Definition s_observed_now (s : stream) : M stream :=
  match s_observed_at s with
  | Some _ => ret s
  | None => let! t := utc_now in ret (s_observed s t)
  end.

Definition s_see_status (s : stream) : M stream :=
  match List.last (map Some (http_statuses 0 0 (s_window s))) None with
  | None => ret s
  | Some (start, code) =>
      let absolute := s_total s - str_len (s_window s) + Z.of_nat start in
      if s_offset s <? absolute then
        let! t := utc_now in
        ret (Stream (if 0 <=? s_offset s then str_drop start (s_window s) else s_answer s) ""
               (s_total s) absolute (Some code) None (Some t))
      else ret (Stream (s_answer s) (s_marked s) (s_total s) (s_offset s) (Some code)
                  (s_signature s) (s_observed_at s))
  end.

Definition s_see_markers (s : stream) (data : string) : M stream :=
  let s := Stream (s_answer s) (s_marked s +:+ data) (s_total s) (s_offset s) (s_status s)
             (s_signature s) (s_observed_at s) in
  if s_seen s then s_observed_now s else ret s.

Definition s_may_contain (s : stream) : bool :=
  if status_from (s_status s) 400 then
    match str_rfind (CRLF +:+ CRLF) (s_window s) with
    | Some separator => Nat.ltb (separator + 4) (String.length (s_window s))
    | None => false
    end
  else s_seen s.

(** What a call reports: the observation handed on and the exception. *)
Definition report : Type := option dict * option exn.

Definition s_emit (s : stream) (force : bool) : M (stream * report) :=
  let! s := s_observed_now s in
  ret (match classify_http_failure (s_status s) (s_answer s)
               (default (utc 0) (s_observed_at s)) with
       | Raise e => (s, (None, Some e))
       | Ok failure =>
           if (af_cause failure =s? CAUSE_UNKNOWN) ||
              ((af_cause failure =s? CAUSE_UPSTREAM_FAILURE) && negb force) ||
              bool_decide (s_signature s = Some (signature_of failure))
           then (s, (None, None))
           else (Stream (s_answer s) (s_marked s) (s_total s) (s_offset s) (s_status s)
                   (Some (signature_of failure)) (s_observed_at s),
                 (Some (as_observation failure "tunnel_observation"), None))
       end).

Definition s_feed (s : stream) (data : string) : M (stream * report) :=
  if data =s? "" then ret (s, (None, None)) else
  let s := Stream (s_answer s +:+ data) (s_marked s) (s_total s + str_len data) (s_offset s)
             (s_status s) (s_signature s) (s_observed_at s) in
  let! s := s_see_status s in
  let! s := s_see_markers s data in
  if s_may_contain s then s_emit s false else ret (s, (None, None)).

(** The calls on an observer. *)
Inductive call := Feed (data : string) | Close.
Definition observer_step (o : observer) (c : call) : M observed :=
  match c with Feed data => feed o data | Close => close o end.
Definition stream_step (s : stream) (c : call) : M (stream * report) :=
  match c with Feed data => s_feed s data | Close => s_emit s true end.

Fixpoint run_observer (o : observer) (calls : list call) : M (observer * list report) :=
  match calls with
  | [] => ret (o, [])
  | c :: calls =>
      let! r := observer_step o c in
      let! (o', reports) := run_observer (ob_state r) calls in
      ret (o', (ob_observation r, ob_raised r) :: reports)
  end.
Fixpoint run_stream (s : stream) (calls : list call) : M (stream * list report) :=
  match calls with
  | [] => ret (s, [])
  | c :: calls =>
      let! (s, r) := stream_step s c in
      let! (s', reports) := run_stream s calls in
      ret (s', r :: reports)
  end.

(** ** The simulation *)

(** Both computations return, with the same world and with related values. *)
Definition msim {A B} (P : A → B → Prop) (m : M A) (m' : M B) : Prop :=
  ∀ E w, ∃ a b w', m E w = (Ok a, w') ∧ m' E w = (Ok b, w') ∧ P a b.

Lemma msim_ret {A B} (P : A → B → Prop) a b : P a b → msim P (ret a) (ret b).
Proof. intros H E w. by exists a, b, w. Qed.
Lemma msim_bind {A B C D} (P : A → B → Prop) (Q : C → D → Prop) m m' k k' :
  msim P m m' → (∀ a b, P a b → msim Q (k a) (k' b)) → msim Q (bind m k) (bind m' k').
Proof.
  intros Hm Hk E w. destruct (Hm E w) as (a & b & w' & Ha & Hb & Hp).
  rewrite (bind_eq_ok _ _ _ _ _ _ Ha), (bind_eq_ok _ _ _ _ _ _ Hb). by apply Hk.
Qed.
Lemma msim_now : msim eq utc_now utc_now.
Proof. intros E w. by repeat eexists. Qed.

Record related (o : observer) (s : stream) : Prop := {
  rel_buffer : o_buffer o = s_window s;
  rel_status : o_status_code o = s_status s;
  rel_signature : o_last_signature o = s_signature s;
  rel_total : o_total_bytes o = s_total s;
  rel_start : o_buffer_start o = s_total s - str_len (s_window s);
  rel_offset : o_last_status_offset o = s_offset s;
  rel_tail : o_marker_tail o = last_bytes 128 (str_lower (s_marked s));
  rel_seen : o_failure_marker_seen o = s_seen s;
  rel_observed : o_response_observed_at o = s_observed_at s;
  rel_dated : s_seen s = true → s_observed_at s ≠ None }.

Lemma max_nonneg : 0 <= MAX_ERROR_BYTES.
Proof. done. Qed.

Lemma classify_window status body t :
  classify_http_failure status (last_bytes MAX_ERROR_BYTES body) t = classify_http_failure status body t.
Proof. unfold classify_http_failure. by rewrite last_bytes_idem. Qed.

Lemma markers_short : Forall (λ m, str_len m <= 128 + 1) ERROR_MARKERS.
Proof. repeat constructor; by vm_compute. Qed.

Lemma window_self n (s : string) : 0 <= n → str_len s <= n → last_bytes n s = s.
Proof. intros _. apply last_bytes_short. Qed.

Lemma absorb_related o s data :
  related o s →
  related (absorb o data)
    (Stream (s_answer s +:+ data) (s_marked s) (s_total s + str_len data) (s_offset s)
       (s_status s) (s_signature s) (s_observed_at s)).
Proof.
  intros []. unfold absorb. constructor; unfold s_window, s_seen in *; cbn [o_buffer o_status_code
    o_last_signature o_total_bytes o_buffer_start o_last_status_offset o_marker_tail
    o_failure_marker_seen o_response_observed_at s_answer s_marked s_total s_offset s_status
    s_signature s_observed_at]; try done.
  - by rewrite rel_buffer0, last_bytes_app.
  - by rewrite rel_total0.
  - by rewrite rel_total0, rel_buffer0, last_bytes_app.
Qed.

Lemma http_statuses_bound skip i s j code :
  In (j, code) (http_statuses skip i s) → (i <= j < i + String.length s)%nat.
Proof.
  revert skip i. induction s as [|c s IH]; intros skip i; cbn [http_statuses String.length]; [done|].
  destruct skip as [|k]; [destruct (status_match _ _) as [[n z]|]|].
  - intros [[= -> ->]|H]; [lia|]. apply IH in H. lia.
  - intros H%IH. lia.
  - intros H%IH. lia.
Qed.

Lemma last_some_In {A} (l : list A) x : List.last (map Some l) None = Some x → In x l.
Proof.
  induction l as [|y l IH]; [done|]. destruct l as [|z l]; [intros [= ->]; by left|].
  intros H. right. by apply IH.
Qed.

(** The part of a window from a status line on is a window of its own. *)
Lemma window_from s start code :
  List.last (map Some (http_statuses 0 0 (s_window s))) None = Some (start, code) →
  last_bytes MAX_ERROR_BYTES (str_drop start (s_window s)) = str_drop start (s_window s) ∧
  str_len (str_drop start (s_window s)) = str_len (s_window s) - Z.of_nat start.
Proof.
  intros H%last_some_In%http_statuses_bound.
  assert (Hl : str_len (str_drop start (s_window s)) = str_len (s_window s) - Z.of_nat start)
    by (unfold str_len; rewrite str_drop_length; lia).
  split; [|done]. apply last_bytes_short. rewrite Hl. unfold s_window.
  rewrite last_bytes_len by done. lia.
Qed.

Lemma see_status_related o s : related o s → msim related (see_status o) (s_see_status s).
Proof.
  intros H. pose proof H as []. unfold see_status, s_see_status. rewrite rel_buffer0.
  destruct (List.last _ None) as [[start code]|] eqn:Hl; [|by apply msim_ret].
  destruct (window_from s start code Hl) as [Hw Hn].
  rewrite rel_start0, rel_offset0. destruct (_ <? _); [|apply msim_ret; by constructor].
  eapply msim_bind; [apply msim_now|]. intros t ? <-. apply msim_ret.
  destruct (0 <=? s_offset s); (constructor; unfold s_window in *; cbn; try done).
  rewrite Hw, Hn. lia.
Qed.

Lemma observed_related o s : related o s → msim related (observed_now o) (s_observed_now s).
Proof.
  intros H. pose proof H as []. unfold observed_now, s_observed_now. rewrite rel_observed0.
  destruct (s_observed_at s); [by apply msim_ret|].
  eapply msim_bind; [apply msim_now|]. intros t ? <-. apply msim_ret. by constructor.
Qed.

Lemma see_markers_related o s data :
  related o s → msim related (see_markers o data) (s_see_markers s data).
Proof.
  intros []. unfold see_markers, s_see_markers.
  assert (Hin : str_lower (o_marker_tail o +:+ data) =
                last_bytes 128 (str_lower (s_marked s)) +:+ str_lower data).
  { rewrite rel_tail0, str_lower_app. f_equal. by rewrite last_bytes_lower, str_lower_idem. }
  rewrite Hin. fold (any_marker ERROR_MARKERS
    (last_bytes 128 (str_lower (s_marked s)) +:+ str_lower data)).
  set (s' := Stream _ _ _ _ _ _ _). set (o' := Observer _ _ _ _ _ _ _ _ _).
  assert (Hseen : s_seen s' = s_seen s || any_marker ERROR_MARKERS
    (last_bytes 128 (str_lower (s_marked s)) +:+ str_lower data)).
  { unfold s_seen, s'. cbn [s_marked]. rewrite str_lower_app.
    apply any_marker_window; [done|apply markers_short]. }
  assert (Hr : (s_seen s' = true → s_observed_at s' ≠ None) → related o' s').
  { intros Hd. constructor; try done; cbn; [|rewrite rel_seen0; symmetry; exact Hseen].
    by rewrite str_lower_app, last_bytes_app. }
  rewrite Hseen. destruct (any_marker _ (_ +:+ _)) eqn:Hm; rewrite ?orb_true_r, ?orb_false_r in *.
  - unfold observed_now, s_observed_now. cbn [o_response_observed_at o' s_observed_at s'].
    rewrite rel_observed0. destruct (s_observed_at s) as [t|] eqn:Ht.
    + apply msim_ret, Hr. intros _. subst s'. simpl. congruence.
    + eapply msim_bind; [apply msim_now|]. intros t ? <-. apply msim_ret.
      constructor; try done; cbn; [|rewrite orb_true_r; symmetry; exact Hseen].
      by rewrite str_lower_app, last_bytes_app.
  - destruct (s_seen s) eqn:Hs; [|apply msim_ret, Hr; by rewrite Hseen].
    assert (Ho : s_observed_at s ≠ None) by by apply rel_dated0.
    unfold s_observed_now. cbn [s_observed_at s']. destruct (s_observed_at s) eqn:Ht; [|done].
    apply msim_ret, Hr. intros _. subst s'. simpl. congruence.
Qed.

Definition same_report (r : observed) (p : stream * report) : Prop :=
  related (ob_state r) p.1 ∧ (ob_observation r, ob_raised r) = p.2.

Lemma emit_related o s force :
  related o s → msim same_report (emit_if_classified o force) (s_emit s force).
Proof.
  intros H. eapply msim_bind; [by apply observed_related|]. clear o s H. intros o s H.
  apply msim_ret. pose proof H as [].
  rewrite rel_buffer0, rel_status0, rel_observed0. unfold s_window. rewrite classify_window.
  destruct (classify_http_failure _ _ _) as [failure|e]; [|done].
  rewrite rel_signature0. destruct (_ || _ || _); [done|]. split; [by constructor|done].
Qed.

Lemma may_contain_related o s : related o s → may_contain_failure o = s_may_contain s.
Proof. intros []. unfold may_contain_failure, s_may_contain. by rewrite rel_status0, rel_buffer0, rel_seen0. Qed.

Lemma step_related o s c : related o s → msim same_report (observer_step o c) (stream_step s c).
Proof.
  intros H. destruct c as [data|]; [|by apply emit_related].
  cbn [observer_step stream_step]. unfold feed, s_feed.
  destruct (data =s? ""); [by apply msim_ret|].
  eapply msim_bind; [by apply see_status_related, absorb_related|]. clear o s H. intros o s H.
  eapply msim_bind; [by apply see_markers_related|]. clear o s H. intros o s H.
  rewrite (may_contain_related o s H). destruct (s_may_contain s); [by apply emit_related|].
  by apply msim_ret.
Qed.

Lemma run_related calls : ∀ o s, related o s →
  msim (λ a b, related a.1 b.1 ∧ a.2 = b.2) (run_observer o calls) (run_stream s calls).
Proof.
  induction calls as [|c calls IH]; intros o s H; [by apply msim_ret|].
  eapply msim_bind; [by apply step_related|]. intros r [s' p] [Hr Hp]. cbn in Hp, Hr.
  eapply msim_bind; [by apply IH|]. intros [o2 reports] [s2 reports'] [H2 [= <-]].
  apply msim_ret. split; [done|]. cbn. by rewrite Hp.
Qed.

Lemma new_related : related new_observer new_stream.
Proof. by constructor. Qed.

