(* ===== verification/Broker.v ===== *)
(** * The tunnel broker ([local/cloudx_local/broker.py])

    The server that owns one SSH tunnel, its leases and its restart policy, and the relay
    that forwards the bytes of a connection past the observer of [ApiFailure].  The state
    is the server object; the environment supplies the clocks, the processes, the ports
    and the requests.  A method that raises keeps what it has assigned so far. *)

From S2P Require Import Prelude PyStr PyFloat PyValue PyTime PyJson FS CpaRecords ApiFailure.

Definition MAX_CONTROL_BYTES : Z := 64 * 1024.

(** ** State and environment

    Monotonic times and delays are in microseconds. *)

Record tunnel_spec := TunnelSpec {
  ts_ssh_host : string; ts_forward_host : string; ts_forward_port : Z }.
#[global] Instance tunnel_spec_eq_dec : EqDecision tunnel_spec.
Proof. solve_decision. Defined.

Record lease := Lease { l_owner_pid : Z; l_acquired_at : Z }.

Record broker := Broker {
  b_relay : option Z;              (* the public port of the relay *)
  b_backend : option Z;            (* its backend port *)
  b_ssh : option Z;                (* the pid of the SSH process *)
  b_spec : option tunnel_spec;
  b_leases : gmap string lease;
  b_last_release : Z;
  b_generation : Z;
  b_stop_requested : bool;
  b_next_restart_at : Z;
  b_restart_delay : Z;
  b_unavailable_since : option Z;
  b_last_reconnect : option Z;     (* milliseconds *)
  b_last_failure : option dict;
  b_last_failure_at : option Z }.

Definition new_broker (now : Z) : broker :=
  Broker None None None None ∅ now 0 false 0 US None None None None.

(** One turn of the wait for a new tunnel: the process has ended, or the connection is
    refused, or it is accepted.  The list of attempts ends with the deadline. *)
Inductive attempt := Exited (code : Z) | Refused | Connected.
Inductive spawn := NotFound | SpawnError | Spawned (pid : Z) (attempts : list attempt).
Inductive received := Chunk (data : string) | RecvError.

Record benv := BEnv {
  monotonic : nat → Z;
  wall_time : nat → Z;
  pid_exists : nat → Z → bool;
  running : nat → Z → bool;                  (* [process.poll() is None] *)
  spawned : nat → tunnel_spec → spawn;
  listener_port : nat → option Z;            (* [None]: no port could be bound *)
  backend_port : nat → option Z;
  state_write : nat → bool;                  (* [false]: the state file is not written *)
  incoming : nat → option (list received);   (* [None]: the accept timed out *)
  self_pid : Z }.

Record bworld := BWorld { bw_state : broker; bw_tick : nat; bw_published : option dict }.

Definition B (A : Type) : Type := benv → bworld → res A * bworld.
Definition bret {A} (a : A) : B A := λ _ w, (Ok a, w).
Definition bthrow {A} (e : exn) : B A := λ _ w, (Raise e, w).
Definition braise {A} (c : exn_class) (msg : string) : B A := bthrow (Exn c "" msg).
Definition bbind {A C} (m : B A) (k : A → B C) : B C :=
  λ E w, match m E w with (Ok a, w') => k a E w' | (Raise e, w') => (Raise e, w') end.
Notation "'do!' x := m 'in' k" := (bbind m (λ x, k))
  (at level 10, x pattern, m at level 200, k at level 200) : cloudx_scope.
Notation "m ;>> k" := (bbind m (λ _, k)) (at level 100, right associativity) : cloudx_scope.
Definition blift {A} (r : res A) : B A := λ _ w, (r, w).
Definition btry {A} (m : B A) (cs : list exn_class) (h : exn → B A) : B A :=
  λ E w, match m E w with
         | (Raise e, w') =>
             if existsb (λ c, catches c (exn_cls e)) cs then h e E w' else (Raise e, w')
         | r => r
         end.
Definition bget : B broker := λ _ w, (Ok (bw_state w), w).
Definition bmodify (f : broker → broker) : B unit :=
  λ _ w, (Ok tt, BWorld (f (bw_state w)) (bw_tick w) (bw_published w)).
(** One question to the environment. *)
Definition ask {A} (q : benv → nat → A) : B A :=
  λ E w, (Ok (q E (bw_tick w)), BWorld (bw_state w) (S (bw_tick w)) (bw_published w)).

(** ** Updates of the attributes *)

Definition set_relay p b := Broker p (b_backend b) (b_ssh b) (b_spec b) (b_leases b) (b_last_release b)
  (b_generation b) (b_stop_requested b) (b_next_restart_at b) (b_restart_delay b)
  (b_unavailable_since b) (b_last_reconnect b) (b_last_failure b) (b_last_failure_at b).
(** [relay.set_backend(port)], when there is a relay. *)
Definition set_backend p b := Broker (b_relay b)
  (match b_relay b with Some _ => p | None => b_backend b end) (b_ssh b) (b_spec b) (b_leases b)
  (b_last_release b) (b_generation b) (b_stop_requested b) (b_next_restart_at b) (b_restart_delay b)
  (b_unavailable_since b) (b_last_reconnect b) (b_last_failure b) (b_last_failure_at b).
Definition set_ssh p b := Broker (b_relay b) (b_backend b) p (b_spec b) (b_leases b) (b_last_release b)
  (b_generation b) (b_stop_requested b) (b_next_restart_at b) (b_restart_delay b)
  (b_unavailable_since b) (b_last_reconnect b) (b_last_failure b) (b_last_failure_at b).
Definition set_spec s b := Broker (b_relay b) (b_backend b) (b_ssh b) s (b_leases b) (b_last_release b)
  (b_generation b) (b_stop_requested b) (b_next_restart_at b) (b_restart_delay b)
  (b_unavailable_since b) (b_last_reconnect b) (b_last_failure b) (b_last_failure_at b).
Definition set_leases l b := Broker (b_relay b) (b_backend b) (b_ssh b) (b_spec b) l (b_last_release b)
  (b_generation b) (b_stop_requested b) (b_next_restart_at b) (b_restart_delay b)
  (b_unavailable_since b) (b_last_reconnect b) (b_last_failure b) (b_last_failure_at b).
Definition set_last_release t b := Broker (b_relay b) (b_backend b) (b_ssh b) (b_spec b) (b_leases b) t
  (b_generation b) (b_stop_requested b) (b_next_restart_at b) (b_restart_delay b)
  (b_unavailable_since b) (b_last_reconnect b) (b_last_failure b) (b_last_failure_at b).
Definition set_stop b := Broker (b_relay b) (b_backend b) (b_ssh b) (b_spec b) (b_leases b)
  (b_last_release b) (b_generation b) true (b_next_restart_at b) (b_restart_delay b)
  (b_unavailable_since b) (b_last_reconnect b) (b_last_failure b) (b_last_failure_at b).
Definition set_restart next delay b := Broker (b_relay b) (b_backend b) (b_ssh b) (b_spec b) (b_leases b)
  (b_last_release b) (b_generation b) (b_stop_requested b) next delay
  (b_unavailable_since b) (b_last_reconnect b) (b_last_failure b) (b_last_failure_at b).
Definition set_unavailable t b := Broker (b_relay b) (b_backend b) (b_ssh b) (b_spec b) (b_leases b)
  (b_last_release b) (b_generation b) (b_stop_requested b) (b_next_restart_at b) (b_restart_delay b)
  t (b_last_reconnect b) (b_last_failure b) (b_last_failure_at b).
Definition set_failure f t b := Broker (b_relay b) (b_backend b) (b_ssh b) (b_spec b) (b_leases b)
  (b_last_release b) (b_generation b) (b_stop_requested b) (b_next_restart_at b) (b_restart_delay b)
  (b_unavailable_since b) (b_last_reconnect b) f t.

(** [self.generation += 1] and the time the outage took. *)
Definition next_generation b := Broker (b_relay b) (b_backend b) (b_ssh b) (b_spec b) (b_leases b)
  (b_last_release b) (b_generation b + 1) (b_stop_requested b) (b_next_restart_at b) (b_restart_delay b)
  (b_unavailable_since b) (b_last_reconnect b) (b_last_failure b) (b_last_failure_at b).
Definition set_reconnect now b := Broker (b_relay b) (b_backend b) (b_ssh b) (b_spec b) (b_leases b)
  (b_last_release b) (b_generation b) (b_stop_requested b) (b_next_restart_at b) (b_restart_delay b)
  None (match b_unavailable_since b with
        | Some since => Some (Z.max 0 ((now - since) / 1000))
        | None => b_last_reconnect b
        end) (b_last_failure b) (b_last_failure_at b).

(** ** Processes *)

Definition poll_running (pid : Z) : B bool := ask (λ E n, running E n pid).
Definition monotonic_now : B Z := ask (λ E n, monotonic E n).

(** [os.kill(pid, 0)]: a pid that no C int holds raises. *)
Definition pid_alive (pid : Z) : B bool :=
  if pid <=? 0 then bret false
  else if 2147483647 <? pid then braise OverflowError "signed integer is greater than maximum"
  else ask (λ E n, pid_exists E n pid).

(** The pid of the SSH process while it runs. *)
Definition ssh_pid : B json :=
  do! b := bget in
  match b_ssh b with
  | Some pid => do! alive := poll_running pid in bret (if alive then JInt pid else JNull)
  | None => bret JNull
  end.

Definition spec_json (f : tunnel_spec → json) (b : broker) : json :=
  match b_spec b with Some s => f s | None => JNull end.
Definition state_document (E_pid : Z) (pid : json) (b : broker) : dict :=
  [("schema", JStr "cloudx.tunnel-broker.v1"); ("pid", JInt E_pid);
   ("publicPort", opt_int (b_relay b)); ("sshPid", pid); ("generation", JInt (b_generation b));
   ("lastReconnectMilliseconds", opt_int (b_last_reconnect b));
   ("leases", JInt (Z.of_nat (size (b_leases b))));
   ("sshHost", spec_json (λ s, JStr (ts_ssh_host s)) b);
   ("forwardHost", spec_json (λ s, JStr (ts_forward_host s)) b);
   ("forwardPort", spec_json (λ s, JInt (ts_forward_port s)) b)].

Definition write_state : B unit :=
  do! pid := ssh_pid in
  do! me := ask (λ E _, self_pid E) in
  do! written := ask (λ E n, state_write E n) in
  if written then
    λ _ w, (Ok tt, BWorld (bw_state w) (bw_tick w) (Some (state_document me pid (bw_state w))))
  else braise OSError "state file could not be written".

Definition last_release_now : B unit :=
  do! now := monotonic_now in bmodify (set_last_release now).

(** ** Starting and stopping the tunnel *)

(** The body of the connected branch; the whole of it runs under the handler that
    takes an [OSError] for a refused connection. *)
Definition tunnel_up (pid port : Z) : B unit :=
  bmodify (λ b, next_generation (set_backend (Some port) (set_ssh (Some pid) b))) ;>>
  do! b := bget in
  (match b_unavailable_since b with
   | Some _ => do! now := monotonic_now in bmodify (set_reconnect now)
   | None => bret tt
   end) ;>>
  bmodify (set_restart 0 US) ;>>
  write_state.

Fixpoint wait_ready (pid port : Z) (attempts : list attempt) : B unit :=
  match attempts with
  | [] => braise RuntimeError "SSH tunnel did not become ready within 20 seconds"
  | Exited code :: _ =>
      braise RuntimeError ("SSH tunnel exited during startup with code " +:+ str_of_Z code)
  | Refused :: attempts => wait_ready pid port attempts
  | Connected :: attempts =>
      btry (tunnel_up pid port) [OSError] (λ _, wait_ready pid port attempts)
  end.

(** [if self.relay is None: self.relay = TcpRelay(...)]. *)
Definition ensure_relay : B unit :=
  do! b := bget in
  match b_relay b with
  | Some _ => bret tt
  | None =>
      do! port := ask (λ E n, listener_port E n) in
      match port with
      | Some p => bmodify (set_relay (Some p))
      | None => braise RuntimeError "could not allocate a Cloudx tunnel broker port"
      end
  end.

Definition start_ssh : B unit :=
  do! b := bget in
  match b_spec b with
  | None => braise RuntimeError "tunnel specification is missing"
  | Some spec =>
      ensure_relay ;>>
      do! port := ask (λ E n, backend_port E n) in
      match port with
      | None => braise OSError "no backend port"
      | Some port =>
          bmodify (set_backend None) ;>>
          do! process := ask (λ E n, spawned E n spec) in
          match process with
          | NotFound => braise RuntimeError "ssh executable was not found"
          | SpawnError => braise OSError "ssh could not be started"
          | Spawned pid attempts => wait_ready pid port attempts
          end
      end
  end.

(** [process.terminate] and [kill] leave no trace in the state of the server. *)
Definition stop_ssh : B unit :=
  do! b := bget in
  bmodify (λ b, set_backend None (set_ssh None b)) ;>>
  match b_ssh b with
  | Some pid => do! _ := poll_running pid in bret tt
  | None => bret tt
  end.

Definition ensure_ssh : B unit :=
  do! b := bget in
  do! alive := (match b_ssh b with Some pid => poll_running pid | None => bret false end) in
  if alive then bret tt
  else bmodify (λ b, set_backend None (set_ssh None b)) ;>> start_ssh.

(** ** Leases and restarts *)

Fixpoint stale_leases (l : list (string * lease)) : B (list string) :=
  match l with
  | [] => bret []
  | (id, lease) :: l =>
      do! alive := pid_alive (l_owner_pid lease) in
      do! stale := stale_leases l in
      bret (if alive then stale else id :: stale)
  end.

Definition drop_leases (ids : list string) (b : broker) : broker :=
  set_leases (fold_right delete (b_leases b) ids) b.

Definition reap_leases : B unit :=
  do! b := bget in
  do! stale := stale_leases (map_to_list (b_leases b)) in
  bmodify (drop_leases stale) ;>>
  do! b := bget in
  match stale with
  | [] => bret tt
  | _ => (if bool_decide (b_leases b = ∅) then last_release_now else bret tt) ;>> write_state
  end.

Definition MAX_RESTART_DELAY : Z := 20 * US.
(** [next_restart_at = monotonic() + delay], and the delay doubles up to its limit. *)
Definition back_off (now : Z) (b : broker) : broker :=
  set_restart (now + b_restart_delay b) (Z.min MAX_RESTART_DELAY (b_restart_delay b * 2)) b.

Definition tunnel_died (now : Z) (b : broker) : broker :=
  back_off now (set_unavailable (match b_unavailable_since b with Some t => Some t | None => Some now end) b).

Definition notice_exit : B unit :=
  do! b := bget in
  match b_ssh b with
  | None => bret tt
  | Some pid =>
      do! alive := poll_running pid in
      if alive then bret tt
      else
        bmodify (λ b, set_backend None (set_ssh None b)) ;>>
        do! now := monotonic_now in
        bmodify (tunnel_died now) ;>>
        write_state
  end.

Definition restart_tunnel : B unit :=
  do! b := bget in
  if negb (bool_decide (b_leases b = ∅)) && bool_decide (b_ssh b = None) then
    do! now := monotonic_now in
    if b_next_restart_at b <=? now then
      btry start_ssh [RuntimeError] (λ _, do! now := monotonic_now in bmodify (back_off now))
    else bret tt
  else bret tt.

Definition maintain_tunnel : B unit := notice_exit ;>> restart_tunnel.

(** ** Requests *)

(** [uuid.UUID(text)]: prefixes, braces and dashes are dropped, and the 32 characters
    that are left are a number that [int(..., 16)] reads; no minus sign is left. *)
Fixpoint remove_all (fuel : nat) (sub s : string) : string :=
  match fuel with
  | O => s
  | S fuel => match split_once sub s with Some (a, b) => a +:+ remove_all fuel sub b | None => s end
  end.
Definition hex_value (c : ascii) : bool := is_digit c || in_range 97 102 c || in_range 65 70 c.
Fixpoint hex_digits (after_digit : bool) (s : string) : bool :=
  match s with
  | EmptyString => after_digit
  | String c s =>
      if hex_value c then hex_digits true s
      else if Ascii.eqb c "_" && after_digit then hex_digits false s else false
  end.
Definition hex_prefixed (s : string) : bool :=
  if starts_with "0x" s || starts_with "0X" s
  then let r := str_drop 2 s in
       if starts_with "_" r then hex_digits false (str_drop 1 r) else hex_digits false r
  else hex_digits false s.
Definition hex_number (s : string) : bool :=
  let t := strip s in
  match t with
  | String c r =>
      if Ascii.eqb c "+" then hex_prefixed r else hex_prefixed t
  | EmptyString => false
  end.
Definition valid_uuid (text : string) : bool :=
  let hex := remove_all (String.length text) "uuid:" (remove_all (String.length text) "urn:" text) in
  let hex := str_filter (λ c, negb (Ascii.eqb c "-")) (strip_by (λ c, Ascii.eqb c "{" || Ascii.eqb c "}") hex) in
  Nat.eqb (ulen hex) 32 && hex_number hex.

(** The checks of an [acquire] request: its lease, its owner and its endpoint. *)
Definition checked_acquire (request : dict) : B (string * Z * tunnel_spec) :=
  let lease_id := str_or_empty (dget "leaseId" request) in
  do! owner_pid := blift (py_int (py_or (dget "ownerPid" request) (JInt 0))) in
  let ssh_host := strip (str_or_empty (dget "sshHost" request)) in
  let forward_host := strip (str_or_empty (dget "forwardHost" request)) in
  do! forward_port := blift (py_int (py_or (dget "forwardPort" request) (JInt 0))) in
  if negb (valid_uuid lease_id) then braise RuntimeError "invalid tunnel lease identifier" else
  do! alive := pid_alive owner_pid in
  if negb alive then braise RuntimeError "tunnel lease owner is not running" else
  if (ssh_host =s? "") || (forward_host =s? "") || negb ((1 <=? forward_port) && (forward_port <=? 65535))
  then braise RuntimeError "invalid tunnel specification" else
  let requested := TunnelSpec ssh_host forward_host forward_port in
  do! b := bget in
  if negb (bool_decide (b_spec b = None)) && negb (bool_decide (b_spec b = Some requested)) &&
     negb (bool_decide (b_leases b = ∅))
  then braise RuntimeError "active tunnel leases use a different remote endpoint"
  else bret (lease_id, owner_pid, requested).

(** [if requested != self.spec: self._stop_ssh(); self.spec = requested]. *)
Definition select_endpoint (requested : tunnel_spec) : B unit :=
  do! b := bget in
  if bool_decide (b_spec b = Some requested) then bret tt
  else stop_ssh ;>> bmodify (set_spec (Some requested)).

Definition grant_lease (lease_id : string) (owner_pid acquired_at : Z) (b : broker) : broker :=
  set_leases (<[lease_id := Lease owner_pid acquired_at]> (b_leases b)) b.

Definition acquire (request : dict) : B dict :=
  do! (lease_id, owner_pid, requested) := checked_acquire request in
  select_endpoint requested ;>>
  ensure_ssh ;>>
  do! acquired_at := ask (λ E n, wall_time E n) in
  bmodify (grant_lease lease_id owner_pid acquired_at) ;>>
  write_state ;>>
  do! b := bget in
  bret [("ok", JBool true); ("leaseId", JStr lease_id); ("publicPort", opt_int (b_relay b));
        ("generation", JInt (b_generation b))].

Definition release (request : dict) : B dict :=
  let lease_id := str_or_empty (dget "leaseId" request) in
  bmodify (λ b, set_leases (delete lease_id (b_leases b)) b) ;>>
  do! b := bget in
  (if bool_decide (b_leases b = ∅) then last_release_now else bret tt) ;>>
  write_state ;>>
  bret [("ok", JBool true); ("leases", JInt (Z.of_nat (size (b_leases b))))].

Definition opt_dict (d : option dict) : json := match d with Some d => JDict d | None => JNull end.
Definition status : B dict :=
  do! me := ask (λ E _, self_pid E) in
  do! pid := ssh_pid in
  do! b := bget in
  bret [("ok", JBool true); ("running", JBool true); ("pid", JInt me);
        ("publicPort", opt_int (b_relay b)); ("sshPid", pid); ("generation", JInt (b_generation b));
        ("lastReconnectMilliseconds", opt_int (b_last_reconnect b));
        ("leases", JInt (Z.of_nat (size (b_leases b))));
        ("lastApiFailure", opt_dict (b_last_failure b))].

Definition response (request : dict) : B dict :=
  let command := dget "command" request in
  if eq_str command "ping" then
    do! me := ask (λ E _, self_pid E) in bret [("ok", JBool true); ("pid", JInt me)]
  else if eq_str command "status" then status
  else if eq_str command "acquire" then acquire request
  else if eq_str command "release" then release request
  else if eq_str command "shutdown" then
    do! b := bget in
    if negb (bool_decide (b_leases b = ∅))
    then braise RuntimeError "cannot stop the tunnel broker while leases are active"
    else bmodify set_stop ;>> bret [("ok", JBool true)]
  else braise RuntimeError "unsupported tunnel broker command".

(** The bytes of a request: until its newline, the end of the stream or the limit. *)
Fixpoint read_request (raw : string) (chunks : list received) : res string :=
  if MAX_CONTROL_BYTES <? str_len raw then Ok raw
  else match chunks with
       | [] => Ok raw
       | RecvError :: _ => raise OSError "timed out"
       | Chunk data :: chunks =>
           if data =s? "" then Ok raw
           else if contains LF data then Ok (raw +:+ data)
           else read_request (raw +:+ data) chunks
       end.

Definition refused (message : string) : dict := [("ok", JBool false); ("error", JStr message)].

Definition serve_connection (chunks : list received) : B dict :=
  btry
    (do! raw := blift (read_request "" chunks) in
     if MAX_CONTROL_BYTES <? str_len raw
     then braise RuntimeError "tunnel broker request is too large" else
     do! request := blift (loads_bytes raw) in
     match request with
     | JDict request => response request
     | _ => braise RuntimeError "tunnel broker request must be an object"
     end)
    [ValueError; OSError; RuntimeError] (λ e, bret (refused (exn_msg e))).

(** One turn of the loop of [serve]; [false] when the loop ends. *)
Definition serve_turn (idle_us : Z) : B bool :=
  do! b := bget in
  if b_stop_requested b then bret false else
  reap_leases ;>>
  maintain_tunnel ;>>
  do! b := bget in
  do! idle := (if bool_decide (b_leases b = ∅)
               then do! now := monotonic_now in bret (idle_us <=? now - b_last_release b)
               else bret false) in
  if idle then bret false else
  do! connection := ask (λ E n, incoming E n) in
  match connection with
  | None => bret true
  | Some chunks => do! _ := serve_connection chunks in bret true
  end.

(** The loop, for at most [fuel] turns; [true] when it is still serving. *)
Fixpoint serve_turns (fuel : nat) (idle_us : Z) : B bool :=
  match fuel with
  | O => bret true
  | S fuel => do! more := serve_turn idle_us in if more then serve_turns fuel idle_us else bret false
  end.

(** ** Failures of the gateway *)

Definition record_api_failure (observation : dict) : B unit :=
  let cause := str_or_empty (dget "cause" observation) in
  if cause =s? "" then bret tt else
  do! now := monotonic_now in
  do! b := bget in
  do! masked :=
    (if cause =s? CAUSE_NO_USABLE_ACCOUNTS then
       match b_last_failure b, b_last_failure_at b with
       | Some previous, at_ =>
           do! definitive := blift (in_set (dget "cause" previous) DEFINITIVE_ACCOUNT_CAUSES) in
           bret (definitive && match at_ with
                               | Some previous_at => now - previous_at <=? ROOT_CAUSE_WINDOW_SECONDS * US
                               | None => false
                               end)
       | None, _ => bret false
       end
     else bret false) in
  bmodify (λ b,
    if masked then
      set_failure (option_map (dset "maskedBy" (JStr CAUSE_NO_USABLE_ACCOUNTS)) (b_last_failure b))
        (b_last_failure_at b) b
    else set_failure (Some observation) (Some now) b).

(** ** The relay

    [_pump] with an observer: each chunk is sent before it is observed, an [OSError] ends
    the loop quietly, and the observer is closed before the client is told the end. *)

Record pumped := Pumped {
  pu_sent : list string; pu_observations : list dict; pu_shutdown : bool; pu_raised : option exn }.

Definition noted (observations : list dict) (r : observed) : list dict :=
  match ob_observation r with Some d => observations ++ [d] | None => observations end.

Fixpoint pump_loop (o : observer) (sent : list string) (observations : list dict) (l : list received)
    : M (observer * list string * list dict * option exn) :=
  match l with
  | [] | RecvError :: _ => ret (o, sent, observations, None)
  | Chunk data :: l =>
      if data =s? "" then ret (o, sent, observations, None) else
      let! delivered := try_with (sys ;; ret true) (except [OSError] (λ _, ret false)) in
      if negb delivered then ret (o, sent, observations, None) else
      let! r := feed o data in
      match ob_raised r with
      | None => pump_loop (ob_state r) (sent ++ [data]) (noted observations r) l
      | Some e =>
          ret (ob_state r, sent ++ [data], noted observations r,
               if catches OSError (exn_cls e) then None else Some e)
      end
  end.

Definition pump (l : list received) : M pumped :=
  let! (o, sent, observations, raised) := pump_loop new_observer [] [] l in
  let! r := close o in
  ret (match ob_raised r with
       | Some e => Pumped sent (noted observations r) false (Some e)
       | None => Pumped sent (noted observations r) true raised
       end).
