(* ===== verification/BrokerFacts.v ===== *)
(** * The broker keeps its tunnel

    What every call of the server leaves alone, the invariant of its state, the recovery
    of a lost tunnel, the root cause kept past a masking failure, and what the relay
    forwards. *)

From S2P Require Import Prelude PyStr PyFloat PyValue PyTime PyJson FS Wp CpaRecords ApiFailure.
From S2P Require Import Broker.

(** ** Rules *)

Definition bwp {A} (m : B A) (E : benv) (w : bworld) (Φ : res A → bworld → Prop) : Prop :=
  Φ (m E w).1 (m E w).2.

Lemma bwp_bind {A C} (m : B A) (c : A → B C) E w (Φ : res C → bworld → Prop) :
  bwp m E w (λ r w', match r with Ok a => bwp (c a) E w' Φ | Raise e => Φ (Raise e) w' end) →
  bwp (bbind m c) E w Φ.
Proof. unfold bwp, bbind. by destruct (m E w) as [[a|e] w']. Qed.

Lemma bwp_mono {A} (m : B A) E w (Φ Ψ : res A → bworld → Prop) :
  bwp m E w Φ → (∀ r w', Φ r w' → Ψ r w') → bwp m E w Ψ.
Proof. unfold bwp. auto. Qed.

Lemma bwp_try {A} (m : B A) cs h E w (Φ : res A → bworld → Prop) :
  bwp m E w (λ r w', match r with
                     | Ok a => Φ (Ok a) w'
                     | Raise e => (Φ (Raise e) w' ∧ bwp (h e) E w' Φ)
                     end) →
  bwp (btry m cs h) E w Φ.
Proof.
  unfold bwp, btry. destruct (m E w) as [[a|e] w']; simpl; [done|]. intros [H1 H2].
  by destruct (existsb _ cs).
Qed.

(** The condition of a state whose latest reading of the clock was at its tick. *)
Record sound (E : benv) (w : bworld) : Prop := {
  so_delay : US <= b_restart_delay (bw_state w) <= MAX_RESTART_DELAY;
  so_next : b_next_restart_at (bw_state w) <= Z.max 0 (monotonic E (bw_tick w) + MAX_RESTART_DELAY);
  so_generation : 0 <= b_generation (bw_state w);
  so_backend : b_backend (bw_state w) ≠ None →
    b_ssh (bw_state w) ≠ None ∧ b_relay (bw_state w) ≠ None }.

(** The states before and after every end of a computation are related. *)
Definition via {A} (E : benv) (R : bworld → bworld → Prop) (m : B A) : Prop :=
  ∀ w, R w (m E w).2.

Section via.
Context (E : benv) (R : bworld → bworld → Prop) `{!PreOrder R}.

Lemma via_ret {A} (a : A) : via E R (bret a).
Proof using All. intros w. reflexivity. Qed.
Lemma via_throw {A} e : via E R (@bthrow A e).
Proof using All. intros w. reflexivity. Qed.
Lemma via_raise {A} c msg : via E R (@braise A c msg).
Proof using All. intros w. reflexivity. Qed.
Lemma via_lift {A} (r : res A) : via E R (blift r).
Proof using All. intros w. reflexivity. Qed.
Lemma via_get : via E R bget.
Proof using All. intros w. reflexivity. Qed.
Lemma via_bind {A C} (m : B A) (k : A → B C) : via E R m → (∀ a, via E R (k a)) → via E R (bbind m k).
Proof using All.
  intros Hm Hk w. specialize (Hm w). unfold bbind. destruct (m E w) as [[a|e] w1]; [|done].
  etransitivity; [exact Hm|]. apply Hk.
Qed.
Lemma via_try {A} (m : B A) cs h : via E R m → (∀ e, via E R (h e)) → via E R (btry m cs h).
Proof using All.
  intros Hm Hh w. specialize (Hm w). unfold btry. destruct (m E w) as [[a|e] w1]; [done|].
  destruct (existsb _ cs); [|done]. etransitivity; [exact Hm|]. apply Hh.
Qed.
Lemma via_modify f :
  (∀ w, R w (BWorld (f (bw_state w)) (bw_tick w) (bw_published w))) → via E R (bmodify f).
Proof. intros H w. apply H. Qed.
(** A computation that starts by reading the state. *)
Lemma via_read {A} (k : broker → B A) :
  (∀ w, R w (k (bw_state w) E w).2) → via E R (bbind bget k).
Proof. intros H w. apply H. Qed.
Lemma via_assoc {A C D} (m : B A) (f : A → B C) (k : B D) :
  via E R (bbind (bbind m f) (λ _, k)) → via E R (bbind m (λ a, bbind (f a) (λ _, k))).
Proof. intros H w. specialize (H w). unfold bbind in *. by destruct (m E w) as [[]]. Qed.
Lemma bwp_via {A} (m : B A) w (Φ : res A → bworld → Prop) :
  via E R m → (∀ r w', R w w' → Φ r w') → bwp m E w Φ.
Proof. intros Hm H. apply H, Hm. Qed.
End via.

Ltac vbind := eapply via_bind; [typeclasses eauto| |].
Ltac vtry := eapply via_try; [typeclasses eauto| |].
Ltac vdone := first [apply via_ret|apply via_throw|apply via_raise|apply via_lift|apply via_get];
  typeclasses eauto.

Section frames.
Context (E : benv) (Hclock : ∀ i j, (i <= j)%nat → monotonic E i <= monotonic E j).

(** What the calls that start, stop and watch the tunnel leave alone. *)
Record frame (w w' : bworld) : Prop := {
  fr_tick : (bw_tick w <= bw_tick w')%nat;
  fr_spec : b_spec (bw_state w') = b_spec (bw_state w);
  fr_leases : b_leases (bw_state w') = b_leases (bw_state w);
  fr_stop : b_stop_requested (bw_state w') = b_stop_requested (bw_state w);
  fr_failure : b_last_failure (bw_state w') = b_last_failure (bw_state w);
  fr_failure_at : b_last_failure_at (bw_state w') = b_last_failure_at (bw_state w);
  fr_relay : ∀ p, b_relay (bw_state w) = Some p → b_relay (bw_state w') = Some p;
  fr_sound : sound E w → sound E w' }.

#[export] Instance frame_preorder : PreOrder frame.
Proof using Type.
  clear Hclock. split; [intros w; by constructor|]. intros w1 w2 w3 [] [].
  constructor; try congruence; auto. lia.
Qed.

Lemma framed_ask {A} (q : benv → nat → A) : via E frame (ask q).
Proof using Hclock.
  intros w. constructor; try done; simpl; [lia|]. intros []. constructor; try done. simpl.
  pose proof (Hclock (bw_tick w) (S (bw_tick w)) ltac:(lia)). lia.
Qed.

(** A reading of the clock and an update with it. *)
Lemma framed_clock (f : Z → broker → broker) :
  (∀ w now, (∃ k, (k <= bw_tick w)%nat ∧ now = monotonic E k) →
     frame w (BWorld (f now (bw_state w)) (bw_tick w) (bw_published w))) →
  via E frame (do! now := monotonic_now in bmodify (f now)).
Proof using Hclock.
  intros H w. unfold monotonic_now, bbind, ask, bmodify. cbn.
  etransitivity; [exact (framed_ask (λ E n, monotonic E n) w)|].
  apply (H (BWorld (bw_state w) (S (bw_tick w)) (bw_published w))).
  exists (bw_tick w). split; [simpl; lia|done].
Qed.
End frames.

Ltac framed_tac :=
  repeat match goal with
  | |- via _ _ (bbind _ _) => vbind; [|intros ?]
  | |- via _ _ (btry _ _ _) => vtry; [|intros ?]
  | |- via _ _ (match ?x with _ => _ end) => destruct x
  | |- via _ _ (ask _) => by apply framed_ask
  | |- via _ _ _ => vdone
  end.
(** The update changes attributes that the condition and the frame do not mention, or
    does so harmlessly. *)
Ltac framed_modify_tac :=
  apply via_modify; intros w; constructor; simpl; try done;
  try (intros []; constructor; simpl in *; try done; try lia; try naive_solver).

Section calls.
Context (E : benv) (Hclock : ∀ i j, (i <= j)%nat → monotonic E i <= monotonic E j).

Lemma framed_poll pid : via E (frame E) (poll_running pid).
Proof using Hclock. unfold poll_running. framed_tac. Qed.
Lemma framed_monotonic : via E (frame E) monotonic_now.
Proof using Hclock. unfold monotonic_now. framed_tac. Qed.
Lemma framed_ssh_pid : via E (frame E) ssh_pid.
Proof using Hclock. unfold ssh_pid. framed_tac. all: apply framed_poll. Qed.
Lemma framed_write_state : via E (frame E) write_state.
Proof using Hclock.
  unfold write_state. framed_tac; [apply framed_ssh_pid|]. intros w. constructor; try done.
  by intros [].
Qed.

Lemma framed_set_backend_up pid port :
  via E (frame E) (bmodify (λ b, next_generation (set_backend (Some port) (set_ssh (Some pid) b)))).
Proof.
  framed_modify_tac. destruct (b_relay (bw_state w)); naive_solver.
Qed.
Lemma framed_set_reconnect : via E (frame E) (do! now := monotonic_now in bmodify (set_reconnect now)).
Proof using Hclock.
  apply framed_clock; [done|]. intros w now _. constructor; simpl; try done.
  intros []. by constructor.
Qed.
Lemma framed_reset_restart : via E (frame E) (bmodify (set_restart 0 US)).
Proof. framed_modify_tac. Qed.
Lemma framed_down : via E (frame E) (bmodify (λ b, set_backend None (set_ssh None b))).
Proof. framed_modify_tac. destruct (b_relay (bw_state w)); naive_solver. Qed.
Lemma framed_backend_none : via E (frame E) (bmodify (set_backend None)).
Proof. framed_modify_tac. destruct (b_relay (bw_state w)); naive_solver. Qed.
Lemma framed_back_off : via E (frame E) (do! now := monotonic_now in bmodify (back_off now)).
Proof using Hclock.
  apply framed_clock; [done|]. intros w now (k & Hk & ->). constructor; simpl; try done.
  intros []. constructor; simpl; try done; unfold MAX_RESTART_DELAY, US in *; [lia|].
  pose proof (Hclock k (bw_tick w) Hk). lia.
Qed.

Lemma framed_tunnel_up pid port : via E (frame E) (tunnel_up pid port).
Proof using Hclock.
  unfold tunnel_up. vbind; [apply framed_set_backend_up|intros _].
  vbind; [vdone|intros b]. vbind.
  { destruct (b_unavailable_since b); [apply framed_set_reconnect|vdone]. }
  intros _. vbind; [apply framed_reset_restart|intros _]. apply framed_write_state.
Qed.
Lemma framed_wait_ready pid port attempts : via E (frame E) (wait_ready pid port attempts).
Proof using Hclock.
  induction attempts as [|[]]; simpl; try vdone; [done|].
  vtry; [apply framed_tunnel_up|done].
Qed.
Lemma framed_ensure_relay : via E (frame E) ensure_relay.
Proof using Hclock.
  apply via_read. intros w. destruct (b_relay (bw_state w)) eqn:Hr; [reflexivity|].
  etransitivity; [exact (framed_ask E Hclock (λ E n, listener_port E n) w)|].
  unfold bbind, ask. cbn. destruct (listener_port E (bw_tick w)) as [port|]; [|reflexivity].
  constructor; simpl; try done; [by rewrite Hr|]. intros []. constructor; simpl in *; naive_solver.
Qed.
Lemma framed_start_ssh : via E (frame E) start_ssh.
Proof using Hclock.
  unfold start_ssh. framed_tac;
    first [apply framed_ensure_relay|apply framed_backend_none|apply framed_wait_ready].
Qed.

Lemma framed_stop_ssh : via E (frame E) stop_ssh.
Proof using Hclock. unfold stop_ssh. framed_tac; first [apply framed_down|apply framed_poll]. Qed.
Lemma framed_ensure_ssh : via E (frame E) ensure_ssh.
Proof using Hclock.
  unfold ensure_ssh. framed_tac; first [apply framed_poll|apply framed_down|apply framed_start_ssh].
Qed.

Lemma framed_died : via E (frame E) (do! now := monotonic_now in bmodify (tunnel_died now)).
Proof using Hclock.
  apply framed_clock; [done|]. intros w now (k & Hk & ->). constructor; simpl; try done.
  intros []. constructor; simpl; try done; unfold MAX_RESTART_DELAY, US in *; [lia|].
  pose proof (Hclock k (bw_tick w) Hk). lia.
Qed.
Lemma framed_maintain : via E (frame E) maintain_tunnel.
Proof using Hclock.
  unfold maintain_tunnel. vbind; [|intros _].
  - unfold notice_exit. vbind; [vdone|intros b].
    destruct (b_ssh b) as [pid|]; [|vdone].
    vbind; [apply framed_poll|intros []]; [vdone|].
    vbind; [apply framed_down|intros _]. apply via_assoc.
    vbind; [apply framed_died|intros _; apply framed_write_state].
  - unfold restart_tunnel. vbind; [vdone|intros b].
    destruct (_ && _); [|vdone].
    vbind; [apply framed_monotonic|intros now].
    destruct (_ <=? now); [|vdone].
    vtry; [apply framed_start_ssh|intros _; apply framed_back_off].
Qed.
End calls.

(** ** The calls that change leases and the endpoint *)

Definition leased (w : bworld) : Prop := b_leases (bw_state w) ≠ ∅ → b_spec (bw_state w) ≠ None.

Record step (E : benv) (w w' : bworld) : Prop := {
  st_tick : (bw_tick w <= bw_tick w')%nat;
  st_relay : ∀ p, b_relay (bw_state w) = Some p → b_relay (bw_state w') = Some p;
  st_sound : sound E w → sound E w';
  st_leased : leased w → leased w' }.

#[export] Instance step_preorder E : PreOrder (step E).
Proof.
  split; [intros w; by constructor|]. intros w1 w2 w3 [] []. constructor; auto. lia.
Qed.

Lemma frame_step E w w' : frame E w w' → step E w w'.
Proof. intros []. constructor; try done. unfold leased. by rewrite fr_leases0, fr_spec0. Qed.

(** What a request may do to the endpoint. *)
Record served (E : benv) (w w' : bworld) : Prop := {
  sv_step : step E w w';
  sv_endpoint : b_leases (bw_state w) ≠ ∅ → b_spec (bw_state w) ≠ None →
                b_spec (bw_state w') = b_spec (bw_state w);
  sv_stop : b_stop_requested (bw_state w') = true →
            b_stop_requested (bw_state w) = true ∨ b_leases (bw_state w') = ∅ }.

Lemma frame_served E w w' : frame E w w' → served E w w'.
Proof.
  intros H. constructor; [by apply frame_step| |]; destruct H; [done|]. rewrite fr_stop0. by left.
Qed.
Lemma served_refl E w : served E w w.
Proof. apply frame_served. reflexivity. Qed.

(** A change of leases, of the time of the last release or of the recorded failure. *)
Record tame (E : benv) (w w' : bworld) : Prop := {
  tm_step : step E w w';
  tm_spec : b_spec (bw_state w') = b_spec (bw_state w);
  tm_stop : b_stop_requested (bw_state w') = b_stop_requested (bw_state w) }.

#[export] Instance tame_preorder E : PreOrder (tame E).
Proof.
  split; [intros w; by constructor|]. intros w1 w2 w3 [] []. constructor; [by etransitivity|congruence..].
Qed.
Lemma frame_tame E w w' : frame E w w' → tame E w w'.
Proof. intros H. constructor; [by apply frame_step|by destruct H..]. Qed.
Lemma tame_served E w w' : tame E w w' → served E w w'.
Proof. intros []. constructor; [done|done|]. rewrite tm_stop0. by left. Qed.

Section requests.
Context (E : benv) (Hclock : ∀ i j, (i <= j)%nat → monotonic E i <= monotonic E j).

Lemma via_step {A} (m : B A) : via E (tame E) m → via E (step E) m.
Proof. intros H w. apply H. Qed.
Lemma via_tame {A} (m : B A) : via E (frame E) m → via E (tame E) m.
Proof. intros H w. apply frame_tame, H. Qed.

Lemma framed_pid_alive pid : via E (frame E) (pid_alive pid).
Proof using Hclock. unfold pid_alive. framed_tac. Qed.
Lemma framed_stale l : via E (frame E) (stale_leases l).
Proof using Hclock.
  induction l as [|[id l] ls IH]; simpl; [vdone|].
  vbind; [apply framed_pid_alive|intros a]. vbind; [done|intros stale]. vdone.
Qed.

Lemma tame_modify f :
  (∀ b, b_relay (f b) = b_relay b ∧ b_backend (f b) = b_backend b ∧ b_ssh (f b) = b_ssh b ∧
        b_spec (f b) = b_spec b ∧ b_generation (f b) = b_generation b ∧
        b_next_restart_at (f b) = b_next_restart_at b ∧ b_restart_delay (f b) = b_restart_delay b ∧
        b_stop_requested (f b) = b_stop_requested b) →
  (∀ b, b_leases b = ∅ → b_leases (f b) = ∅) → via E (tame E) (bmodify f).
Proof.
  intros Hf Hl. apply via_modify. intros w.
  destruct (Hf (bw_state w)) as (H1 & H2 & H3 & H4 & H5 & H6 & H7 & H8).
  constructor; simpl; [|done..]. constructor; simpl; [done|by rewrite H1| |].
  - intros []. constructor; simpl; by rewrite ?H1, ?H2, ?H3, ?H5, ?H6, ?H7.
  - unfold leased. simpl. rewrite H4. naive_solver.
Qed.

Lemma tame_last_release : via E (tame E) last_release_now.
Proof using Hclock.
  unfold last_release_now. vbind; [by apply via_tame, framed_monotonic|intros now].
  by apply tame_modify.
Qed.

Lemma deletes_empty {A} (ids : list string) (m : gmap string A) :
  m = ∅ → fold_right delete m ids = ∅.
Proof. intros ->. induction ids as [|i ids IH]; simpl; [done|]. by rewrite IH, delete_empty. Qed.

Lemma tame_reap : via E (tame E) reap_leases.
Proof using Hclock.
  unfold reap_leases. vbind; [vdone|intros b].
  vbind; [by apply via_tame, framed_stale|intros stale].
  vbind; [apply tame_modify; [done|intros b0; apply deletes_empty]|intros _].
  vbind; [vdone|intros b1]. destruct stale as [|id stale]; [vdone|].
  vbind; [|intros _; by apply via_tame, framed_write_state].
  destruct (bool_decide _); [apply tame_last_release|vdone].
Qed.

Lemma framed_checked request : via E (frame E) (checked_acquire request).
Proof using Hclock.
  unfold checked_acquire. vbind; [vdone|intros owner]. vbind; [vdone|intros port].
  destruct (negb (valid_uuid _)); [vdone|]. vbind; [apply framed_pid_alive|intros alive].
  destruct (negb alive); [vdone|]. destruct (_ || _ || _); [vdone|].
  vbind; [vdone|intros b]. destruct (_ && _ && _); vdone.
Qed.

(** A request that passes finds no other endpoint in use. *)
Lemma checked_endpoint request w id owner requested w' :
  checked_acquire request E w = (Ok (id, owner, requested), w') →
  b_leases (bw_state w) ≠ ∅ → b_spec (bw_state w) ≠ None → b_spec (bw_state w) = Some requested.
Proof using Hclock.
  intros H. pose proof (framed_checked request w) as Hf. rewrite H in Hf. destruct Hf. cbn in *.
  rewrite <- fr_spec0, <- fr_leases0. revert H. unfold checked_acquire, bbind, blift, bget, bret.
  intros H. repeat (break_hyp H; cbv beta iota in H).
  injection H as <- <- <- <-. repeat case_bool_decide; naive_solver.
Qed.

Lemma step_select requested w :
  let w' := (select_endpoint requested E w).2 in
  step E w w' ∧ b_spec (bw_state w') = Some requested ∧
  b_stop_requested (bw_state w') = b_stop_requested (bw_state w).
Proof using Hclock.
  cbv zeta.
  change (select_endpoint requested E w) with
    ((if bool_decide (b_spec (bw_state w) = Some requested) then bret tt
      else stop_ssh ;>> bmodify (set_spec (Some requested))) E w).
  case_bool_decide; [by split|].
  assert (Hf := framed_stop_ssh E Hclock w). unfold bbind.
  destruct (stop_ssh E w) as [[[]|e] w1] eqn:Hs; cbn in *.
  - split; [|split; [done|by destruct Hf]]. etransitivity; [by apply frame_step|].
    constructor; simpl; try done. intros []. by constructor.
  - exfalso. unfold stop_ssh, bbind, bget, bmodify, poll_running, ask, bret in Hs. repeat break_hyp Hs.
Qed.

Lemma acquire_served request w : served E w (acquire request E w).2.
Proof using Hclock.
  unfold acquire. unfold bbind at 1. pose proof (framed_checked request w) as Hf.
  destruct (checked_acquire request E w) as [[[[id owner] requested]|e] w1] eqn:Hc;
    [|by apply frame_served].
  pose proof (checked_endpoint _ _ _ _ _ _ Hc) as Hend. cbn [snd] in Hf. clear Hc.
  destruct (step_select requested w1) as (Hs & Hspec & Hstop). unfold bbind at 1.
  destruct (select_endpoint requested E w1) as [r w2]. cbn [snd] in *.
  assert (Hfin : ∀ w3, step E w2 w3 → b_spec (bw_state w3) = b_spec (bw_state w2) →
    b_stop_requested (bw_state w3) = b_stop_requested (bw_state w2) → served E w w3).
  { intros w3 H3 Hspec3 Hstop3. constructor.
    - etransitivity; [by apply frame_step|]. by etransitivity.
    - intros Hl Hn. rewrite Hspec3, Hspec. by rewrite Hend.
    - rewrite Hstop3, Hstop. destruct Hf. rewrite fr_stop0. by left. }
  destruct r as [[]|e]; [|by apply Hfin].
  assert (Hens := framed_ensure_ssh E Hclock w2). unfold bbind at 1.
  destruct (ensure_ssh E w2) as [[[]|e] w3]; cbn [snd] in Hens;
    [|destruct Hens; apply Hfin; [by apply frame_step; constructor|done..]].
  unfold bbind at 1, ask. unfold bbind at 1, bmodify.
  set (w4 := BWorld _ _ _).
  assert (H4 : step E w2 w4 ∧ b_spec (bw_state w4) = b_spec (bw_state w2) ∧
    b_stop_requested (bw_state w4) = b_stop_requested (bw_state w2)).
  { split; [|by destruct Hens]. etransitivity; [by apply frame_step|].
    etransitivity; [exact (frame_step _ _ _ (framed_ask E Hclock (λ E n, wall_time E n) w3))|].
    constructor; simpl; try done; [by intros []|].
    unfold leased. simpl. intros _ _. destruct Hens. by rewrite fr_spec0, Hspec. }
  destruct H4 as (H4 & Hspec4 & Hstop4).
  assert (Hw := framed_write_state E Hclock w4). unfold bbind at 1.
  destruct (write_state E w4) as [[[]|e] w5]; cbn [snd] in Hw; cbn;
    (destruct Hw; apply Hfin; [etransitivity; [done|apply frame_step; by constructor]|congruence..]).
Qed.
End requests.

Section turns.
Context (E : benv) (Hclock : ∀ i j, (i <= j)%nat → monotonic E i <= monotonic E j).

Lemma tame_release request : via E (tame E) (release request).
Proof using Hclock.
  unfold release. vbind; [apply tame_modify; [done|intros b Hb; simpl; rewrite Hb; apply delete_empty]|intros _].
  vbind; [vdone|intros b]. vbind; [|intros _; vbind; [by apply via_tame, framed_write_state|intros _; vdone]].
  destruct (bool_decide _); [by apply tame_last_release|vdone].
Qed.

Lemma response_served request w : served E w (response request E w).2.
Proof using Hclock.
  unfold response. destruct (eq_str _ "ping").
  { apply frame_served. revert w. change (via E (frame E) (do! me := ask (λ E _, self_pid E) in
      bret [("ok", JBool true); ("pid", JInt me)])). framed_tac. }
  destruct (eq_str _ "status").
  { apply frame_served. revert w. change (via E (frame E) status). unfold status. framed_tac.
    by apply framed_ssh_pid. }
  destruct (eq_str _ "acquire"); [by apply acquire_served|].
  destruct (eq_str _ "release"); [by apply tame_served, tame_release|].
  destruct (eq_str _ "shutdown"); [|apply served_refl].
  unfold bbind, bget, bmodify, braise, bthrow, bret. case_bool_decide as Hl; cbn; [|apply served_refl].
  constructor; simpl; [|done|by right].
  constructor; simpl; try done. by intros [].
Qed.

Lemma connection_served chunks w : served E w (serve_connection chunks E w).2.
Proof using Hclock.
  unfold serve_connection, btry. unfold bbind at 1, blift at 1.
  destruct (read_request "" chunks) as [raw|e];
    [|destruct (existsb _ _); apply served_refl].
  destruct (_ <? str_len raw); [apply served_refl|].
  unfold bbind, blift.
  destruct (loads_bytes raw) as [[| | | | | |request]|e]; try apply served_refl;
    try (destruct (existsb _ _); apply served_refl).
  pose proof (response_served request w) as H. destruct (response request E w) as [[d|e] w']; [done|].
  destruct (existsb _ _); exact H.
Qed.

Lemma step_turn idle : via E (step E) (serve_turn idle).
Proof using Hclock.
  unfold serve_turn. vbind; [vdone|intros b]. destruct (b_stop_requested b); [vdone|].
  vbind; [by apply via_step, tame_reap|intros _]. vbind; [by apply via_step, via_tame, framed_maintain|intros _].
  vbind; [vdone|intros b1]. vbind.
  { destruct (bool_decide _); [|vdone]. vbind; [by apply via_step, via_tame, framed_monotonic|intros; vdone]. }
  intros [|]; [vdone|].
  vbind; [by apply via_step, via_tame, framed_ask|intros [chunks|]]; [|vdone].
  vbind; [|intros; vdone]. intros w. apply (sv_step _ _ _ (connection_served chunks w)).
Qed.

Lemma tame_failure d : via E (tame E) (record_api_failure d).
Proof using Hclock.
  unfold record_api_failure. destruct (_ =s? ""); [vdone|].
  vbind; [by apply via_tame, framed_monotonic|intros now]. vbind; [vdone|intros b].
  vbind; [|intros masked; apply tame_modify; intros b0; by destruct masked].
  destruct (_ =s? _); [|vdone]. destruct (b_last_failure b); [|vdone].
  vbind; [vdone|intros; vdone].
Qed.

(** The states of a server: its turns, the failures its relay records, and time. *)
Inductive runs (idle : Z) : bworld → Prop :=
| runs_start : runs idle (BWorld (new_broker (monotonic E 0)) 1 None)
| runs_turn w : runs idle w → runs idle (serve_turn idle E w).2
| runs_failure d w : runs idle w → runs idle (record_api_failure d E w).2
| runs_wait n w : runs idle w → runs idle (BWorld (bw_state w) (bw_tick w + n) (bw_published w)).

Lemma step_wait n w : step E w (BWorld (bw_state w) (bw_tick w + n) (bw_published w)).
Proof using Hclock.
  constructor; simpl; [lia|done| |done]. intros []. constructor; try done. simpl.
  pose proof (Hclock (bw_tick w) (bw_tick w + n) ltac:(lia)). lia.
Qed.

Lemma runs_invariant idle w : runs idle w → sound E w ∧ leased w.
Proof using Hclock.
  assert (Hstep : ∀ w w', step E w w' → sound E w ∧ leased w → sound E w' ∧ leased w')
    by (intros ? ? [] []; auto).
  induction 1; [|eapply Hstep; [|done]..].
  - split; [|by intros []]. constructor; simpl; try done; unfold MAX_RESTART_DELAY, US; lia.
  - apply step_turn.
  - apply via_step, tame_failure.
  - apply step_wait.
Qed.
End turns.

(** ** Recovery *)

Fixpoint becomes_ready (attempts : list attempt) : bool :=
  match attempts with
  | [] | Exited _ :: _ => false
  | Refused :: attempts => becomes_ready attempts
  | Connected :: _ => true
  end.

(** From tick [k] on, ports can be bound, SSH comes up for [spec] and the state file can
    be written. *)
Record healthy (E : benv) (k : nat) (spec : tunnel_spec) : Prop := {
  he_listener : ∀ i, (k <= i)%nat → listener_port E i ≠ None;
  he_backend : ∀ i, (k <= i)%nat → backend_port E i ≠ None;
  he_spawned : ∀ i, (k <= i)%nat →
    ∃ pid attempts, spawned E i spec = Spawned pid attempts ∧ becomes_ready attempts = true;
  he_write : ∀ i, (k <= i)%nat → state_write E i = true }.

(** A new tunnel is in place. *)
Record up (w w' : bworld) : Prop := {
  up_ssh : b_ssh (bw_state w') ≠ None;
  up_backend : b_backend (bw_state w') ≠ None;
  up_relay : b_relay (bw_state w') ≠ None;
  up_generation : b_generation (bw_state w') = b_generation (bw_state w) + 1;
  up_delay : b_restart_delay (bw_state w') = US;
  up_leases : b_leases (bw_state w') = b_leases (bw_state w);
  up_spec : b_spec (bw_state w') = b_spec (bw_state w) }.

Section recovery.
Context (E : benv) (k : nat) (spec : tunnel_spec) (Hhealthy : healthy E k spec).

Lemma write_state_ok w :
  (k <= bw_tick w)%nat → ∃ n d, write_state E w = (Ok tt, BWorld (bw_state w) n d).
Proof using Hhealthy.
  intros Hk. unfold write_state, ssh_pid, bbind, bget, ask, bret, poll_running, braise, bthrow. cbn.
  destruct (b_ssh (bw_state w)); cbn; rewrite (he_write E k spec Hhealthy) by lia; by eexists _, _.
Qed.

Lemma tunnel_up_ok pid port w :
  (k <= bw_tick w)%nat → b_relay (bw_state w) ≠ None →
  ∃ w', tunnel_up pid port E w = (Ok tt, w') ∧ up w w'.
Proof using Hhealthy.
  intros Hk Hr. unfold tunnel_up. unfold bbind at 1, bmodify at 1. unfold bbind at 1, bget.
  set (w1 := BWorld _ _ _).
  assert (Hup : ∀ w2, (k <= bw_tick w2)%nat →
    b_ssh (bw_state w2) ≠ None → b_backend (bw_state w2) ≠ None → b_relay (bw_state w2) ≠ None →
    b_generation (bw_state w2) = b_generation (bw_state w) + 1 →
    b_leases (bw_state w2) = b_leases (bw_state w) → b_spec (bw_state w2) = b_spec (bw_state w) →
    ∃ w', (bmodify (set_restart 0 US) ;>> write_state) E w2 = (Ok tt, w') ∧ up w w').
  { intros w2 H2 ??????. unfold bbind, bmodify. set (w3 := BWorld _ _ _).
    destruct (write_state_ok w3 H2) as (n & d & ->). eexists. split; [done|]. by constructor. }
  assert (Hb : match b_relay (bw_state w) with Some _ => Some port | None => b_backend (bw_state w) end ≠ None)
    by by destruct (b_relay (bw_state w)).
  destruct (b_unavailable_since (bw_state w1)) as [since|]; unfold bbind at 1.
  - unfold bbind at 1, monotonic_now, ask, bmodify at 1. apply Hup; simpl; try done. lia.
  - unfold bret at 1. apply Hup; simpl; done.
Qed.

Lemma wait_ready_ok pid port attempts w :
  becomes_ready attempts = true → (k <= bw_tick w)%nat → b_relay (bw_state w) ≠ None →
  ∃ w', wait_ready pid port attempts E w = (Ok tt, w') ∧ up w w'.
Proof using Hhealthy.
  intros Ha Hk Hr. induction attempts as [|[]]; simpl in *; try done; [by auto|].
  destruct (tunnel_up_ok pid port w Hk Hr) as (w' & Hw & Hu). exists w'. split; [|done].
  unfold btry. by rewrite Hw.
Qed.

Lemma start_ssh_ok w :
  (k <= bw_tick w)%nat → b_spec (bw_state w) = Some spec →
  ∃ w', start_ssh E w = (Ok tt, w') ∧ up w w'.
Proof using Hhealthy.
  intros Hk Hspec. unfold start_ssh. unfold bbind at 1, bget. rewrite Hspec.
  assert (Hrelay : ∃ w1, ensure_relay E w = (Ok tt, w1) ∧ (k <= bw_tick w1)%nat ∧
    b_relay (bw_state w1) ≠ None ∧ b_generation (bw_state w1) = b_generation (bw_state w) ∧
    b_leases (bw_state w1) = b_leases (bw_state w) ∧ b_spec (bw_state w1) = b_spec (bw_state w)).
  { unfold ensure_relay, bbind, bget, ask, bmodify, bret.
    destruct (b_relay (bw_state w)) as [p|] eqn:Hp; [exists w; split_and!; try done; by rewrite Hp|].
    pose proof (he_listener E k spec Hhealthy (bw_tick w) Hk).
    destruct (listener_port E (bw_tick w)); [|done]. eexists. split; [done|]. simpl.
    split_and!; try done. lia. }
  destruct Hrelay as (w1 & H1 & Hk1 & Hr1 & Hg1 & Hl1 & Hs1).
  unfold bbind at 1. rewrite H1. unfold bbind at 1, ask.
  pose proof (he_backend E k spec Hhealthy (bw_tick w1) Hk1).
  destruct (backend_port E (bw_tick w1)) as [port|]; [|done].
  unfold bbind at 1, bmodify. unfold bbind at 1. cbn [bw_tick bw_state].
  destruct (he_spawned E k spec Hhealthy (S (bw_tick w1)) ltac:(lia)) as (pid & attempts & Hsp & Ha).
  rewrite Hsp. set (w2 := BWorld _ _ _).
  destruct (wait_ready_ok pid port attempts w2 Ha ltac:(simpl; lia) Hr1) as (w' & -> & []).
  exists w'. split; [done|]. constructor; try done; simpl in *; congruence.
Qed.

Lemma maintain_ok w :
  (k <= bw_tick w)%nat → b_spec (bw_state w) = Some spec → b_leases (bw_state w) ≠ ∅ →
  b_ssh (bw_state w) = None → b_next_restart_at (bw_state w) <= monotonic E (bw_tick w) →
  ∃ w', maintain_tunnel E w = (Ok tt, w') ∧ up w w'.
Proof using Hhealthy.
  intros Hk Hspec Hl Hssh Hn. unfold maintain_tunnel, notice_exit. unfold bbind at 1 2, bget at 1.
  rewrite Hssh. unfold bret. unfold restart_tunnel. unfold bbind at 1, bget.
  rewrite (bool_decide_eq_false_2 _ Hl), (bool_decide_eq_true_2 _ Hssh). cbn [negb andb].
  unfold bbind at 1, monotonic_now, ask. destruct (Z.leb_spec (b_next_restart_at (bw_state w))
    (monotonic E (bw_tick w))) as [_|]; [|lia].
  set (w1 := BWorld _ _ _). unfold btry.
  destruct (start_ssh_ok w1 ltac:(simpl; lia) Hspec) as (w' & -> & []). exists w'. split; [done|].
  by constructor.
Qed.
End recovery.

(** C10: in every state that a server reaches, through requests, ends of its tunnel,
    failed starts and failed writes of its state file, the restart delay lies between one
    and twenty seconds, the next attempt is at most twenty seconds ahead of the clock, a
    backend port is only set while there are an SSH process and a relay, and a lease is
    only held on a chosen endpoint. *)
Theorem broker_invariant E idle w
    (Hclock : ∀ i j, (i <= j)%nat → monotonic E i <= monotonic E j)
    (Hruns : runs E idle w) :
  let b := bw_state w in
  US <= b_restart_delay b <= 20 * US ∧
  b_next_restart_at b <= Z.max 0 (monotonic E (bw_tick w) + 20 * US) ∧
  0 <= b_generation b ∧
  (b_backend b ≠ None → b_ssh b ≠ None ∧ b_relay b ≠ None) ∧
  (b_leases b ≠ ∅ → b_spec b ≠ None).
Proof.
  destruct (runs_invariant E Hclock idle w Hruns) as [[] Hl]. cbv zeta. split_and!; try done; apply so_delay0.
Qed.

(** C11: a lost tunnel comes back: when a lease is held and no SSH process is left, and
    from some point on ports can be bound, SSH starts and the state file can be written,
    then the first maintenance at least twenty seconds later has the tunnel up, on the
    same endpoint and with the same leases, one generation further, and with the restart
    delay back at one second. *)
Theorem tunnel_recovers E idle w n spec
    (Hclock : ∀ i j, (i <= j)%nat → monotonic E i <= monotonic E j)
    (Hruns : runs E idle w)
    (Hleases : b_leases (bw_state w) ≠ ∅) (Hssh : b_ssh (bw_state w) = None)
    (Hspec : b_spec (bw_state w) = Some spec)
    (Hlater : Z.max 0 (monotonic E (bw_tick w) + 20 * US) <= monotonic E (bw_tick w + n))
    (Hhealthy : healthy E (bw_tick w + n) spec) :
  ∃ w', maintain_tunnel E (BWorld (bw_state w) (bw_tick w + n) (bw_published w)) = (Ok tt, w') ∧
    up w w'.
Proof.
  destruct (runs_invariant E Hclock idle w Hruns) as [[] _].
  destruct (maintain_ok E _ spec Hhealthy (BWorld (bw_state w) (bw_tick w + n) (bw_published w)))
    as (w' & Hw & []); try done; simpl in *.
  - unfold MAX_RESTART_DELAY in so_next0. lia.
  - exists w'. split; [done|]. by constructor.
Qed.

(** C27: a request never moves the tunnel under its users: while leases are held the
    endpoint stays what it is, the public port of the relay never changes once it is
    bound, and the server only agrees to stop when no lease is left. *)
Theorem requests_keep_endpoint E chunks w
    (Hclock : ∀ i j, (i <= j)%nat → monotonic E i <= monotonic E j) :
  let b := bw_state w in let b' := bw_state (serve_connection chunks E w).2 in
  (b_leases b ≠ ∅ → b_spec b ≠ None → b_spec b' = b_spec b) ∧
  (∀ p, b_relay b = Some p → b_relay b' = Some p) ∧
  (b_stop_requested b' = true → b_stop_requested b = true ∨ b_leases b' = ∅).
Proof.
  destruct (connection_served E Hclock chunks w) as [[] H1 H2]. cbv zeta. by split_and!.
Qed.

(** *** A server that loses its tunnel

    Its clock advances thirty seconds per question; a client takes a lease at first; the
    SSH process is found dead later and cannot be started again until tick 40. *)
Definition half_minutes : nat → Z := λ i, 30 * US * Z.of_nat i.
Definition acquire_request : string :=
  dumps (st_compact false true)
    (JDict [("command", JStr "acquire"); ("leaseId", JStr "0f0f0f0f-0f0f-0f0f-0f0f-0f0f0f0f0f0f");
            ("ownerPid", JInt 11); ("sshHost", JStr "cloud"); ("forwardHost", JStr "10.0.0.1");
            ("forwardPort", JInt 8317)]) +:+ LF.
Definition sample_broker : benv :=
  BEnv half_minutes half_minutes (λ _ _, true) (λ i _, Nat.ltb i 14)
    (λ i _, if Nat.ltb i 14 || Nat.leb 40 i then Spawned 77 [Refused; Connected] else NotFound)
    (λ _, Some 20001) (λ _, Some 40001) (λ _, true)
    (λ i, if Nat.ltb i 4 then Some [Chunk acquire_request] else None) 5.
Definition sample_idle : Z := 3600 * US.
Definition sample_start : bworld := BWorld (new_broker (monotonic sample_broker 0)) 1 None.
Definition sample_lost : bworld :=
  let w := (serve_turn sample_idle sample_broker sample_start).2 in
  (serve_turn sample_idle sample_broker w).2.
Definition sample_spec : tunnel_spec := TunnelSpec "cloud" "10.0.0.1" 8317.

Lemma half_minutes_mono i j : (i <= j)%nat → half_minutes i <= half_minutes j.
Proof. unfold half_minutes, US. lia. Qed.
Lemma sample_runs : runs sample_broker sample_idle sample_lost.
Proof. apply runs_turn, runs_turn, runs_start. Qed.
Lemma sample_summary :
  size (b_leases (bw_state sample_lost)) = 1%nat ∧ b_ssh (bw_state sample_lost) = None ∧
  b_spec (bw_state sample_lost) = Some sample_spec ∧ bw_tick sample_lost = 24%nat.
Proof. rewrite <- !pair_equal_spec. vm_compute. reflexivity. Qed.

Lemma sample_leased : b_leases (bw_state sample_lost) ≠ ∅.
Proof. destruct sample_summary as [H _]. intros He. rewrite He, map_size_empty in H. clear He. discriminate. Qed.

Lemma broker_invariant_witness :
  let b := bw_state sample_lost in
  US <= b_restart_delay b <= 20 * US ∧
  b_next_restart_at b <= Z.max 0 (monotonic sample_broker (bw_tick sample_lost) + 20 * US) ∧
  0 <= b_generation b ∧
  (b_backend b ≠ None → b_ssh b ≠ None ∧ b_relay b ≠ None) ∧
  (b_leases b ≠ ∅ → b_spec b ≠ None).
Proof. exact (broker_invariant sample_broker sample_idle sample_lost half_minutes_mono sample_runs). Defined.

Lemma sample_healthy : healthy sample_broker (bw_tick sample_lost + 40) sample_spec.
Proof.
  destruct sample_summary as (_ & _ & _ & Ht). rewrite Ht. clear Ht.
  constructor; try done. intros i Hi. exists 77, [Refused; Connected]. split; [|done].
  cbn [spawned sample_broker]. replace (Nat.leb 40 i) with true by (symmetry; apply Nat.leb_le; lia).
  by rewrite orb_true_r.
Qed.

Lemma tunnel_recovers_witness :
  ∃ w', maintain_tunnel sample_broker
      (BWorld (bw_state sample_lost) (bw_tick sample_lost + 40) (bw_published sample_lost)) = (Ok tt, w') ∧
    up sample_lost w'.
Proof.
  apply (tunnel_recovers sample_broker sample_idle sample_lost 40 sample_spec half_minutes_mono
           sample_runs sample_leased).
  - exact (proj1 (proj2 sample_summary)).
  - exact (proj1 (proj2 (proj2 sample_summary))).
  - rewrite (proj2 (proj2 (proj2 sample_summary))). vm_compute. intros H. discriminate H.
  - exact sample_healthy.
Defined.

Lemma requests_keep_endpoint_witness :
  let b := bw_state sample_lost in
  let b' := bw_state (serve_connection [Chunk acquire_request] sample_broker sample_lost).2 in
  (b_leases b ≠ ∅ → b_spec b ≠ None → b_spec b' = b_spec b) ∧
  (∀ p, b_relay b = Some p → b_relay b' = Some p) ∧
  (b_stop_requested b' = true → b_stop_requested b = true ∨ b_leases b' = ∅).
Proof.
  exact (requests_keep_endpoint sample_broker [Chunk acquire_request] sample_lost half_minutes_mono).
Defined.

(** ** The root cause *)

Definition masking (d : dict) : Prop := dget "cause" d = JStr CAUSE_NO_USABLE_ACCOUNTS.

Fixpoint record_all (l : list dict) : B unit :=
  match l with [] => bret tt | d :: l => record_api_failure d ;>> record_all l end.

Lemma record_masking E d w f at_ c :
  masking d → b_last_failure (bw_state w) = Some f → b_last_failure_at (bw_state w) = Some at_ →
  dget "cause" f = JStr c → In c DEFINITIVE_ACCOUNT_CAUSES →
  monotonic E (bw_tick w) <= at_ + ROOT_CAUSE_WINDOW_SECONDS * US →
  ∃ w', record_api_failure d E w = (Ok tt, w') ∧ bw_tick w' = S (bw_tick w) ∧
    b_last_failure (bw_state w') = Some (dset "maskedBy" (JStr CAUSE_NO_USABLE_ACCOUNTS) f) ∧
    b_last_failure_at (bw_state w') = Some at_.
Proof.
  intros Hd Hf Ha Hc Hin Ht. unfold record_api_failure. rewrite Hd.
  change (str_or_empty (JStr CAUSE_NO_USABLE_ACCOUNTS)) with CAUSE_NO_USABLE_ACCOUNTS.
  change (CAUSE_NO_USABLE_ACCOUNTS =s? "") with false. rewrite eqs_refl. cbv beta iota.
  unfold bbind at 1, monotonic_now, ask. unfold bbind at 1, bget. cbn [bw_state]. rewrite Hf, Ha, Hc.
  cbn [in_set in_strs]. apply mem_spec in Hin. rewrite Hin.
  destruct (Z.leb_spec (monotonic E (bw_tick w) - at_) (ROOT_CAUSE_WINDOW_SECONDS * US)); [|lia].
  eexists. split; [done|]. simpl. by rewrite Hf, Ha.
Qed.

Lemma dset_twice k (v : json) d : dset k v (dset k v d) = dset k v d.
Proof.
  induction d as [|[k' v'] d IH]; simpl; [by rewrite eqs_refl|].
  destruct (k =s? k') eqn:Hk; simpl; rewrite Hk; [done|]. by rewrite IH.
Qed.

Lemma dget_masked k f : k ≠ "maskedBy" →
  dget k (dset "maskedBy" (JStr CAUSE_NO_USABLE_ACCOUNTS) f) = dget k f.
Proof. intros H. unfold dget. by rewrite dlookup_dset_ne. Qed.

Lemma record_all_masking E (Hclock : ∀ i j, (i <= j)%nat → monotonic E i <= monotonic E j)
    l f at_ c : Forall masking l → dget "cause" f = JStr c → In c DEFINITIVE_ACCOUNT_CAUSES →
  dset "maskedBy" (JStr CAUSE_NO_USABLE_ACCOUNTS) f = f →
  ∀ w, b_last_failure (bw_state w) = Some f → b_last_failure_at (bw_state w) = Some at_ →
  monotonic E (bw_tick w + length l) <= at_ + ROOT_CAUSE_WINDOW_SECONDS * US →
  ∃ w', record_all l E w = (Ok tt, w') ∧ b_last_failure (bw_state w') = Some f ∧
        bw_tick w' = (bw_tick w + length l)%nat.
Proof.
  intros Hl Hc Hin Hm. induction Hl as [|d l Hd _ IH]; intros w Hf Ha Ht.
  - exists w. split; [done|]. split; [done|]. simpl. lia.
  - simpl in Ht. destruct (record_masking E d w f at_ c) as (w1 & H1 & Ht1 & Hf1 & Ha1); try done.
    { pose proof (Hclock (bw_tick w) (bw_tick w + S (length l))%nat ltac:(lia)). lia. }
    rewrite Hm in Hf1. destruct (IH w1 Hf1 Ha1) as (w' & H2 & Hf2 & Ht2).
    { rewrite Ht1. by replace (S (bw_tick w) + length l)%nat with (bw_tick w + S (length l))%nat by lia. }
    exists w'. split; [|split; [done|]].
    + cbn [record_all]. unfold bbind. by rewrite H1.
    + rewrite Ht2, Ht1. simpl. lia.
Qed.

(** C28: the root cause stays visible: once a definitive account failure is recorded,
    any number of "no usable accounts" failures within the next fifteen minutes leaves
    it in place, in every field, and only marks it as masked. *)
Theorem root_cause_kept E d l c w
    (Hclock : ∀ i j, (i <= j)%nat → monotonic E i <= monotonic E j)
    (Hcause : dget "cause" d = JStr c) (Hin : In c DEFINITIVE_ACCOUNT_CAUSES)
    (Hmask : Forall masking l) (Hsome : l ≠ [])
    (Hwindow : monotonic E (S (bw_tick w) + length l) <=
               monotonic E (bw_tick w) + ROOT_CAUSE_WINDOW_SECONDS * US) :
  ∃ w' f, record_all (d :: l) E w = (Ok tt, w') ∧ b_last_failure (bw_state w') = Some f ∧
    dget "maskedBy" f = JStr CAUSE_NO_USABLE_ACCOUNTS ∧
    ∀ k, k ≠ "maskedBy" → dget k f = dget k d.
Proof.
  set (f := dset "maskedBy" (JStr CAUSE_NO_USABLE_ACCOUNTS) d).
  assert (Hd : record_api_failure d E w = (Ok tt,
    BWorld (set_failure (Some d) (Some (monotonic E (bw_tick w))) (bw_state w)) (S (bw_tick w)) (bw_published w))).
  { unfold record_api_failure. rewrite Hcause. clear -Hin.
    destruct Hin as [<-|[<-|[<-|[<-|[<-|[]]]]]]; reflexivity. }
  set (w1 := BWorld _ _ _) in Hd. destruct l as [|m l]; [done|].
  inversion Hmask as [|? ? Hm Hl]; subst.
  destruct (record_masking E m w1 d (monotonic E (bw_tick w)) c) as (w2 & H2 & Ht2 & Hf2 & Ha2); try done.
  { simpl. pose proof (Hclock (S (bw_tick w)) (S (bw_tick w) + length (m :: l))%nat ltac:(lia)). lia. }
  destruct (record_all_masking E Hclock l f (monotonic E (bw_tick w)) c) with (w := w2)
    as (w' & H3 & Hf3 & _); try done.
  - unfold f. by rewrite dget_masked.
  - apply dset_twice.
  - rewrite Ht2. unfold w1. simpl in Hwindow |- *. by rewrite Nat.add_succ_r in Hwindow.
  - exists w', f. cbn [record_all]. unfold bbind. rewrite Hd, H2. split_and!; try done.
    + apply dget_dset.
    + intros k Hk. by apply dget_masked.
Qed.

Definition sample_failure (cause : string) : dict := [("cause", JStr cause); ("maskedBy", JNull)].

Lemma root_cause_kept_witness :
  ∃ w' f, record_all [sample_failure CAUSE_QUOTA_EXHAUSTED; sample_failure CAUSE_NO_USABLE_ACCOUNTS]
      sample_broker sample_start = (Ok tt, w') ∧ b_last_failure (bw_state w') = Some f ∧
    dget "maskedBy" f = JStr CAUSE_NO_USABLE_ACCOUNTS ∧
    ∀ k, k ≠ "maskedBy" → dget k f = dget k (sample_failure CAUSE_QUOTA_EXHAUSTED).
Proof.
  apply (root_cause_kept sample_broker (sample_failure CAUSE_QUOTA_EXHAUSTED)
           [sample_failure CAUSE_NO_USABLE_ACCOUNTS] CAUSE_QUOTA_EXHAUSTED sample_start half_minutes_mono);
    [done|by right; left|by repeat constructor|done|].
  vm_compute. intros H. discriminate H.
Defined.

(** * What the relay forwards

    The relay sends each chunk before the observer sees it, so observing changes no
    byte; but an exception of the observer ends the connection: the rest of the answer is
    not forwarded and the client is not told that it has ended. *)

(** ** The observer always returns *)

Definition total {A} (m : M A) : Prop := ∀ E w, ∃ a w', m E w = (Ok a, w').
Lemma total_ret {A} (a : A) : total (ret a).
Proof. intros E w. by repeat eexists. Qed.
Lemma total_bind {A B} (m : M A) (k : A → M B) : total m → (∀ a, total (k a)) → total (bind m k).
Proof.
  intros Hm Hk E w. destruct (Hm E w) as (a & w' & H). rewrite (bind_eq_ok _ _ _ _ _ _ H). apply Hk.
Qed.
Lemma total_now : total utc_now.
Proof. intros E w. by repeat eexists. Qed.
Ltac total_tac :=
  repeat match goal with
  | |- total (bind _ _) => apply total_bind; [|intros ?]
  | |- total (ret _) => apply total_ret
  | |- total utc_now => apply total_now
  | |- total (match ?x with _ => _ end) => destruct x
  end.

Lemma total_observed_now o : total (observed_now o).
Proof. unfold observed_now. total_tac. Qed.
Lemma total_emit o force : total (emit_if_classified o force).
Proof. unfold emit_if_classified. total_tac; apply total_observed_now. Qed.
Lemma total_feed o data : total (feed o data).
Proof.
  unfold feed. total_tac.
  - unfold see_status. cbv zeta. total_tac.
  - unfold see_markers. cbv zeta. total_tac; apply total_observed_now.
  - apply total_emit.
Qed.

(** What it raises is never an [OSError]. *)
Definition no_oserror (e : exn) : Prop := catches OSError (exn_cls e) = false.
Definition quiet {A} (r : res A) : Prop := ∀ e, r = Raise e → no_oserror e.

Lemma quiet_raise {A} c msg : catches OSError c = false → quiet (@raise A c msg).
Proof. intros H e [= <-]. exact H. Qed.
Lemma quiet_ok {A} (a : A) : quiet (Ok a).
Proof. by intros e. Qed.
Lemma quiet_bind {A C} (r : res A) (k : A → res C) :
  quiet r → (∀ a, quiet (k a)) → quiet (let* x := r in k x).
Proof. intros Hr Hk e. destruct r; [apply Hk|]. intros [= <-]. by apply Hr. Qed.
Ltac quiet_tac :=
  repeat match goal with
  | |- quiet (raise _ _) => by apply quiet_raise
  | |- quiet (Ok _) => apply quiet_ok
  | |- quiet (match ?r with Ok x => _ | Raise e => Raise e end) => apply quiet_bind; [|intros ?]
  | |- quiet (match ?x with _ => _ end) => destruct x
  | H : quiet ?r |- quiet ?r => exact H
  end.

Lemma quiet_to_utc t : quiet (to_utc t).
Proof. unfold to_utc. quiet_tac. Qed.
Lemma quiet_iso t : quiet (iso_utc t).
Proof. unfold iso_utc. quiet_tac. apply quiet_to_utc. Qed.
Lemma quiet_parse v : quiet (parse_timestamp v).
Proof. unfold parse_timestamp. quiet_tac. apply quiet_to_utc. Qed.
Lemma quiet_instant v : quiet (reset_instant v).
Proof. unfold reset_instant. quiet_tac; first [apply quiet_parse|apply quiet_iso]. Qed.
Lemma quiet_timedelta f : quiet (timedelta_us f).
Proof. unfold timedelta_us. quiet_tac. Qed.
Lemma quiet_delay t v : quiet (reset_delay t v).
Proof.
  unfold reset_delay. quiet_tac; first [apply quiet_timedelta|apply quiet_iso|idtac].
  unfold add_us. quiet_tac.
Qed.
Lemma quiet_first f fields keys : (∀ v, quiet (f v)) → quiet (first_reset f fields keys).
Proof.
  intros Hf. induction keys as [|k keys IH]; intros e H; simpl in H; [done|].
  destruct (f (dget k fields)) as [[s|]|e'] eqn:Hk; [done|by apply IH|].
  injection H as <-. by eapply Hf.
Qed.
Lemma quiet_retry fields t : quiet (retry_at fields t).
Proof.
  intros e H. unfold retry_at in H.
  destruct (first_reset reset_instant _ _) as [[s|]|e'] eqn:Hr; [done| |].
  - eapply quiet_first; [|exact H]. apply quiet_delay.
  - injection H as <-. eapply quiet_first; [|exact Hr]. apply quiet_instant.
Qed.
Lemma quiet_classify status body t : quiet (classify_http_failure status body t).
Proof.
  intros e H. unfold classify_http_failure in H.
  destruct (retry_at _ t) eqn:Hr; [|injection H as <-; by eapply quiet_retry].
  destruct (decide_cause _ _ _ _) as [[c d] sg].
  destruct (iso_utc t) eqn:Ht; [done|]. injection H as <-. by eapply quiet_iso.
Qed.

Lemma emit_raised o force E w r w' e :
  emit_if_classified o force E w = (Ok r, w') → ob_raised r = Some e → no_oserror e.
Proof.
  unfold emit_if_classified. intros (o1 & w1 & _ & H)%bind_ok Hr. unfold ret in H.
  destruct (classify_http_failure _ _ _) eqn:Hc; injection H as <- <-.
  - by destruct (_ || _ || _).
  - injection Hr as <-. by eapply quiet_classify.
Qed.
Lemma feed_raised o data E w r w' e :
  feed o data E w = (Ok r, w') → ob_raised r = Some e → no_oserror e.
Proof.
  unfold feed. destruct (data =s? ""); [intros [= <- <-]; done|].
  intros (o1 & w1 & _ & (o2 & w2 & _ & H)%bind_ok)%bind_ok.
  destruct (may_contain_failure o2); [by eapply emit_raised|].
  by injection H as <- <-.
Qed.

(** ** Forwarding *)

(** The chunks of a connection, until it ends or breaks. *)
Fixpoint chunks_of (l : list received) : list string :=
  match l with
  | Chunk data :: l => if data =s? "" then [] else data :: chunks_of l
  | _ => []
  end.

Lemma pump_loop_spec l : ∀ o sent observations E w,
  ∃ o' n observations' raised w',
    pump_loop o sent observations l E w =
      (Ok (o', sent ++ firstn n (chunks_of l), observations', raised), w') ∧
    (no_faults E → raised = None → firstn n (chunks_of l) = chunks_of l).
Proof.
  induction l as [|[data|] l IH]; intros o sent observations E w; cbn [pump_loop chunks_of].
  - exists o, 0%nat, observations, None, w. by rewrite firstn_nil, app_nil_r.
  - destruct (data =s? ""); [exists o, 0%nat, observations, None, w; by rewrite firstn_nil, app_nil_r|].
    unfold bind at 1, try_with, bind at 1, sys. destruct (fault E (w_tick w)) eqn:Hf; cbn.
    + exists o, 0%nat, observations, None, (World (w_fs w) (S (w_tick w))).
      rewrite app_nil_r. split; [done|]. intros Hn. by rewrite Hn in Hf.
    + destruct (total_feed o data E (World (w_fs w) (S (w_tick w)))) as (r & w1 & Hr).
      rewrite (bind_eq_ok _ _ _ _ _ _ Hr).
      destruct (ob_raised r) as [e|] eqn:He.
      * exists (ob_state r), 1%nat, (noted observations r), (Some e), w1. split; [|done].
        pose proof (feed_raised _ _ _ _ _ _ _ Hr He) as Hq. unfold no_oserror in Hq. by rewrite Hq.
      * destruct (IH (ob_state r) (sent ++ [data]) (noted observations r) E w1)
          as (o' & n & obs & raised & w' & Hl & Hall).
        exists o', (S n), obs, raised, w'. rewrite Hl. simpl. rewrite <- app_assoc. split; [done|].
        intros Hn H. by rewrite Hall.
  - exists o, 0%nat, observations, None, w. by rewrite firstn_nil, app_nil_r.
Qed.

(** Observing an answer changes none of its bytes: what the relay sends is always
    the first chunks it received, in order and whole; and when sending works and the
    observer does not raise, it is all of them, and the client is told the end. *)
Theorem relay_forwards l E w :
  ∃ p w' n, pump l E w = (Ok p, w') ∧ pu_sent p = firstn n (chunks_of l) ∧
    (no_faults E → pu_raised p = None → pu_sent p = chunks_of l ∧ pu_shutdown p = true).
Proof.
  destruct (pump_loop_spec l new_observer [] [] E w) as (o & n & obs & raised & w1 & Hl & Hall).
  destruct (total_emit o true E w1) as (r & w2 & Hc).
  assert (Hp : pump l E w = (Ok (match ob_raised r with
       | Some e => Pumped (firstn n (chunks_of l)) (noted obs r) false (Some e)
       | None => Pumped (firstn n (chunks_of l)) (noted obs r) true raised
       end), w2)).
  { unfold pump. rewrite (bind_eq_ok _ _ _ _ _ _ Hl). unfold close.
    rewrite (bind_eq_ok _ _ _ _ _ _ Hc). by destruct (ob_raised r). }
  rewrite Hp. eexists _, w2, n. split; [done|].
  destruct (ob_raised r); (split; [done|]); [done|]. intros Hn H. split; [by apply Hall|done].
Qed.

(** An answer whose body asks to retry in 10^15 seconds, in two chunks. *)
Definition far_head : string :=
  "HTTP/1.1 429 Too Many Requests" +:+ CRLF +:+ CRLF +:+ "{" +:+ quoted "retry_after_seconds" +:+
  ": 1000000000000000}".
Definition calm : env := Env (λ _, false) (λ _, ""%string) (λ _, 0) (λ _ _, FNan) (λ _ _, false) (λ _, 0).

(** An answer can cut its own connection: a delay that no date can hold makes the
    observer raise OverflowError, which the relay does not handle: the chunks after it
    are not sent, and closing the observer raises again, so that the client's side is
    not shut down either. *)
Theorem relay_cut_short :
  match pump [Chunk far_head; Chunk "the rest of the answer"] calm (World ∅ 0) with
  | (Ok p, _) => pu_sent p = [far_head] ∧ pu_shutdown p = false ∧
                 option_map exn_cls (pu_raised p) = Some OverflowError
  | _ => False
  end.
Proof. vm_compute. auto. Qed.
