(* ===== verification/PyUrl.v ===== *)
(** * URLs

    [urllib.parse.urlsplit] and the attributes of its result: the scheme, the host, the
    port and the user of an address with a network location. *)

From S2P Require Import Prelude PyStr.

Record url := Url {
  u_scheme : string; u_netloc : string; u_path : string; u_query : string; u_fragment : string }.

(** The part of [s] before the first character of [stops], and the rest with it. *)
Fixpoint span_until (stops : string) (s : string) : string * string :=
  match s with
  | EmptyString => ("", "")
  | String c r =>
      if existsb (Ascii.eqb c) (chars stops) then ("", s)
      else let '(a, b) := span_until stops r in (String c a, b)
  end.

Definition scheme_char (c : ascii) : bool :=
  is_alnum c || Ascii.eqb c "+" || Ascii.eqb c "-" || Ascii.eqb c ".".
(** The scheme, lower case, and what follows its colon. *)
Definition split_scheme (s : string) : string * string :=
  match split_once ":" s with
  | Some (scheme, rest) =>
      match scheme with
      | String c _ =>
          if is_alpha c && str_forall scheme_char scheme then (str_lower scheme, rest) else ("", s)
      | EmptyString => ("", s)
      end
  | None => ("", s)
  end.

(** Leading control characters and spaces are dropped, and tabs and line breaks
    anywhere.  [None] is the [ValueError] of unbalanced brackets. *)
Definition c0_or_space (c : ascii) : bool := Nat.leb (ord c) 32.
Definition unsafe_char (c : ascii) : bool := Nat.eqb (ord c) 9 || Nat.eqb (ord c) 10 || Nat.eqb (ord c) 13.
Definition urlsplit (text : string) : option url :=
  let text := str_filter (λ c, negb (unsafe_char c)) (drop_while c0_or_space text) in
  let '(scheme, rest) := split_scheme text in
  let '(netloc, rest) :=
    if starts_with "//" rest then span_until "/?#" (str_drop 2 rest) else ("", rest) in
  if Bool.eqb (contains "[" netloc) (contains "]" netloc) then
    let '(before, fragment) := span_until "#" rest in
    let '(path, query) := span_until "?" before in
    Some (Url scheme netloc path (str_drop 1 query) (str_drop 1 fragment))
  else None.

(** [netloc.rpartition("@")]: the user information, if there is any, and the host. *)
Definition split_user (netloc : string) : option string * string :=
  match str_rfind "@" netloc with
  | Some i => (Some (str_take i netloc), str_drop (i + 1) netloc)
  | None => (None, netloc)
  end.
Definition u_username (u : url) : option string :=
  option_map (λ info, (span_until ":" info).1) (split_user (u_netloc u)).1.
Definition u_password (u : url) : option string :=
  match (split_user (u_netloc u)).1 with
  | Some info => let '(_, r) := span_until ":" info in if r =s? "" then None else Some (str_drop 1 r)
  | None => None
  end.

(** Host and port as text; an IPv6 host stands in brackets. *)
Definition host_port (u : url) : string * string :=
  let info := (split_user (u_netloc u)).2 in
  match split_once "[" info with
  | Some (_, bracketed) =>
      let '(host, rest) := span_until "]" bracketed in
      let '(_, port) := span_until ":" (str_drop 1 rest) in (host, str_drop 1 port)
  | None => let '(host, port) := span_until ":" info in (host, str_drop 1 port)
  end.
(** [.hostname], [None] when it is empty; a zone after [%] keeps its case. *)
Definition u_hostname (u : url) : option string :=
  let '(host, _) := host_port u in
  if host =s? "" then None
  else let '(name, zone) := span_until "%" host in Some (str_lower name +:+ zone).
(** [.port]: [None] is the [ValueError] of a port that is no number up to 65535. *)
Definition u_port (u : url) : option (option Z) :=
  let '(_, port) := host_port u in
  if port =s? "" then Some None
  else if str_forall is_digit port then
    let z := digits_val 0 port in if z <=? 65535 then Some (Some z) else None
  else None.

Example url_parts :
  option_map (λ u, (u_scheme u, u_hostname u, u_port u, u_username u, u_path u, u_query u))
    (urlsplit "HTTP://user:pw@[::1]:8317/healthz?x=1#f") =
  Some ("http", Some "::1", Some (Some 8317), Some "user", "/healthz", "x=1").
Proof. reflexivity. Qed.
