(* ===== verification/LocalConfig.v ===== *)
(** * The desktop's configuration and files ([local/cloudx_local/config.py], [files.py])

    The configuration ([LocalSettings] loads it), and the atomic writes the parts share. *)

From S2P Require Import Prelude PyStr PyFloat PyValue PyTime PyJson FS.

(** ** The configuration *)

Record local_config := LocalConfig {
  lc_home : path; lc_state_dir : path;
  lc_auth_dir : option path; lc_archive_dir : option path;
  lc_failure_dir : option path; lc_sweep_dir : option path;
  lc_proxy_url : string; lc_binary : option path;
  lc_capability_manifest : option path; lc_capability_probe_url : string;
  lc_config_path : path; lc_data_dir : path; lc_cache_dir : path; lc_accounts_dir : path;
  lc_codex_binary : string; lc_ssh_binary : string; lc_ssh_host : string; lc_remote_helper : string;
  lc_forward_host : string; lc_forward_port : Z; lc_api_key_command : string;
  lc_idle_seconds : Z; lc_endpoint_timeout : pyfloat; lc_endpoint_attempts : Z;
  lc_release_repository : string }.

(** [base / "a/b"] with a relative text. *)
Definition under (base : path) (l : list string) : path := (base.1, base.2 ++ l).

(** [path.resolve(strict=False)]: a final link is followed, [..] goes up. *)
Fixpoint resolved_link (fuel : nat) (f : fs) (p : path) : path :=
  match f !! p with
  | Some (Link t) => match fuel with O => p | S fuel => resolved_link fuel f t end
  | _ => p
  end.
Fixpoint drop_dots (done rest : list string) : list string :=
  match rest with
  | [] => done
  | x :: rest => drop_dots (if x =s? ".." then List.removelast done else done ++ [x]) rest
  end.
Definition resolve_lax (p : path) : M path :=
  let! f := get_fs in
  let q := resolved_link MAX_LINKS f p in ret (q.1, drop_dots [] q.2).

(** [a.relative_to(b)] does not raise. *)
Definition inside (a b : path) : bool :=
  match relative_to a b with Some _ => true | None => false end.

(** ** Writing files *)

Definition ensure_private_directory (p : path) : M unit :=
  mkdir_parents p 511 ;; ignore_oserror (chmod p 448).

Definition atomic_write (p : path) (data : string) (mode : Z) : M unit :=
  ensure_private_directory (p_parent p) ;; write_replace ".cloudx-" mode p data.

Definition json_file_text (value : dict) : string :=
  dumps (st_pretty 2 true true) (JDict value) +:+ LF.
Definition atomic_json (p : path) (value : dict) (mode : Z) : M unit :=
  atomic_write p (json_file_text value) mode.

(** A configuration for examples: the defaults for a home directory. *)
Definition plain_config (home state : path) (auth_dir manifest : option path) (probe_url : string) : local_config :=
  LocalConfig home state auth_dir None None None "" None manifest probe_url
    (under home [".config"; "cloudx"; "config.json"]) (under home [".local"; "share"; "cloudx"])
    (under home [".cache"; "cloudx"]) (under home [".codex-accounts"])
    "codex" "ssh" "cloud" "cloudx-remote" "100.90.97.113" 8317 "cat key" 900 (FFin false 5 0) 3
    "git@github.com:N0RMANCHEN/cloudx.git".
