(* ===== verification/Capabilities.v ===== *)
(** * Attested capabilities ([local/cloudx_local/cpa_capabilities.py])

    A capability of the external CPA service is accepted when a manifest pins the
    digest of its binary and declares the capability, and the running service names it
    too.  [opener] stands for the HTTP client; [expanduser] for [Path.expanduser]. *)

From S2P Require Import Prelude PyStr PyFloat PyValue PyRe PyTime PyJson FS PySha Wp FileData.
From S2P Require Import CpaSweep PyUrl LocalConfig.

Definition CAPABILITIES_SCHEMA : string := "cloudx.local-cpa-capabilities.v1".
Definition CAPABILITY_HEADER : string := "X-Cloudx-CPA-Capabilities".
Definition CAP_MAX_MANIFEST_BYTES : Z := 64 * 1024.
Definition MAX_BINARY_BYTES : Z := 256 * 1024 * 1024.

Definition capability_head (c : ascii) : bool := is_lower c || is_digit c.
Definition capability_char (c : ascii) : bool := is_lower c || is_digit c || one_of "._-" c.
Definition is_capability (s : string) : bool :=
  match s with
  | String c r => capability_head c && str_forall capability_char r && Nat.leb (String.length s) 64
  | EmptyString => false
  end.
Definition is_sha256_text (s : string) : bool :=
  Nat.eqb (String.length s) 64 && str_forall (λ c, is_digit c || in_range 97 102 c) s.

Definition capability_error {A} (reason : string) : M A := mraise CpaCapabilityError reason.
Definition on_oserror {A} (m : M A) (reason : string) : M A :=
  try_with m (except [OSError] (λ _, capability_error reason)).

(** The device, the size and the time of change of an open file, or of a path: what the
    calls before and after reading compare.  The inode is not part of the model. *)
Definition identity_of (p : path) (n : node) : M (Z * Z * pyfloat) :=
  sys ;; λ E w, (Ok (dev E p, node_size n, mtime E (w_tick w) p), w).
Definition same_identity (a b : Z * Z * pyfloat) : bool := bool_decide (a = b).

Definition safe_regular_bytes (p : path) (maximum : Z) (reason : string) : M string :=
  let! link := (if p.1 then is_symlink_p p else ret true) in
  if link then capability_error reason else
  let! n := on_oserror (open_nofollow p) reason in
  let! (before, raw, after) := on_oserror
    (let! before := identity_of p n in
     if negb (is_reg n) || (maximum <? node_size n) then capability_error reason
     else let! data := read_node n in
          let! after := identity_of p n in
          ret (before, str_take_z (maximum + 1) data, after)) reason in
  if (maximum <? str_len raw) || negb (same_identity before after) then capability_error reason else
  let! current := on_oserror (let! i := lstat p in identity_of p i) reason in
  if negb (same_identity current after) then capability_error reason else ret raw.

Definition bounded_text (value : json) (maximum : nat) : string :=
  match value with
  | JStr s =>
      let text := strip s in
      if (text =s? "") || Nat.ltb maximum (ulen text) || str_exists is_control text then "" else text
  | _ => ""
  end.

Record attestation := Attestation {
  at_runtime_version : string; at_binary_sha256 : string; at_capabilities : list string }.

(** [capability not in result: append]. *)
Definition append_new (l : list string) (s : string) : list string :=
  if mem s l then l else l ++ [s].

Fixpoint declared_from (values : list json) (result : list string) : M (list string) :=
  match values with
  | [] => ret result
  | JStr value :: values =>
      let capability := casefold (strip value) in
      if negb (is_capability capability) then capability_error "manifest_invalid"
      else declared_from values (append_new result capability)
  | _ => capability_error "manifest_invalid"
  end.
Definition declared_capabilities (document : dict) : M (list string) :=
  match dget "capabilities" document with
  | JList ((_ :: _) as values) => declared_from values []
  | _ => capability_error "manifest_invalid"
  end.

Definition named_capabilities (value : string) : list string :=
  fold_left (λ l item,
    let capability := casefold (strip item) in
    if (capability <>s? "") && is_capability capability then append_new l capability else l)
    (split_char "," value) [].

Section attest.
Context (expanduser : path → path).
(** The answer to a GET of the address: its status and its capability header. *)
Context (opener : string → M (Z * json)).

Definition cap_manifest (config : local_config) : M dict :=
  match lc_capability_manifest config with
  | None => capability_error "manifest_missing"
  | Some configured =>
      let! raw := safe_regular_bytes (expanduser configured) CAP_MAX_MANIFEST_BYTES "manifest_unavailable" in
      match loads_bytes raw with
      | Ok (JDict document) =>
          if eq_str (dget "schema" document) CAPABILITIES_SCHEMA then ret document
          else capability_error "manifest_invalid"
      | _ => capability_error "manifest_invalid"
      end
  end.

Definition cap_binary (config : local_config) (document : dict) : M string :=
  let manifest_binary := bounded_text (dget "binary" document) 1024 in
  if manifest_binary =s? "" then capability_error "binary_unbound" else
  let declared := expanduser (path_of manifest_binary) in
  let p := match lc_binary config with Some configured => expanduser configured | None => declared end in
  if negb p.1 || negb declared.1 then capability_error "binary_unbound" else
  let! a := resolve_lax p in
  let! b := resolve_lax declared in
  if negb (bool_decide (a = b)) then capability_error "binary_unbound" else
  let! raw := safe_regular_bytes p MAX_BINARY_BYTES "binary_unavailable" in
  let! info := on_oserror (lstat p) "binary_unavailable" in
  if Z.land (node_mode info) 64 =? 0 then capability_error "binary_unavailable"
  else ret (sha256 raw).

(** [None] is the refusal [probe_invalid]. *)
Definition probe_url (config : local_config) : option string :=
  let value := strip (lc_capability_probe_url config) in
  let? u := urlsplit value in
  let? port := u_port u in
  if negb (u_scheme u =s? "http") ||
     negb (match u_hostname u with Some h => mem h ["127.0.0.1"; "::1"] | None => false end) ||
     negb (match port with Some _ => true | None => false end) ||
     (match u_username u with Some _ => true | None => false end) ||
     (match u_password u with Some _ => true | None => false end) ||
     negb (u_path u =s? "/healthz") || (u_query u <>s? "") || (u_fragment u <>s? "")
  then None else Some value.

Definition live_capabilities (config : local_config) : M (list string) :=
  match probe_url config with
  | None => capability_error "probe_invalid"
  | Some address =>
      let! (status_code, value) := try_with (opener address)
        (except [OSError; ValueError] (λ _, capability_error "probe_unavailable")) in
      match value with
      | JStr value =>
          if negb (status_code =? 200) then capability_error "probe_rejected"
          else ret (named_capabilities value)
      | _ => capability_error "probe_rejected"
      end
  end.

Definition attest (config : local_config) (required : string) : M attestation :=
  let capability := casefold (strip required) in
  if negb (is_capability capability) then capability_error "capability_invalid" else
  let! document := cap_manifest config in
  let! actual_digest := cap_binary config document in
  let expected_digest := casefold (bounded_text (dget "binarySha256" document) 64) in
  let runtime_version := bounded_text (dget "runtimeVersion" document) 128 in
  let! declared := declared_capabilities document in
  if negb (is_sha256_text expected_digest) || (actual_digest <>s? expected_digest)
  then capability_error "binary_digest_mismatch"
  else if (runtime_version =s? "") || negb (mem capability declared)
  then capability_error "capability_missing"
  else
    let! live := live_capabilities config in
    if negb (mem capability live) then capability_error "live_capability_missing"
    else ret (Attestation runtime_version actual_digest declared).

End attest.

(** * What an attestation guarantees

    A capability is attested only when the manifest on disk pins the digest of the bytes
    of the binary on disk and declares the capability, and the loopback service that the
    configuration names answered 200 and named it. *)

Implicit Types (E : env) (f g : fs) (k : nat) (w : world).

Lemma wp_on_oserror {A} (m : M A) reason E w (Φ : res A → world → Prop) :
  wp m E w (λ r w', match r with Ok a => Φ (Ok a) w' | Raise _ => ∀ e, Φ (Raise e) w' end) →
  wp (on_oserror m reason) E w Φ.
Proof.
  intros H. apply wp_try. eapply wp_mono; [exact H|]. intros [a|e] w' Hr; [done|].
  unfold except. destruct (existsb _ _); apply Hr.
Qed.

Lemma wp_regular_bytes p maximum reason E f k (Φ : res string → world → Prop) :
  (∀ raw k, data_at f p = Some raw → Φ (Ok raw) (World f k)) →
  (∀ e k, Φ (Raise e) (World f k)) →
  wp (safe_regular_bytes p maximum reason) E (World f k) Φ.
Proof.
  intros Ho Hr. unfold safe_regular_bytes.
  assert (Hid : ∀ n k (Ψ : res (Z * Z * pyfloat) → world → Prop),
    (∀ i k, Ψ (Ok i) (World f k)) → (∀ e k, Ψ (Raise e) (World f k)) →
    wp (identity_of p n) E (World f k) Ψ).
  { intros n k0 Ψ H1 H2. unfold identity_of. apply wp_bind, wp_sys; [intros k1; apply H1|by intros]. }
  apply wp_bind, wp_pure; [fs_pure_tac|]. intros [link|e] k1; [|apply Hr].
  destruct link; [by apply wp_throw|].
  apply wp_bind, wp_on_oserror. unfold open_nofollow. apply wp_bind, wp_sys; [intros k2|by intros].
  apply wp_bind, wp_get_fs. unfold data_at in Ho.
  destruct (f !! p) as [n|] eqn:Hp; [|apply wp_throw; by intros].
  assert (Hgo : ∀ k, wp
    (let! (before, raw, after) := on_oserror
      (let! before := identity_of p n in
       if negb (is_reg n) || (maximum <? node_size n) then capability_error reason
       else let! data := read_node n in
            let! after := identity_of p n in
            ret (before, str_take_z (maximum + 1) data, after)) reason in
     if (maximum <? str_len raw) || negb (same_identity before after) then capability_error reason else
     let! current := on_oserror (let! i := lstat p in identity_of p i) reason in
     if negb (same_identity current after) then capability_error reason else ret raw) E (World f k) Φ).
  { intros k3. apply wp_bind, wp_on_oserror, wp_bind, Hid; [intros before k4|by intros].
    destruct n as [d m|m|t|]; simpl; try (apply wp_throw; by intros).
    destruct (Z.ltb_spec maximum (str_len d)) as [Hs|Hs]; [apply wp_throw; by intros|].
    apply wp_bind, wp_bind, wp_sys; [intros k5|by intros]. apply wp_ret.
    apply wp_bind, Hid; [intros after k6|by intros]. apply wp_ret.
    rewrite str_take_z_all by lia.
    destruct (_ || _); [by apply wp_throw|].
    apply wp_bind, wp_pure; [unfold on_oserror, capability_error, mraise, identity_of; fs_pure_tac; by intros ? ?|].
    intros [current|e] k7; [|apply Hr].
    destruct (negb _); [by apply wp_throw|apply wp_ret; by apply Ho]. }
  destruct n; try (apply wp_throw; by intros); apply wp_ret, Hgo.
Qed.

(** A probe goes to the health page of the machine itself, without credentials. *)
Definition loopback (address : string) : Prop :=
  ∃ u port, urlsplit address = Some u ∧ u_scheme u = "http"%string ∧
    (u_hostname u = Some "127.0.0.1"%string ∨ u_hostname u = Some "::1"%string) ∧
    u_port u = Some (Some port) ∧ u_username u = None ∧ u_password u = None ∧
    u_path u = "/healthz"%string ∧ u_query u = EmptyString ∧ u_fragment u = EmptyString.

Lemma eqs_true s t : (s =s? t) = true → s = t.
Proof. by destruct (eqs_spec s t). Qed.

Lemma probe_url_loopback config address : probe_url config = Some address → loopback address.
Proof.
  unfold probe_url. destruct (urlsplit _) as [u|] eqn:Hu; [|done].
  destruct (u_port u) as [port|] eqn:Hport; [|done].
  destruct (_ || _) eqn:Hok; [done|]. intros [= <-].
  repeat (apply orb_false_iff in Hok as [Hok ?]).
  rewrite !negb_false_iff in *.
  destruct (u_hostname u) as [h|] eqn:Hh; [|done]. destruct port as [port|]; [|done].
  destruct (u_username u) eqn:Husr; [done|]. destruct (u_password u) eqn:Hpw; [done|].
  exists u, port. split_and!; try done; try (by apply eqs_true).
  match goal with H : mem h _ = true |- _ => apply mem_spec in H as [<-|[<-|[]]] end; auto.
Qed.

Section attested.
Context (expanduser : path → path) (opener : string → M (Z * json)).
Context (Hopener : ∀ address, fs_pure (opener address)).
Context (config : local_config).

(** What is known of an attested capability, in the files [f]. *)
Record attested (E : env) (capability : string) (f : fs) (a : attestation) : Prop := {
  at_manifest : ∃ p raw document, lc_capability_manifest config = Some p ∧
    data_at f (expanduser p) = Some raw ∧ loads_bytes raw = Ok (JDict document) ∧
    dget "schema" document = JStr CAPABILITIES_SCHEMA ∧
    at_binary_sha256 a = casefold (bounded_text (dget "binarySha256" document) 64) ∧
    at_runtime_version a = bounded_text (dget "runtimeVersion" document) 128;
  at_binary : ∃ p raw, data_at f p = Some raw ∧ at_binary_sha256 a = sha256 raw;
  at_version : at_runtime_version a ≠ EmptyString;
  at_declared : In capability (at_capabilities a);
  at_live : ∃ address w w' header, probe_url config = Some address ∧ loopback address ∧
    opener address E w = (Ok (200, JStr header), w') ∧ In capability (named_capabilities header) }.

Lemma wp_manifest E f k (Φ : res dict → world → Prop) :
  (∀ document k, (∃ p raw, lc_capability_manifest config = Some p ∧
      data_at f (expanduser p) = Some raw ∧ loads_bytes raw = Ok (JDict document) ∧
      dget "schema" document = JStr CAPABILITIES_SCHEMA) → Φ (Ok document) (World f k)) →
  (∀ e k, Φ (Raise e) (World f k)) →
  wp (cap_manifest expanduser config) E (World f k) Φ.
Proof.
  intros Ho Hr. unfold cap_manifest. destruct (lc_capability_manifest config) as [p|]; [|by apply wp_throw].
  apply wp_bind, wp_regular_bytes; [intros raw k1 Hraw|by intros].
  destruct (loads_bytes raw) as [[| | | | | |document]|] eqn:Hl; try by apply wp_throw.
  destruct (eq_str _ _) eqn:Hs; [|by apply wp_throw]. apply wp_ret, Ho.
  exists p, raw. split_and!; try done. revert Hs. unfold eq_str.
  destruct (dget "schema" document); try done. by intros ->%eqs_true.
Qed.

Lemma wp_binary document E f k (Φ : res string → world → Prop) :
  (∀ raw p k, data_at f p = Some raw → Φ (Ok (sha256 raw)) (World f k)) →
  (∀ e k, Φ (Raise e) (World f k)) →
  wp (cap_binary expanduser config document) E (World f k) Φ.
Proof.
  intros Ho Hr. unfold cap_binary. destruct (_ =s? _); [by apply wp_throw|]. cbv zeta.
  match goal with |- wp (if ?b then _ else _) _ _ _ => destruct b end; [by apply wp_throw|].
  apply wp_bind, wp_pure; [unfold resolve_lax; fs_pure_tac|]. intros [a|e] k1; [|apply Hr].
  apply wp_bind, wp_pure; [unfold resolve_lax; fs_pure_tac|]. intros [b|e] k2; [|apply Hr].
  destruct (negb _); [by apply wp_throw|].
  apply wp_bind, wp_regular_bytes; [intros raw k3 Hraw|by intros].
  apply wp_bind, wp_pure; [unfold on_oserror, capability_error, mraise; fs_pure_tac|].
  intros [info|e] k4; [|apply Hr]. destruct (_ =? _); [by apply wp_throw|]. apply wp_ret. by eapply Ho.
Qed.

Lemma fs_pure_declared_from values result : fs_pure (declared_from values result).
Proof.
  revert result. induction values as [|[] values IH]; intros result; simpl;
    unfold capability_error, mraise; fs_pure_tac.
Qed.

Lemma wp_live E f k (Φ : res (list string) → world → Prop) :
  (∀ l k, (∃ address w w' header, probe_url config = Some address ∧ loopback address ∧
     opener address E w = (Ok (200, JStr header), w') ∧ l = named_capabilities header) →
     Φ (Ok l) (World f k)) →
  (∀ e k, Φ (Raise e) (World f k)) →
  wp (live_capabilities opener config) E (World f k) Φ.
Proof using Hopener.
  intros Ho Hr. unfold live_capabilities. destruct (probe_url config) as [address|] eqn:Hu; [|by apply wp_throw].
  apply wp_bind, wp_try. unfold wp. pose proof (Hopener address E (World f k)) as Hpure.
  destruct (opener address E (World f k)) as [r [g k1]] eqn:Hop. simpl in Hpure. subst g. simpl.
  destruct r as [[status value]|e].
  - destruct value; try (by apply Hr). destruct (Z.eqb_spec status 200) as [->|]; [|by apply Hr].
    apply Ho. exists address, (World f k), (World f k1), s. split_and!; try done.
    by eapply probe_url_loopback.
  - unfold except. destruct (existsb _ _); apply Hr.
Qed.

Lemma wp_attest required E f k :
  wp (attest expanduser opener config required) E (World f k) (λ r w', w_fs w' = f ∧
    ∀ a, r = Ok a → is_capability (casefold (strip required)) = true ∧
                    attested E (casefold (strip required)) f a).
Proof using Hopener.
  assert (Hr : ∀ (e : exn) k, w_fs (World f k) = f ∧ ∀ a, Raise e = Ok a →
    is_capability (casefold (strip required)) = true ∧ attested E (casefold (strip required)) f a) by done.
  unfold attest. destruct (is_capability (casefold (strip required))) eqn:Hcap; [|by apply wp_throw]. simpl negb.
  cbv iota. apply wp_bind, wp_manifest; [intros document k1 Hman|by intros].
  apply wp_bind, wp_binary; [intros raw p k2 Hraw|by intros].
  apply wp_bind, wp_pure.
  { unfold declared_capabilities, capability_error, mraise. fs_pure_tac; apply fs_pure_declared_from. }
  intros [declared|e] k3; [|apply Hr].
  destruct (negb _ || _) eqn:Hdig; [by apply wp_throw|]. apply orb_false_iff in Hdig as [_ Hdig].
  destruct (_ || _) eqn:Hver; [by apply wp_throw|]. apply orb_false_iff in Hver as [Hver Hdec].
  apply wp_bind, wp_live; [intros l k4 Hlive|by intros].
  destruct (negb (mem _ l)) eqn:Hmem; [by apply wp_throw|].
  apply wp_ret. split; [done|]. intros a [= <-]. split; [done|].
  apply negb_false_iff in Hdig, Hdec, Hmem. apply eqs_true in Hdig. apply mem_spec in Hdec, Hmem.
  destruct Hman as (pm & rawm & Hm1 & Hm2 & Hm3 & Hm4).
  destruct Hlive as (address & w & w' & header & Ha & Hl & Hop & ->).
  split; simpl; [by exists pm, rawm, document|by exists p, raw| |done|by exists address, w, w', header].
  intros Hv. rewrite Hv in Hver. done.
Qed.
End attested.


Definition pinned_manifest : string :=
  dumps (st_default false true) (JDict
    [("schema", JStr CAPABILITIES_SCHEMA); ("binary", JStr "/bin/cpa");
     ("binarySha256", JStr (sha256 "program")); ("runtimeVersion", JStr "7.0");
     ("capabilities", JList [JStr "agent-identity-v1"])]).
Definition pinned_files : fs :=
  list_to_map [(path_of "/manifest.json", File pinned_manifest 384); (path_of "/bin", Dir 493);
               (path_of "/bin/cpa", File "program" 493)].
Definition pinned_config : local_config :=
  plain_config (path_of "/home") (path_of "/state") None (Some (path_of "/manifest.json"))
    "http://127.0.0.1:8317/healthz".
Definition healthy_service (address : string) : M (Z * json) :=
  ret (200, JStr "streaming, agent-identity-v1").
Definition unchanged_path (p : path) : path := p.
Definition pinned_env : env :=
  Env (λ _, false) (λ k, pretty k) (λ _, 0) (λ _ _, FFin false 0 0) (λ _ _, false) (λ _, 0).

