(* ===== verification/LocalImport.v ===== *)
(** * The desktop's credential import ([local/cloudx_local/local_cpa_import.py])

    A file, a directory or a text is read, its credentials flattened to one layout,
    duplicates dropped, a file name planned for each, and the files written as one
    transaction that is verified and, on any failure, undone.

    [url_open] stands for the token endpoint: it takes the body of the request and gives
    the body of the answer or the status of an HTTP error; [expanduser] is
    [Path.expanduser]; [opener] is the HTTP client of [Capabilities]. *)

From S2P Require Import Prelude PyStr PyFloat PyValue PyRe PyTime PyJson PyBase64 PySha FS.
From S2P Require Import AgentIdentity CpaRecords Importer LocalConfig Capabilities.

Definition LOCAL_MAX_SOURCE_BYTES : Z := 16 * 1024 * 1024.
Definition MAX_TOTAL_SOURCE_BYTES : Z := 64 * 1024 * 1024.
Definition MAX_CANDIDATE_FILES : nat := 1024.
Definition LOCK_TIMEOUT_SECONDS : Z := 10.
Definition IMPORT_SUFFIXES : list string :=
  [""; ".json"; ".jsonl"; ".ndjson"; ".txt"; ".md"; ".log"; ".data"].
Definition IGNORED_DIRECTORY_NAMES : list string :=
  [".git"; ".hg"; ".svn"; ".venv"; "node_modules"; "__pycache__"].
Definition CLIPROXY_AUTH_BUNDLE_TYPE : string := "codexx-cliproxy-auth-bundle".
Definition LOCAL_CODEX_CLIENT_ID : string := "app_EMoamEEZ73f0CkXaXp7hrann".
Definition in_quotes (s : string) : string := QUOTE +:+ s +:+ QUOTE.
Definition AUTH_MARKERS : list string :=
  map in_quotes ["access_token"; "refresh_token"; "id_token"; "credentials"; "accounts";
                 "agent_private_key"; "agent_runtime_id"] ++ [CLIPROXY_AUTH_BUNDLE_TYPE].

Definition import_error {A} (code msg : string) : res A := raise_code LocalImportError code msg.

Record raw_card_credential := RawCardCredential {
  rc_line_number : Z; rc_email : string; rc_client_id : string; rc_refresh_token : string }.

Record local_import_result := LocalImportResult {
  li_dry_run : bool; li_discovered : Z; li_ignored : Z; li_parsed : Z; li_duplicates : Z;
  li_written : Z; li_unchanged : Z; li_verified : Z }.
Definition skipped_items (r : local_import_result) : Z :=
  li_ignored r + li_duplicates r + li_unchanged r.
Definition result_document (r : local_import_result) : dict :=
  [("schema", JStr "cloudx.local-cpa-import.v1");
   ("status", JStr (if li_dry_run r then "preview" else "accepted"));
   ("destination", JStr "local_cpa"); ("dryRun", JBool (li_dry_run r));
   ("counts", JDict
     [("discovered", JInt (li_discovered r)); ("ignored", JInt (li_ignored r));
      ("parsed", JInt (li_parsed r)); ("duplicates", JInt (li_duplicates r));
      ("written", JInt (li_written r)); ("unchanged", JInt (li_unchanged r));
      ("skipped", JInt (skipped_items r)); ("verified", JInt (li_verified r))]);
   ("verification", JStr (if li_dry_run r then "preview_only" else "complete"));
   ("adapter", JStr "cloudx_native_compatibility");
   ("externalService", JDict [("managed", JBool false); ("restarted", JBool false)]);
   ("errors", JList [])].

Record planned_file := PlannedFile { pf_name : string; pf_payload : string }.

Definition failure_document (code message : string) (dry_run : bool) : dict :=
  [("schema", JStr "cloudx.local-cpa-import.v1"); ("status", JStr "rejected");
   ("destination", JStr "local_cpa"); ("dryRun", JBool dry_run);
   ("counts", JDict (map (λ k, (k, JInt 0))
     ["discovered"; "ignored"; "parsed"; "duplicates"; "written"; "unchanged"; "skipped"; "verified"]));
   ("verification", JStr "not_performed"); ("adapter", JStr "cloudx_native_compatibility");
   ("externalService", JDict [("managed", JBool false); ("restarted", JBool false)]);
   ("errors", JList [JDict [("code", JStr code); ("message", JStr message)]])].

(** ** Records *)

Definition local_token (k : string) (data : dict) : string :=
  let token := dict_or_empty (dget "token" data) in
  let tokens := dict_or_empty (dget "tokens" data) in
  strip (str_first [dget k data; dget k token; dget k tokens]).
Definition local_auth_tokens (data : dict) : string * string * string :=
  (local_token "access_token" data, local_token "refresh_token" data, local_token "id_token" data).
Definition local_account_id (data : dict) : string :=
  let token := dict_or_empty (dget "token" data) in
  let tokens := dict_or_empty (dget "tokens" data) in
  strip (str_first [dget "account_id" data; dget "chatgpt_account_id" data;
                    dget "account_id" token; dget "account_id" tokens]).

Definition decode_jwt_payload (token : string) : dict :=
  if Nat.ltb (count_char "." token) 2 then []
  else
    let raw := second_part token in
    match (let? decoded := urlsafe_b64decode (raw +:+ padding raw) in Some (loads_bytes decoded)) with
    | Some (Ok (JDict value)) => value
    | _ => []
    end.

(** An integer is exact; what no date can hold is the empty text. *)
Definition local_iso_from_epoch (value : json) : string :=
  match (match value with
         | JInt z => let w := EPOCH_US + z * US in if valid_wall w then Some (utc w) else None
         | JFloat f => fromtimestamp f
         | _ => None
         end) with
  | Some t => replace_utc (isoformat t)
  | None => ""
  end.

Definition SUB2API_KEYS : list string :=
  ["name"; "type"; "provider"; "last_refresh"; "plan_type"; "status"; "source"; "label"].

Definition local_sub2api_payload (entry : dict) : dict :=
  match dget "credentials" entry with
  | JDict ((_ :: _) as credentials) =>
      let payload := credentials in
      let payload :=
        if truthy (dget "expires_at" payload) && negb (truthy (dget "auth_expires_at" payload))
        then dset "auth_expires_at" (dget "expires_at" payload) payload else payload in
      let payload := fold_left (λ p key,
        match dlookup key entry with
        | Some v => if dmem key p then p else dset key v p
        | None => p
        end) SUB2API_KEYS payload in
      let payload :=
        if truthy (dget "chatgpt_account_id" payload) && negb (truthy (dget "account_id" payload))
        then dset "account_id" (dget "chatgpt_account_id" payload) payload else payload in
      if negb (truthy (dget "email" payload)) && contains "@" (str_or_empty (dget "name" entry))
      then dset "email" (dget "name" entry) payload else payload
  | _ => []
  end.

Definition CLAIM : string := "https://api.openai.com/auth".
Definition auth_claim (id_payload access_payload : dict) : dict :=
  match dget CLAIM id_payload with
  | JDict d => d
  | _ => dict_or_empty (dget CLAIM access_payload)
  end.

Definition FLAT_KEYS : list string := ["last_refresh"; "plan_type"; "status"; "source"; "label"].

Definition local_flat_record (payload : dict) (account_id email expires_at : string) : dict :=
  let '(access_token, refresh_token, id_token) := local_auth_tokens payload in
  let flat :=
    [("type", JStr "codex"); ("disabled", JBool (truthy (dget "disabled" payload)));
     ("websockets", JBool (truthy (dget "websockets" payload)));
     ("access_token", JStr access_token); ("refresh_token", JStr refresh_token);
     ("id_token", JStr id_token); ("account_id", JStr account_id)] in
  fold_left (λ flat key, match dlookup key payload with Some v => dset key v flat | None => flat end)
    FLAT_KEYS (set_text "expired" expires_at (set_text "email" email flat)).

Definition flat_auth (entry : dict) (label : string) : res dict :=
  let sub2api := local_sub2api_payload entry in
  let payload := match sub2api with [] => entry | _ => sub2api end in
  if is_agent_identity payload then
    match normalize payload "" "" with
    | Ok r => Ok r
    | Raise e =>
        if catches AgentIdentityError (exn_cls e)
        then import_error "credential_invalid" ("Agent Identity credential is invalid: " +:+ exn_msg e)
        else Raise e
    end
  else
  let auth_type := casefold (strip (str_first [dget "type" payload; dget "provider" payload])) in
  if match sub2api with [] => (auth_type <>s? "") && (auth_type <>s? "codex") | _ => false end
  then import_error "unsupported_provider" (label +:+ " is not a Codex credential")
  else
  let '(access_token, _, id_token) := local_auth_tokens payload in
  if negb (any_token (local_auth_tokens payload))
  then import_error "credential_invalid" (label +:+ " has no access, refresh, or ID token")
  else
  let access_payload := decode_jwt_payload access_token in
  let id_payload := decode_jwt_payload id_token in
  let email := strip (str_first [dget "email" payload; dget "user_email" payload; dget "name" entry;
                                 dget "email" id_payload; dget "preferred_username" id_payload]) in
  let account_id := strip (str_or (local_account_id payload)
    (str_or_empty (dget "chatgpt_account_id" (auth_claim id_payload access_payload)))) in
  let expires_at := strip (str_first [dget "expired" payload; dget "expiry" payload;
    dget "auth_expires_at" payload; dget "expires_at" payload;
    JStr (local_iso_from_epoch (dget "exp" access_payload));
    JStr (local_iso_from_epoch (dget "exp" id_payload))]) in
  Ok (local_flat_record payload account_id email expires_at).

(** [for index, item in enumerate(items, start=1)]. *)
Fixpoint map_indexed {A B} (f : Z → A → res B) (index : Z) (l : list A) : res (list B) :=
  match l with
  | [] => Ok []
  | x :: l => let* y := f index x in let* ys := map_indexed f (index + 1) l in Ok (y :: ys)
  end.

Definition bundle_entry (label : string) (index : Z) (item : json) : res dict :=
  match item with
  | JDict i => match dget "data" i with
               | JDict data => flat_auth data (label +:+ " bundle entry " +:+ str_of_Z index)
               | _ => import_error "credential_invalid"
                        (label +:+ " bundle entry " +:+ str_of_Z index +:+ " is invalid")
               end
  | _ => import_error "credential_invalid"
           (label +:+ " bundle entry " +:+ str_of_Z index +:+ " is invalid")
  end.
Definition account_entry (label : string) (index : Z) (item : json) : res dict :=
  match item with
  | JDict i => flat_auth i (label +:+ " account " +:+ str_of_Z index)
  | _ => import_error "credential_invalid" (label +:+ " account " +:+ str_of_Z index +:+ " is invalid")
  end.

Definition expand_object (document : dict) (label : string) : res (list dict) :=
  if eq_str (dget "type" document) CLIPROXY_AUTH_BUNDLE_TYPE then
    match dget "files" document with
    | JList ((_ :: _) as files) => map_indexed (bundle_entry label) 1 files
    | _ => import_error "credential_invalid" (label +:+ " has no auth bundle files")
    end
  else if dmem "accounts" document then
    match dget "accounts" document with
    | JList ((_ :: _) as accounts) => map_indexed (account_entry label) 1 accounts
    | _ => import_error "credential_invalid" (label +:+ " has no account entries")
    end
  else let* r := flat_auth document label in Ok [r].

(** ** Texts *)

(** From each brace on, one object; the offset of the message is left out. *)
Fixpoint local_decode_documents (fuel : nat) (text : string) : res (list dict) :=
  match fuel with
  | O => Ok []
  | S fuel =>
      match str_find "{" text with
      | None => Ok []
      | Some start =>
          match raw_decode (str_drop start text) with
          | None => import_error "invalid_json" "cannot parse JSON object"
          | Some (JDict item, rest) =>
              let* documents := local_decode_documents fuel rest in Ok (item :: documents)
          | Some _ => import_error "invalid_json" "every concatenated JSON value must be an object"
          end
      end
  end.

Fixpoint all_dicts (l : list json) : option (list dict) :=
  match l with
  | [] => Some []
  | JDict d :: l => let? ds := all_dicts l in Some (d :: ds)
  | _ => None
  end.

Definition local_json_documents (text : string) : res (list dict) :=
  let stripped := strip text in
  if stripped =s? "" then import_error "source_empty" "import source is empty"
  else match (match loads stripped with Ok JNull | Raise _ => None | Ok v => Some v end) with
       | Some (JDict d) => Ok [d]
       | Some (JList l) =>
           match l, all_dicts l with
           | _ :: _, Some ds => Ok ds
           | _, _ => import_error "invalid_json" "JSON arrays must contain one or more objects"
           end
       | Some _ => import_error "invalid_json" "import JSON must be an object or array of objects"
       | None =>
           if negb (contains "{" stripped) then
             if starts_with "[" stripped
             then import_error "invalid_json" "import JSON array is malformed" else Ok []
           else
             let* documents := local_decode_documents (S (String.length stripped)) stripped in
             match documents with
             | [] => import_error "invalid_json" "no JSON objects were found"
             | _ => Ok documents
             end
       end.

(** One line: nothing, a card, or an unrecognised line. *)
Definition local_card (line_number : Z) (raw : string) : option (option raw_card_credential) :=
  let line := lstrip_bom (String.length raw) (strip raw) in
  if (line =s? "") || (line =s? "卡密导出") then Some None
  else match raw_card line with
       | None => None
       | Some (email, client_id, refresh_token) =>
           let email := strip email in
           let refresh_token := strip refresh_token in
           if negb (contains "@" email) || negb (starts_with "rt." refresh_token) ||
              Nat.ltb (count_char "." refresh_token) 2
           then None
           else Some (Some (RawCardCredential line_number email
                       (str_or (strip client_id) LOCAL_CODEX_CLIENT_ID) refresh_token))
       end.
Fixpoint scan_cards (line_number : Z) (lines : list string)
    : list raw_card_credential * list Z :=
  match lines with
  | [] => ([], [])
  | raw :: lines =>
      let '(cards, invalid) := scan_cards (line_number + 1) lines in
      match local_card line_number raw with
      | Some None => (cards, invalid)
      | Some (Some card) => (card :: cards, invalid)
      | None => (cards, line_number :: invalid)
      end
  end.
Definition raw_cards (text : string) : res (list raw_card_credential) :=
  let '(cards, invalid) := scan_cards 1 (splitlines text) in
  match cards with
  | [] =>
      let detail := str_join ", " (map str_of_Z (firstn 5 invalid)) in
      import_error "unsupported_format"
        ("no JSON credentials or raw card lines were recognized" +:+
         (if detail =s? "" then "" else "; unrecognized lines: " +:+ detail))
  | _ => Ok cards
  end.

(** ** Sources *)

(** [path.is_symlink], [stat] and [read_bytes], and the decodings that are tried. *)
Definition lraise {A} (code msg : string) : M A := lift (import_error code msg).

Definition decode_text (raw : string) : res string :=
  if contains NUL raw && negb (starts_with BOM_LE raw || starts_with BOM_BE raw)
  then import_error "source_not_text" "import source is not text"
  else match decode_utf8_sig raw with
       | Ok text => Ok text
       | Raise _ =>
           match decode_utf16 raw with
           | Some text => Ok text
           | None => import_error "source_not_text" "import source is not UTF-8 or UTF-16 text"
           end
       end.

Definition read_source (p : path) : M string :=
  let! link := is_symlink_p p in
  if link then lraise "source_unsafe" "import source must not be a symlink" else
  let! (size, raw) := try_with
    (let! n := stat p in let! raw := read_bytes p in ret (node_size n, raw))
    (except [OSError] (λ _, lraise "source_unreadable" "import source could not be read")) in
  if (LOCAL_MAX_SOURCE_BYTES <? size) || (LOCAL_MAX_SOURCE_BYTES <? str_len raw)
  then lraise "source_too_large" "an import source exceeds the 16 MiB limit"
  else lift (decode_text raw).

Definition marker_present (text : string) : bool :=
  existsb (λ marker, contains (casefold marker) (casefold text)) AUTH_MARKERS ||
  existsb (λ line, match raw_card (lstrip_bom (String.length line) (strip line)) with
                   | Some _ => true | None => false end) (splitlines text).

(** Characters above the ASCII range are taken as alphanumeric. *)
Definition name_char (c : ascii) : bool := is_alnum c || Nat.leb 128 (ord c) || one_of "-_." c.
Definition safe_name (value : string) : string :=
  let cleaned := str_map (λ c, if name_char c then c else "-"%char) value in
  str_or (utake 120 (strip_by (one_of ".-") cleaned)) "auth".

Definition HINT_SUFFIXES : list string := [".jsonl"; ".ndjson"; ".json"; ".txt"; ".md"; ".log"; ".data"].
Definition source_hint (p : path) (index total : Z) : string :=
  let stem := safe_name (p_name p) in
  let stem := match List.find (λ suffix, ends_with suffix (casefold stem)) HINT_SUFFIXES with
              | Some suffix => drop_last (String.length suffix) stem
              | None => stem
              end in
  if 1 <? total then stem +:+ "-" +:+ str_of_Z index else stem.
Fixpoint source_hints (p : path) (index : Z) (n : nat) (total : Z) : list string :=
  match n with
  | O => []
  | S n => source_hint p index total :: source_hints p (index + 1) n total
  end.

(** [sorted(directory.rglob("*"))]: what lies below the directory through real
    directories, by its parts. *)
Fixpoint parts_leb (l k : list string) : bool :=
  match l, k with
  | [], _ => true
  | _ :: _, [] => false
  | x :: l, y :: k => if x =s? y then parts_leb l k else str_leb x y
  end.
Definition below (f : fs) (directory p : path) : bool :=
  Bool.eqb p.1 directory.1 &&
  match strip_prefix directory.2 p.2 with
  | Some ((_ :: _) as l) =>
      forallb (λ q, opt_is is_dirn (f !! (p.1, directory.2 ++ q))) (removelast (prefixes_of [] l))
  | _ => false
  end.
Definition rglob (directory : path) : M (list path) :=
  let! f := get_fs in
  ret (sort_by (λ p q, parts_leb p.2 q.2)
    (List.filter (below f directory) (map fst (map_to_list f)))).

(** ** Duplicates and names *)

Definition local_fingerprint (flat : dict) : string :=
  sha256 (str_join NUL
    match fingerprint_parts flat with
    | [] => let '(access, refresh, identity) := local_auth_tokens flat in [access; refresh; identity]
    | parts => parts
    end).

(** The first record of each fingerprint with its hint, and the number of the others. *)
Fixpoint deduplicate (seen : list string) (l : list (dict * string)) : list (dict * string) * Z :=
  match l with
  | [] => ([], 0)
  | (flat, hint) :: l =>
      let fingerprint := local_fingerprint flat in
      if mem fingerprint seen then
        let '(unique, duplicates) := deduplicate seen l in (unique, duplicates + 1)
      else
        let '(unique, duplicates) := deduplicate (fingerprint :: seen) l in
        ((flat, hint) :: unique, duplicates)
  end.

Definition codex_prefixed (stem : string) : string :=
  if starts_with "codex-" stem then stem else "codex-" +:+ stem.
Definition planned_stem (name_prefix : string) (index : Z) (flat : dict) (hint : string) : string :=
  let email := strip (str_or_empty (dget "email" flat)) in
  if (email <>s? "") && contains "@" email then
    safe_name ("codex-" +:+ replace_char "@" "-" email)
  else if hint <>s? "" then codex_prefixed (safe_name hint)
  else safe_name (codex_prefixed (safe_name (str_or name_prefix "codexx-import")) +:+ "-" +:+ str_of_Z index).

Definition flat_text (flat : dict) : string := dumps (st_pretty 2 true false) (JDict flat) +:+ LF.

(** [used]: how often a stem has been planned. *)
Fixpoint plan_files_from (used : gmap string Z) (index : Z) (name_prefix : string)
    (l : list (dict * string)) : list planned_file :=
  match l with
  | [] => []
  | (flat, hint) :: l =>
      let stem := planned_stem name_prefix index flat hint in
      let count := default 0 (used !! stem) + 1 in
      let filename := stem +:+ (if 1 <? count then "-" +:+ str_of_Z count else "") +:+ ".json" in
      PlannedFile filename (flat_text flat) ::
      plan_files_from (<[stem := count]> used) (index + 1) name_prefix l
  end.
Definition plan_files (l : list (dict * string)) (name_prefix : string) : list planned_file :=
  plan_files_from ∅ 1 name_prefix l.

Definition canonical_json (raw : string) : res string :=
  match loads_bytes raw with
  | Ok (JDict document) => Ok (flat_text document)
  | Ok _ => import_error "target_invalid" "an existing target auth file is not a JSON object"
  | Raise _ => import_error "target_invalid" "an existing target auth file is invalid JSON"
  end.

(** ** The transaction *)

Definition LOCK_FILE : string := ".cloudx-import.lock".

(** [os.open(path, O_RDWR | O_CREAT | O_NOFOLLOW, 0o600)]. *)
Definition open_create_nofollow (p : path) : M unit :=
  sys ;; let! f := get_fs in
  match f !! p with
  | Some (Link _) => oserror "too many levels of symbolic links"
  | Some (Dir _) => oserror "is a directory"
  | Some _ => ret tt
  | None => if parent_is_dir f p then update p (File "" 384) else missing
  end.

(** A sleep of 50 ms between the attempts leaves room for at most 201 of them. *)
Definition LOCK_ATTEMPTS : nat := 201.
Fixpoint acquire_lock (fuel : nat) (p : path) (deadline : Z) : M unit :=
  match fuel with
  | O => lraise "lock_busy" "another local CPA import is in progress"
  | S fuel =>
      try_with (try_lock p)
        (except [BlockingIOError] (λ _,
           let! now := now_us in
           if deadline <=? now then lraise "lock_busy" "another local CPA import is in progress"
           else acquire_lock fuel p deadline))
  end.

Definition with_import_lock {A} (auth_dir : path) (body : M A) : M A :=
  ensure_private_directory auth_dir ;;
  let lock_path := (auth_dir.1, auth_dir.2 ++ [LOCK_FILE]) in
  let! link := is_symlink_p lock_path in
  if link then lraise "target_unsafe" "local CPA import lock is a symlink" else
  try_with (open_create_nofollow lock_path)
    (except [OSError] (λ _, lraise "lock_unavailable" "local CPA import lock could not be opened")) ;;
  finally
    (chmod lock_path 384 ;;
     let! now := now_us in
     acquire_lock LOCK_ATTEMPTS lock_path (now + LOCK_TIMEOUT_SECONDS * US) ;;
     body)
    (finally sys sys (* unlock, then close *)).

(** [(target, what it holds, whether that is the payload already)]. *)
Definition target_state (auth_dir : path) (plan : planned_file) : M (path * option string * bool) :=
  let target := (auth_dir.1, auth_dir.2 ++ [pf_name plan]) in
  let! link := is_symlink_p target in
  let! unsafe :=
    (if link then ret true
     else let! present := exists_p target in
          if present then let! file := is_file_p target in ret (negb file) else ret false) in
  if unsafe then lraise "target_unsafe" ("target auth path is not a regular file: " +:+ pf_name plan) else
  let! original := try_with
    (let! file := is_file_p target in
     if file then let! raw := read_bytes target in ret (Some raw) else ret None)
    (except [OSError] (λ _,
       lraise "target_unreadable" ("target auth file could not be read: " +:+ pf_name plan))) in
  match original with
  | Some raw =>
      let! canonical := lift (canonical_json raw) in
      ret (target, original, canonical =s? pf_payload plan)
  | None => ret (target, None, false)
  end.

(** [(payload, target, what it held)]. *)
Definition change : Type := (string * path * option string)%type.

Definition conflicts (states : list (path * option string * bool)) : list string :=
  flat_map (λ s : path * option string * bool, let '(target, original, same) := s in
    match original with Some _ => if same then [] else [p_name target] | None => [] end) states.
Definition refuse_conflict (force : bool) (states : list (path * option string * bool)) : M unit :=
  match conflicts states with
  | name :: _ =>
      if force then ret tt
      else lraise "target_conflict" ("target auth JSON already exists: " +:+ name)
  | [] => ret tt
  end.

Definition changes_of (plans : list planned_file) (states : list (path * option string * bool))
    : list change :=
  flat_map (λ ps : planned_file * (path * option string * bool),
    let '(plan, (target, original, same)) := ps in
    if (same : bool) then [] else [(pf_payload plan, target, original)])
    (combine plans states).

(** One write of the undo: whether it failed. *)
Definition undo_one (c : path * option string) : M bool :=
  try_with
    (match c.2 with
     | None =>
         let! f := get_fs in
         (match f !! c.1 with None => sys | Some _ => unlink c.1 end) ;; ret false
     | Some original => atomic_write c.1 original 384 ;; ret false
     end)
    (except [OSError] (λ _, ret true)).
Fixpoint undo_all (completed : list (path * option string)) : M bool :=
  match completed with
  | [] => ret false
  | c :: completed =>
      let! failed := undo_one c in
      let! others := undo_all completed in
      ret (failed || others)
  end.

(** The undo of the writes that were completed, the last first, and the error that
    stands for [e]. *)
Definition roll_back (completed : list (path * option string)) (e : exn) : M unit :=
  let! rollback_failed := undo_all completed in
  if rollback_failed
  then lraise "rollback_failed" "local CPA import failed and rollback was incomplete"
  else if catches LocalImportError (exn_cls e) then throw e
  else lraise "write_failed" "local CPA auth files could not be written atomically".

Definition verify_change (c : change) : M unit :=
  let '(payload, target, _) := c in
  let! written := read_bytes target in
  if written <>s? payload then lraise "verification_failed" "written auth file failed byte verification"
  else
    let! document := lift (loads_bytes payload) in
    match document with
    | JDict d =>
        if any_token (local_auth_tokens d) || is_valid d then ret tt
        else lraise "verification_failed" "written auth file failed credential verification"
    | _ => lraise "verification_failed" "written auth file failed credential verification"
    end.

(** The writes; [completed] are those done, the last first; any exception undoes them. *)
Fixpoint write_changes (l all : list change) (completed : list (path * option string)) : M unit :=
  match l with
  | (payload, target, original) :: l =>
      try_with (atomic_write target payload 384) (except_all (roll_back completed)) ;;
      write_changes l all ((target, original) :: completed)
  | [] => try_with (miter verify_change all) (except_all (roll_back completed))
  end.

Definition count_same (states : list (path * option string * bool)) : Z :=
  Z.of_nat (length (List.filter (λ s : path * option string * bool, s.2) states)).

(** [(written, unchanged, verified)]. *)
Definition write_plans (auth_dir : path) (plans : list planned_file) (force dry_run : bool)
    : M (Z * Z * Z) :=
  let! link := is_symlink_p auth_dir in
  let! unsafe :=
    (if link then ret true
     else let! present := exists_p auth_dir in
          if present then let! dir := is_dir_p auth_dir in ret (negb dir) else ret false) in
  if unsafe then lraise "target_unsafe" "local CPA auth directory is not a regular directory" else
  if dry_run then
    let! dir := is_dir_p auth_dir in
    let! states := (if dir then mmap (target_state auth_dir) plans else ret []) in
    refuse_conflict force states ;;
    ret (Z.of_nat (length plans) - count_same states, count_same states, 0)
  else
    with_import_lock auth_dir
      (let! states := mmap (target_state auth_dir) plans in
       refuse_conflict force states ;;
       let changes := changes_of plans states in
       let unchanged := Z.of_nat (length plans) - Z.of_nat (length changes) in
       write_changes changes changes [] ;;
       ret (Z.of_nat (length changes), unchanged, Z.of_nat (length changes))).


(** ** The import *)

Section import.
Context (url_open : string → M (string + Z)).
Context (expanduser : path → path) (opener : string → M (Z * json)).

Definition refresh_local_card (card : raw_card_credential) : M dict :=
  let body := urlencode [("grant_type", "refresh_token"%string);
                         ("refresh_token", rc_refresh_token card);
                         ("client_id", rc_client_id card)] in
  let! answer := try_with (url_open body)
    (except [OSError; ValueError] (λ _,
       lraise "refresh_unavailable" "raw card token refresh is unavailable")) in
  match answer with
  | inr code =>
      lraise "refresh_rejected" ("raw card line " +:+ str_of_Z (rc_line_number card) +:+
        " refresh was rejected (HTTP " +:+ str_of_Z code +:+ ")")
  | inl raw =>
      if LOCAL_MAX_SOURCE_BYTES <? str_len raw
      then lraise "refresh_invalid" "raw card token refresh response is too large" else
      match loads_bytes raw with
      | Raise _ => lraise "refresh_invalid" "raw card token refresh returned invalid JSON"
      | Ok (JDict payload) =>
          if Nat.ltb (count_char "." (str_or_empty (dget "access_token" payload))) 2
          then lraise "refresh_invalid" "raw card token refresh returned no usable access token"
          else
            lift (flat_auth
              [("type", JStr "codex"); ("email", JStr (rc_email card));
               ("access_token", dget "access_token" payload);
               ("refresh_token", py_or (dget "refresh_token" payload) (JStr (rc_refresh_token card)));
               ("id_token", py_or (dget "id_token" payload) (JStr ""))]
              ("raw card line " +:+ str_of_Z (rc_line_number card)))
      | Ok _ => lraise "refresh_invalid" "raw card token refresh returned no usable access token"
      end
  end.

(** A dry run does not exchange the token of a card. *)
Definition preview_card (card : raw_card_credential) : M dict :=
  lift (flat_auth
    [("type", JStr "codex"); ("email", JStr (rc_email card));
     ("refresh_token", JStr (rc_refresh_token card))]
    ("raw card line " +:+ str_of_Z (rc_line_number card))).

Definition local_normalize_text (text label : string) (dry_run : bool) : M (list dict) :=
  let! documents := lift (local_json_documents text) in
  match documents with
  | _ :: _ =>
      let! results := lift (map_indexed (λ index document,
        expand_object document (label +:+ " object " +:+ str_of_Z index)) 1 documents) in
      ret (concat results)
  | [] =>
      let! cards := lift (raw_cards text) in
      mmap (if dry_run then preview_card else refresh_local_card) cards
  end.

(** Whether a path below [directory] is skipped ([None]), a link ([Some false]) or a
    candidate ([Some true]). *)
Definition candidate_kind (directory p : path) : M (option bool) :=
  let! file := is_file_p p in
  let parts := match relative_to p directory with Some r => r.2 | None => [] end in
  if negb file || existsb (λ part, mem part IGNORED_DIRECTORY_NAMES) (removelast parts) ||
     negb (mem (casefold (p_suffix p)) IMPORT_SUFFIXES)
  then ret None
  else let! link := is_symlink_p p in ret (Some (negb link)).

(** [(candidates, ignored, discovered)]. *)
Definition gather_step (directory : path) (s : list path * Z * Z) (p : path) : M (list path * Z * Z) :=
  let '(candidates, ignored, discovered) := s in
  let! kind := candidate_kind directory p in
  ret match kind with
      | None => s
      | Some false => (candidates, ignored + 1, discovered + 1)
      | Some true => (candidates ++ [p], ignored, discovered + 1)
      end.

Definition text_of_relative (directory p : path) : string :=
  match relative_to p directory with Some r => path_str r | None => path_str p end.

(** [(flats with their hints, ignored)]. *)
Definition read_candidate (directory : path) (dry_run : bool) (s : list (dict * string) * Z) (p : path)
    : M (list (dict * string) * Z) :=
  let '(flats, ignored) := s in
  let! text := read_source p in
  if (strip text =s? "") || negb (marker_present text) then ret (flats, ignored + 1) else
  let! expanded := try_with (local_normalize_text text (p_name p) dry_run)
    (except [LocalImportError] (λ e,
       lraise (exn_code e) ("invalid auth candidate " +:+ text_of_relative directory p +:+ ": " +:+ exn_msg e))) in
  let hints := source_hints p 1 (length expanded) (Z.of_nat (length expanded)) in
  ret (flats ++ combine expanded hints, ignored).

Definition size_of (p : path) : M Z := let! n := stat p in ret (node_size n).

(** [(flats with their hints, discovered, ignored)]. *)
Definition discover_directory (directory : path) (dry_run : bool) : M (list (dict * string) * Z * Z) :=
  let! found := rglob directory in
  let! (candidates, ignored, discovered) := mfold (gather_step directory) ([], 0, 0) found in
  if Nat.ltb MAX_CANDIDATE_FILES (length candidates)
  then lraise "too_many_sources" "import directory exceeds the 1024-file limit" else
  let! sizes := try_with (mmap size_of candidates)
    (except [OSError] (λ _,
       lraise "source_unreadable" "an import directory candidate could not be inspected")) in
  if MAX_TOTAL_SOURCE_BYTES <? fold_left Z.add sizes 0
  then lraise "source_too_large" "import directory exceeds the 64 MiB total limit" else
  let! (flats, ignored) := mfold (read_candidate directory dry_run) ([], ignored) candidates in
  match flats with
  | [] => lraise "no_credentials" "directory contains no importable CPA credentials"
  | _ => ret (flats, discovered, ignored)
  end.

Definition import_auth_dir (config : local_config) : M path :=
  let p := expanduser (default (under (lc_home config) [".cli-proxy-api"]) (lc_auth_dir config)) in
  if negb p.1 then lraise "target_unsafe" "local CPA auth directory must be an absolute path" else
  let! resolved := resolve_lax p in
  let! release := resolve_lax (under (lc_home config) [".local"; "lib"; "cloudx"]) in
  let! state := resolve_lax (lc_state_dir config) in
  if inside resolved release || inside resolved state
  then lraise "target_unsafe" "local CPA auth directory cannot be inside Cloudx release or state"
  else ret p.

Definition require_capability (config : local_config) : M unit :=
  try_with (let! _ := attest expanduser opener config EXTERNAL_CAPABILITY in ret tt)
    (except [CpaCapabilityError] (λ e,
       lraise "external_capability_missing"
         ("Agent Identity credentials require a hash-bound live external local CPA capability "
          +:+ EXTERNAL_CAPABILITY +:+ " (" +:+ exn_msg e +:+
          "); Cloudx does not install or restart that service"))).

Definition complete_import (config : local_config) (flats : list (dict * string))
    (discovered ignored : Z) (force dry_run : bool) (name_prefix : string) : M local_import_result :=
  let '(unique, duplicates) := deduplicate [] flats in
  (if existsb (λ u : dict * string, is_agent_identity u.1) unique
   then require_capability config else ret tt) ;;
  let plans := plan_files unique name_prefix in
  let! auth_dir := import_auth_dir config in
  let! (written, unchanged, verified) := write_plans auth_dir plans force dry_run in
  ret (LocalImportResult dry_run discovered ignored (Z.of_nat (length flats)) duplicates
         written unchanged verified).

Definition import_text (config : local_config) (text : string) (force dry_run : bool)
    (name_prefix : string) : M local_import_result :=
  if LOCAL_MAX_SOURCE_BYTES <? str_len text
  then lraise "source_too_large" "stdin import source exceeds the 16 MiB limit" else
  let! flats := local_normalize_text text "stdin" dry_run in
  complete_import config (map (λ flat, (flat, EmptyString)) flats) 0 0 force dry_run name_prefix.

Definition import_path (config : local_config) (source : path) (force dry_run : bool)
    (name_prefix : string) : M local_import_result :=
  let p := expanduser source in
  let! link := is_symlink_p p in
  if link then lraise "source_unsafe" "import source must not be a symlink" else
  let! dir := is_dir_p p in
  if dir then
    let! (flats, discovered, ignored) := discover_directory p dry_run in
    complete_import config flats discovered ignored force dry_run name_prefix
  else
  let! file := is_file_p p in
  if negb file then lraise "source_missing" "import source does not exist" else
  if negb (mem (casefold (p_suffix p)) IMPORT_SUFFIXES)
  then lraise "unsupported_format"
         ("unsupported import file type: " +:+ str_or (p_suffix p) "none") else
  let! text := read_source p in
  if negb (marker_present text)
  then lraise "no_credentials" "import file contains no CPA credential fields" else
  let! flats := local_normalize_text text (p_name p) dry_run in
  let hints := source_hints p 1 (length flats) (Z.of_nat (length flats)) in
  complete_import config (combine flats hints) 1 0 force dry_run name_prefix.

End import.
