(* ===== verification/LocalImportSafety.v ===== *)
(** * The transaction of the desktop's import

    Under every pattern of failing calls [write_plans] changes no file but its targets; an
    error of its own leaves every target as it was, unless it says that the undo failed;
    and a success has the planned bytes in place, read back. *)

From S2P Require Import Prelude PyStr PyFloat PyValue PyRe PyTime PyJson PyBase64 PySha FS Wp FileData.
From S2P Require Import AgentIdentity CpaRecords Importer LocalConfig Capabilities LocalImport.

Implicit Types (E : env) (f g h : fs) (k : nat) (w : world).

Abbreviation LTEMP := ".cloudx-"%string.
Definition local_target (auth_dir : path) (plan : planned_file) : path :=
  (auth_dir.1, auth_dir.2 ++ [pf_name plan]).
Definition local_lock (auth_dir : path) : path := (auth_dir.1, auth_dir.2 ++ [LOCK_FILE]).

(** Where a temporary file that could not be removed may be. *)
Definition left_over (auth_dir : path) (f : fs) (p : path) : Prop :=
  is_temp LTEMP auth_dir p ∧ data_at f p = None.

Lemma joined_parent (dir : path) (x : string) : p_parent (dir.1, dir.2 ++ [x]) = dir.
Proof. unfold p_parent. simpl. rewrite List.removelast_last. by destruct dir. Qed.

(** ** Calls *)

Lemma wp_ensure_private p E f k (Φ : res unit → world → Prop) :
  (∀ g k, same_data none f g → Φ (Ok tt) (World g k)) →
  (∀ e g k, os_exn e → same_data none f g → Φ (Raise e) (World g k)) →
  wp (ensure_private_directory p) E (World f k) Φ.
Proof.
  intros Ho Hr. unfold ensure_private_directory. apply wp_bind, wp_mkdir_parents.
  2:{ intros e g k1 He Hg. by apply Hr, same_dirs. }
  intros g1 k1 H1%same_dirs. apply wp_ignore_oserror, wp_chmod.
  - intros g2 k2 H2. apply Ho. by eapply same_trans.
  - intros e k2 He. rewrite He. by apply Ho.
Qed.

Lemma wp_atomic_write p d mode E f k (Φ : res unit → world → Prop) :
  (∀ g k, data_at g p = Some d → same_data (only p) f g → Φ (Ok tt) (World g k)) →
  (∀ e g k, os_exn e →
     (∀ q, data_at g q = data_at f q ∨ left_over (p_parent p) f q) → Φ (Raise e) (World g k)) →
  wp (atomic_write p d mode) E (World f k) Φ.
Proof.
  intros Ho Hr. unfold atomic_write. apply wp_bind, wp_ensure_private.
  2:{ intros e g k1 He Hg. apply Hr; [done|]. intros q. left. by apply same_at. }
  intros g1 k1 H1. apply wp_write_replace.
  - intros k2. apply Ho; [apply data_at_insert|]. intros q Hq.
    rewrite data_at_insert_ne; [by apply same_at|done].
  - intros e k2 He. apply Hr; [done|]. intros q. left. by apply same_at.
  - intros e k2 t b m He Ht Hg. apply Hr; [done|]. intros q.
    destruct (decide (q = t)) as [->|Hne].
    + right. split; [done|]. rewrite <- (same_at f g1); [by apply data_at_fresh|done].
    + left. rewrite data_at_insert_ne; [by apply same_at|done].
Qed.

Lemma wp_read_data p d E f k (Φ : res string → world → Prop) :
  data_at f p = Some d →
  (∀ k, Φ (Ok d) (World f k)) → (∀ e k, Φ (Raise e) (World f k)) →
  wp (read_bytes p) E (World f k) Φ.
Proof.
  unfold data_at. destruct (f !! p) as [[d' m| | |]|] eqn:Hp; try done. intros [= ->].
  by apply (wp_read_bytes p d m), stat_file.
Qed.

Lemma wp_lock_file p E f k (Φ : res unit → world → Prop) :
  (∀ g k, keeps none f g → same_data (only p) f g → Φ (Ok tt) (World g k)) →
  (∀ e k, Φ (Raise e) (World f k)) →
  wp (open_create_nofollow p) E (World f k) Φ.
Proof.
  intros Ho Hr. unfold open_create_nofollow.
  apply wp_bind, wp_sys; [intros k1|by intros]. apply wp_bind, wp_get_fs.
  destruct (f !! p) as [[]|] eqn:Hp; try (apply wp_throw, Hr);
    try (apply wp_ret, Ho; [apply keeps_refl|apply same_refl]).
  destruct (parent_is_dir f p); [|apply wp_throw, Hr].
  unfold update, wp, put_fs. simpl. apply Ho.
  - by apply keeps_insert_free, data_at_fresh.
  - intros q Hq. by apply data_at_insert_ne.
Qed.

(** Translating an error into another one. *)
Lemma wp_translate {A} (m : M A) cs code msg E w (Φ : res A → world → Prop) :
  wp m E w (λ r w', match r with Ok a => Φ (Ok a) w' | Raise _ => ∀ e, Φ (Raise e) w' end) →
  wp (try_with m (except cs (λ _, lraise code msg))) E w Φ.
Proof.
  intros H. apply wp_try. eapply wp_mono; [exact H|]. intros [a|e] w' Hr; [done|].
  unfold except. destruct (existsb _ _); apply Hr.
Qed.

Lemma fs_pure_acquire fuel p deadline : fs_pure (acquire_lock fuel p deadline).
Proof.
  induction fuel as [|fuel IH]; simpl; unfold lraise; [done|].
  apply fs_pure_try; [apply fs_pure_try_lock|]. intros e c. apply fs_pure_except. intros _.
  fs_pure_tac.
Qed.

(** ** The plan *)

Section plan.
Context (auth_dir : path) (plans : list planned_file) (force : bool) (f : fs).

(** What [target_state] reports for a plan. *)
Definition state_ok (plan : planned_file) (s : path * option string * bool) : Prop :=
  let '(target, original, same) := s in
  target = local_target auth_dir plan ∧ original = data_at f target ∧
  (same = true → ∃ raw, original = Some raw ∧ canonical_json raw = Ok (pf_payload plan)).

Lemma wp_target_state plan E k (Φ : res (path * option string * bool) → world → Prop) :
  (∀ s k, state_ok plan s → Φ (Ok s) (World f k)) →
  (∀ e k, Φ (Raise e) (World f k)) →
  wp (target_state auth_dir plan) E (World f k) Φ.
Proof.
  intros Ho Hr. unfold target_state. set (t := (auth_dir.1, auth_dir.2 ++ [pf_name plan])).
  apply wp_bind, wp_is_symlink; [intros k1|intros; apply Hr].
  destruct (opt_is is_link (f !! t)) eqn:Hl.
  { apply wp_bind, wp_ret, wp_throw, Hr. }
  apply wp_bind, wp_bind, wp_exists; [intros k2|intros; apply Hr].
  destruct (stat_node f t) as [x|] eqn:Hst; simpl.
  - apply wp_bind, wp_is_file; [intros k3|intros; apply Hr]. rewrite Hst.
    destruct x as [d m|m|u|]; simpl; try (apply wp_ret, wp_throw, Hr). apply wp_ret.
    apply wp_bind, wp_translate, wp_bind, wp_is_file; [intros k4|intros e k4 e'; apply Hr].
    rewrite Hst. simpl. apply wp_bind.
    eapply wp_read_bytes; [done|intros k5|intros e k5 e'; apply Hr].
    apply wp_ret. apply wp_bind, wp_lift.
    destruct (canonical_json d) as [c|e] eqn:Hc; [|apply Hr]. apply wp_ret, Ho.
    pose proof (data_at_stat f t d m Hl Hst) as Hd.
    split; [done|]. split; [done|]. intros Hs. exists d. split; [done|].
    by destruct (eqs_spec c (pf_payload plan)) as [->|].
  - apply wp_ret. apply wp_bind, wp_translate, wp_bind, wp_is_file.
    + intros k4. rewrite Hst. simpl. apply wp_ret, wp_ret, Ho.
      split; [done|]. split; [by rewrite data_at_none|done].
    + intros e k4 e'. apply Hr.
Qed.

Lemma wp_target_states E k (Φ : res (list (path * option string * bool)) → world → Prop) :
  (∀ states k, Forall2 state_ok plans states → Φ (Ok states) (World f k)) →
  (∀ e k, Φ (Raise e) (World f k)) →
  wp (mmap (target_state auth_dir) plans) E (World f k) Φ.
Proof.
  revert k Φ. induction plans as [|plan l IH]; intros k Φ Ho Hr; simpl; [by apply Ho|].
  apply wp_bind, wp_target_state; [|apply Hr]. intros s k1 Hs.
  apply wp_bind, IH; [|apply Hr]. intros states k2 Hstates. apply Ho. by constructor.
Qed.

(** A planned write. *)
Definition change_ok (c : change) : Prop :=
  let '(payload, target, original) := c in
  original = data_at f target ∧ (force = false → original = None) ∧
  ∃ plan, In plan plans ∧ target = local_target auth_dir plan ∧ payload = pf_payload plan.

(** The changes are the plans that are not in place. *)
Lemma changes_spec states :
  Forall2 state_ok plans states →
  (force = false → conflicts states = []) →
  Forall change_ok (changes_of plans states) ∧
  (∀ plan, In plan plans →
     In (pf_payload plan, local_target auth_dir plan, data_at f (local_target auth_dir plan))
        (changes_of plans states) ∨
     ∃ raw, data_at f (local_target auth_dir plan) = Some raw ∧
            canonical_json raw = Ok (pf_payload plan)) ∧
  (length (changes_of plans states) ≤ length plans)%nat.
Proof.
  intros H. unfold change_ok. induction H as [|plan [[t o] same] l states Hs H IH]; intros Hc.
  { split; [constructor|]. split; [by intros|done]. }
  destruct Hs as (-> & -> & Hsame).
  assert (Hc' : force = false → conflicts states = []).
  { intros Hf. specialize (Hc Hf). unfold conflicts in Hc. simpl in Hc. by apply app_eq_nil in Hc as [_ ?]. }
  destruct (IH Hc') as (Hall & Hcov & Hlen).
  assert (Hall' : Forall (λ '(payload, target, original),
    original = data_at f target ∧ (force = false → original = None) ∧
    ∃ plan0, In plan0 (plan :: l) ∧ target = local_target auth_dir plan0 ∧ payload = pf_payload plan0)
    (changes_of l states)).
  { eapply Forall_impl; [exact Hall|]. intros [[payload t] o] (? & ? & plan0 & ? & ?).
    split; [done|]. split; [done|]. exists plan0. split; [by right|done]. }
  unfold changes_of in *. simpl. destruct same.
  - split; [exact Hall'|]. split; [|simpl; lia]. intros p [<-|Hp].
    + right. by apply Hsame.
    + destruct (Hcov p Hp) as [?|?]; [by left|by right].
  - simpl. split; [|split].
    + constructor; [|exact Hall']. split; [done|]. split.
      * intros Hf. specialize (Hc Hf). unfold conflicts in Hc. simpl in Hc.
        by destruct (data_at f (local_target auth_dir plan)).
      * exists plan. split; [by left|done].
    + intros p [<-|Hp]; [left; by left|]. destruct (Hcov p Hp) as [?|?]; [left; by right|by right].
    + simpl. lia.
Qed.

End plan.

(** ** Writing and undoing *)

Section writes.
Context (auth_dir : path) (plans : list planned_file) (force : bool) (f : fs).
Context (all : list change) (Hall : Forall (change_ok auth_dir plans force f) all).

(** While [all] is written or undone. *)
Definition partial (g : fs) : Prop :=
  ∀ p, data_at g p = data_at f p ∨ left_over auth_dir f p ∨
       ∃ d o, In (d, p, o) all ∧ data_at g p = Some d.
(** Only [completed] is still to be undone. *)
Definition undone (completed : list (path * option string)) (g : fs) : Prop :=
  ∀ p, data_at g p = data_at f p ∨ left_over auth_dir f p ∨ In p (map fst completed).
Definition entry_undoes (c : path * option string) : Prop :=
  c.2 = data_at f c.1 ∧ p_parent c.1 = auth_dir.

Lemma change_in d t o : In (d, t, o) all →
  entry_undoes (t, o) ∧ (force = false → o = None) ∧
  ∃ plan, In plan plans ∧ t = local_target auth_dir plan ∧ d = pf_payload plan.
Proof using Hall.
  intros Hin. rewrite List.Forall_forall in Hall.
  destruct (Hall _ Hin) as (Ho & Hf & plan & Hp & Ht & Hd).
  split; [|by eauto 10]. split; [done|]. simpl. rewrite Ht. apply joined_parent.
Qed.

(** A failed write adds at most a temporary file. *)
Lemma partial_temp g h :
  partial g → (∀ q, data_at h q = data_at g q ∨ left_over auth_dir g q) → partial h.
Proof.
  intros Hg Hh q. destruct (Hh q) as [->|[Ht Hn]]; [apply Hg|].
  destruct (Hg q) as [Hq|[Hq|(d & o & _ & Hq)]]; [|by right; left|congruence].
  right. left. split; congruence.
Qed.
Lemma undone_temp completed g h :
  undone completed g → (∀ q, data_at h q = data_at g q ∨ left_over auth_dir g q) → undone completed h.
Proof.
  intros Hg Hh q. destruct (Hh q) as [->|[Ht Hn]]; [apply Hg|].
  destruct (Hg q) as [Hq|[Hq|Hq]]; [|by right; left|by right; right].
  right. left. split; congruence.
Qed.
(** One file is back: nothing else changed. *)
Lemma partial_back g h t :
  partial g → same_data (only t) g h → data_at h t = data_at f t → partial h.
Proof.
  intros Hg Hs Ht q. destruct (decide (q = t)) as [->|Hne]; [by left|].
  rewrite (Hs q Hne). apply Hg.
Qed.
Lemma undone_back c completed g h :
  undone (c :: completed) g → same_data (only c.1) g h → data_at h c.1 = data_at f c.1 →
  undone completed h.
Proof.
  intros Hg Hs Ht q. destruct (decide (q = c.1)) as [->|Hne]; [by left|].
  rewrite (Hs q Hne). destruct (Hg q) as [?|[?|[?|?]]]; [by left|by right; left|congruence|by right; right].
Qed.

Lemma wp_undo_one c E g k (Φ : res bool → world → Prop) :
  entry_undoes c →
  (∀ h k, same_data (only c.1) g h → data_at h c.1 = data_at f c.1 → Φ (Ok false) (World h k)) →
  (∀ h k, (∀ q, data_at h q = data_at g q ∨ left_over auth_dir g q) → Φ (Ok true) (World h k)) →
  wp (undo_one c) E (World g k) Φ.
Proof.
  destruct c as [t o]. intros [Ho Hp] Hok Hfail. simpl in *. unfold undo_one. apply wp_try. simpl.
  assert (Hrefl : ∀ q, data_at g q = data_at g q ∨ left_over auth_dir g q) by (intros q; by left).
  assert (Hexn : ∀ e h k, os_exn e → (∀ q, data_at h q = data_at g q ∨ left_over auth_dir g q) →
    match except [OSError] (λ _, ret true) e with
    | Some c => wp c E (World h k) Φ | None => Φ (Raise e) (World h k) end).
  { intros e h k1 He Hh. unfold except. simpl. rewrite He. simpl. apply Hfail, Hh. }
  destruct o as [d|].
  - apply wp_bind, wp_atomic_write.
    + intros h k1 Hd Hs. apply wp_ret, Hok; [done|congruence].
    + intros e h k1 He Hh. rewrite Hp in Hh. by apply Hexn.
  - apply wp_bind, wp_get_fs, wp_bind. destruct (g !! t) as [n|] eqn:Hg.
    + unfold unlink. apply wp_bind, wp_sys; [intros k1|intros e k1 He; by apply Hexn].
      apply wp_bind, wp_get_fs. rewrite Hg.
      destruct n; try (apply wp_throw; by apply Hexn); unfold wp, put_fs; simpl; apply Hok;
        try (intros q Hq; by apply data_at_delete_ne);
        rewrite <- Ho; unfold data_at; by rewrite lookup_delete_eq.
    + apply wp_sys; [intros k1|intros e k1 He; by apply Hexn]. apply wp_ret, Hok; [apply same_refl|].
      rewrite <- Ho. by apply data_at_fresh.
Qed.

Lemma wp_undo_all completed E g k (Φ : res bool → world → Prop) :
  Forall entry_undoes completed → partial g →
  (∀ failed h k, partial h → (undone completed g → failed = false → undone [] h) →
     Φ (Ok failed) (World h k)) →
  wp (undo_all completed) E (World g k) Φ.
Proof.
  intros Hc. revert g k Φ. induction Hc as [|c l Hcc Hl IH]; intros g k Φ Hg Ho; simpl.
  { by apply wp_ret, Ho. }
  apply wp_bind, wp_undo_one; [done| |].
  - intros h k1 Hs Hd. apply wp_bind, IH; [by eapply partial_back|].
    intros failed h2 k2 Hp Hu. apply wp_ret, Ho; [done|]. intros Hgu Hf. apply Hu; [|done].
    by eapply undone_back.
  - intros h k1 Hh. apply wp_bind, IH; [by eapply partial_temp|].
    intros failed h2 k2 Hp Hu. by apply wp_ret, Ho.
Qed.

(** How the writes end when they fail. *)
Definition rolled_back (e : exn) (g : fs) : Prop :=
  partial g ∧ (exn_code e ≠ "rollback_failed" → undone [] g).

Lemma wp_roll_back completed e E g k (Φ : res unit → world → Prop) :
  Forall entry_undoes completed → partial g → undone completed g →
  (∀ e h k, rolled_back e h → Φ (Raise e) (World h k)) →
  wp (roll_back completed e) E (World g k) Φ.
Proof.
  intros Hc Hg Hu Hr. unfold roll_back. apply wp_bind, wp_undo_all; [done|done|].
  intros failed h k1 Hp Hun. destruct failed.
  - by apply wp_throw, Hr.
  - assert (rolled_back e h ∧ rolled_back (Exn LocalImportError "write_failed"
      "local CPA auth files could not be written atomically") h) as [H1 H2] by (split; split; auto).
    destruct (catches LocalImportError (exn_cls e)); [by apply wp_throw, Hr|by apply wp_throw, Hr].
Qed.

Lemma wp_verify_all l E g k (Φ : res unit → world → Prop) :
  (∀ d t o, In (d, t, o) l → ∃ d', data_at g t = Some d') →
  (∀ k, (∀ d t o, In (d, t, o) l → data_at g t = Some d) → Φ (Ok tt) (World g k)) →
  (∀ e k, Φ (Raise e) (World g k)) →
  wp (miter verify_change l) E (World g k) Φ.
Proof.
  revert k. induction l as [|[[d t] o] l IH]; intros k Hd Ho Hr; simpl.
  { apply wp_ret, Ho. by intros. }
  destruct (Hd d t o) as [d' Hd']; [by left|]. apply wp_bind. unfold verify_change.
  apply wp_bind. eapply wp_read_data; [done|intros k1|intros; apply Hr].
  destruct (eqs_spec d' d) as [->|Hne]; [|by apply wp_throw, Hr]. simpl.
  apply wp_bind, wp_lift. destruct (loads_bytes d) as [document|e]; [|apply Hr].
  assert (Hrest : ∀ k, wp (miter verify_change l) E (World g k) Φ).
  { intros k2. apply IH; [intros; eapply Hd; by right| |done]. intros k3 Hl. apply Ho.
    intros d2 t2 o2 [[= <- <- <-]|Hin]; [done|by eapply Hl]. }
  destruct document; try (by apply wp_throw, Hr).
  match goal with |- wp (if ?b then _ else _) _ _ _ => destruct b end; [apply wp_ret, Hrest|by apply wp_throw, Hr].
Qed.

Lemma wp_write_changes E k (Φ : res unit → world → Prop) :
  (∀ g k, partial g → (∀ d t o, In (d, t, o) all → data_at g t = Some d) → Φ (Ok tt) (World g k)) →
  (∀ e g k, rolled_back e g → Φ (Raise e) (World g k)) →
  wp (write_changes all all []) E (World f k) Φ.
Proof using Hall.
  intros Ho Hr.
  assert (Hgen : ∀ l done completed g k, all = done ++ l →
    Forall entry_undoes completed → partial g → undone completed g →
    (∀ d t o, In (d, t, o) done → ∃ d', data_at g t = Some d') →
    wp (write_changes l all completed) E (World g k) Φ).
  { induction l as [|[[d t] o] l IH]; intros done completed g k1 Heq Hc Hp Hu Hd; simpl.
    - rewrite app_nil_r in Heq. subst done. apply wp_try, wp_verify_all; [done| |].
      + intros k2 Hv. by apply Ho.
      + intros e k2. unfold except_all. by apply wp_roll_back.
    - assert (Hin : In (d, t, o) all) by (rewrite Heq; apply in_or_app; right; by left).
      destruct (change_in _ _ _ Hin) as (He & _ & _). pose proof He as [Hod Hpar]. simpl in *.
      apply wp_bind, wp_try, wp_atomic_write.
      + intros h k2 Hh Hs. apply (IH (done ++ [(d, t, o)])).
        * by rewrite <- app_assoc.
        * by constructor.
        * intros q. destruct (decide (q = t)) as [->|Hne]; [by right; right; eauto|].
          rewrite (Hs q Hne). apply Hp.
        * intros q. destruct (decide (q = t)) as [->|Hne]; [right; right; by left|].
          rewrite (Hs q Hne). destruct (Hu q) as [?|[?|?]]; [by left|by right; left|by right; right; right].
        * intros d2 t2 o2 Hin2. destruct (decide (t2 = t)) as [->|Hne]; [by eauto|].
          rewrite (Hs t2 Hne). apply in_app_or in Hin2 as [Hin2|[[= -> -> ->]|[]]]; [|done].
          by eapply Hd.
      + intros e h k2 _ Hh. rewrite Hpar in Hh. unfold except_all. apply (wp_roll_back completed);
          [done|by eapply partial_temp|by eapply undone_temp|done]. }
  apply (Hgen all [] []); try done; intros p; by left.
Qed.

End writes.

(** ** The transaction *)

(** What holds however the planned writes end. *)
Record local_done (auth_dir : path) (plans : list planned_file) (force : bool) (f : fs)
    (r : res (Z * Z * Z)) (g : fs) : Prop := {
  ld_files : ∀ p, p ≠ local_lock auth_dir →
    data_at g p = data_at f p ∨ left_over auth_dir f p ∨
    ∃ plan, In plan plans ∧ p = local_target auth_dir plan ∧ data_at g p = Some (pf_payload plan);
  ld_force : force = false → keeps none f g;
  ld_restored : ∀ e, r = Raise e → exn_cls e = LocalImportError → exn_code e ≠ "rollback_failed" →
    ∀ p, p ≠ local_lock auth_dir → data_at g p = data_at f p ∨ left_over auth_dir f p;
  ld_ok : ∀ written unchanged verified, r = Ok (written, unchanged, verified) →
    written + unchanged = Z.of_nat (length plans) ∧ verified = written ∧
    ∀ plan, In plan plans →
      data_at g (local_target auth_dir plan) = Some (pf_payload plan) ∨
      ∃ raw, data_at f (local_target auth_dir plan) = Some raw ∧
             canonical_json raw = Ok (pf_payload plan) ∧
             (NoDup (map pf_name plans) → data_at g (local_target auth_dir plan) = Some raw) }.

Section transaction.
Context (auth_dir : path) (plans : list planned_file) (force : bool).
Context (Hnames : ∀ plan, In plan plans → pf_name plan ≠ LOCK_FILE).

Lemma target_not_lock plan : In plan plans → local_target auth_dir plan ≠ local_lock auth_dir.
Proof using Hnames.
  intros Hin [= H]. apply app_inj_tail in H as [_ H]. by apply (Hnames plan).
Qed.

Lemma local_done_early f e g :
  keeps none f g → same_data (only (local_lock auth_dir)) f g →
  local_done auth_dir plans force f (Raise e) g.
Proof.
  intros Hk Hs. split; try done.
  - intros p Hp. left. by apply Hs.
  - intros e' _ _ _ p Hp. left. by apply Hs.
Qed.

(** From the state [f1] under the lock to the end [g]. *)
Section ends.
Context (f f1 g : fs) (all : list change).
Context (Hk : keeps none f f1) (Hs : same_data (only (local_lock auth_dir)) f f1).
Context (Hall : Forall (change_ok auth_dir plans force f1) all).

Lemma left_over_lock p : p ≠ local_lock auth_dir → left_over auth_dir f1 p → left_over auth_dir f p.
Proof using Hs. intros Hp [Ht Hd]. split; [done|]. by rewrite <- (Hs p Hp). Qed.

Lemma partial_files p : p ≠ local_lock auth_dir → partial auth_dir f1 all g →
  data_at g p = data_at f p ∨ left_over auth_dir f p ∨
  ∃ plan, In plan plans ∧ p = local_target auth_dir plan ∧ data_at g p = Some (pf_payload plan).
Proof using Hs Hall.
  intros Hp Hb. destruct (Hb p) as [Hd|[Hd|(d & o & Hin & Hd)]].
  - left. rewrite Hd. by apply Hs.
  - right. left. by apply left_over_lock.
  - destruct (change_in _ _ _ _ _ Hall _ _ _ Hin) as (_ & _ & plan & Hplan & -> & ->).
    right. right. eauto.
Qed.
Lemma partial_force : partial auth_dir f1 all g → force = false → keeps none f g.
Proof using Hk Hall.
  intros Hb Hf p d _ Hd. pose proof (keeps_at _ _ _ _ Hk Hd) as Hd1.
  destruct (Hb p) as [Hg|[[_ Hg]|(d' & o & Hin & Hg)]]; [congruence|congruence|].
  destruct (change_in _ _ _ _ _ Hall _ _ _ Hin) as ([Ho _] & Hfo & _). simpl in Ho.
  rewrite (Hfo Hf) in Ho. congruence.
Qed.

Lemma local_done_raise e :
  partial auth_dir f1 all g →
  (exn_cls e = LocalImportError → rolled_back auth_dir f1 all e g) →
  local_done auth_dir plans force f (Raise e) g.
Proof using Hk Hs Hall.
  intros Hp Hr. split; [intros p Hlock; by apply partial_files|by apply partial_force| |done].
  intros e' [= <-] Hcls Hcode p Hlock. destruct (Hr Hcls) as [_ Hu].
  destruct (Hu Hcode p) as [Hd|[Hd|[]]]; [left; rewrite Hd; by apply Hs|].
  right. by apply left_over_lock.
Qed.

Lemma local_done_ok :
  partial auth_dir f1 all g → (length all ≤ length plans)%nat →
  (∀ d t o, In (d, t, o) all → data_at g t = Some d) →
  (∀ plan, In plan plans →
     In (pf_payload plan, local_target auth_dir plan, data_at f1 (local_target auth_dir plan)) all ∨
     ∃ raw, data_at f1 (local_target auth_dir plan) = Some raw ∧
            canonical_json raw = Ok (pf_payload plan)) →
  local_done auth_dir plans force f
    (Ok (Z.of_nat (length all), Z.of_nat (length plans) - Z.of_nat (length all), Z.of_nat (length all))) g.
Proof using Hk Hs Hall Hnames.
  intros Hp Hlen Hv Hcov.
  split; [intros p Hlock; by apply partial_files|by apply partial_force|done|].
  intros written unchanged verified [= <- <- <-]. split; [lia|]. split; [done|].
  intros plan Hin. destruct (Hcov plan Hin) as [Hc|(raw & Hraw & Hcan)]; [left; by eapply Hv|].
  pose proof (target_not_lock plan Hin) as Hlock. pose proof (Hs _ Hlock) as Hsame.
  destruct (Hp (local_target auth_dir plan)) as [Hg|[[_ Hg]|(d & o & Hina & Hg)]]; [|congruence|].
  - right. exists raw. rewrite Hg, <- Hsame. by split_and!.
  - destruct (change_in _ _ _ _ _ Hall _ _ _ Hina) as (_ & _ & plan' & Hplan' & Ht & ->).
    destruct (decide (NoDup (map pf_name plans))) as [Hnd|Hnd].
    + left. rewrite Hg. f_equal. f_equal. injection Ht as Ht. apply app_inj_tail in Ht as [_ Ht].
      by apply (NoDup_map_eq pf_name plans).
    + right. exists raw. rewrite <- Hsame. by split_and!.
Qed.
End ends.

Lemma wp_refuse_conflict states E w (Φ : res unit → world → Prop) :
  ((force = false → conflicts states = []) → Φ (Ok tt) w) → (∀ e, Φ (Raise e) w) →
  wp (refuse_conflict force states) E w Φ.
Proof.
  intros Ho Hr. unfold refuse_conflict. destruct (conflicts states); [by apply wp_ret, Ho|].
  destruct force; [by apply wp_ret, Ho|apply Hr].
Qed.

(** What is done under the lock. *)
Lemma wp_locked_body f f1 E k :
  keeps none f f1 → same_data (only (local_lock auth_dir)) f f1 →
  wp (let! states := mmap (target_state auth_dir) plans in
      refuse_conflict force states ;;
      let changes := changes_of plans states in
      let unchanged := Z.of_nat (length plans) - Z.of_nat (length changes) in
      write_changes changes changes [] ;;
      ret (Z.of_nat (length changes), unchanged, Z.of_nat (length changes)))
    E (World f1 k)
    (λ r w', local_done auth_dir plans force f r (w_fs w') ∧
             ∀ e, local_done auth_dir plans force f (Raise e) (w_fs w') ∨ exn_cls e = LocalImportError).
Proof using Hnames.
  intros Hk Hs.
  assert (Hearly : ∀ e (g : fs), g = f1 → local_done auth_dir plans force f (Raise e) g).
  { intros e g ->. by apply local_done_early. }
  apply wp_bind, wp_target_states; [|intros e k1; split; [by apply Hearly|intros; left; by apply Hearly]].
  intros states k1 Hst. apply wp_bind, wp_refuse_conflict.
  2:{ intros e. split; [by apply Hearly|intros; left; by apply Hearly]. }
  intros Hc. destruct (changes_spec auth_dir plans force f1 states Hst Hc) as (Hall & Hcov & Hlen).
  cbv zeta. set (all := changes_of plans states) in *.
  assert (Hother : ∀ (g : fs) e, partial auth_dir f1 all g →
    local_done auth_dir plans force f (Raise e) g ∨ exn_cls e = LocalImportError).
  { intros g e Hp. destruct (decide (exn_cls e = LocalImportError)) as [|Hne]; [by right|left].
    eapply local_done_raise; try done. }
  apply wp_bind, (wp_write_changes auth_dir plans force f1 all Hall).
  - intros g k2 Hp Hv. apply wp_ret. split; [|intros e; by apply Hother].
    by eapply local_done_ok.
  - intros e g k2 Hr. split; [|intros e'; apply Hother, Hr].
    eapply local_done_raise; [done|done|done|apply Hr|done].
Qed.

Lemma wp_write_plans f E k :
  wp (write_plans auth_dir plans force false) E (World f k)
    (λ r w', local_done auth_dir plans force f r (w_fs w')).
Proof using Hnames.
  assert (Hearly : ∀ e g, same_data none f g → local_done auth_dir plans force f (Raise e) g).
  { intros e g Hg. apply local_done_early; [by apply same_keeps|by apply same_none]. }
  unfold write_plans. apply wp_bind, wp_pure; [fs_pure_tac|].
  intros [link|e] k1; [|apply Hearly, same_refl].
  apply wp_bind, wp_pure; [fs_pure_tac|]. intros [unsafe|e] k2; [|apply Hearly, same_refl].
  destruct unsafe; [apply Hearly, same_refl|].
  unfold with_import_lock. apply wp_bind, wp_ensure_private; [|intros e g k3 _; by apply Hearly].
  intros g1 k3 H1. apply wp_bind, wp_pure; [fs_pure_tac|].
  intros [lock_link|e] k4; [|by apply Hearly]. destruct lock_link; [by apply Hearly|].
  apply wp_bind, wp_translate, wp_lock_file; [|intros e k5 e'; by apply Hearly].
  intros g2 k5 Hk2 Hs2. pose proof (same_keeps _ _ _ H1) as Hk1.
  assert (Hk : keeps none f g2) by (by eapply keeps_trans).
  assert (Hs : same_data (only (local_lock auth_dir)) f g2).
  { eapply same_trans; [by apply same_none|exact Hs2]. }
  apply wp_finally.
  assert (Hclose : ∀ (r : res (Z * Z * Z)) g k,
    local_done auth_dir plans force f r g →
    (∀ e, local_done auth_dir plans force f (Raise e) g ∨ exn_cls e = LocalImportError) →
    wp (finally sys sys) E (World g k) (λ r' w'', match r' with
      | Ok _ => local_done auth_dir plans force f r (w_fs w'')
      | Raise e => local_done auth_dir plans force f (Raise e) (w_fs w'') end)).
  { intros r g k6 Hr Hother.
    assert (Hos : ∀ e, os_exn e → local_done auth_dir plans force f (Raise e) g).
    { intros e He. destruct (Hother e) as [?|Hcls]; [done|]. unfold os_exn in He. by rewrite Hcls in He. }
    apply wp_finally, wp_sys; [intros k7|intros e k7 He]; (apply wp_sys; [intros k8|intros e2 k8 He2]);
      try done; by apply Hos. }
  assert (Hfail : ∀ e g, keeps none f g → same_data (only (local_lock auth_dir)) f g →
    ∀ k, wp (finally sys sys) E (World g k) (λ r' w'', match r' with
      | Ok _ => local_done auth_dir plans force f (Raise e) (w_fs w'')
      | Raise e => local_done auth_dir plans force f (Raise e) (w_fs w'') end)).
  { intros e g Hkg Hsg k6. apply Hclose; [by apply local_done_early|]. intros e'. left. by apply local_done_early. }
  apply wp_bind, wp_chmod; [|intros e k6 _; by apply Hfail].
  intros g3 k6 H3. assert (Hk3 : keeps none f g3) by (eapply keeps_trans; [done|by apply same_keeps]).
  assert (Hs3 : same_data (only (local_lock auth_dir)) f g3) by (eapply same_trans; [done|by apply same_none]).
  apply wp_bind, wp_now, wp_bind, wp_pure; [apply fs_pure_acquire|].
  intros [[]|e] k7; [|by apply Hfail].
  eapply wp_mono; [by apply wp_locked_body|]. intros r [g k8] [Hr Hother]. by apply Hclose.
Qed.

(** A preview only reads. *)
Lemma fs_pure_preview : fs_pure (write_plans auth_dir plans force true).
Proof.
  unfold write_plans, refuse_conflict, lraise.
  assert (Ht : ∀ plan, fs_pure (target_state auth_dir plan)).
  { intros plan. unfold target_state, lraise. fs_pure_tac. }
  fs_pure_tac.
Qed.

Lemma preview_counts E w written unchanged verified :
  (write_plans auth_dir plans force true E w).1 = Ok (written, unchanged, verified) →
  written + unchanged = Z.of_nat (length plans).
Proof.
  intros H. destruct (write_plans auth_dir plans force true E w) as [r w'] eqn:Hw. simpl in H. subst r.
  unfold write_plans in Hw.
  apply bind_ok in Hw as (link & w1 & _ & Hw). apply bind_ok in Hw as (unsafe & w2 & _ & Hw).
  destruct unsafe; [done|]. apply bind_ok in Hw as (dir & w3 & _ & Hw).
  apply bind_ok in Hw as (states & w4 & _ & Hw). apply bind_ok in Hw as (u & w5 & _ & Hw).
  injection Hw as <- <- <- _. lia.
Qed.

End transaction.

(** ** The whole import *)

(** No planned name is that of the lock. *)
Lemma json_not_lock s : s +:+ ".json" ≠ LOCK_FILE.
Proof.
  intros H. assert (Hl : String.length s = 14%nat).
  { apply (f_equal String.length) in H. rewrite str_length_app in H. change (String.length LOCK_FILE) with 19%nat in H.
    change (String.length ".json") with 5%nat in H. lia. }
  do 14 (destruct s as [|? s]; [discriminate Hl|]). destruct s; [discriminate H|discriminate Hl].
Qed.

Lemma plan_names used index name_prefix l plan :
  In plan (plan_files_from used index name_prefix l) → pf_name plan ≠ LOCK_FILE.
Proof.
  revert used index. induction l as [|[flat hint] l IH]; intros used index; simpl; [done|].
  intros [<-|Hin]; [|by eapply IH]. simpl. rewrite <- str_app_assoc. apply json_not_lock.
Qed.

Lemma plan_length used index name_prefix l :
  length (plan_files_from used index name_prefix l) = length l.
Proof.
  revert used index. induction l as [|[flat hint] l IH]; intros used index; simpl; [done|].
  by rewrite IH.
Qed.

Lemma deduplicate_length seen l :
  Z.of_nat (length (deduplicate seen l).1) + (deduplicate seen l).2 = Z.of_nat (length l).
Proof.
  revert seen. induction l as [|[flat hint] l IH]; intros seen; simpl; [done|].
  destruct (mem _ seen).
  - specialize (IH seen). destruct (deduplicate seen l) as [u d]. simpl in *. lia.
  - specialize (IH (local_fingerprint flat :: seen)).
    destruct (deduplicate (local_fingerprint flat :: seen) l) as [u d]. simpl in *. lia.
Qed.

(** The counts of a result. *)
Definition counts_of (r : res local_import_result) : res (Z * Z * Z) :=
  let* x := r in Ok (li_written x, li_unchanged x, li_verified x).

(** How an import ends: refused or previewed, with every file as it was; or written as
    the plans of the different credentials that were read. *)
Definition local_import_post (force dry_run : bool) (name_prefix : string) (f : fs)
    (r : res local_import_result) (g : fs) : Prop :=
  (∀ x, r = Ok x → li_parsed x = li_duplicates x + li_written x + li_unchanged x ∧ li_dry_run x = dry_run) ∧
  ((g = f ∧ (dry_run = true ∨ ∃ e, r = Raise e)) ∨
   (dry_run = false ∧ ∃ auth_dir flats,
      local_done auth_dir (plan_files (deduplicate [] flats).1 name_prefix) force f (counts_of r) g)).

Section import.
Context (url_open : string → M (string + Z)) (expanduser : path → path).
Context (opener : string → M (Z * json)).
Context (Hurl : ∀ body, fs_pure (url_open body)) (Hopener : ∀ address, fs_pure (opener address)).
Context (config : local_config).

Lemma fs_pure_resolve p : fs_pure (resolve_lax p).
Proof. unfold resolve_lax. fs_pure_tac. Qed.
#[local] Hint Resolve fs_pure_resolve : cloudx.

Lemma fs_pure_identity p n : fs_pure (identity_of p n).
Proof. unfold identity_of. apply fs_pure_bind; [done|]. by intros _ E w. Qed.
#[local] Hint Resolve fs_pure_identity : cloudx.

Lemma fs_pure_regular_bytes p maximum reason : fs_pure (safe_regular_bytes p maximum reason).
Proof. unfold safe_regular_bytes, on_oserror, capability_error, mraise. fs_pure_tac. Qed.
#[local] Hint Resolve fs_pure_regular_bytes : cloudx.

Lemma fs_pure_declared values result : fs_pure (declared_from values result).
Proof.
  revert result. induction values as [|[] values IH]; intros result; simpl;
    unfold capability_error, mraise; fs_pure_tac.
Qed.

Lemma fs_pure_attest required : fs_pure (attest expanduser opener config required).
Proof using Hopener.
  unfold attest, cap_manifest, cap_binary, live_capabilities, declared_capabilities, on_oserror,
    capability_error, mraise.
  fs_pure_tac; try apply fs_pure_declared; apply Hopener.
Qed.

Lemma fs_pure_auth_dir : fs_pure (import_auth_dir expanduser config).
Proof. unfold import_auth_dir, lraise. fs_pure_tac. Qed.

Lemma fs_pure_local_text text label dry_run : fs_pure (local_normalize_text url_open text label dry_run).
Proof using Hurl.
  unfold local_normalize_text. fs_pure_tac. apply fs_pure_mmap. intros card.
  destruct dry_run; [done|]. unfold refresh_local_card, lraise. fs_pure_tac; apply Hurl.
Qed.
#[local] Hint Resolve fs_pure_local_text : cloudx.

Lemma fs_pure_read_source p : fs_pure (read_source p).
Proof. unfold read_source, lraise. fs_pure_tac. Qed.
#[local] Hint Resolve fs_pure_read_source : cloudx.

Lemma fs_pure_discover directory dry_run : fs_pure (discover_directory url_open directory dry_run).
Proof using Hurl.
  unfold discover_directory, rglob, lraise. fs_pure_tac.
  all: first [apply fs_pure_mfold; intros s p|apply fs_pure_mmap; intros p].
  all: unfold gather_step, candidate_kind, size_of, read_candidate, lraise; fs_pure_tac.
Qed.

Lemma wp_complete flats discovered ignored (force dry_run : bool) name_prefix E f k :
  wp (complete_import expanduser opener config flats discovered ignored force dry_run name_prefix)
    E (World f k) (λ r w', local_import_post force dry_run name_prefix f r (w_fs w')).
Proof using Hopener.
  assert (Hearly : ∀ e, local_import_post force dry_run name_prefix f (Raise e) f).
  { intros e. split; [done|]. left. split; [done|]. right. by eexists. }
  unfold complete_import. pose proof (deduplicate_length [] flats) as Hlen.
  destruct (deduplicate [] flats) as [unique duplicates] eqn:Hd. simpl in Hlen.
  apply wp_bind, wp_pure.
  { destruct (existsb _ _); [|done]. unfold require_capability, lraise. fs_pure_tac. apply fs_pure_attest. }
  intros [[]|e] k1; [|apply Hearly].
  apply wp_bind, wp_pure; [apply fs_pure_auth_dir|]. intros [auth_dir|e] k2; [|apply Hearly].
  set (plans := plan_files unique name_prefix).
  assert (Hplans : Z.of_nat (length plans) + duplicates = Z.of_nat (length flats)).
  { unfold plans, plan_files. by rewrite plan_length. }
  apply wp_bind. destruct dry_run.
  - unfold wp. pose proof (fs_pure_preview auth_dir plans force E (World f k2)) as Hpure.
    destruct (write_plans auth_dir plans force true E (World f k2)) as [r [g k3]] eqn:Hw.
    simpl in Hpure. subst g. simpl. destruct r as [[[written unchanged] verified]|e]; [|apply Hearly].
    apply wp_ret. split; [|left; split; [done|by left]]. intros x [= <-]. simpl. split; [|done].
    rewrite <- Hplans. pose proof (preview_counts auth_dir plans force E (World f k2)) as Hc.
    rewrite Hw in Hc. specialize (Hc _ _ _ eq_refl). lia.
  - eapply wp_mono.
    { apply (wp_write_plans auth_dir plans force). intros plan. apply plan_names. }
    intros [[[written unchanged] verified]|e] [g k3] Hdone.
    + apply wp_ret. split.
      * intros x [= <-]. simpl. split; [|done].
        destruct (ld_ok _ _ _ _ _ _ Hdone _ _ _ eq_refl) as [? _]. simpl. lia.
      * right. split; [done|]. exists auth_dir, flats. by rewrite Hd.
    + split; [done|]. right. split; [done|]. exists auth_dir, flats. by rewrite Hd.
Qed.

Lemma post_raise (force dry_run : bool) name_prefix f e :
  local_import_post force dry_run name_prefix f (Raise e) f.
Proof. split; [done|]. left. split; [done|]. right. by eexists. Qed.

Lemma wp_import_text text (force dry_run : bool) name_prefix E f k :
  wp (import_text url_open expanduser opener config text force dry_run name_prefix)
    E (World f k) (λ r w', local_import_post force dry_run name_prefix f r (w_fs w')).
Proof using Hurl Hopener.
  unfold import_text. destruct (_ <? _); [apply post_raise|].
  apply wp_bind, wp_pure; [apply fs_pure_local_text|].
  intros [flats|e] k1; [apply wp_complete|apply post_raise].
Qed.

Lemma wp_import_path source (force dry_run : bool) name_prefix E f k :
  wp (import_path url_open expanduser opener config source force dry_run name_prefix)
    E (World f k) (λ r w', local_import_post force dry_run name_prefix f r (w_fs w')).
Proof using Hurl Hopener.
  unfold import_path.
  apply wp_bind, wp_pure; [fs_pure_tac|]. intros [link|e] k1; [|apply post_raise].
  destruct link; [apply post_raise|].
  apply wp_bind, wp_pure; [fs_pure_tac|]. intros [dir|e] k2; [|apply post_raise].
  destruct dir.
  - apply wp_bind, wp_pure; [apply fs_pure_discover|].
    intros [[[flats discovered] ignored]|e] k3; [apply wp_complete|apply post_raise].
  - apply wp_bind, wp_pure; [fs_pure_tac|]. intros [file|e] k3; [|apply post_raise].
    destruct file; [|apply post_raise]. simpl.
    match goal with |- wp (if negb ?b then _ else _) _ _ _ => destruct b end; [|apply post_raise]. simpl.
    apply wp_bind, wp_pure; [apply fs_pure_read_source|]. intros [text|e] k4; [|apply post_raise].
    destruct (marker_present text); [|apply post_raise]. simpl.
    apply wp_bind, wp_pure; [apply fs_pure_local_text|].
    intros [flats|e] k5; [apply wp_complete|apply post_raise].
Qed.

End import.

(** ** The contract *)

(** C4: import_text and import_path, under every pattern of failing calls (the token
    endpoint and the capability probe touch no file): a success counts every parsed
    credential as a duplicate, written or unchanged; a refusal before the writes and a
    preview leave every file as it was; otherwise no file but the planned targets, the
    lock and a temporary file that could not be removed changes, a target holds what it
    held or its whole planned payload, without force nothing that was there changes, an
    error of the import itself has every target as it was unless it says that the undo
    failed, and a success has every planned payload in place, or a file that reads as it. *)
Theorem local_import_transaction url_open expanduser opener config (text : string) source
    (force dry_run : bool) name_prefix E w r w'
    (Hurl : ∀ body, fs_pure (url_open body)) (Hopener : ∀ address, fs_pure (opener address))
    (Hrun : import_text url_open expanduser opener config text force dry_run name_prefix E w = (r, w') ∨
            import_path url_open expanduser opener config source force dry_run name_prefix E w = (r, w')) :
  local_import_post force dry_run name_prefix (w_fs w) r (w_fs w').
Proof.
  destruct w as [f k].
  destruct Hrun as [Hrun|Hrun].
  - pose proof (wp_import_text url_open expanduser opener Hurl Hopener config text force dry_run
      name_prefix E f k) as H. unfold wp in H. by rewrite Hrun in H.
  - pose proof (wp_import_path url_open expanduser opener Hurl Hopener config source force dry_run
      name_prefix E f k) as H. unfold wp in H. by rewrite Hrun in H.
Qed.

Definition import_config : local_config :=
  plain_config (path_of "/home") (path_of "/state") (Some (path_of "/auth")) None "".
Definition no_exchange (body : string) : M (string + Z) := ret (inl EmptyString).
Definition no_service (address : string) : M (Z * json) := ret (0, JNull).
Definition same_path (p : path) : path := p.
Definition token_file (token : string) : node :=
  File (dumps (st_default false true) (JList [JDict [("access_token", JStr token)]])) 384.
Definition import_env : env :=
  Env (λ _, false) (λ k, pretty k) (λ _, 0) (λ _ _, FNan) (λ _ _, false) (λ _, 0).
(** Files of one token each. *)
Definition token_files (names : list string) : fs :=
  list_to_map ((path_of "/in", Dir 448) ::
    map (λ name, (path_join (path_of "/in") name, token_file name)) names).
Definition import_names (names : list string) : res local_import_result * world :=
  import_path no_exchange same_path no_service import_config (path_of "/in") false false
    "codexx-import" import_env (World (token_files names) 0).

Lemma local_import_transaction_witness :
  ∃ x w', import_names ["one.json"; "two.log"] = (Ok x, w') ∧ li_written x = 2 ∧
    local_import_post false false "codexx-import" (token_files ["one.json"; "two.log"]) (Ok x) (w_fs w').
Proof.
  destruct (import_names ["one.json"; "two.log"]) as [[x|e] w'] eqn:H; [|vm_compute in H; discriminate].
  exists x, w'. split; [done|]. split.
  - assert (Hx : match (import_names ["one.json"; "two.log"]).1 with
      | Ok x => li_written x | Raise _ => 0 end = 2) by (by vm_compute).
    by rewrite H in Hx.
  - apply (local_import_transaction no_exchange same_path no_service import_config EmptyString
      (path_of "/in") false false "codexx-import" import_env
      (World (token_files ["one.json"; "two.log"]) 0) (Ok x) w');
      [intros body; apply fs_pure_ret|intros address; apply fs_pure_ret|right; exact H].
Defined.

(** Two different credentials can be planned under one name: the number that tells
    two files of one stem apart makes the stem of a third.  Each of the three files is a
    valid source, any two of them are imported, and the directory of all three is refused
    after the writes, which are undone. *)
Theorem planned_names_collide :
  is_ok (import_names ["x.json"; "x.log"]).1 = true ∧
  is_ok (import_names ["x-2.json"; "x.json"]).1 = true ∧
  map pf_name (plan_files [([], "x-2"); ([], "x"); ([], "x")] EmptyString) =
    ["codex-x-2.json"; "codex-x.json"; "codex-x-2.json"] ∧
  match import_names ["x-2.json"; "x.json"; "x.log"] with
  | (Raise e, w') =>
      exn_code e = "verification_failed" ∧
      data_at (w_fs w') (path_of "/auth/codex-x-2.json") = None
  | _ => False
  end.
Proof. vm_compute. by repeat split. Qed.
