(* ===== verification/LocalProbe.v ===== *)
(** * The desktop's sweep of its credentials ([local/cloudx_local/local_cpa_probe.py])

    Every credential file is read, each different credential probed once, and a file all
    of whose credentials failed for good is a candidate for the archive.

    [http] stands for the HTTP client: the proxy if there is one, the endpoint and the
    headers, to a [reply].  The thread pool runs the probes in the order of its list. *)

From S2P Require Import Prelude PyStr PyFloat PyValue PyTime PyJson FS PyBase64 PySha AgentIdentity.
From S2P Require Import CpaRecords CpaAuth CpaSweep CpaQuota PyUrl LocalImport.

Definition LP_ENDPOINT_CHATGPT : string := "https://chatgpt.com/backend-api/wham/usage".
Definition LP_ENDPOINT_CODEXAPI : string := "https://api.openai.com/api/codex/usage".
Definition LP_MAX_AUTH_FILE_BYTES : Z := 4 * 1024 * 1024.
Definition MAX_RESPONSE_BYTES : Z := 1024 * 1024.
Definition MAX_CONTEXTS : nat := 4096.
Definition MAX_CONCURRENCY : Z := 64.
Definition DEFAULT_CONCURRENCY : Z := 32.
Definition REFRESH_SKEW_SECONDS : Z := 5 * 60.
Definition PERMANENT_MARKERS : list (string * string) :=
  [("deactivated_workspace", "deactivated_workspace");
   ("account_deactivated", "account_deactivated");
   ("account has been deactivated", "account_deactivated");
   ("account deactivated", "account_deactivated");
   ("account has been disabled", "account_deactivated");
   ("account disabled", "account_deactivated");
   ("account deleted", "account_deactivated");
   ("refresh_token_reused", "refresh_token_reused");
   ("refresh token reused", "refresh_token_reused");
   ("invalid_grant", "refresh_invalid_grant");
   ("refresh_token_revoked", "refresh_token_revoked");
   ("refresh token revoked", "refresh_token_revoked");
   ("token has been revoked", "refresh_token_revoked");
   ("refresh token is required", "missing_token");
   ("missing refresh token", "missing_token")].
Definition PERMANENT_REASONS : list string := map snd PERMANENT_MARKERS.
Definition QUOTA_MARKERS : list string :=
  ["weekly limit"; "weekly quota"; "usage_limit"; "usage limit"; "rate_limit"; "rate limit";
   "quota"; "too many requests"].

Record probe_context := ProbeContext { px_path : path; px_digest : string; px_payload : dict }.
Record probe_candidate := ProbeCandidate { pc_path : path; pc_digest : string; pc_reason : string }.

(** ** Reading *)

(** [_safe_bytes] reads as [cpa_sweep] does. *)
Definition lp_safe_bytes (p : path) (maximum : Z) : M (option string) := safe_file_bytes p maximum.

(** [sorted(dir.glob("*.json"))], once the directory is known to be one. *)
Definition json_files (dir : path) : M (list path) :=
  sys ;; let! f := get_fs in
  ret (map (child dir) (List.filter (ends_with ".json") (child_names f dir))).
Definition plain_directory (dir : path) : M bool :=
  let! d := is_dir_p dir in
  if d then let! link := is_symlink_p dir in ret (negb link) else ret false.

(** The payloads of one file; [None] when it is passed over. *)
Definition file_payloads (p : path) (raw : string) : res (option (list dict)) :=
  match loads_bytes raw with
  | Ok (JDict document) =>
      if is_agent_identity document then Ok None
      else match expand_object document (p_name p) with
           | Ok payloads => Ok (Some payloads)
           | Raise e => if catches RuntimeError (exn_cls e) then Ok None else Raise e
           end
  | _ => Ok None
  end.

Definition context_step (result : list probe_context) (p : path) : M (list probe_context) :=
  let! raw := lp_safe_bytes p LP_MAX_AUTH_FILE_BYTES in
  match raw with
  | None => ret result
  | Some raw =>
      let! payloads := lift (file_payloads p raw) in
      match payloads with
      | None => ret result
      | Some payloads =>
          let result' := result ++ map (ProbeContext p (sha256 raw)) payloads in
          if Nat.ltb MAX_CONTEXTS (length result') then mraise RuntimeError "local CPA probe context count exceeds the safety limit"
          else ret result'
      end
  end.

Definition contexts (auth_dir : path) : M (list probe_context) :=
  let! usable := plain_directory auth_dir in
  if negb usable then ret [] else
  let! files := json_files auth_dir in
  mfold context_step [] files.

(** ** One probe *)

(** The proxy that is set, if its address is acceptable. *)
Definition proxy_of (proxy_url : string) : res (option string) :=
  let value := strip proxy_url in
  let invalid := raise RuntimeError "local CPA probe proxy URL is invalid" in
  if value =s? "" then Ok None else
  match urlsplit value with
  | None => raise ValueError "Invalid IPv6 URL"
  | Some u =>
      match u_port u with
      | None => invalid
      | Some _ =>
          if negb (mem (u_scheme u) ["http"; "https"]) ||
             negb (match u_hostname u with Some _ => true | None => false end) ||
             (match u_username u with Some _ => true | None => false end) ||
             (match u_password u with Some _ => true | None => false end) ||
             negb (mem (u_path u) [""; "/"]) || (u_query u <>s? "") || (u_fragment u <>s? "")
          then invalid else Ok (Some value)
      end
  end.

Definition jwt_expiry (token : string) : res (option pyfloat) :=
  let value := dget "exp" (decode_jwt_payload token) in
  if is_number value then let* f := py_float value in Ok (Some f) else Ok None.

Definition probe_headers (endpoint : string) (payload : dict) : list (string * string) :=
  let '(access_token, _, _) := local_auth_tokens payload in
  let account_id := local_account_id payload in
  [("Authorization", "Bearer " +:+ access_token); ("Accept", "application/json");
   ("User-Agent", "codex-cli"); ("OpenAI-Beta", "codex=v1")] ++
  (if starts_with "https://chatgpt.com/" endpoint
   then [("Origin", "https://chatgpt.com"); ("Referer", "https://chatgpt.com/")] else []) ++
  (if account_id <>s? "" then [("ChatGPT-Account-Id", account_id)] else []).

Definition error_body (body : option string) : string :=
  match body with
  | Some raw => if MAX_RESPONSE_BYTES <? str_len raw then "" else raw
  | None => ""
  end.

Definition probe_failed (reason : string) : dict :=
  [("status", JStr "invalid"); ("reason", JStr reason); ("permanent", JBool true);
   ("weekly_quota", JBool false)].
Definition probe_says (status : string) : dict := [("status", JStr status)].

Definition classified_failure (status : Z) (raw : string) (has_refresh : bool) : option dict :=
  let text := casefold (utf8_ignore raw) in
  if (status =? 429) || existsb (λ marker, contains marker text) QUOTA_MARKERS
  then Some (probe_says "limited")
  else match List.find (λ mr, contains mr.1 text) PERMANENT_MARKERS with
       | Some (_, reason) => Some (probe_failed reason)
       | None =>
           if status =? 401
           then Some (if has_refresh then probe_says "login" else probe_failed "authentication_unauthorized")
           else None
       end.

(** [v <= z] and [v >= z] of a number. *)
Definition number_at_most (v : json) (z : Z) : bool :=
  match v with JInt n => n <=? z | JFloat f => is_cmp cmp_le (fcompare_Z f z) | _ => false end.
Definition number_at_least (v : json) (z : Z) : bool :=
  match v with JInt n => z <=? n | JFloat f => is_cmp cmp_ge (fcompare_Z f z) | _ => false end.

Definition window_exhausted (value : json) : bool :=
  match value with
  | JDict w =>
      number_at_most (dget "remaining_percent" w) 0 ||
      number_at_least (dget_or "used_percent" (dget "utilization" w) w) 100
  | _ => false
  end.
Definition rate_limited (rate : dict) : bool :=
  truthy (dget "limit_reached" rate) || existsb (λ kv : string * json, window_exhausted kv.2) rate.

(** What the answer of one endpoint settles: [None] when the next one is tried. *)
Definition settled (has_refresh : bool) (r : reply) : option dict :=
  match r with
  | NoReply => None
  | HttpError code body => classified_failure code (error_body body) has_refresh
  | Response status raw =>
      if MAX_RESPONSE_BYTES <? str_len raw then None
      else if 400 <=? status then classified_failure status raw has_refresh
      else match loads_bytes raw with
           | Ok (JDict document) =>
               let rate := match dget "rate_limit" document with JDict d => d | _ => document end in
               Some (probe_says (if rate_limited rate then "limited" else "ready"))
           | _ => None
           end
  end.

Section probe.
Context (http : option string → string → list (string * string) → M reply).

Definition transport_status (proxy_url : string) : M string :=
  let! proxy := lift (proxy_of proxy_url) in
  let! r := http proxy LP_ENDPOINT_CHATGPT
              [("Accept", "application/json"%string); ("User-Agent", "codex-cli"%string)] in
  ret match r with
      | Response status _ | HttpError status _ =>
          if (status =? 429) || (500 <=? status) then "provider_error"%string else "reachable"%string
      | NoReply => "transport_error"%string
      end.

Fixpoint probe_endpoints (proxy : option string) (payload : dict) (has_refresh : bool)
    (endpoints : list string) : M (option dict) :=
  match endpoints with
  | [] => ret None
  | endpoint :: endpoints =>
      let! r := http proxy endpoint (probe_headers endpoint payload) in
      match settled has_refresh r with
      | Some d => ret (Some d)
      | None => probe_endpoints proxy payload has_refresh endpoints
      end
  end.

Definition probe_payload (proxy : option string) (payload : dict) : M (option dict) :=
  let '(access_token, refresh_token, _) := local_auth_tokens payload in
  let has_refresh := refresh_token <>s? "" in
  if Nat.ltb (count_char "." access_token) 2 then ret None else
  let! expiry := lift (jwt_expiry access_token) in
  let! expired :=
    (match expiry with
     | None => ret false
     | Some e => let! us := now_us in
                 ret (fle e (fadd (now_float us) (float_of_int REFRESH_SKEW_SECONDS)))
     end) in
  if expired then ret (Some (if has_refresh then probe_says "login" else probe_failed "missing_token"))
  else probe_endpoints proxy payload has_refresh [LP_ENDPOINT_CHATGPT; LP_ENDPOINT_CODEXAPI].

(** ** The sweep *)

Definition probe_key (payload : dict) : string :=
  let '(access_token, refresh_token, _) := local_auth_tokens payload in
  sha256 (str_join NUL [access_token; local_account_id payload;
                        if refresh_token <>s? "" then "1" else "0"]).

(** [unique.setdefault(key, payload)], in order. *)
Fixpoint unique_payloads (seen : list string) (l : list probe_context) : list (string * dict) :=
  match l with
  | [] => []
  | c :: l =>
      let key := probe_key (px_payload c) in
      if mem key seen then unique_payloads seen l
      else (key, px_payload c) :: unique_payloads (key :: seen) l
  end.

Definition observation_status (item : option dict) : string :=
  match item with Some d => str_first [dget "status" d; JStr "unavailable"] | None => "unavailable" end.
Definition count_observed (status : string) (l : list (option dict)) : Z :=
  Z.of_nat (length (List.filter (λ item, observation_status item =s? status) l)).

(** The paths in order, each with what was observed of its payloads. *)
Fixpoint group_add (p : path) (v : option dict * string) (l : list (path * list (option dict * string)))
    : list (path * list (option dict * string)) :=
  match l with
  | [] => [(p, [v])]
  | (q, vs) :: l => if bool_decide (q = p) then (q, vs ++ [v]) :: l else (q, vs) :: group_add p v l
  end.
Definition grouped (selected : list probe_context) (observations : list (option dict))
    : list (path * list (option dict * string)) :=
  fold_left (λ l (co : probe_context * option dict), group_add (px_path co.1) (co.2, px_digest co.1) l)
    (combine selected observations) [].

(** The reason of a permanent failure of a kind that is archived. *)
Definition permanent_reason_of (item : option dict) : option string :=
  match item with
  | Some d =>
      if is_true (dget "permanent" d) && is_false (dget "weekly_quota" d) &&
         mem (str_or_empty (dget "reason" d)) PERMANENT_REASONS
      then Some (str_or_empty (dget "reason" d)) else None
  | None => None
  end.
Definition file_candidate (g : path * list (option dict * string)) : option probe_candidate :=
  let '(p, values) := g in
  let reasons := omap (λ v : option dict * string, permanent_reason_of v.1) values in
  if Nat.eqb (length reasons) (length values) then
    match dedup (map snd values), sorted_set reasons with
    | [digest], reason :: _ => Some (ProbeCandidate p digest reason)
    | _, _ => None
    end
  else None.

Definition probe_all (auth_dir : path) (proxy_url : string) (concurrency : Z)
    : M (dict * list probe_candidate) :=
  let! selected := contexts auth_dir in
  let total := Z.of_nat (length selected) in
  match selected with
  | [] => ret ([("gate", JStr "no_accounts"); ("total", JInt 0); ("concurrency", JInt 0);
                ("failed", JInt 0)], [])
  | _ =>
      let! gate := transport_status proxy_url in
      if gate <>s? "reachable" then
        ret ([("gate", JStr gate); ("total", JInt total); ("concurrency", JInt 0);
              ("failed", JInt total)], [])
      else
        let! proxy := lift (proxy_of proxy_url) in
        let unique := unique_payloads [] selected in
        let limit := Z.min (Z.of_nat (length unique)) (Z.max 1 (Z.min MAX_CONCURRENCY concurrency)) in
        let! results := mmap (λ kp : string * dict,
          let! r := probe_payload proxy kp.2 in ret (kp.1, r)) unique in
        let observations := map (λ c, match List.find (λ kr : string * option dict,
            kr.1 =s? probe_key (px_payload c)) results with
          | Some (_, r) => r | None => None end) selected in
        let available := count_observed "ready" observations + count_observed "warning" observations in
        let limited := count_observed "limited" observations in
        ret ([("gate", JStr "reachable"); ("total", JInt total);
              ("uniqueCredentials", JInt (Z.of_nat (length unique))); ("concurrency", JInt limit);
              ("available", JInt available); ("limited", JInt limited);
              ("invalid", JInt (count_observed "invalid" observations));
              ("failed", JInt (total - available - limited))],
             omap file_candidate (grouped selected observations))
  end.

End probe.

(** * The desktop's sweep and the cloud's probe

    One answer of the usage endpoint means the same on both sides, and what the desktop
    archives of it. *)

(** What a verdict says, in the field names of each side. *)
Definition desktop_verdict (d : dict) : json * json * json * json :=
  (dget "status" d, dget "reason" d, dget "permanent" d, dget "weekly_quota" d).
Definition cloud_verdict (d : dict) : json * json * json * json :=
  (dget "status" d, dget "failure_reason" d, dget "permanent_auth_failure" d, dget "weekly_quota" d).

Lemma find_agrees body :
  List.find (λ mr, contains mr.1 (casefold (utf8_ignore body))) PERMANENT_MARKERS =
  permanent_marker (casefold (utf8_ignore body)).
Proof. reflexivity. Qed.

Lemma verdicts_agree status body us endpoint has_refresh :
  option_map desktop_verdict (classified_failure status body has_refresh) =
  option_map cloud_verdict (classified_http_failure status body us endpoint has_refresh).
Proof.
  unfold classified_failure, classified_http_failure, body_classification. rewrite find_agrees.
  change QUOTA_MARKERS with QUOTA_FAILURE_MARKERS.
  destruct (status =? 429); [reflexivity|]. cbn [orb].
  destruct (existsb (λ marker, contains marker (casefold (utf8_ignore body))) QUOTA_FAILURE_MARKERS);
    [reflexivity|].
  destruct (permanent_marker _) as [[marker reason]|]; [reflexivity|].
  destruct (status =? 401); [by destruct has_refresh|reflexivity].
Qed.

Lemma omap_all {A B} (f : A → option B) (l : list A) :
  length (omap f l) = length l → Forall (λ x, is_Some (f x)) l.
Proof.
  induction l as [|x l IH]; intros H; [constructor|]. cbn in H.
  assert (Hle : (length (omap f l) <= length l)%nat).
  { clear. induction l as [|y l IH]; cbn; [done|]. destruct (f y); cbn; lia. }
  unfold omap in *. destruct (f x) as [y|] eqn:Hx; cbn in H; [|lia].
  constructor; [by rewrite Hx|]. apply IH. unfold omap. lia.
Qed.

Lemma file_candidate_sound p values c :
  file_candidate (p, values) = Some c →
  pc_path c = p ∧ values ≠ [] ∧ In (pc_reason c) PERMANENT_REASONS ∧
  Forall (λ v : option dict * string, v.2 = pc_digest c ∧ is_Some (permanent_reason_of v.1)) values.
Proof.
  unfold file_candidate. destruct (Nat.eqb _ _) eqn:Hlen; [|done]. apply Nat.eqb_eq, omap_all in Hlen.
  destruct (dedup (map snd values)) as [|digest [|]] eqn:Hdig; try done.
  destruct (sorted_set _) as [|reason l] eqn:Hreasons; [done|]. intros [= <-]. simpl.
  assert (Hreason : In reason (omap (λ v : option dict * string, permanent_reason_of v.1) values)).
  { apply sorted_set_In. rewrite Hreasons. by left. }
  apply list_elem_of_In, list_elem_of_omap in Hreason as (v & Hv & Hr).
  split_and!; [done|by intros ->| |].
  - revert Hr. unfold permanent_reason_of. destruct v.1 as [d|]; [|done].
    destruct (_ && _) eqn:Hp; [|done]. intros [= <-]. apply andb_prop in Hp as [_ Hp].
    exact (proj1 (mem_spec _ PERMANENT_REASONS) Hp).
  - rewrite List.Forall_forall in *. intros x Hx. split; [|by apply Hlen].
    assert (Hin : In x.2 (dedup (map snd values))) by (apply dedup_In, in_map, Hx).
    rewrite Hdig in Hin. by destruct Hin as [<-|[]].
Qed.

