(* ===== verification/LocalMaintenance.v ===== *)
(** * The desktop's archive of failed credentials ([local/cloudx_local/local_cpa_maintenance.py])

    The active credentials are scanned; those that fail the static checks, those that a
    fresh receipt of the gateway names, and, after a trigger, those whose probe failed for
    good are moved to an archive with a manifest; one archived file can be restored.

    [http], [expanduser]: as in [LocalProbe] and [LocalImport].  The concurrency that the
    environment asks for is an argument.  [flock] blocks without effect. *)

From S2P Require Import Prelude PyStr PyFloat PyValue PyTime PyJson PyBase64 PySha FS.
From S2P Require Import AgentIdentity CpaRecords CpaAuth CpaSweep CpaQuota LocalSweep.
From S2P Require Import LocalConfig LocalImport LocalProbe.

Definition FAILURE_SCHEMA : string := "cloudx.cpa-auth-failure.v1".
Definition RESULT_SCHEMA : string := "cloudx.local-cpa-maintenance.v1".
Definition LM_MANIFEST_SCHEMA : string := "cloudx.local-cpa-archive.v1".
Definition LM_MAX_AUTH_FILE_BYTES : Z := 4 * 1024 * 1024.
Definition MAX_RECEIPT_BYTES : Z := 16 * 1024.
Definition LM_MAX_MANIFEST_BYTES : Z := 4 * 1024 * 1024.
Definition MAX_RECEIPT_AGE_SECONDS : Z := 30 * 60.
Definition LM_MAX_FUTURE_SKEW_SECONDS : Z := 5 * 60.
Definition MIN_FAILURE_CONFIRMATIONS : Z := 1.
Definition PERMANENT_FAILURE_REASONS : list string :=
  ["account_deactivated"; "authentication_unauthorized"; "missing_token";
   "refresh_invalid_grant"; "refresh_token_reused"; "refresh_token_revoked"].

Definition rejected_local {A} (msg : string) : M A := mraise LocalCpaMaintenanceRejected msg.

Record auth_record := AuthRecord { au_path : path; au_digest : string; au_static_reason : string }.
Record archive_item := ArchiveItem {
  ai_record : auth_record; ai_reason : string; ai_receipt : option path }.
#[global] Instance auth_record_eq_dec : EqDecision auth_record.
Proof. solve_decision. Defined.
#[global] Instance archive_item_eq_dec : EqDecision archive_item.
Proof. solve_decision. Defined.

(** ** Times *)

(** [float(text)] of a text without surrounding white space: [None] is [ValueError].
    An underscore may stand between two digits. *)
Fixpoint drop_underscores (after_digit : bool) (s : string) : option string :=
  match s with
  | EmptyString => Some EmptyString
  | String c r =>
      if Ascii.eqb c "_" then
        if after_digit && match r with String d _ => is_digit d | EmptyString => false end
        then drop_underscores false r else None
      else option_map (String c) (drop_underscores (is_digit c) r)
  end.
Definition float_magnitude (neg : bool) (s : string) : option pyfloat :=
  if mem (str_lower s) ["inf"; "infinity"] then Some (FInf neg)
  else if str_lower s =s? "nan" then Some FNan
  else
    let? s := drop_underscores false s in
    let '(ip, r) := span_digits s in
    let '(fd, r) := match r with
                    | String c r' => if Ascii.eqb c "." then span_digits r' else ("", r)
                    | EmptyString => ("", r)
                    end in
    if (ip =s? "") && (fd =s? "") then None else
    let '(ex, r) := scan_exp r in
    if r =s? "" then Some (float_literal neg ip fd (default 0 ex)) else None.
Definition float_of_text (s : string) : option pyfloat :=
  match s with
  | String c r =>
      if Ascii.eqb c "-" then float_magnitude true r
      else if Ascii.eqb c "+" then float_magnitude false r else float_magnitude false s
  | EmptyString => None
  end.

Example float_texts :
  map (λ s, option_map frepr (float_of_text s)) ["1.5e3"; "-.5"; "1_000"; "1__0"; "1."; "x"] =
  [Some "1500.0"; Some "-0.5"; Some "1000.0"; None; Some "1.0"; None].
Proof. reflexivity. Qed.

Definition local_parse_time (raw : json) : option datetime :=
  match raw with
  | JInt _ | JFloat _ => let? f := to_float raw in fromtimestamp f
  | JStr s =>
      let value := z_suffix (strip s) in
      if strip s =s? "" then None
      else match fromisoformat value with
           | Some parsed => Some (match dt_off parsed with
                                  | Some _ => parsed | None => utc (dt_wall parsed) end)
           | None => let? f := float_of_text value in fromtimestamp f
           end
  | _ => None
  end.

Definition auth_expiry (document : dict) (access_token id_token : string) : option datetime :=
  local_parse_time
    (py_or (dget "expired" document)
    (py_or (dget "expiry" document)
    (py_or (dget "auth_expires_at" document)
    (py_or (dget "expires_at" document)
    (py_or (JStr (local_iso_from_epoch (dget "exp" (decode_jwt_payload access_token))))
           (JStr (local_iso_from_epoch (dget "exp" (decode_jwt_payload id_token))))))))).

(** ** The active credentials *)

Definition safe_regular_file (p : path) (maximum : Z) : M string :=
  let! n := try_with (open_nofollow p)
    (except [OSError] (λ _, rejected_local "CPA auth file is unavailable")) in
  try_with
    (let! info := fstat n in
     if negb (is_reg info) then rejected_local "CPA auth file is unsafe"
     else if maximum <? node_size info then rejected_local "CPA auth file is too large"
     else
       let! data := read_node n in
       let raw := str_take_z (maximum + 1) data in
       if maximum <? str_len raw then rejected_local "CPA auth file is too large" else ret raw)
    (except [OSError] (λ _, rejected_local "CPA auth file is unreadable")).

Definition sha256_file (p : path) : M string :=
  let! raw := safe_regular_file p LM_MAX_AUTH_FILE_BYTES in ret (sha256 raw).

(** The checks of one document; [None] when it is no credential of this provider.  [us]
    is the time, in microseconds since the epoch. *)
Definition static_reason (document : dict) (us : Z) : option string :=
  let provider := casefold (strip (str_first [dget "type" document; dget "provider" document])) in
  if (provider <>s? "") && negb (mem provider ["codex"; "chatgpt"; "openai"]) then None
  else if is_agent_identity document then
    Some (if is_valid document then "" else "invalid-agent-identity")
  else
    let '(access_token, refresh_token, id_token) := local_auth_tokens document in
    if negb (any_token (local_auth_tokens document)) then Some "missing-refresh-and-access-token"
    else match auth_expiry document access_token id_token with
         | Some expiry =>
             Some (if (instant_us expiry <=? us) && (refresh_token =s? "")
                   then "expired-without-refresh-token" else "")
         | None => Some ""
         end.

Definition auth_record_of (p : path) (us : Z) : M (option auth_record) :=
  let! raw := try_with (let! raw := safe_regular_file p LM_MAX_AUTH_FILE_BYTES in ret (Some raw))
    (except [LocalCpaMaintenanceRejected] (λ _, ret None)) in
  ret match raw with
      | None => None
      | Some raw =>
          match loads_bytes raw with
          | Ok (JDict document) => option_map (AuthRecord p (sha256 raw)) (static_reason document us)
          | _ => Some (AuthRecord p (sha256 raw) "invalid-auth-json")
          end
      end.

(** The records by name, in the order of the names. *)
Definition scan_active_auth (auth_dir : path) (us : Z) : M (list (string * auth_record)) :=
  let! usable := plain_directory auth_dir in
  if negb usable then ret [] else
  let! files := json_files auth_dir in
  let! records := mmap (λ p, let! r := auth_record_of p us in ret (p_name p, r)) files in
  ret (omap (λ nr : string * option auth_record, option_map (pair nr.1) nr.2) records).

Definition record_named (name : string) (records : list (string * auth_record)) : option auth_record :=
  option_map snd (List.find (λ nr : string * auth_record, nr.1 =s? name) records).

(** ** Receipts *)

(** The checks of a receipt but its age: file, digest, reason, and when it was observed. *)
Definition receipt_checked (document : dict) : option (string * string * string * datetime) :=
  if negb (eq_str (dget "schema" document) FAILURE_SCHEMA) then None else
  let auth_file := str_or_empty (dget "authFile" document) in
  if (p_name (path_of auth_file) <>s? auth_file) || negb (ends_with ".json" auth_file) then None else
  let digest := str_or_empty (dget "authSha256" document) in
  let reason := str_or_empty (dget "reason" document) in
  if negb (Capabilities.is_sha256_text digest) || negb (mem reason PERMANENT_FAILURE_REASONS) ||
     negb (is_true (dget "permanentAuthFailure" document)) ||
     negb (is_false (dget "weeklyQuota" document)) ||
     match as_int (dget "failureCount" document) with
     | Some n => n <? MIN_FAILURE_CONFIRMATIONS | None => true end
  then None
  else let? observed := local_parse_time (dget "observedAt" document) in
       Some (auth_file, digest, reason, observed).

Definition local_receipt (p : path) (us : Z) : M (option (string * string * string)) :=
  let! raw := try_with (let! raw := safe_regular_file p MAX_RECEIPT_BYTES in ret (Some raw))
    (except [LocalCpaMaintenanceRejected] (λ _, ret None)) in
  match match raw with Some raw => loads_bytes raw | None => Ok JNull end with
  | Ok (JDict document) =>
      match receipt_checked document with
      | None => ret None
      | Some (auth_file, digest, reason, observed) =>
          let! age := lift (age_us (EPOCH_US + us) observed) in
          ret (if (age <? - LM_MAX_FUTURE_SKEW_SECONDS * US) || (MAX_RECEIPT_AGE_SECONDS * US <? age)
               then None else Some (auth_file, digest, reason))
      end
  | _ => ret None
  end.

(** [(candidates, rejected, stale)]. *)
Definition runtime_step (records : list (string * auth_record)) (us : Z)
    (s : list archive_item * Z * Z) (p : path) : M (list archive_item * Z * Z) :=
  let '(candidates, rejected, stale) := s in
  let! document := local_receipt p us in
  ret match document with
      | None => (candidates, rejected + 1, stale)
      | Some (auth_file, digest, reason) =>
          match record_named auth_file records with
          | Some record =>
              if au_digest record =s? digest
              then (candidates ++ [ArchiveItem record ("runtime-" +:+ reason) (Some p)], rejected, stale)
              else (candidates, rejected, stale + 1)
          | None => (candidates, rejected, stale + 1)
          end
      end.
Definition runtime_candidates (failure_dir : path) (records : list (string * auth_record)) (us : Z)
    : M (list archive_item * Z * Z) :=
  let! usable := plain_directory failure_dir in
  if negb usable then ret ([], 0, 0) else
  let! files := json_files failure_dir in
  mfold (runtime_step records us) ([], 0, 0) files.

(** ** The archive *)

Definition archive_manifest (p : path) : M dict :=
  let! present := is_file_p p in
  if negb present then ret [("schema", JStr LM_MANIFEST_SCHEMA); ("entries", JList [])] else
  let! raw := try_with (safe_regular_file p LM_MAX_MANIFEST_BYTES)
    (except [LocalCpaMaintenanceRejected] (λ _, rejected_local "local CPA archive manifest is invalid")) in
  match loads_bytes raw with
  | Ok (JDict document) =>
      if eq_str (dget "schema" document) LM_MANIFEST_SCHEMA
      then match dget "entries" document with
           | JList _ => ret document
           | _ => rejected_local "local CPA archive manifest is invalid"
           end
      else rejected_local "local CPA archive manifest is invalid"
  | _ => rejected_local "local CPA archive manifest is invalid"
  end.

Definition ARCHIVE_LOCK : string := ".archive.lock".
Definition numbered_target (archive_dir source : path) (index : Z) : path :=
  child archive_dir (p_stem source +:+ "." +:+ str_of_Z index +:+ p_suffix source).
Fixpoint target_search (fuel : nat) (archive_dir source : path) (index : Z) : M path :=
  match fuel with
  | O => mraise RuntimeError "search exhausted"
  | S fuel =>
      let candidate := numbered_target archive_dir source index in
      let! taken := exists_p candidate in
      if taken then target_search fuel archive_dir source (index + 1) else ret candidate
  end.
Definition unique_target (archive_dir source : path) : M path :=
  let target := child archive_dir (p_name source) in
  let! taken := (if mem (p_name target) [MANIFEST_NAME; ARCHIVE_LOCK] then ret true else exists_p target) in
  if taken then let! f := get_fs in target_search (size f + 1) archive_dir source 2 else ret target.

(** The candidates whose files are unchanged, each with its place in the archive. *)
Definition select_step (archive_dir : path) (selected : list (archive_item * path)) (c : archive_item)
    : M (list (archive_item * path)) :=
  let source := au_path (ai_record c) in
  let! file := is_file_p source in
  let! usable := (if file then let! link := is_symlink_p source in ret (negb link) else ret false) in
  if negb usable then ret selected else
  let! digest := sha256_file source in
  if digest <>s? au_digest (ai_record c) then ret selected else
  let! target := unique_target archive_dir source in
  ret (selected ++ [(c, target)]).

Definition archive_entry (c : archive_item) (target : path) (moved_at : string) : json :=
  JDict [("sourceName", JStr (p_name (au_path (ai_record c)))); ("archiveName", JStr (p_name target));
         ("reason", JStr (ai_reason c)); ("movedAt", JStr moved_at);
         ("authSha256", JStr (au_digest (ai_record c)))].
Definition manifest_entries (document : dict) : list json := list_or_empty (dget "entries" document).

(** The undo of the moves, the last first: whether one failed. *)
Definition move_back (c : path * path) : M bool :=
  let '(source, target) := c in
  try_with
    (let! present := exists_p source in
     let! movable := (if present then ret false else is_file_p target) in
     (if movable then replace target source else ret tt) ;; ret false)
    (except [OSError] (λ _, ret true)).
Fixpoint move_all_back (moved : list (path * path)) : M bool :=
  match moved with
  | [] => ret false
  | c :: moved =>
      let! failed := move_back c in
      let! others := move_all_back moved in
      ret (failed || others)
  end.
Definition archive_failed {A} (moved : list (path * path)) (e : exn) : M A :=
  let! rollback_failed := move_all_back moved in
  if rollback_failed then rejected_local "local CPA archive failed and rollback was incomplete"
  else if catches LocalCpaMaintenanceRejected (exn_cls e) then throw e
  else rejected_local "local CPA archive transaction failed; credentials were restored".

(** The moves, then the manifest; [moved] are those done, the last first. *)
Fixpoint move_files (archive_dir source_dir : path) (moved_at : string) (document : dict)
    (l : list (archive_item * path)) (moved : list (path * path)) : M unit :=
  match l with
  | (c, target) :: l =>
      let source := au_path (ai_record c) in
      try_with (replace source target ;; chmod target 384) (except_all (archive_failed moved)) ;;
      move_files archive_dir source_dir moved_at
        (dset "entries" (JList (manifest_entries document ++ [archive_entry c target moved_at])) document)
        l ((source, target) :: moved)
  | [] =>
      try_with
        (atomic_json (child archive_dir MANIFEST_NAME) document 384 ;;
         fsync_directory archive_dir ;; fsync_directory source_dir)
        (except_all (archive_failed moved))
  end.

Definition drop_receipt (st : archive_item * path) : M unit :=
  match ai_receipt st.1 with Some p => ignore_oserror (unlink p) | None => ret tt end.

(** What happens under the lock. *)
Definition archive_locked (archive_dir source_dir : path) (candidates : list archive_item)
    (moved_at : string) : M Z :=
  let! d1 := st_dev source_dir in
  let! d2 := st_dev archive_dir in
  if negb (d1 =? d2) then rejected_local "local CPA archive requires one filesystem" else
  let! document := archive_manifest (child archive_dir MANIFEST_NAME) in
  let! selected := mfold (select_step archive_dir) [] candidates in
  move_files archive_dir source_dir moved_at document selected [] ;;
  miter drop_receipt selected ;;
  ret (Z.of_nat (length selected)).

Definition archive_items (archive_dir : path) (candidates : list archive_item) (moved_at : string) : M Z :=
  match candidates with
  | [] => ret 0
  | c :: _ =>
      ensure_private_directory archive_dir ;;
      chmod archive_dir 448 ;;
      open_append (child archive_dir ARCHIVE_LOCK) ;;
      chmod (child archive_dir ARCHIVE_LOCK) 384 ;;
      sys ;;
      archive_locked archive_dir (p_parent (au_path (ai_record c))) candidates moved_at
  end.

(** ** Restoring one file *)

Fixpoint archive_matches (selector : string) (index : nat) (entries : list json) : list (nat * dict) :=
  match entries with
  | [] => []
  | JDict entry :: entries =>
      (if eq_str (dget "archiveName" entry) selector then [(index, entry)] else []) ++
      archive_matches selector (S index) entries
  | _ :: entries => archive_matches selector (S index) entries
  end.

(** [a == b or the file is no plain name]: the names that an entry may give. *)
Definition plain_json_name (name : string) : bool :=
  (p_name (path_of name) =s? name) && ends_with ".json" name.

Definition restore_locked (auth_dir archive_dir : path) (selector : string) : M unit :=
  let manifest_path := child archive_dir MANIFEST_NAME in
  let! document := archive_manifest manifest_path in
  match archive_matches selector 0 (manifest_entries document) with
  | [(index, entry)] =>
      let archive_name := str_or_empty (dget "archiveName" entry) in
      let source_name := str_or_empty (dget "sourceName" entry) in
      if negb (plain_json_name archive_name) || negb (plain_json_name source_name)
      then rejected_local "local CPA restore manifest paths are invalid" else
      let source := child archive_dir archive_name in
      let target := child auth_dir source_name in
      let! link := is_symlink_p source in
      let! file := (if link then ret false else is_file_p source) in
      let! taken := (if file then exists_p target else ret true) in
      if taken || negb (bool_decide (p_parent target = auth_dir))
      then rejected_local "local CPA restore paths are unavailable" else
      let! d1 := st_dev source in
      let! d2 := st_dev auth_dir in
      if negb (d1 =? d2) then rejected_local "local CPA restore requires one filesystem" else
      try_with (replace source target)
        (except [OSError] (λ _, rejected_local "local CPA restore move failed")) ;;
      chmod target 384 ;;
      let entries := manifest_entries document in
      let document := dset "entries" (JList (take index entries ++ drop (S index) entries)) document in
      try_with (atomic_json manifest_path document 384)
        (except_all (λ _,
           replace target source ;;
           rejected_local "local CPA restore manifest failed; credential remained archived"))
  | _ => rejected_local "local CPA restore selector did not match exactly one entry"
  end.

Section maintenance.
Context (http : option string → string → list (string * string) → M reply).
Context (expanduser : path → path).

(** ** The directories *)

Definition configured_archive (config : local_config) (auth_dir : path) : M path :=
  let! chosen :=
    match lc_archive_dir config with
    | Some p => ret p
    | None =>
        if p_name auth_dir =s? "" then mraise ValueError "has an empty name"
        else ret (child (p_parent auth_dir) (p_name auth_dir +:+ "-archive"))
    end in
  let p := expanduser chosen in
  if negb p.1 then rejected_local "local CPA archive directory must be absolute" else
  let! resolved_auth := resolve_lax auth_dir in
  let! resolved_archive := resolve_lax p in
  if bool_decide (resolved_archive = resolved_auth)
  then rejected_local "local CPA archive directory must differ from auth directory"
  else if inside resolved_archive resolved_auth
  then rejected_local "local CPA archive directory cannot be inside auth directory"
  else ret p.

Definition configured_failures (config : local_config) : M path :=
  let p := expanduser (default (under (lc_state_dir config) ["cpa-auth-failures"]) (lc_failure_dir config)) in
  if p.1 then ret p else rejected_local "local CPA failure directory must be absolute".
Definition configured_sweeps (config : local_config) : M path :=
  let p := expanduser (default (under (lc_state_dir config) ["cpa-auth-sweeps"]) (lc_sweep_dir config)) in
  if p.1 then ret p else rejected_local "local CPA sweep directory must be absolute".

Definition local_restore (config : local_config) (selector confirm : string) : M dict :=
  if (confirm <>s? selector) || (p_name (path_of selector) <>s? selector)
  then rejected_local "local CPA restore confirmation does not match" else
  let! auth_dir := import_auth_dir expanduser config in
  let! archive_dir := configured_archive config auth_dir in
  let! archive_ok := plain_directory archive_dir in
  if negb archive_ok then rejected_local "local CPA archive directory is unavailable" else
  let! auth_ok := plain_directory auth_dir in
  if negb auth_ok then rejected_local "local CPA auth directory is unavailable" else
  open_append (child archive_dir ARCHIVE_LOCK) ;;
  chmod (child archive_dir ARCHIVE_LOCK) 384 ;;
  sys ;;
  restore_locked auth_dir archive_dir selector ;;
  ret [("schema", JStr RESULT_SCHEMA); ("status", JStr "restored"); ("restored", JInt 1)].

(** ** The run *)

Definition item_name (c : archive_item) : string := p_name (au_path (ai_record c)).
(** [by_name[name]]: the static ground first, else the last receipt of the name. *)
Definition item_named (name : string) (runtime static : list archive_item) : option archive_item :=
  match List.find (λ c, item_name c =s? name) static with
  | Some c => Some c
  | None => List.find (λ c, item_name c =s? name) (rev runtime)
  end.
Definition direct_candidates (runtime static : list archive_item) : list archive_item :=
  omap (λ name, item_named name runtime static)
    (sorted_set (map item_name runtime ++ map item_name static)).
Definition static_candidates (records : list (string * auth_record)) : list archive_item :=
  omap (λ nr : string * auth_record,
    if au_static_reason nr.2 =s? "" then None
    else Some (ArchiveItem nr.2 (au_static_reason nr.2) None)) records.

(** The probed candidates whose files are still what was probed. *)
Definition probe_items (current : list (string * auth_record)) (selected : list probe_candidate)
    : list archive_item :=
  omap (λ c,
    match record_named (p_name (pc_path c)) current with
    | Some record =>
        if bool_decide (au_path record = pc_path c) && (au_digest record =s? pc_digest c)
        then Some (ArchiveItem record ("probe-" +:+ pc_reason c) None) else None
    | None => None
    end) selected.

Definition sweep_not_triggered : dict :=
  ("gate", JStr "not_triggered") ::
  map (λ k, (k, JInt 0)) ["total"; "concurrency"; "available"; "limited"; "invalid"; "failed"].

(** The sweep that a trigger asks for: its summary, the candidates, how many of them were
    archived, and what became of the trigger. *)
Definition triggered_sweep (config : local_config) (auth_dir archive_dir : path) (concurrency : Z)
    (apply : bool) (t : trigger) (accepted : string) : M (dict * list archive_item * Z * string) :=
  let! (summary, selected) := probe_all http auth_dir (lc_proxy_url config) concurrency in
  let! us := now_us in
  let! current := scan_active_auth auth_dir us in
  let items := probe_items current selected in
  if negb apply then ret (summary, items, 0, accepted) else
  let! moved_us := now_us in
  let! archived := archive_items archive_dir items (started_text moved_us) in
  if mem (str_or_empty (dget "gate" summary)) ["reachable"; "no_accounts"] then
    let! consumed := consume t in
    ret (summary, items, archived, if consumed then "consumed" else "retained")%string
  else ret (summary, items, archived, "retained"%string).

Definition refresh_document (config : local_config) (concurrency : Z) (apply : bool) : M dict :=
  let! auth_dir := import_auth_dir expanduser config in
  let! archive_dir := configured_archive config auth_dir in
  let! failure_dir := configured_failures config in
  let! sweep_dir := configured_sweeps config in
  let! us := now_us in
  let! records := scan_active_auth auth_dir us in
  let! (runtime, rejected, stale) := runtime_candidates failure_dir records us in
  let direct := direct_candidates runtime (static_candidates records) in
  let! direct_archived := (if apply then archive_items archive_dir direct (started_text us) else ret 0) in
  let! (found, trigger_status) := load sweep_dir (Some us) in
  let! (summary, items, probe_archived, trigger_status) :=
    match found with
    | None => ret (sweep_not_triggered, [], 0, trigger_status)
    | Some t => triggered_sweep config auth_dir archive_dir concurrency apply t trigger_status
    end in
  ret [("schema", JStr RESULT_SCHEMA); ("status", JStr "accepted");
       ("mode", JStr (if apply then "apply" else "dry-run"));
       ("activeAuthFiles", JInt (Z.of_nat (length records)));
       ("eligibleForArchive", JInt (Z.of_nat (length direct + length items)));
       ("archived", JInt (direct_archived + probe_archived));
       ("rejectedFailureReceipts", JInt rejected); ("staleFailureReceipts", JInt stale);
       ("weeklyQuotaArchived", JInt 0); ("nestedAuthDirectoriesScanned", JInt 0);
       ("sweepTriggered", JBool (match found with Some _ => true | None => false end));
       ("sweepTriggerStatus", JStr trigger_status); ("sweep", JDict summary);
       ("externalService", JDict [("managed", JBool false); ("restarted", JBool false)])].

End maintenance.
