(* ===== verification/LocalMaintenanceSafety.v ===== *)
(** * What the desktop's archive keeps

    Under every pattern of failing calls, when the places in the archive are different,
    every file keeps its bytes where they are or at its place in the archive.  When two
    credentials are given one place, the first is lost; that and a file that is moved and
    not recorded are shown as well. *)

From S2P Require Import Prelude PyStr PyFloat PyValue PyTime PyJson FS PyBase64 PySha AgentIdentity.
From S2P Require Import Wp FileData CpaRecords CpaAuth CpaSweep CpaQuota LocalSweep LocalConfig.
From S2P Require Import LocalImport LocalImportSafety LocalProbe LocalMaintenance.

Implicit Types (E : env) (f g h : fs) (k : nat) (w : world).

Definition source_of (c : archive_item) : path := au_path (ai_record c).
Definition manifest_path (archive_dir : path) : path := child archive_dir MANIFEST_NAME.

(** ** The place of a file in the archive *)

Definition occupied (f : fs) (p : path) : bool := opt_is (λ _, true) (stat_node f p).
Fixpoint free_place (fuel : nat) (f : fs) (archive_dir source : path) (index : Z) : option path :=
  match fuel with
  | O => None
  | S fuel =>
      let candidate := numbered_target archive_dir source index in
      if occupied f candidate then free_place fuel f archive_dir source (index + 1) else Some candidate
  end.
Definition place (f : fs) (archive_dir source : path) : option path :=
  let target := child archive_dir (p_name source) in
  if mem (p_name target) [MANIFEST_NAME; ARCHIVE_LOCK] || occupied f target
  then free_place (size f + 1) f archive_dir source 2 else Some target.

Lemma wp_unique_target archive_dir source E f k (Φ : res path → world → Prop) :
  (∀ t k, place f archive_dir source = Some t → Φ (Ok t) (World f k)) →
  (∀ e k, Φ (Raise e) (World f k)) →
  wp (unique_target archive_dir source) E (World f k) Φ.
Proof.
  intros Ho Hr. unfold unique_target, place in *. set (target := child archive_dir (p_name source)) in *.
  assert (Hsearch : ∀ fuel index k,
    (∀ t k, free_place fuel f archive_dir source index = Some t → Φ (Ok t) (World f k)) →
    wp (target_search fuel archive_dir source index) E (World f k) Φ).
  { induction fuel as [|fuel IH]; intros index k1 Hk; simpl; [by apply wp_throw, Hr|].
    apply wp_bind, wp_exists; [intros k2|by intros]. simpl in Hk. unfold occupied in Hk.
    destruct (opt_is _ _); [by apply IH|by apply wp_ret, Hk]. }
  apply wp_bind. destruct (mem _ _); simpl in Ho.
  - apply wp_ret, wp_bind, wp_get_fs. by apply Hsearch.
  - apply wp_exists; [intros k1|by intros]. unfold occupied in Ho.
    destruct (opt_is _ _); [|by apply wp_ret, Ho]. apply wp_bind, wp_get_fs. by apply Hsearch.
Qed.

Lemma free_place_spec fuel f archive_dir source index t :
  free_place fuel f archive_dir source index = Some t →
  occupied f t = false ∧ p_parent t = archive_dir.
Proof.
  revert index. induction fuel as [|fuel IH]; intros index; simpl; [done|].
  destruct (occupied f (numbered_target _ _ _)) eqn:Ho; [apply IH|]. intros [= <-]. split; [done|apply joined_parent].
Qed.

Lemma place_spec f archive_dir source t :
  place f archive_dir source = Some t → data_at f t = None ∧ p_parent t = archive_dir.
Proof.
  intros H. assert (occupied f t = false ∧ p_parent t = archive_dir) as [Ho Hp].
  { revert H. unfold place. destruct (mem _ _ || occupied f _) eqn:Ho; [apply free_place_spec|].
    intros [= <-]. apply orb_false_iff in Ho as [_ Ho]. split; [done|apply joined_parent]. }
  split; [|done]. by apply data_at_none, exists_false.
Qed.

(** ** The selection *)

Section archive.
Context (archive_dir source_dir : path) (f : fs) (candidates : list archive_item).

(** A selected candidate: its file is what was recorded, and its place is free. *)
Definition selected_ok (st : archive_item * path) : Prop :=
  let '(c, t) := st in
  In c candidates ∧ place f archive_dir (source_of c) = Some t ∧
  ∃ d, data_at f (source_of c) = Some d ∧ sha256 d = au_digest (ai_record c).
Definition place_of (c : archive_item) : option path := place f archive_dir (source_of c).

Lemma wp_sha256_file p E k (Φ : res string → world → Prop) :
  opt_is is_link (f !! p) = false →
  (∀ d k, data_at f p = Some d → Φ (Ok (sha256 d)) (World f k)) →
  (∀ e k, Φ (Raise e) (World f k)) →
  wp (sha256_file p) E (World f k) Φ.
Proof.
  intros Hl Ho Hr. unfold sha256_file, safe_regular_file, open_nofollow, fstat, read_node, data_at in *.
  apply wp_bind, wp_bind. apply wp_try, wp_bind, wp_sys; [intros k1|intros e k1 He; unfold except; simpl; rewrite He; apply Hr].
  apply wp_bind, wp_get_fs.
  destruct (f !! p) as [[d m|m|t|]|] eqn:Hp; simpl in *; try done.
  - apply wp_ret, wp_try, wp_bind. apply wp_bind, wp_sys; [intros k2|intros e k2 He; unfold except; simpl; rewrite He; apply Hr].
    apply wp_ret. simpl. destruct (_ <? _) eqn:Hs; [by apply wp_throw; simpl; apply Hr|].
    apply wp_bind, wp_bind, wp_sys; [intros k3|intros e k3 He; unfold except; simpl; rewrite He; apply Hr].
    apply wp_ret.
    rewrite str_take_z_all by lia. rewrite Hs. apply wp_ret, wp_ret. by apply Ho.
  - apply wp_ret, wp_try, wp_bind. apply wp_bind, wp_sys; [intros k2|intros e k2 He; unfold except; simpl; rewrite He; apply Hr].
    apply wp_ret, wp_throw. simpl. apply Hr.
  - apply wp_ret, wp_try, wp_bind. apply wp_bind, wp_sys; [intros k2|intros e k2 He; unfold except; simpl; rewrite He; apply Hr].
    apply wp_ret, wp_throw. simpl. apply Hr.
  - apply wp_throw. simpl. apply Hr.
Qed.

Lemma wp_select_step selected c E k (Φ : res (list (archive_item * path)) → world → Prop) :
  In c candidates →
  (∀ k, Φ (Ok selected) (World f k)) →
  (∀ t k, selected_ok (c, t) → Φ (Ok (selected ++ [(c, t)])) (World f k)) →
  (∀ e k, Φ (Raise e) (World f k)) →
  wp (select_step archive_dir selected c) E (World f k) Φ.
Proof.
  intros Hin Hskip Htake Hr. unfold select_step. fold (source_of c).
  apply wp_bind, wp_is_file; [intros k1|intros; apply Hr].
  destruct (opt_is is_reg _); [|apply wp_bind, wp_ret, wp_ret, Hskip].
  apply wp_bind, wp_bind, wp_is_symlink; [intros k2|intros; apply Hr]. apply wp_ret.
  destruct (opt_is is_link _) eqn:Hl; [by apply wp_ret|]. simpl.
  apply wp_bind, wp_sha256_file; [done|intros d k3 Hd|by intros].
  destruct (eqs_spec (sha256 d) (au_digest (ai_record c))) as [Heq|]; [|by apply wp_ret]. simpl.
  apply wp_bind, wp_unique_target; [intros t k4 Ht|by intros].
  apply wp_ret, Htake. split; [done|]. split; [done|]. eauto.
Qed.

Lemma wp_selected E k (Φ : res (list (archive_item * path)) → world → Prop) :
  (∀ selected k, Forall selected_ok selected →
     sublist (map (λ st, Some st.2) selected) (map place_of candidates) →
     Φ (Ok selected) (World f k)) →
  (∀ e k, Φ (Raise e) (World f k)) →
  wp (mfold (select_step archive_dir) [] candidates) E (World f k) Φ.
Proof.
  intros Ho Hr.
  assert (Hgen : ∀ l done selected k, candidates = done ++ l → Forall selected_ok selected →
    sublist (map (λ st, Some st.2) selected) (map place_of done) →
    wp (mfold (select_step archive_dir) selected l) E (World f k) Φ).
  { induction l as [|c l IH]; intros done selected k1 Heq Hs Hsub; simpl.
    - rewrite app_nil_r in Heq. subst. by apply Ho.
    - assert (Hin : In c candidates) by (rewrite Heq; apply in_or_app; right; by left).
      assert (Heq' : candidates = (done ++ [c]) ++ l) by (by rewrite <- app_assoc).
      apply wp_bind, wp_select_step; [done|intros k2|intros t k2 Ht|by intros].
      + apply (IH (done ++ [c])); [done|done|]. rewrite map_app.
        rewrite <- (app_nil_r (map _ selected)). apply sublist_app; [done|apply sublist_nil_l].
      + apply (IH (done ++ [c])); [done| |].
        * apply Forall_app. by split; [|constructor].
        * rewrite !map_app. apply sublist_app; [done|]. simpl. destruct Ht as (_ & Ht & _).
          unfold place_of. by rewrite Ht. }
  apply (Hgen candidates []); [done|constructor|simpl; constructor].
Qed.

End archive.

(** ** Moving and moving back *)

Lemma wp_replace_data s t E f k (Φ : res unit → world → Prop) :
  s ≠ t →
  (∀ h k, data_at h t = data_at f s → data_at h s = None →
     (∀ q, q ≠ s → q ≠ t → data_at h q = data_at f q) → Φ (Ok tt) (World h k)) →
  (∀ e k, os_exn e → Φ (Raise e) (World f k)) →
  wp (replace s t) E (World f k) Φ.
Proof.
  intros Hne Ho Hr. unfold replace. apply wp_bind, wp_sys; [intros k1|intros; by apply Hr].
  apply wp_bind, wp_get_fs. destruct (f !! s) as [n|] eqn:Hs; [|by apply wp_throw, Hr].
  assert (Hmove : wp (put_fs (<[t := n]> (delete s f))) E (World f k1) Φ).
  { unfold wp, put_fs. simpl. apply Ho.
    - unfold data_at. by rewrite lookup_insert_eq, Hs.
    - rewrite data_at_insert_ne by done. unfold data_at. by rewrite lookup_delete_eq.
    - intros q Hqs Hqt. rewrite data_at_insert_ne, data_at_delete_ne by done. done. }
  destruct n, (f !! t) as [[]|]; try (by apply wp_throw, Hr);
    destruct (parent_is_dir f t); try done; by apply wp_throw, Hr.
Qed.

Lemma stat_data f p d : data_at f p = Some d → ∃ m, stat_node f p = Some (File d m).
Proof.
  unfold data_at. destruct (f !! p) as [[d' m| | |]|] eqn:Hp; try done. intros [= ->].
  exists m. by apply stat_file.
Qed.

Section moves.
Context (archive_dir source_dir : path) (f : fs) (candidates : list archive_item).
Context (selected : list (archive_item * path)).
Context (Hsel : Forall (selected_ok archive_dir f candidates) selected).
Context (Hsub : sublist (map (λ st, Some st.2) selected) (map (place_of archive_dir f) candidates)).
Context (Hsrc : ∀ c, In c candidates → p_parent (source_of c) = source_dir).
Context (Hne : archive_dir ≠ source_dir).
Context (Hnd : NoDup (Some (manifest_path archive_dir) :: map (place_of archive_dir f) candidates)).

Definition src (st : archive_item * path) : path := source_of st.1.
Definition tgt (st : archive_item * path) : path := st.2.

Lemma selected_facts st : In st selected →
  In st.1 candidates ∧ place_of archive_dir f st.1 = Some (tgt st) ∧
  (∃ d, data_at f (src st) = Some d ∧ sha256 d = au_digest (ai_record st.1)) ∧
  data_at f (tgt st) = None ∧ p_parent (tgt st) = archive_dir ∧ p_parent (src st) = source_dir ∧
  tgt st ≠ manifest_path archive_dir.
Proof using Hsel Hsrc Hnd.
  intros Hin. rewrite List.Forall_forall in Hsel. pose proof (Hsel _ Hin) as H.
  destruct st as [c t]. destruct H as (Hc & Ht & d & Hd). simpl.
  destruct (place_spec _ _ _ _ Ht) as [Hn Hp]. split_and!; try done; [by exists d|by apply Hsrc|].
  intros ->. apply NoDup_cons in Hnd as [Hm _]. apply Hm. rewrite list_elem_of_In, in_map_iff.
  by exists c.
Qed.

Lemma targets_NoDup : NoDup (map (λ st : archive_item * path, Some st.2) selected).
Proof using Hsub Hnd. apply NoDup_cons in Hnd as [_ H]. by eapply sublist_NoDup. Qed.

(** The files of two pairs, and the manifest, are different. *)
Lemma pairs_differ st st' : In st selected → In st' selected → st ≠ st' →
  src st ≠ src st' ∧ tgt st ≠ tgt st'.
Proof using Hsel Hsub Hsrc Hnd.
  intros H H' Hd.
  assert (Ht : tgt st ≠ tgt st').
  { intros Heq. apply Hd. eapply (NoDup_map_eq (λ st : archive_item * path, Some st.2)); try done.
    - apply targets_NoDup.
    - by f_equal. }
  split; [|done]. intros Heq. apply Ht.
  destruct (selected_facts _ H) as (_ & Hp & _). destruct (selected_facts _ H') as (_ & Hp' & _).
  unfold place_of in *. unfold src in Heq. rewrite Heq in Hp. congruence.
Qed.
Lemma src_tgt st st' : In st selected → In st' selected → src st ≠ tgt st'.
Proof using Hsel Hsrc Hnd Hne.
  intros H H' Heq. destruct (selected_facts _ H) as (_ & _ & _ & _ & _ & Hs & _).
  destruct (selected_facts _ H') as (_ & _ & _ & _ & Ht & _ & _). congruence.
Qed.
Lemma src_manifest st : In st selected → src st ≠ manifest_path archive_dir.
Proof using Hsel Hsrc Hnd Hne.
  intros H Heq. destruct (selected_facts _ H) as (_ & _ & _ & _ & _ & Hs & _). apply Hne.
  rewrite <- Hs, Heq. symmetry. apply joined_parent.
Qed.

(** A pair before and after its move, and the state of all files. *)
Definition before (g : fs) (st : archive_item * path) : Prop :=
  data_at g (src st) = data_at f (src st) ∧ data_at g (tgt st) = None.
Definition after (g : fs) (st : archive_item * path) : Prop :=
  data_at g (tgt st) = data_at f (src st) ∧ data_at g (src st) = None.
Definition others_same (g : fs) : Prop :=
  ∀ p, (∀ st, In st selected → p ≠ src st ∧ p ≠ tgt st) → p ≠ manifest_path archive_dir →
    data_at g p = data_at f p ∨ left_over archive_dir f p.
Definition kept (g : fs) : Prop :=
  (∀ st, In st selected → before g st ∨ after g st) ∧ others_same g.

(** Only the two files of one pair changed. *)
Lemma kept_step st g h :
  In st selected → kept g → (∀ q, q ≠ src st → q ≠ tgt st → data_at h q = data_at g q) →
  before h st ∨ after h st →
  kept h ∧ ∀ st', In st' selected → st' ≠ st → (before g st' → before h st') ∧ (after g st' → after h st').
Proof using Hsel Hsub Hsrc Hnd Hne.
  intros Hin [Hg Ho] Hq Hst.
  assert (Hsame : ∀ st', In st' selected → st' ≠ st →
    data_at h (src st') = data_at g (src st') ∧ data_at h (tgt st') = data_at g (tgt st')).
  { intros st' Hin' Hd. destruct (pairs_differ _ _ Hin' Hin Hd) as [H1 H2].
    split; apply Hq; try done; [by apply src_tgt|intros Heq; by apply (src_tgt st st')]. }
  split.
  - split.
    + intros st' Hin'. destruct (decide (st' = st)) as [->|Hd]; [done|].
      destruct (Hsame _ Hin' Hd) as [H1 H2]. unfold before, after. rewrite H1, H2. by apply Hg.
    + intros p Hp Hm. destruct (Hp _ Hin) as [H1 H2]. rewrite (Hq p H1 H2). by apply Ho.
  - intros st' Hin' Hd. destruct (Hsame _ Hin' Hd) as [H1 H2]. unfold before, after. by rewrite H1, H2.
Qed.

(** Nothing of the pairs changed, and elsewhere at most a temporary file is new. *)
Lemma kept_temp g h : kept g →
  (∀ q, q ≠ manifest_path archive_dir → data_at h q = data_at g q ∨ left_over archive_dir g q) →
  (∀ st, In st selected → data_at g (tgt st) = None → data_at h (tgt st) = None) →
  kept h ∧ ∀ st, In st selected → (before g st → before h st) ∧ (after g st → after h st).
Proof using Hsel Hsrc Hnd Hne.
  intros [Hg Ho] Hq Hfree.
  assert (Hsrc' : ∀ st, In st selected → data_at h (src st) = data_at g (src st)).
  { intros st Hin. destruct (Hq (src st) (src_manifest st Hin)) as [?|[[x Ht] _]]; [done|].
    destruct (selected_facts _ Hin) as (_ & _ & _ & _ & _ & Hp & _). exfalso. apply Hne.
    rewrite <- Hp, Ht. symmetry. apply joined_parent. }
  assert (Htgt : ∀ st, In st selected → data_at h (tgt st) = data_at g (tgt st)).
  { intros st Hin. destruct (selected_facts _ Hin) as (_ & _ & _ & _ & _ & _ & Hm).
    destruct (Hq (tgt st) Hm) as [?|[_ Hn]]; [done|]. by rewrite Hn, Hfree. }
  split; [split|].
  - intros st Hin. unfold before, after. rewrite Hsrc', Htgt by done. by apply Hg.
  - intros p Hp Hm. destruct (Hq p Hm) as [->|[Ht Hn]]; [by apply Ho|].
    destruct (Ho p Hp Hm) as [Hf|?]; [|by right]. right. split; [done|congruence].
  - intros st Hin. unfold before, after. by rewrite Hsrc', Htgt.
Qed.

Lemma wp_move_back st E g k (Φ : res bool → world → Prop) :
  In st selected → kept g →
  (∀ failed h k, kept h → Φ (Ok failed) (World h k)) →
  wp (move_back (src st, tgt st)) E (World g k) Φ.
Proof using Hsel Hsub Hsrc Hnd Hne.
  intros Hin Hg Ho. unfold move_back.
  assert (Hexn : ∀ e k, os_exn e → match except [OSError] (λ _, ret true) e with
    | Some c => wp c E (World g k) Φ | None => Φ (Raise e) (World g k) end).
  { intros e k1 He. unfold except. simpl. rewrite He. simpl. by apply Ho. }
  apply wp_try, wp_bind, wp_exists; [intros k1|intros; by apply Hexn].
  destruct (opt_is _ (stat_node g (src st))) eqn:Hpresent.
  - apply wp_bind, wp_ret, wp_bind, wp_ret, wp_ret. by apply Ho.
  - assert (Hafter : after g st).
    { destruct Hg as [Hg _]. destruct (Hg st Hin) as [[Hb _]|?]; [|done].
      destruct (selected_facts _ Hin) as (_ & _ & (d & Hd & _) & _).
      rewrite Hd in Hb. destruct (stat_data _ _ _ Hb) as [m Hm]. by rewrite Hm in Hpresent. }
    apply wp_bind. unfold is_file_p. apply wp_bind, wp_sys; [intros k2|intros; by apply Hexn].
    apply wp_bind, wp_get_fs, wp_ret. destruct (opt_is is_reg _).
    + apply wp_bind, wp_replace_data; [intros Heq; by apply (src_tgt st st)| |intros; by apply Hexn].
      intros h k3 H1 H2 Hq. apply wp_ret, Ho. destruct Hafter as [Ha1 Ha2].
      refine (proj1 (kept_step st g h Hin Hg _ _)); [by auto|]. left. split; [congruence|done].
    + apply wp_bind, wp_ret, wp_ret. by apply Ho.
Qed.

Lemma wp_move_all_back l E g k (Φ : res bool → world → Prop) :
  (∀ st, In st l → In st selected) → kept g →
  (∀ failed h k, kept h → Φ (Ok failed) (World h k)) →
  wp (move_all_back (map (λ st, (src st, tgt st)) l)) E (World g k) Φ.
Proof using Hsel Hsub Hsrc Hnd Hne.
  revert g k Φ. induction l as [|st l IH]; intros g k Φ Hl Hg Ho; simpl; [by apply wp_ret, Ho|].
  apply wp_bind, wp_move_back; [by apply Hl; left|done|]. intros failed h k1 Hh.
  apply wp_bind, IH; [intros; apply Hl; by right|done|]. intros others h2 k2 Hh2. by apply wp_ret, Ho.
Qed.

Lemma wp_archive_failed l e E g k (Φ : res unit → world → Prop) :
  (∀ st, In st l → In st selected) → kept g →
  (∀ e h k, kept h → Φ (Raise e) (World h k)) →
  wp (archive_failed (map (λ st, (src st, tgt st)) l) e) E (World g k) Φ.
Proof using Hsel Hsub Hsrc Hnd Hne.
  intros Hl Hg Hr. unfold archive_failed. apply wp_bind, wp_move_all_back; [done|done|].
  intros failed h k1 Hh. destruct failed; [by apply wp_throw, Hr|].
  destruct (catches LocalCpaMaintenanceRejected (exn_cls e)); by apply wp_throw, Hr.
Qed.

(** A document that names every pair. *)
Definition names_all (l : list (archive_item * path)) (moved_at : string) (document : dict) : Prop :=
  ∀ st, In st l → In (archive_entry st.1 (tgt st) moved_at) (manifest_entries document).

Lemma kept_start : kept f ∧ ∀ st, In st selected → before f st.
Proof using Hsel Hsrc Hnd.
  assert (Hb : ∀ st, In st selected → before f st).
  { intros st Hin. split; [done|]. by destruct (selected_facts _ Hin) as (_ & _ & _ & ? & _). }
  split; [|done]. split; [intros st Hin; left; by apply Hb|]. intros p _ _. by left.
Qed.

(** The manifest, once every pair is moved. *)
Lemma wp_write_manifest done moved_at document E g k (Φ : res unit → world → Prop) :
  (∀ st, In st selected ↔ In st done) → kept g → (∀ st, In st done → after g st) →
  names_all done moved_at document →
  (∀ h k, kept h → (∀ st, In st selected → after h st) →
     data_at h (manifest_path archive_dir) = Some (json_file_text document) →
     names_all selected moved_at document → Φ (Ok tt) (World h k)) →
  (∀ e h k, kept h → Φ (Raise e) (World h k)) →
  wp (move_files archive_dir source_dir moved_at document [] (map (λ st, (src st, tgt st)) done))
    E (World g k) Φ.
Proof using Hsel Hsub Hsrc Hnd Hne.
  intros Hdone Hg Ha Hnames Ho Hr. simpl.
  assert (Hin : ∀ st, In st done → In st selected) by (intros st; apply Hdone).
  assert (Hparent : p_parent (manifest_path archive_dir) = archive_dir) by apply joined_parent.
  assert (Hfail : ∀ e h k, kept h → wp (archive_failed (map (λ st, (src st, tgt st)) done) e)
    E (World h k) Φ) by (intros e h k1 Hh; by apply wp_archive_failed).
  apply wp_try, wp_bind, wp_atomic_write; fold (manifest_path archive_dir).
  - intros h k2 Hm Hs. destruct (kept_temp g h Hg) as [Hh Hkeep].
    { intros q Hq. left. by apply Hs. }
    { intros st Hst Hn. rewrite (Hs (tgt st)); [done|].
      by destruct (selected_facts _ Hst) as (_ & _ & _ & _ & _ & _ & ?). }
    apply wp_bind, wp_fsync_directory; [intros k3|intros; by apply Hfail].
    apply wp_fsync_directory; [intros k4|intros; by apply Hfail].
    apply Ho; [done| |exact Hm|].
    + intros st Hst. apply Hkeep; [done|]. by apply Ha, Hdone.
    + intros st Hst. by apply Hnames, Hdone.
  - intros e h k2 He Hq. rewrite Hparent in Hq.
    destruct (kept_temp g h Hg) as [Hh _]; [by intros q _| |by apply Hfail].
    intros st Hst Hn. destruct (Hq (tgt st)) as [->|[_ _]]; [done|].
    destruct (Ha st) as [Ht _]; [by apply Hdone|].
    destruct (selected_facts _ Hst) as (_ & _ & (d & Hd & _) & _). congruence.
Qed.

(** One move: its pair is after it, the other pairs are as before. *)
Lemma wp_move_pair st E g k (Φ : res unit → world → Prop) :
  In st selected → kept g → before g st →
  (∀ h k, kept h → after h st →
     (∀ st', In st' selected → st' ≠ st → (before g st' → before h st') ∧ (after g st' → after h st')) →
     Φ (Ok tt) (World h k)) →
  (∀ e h k, kept h → Φ (Raise e) (World h k)) →
  wp (replace (src st) (tgt st) ;; chmod (tgt st) 384) E (World g k) Φ.
Proof using Hsel Hsub Hsrc Hnd Hne.
  intros Hin Hg [Hb1 Hb2] Ho Hr.
  apply wp_bind, wp_replace_data; [by apply src_tgt| |intros e k2 _; by apply Hr].
  intros h k2 H1 H2 Hq. destruct (kept_step st g h Hin Hg) as [Hh Hrest]; [done| |].
  { right. split; [congruence|done]. }
  apply wp_chmod; [|intros e k3 _; by apply Hr].
  intros h2 k3 Hs. pose proof (λ p, same_at _ _ p Hs) as Hat.
  destruct (kept_temp h h2 Hh) as [Hh2 Hrest2]; [intros q _; left; apply Hat|by intros; rewrite Hat|].
  apply Ho; [done|apply Hrest2; [done|split; [congruence|done]]|].
  intros st' Hin' Hd. destruct (Hrest st' Hin' Hd), (Hrest2 st' Hin'). auto.
Qed.

Lemma wp_move_files moved_at document E k (Φ : res unit → world → Prop) :
  (∀ g k document, kept g → (∀ st, In st selected → after g st) →
     data_at g (manifest_path archive_dir) = Some (json_file_text document) →
     names_all selected moved_at document → Φ (Ok tt) (World g k)) →
  (∀ e g k, kept g → Φ (Raise e) (World g k)) →
  wp (move_files archive_dir source_dir moved_at document selected []) E (World f k) Φ.
Proof using Hsel Hsub Hsrc Hnd Hne.
  intros Ho Hr. pose proof (NoDup_fmap_1 _ _ targets_NoDup) as Hdis.
  assert (Hgen : ∀ l done document g k, selected = rev done ++ l → kept g →
    (∀ st, In st l → before g st) → (∀ st, In st done → after g st) → names_all done moved_at document →
    wp (move_files archive_dir source_dir moved_at document l (map (λ st, (src st, tgt st)) done))
      E (World g k) Φ).
  { induction l as [|[c t] l IH]; intros done doc g k1 Heq Hg Hb Ha Hnames.
    - rewrite app_nil_r in Heq. apply wp_write_manifest; try done.
      + intros st. rewrite Heq, <- in_rev. done.
      + intros h k2 Hh Hafter Hm Hn. by eapply Ho.
    - assert (Hmem : ∀ st, In st done ∨ In st l ∨ st = (c, t) → In st selected).
      { intros st. rewrite Heq, in_app_iff, <- in_rev. simpl. naive_solver. }
      assert (Hfresh : ∀ st, In st l ∨ In st done → st ≠ (c, t)).
      { intros st Hst ->. rewrite Heq in Hdis. apply NoDup_app in Hdis as (_ & Hout & Hct).
        apply NoDup_cons in Hct as [Hct _]. rewrite list_elem_of_In in Hct.
        destruct Hst as [Hst|Hst]; [done|]. apply (Hout (c, t)); rewrite list_elem_of_In; [|by left].
        by apply in_rev in Hst. }
      simpl. apply wp_bind, wp_try, (wp_move_pair (c, t)); [naive_solver|done|apply Hb; by left| |].
      + intros h k2 Hh Hat Hrest. apply (IH ((c, t) :: done)); try done.
        * simpl. by rewrite <- app_assoc.
        * intros st Hst. apply Hrest; [naive_solver|by apply Hfresh; left|apply Hb; by right].
        * intros st [<-|Hst]; [done|]. apply Hrest; [naive_solver|by apply Hfresh; right|by apply Ha].
        * intros st [<-|Hst]; unfold manifest_entries; rewrite dget_dset; simpl; apply in_or_app;
            [right; by left|left; by apply Hnames].
      + intros e h k2 Hh. apply wp_archive_failed; [naive_solver|done|done]. }
  destruct kept_start as [Hk Hb]. apply (Hgen selected [] document f); try done. intros st [].
Qed.

End moves.

(** ** The whole archive *)

Definition is_receipt (l : list archive_item) (p : path) : Prop :=
  ∃ c, In c l ∧ ai_receipt c = Some p.

Lemma wp_drop_receipts l E f k (Φ : res unit → world → Prop) :
  (∀ g k, same_data (is_receipt (map fst l)) f g → Φ (Ok tt) (World g k)) →
  wp (miter drop_receipt l) E (World f k) Φ.
Proof.
  revert f k. induction l as [|[c t] l IH]; intros f k Ho; simpl; [by apply wp_ret, Ho, same_refl|].
  assert (Hnext : ∀ f1 k, same_data (is_receipt (map fst ((c, t) :: l))) f f1 →
    wp (miter drop_receipt l) E (World f1 k) Φ).
  { intros f1 k1 H1. apply IH. intros g k2 Hg. apply Ho. eapply same_trans; [done|].
    intros p Hp. apply Hg. intros (c' & Hin & Hc). apply Hp. exists c'. by split; [right|]. }
  apply wp_bind. unfold drop_receipt. simpl. destruct (ai_receipt c) as [p|] eqn:Hc.
  - apply wp_unlink_quiet; intros k1; apply Hnext; [apply same_refl|].
    intros q Hq. apply data_at_delete_ne. intros ->. apply Hq. exists c. by split; [left|].
  - apply wp_ret, Hnext, same_refl.
Qed.

(** How an archiving run from [f] ends in [g]. *)
Record archive_done (archive_dir : path) (candidates : list archive_item) (moved_at : string)
    (f : fs) (r : res Z) (g : fs) : Prop := {
  ad_kept : ∀ p d, data_at f p = Some d → p ≠ manifest_path archive_dir → ¬ is_receipt candidates p →
    data_at g p = Some d ∨
    ∃ c t, In c candidates ∧ p = source_of c ∧ place f archive_dir p = Some t ∧
           data_at g t = Some d ∧ sha256 d = au_digest (ai_record c);
  ad_ok : ∀ n, r = Ok n → candidates = [] ∨ ∃ selected document,
    NoDup selected ∧ n = Z.of_nat (length selected) ∧
    data_at g (manifest_path archive_dir) = Some (json_file_text document) ∧
    ∀ st, In st selected → In st.1 candidates ∧ place f archive_dir (source_of st.1) = Some st.2 ∧
      data_at f (source_of st.1) ≠ None ∧ data_at g st.2 = data_at f (source_of st.1) ∧
      In (archive_entry st.1 st.2 moved_at) (manifest_entries document) }.

Lemma archive_done_raise archive_dir candidates moved_at f e :
  archive_done archive_dir candidates moved_at f (Raise e) f.
Proof. split; [|done]. intros p d Hd _ _. by left. Qed.

Section archive_end.
Context (archive_dir source_dir : path) (f : fs) (candidates : list archive_item) (moved_at : string).
Context (Hsrc : ∀ c, In c candidates → p_parent (source_of c) = source_dir).
Context (Hne : archive_dir ≠ source_dir).
Context (Hreceipts : ∀ p, is_receipt candidates p → p_parent p ≠ archive_dir).
Context (Hnd : NoDup (Some (manifest_path archive_dir) :: map (place_of archive_dir f) candidates)).

Lemma kept_done selected g r :
  Forall (selected_ok archive_dir f candidates) selected →
  kept archive_dir f selected g →
  (∀ n, r = Ok n → False) →
  archive_done archive_dir candidates moved_at f r g.
Proof using.
  intros Hsel [Hg Ho] Hr. split; [|intros n Hn; by destruct (Hr n)].
  intros p d Hd Hm _. rewrite List.Forall_forall in Hsel.
  destruct (decide (Exists (λ st, p = src st) selected)) as [He|He].
  - apply List.Exists_exists in He as (st & Hin & ->).
    destruct (Hg st Hin) as [[Hb _]|[Ha _]]; [left; by rewrite Hb|right].
    pose proof (Hsel _ Hin) as Hst. destruct st as [c t]. destruct Hst as (Hc & Ht & d' & Hd' & Hdig).
    exists c, t. unfold src in *. simpl in *. split_and!; try done; [by rewrite <- Hd|congruence].
  - left. destruct (decide (Exists (λ st, p = tgt st) selected)) as [Ht|Ht].
    + apply List.Exists_exists in Ht as (st & Hin & ->). pose proof (Hsel _ Hin) as Hst.
      destruct st as [c t]. destruct Hst as (_ & Ht & _). apply place_spec in Ht as [Ht _].
      unfold tgt in Hd. simpl in Hd. congruence.
    + assert (Hp : ∀ st, In st selected → p ≠ src st ∧ p ≠ tgt st).
      { intros st Hin. split; intros ->; [apply He|apply Ht]; apply List.Exists_exists; eauto. }
      destruct (Ho p Hp Hm) as [->|[_ Hn]]; [done|congruence].
Qed.

Lemma wp_archive_locked E k :
  wp (archive_locked archive_dir source_dir candidates moved_at) E (World f k)
    (λ r w', archive_done archive_dir candidates moved_at f r (w_fs w')).
Proof using Hsrc Hne Hreceipts Hnd.
  assert (Hearly : ∀ e, archive_done archive_dir candidates moved_at f (Raise e) f)
    by (intros; apply archive_done_raise).
  unfold archive_locked. apply wp_bind, wp_pure; [fs_pure_tac|]. intros [d1|e] k1; [|apply Hearly].
  apply wp_bind, wp_pure; [fs_pure_tac|]. intros [d2|e] k2; [|apply Hearly].
  destruct (negb _); [apply Hearly|].
  apply wp_bind, wp_pure.
  { unfold archive_manifest, safe_regular_file, rejected_local, mraise. fs_pure_tac. }
  intros [document|e] k3; [|apply Hearly].
  apply wp_bind, wp_selected; [|intros; apply Hearly]. intros selected k4 Hsel Hsub.
  apply wp_bind, (wp_move_files archive_dir source_dir f candidates selected Hsel Hsub Hsrc Hne Hnd).
  2:{ intros e g k5 Hg. by eapply kept_done. }
  intros g k5 doc Hg Ha Hm Hnames. apply wp_bind, wp_drop_receipts. intros h k6 Hh.
  assert (Hreceipt : ∀ p, p_parent p = archive_dir → ¬ is_receipt (map fst selected) p).
  { intros p Hp (c & Hin & Hc). apply in_map_iff in Hin as (st & <- & Hin).
    rewrite List.Forall_forall in Hsel. pose proof (Hsel _ Hin) as Hst. destruct st as [c t].
    destruct Hst as [Hc' _]. apply (Hreceipts p); [by exists c|done]. }
  assert (Hat : ∀ p, p_parent p = archive_dir → data_at h p = data_at g p).
  { intros p Hp. by apply Hh, Hreceipt. }
  assert (Hfacts := selected_facts archive_dir source_dir f candidates selected Hsel Hsrc Hnd).
  apply wp_ret. split.
  - intros p d Hd Hman Hrec.
    assert (Hkeep : archive_done archive_dir candidates moved_at f (Raise (Exn OSError "" "")) g)
      by (by eapply kept_done).
    destruct (ad_kept _ _ _ _ _ _ Hkeep p d Hd Hman Hrec) as [Hg'|(c & t & Hc & -> & Ht & Hdt & Hs)].
    + left. rewrite Hh; [done|]. intros (c & Hin & Hc). apply Hrec. apply in_map_iff in Hin as (st & <- & Hin).
      exists st.1. split; [by apply Hfacts|done].
    + right. exists c, t. split_and!; try done. rewrite Hat; [done|]. by eapply place_spec.
  - intros n [= <-]. right. exists selected, doc. split_and!; [|done| |].
    + by eapply NoDup_fmap_1, targets_NoDup.
    + rewrite Hat; [done|apply joined_parent].
    + intros st Hin. destruct (Hfacts st Hin) as (Hc & Hp & (d & Hd & _) & _ & Hpar & _).
      destruct (Ha st Hin) as [Hat' _]. unfold src, tgt in *. split_and!; try done; [congruence| |by apply Hnames].
      by rewrite Hat.
Qed.
End archive_end.

(** ** The contract *)

Lemma wp_archive_items archive_dir source_dir candidates moved_at E f k
    (Hsrc : ∀ c, In c candidates → p_parent (source_of c) = source_dir)
    (Hne : archive_dir ≠ source_dir)
    (Hreceipts : ∀ p, is_receipt candidates p → p_parent p ≠ archive_dir) :
  wp (archive_items archive_dir candidates moved_at) E (World f k) (λ r w', ∃ f1,
    keeps none f f1 ∧ same_data (only (child archive_dir ARCHIVE_LOCK)) f f1 ∧
    (NoDup (Some (manifest_path archive_dir) :: map (place_of archive_dir f1) candidates) →
     archive_done archive_dir candidates moved_at f1 r (w_fs w'))).
Proof.
  assert (Hstop : ∀ g e, keeps none f g → same_data (only (child archive_dir ARCHIVE_LOCK)) f g →
    ∃ f1, keeps none f f1 ∧ same_data (only (child archive_dir ARCHIVE_LOCK)) f f1 ∧
    (NoDup (Some (manifest_path archive_dir) :: map (place_of archive_dir f1) candidates) →
     archive_done archive_dir candidates moved_at f1 (Raise e) g)).
  { intros g e Hk Hs. exists g. split_and!; [done|done|]. intros _. apply archive_done_raise. }
  assert (Hsame : ∀ g e, same_data none f g → ∃ f1, keeps none f f1 ∧
    same_data (only (child archive_dir ARCHIVE_LOCK)) f f1 ∧
    (NoDup (Some (manifest_path archive_dir) :: map (place_of archive_dir f1) candidates) →
     archive_done archive_dir candidates moved_at f1 (Raise e) g)).
  { intros g e Hg. apply Hstop; [by apply same_keeps|by apply same_none]. }
  unfold archive_items. destruct candidates as [|c l] eqn:Hc.
  { apply wp_ret. exists f. split_and!; [apply keeps_refl|apply same_refl|]. intros _.
    split; [intros p d Hd _ _; by left|]. intros n _. by left. }
  assert (Hdir : p_parent (au_path (ai_record c)) = source_dir) by (apply Hsrc; by left).
  rewrite Hdir. rewrite <- Hc in *.
  apply wp_bind, wp_ensure_private; [|intros e g k1 _ Hg; by apply Hsame].
  intros g1 k1 H1. apply wp_bind, wp_chmod; [|intros e k2 _; by apply Hsame].
  intros g2 k2 H2. assert (H12 : same_data none f g2) by (by eapply same_trans).
  apply wp_bind, wp_open_append; [|intros e k3; by apply Hsame].
  intros g3 k3 Hk3 Hs3.
  assert (Hk : keeps none f g3) by (eapply keeps_trans; [by apply same_keeps|done]).
  assert (Hs : same_data (only (child archive_dir ARCHIVE_LOCK)) f g3)
    by (eapply same_trans; [by apply same_none|done]).
  apply wp_bind, wp_chmod; [|intros e k4 _; by apply Hstop].
  intros g4 k4 H4. assert (Hk4 : keeps none f g4) by (eapply keeps_trans; [done|by apply same_keeps]).
  assert (Hs4 : same_data (only (child archive_dir ARCHIVE_LOCK)) f g4)
    by (eapply same_trans; [done|by apply same_none]).
  apply wp_bind, wp_sys; [intros k5|intros e k5 _; by apply Hstop].
  destruct (decide (NoDup (Some (manifest_path archive_dir) :: map (place_of archive_dir g4) candidates)))
    as [Hnd|Hnd].
  - eapply wp_mono; [by apply wp_archive_locked|]. intros r w' Hdone. by exists g4.
  - unfold wp. exists g4. split_and!; [done|done|]. intros H. by destruct (Hnd H).
Qed.

(** C5: archiving never loses a file, whatever calls fail, when the places that the
    candidates would get under the lock are different (and none is the manifest): every
    file but the manifest and the receipts of the candidates keeps its bytes where it is,
    or is a candidate whose digest they have and which lies, whole, at its place in the
    archive; and when the run succeeds, it says how many candidates were archived, each
    of them is at its place, and the manifest records it. *)
Theorem local_archive_keeps archive_dir source_dir candidates moved_at E w r w'
    (Hsrc : ∀ c, In c candidates → p_parent (source_of c) = source_dir)
    (Hne : archive_dir ≠ source_dir)
    (Hreceipts : ∀ p, is_receipt candidates p → p_parent p ≠ archive_dir)
    (Hrun : archive_items archive_dir candidates moved_at E w = (r, w')) :
  ∃ f1, keeps none (w_fs w) f1 ∧ same_data (only (child archive_dir ARCHIVE_LOCK)) (w_fs w) f1 ∧
    (NoDup (Some (manifest_path archive_dir) :: map (place_of archive_dir f1) candidates) →
     archive_done archive_dir candidates moved_at f1 r (w_fs w')).
Proof.
  destruct w as [f k].
  pose proof (wp_archive_items archive_dir source_dir candidates moved_at E f k Hsrc Hne Hreceipts) as H.
  unfold wp in H. by rewrite Hrun in H.
Qed.

(** Two credentials of text [x] and [y] to be archived, and the files [names] in the
    archive; the calls [l] fail. *)
Definition archive_world (active archived : list (string * string)) : fs :=
  list_to_map ([(path_of "/auth", Dir 448); (path_of "/old", Dir 448)] ++
    map (λ nd, (path_join (path_of "/auth") nd.1, File nd.2 384)) active ++
    map (λ nd, (path_join (path_of "/old") nd.1, File nd.2 384)) archived).
Definition archive_item_of (nd : string * string) : archive_item :=
  ArchiveItem (AuthRecord (path_join (path_of "/auth") nd.1) (sha256 nd.2) "invalid-auth-json")
    "invalid-auth-json" None.
Definition archive_env (l : list nat) : env :=
  Env (λ k, existsb (Nat.eqb k) l) (λ k, pretty k) (λ _, 0) (λ _ _, FNan) (λ _ _, false) (λ _, 0).
Definition archive_run (active archived : list (string * string)) (l : list nat) : res Z * world :=
  archive_items (path_of "/old") (map archive_item_of active) "now" (archive_env l)
    (World (archive_world active archived) 0).
Definition two_files : list (string * string) := [("a.json", "x"); ("b.json", "y")]%string.

Lemma local_archive_keeps_witness :
  ∃ w', archive_run two_files [] [] = (Ok 2, w') ∧
    ∃ f1, keeps none (archive_world two_files []) f1 ∧
      same_data (only (child (path_of "/old") ARCHIVE_LOCK)) (archive_world two_files []) f1 ∧
      (NoDup (Some (manifest_path (path_of "/old")) ::
              map (place_of (path_of "/old") f1) (map archive_item_of two_files)) →
       archive_done (path_of "/old") (map archive_item_of two_files) "now" f1 (Ok 2) (w_fs w')).
Proof.
  destruct (archive_run two_files [] []) as [r w'] eqn:H. exists w'.
  assert (Hr : r = Ok 2).
  { assert (Hx : (archive_run two_files [] []).1 = Ok 2) by (by vm_compute). by rewrite H in Hx. }
  subst r. split; [reflexivity|].
  apply (local_archive_keeps (path_of "/old") (path_of "/auth") (map archive_item_of two_files) "now"
    (archive_env []) (World (archive_world two_files []) 0) (Ok 2) w').
  - intros c [<-|[<-|[]]]; reflexivity.
  - discriminate.
  - intros p (c & [<-|[<-|[]]] & Hp); discriminate Hp.
  - exact H.
Defined.

(** What the archive can lose.  The places are chosen before the files are moved: a
    credential whose name is that of another with a number gets the place of that other,
    which overwrites it; both are counted and recorded, and the bytes of the first are
    nowhere.  And a move whose mode cannot be set is not undone: the run says that the
    credentials were restored, and the file lies in the archive, without a record. *)
Theorem local_archive_loses :
  (match archive_run [("a.2.json", "first"); ("a.json", "second")] [("a.json", "older")] [] with
   | (r, w') => r = Ok 2 ∧
       data_at (w_fs w') (path_of "/auth/a.2.json") = None ∧
       data_at (w_fs w') (path_of "/old/a.2.json") = Some "second"%string ∧
       forallb (λ pn : path * node, negb (bool_decide (data_at (w_fs w') pn.1 = Some "first"%string)))
         (map_to_list (w_fs w')) = true
   end) ∧
  match archive_run [("a.json", "x")] [] [16]%nat with
  | (Raise e, w') =>
      exn_msg e = "local CPA archive transaction failed; credentials were restored" ∧
      data_at (w_fs w') (path_of "/auth/a.json") = None ∧
      data_at (w_fs w') (path_of "/old/a.json") = Some "x"%string ∧
      data_at (w_fs w') (path_of "/old/manifest.json") = None
  | _ => False
  end.
Proof. vm_compute. by repeat split. Qed.
