(* ===== verification/PyJsonHook.v ===== *)
(** * Python's [json.loads] with an [object_pairs_hook]

    The scanner of [PyJson] with a hook that is given the pairs of every object as soon as
    its closing brace is read, innermost first, and that can raise.  A hook that builds the
    dictionary the plain scanner builds, when it does not raise, changes no result. *)

From S2P Require Import Prelude PyStr PyFloat PyValue PyJson.

Definition pairs : Type := list (string * json).

Definition syntax_error {A} : res A := raise JSONDecodeError "Expecting value".
(** A part of the scanner without objects, as a part that may raise. *)
Definition scanned {A} (o : option A) : res A :=
  match o with Some a => Ok a | None => syntax_error end.

Section hook.
Context (hook : pairs → res json).

Definition scan_scalar (s : string) : res (json * string) :=
  if String.prefix "null" s then Ok (JNull, str_drop 4 s)
  else if String.prefix "true" s then Ok (JBool true, str_drop 4 s)
  else if String.prefix "false" s then Ok (JBool false, str_drop 5 s)
  else match scan_number s with
  | Some r => Ok r
  | None =>
      if String.prefix "NaN" s then Ok (JFloat FNan, str_drop 3 s)
      else if String.prefix "Infinity" s then Ok (JFloat (FInf false), str_drop 8 s)
      else if String.prefix "-Infinity" s then Ok (JFloat (FInf true), str_drop 9 s)
      else syntax_error
  end.

Fixpoint hscan (fuel : nat) (s : string) : res (json * string) :=
  match fuel with
  | O => syntax_error
  | S fuel =>
      match s with
      | EmptyString => syntax_error
      | String c s' =>
          match ord c with
          | 34%nat => let* (r, k) := scanned (scan_string (S (String.length s')) s') in Ok (JStr r, k)
          | 123%nat =>
              match skip_ws s' with
              | String d k as s1 =>
                  if Ascii.eqb d "}" then let* v := hook [] in Ok (v, k)
                  else let* (ps, k) := hscan_members fuel s1 in let* v := hook ps in Ok (v, k)
              | EmptyString => syntax_error
              end
          | 91%nat =>
              match skip_ws s' with
              | String d k as s1 =>
                  if Ascii.eqb d "]" then Ok (JList [], k)
                  else let* (vs, k) := hscan_items fuel s1 in Ok (JList vs, k)
              | EmptyString => syntax_error
              end
          | _ => scan_scalar s
          end
      end
  end
with hscan_members (fuel : nat) (s : string) : res (pairs * string) :=
  match fuel with
  | O => syntax_error
  | S fuel =>
      match s with
      | EmptyString => syntax_error
      | String q s =>
          if negb (Nat.eqb (ord q) 34) then syntax_error else
          let* (key, s) := scanned (scan_string (S (String.length s)) s) in
          match skip_ws s with
          | String c s =>
              if negb (Ascii.eqb c ":") then syntax_error else
              let* (v, s) := hscan fuel (skip_ws s) in
              match skip_ws s with
              | String c s =>
                  if Ascii.eqb c "}" then Ok ([(key, v)], s)
                  else if Ascii.eqb c "," then
                    let* (ps, k) := hscan_members fuel (skip_ws s) in Ok ((key, v) :: ps, k)
                  else syntax_error
              | EmptyString => syntax_error
              end
          | EmptyString => syntax_error
          end
      end
  end
with hscan_items (fuel : nat) (s : string) : res (list json * string) :=
  match fuel with
  | O => syntax_error
  | S fuel =>
      let* (v, s) := hscan fuel s in
      match skip_ws s with
      | String c s =>
          if Ascii.eqb c "]" then Ok ([v], s)
          else if Ascii.eqb c "," then
            let* (vs, k) := hscan_items fuel (skip_ws s) in Ok (v :: vs, k)
          else syntax_error
      | EmptyString => syntax_error
      end
  end.

Definition loads_hook (s : string) : res json :=
  if starts_with BOM s then raise JSONDecodeError "Unexpected UTF-8 BOM (decode using utf-8-sig)"
  else
    let* (v, k) := hscan (scan_fuel (skip_ws s)) (skip_ws s) in
    if skip_ws k =s? "" then Ok v else syntax_error.

(** ** With a hook that builds the dictionary *)

Hypothesis builds : ∀ ps v, hook ps = Ok v → v = JDict (dict_of_pairs ps).

Lemma dispatch_eq {A} (n : nat) (a b c d : A) :
  match n with 34%nat => a | 123%nat => b | 91%nat => c | _ => d end =
  if Nat.eqb n 34 then a else if Nat.eqb n 123 then b else if Nat.eqb n 91 then c else d.
Proof using. do 124 (destruct n as [|n]; [reflexivity|]). reflexivity. Qed.

Definition kept {A} (r : res A) : option A := match r with Ok a => Some a | Raise _ => None end.

Lemma scan_as fuel c s :
  scan (S fuel) (String c s) =
    if Nat.eqb (ord c) 34 then let? (r, k) := scan_string (S (String.length s)) s in Some (JStr r, k)
    else if Nat.eqb (ord c) 123 then
      match skip_ws s with
      | String d k as s1 =>
          if Ascii.eqb d "}" then Some (JDict [], k)
          else let? (ps, k) := scan_members fuel s1 in Some (JDict (dict_of_pairs ps), k)
      | EmptyString => None
      end
    else if Nat.eqb (ord c) 91 then
      match skip_ws s with
      | String d k as s1 =>
          if Ascii.eqb d "]" then Some (JList [], k)
          else let? (vs, k) := scan_items fuel s1 in Some (JList vs, k)
      | EmptyString => None
      end
    else kept (scan_scalar (String c s)).
Proof using.
  cbn [scan]. rewrite dispatch_eq.
  destruct (Nat.eqb (ord c) 34), (Nat.eqb (ord c) 123), (Nat.eqb (ord c) 91); try reflexivity.
  unfold scan_scalar.
  repeat first [reflexivity | match goal with |- context [if ?b then _ else _] => destruct b end
                | destruct (scan_number (String c s))].
Qed.

Lemma hscan_as fuel c s :
  hscan (S fuel) (String c s) =
    if Nat.eqb (ord c) 34
    then let* (r, k) := scanned (scan_string (S (String.length s)) s) in Ok (JStr r, k)
    else if Nat.eqb (ord c) 123 then
      match skip_ws s with
      | String d k as s1 =>
          if Ascii.eqb d "}" then let* v := hook [] in Ok (v, k)
          else let* (ps, k) := hscan_members fuel s1 in let* v := hook ps in Ok (v, k)
      | EmptyString => syntax_error
      end
    else if Nat.eqb (ord c) 91 then
      match skip_ws s with
      | String d k as s1 =>
          if Ascii.eqb d "]" then Ok (JList [], k)
          else let* (vs, k) := hscan_items fuel s1 in Ok (JList vs, k)
      | EmptyString => syntax_error
      end
    else scan_scalar (String c s).
Proof using. cbn [hscan]. by rewrite dispatch_eq. Qed.

Lemma scanned_Ok {A} (o : option A) a : scanned o = Ok a → o = Some a.
Proof using. destruct o; [by intros [= ->]|done]. Qed.

(** What the scanner with the hook reads, the plain scanner reads. *)
Lemma hscan_plain fuel :
  (∀ s r, hscan fuel s = Ok r → scan fuel s = Some r) ∧
  (∀ s r, hscan_members fuel s = Ok r → scan_members fuel s = Some r) ∧
  (∀ s r, hscan_items fuel s = Ok r → scan_items fuel s = Some r).
Proof using builds.
  induction fuel as [|fuel (IHv & IHm & IHi)]; [done|]. split_and!.
  - intros [|c s] r; [done|]. rewrite hscan_as, scan_as. intros H.
    destruct (Nat.eqb (ord c) 34).
    { destruct (scanned _) as [[x k]|] eqn:E; [|done]. apply scanned_Ok in E as ->. by injection H as <-. }
    destruct (Nat.eqb (ord c) 123).
    { destruct (skip_ws s) as [|d k]; [done|]. destruct (Ascii.eqb d "}").
      - destruct (hook []) as [v|] eqn:Ev; [|done]. apply builds in Ev as ->. by injection H as <-.
      - destruct (hscan_members _ _) as [[ps k']|] eqn:Em; [|done]. rewrite (IHm _ _ Em).
        destruct (hook ps) as [v|] eqn:Ev; [|done]. apply builds in Ev as ->. by injection H as <-. }
    destruct (Nat.eqb (ord c) 91).
    { destruct (skip_ws s) as [|d k]; [done|]. destruct (Ascii.eqb d "]"); [by injection H as <-|].
      destruct (hscan_items _ _) as [[vs k']|] eqn:Em; [|done]. rewrite (IHi _ _ Em). by injection H as <-. }
    by rewrite H.
  - intros [|q s] r; [done|]. cbn [hscan_members scan_members]. intros H.
    destruct (negb _); [done|].
    destruct (scanned _) as [[key s1]|] eqn:E; [|done]. apply scanned_Ok in E as ->.
    destruct (skip_ws s1) as [|c s2]; [done|]. destruct (negb _); [done|].
    destruct (hscan fuel _) as [[v s3]|] eqn:Ev; [|done]. rewrite (IHv _ _ Ev).
    destruct (skip_ws s3) as [|c' s4]; [done|].
    destruct (Ascii.eqb c' "}"); [by injection H as <-|]. destruct (Ascii.eqb c' ","); [|done].
    destruct (hscan_members fuel _) as [[ps k]|] eqn:Em; [|done]. rewrite (IHm _ _ Em). by injection H as <-.
  - intros s r. cbn [hscan_items scan_items]. intros H.
    destruct (hscan fuel _) as [[v s3]|] eqn:Ev; [|done]. rewrite (IHv _ _ Ev).
    destruct (skip_ws s3) as [|c' s4]; [done|].
    destruct (Ascii.eqb c' "]"); [by injection H as <-|]. destruct (Ascii.eqb c' ","); [|done].
    destruct (hscan_items fuel _) as [[ps k]|] eqn:Em; [|done]. rewrite (IHi _ _ Em). by injection H as <-.
Qed.

Lemma loads_hook_plain s v : loads_hook s = Ok v → loads s = Ok v.
Proof using builds.
  unfold loads_hook, loads, loads_opt, raw_decode. destruct (starts_with _ _); [done|].
  destruct (hscan _ _) as [[w k]|] eqn:E; [|done]. apply (proj1 (hscan_plain _)) in E as ->.
  destruct (_ =s? _); [|done]. by intros [= ->].
Qed.
End hook.
