(* ===== verification/LegacyBridge.v ===== *)
(** * The legacy health bridge ([cloud/cloudx_cloud/legacy_health_bridge.py])

    The health document of [Health] is read strictly, turned into the document of an older
    consumer, signed with its own digest, validated again and published. *)

From S2P Require Import Prelude PyStr PyRe PyFloat PyValue PyTime PyJson PySha FS.
From S2P Require Import PublicMetadata CpaSweep.

Definition MAX_HEALTH_BYTES : Z := 64 * 1024.
Definition FORMAL_SCHEMA : string := "cloudx.health.v1".
Definition LEGACY_CONTRACT : string := "cloudx.health".
Definition LEGACY_SCHEMA_VERSION : Z := 1.
Definition GATEWAY_STATES : list (string * string) :=
  [("healthy", "ready"); ("degraded", "degraded"); ("unavailable", "offline"); ("unknown", "unknown")].
Definition IMPORT_STATES : list (string * string) :=
  [("ready", "unknown"); ("busy", "degraded"); ("degraded", "degraded"); ("unavailable", "offline");
   ("unknown", "unknown")].
Definition PROCESS_STATES : list string :=
  ["active"; "activating"; "deactivating"; "failed"; "inactive"; "unknown"].
Definition SERVICE_STATES : list string := ["ready"; "degraded"; "offline"; "unknown"].
Definition CAPACITY_STATES : list string := ["ready"; "degraded"; "unavailable"; "unknown"].

Definition legacy_error {A} (msg : string) : res A := raise LegacyHealthRejected msg.
(** [if not ok: raise]. *)
Definition require (ok : bool) (msg : string) : res unit := if ok then Ok tt else legacy_error msg.

(** [REVISION_RE] and [VERSION_RE], as full matches. *)
Definition revision_ok (s : string) : bool :=
  Nat.leb 7 (String.length s) && Nat.leb (String.length s) 64 &&
  str_forall (λ c, is_digit c || in_range 97 102 c) s.
Definition version_char (c : ascii) : bool := is_alnum c || one_of ".+_-" c.
Definition version_ok (s : string) : bool :=
  match s with
  | String c r => is_alnum c && str_forall version_char r && Nat.leb (String.length s) 64
  | EmptyString => false
  end.

(** ** Fields *)

Definition exact (value : json) (keys : list string) (label : string) : res dict :=
  match value with
  | JDict d => if keys_are d keys then Ok d else legacy_error (label +:+ " has missing or unknown fields")
  | _ => legacy_error (label +:+ " has missing or unknown fields")
  end.

Definition legacy_count (value : json) (label : string) : res Z :=
  match nonneg_int value with
  | Some z => Ok z
  | None => legacy_error (label +:+ " must be a non-negative integer")
  end.

(** The conversion to UTC raises near the ends of the calendar. *)
Definition legacy_timestamp (value : json) (label : string) : res datetime :=
  match value with
  | JStr s =>
      if (strip s =s? "") || Nat.ltb 64 (ulen s)
      then legacy_error (label +:+ " must be a bounded timestamp")
      else match fromisoformat (z_suffix (strip s)) with
           | None => legacy_error (label +:+ " must be an ISO-8601 timestamp")
           | Some parsed =>
               match dt_off parsed with
               | None => legacy_error (label +:+ " must include a timezone")
               | Some _ => match astimezone_utc parsed with
                           | Some t => Ok t
                           | None => raise OverflowError "date value out of range"
                           end
               end
           end
  | _ => legacy_error (label +:+ " must be a bounded timestamp")
  end.
Definition optional_timestamp (value : json) (label : string) : res unit :=
  match value with
  | JNull => Ok tt
  | _ => let* _ := legacy_timestamp value label in Ok tt
  end.

Definition legacy_text (value : json) (label : string) (maximum : nat) : res string :=
  match value with
  | JStr s => if (strip s =s? "") || Nat.ltb maximum (ulen s)
              then legacy_error (label +:+ " must be bounded text") else Ok (strip s)
  | _ => legacy_error (label +:+ " must be bounded text")
  end.

(** [value not in states]: a list or a dict cannot be looked up. *)
Definition one_state (value : json) (states : list string) (msg : string) : res unit :=
  let* known := in_set value states in require known msg.

Definition canonical (document : dict) : string := dumps (st_compact true true) (JDict document).
Definition unsigned (document : dict) : dict := List.filter (λ kv, kv.1 <>s? "digest") document.
Definition digest (document : dict) : string := "sha256:" +:+ sha256 (canonical (unsigned document)).

(** ** The formal document *)

Definition read_formal_health (p : path) (limit : Z) : M string :=
  let unavailable := "formal health input is unavailable"%string in
  let! metadata := try_with (lstat p)
    (except [OSError] (λ _, lift (legacy_error unavailable))) in
  let! link := is_symlink_p p in
  if link || negb (is_reg metadata)
  then lift (legacy_error "formal health input must be a regular file") else
  if limit <? node_size metadata
  then lift (legacy_error "formal health input exceeds the size limit") else
  let! raw := try_with
    (let! n := open_nofollow p in
     let! opened := fstat n in
     if negb (is_reg opened) || (limit <? node_size opened)
     then lift (legacy_error "formal health input changed during validation")
     else let! data := read_node n in ret (str_take_z (limit + 1) data))
    (except [OSError] (λ _, lift (legacy_error unavailable))) in
  if limit <? str_len raw then lift (legacy_error "formal health input exceeds the size limit")
  else ret raw.

Definition COUNT_NAMES : list string := ["total"; "available"; "limited"; "unavailable"].
Definition count_of (counts : dict) (name : string) : Z :=
  match dget name counts with JInt z => z | _ => 0 end.

Definition formal_counts (value : json) : res dict :=
  let* counts := exact value COUNT_NAMES "formal health accountCounts" in
  let* _ := map_res (λ name, legacy_count (dget name counts) ("formal health accountCounts." +:+ name))
              COUNT_NAMES in
  let* _ := require (count_of counts "available" + count_of counts "limited" +
                     count_of counts "unavailable" <=? count_of counts "total")
              "formal health account counts do not add up" in
  Ok counts.

Definition formal_freshness (value : json) : res unit :=
  let* freshness := exact value ["state"; "ageSeconds"] "formal health freshness" in
  let* _ := one_state (dget "state" freshness) ["fresh"; "stale"; "unknown"]
              "formal health freshness state is invalid" in
  let* _ := legacy_count (dget "ageSeconds" freshness) "formal health freshness.ageSeconds" in
  Ok tt.

Definition formal_document (document : json) : res dict :=
  let* root := exact document
    ["schema"; "cloudxVersion"; "protocolVersion"; "gatewayStatus"; "importStatus"; "accountCounts";
     "checkedAt"; "freshness"] "formal health" in
  let* _ := require (eq_str (dget "schema" root) FORMAL_SCHEMA) "formal health schema is unsupported" in
  let* protocol := legacy_count (dget "protocolVersion" root) "formal health protocolVersion" in
  let* _ := require (protocol =? 1) "formal health protocol is unsupported" in
  let* version := legacy_text (dget "cloudxVersion" root) "formal health cloudxVersion" 64 in
  let* _ := require (version_ok version) "formal health cloudxVersion is invalid" in
  let* _ := one_state (dget "gatewayStatus" root) (map fst GATEWAY_STATES)
              "formal health gatewayStatus is invalid" in
  let* _ := one_state (dget "importStatus" root) (map fst IMPORT_STATES)
              "formal health importStatus is invalid" in
  let* _ := legacy_timestamp (dget "checkedAt" root) "formal health checkedAt" in
  let* _ := formal_counts (dget "accountCounts" root) in
  let* _ := formal_freshness (dget "freshness" root) in
  Ok root.

Definition parse_formal_health (raw : string) : res dict :=
  match loads_bytes raw with
  | Ok document => formal_document document
  | Raise e =>
      if catches UnicodeDecodeError (exn_cls e) || catches JSONDecodeError (exn_cls e)
      then legacy_error "formal health input is invalid JSON" else Raise e
  end.

(** ** The legacy document *)

Definition legacy_capacity (total ready blocked : Z) : string :=
  if (0 <? total) && (ready =? total) then "ready"
  else if 0 <? ready then "degraded"
  else if 0 <? blocked then "unavailable" else "unknown".

Definition revision_of (value : string) : string :=
  let candidate := str_lower (strip value) in
  if revision_ok candidate then candidate else "unknown".

Definition state_of (states : list (string * string)) (value : json) : string :=
  match List.find (λ kv, eq_str value kv.1) states with Some (_, s) => s | None => "" end.

(** [checked_at - timedelta(seconds=age)]. *)
Definition observed_at (checked_at : datetime) (freshness : dict) : res json :=
  if eq_str (dget "state" freshness) "unknown" then Ok JNull
  else
    let w := dt_wall checked_at - count_of freshness "ageSeconds" * US in
    if valid_wall w then Ok (JStr (isoformat (DT w (dt_off checked_at))))
    else legacy_error "formal health freshness age is out of range".

Definition legacy_document (source : dict) (checked_at : datetime) (observed : json) (revision : string)
    : dict :=
  let counts := dict_or_empty (dget "accountCounts" source) in
  let total := count_of counts "total" in
  let ready := count_of counts "available" in
  let limited := count_of counts "limited" in
  let unavailable := count_of counts "unavailable" in
  let blocked := limited + unavailable in
  let checked := JStr (isoformat checked_at) in
  let gateway_state := JStr (state_of GATEWAY_STATES (dget "gatewayStatus" source)) in
  [("contract", JStr LEGACY_CONTRACT); ("schemaVersion", JInt LEGACY_SCHEMA_VERSION);
   ("generatedAt", checked);
   ("producer", JDict [("name", JStr "cloudx"); ("version", JStr (py_str (dget "cloudxVersion" source)));
                       ("revision", JStr (revision_of revision))]);
   ("gateway", JDict [("state", gateway_state); ("processState", JStr "unknown");
                      ("endpointState", gateway_state); ("httpStatus", JNull); ("observedAt", checked)]);
   ("capacity", JDict
     [("state", JStr (legacy_capacity total ready blocked)); ("available", JBool (0 <? ready));
      ("accounts", JDict [("total", JInt total); ("ready", JInt ready); ("warning", JInt 0);
                          ("blocked", JInt blocked); ("unknown", JInt (total - ready - blocked))]);
      ("blockedReasons", JDict [("quota", JInt limited); ("login", JInt 0); ("cooldown", JInt 0);
                                ("other", JInt unavailable)]);
      ("activeSessions", JNull); ("observedAt", observed); ("earliestRecoveryAt", JNull)]);
   ("imports", JDict [("state", JStr (state_of IMPORT_STATES (dget "importStatus" source)));
                      ("processState", JStr "unknown"); ("pendingFailures", JInt 0);
                      ("lastFailureAt", JNull)])].

(** ** Validation *)

Definition valid_producer (value : json) : res unit :=
  let* producer := exact value ["name"; "version"; "revision"] "legacy health producer" in
  let* _ := require (eq_str (dget "name" producer) "cloudx") "legacy health producer is invalid" in
  let* version := legacy_text (dget "version" producer) "legacy health producer.version" 64 in
  let* _ := require (version_ok version) "legacy health producer.version is invalid" in
  let* revision := legacy_text (dget "revision" producer) "legacy health producer.revision" 64 in
  require ((revision =s? "unknown") || revision_ok revision) "legacy health producer.revision is invalid".

Definition valid_gateway (value : json) : res unit :=
  let invalid := "legacy health gateway state is invalid"%string in
  let* gateway := exact value ["state"; "processState"; "endpointState"; "httpStatus"; "observedAt"]
                    "legacy health gateway" in
  let* _ := one_state (dget "state" gateway) SERVICE_STATES invalid in
  let* _ := one_state (dget "endpointState" gateway) SERVICE_STATES invalid in
  let* _ := one_state (dget "processState" gateway) PROCESS_STATES
              "legacy health gateway process state is invalid" in
  let* _ := (match dget "httpStatus" gateway with
             | JNull => Ok tt
             | v => let* z := legacy_count v "legacy health gateway.httpStatus" in
                    require ((100 <=? z) && (z <=? 599)) "legacy health gateway.httpStatus is invalid"
             end) in
  let* _ := legacy_timestamp (dget "observedAt" gateway) "legacy health gateway.observedAt" in
  Ok tt.

(** [{name: _count(value, ...) for name, value in d.items()}]. *)
Definition all_counts (d : dict) (label : string) : res unit :=
  let* _ := map_res (λ kv : string * json, legacy_count kv.2 (label +:+ "." +:+ kv.1)) d in Ok tt.

Definition valid_accounts (capacity accounts reasons : dict) : res unit :=
  let* _ := all_counts accounts "legacy health accounts" in
  let* _ := all_counts reasons "legacy health blockedReasons" in
  let total := count_of accounts "total" in
  let ready := count_of accounts "ready" in
  let warning := count_of accounts "warning" in
  let blocked := count_of accounts "blocked" in
  let* _ := require (total =? ready + warning + blocked + count_of accounts "unknown")
              "legacy health account counts do not add up" in
  let* _ := require (blocked =? count_of reasons "quota" + count_of reasons "login" +
                                count_of reasons "cooldown" + count_of reasons "other")
              "legacy health blocked reasons do not add up" in
  let* _ := require (py_eq (dget "available" capacity) (JBool (0 <? ready + warning)))
              "legacy health available state is inconsistent" in
  require (eq_str (dget "state" capacity) (legacy_capacity total ready blocked))
    "legacy health capacity state is inconsistent".

Definition valid_capacity (value : json) : res unit :=
  let invalid := "legacy health capacity state is invalid"%string in
  let* capacity := exact value
    ["state"; "available"; "accounts"; "blockedReasons"; "activeSessions"; "observedAt";
     "earliestRecoveryAt"] "legacy health capacity" in
  let* _ := one_state (dget "state" capacity) CAPACITY_STATES invalid in
  let* _ := require (is_bool (dget "available" capacity)) invalid in
  let* accounts := exact (dget "accounts" capacity) ["total"; "ready"; "warning"; "blocked"; "unknown"]
                     "legacy health accounts" in
  let* reasons := exact (dget "blockedReasons" capacity) ["quota"; "login"; "cooldown"; "other"]
                    "legacy health blockedReasons" in
  let* _ := valid_accounts capacity accounts reasons in
  let* _ := (match dget "activeSessions" capacity with
             | JNull => Ok tt
             | v => let* _ := legacy_count v "legacy health activeSessions" in Ok tt
             end) in
  let* _ := optional_timestamp (dget "observedAt" capacity) "legacy health capacity.observedAt" in
  optional_timestamp (dget "earliestRecoveryAt" capacity) "legacy health capacity.earliestRecoveryAt".

Definition valid_imports (value : json) : res unit :=
  let invalid := "legacy health import state is invalid"%string in
  let* imports := exact value ["state"; "processState"; "pendingFailures"; "lastFailureAt"]
                    "legacy health imports" in
  let* _ := one_state (dget "state" imports) SERVICE_STATES invalid in
  let* _ := one_state (dget "processState" imports) PROCESS_STATES invalid in
  let* _ := legacy_count (dget "pendingFailures" imports) "legacy health imports.pendingFailures" in
  optional_timestamp (dget "lastFailureAt" imports) "legacy health imports.lastFailureAt".

Definition validate_legacy_health (document : dict) : res unit :=
  let* root := exact (JDict document)
    ["contract"; "schemaVersion"; "generatedAt"; "producer"; "gateway"; "capacity"; "imports"; "digest"]
    "legacy health" in
  let* _ := require (eq_str (dget "contract" root) LEGACY_CONTRACT &&
                     eq_int (dget "schemaVersion" root) LEGACY_SCHEMA_VERSION)
              "legacy health identity is unsupported" in
  let* _ := legacy_timestamp (dget "generatedAt" root) "legacy health generatedAt" in
  let* _ := valid_producer (dget "producer" root) in
  let* _ := valid_gateway (dget "gateway" root) in
  let* _ := valid_capacity (dget "capacity" root) in
  let* _ := valid_imports (dget "imports" root) in
  let* text := legacy_text (dget "digest" root) "legacy health digest" 80 in
  require (text =s? digest root) "legacy health digest is invalid".

(** ** The bridge *)

Definition signed_document (document : dict) : dict := dset "digest" (JStr (digest document)) document.

Definition build_legacy_health (formal : dict) (producer_revision : string) : res dict :=
  let* source := parse_formal_health (canonical formal) in
  let* checked_at := legacy_timestamp (dget "checkedAt" source) "formal health checkedAt" in
  let* observed := observed_at checked_at (dict_or_empty (dget "freshness" source)) in
  let document := signed_document (legacy_document source checked_at observed producer_revision) in
  let* _ := validate_legacy_health document in
  let* _ := validate_public_document (JDict document) in
  Ok document.

Definition publish_legacy (p : path) (document : dict) : M unit :=
  if negb p.1 then lift (legacy_error "legacy health output path must be absolute") else
  let! link := is_symlink_p p in
  let! unsafe :=
    (if link then ret true
     else let! present := exists_p p in
          if present then let! file := is_file_p p in ret (negb file) else ret false) in
  if unsafe then lift (legacy_error "legacy health output must be a regular file") else
  lift (validate_legacy_health document) ;;
  lift (validate_public_document (JDict document)) ;;
  mkdir_parents (p_parent p) 511 ;;
  let! temporary := mkstemp ".cloudx-legacy-health-" (p_parent p) in
  try_with
    (chmod temporary 420 ;;
     write_file temporary (dumps (st_pretty 2 true true) (JDict document) +:+ LF) ;;
     fsync ;; sys ;;
     replace temporary p)
    (except_all (λ e, ignore_oserror sys ;; unlink_missing_ok temporary ;; throw e)).

Definition bridge_file (source : path) (destination : option path) (producer_revision : string) : M dict :=
  let! raw := read_formal_health source MAX_HEALTH_BYTES in
  let! formal := lift (parse_formal_health raw) in
  let! document := lift (build_legacy_health formal producer_revision) in
  (match destination with Some p => publish_legacy p document | None => ret tt end) ;;
  ret document.
