(* ===== verification/LegacyBridgeFacts.v ===== *)
(** * The legacy bridge keeps its own contract

    The document the bridge builds passes the bridge's own validation, so that the
    validation inside [build_legacy_health] never refuses anything; and the document the
    health observation publishes is one the bridge reads, exactly when its counts add up. *)

From S2P Require Import Prelude PyStr PyFloat PyValue PyRe PyTime PyJson FS PublicMetadata.
From S2P Require Import AccountState Gateway Health PyBase64 PySha Wp JsonRoundTrip AccountContract.
From S2P Require Import CpaSweep LegacyBridge.

(** ** Timestamps *)

Lemma ulen_length s : (ulen s <= String.length s)%nat.
Proof. induction s as [|c s IH]; simpl; [done|]. destruct (cont c); lia. Qed.

Lemma utc_body_length w : (String.length (utc_body w) <= 26)%nat.
Proof.
  unfold utc_body. destruct (days2ymd _) as [[y m] d]. unfold date_text, time_text, frac_text.
  destruct (_ =? 0); rewrite !str_length_app, !pad_length; simpl; lia.
Qed.

Lemma isoformat_strip w : strip (isoformat (utc w)) = isoformat (utc w).
Proof.
  rewrite isoformat_body. destruct (utc_body_head w "+00:00") as (c & u & E & Hc).
  apply strip_noop; [|by rewrite str_rev_app].
  rewrite E. simpl. by destruct c as [[][][][][][][][]].
Qed.

Lemma z_suffix_offset w : z_suffix (isoformat (utc w)) = isoformat (utc w).
Proof.
  unfold z_suffix, ends_with. rewrite isoformat_body, str_rev_app. done.
Qed.

Lemma astimezone_of_utc w : valid_wall w = true → astimezone_utc (utc w) = Some (utc w).
Proof. intros H. unfold astimezone_utc, utc. cbn [dt_off dt_wall]. by rewrite Z.sub_0_r, H. Qed.

(** A text that reads back as a UTC instant and is short is an accepted timestamp. *)
Lemma legacy_timestamp_reads text w label :
  strip text = text → text ≠ "" → (String.length text <= 64)%nat → valid_wall w = true →
  fromisoformat (z_suffix text) = Some (utc w) →
  legacy_timestamp (JStr text) label = Ok (utc w).
Proof.
  intros Hs Hne Hl Hw Hr. unfold legacy_timestamp. rewrite Hs, Hr.
  pose proof (ulen_length text). rewrite (eqs_ne text "") by done.
  destruct (Nat.ltb_spec 64 (ulen text)); [lia|]. cbn [orb dt_off utc].
  by rewrite astimezone_of_utc.
Qed.

Lemma legacy_timestamp_iso w label :
  valid_wall w = true → legacy_timestamp (JStr (isoformat (utc w))) label = Ok (utc w).
Proof.
  intros Hw. destruct (utc_body_head w "+00:00") as (c & u & E & _).
  apply legacy_timestamp_reads; [apply isoformat_strip| | |done|].
  - by rewrite isoformat_body, E.
  - rewrite isoformat_body, str_length_app. pose proof (utc_body_length w). simpl. lia.
  - rewrite z_suffix_offset. by apply fromisoformat_isoformat.
Qed.

Lemma legacy_timestamp_utc_text w label :
  valid_wall w = true → legacy_timestamp (JStr (utc_text (utc w))) label = Ok (utc w).
Proof.
  intros Hw. destruct (utc_text_reads w Hw) as (Hs & Hne & Hr).
  apply legacy_timestamp_reads; try done. unfold utc_text.
  rewrite isoformat_body, replace_utc_app by apply utc_body_no_plus.
  rewrite str_length_app. pose proof (utc_body_length w). simpl. lia.
Qed.

Lemma legacy_timestamp_utc v label t :
  legacy_timestamp v label = Ok t → ∃ w, t = utc w ∧ valid_wall w = true.
Proof.
  unfold legacy_timestamp, legacy_error, raise. intros H.
  destruct v as [| | | |s| |]; try done.
  destruct (_ || _); [done|]. destruct (fromisoformat _) as [p|]; [|done].
  unfold astimezone_utc in H. destruct (dt_off p) as [off|]; [|done].
  destruct (valid_wall (dt_wall p - off)) eqn:Hv; [|done]. injection H as <-. by eexists.
Qed.

(** ** The digest *)

Lemma unsigned_dset v d : unsigned (dset "digest" v d) = unsigned d.
Proof.
  unfold unsigned. induction d as [|[k x] d IH]; [done|]. cbn [dset].
  destruct (eqs_spec "digest" k) as [<-|Hk]; [done|]. cbn [List.filter fst].
  rewrite IH. done.
Qed.

Lemma big_endian_length n z : length (big_endian n z) = n.
Proof. revert z. induction n as [|n IH]; intros z; simpl; [done|]. rewrite length_app, IH. simpl. lia. Qed.

Lemma fold_left_inv {A B} (P : A → Prop) (f : A → B → A) l a :
  P a → (∀ a b, P a → P (f a b)) → P (fold_left f l a).
Proof. intros Ha Hf. revert a Ha. induction l as [|b l IH]; intros a Ha; simpl; [done|]. auto. Qed.

Lemma sha_round_length st kw : length st = 8%nat → length (sha_round st kw) = 8%nat.
Proof.
  intros H. do 8 (destruct st as [|? st]; [discriminate H|]). by destruct st; [|discriminate H].
Qed.

Lemma sha_bytes_length m : length (sha_bytes m) = 32%nat.
Proof.
  unfold sha_bytes.
  assert (length (fold_left sha_block (chunks (length (sha_pad m)) 64 (sha_pad m)) H256) = 8%nat) as H.
  { apply (fold_left_inv (λ l, length l = 8%nat)); [done|]. intros hs b Hh. unfold sha_block.
    rewrite length_map, length_combine, Hh.
    rewrite (fold_left_inv (λ l, length l = 8%nat)); [done|done|].
    intros; by apply sha_round_length. }
  revert H. generalize (fold_left sha_block (chunks (length (sha_pad m)) 64 (sha_pad m)) H256).
  intros l Hl. do 8 (destruct l as [|? l]; [discriminate Hl|]). destruct l; [|discriminate Hl].
  cbn [flat_map]. rewrite !length_app, !big_endian_length. done.
Qed.

Definition solid (c : ascii) : bool := negb (is_space c).

Lemma strip_solid s : str_forall solid s = true → strip s = s.
Proof.
  intros H.
  assert (Hh : ∀ u, str_forall solid u = true → head_ok is_space (chars u)).
  { intros [|c u]; [done|]. simpl. unfold solid. by destruct (is_space c). }
  apply strip_noop; apply Hh; [done|]. by rewrite str_forall_rev.
Qed.

Lemma hex2_solid n : (n < 256)%nat → str_forall solid (hex2 n) = true ∧ String.length (hex2 n) = 2%nat.
Proof.
  intros Hn. split; [|done].
  assert (forallb (λ n, str_forall solid (hex2 n)) (seq 0 256) = true) as H by by vm_compute.
  rewrite forallb_forall in H. apply H, in_seq. lia.
Qed.

Lemma big_endian_bytes n z b : In b (big_endian n z) → 0 <= b < 256.
Proof.
  revert z. induction n as [|n IH]; intros z; simpl; [done|].
  rewrite in_app_iff. intros [H|[<-|[]]]; [by apply IH in H|]. by apply Z.mod_pos_bound.
Qed.

Lemma sha256_chars (g : ascii → bool) data :
  (∀ n, (n < 256)%nat → str_forall g (hex2 n) = true ∧ String.length (hex2 n) = 2%nat) →
  str_forall g (sha256 data) = true ∧ String.length (sha256 data) = 64%nat.
Proof.
  intros Hg. unfold sha256. pose proof (sha_bytes_length (map (λ c, Z.of_nat (ord c)) (chars data))) as Hl.
  assert (∀ l, (∀ b, In b l → 0 <= b < 256) →
    let s := str_join "" (map (λ z, hex2 (Z.to_nat z)) l) in
    str_forall g s = true ∧ String.length s = (2 * length l)%nat) as Hj.
  { induction l as [|b l IH]; intros Hb; [done|].
    destruct (Hg (Z.to_nat b)) as [H1 H2]; [specialize (Hb b (or_introl eq_refl)); lia|].
    destruct IH as [H3 H4]; [intros; apply Hb; by right|]. cbv zeta in *.
    destruct l as [|b' l]; [done|]. cbn [map str_join] in *.
    rewrite !str_forall_app, !str_length_app, H1, H2, H4. cbn [str_forall andb String.length].
    split; [exact H3|]. simpl. lia. }
  destruct (Hj (sha_bytes (map (λ c, Z.of_nat (ord c)) (chars data)))) as [H1 H2].
  - unfold sha_bytes. intros b (w & _ & Hb)%in_flat_map. by eapply big_endian_bytes.
  - split; [done|]. by rewrite H2, Hl.
Qed.
Lemma sha256_hex data :
  str_forall solid (sha256 data) = true ∧ String.length (sha256 data) = 64%nat.
Proof. apply sha256_chars, hex2_solid. Qed.
Lemma sha256_ascii data : is_ascii (sha256 data) = true.
Proof.
  apply (sha256_chars ascii_char). intros n Hn. split; [|done].
  assert (forallb (λ n, str_forall ascii_char (hex2 n)) (seq 0 256) = true) as H by by vm_compute.
  rewrite forallb_forall in H. apply H, in_seq. lia.
Qed.

Lemma digest_text d : strip (digest d) = digest d ∧ (String.length (digest d) <= 80)%nat.
Proof.
  destruct (sha256_hex (canonical (unsigned d))) as [H1 H2]. unfold digest. split.
  - apply strip_solid. by rewrite str_forall_app, H1.
  - rewrite str_length_app, H2. simpl. lia.
Qed.

(** ** What the field tests say *)

Lemma require_spec b msg : require b msg = Ok tt ↔ b = true.
Proof. unfold require. by destruct b. Qed.
Lemma legacy_count_spec v label z : legacy_count v label = Ok z ↔ v = JInt z ∧ 0 <= z.
Proof.
  unfold legacy_count. rewrite <- nonneg_int_spec.
  destruct (nonneg_int v); split; intros H; simplify_eq; done.
Qed.
Lemma exact_dict v keys label d : exact v keys label = Ok d → v = JDict d ∧ keys_are d keys = true.
Proof.
  unfold exact. intros H. destruct v as [| | | | | |e]; try done.
  destruct (keys_are e keys) eqn:Hk; [|done]. by injection H as ->.
Qed.
Lemma one_state_str v states msg :
  one_state v states msg = Ok tt → ∃ s, v = JStr s ∧ mem s states = true.
Proof.
  unfold one_state. intros H. destruct v as [| | | |s| |]; try done.
  apply (require_spec (mem s states) msg) in H. by exists s.
Qed.
Lemma one_state_mem s states msg : mem s states = true → one_state (JStr s) states msg = Ok tt.
Proof. intros H. unfold one_state. simpl. by rewrite H. Qed.

Definition bounded_text (s : string) (maximum : nat) : Prop :=
  strip s ≠ "" ∧ (ulen s <= maximum)%nat.
Lemma legacy_text_spec v label maximum text :
  legacy_text v label maximum = Ok text ↔
  ∃ s, v = JStr s ∧ bounded_text s maximum ∧ text = strip s.
Proof.
  unfold legacy_text, bounded_text. split.
  - destruct v as [| | | |s| |]; try done. destruct (eqs_spec (strip s) ""); [done|].
    destruct (Nat.ltb_spec maximum (ulen s)); [done|]. intros [= <-]. by exists s.
  - intros (s & -> & [Hs Hl] & ->). rewrite eqs_ne by done.
    destruct (Nat.ltb_spec maximum (ulen s)); [lia|done].
Qed.
Lemma legacy_text_bounded s label maximum :
  bounded_text s maximum → legacy_text (JStr s) label maximum = Ok (strip s).
Proof. intros H. apply legacy_text_spec. eauto. Qed.
Lemma require_true b msg : b = true → require b msg = Ok tt.
Proof. apply require_spec. Qed.
Lemma legacy_count_nonneg z label : 0 <= z → legacy_count (JInt z) label = Ok z.
Proof. intros H. by apply legacy_count_spec. Qed.

(** ** The formal document *)

(** What a formal document that was accepted holds. *)
Record formal_source (d : dict) (total available limited unavailable age : Z) : Prop := FormalSource {
  fs_version : ∃ s, dget "cloudxVersion" d = JStr s ∧ bounded_text s 64 ∧ version_ok (strip s) = true;
  fs_gateway : ∃ s, dget "gatewayStatus" d = JStr s ∧ mem s (map fst GATEWAY_STATES) = true;
  fs_import : ∃ s, dget "importStatus" d = JStr s ∧ mem s (map fst IMPORT_STATES) = true;
  fs_counts : ∃ c, dget "accountCounts" d = JDict c ∧
    dget "total" c = JInt total ∧ dget "available" c = JInt available ∧
    dget "limited" c = JInt limited ∧ dget "unavailable" c = JInt unavailable;
  fs_signs : 0 <= available ∧ 0 <= limited ∧ 0 <= unavailable ∧
             available + limited + unavailable <= total;
  fs_age : ∃ f, dget "freshness" d = JDict f ∧ dget "ageSeconds" f = JInt age ∧ 0 <= age }.

Lemma formal_counts_source v c :
  formal_counts v = Ok c →
  ∃ total available limited unavailable, v = JDict c ∧
    dget "total" c = JInt total ∧ dget "available" c = JInt available ∧
    dget "limited" c = JInt limited ∧ dget "unavailable" c = JInt unavailable ∧
    0 <= available ∧ 0 <= limited ∧ 0 <= unavailable ∧
    available + limited + unavailable <= total.
Proof.
  unfold formal_counts. intros H.
  destruct (exact v _ _) as [d|] eqn:Hd; [|done]. apply exact_dict in Hd as [-> _].
  destruct (map_res _ COUNT_NAMES) as [zs|] eqn:Hz; [|done].
  apply map_res_Forall2 in Hz.
  apply Forall2_cons_inv_l in Hz as (t & ? & [Ht ?]%legacy_count_spec & Hz & ->).
  apply Forall2_cons_inv_l in Hz as (a & ? & [Ha ?]%legacy_count_spec & Hz & ->).
  apply Forall2_cons_inv_l in Hz as (l & ? & [Hl ?]%legacy_count_spec & Hz & ->).
  apply Forall2_cons_inv_l in Hz as (u & ? & [Hu ?]%legacy_count_spec & Hz & ->).
  unfold require, count_of in H. rewrite Ht, Ha, Hl, Hu in H.
  destruct (Z.leb_spec (a + l + u) t); [|done]. injection H as <-.
  exists t, a, l, u. by split_and!.
Qed.

Lemma formal_document_source v d :
  formal_document v = Ok d → ∃ t a l u age, formal_source d t a l u age.
Proof.
  unfold formal_document. intros H.
  destruct (exact v _ _) as [d0|] eqn:Hd; [|done].
  destruct (require (eq_str _ _) _) as [?|]; [|done]. destruct (legacy_count _ _) as [?|]; [|done].
  destruct (require (_ =? 1) _) as [?|]; [|done].
  destruct (legacy_text _ _ _) as [text|] eqn:Ht; [|done].
  apply legacy_text_spec in Ht as (s & Hs & Hb & ->).
  destruct (require (version_ok _) _) as [[]|] eqn:Hv; [|done]. apply require_spec in Hv.
  destruct (one_state (dget "gatewayStatus" d0) _ _) as [[]|] eqn:Hg; [|done].
  apply one_state_str in Hg.
  destruct (one_state (dget "importStatus" d0) _ _) as [[]|] eqn:Hi; [|done].
  apply one_state_str in Hi.
  destruct (legacy_timestamp _ _) as [?|]; [|done].
  destruct (formal_counts _) as [c|] eqn:Hc; [|done].
  apply formal_counts_source in Hc as (nt & na & nl & nu & Hc & ? & ? & ? & ? & ? & ? & ? & ?).
  destruct (formal_freshness _) as [[]|] eqn:Hf; [|done]. injection H as <-.
  unfold formal_freshness in Hf. destruct (exact (dget "freshness" d0) _ _) as [f|] eqn:Ef; [|done].
  apply exact_dict in Ef as [Ef _]. destruct (one_state _ _ _) as [?|]; [|done].
  destruct (legacy_count _ _) as [age|] eqn:Ha; [|done]. apply legacy_count_spec in Ha as [Ha ?].
  exists nt, na, nl, nu, age. split; eauto 10.
Qed.

(** ** The parts of the legacy document *)

Lemma revision_of_valid r : (revision_of r =s? "unknown") || revision_ok (revision_of r) = true.
Proof. unfold revision_of. destruct (revision_ok _) eqn:E; [|done]. by rewrite E, orb_true_r. Qed.

Lemma revision_bounded r : strip (revision_of r) = revision_of r ∧ bounded_text (revision_of r) 64.
Proof.
  unfold revision_of, bounded_text. set (c := str_lower (strip r)).
  destruct (revision_ok c) eqn:E; [|by vm_compute; split_and!; [| |lia]].
  unfold revision_ok in E. apply andb_true_iff in E as [[H1 H2]%andb_true_iff H3].
  apply Nat.leb_le in H1, H2.
  assert (strip c = c) as Hc.
  { apply strip_solid. eapply str_forall_mono; [|exact H3]. intros x. by destruct x as [[][][][][][][][]]. }
  rewrite Hc. pose proof (ulen_length c). split_and!; [done| |lia]. intros E. rewrite E in H1. simpl in H1. lia.
Qed.

Lemma state_of_mem states s allowed :
  mem s (map fst states) = true → forallb (λ kv, mem kv.2 allowed) states = true →
  mem (state_of states (JStr s)) allowed = true.
Proof.
  unfold state_of, eq_str, py_eq. rewrite mem_spec, in_map_iff. intros (kv & <- & Hin) Hall.
  rewrite forallb_forall in Hall.
  destruct (List.find _ states) as [[k x]|] eqn:E.
  - apply find_some in E as [E _]. exact (Hall _ E).
  - apply find_none with (x := kv) in E; [|done]. simpl in E. by rewrite eqs_refl in E.
Qed.

Section parts.
Context (d : dict) (total available limited unavailable age : Z).
Hypothesis source : formal_source d total available limited unavailable age.
Context (w : Z) (observed : json) (revision : string).
Hypothesis checked : valid_wall w = true.

Let doc := legacy_document d (utc w) observed revision.

Lemma legacy_parts_producer : valid_producer (dget "producer" doc) = Ok tt.
Proof using source.
  destruct (fs_version _ _ _ _ _ _ source) as (s & Hs & Hb & Hv).
  destruct (revision_bounded revision) as [Hr Hrb].
  unfold valid_producer. subst doc.
  assert (dget "producer" (legacy_document d (utc w) observed revision) =
    JDict [("name", JStr "cloudx"); ("version", JStr s); ("revision", JStr (revision_of revision))]) as ->.
  { cbn -[revision_of]. by rewrite Hs. }
  cbn -[legacy_text revision_of version_ok revision_ok require].
  rewrite require_true, legacy_text_bounded, require_true by done.
  rewrite legacy_text_bounded, Hr by done.
  by rewrite require_true by apply revision_of_valid.
Qed.

Lemma legacy_parts_gateway : valid_gateway (dget "gateway" doc) = Ok tt.
Proof using source checked.
  destruct (fs_gateway _ _ _ _ _ _ source) as (s & Hs & Hm).
  assert (Hst : mem (state_of GATEWAY_STATES (JStr s)) SERVICE_STATES = true)
    by (apply state_of_mem; [exact Hm|reflexivity]).
  unfold valid_gateway. subst doc.
  cbn -[legacy_timestamp isoformat one_state state_of require]. rewrite Hs.
  rewrite !one_state_mem by done.
  by rewrite legacy_timestamp_iso by done.
Qed.

Lemma legacy_parts_imports : valid_imports (dget "imports" doc) = Ok tt.
Proof using source.
  destruct (fs_import _ _ _ _ _ _ source) as (s & Hs & Hm).
  assert (Hst : mem (state_of IMPORT_STATES (JStr s)) SERVICE_STATES = true)
    by (apply state_of_mem; [exact Hm|reflexivity]).
  unfold valid_imports. subst doc.
  cbn -[legacy_timestamp isoformat one_state state_of require]. rewrite Hs.
  by rewrite !one_state_mem by done.
Qed.

Lemma legacy_capacity_state t r b : mem (legacy_capacity t r b) CAPACITY_STATES = true.
Proof. unfold legacy_capacity. by destruct ((0 <? t) && _), (0 <? r), (0 <? b). Qed.

Lemma legacy_parts_capacity :
  optional_timestamp observed "legacy health capacity.observedAt" = Ok tt →
  valid_capacity (dget "capacity" doc) = Ok tt.
Proof using source.
  intros Ho. destruct (fs_counts _ _ _ _ _ _ source) as (c & Hc & Ht & Ha & Hl & Hu).
  destruct (fs_signs _ _ _ _ _ _ source) as (? & ? & ? & ?).
  unfold valid_capacity. subst doc.
  cbn -[isoformat one_state require legacy_capacity optional_timestamp valid_accounts].
  rewrite Hc. unfold count_of. cbn [dict_or_empty]. rewrite Ht, Ha, Hl, Hu.
  rewrite one_state_mem by apply legacy_capacity_state.
  rewrite require_true by done. cbn [optional_timestamp].
  assert (∀ capacity accounts reasons,
    dget "available" capacity = JBool (0 <? available) →
    dget "state" capacity = JStr (legacy_capacity total available (limited + unavailable)) →
    accounts = [("total", JInt total); ("ready", JInt available); ("warning", JInt 0);
                ("blocked", JInt (limited + unavailable));
                ("unknown", JInt (total - available - (limited + unavailable)))] →
    reasons = [("quota", JInt limited); ("login", JInt 0); ("cooldown", JInt 0);
               ("other", JInt unavailable)] →
    valid_accounts capacity accounts reasons = Ok tt) as Hacc.
  { intros capacity accounts reasons Hav Hst -> ->. unfold valid_accounts, all_counts.
    cbn -[require legacy_count legacy_capacity]. rewrite !legacy_count_nonneg by lia.
    rewrite Hav, Hst.
    rewrite !require_true; [done|..].
    - unfold eq_str, py_eq. apply eqs_refl.
    - rewrite Z.add_0_r. simpl. by destruct (0 <? available).
    - apply Z.eqb_eq. lia.
    - apply Z.eqb_eq. lia. }
  rewrite Hacc by done. by rewrite Ho.
Qed.

(** What the bridge builds from an accepted document passes its validation. *)
Lemma legacy_document_valid :
  optional_timestamp observed "legacy health capacity.observedAt" = Ok tt →
  validate_legacy_health (signed_document doc) = Ok tt.
Proof using source checked.
  intros Ho. pose proof legacy_parts_producer as H1. pose proof legacy_parts_gateway as H2.
  pose proof (legacy_parts_capacity Ho) as H3. pose proof legacy_parts_imports as H4.
  destruct (digest_text doc) as [H5 H6].
  assert (Hd : ∀ k, k ≠ "digest"%string → dget k (signed_document doc) = dget k doc).
  { intros k Hk. unfold signed_document, dget. by rewrite dlookup_dset_ne. }
  assert (Hn : keys_are (signed_document doc) ["contract"; "schemaVersion"; "generatedAt";
    "producer"; "gateway"; "capacity"; "imports"; "digest"] = true) by reflexivity.
  unfold validate_legacy_health, exact. rewrite Hn. cbv iota beta.
  rewrite !Hd by done. rewrite H1, H2, H3, H4.
  rewrite require_true by reflexivity.
  assert (dget "generatedAt" doc = JStr (isoformat (utc w))) as -> by reflexivity.
  rewrite legacy_timestamp_iso by done.
  unfold signed_document at 1. rewrite dget_dset.
  rewrite legacy_text_bounded.
  - rewrite H5. apply require_true. apply String.eqb_eq. unfold digest, signed_document.
    by rewrite unsigned_dset.
  - unfold bounded_text. rewrite H5. pose proof (ulen_length (digest doc)). split; [done|lia].
Qed.
End parts.

Lemma observed_at_timestamp w f observed label :
  observed_at (utc w) f = Ok observed → optional_timestamp observed label = Ok tt.
Proof.
  unfold observed_at. destruct (eq_str _ _); [by intros [= <-]|]. cbn [utc dt_wall dt_off].
  destruct (valid_wall _) eqn:Hv; [|done]. intros [= <-]. unfold optional_timestamp.
  pose proof (legacy_timestamp_iso _ label Hv) as H. unfold utc in H. by rewrite H.
Qed.

(** The bridge's own validation never refuses what the bridge builds: building is
    reading the formal document, the two times, and the check of public metadata. *)
Theorem bridge_self_valid formal revision :
  build_legacy_health formal revision =
    let* source := parse_formal_health (canonical formal) in
    let* checked_at := legacy_timestamp (dget "checkedAt" source) "formal health checkedAt" in
    let* observed := observed_at checked_at (dict_or_empty (dget "freshness" source)) in
    let document := signed_document (legacy_document source checked_at observed revision) in
    let* _ := validate_public_document (JDict document) in
    Ok document.
Proof.
  unfold build_legacy_health. destruct (parse_formal_health _) as [source|] eqn:Hp; [|done].
  destruct (legacy_timestamp _ _) as [t|] eqn:Ht; [|done].
  destruct (observed_at _ _) as [observed|] eqn:Ho; [|done].
  apply legacy_timestamp_utc in Ht as (w & -> & Hw).
  unfold parse_formal_health in Hp. destruct (loads_bytes _) as [v|e]; [|by destruct (_ || _)].
  apply formal_document_source in Hp as (t & a & l & u & age & Hs).
  by rewrite (legacy_document_valid _ _ _ _ _ _ Hs) by (done || by eapply observed_at_timestamp).
Qed.

(** ** The health observation *)

(** Every value [m] returns satisfies [P]. *)
Definition returns {A} (E : env) (m : M A) (P : A → Prop) : Prop :=
  ∀ w a w', m E w = (Ok a, w') → P a.

Lemma returns_ret {A} E (a : A) (P : A → Prop) : P a → returns E (ret a) P.
Proof. intros H w b w' [= <- <-]. done. Qed.
Lemma returns_throw {A} E e (P : A → Prop) : returns E (throw e) P.
Proof. by intros w a w' [=]. Qed.
Lemma returns_bind {A B} E (m : M A) (k : A → M B) (Q : A → Prop) (P : B → Prop) :
  returns E m Q → (∀ a, Q a → returns E (k a) P) → returns E (bind m k) P.
Proof.
  intros Hm Hk w b w' H. unfold bind in H. destruct (m E w) as [[a|e] w1] eqn:Em; [|done].
  eapply Hk; [by eapply Hm|exact H].
Qed.
Lemma returns_any {A} E (m : M A) : returns E m (λ _, True).
Proof. done. Qed.
Lemma returns_then {A B} E (m : M A) (k : A → M B) (P : B → Prop) :
  (∀ a, returns E (k a) P) → returns E (bind m k) P.
Proof. intros H. eapply returns_bind; [apply returns_any|auto]. Qed.
Lemma returns_try {A} E (m : M A) h (P : A → Prop) :
  returns E m P → (∀ e k, h e = Some k → returns E k P) → returns E (try_with m h) P.
Proof.
  intros Hm Hh w a w' H. unfold try_with in H. destruct (m E w) as [[b|e] w1] eqn:Em.
  - injection H as <- <-. by eapply Hm.
  - destruct (h e) as [k|] eqn:Eh; [|done]. by eapply Hh.
Qed.
Lemma returns_finally {A} E (m : M A) c (P : A → Prop) : returns E m P → returns E (finally m c) P.
Proof.
  intros Hm w a w' H. unfold finally in H. destruct (m E w) as [[b|e] w1] eqn:Em;
    destruct (c E w1) as [[]]; simplify_eq. by eapply Hm.
Qed.
Lemma except_Some {A} cs (k : exn → M A) e m : except cs k e = Some m → m = k e.
Proof. unfold except. destruct (existsb _ _); congruence. Qed.

Definition known_gateway (s : string) : Prop := mem s (map fst GATEWAY_STATES) = true ∧ is_ascii s = true.
Definition known_import (s : string) : Prop := mem s (map fst IMPORT_STATES) = true ∧ is_ascii s = true.

Lemma probe_known urlopen E url p : returns E (probe_gateway urlopen url p) (λ g, known_gateway (status g)).
Proof.
  assert (Hs : ∀ u h, returns E (send urlopen u h) (λ g, known_gateway (status g))).
  { intros u h. unfold send. destruct (urlopen _ _); try apply returns_throw; apply returns_ret;
      unfold classify_status; repeat case_match; done. }
  unfold probe_gateway. destruct p as [p|]; [|apply Hs].
  apply returns_then. intros []; [|apply Hs]. apply returns_then. intros [k|]; [apply Hs|].
  by apply returns_ret.
Qed.

Lemma import_known E config : returns E (import_status config) known_import.
Proof.
  unfold import_status. apply returns_try.
  - apply returns_then. intros _. apply returns_finally, returns_try.
    + apply returns_then. intros _. by apply returns_ret.
    + intros e k ->%except_Some. by apply returns_ret.
  - intros e k H. destruct (catches FileNotFoundError _); [|destruct (catches OSError _); [|done]];
      injection H as <-; by apply returns_ret.
Qed.

Definition counts_signed (c : counts) : Prop :=
  0 <= c_total c ∧ 0 <= c_available c ∧ 0 <= c_limited c ∧ 0 <= c_unavailable c.

Lemma read_counts_signed keys raw c :
  counts_signed c → counts_signed (read_counts keys raw c).1.
Proof.
  revert c. induction keys as [|k keys IH]; intros c Hc; [done|]. cbn [read_counts].
  destruct (nonneg_int _) as [v|] eqn:Hv; [|done]. apply IH.
  apply nonneg_int_spec in Hv as [_ Hv]. unfold set_count. destruct c as [t a l u].
  unfold counts_signed in *. simpl in *. repeat case_match; simpl; lia.
Qed.

Lemma age_of_nonneg current observed z : age_of current observed = Ok z → 0 <= z.
Proof. unfold age_of. destruct (ftrunc _); [|done|done]. intros [= <-]. lia. Qed.

Definition ages (r : res Z) : Prop := match r with Ok z => 0 <= z | Raise _ => True end.

Lemma observed_age_nonneg E v : returns E (observed_age v) (λ z, 0 <= z).
Proof.
  unfold observed_age. do 2 (apply returns_then; intros ?).
  intros w z w' H. unfold lift in H. injection H as H _. by eapply age_of_nonneg.
Qed.

Lemma observe_counts_signed E p :
  returns E (observe_counts p) (λ x, counts_signed x.1 ∧ ages x.2).
Proof.
  assert (Hr : ∀ m w, returns E m (λ z, 0 <= z) → ages (m E w).1).
  { intros m w Hm. destruct (m E w) as [[z|e] w'] eqn:Em; [|done]. by eapply Hm. }
  assert (Hn : counts_signed no_counts) by (unfold counts_signed; simpl; lia).
  intros w x w' H. unfold observe_counts in H.
  destruct (bind _ _ E w) as [[v|e] w1]; [|by injection H as <- _].
  destruct v as [| | | | | |data]; try by injection H as <- _.
  pose proof (read_counts_signed HEALTH_KEYS (dget_or "accountCounts" (JDict data) data) _ Hn) as Hc.
  destruct (read_counts _ _ _) as [c valid]. cbn [fst] in Hc.
  destruct valid; cbn [negb] in H; [|by injection H as <- _].
  destruct (eq_str _ _).
  - destruct (nonneg_int _); [|by injection H as <- _].
    destruct (negb _); [by injection H as <- _|].
    specialize (Hr (observed_age (dget "observedAt" data)) w1 (observed_age_nonneg E _)).
    destruct (observed_age _ E w1) as [age w2]. by injection H as <- _.
  - match type of H with context [bind ?m ?k E w1] => specialize (Hr (bind m k) w1) end.
    destruct (bind _ _ E w1) as [age w2]. injection H as <- _. split; [done|]. apply Hr.
    do 2 (apply returns_then; intros ?). intros ? z ? Hz. unfold lift in Hz. injection Hz as Hz _.
    by eapply age_of_nonneg.
Qed.

Definition known_freshness (s : string) : Prop := mem s ["fresh"; "stale"; "unknown"] = true ∧ is_ascii s = true.

Lemma account_counts_signed E config :
  returns E (account_counts config) (λ x, let '(c, fresh, age) := x in
    counts_signed c ∧ known_freshness fresh ∧ 0 <= age).
Proof.
  unfold account_counts. apply returns_then. intros [].
  - eapply returns_bind; [apply observe_counts_signed|]. intros [c age] [Hc Ha]. cbn [fst snd] in *.
    destruct age as [age|e].
    + apply returns_ret. split_and!; [done| |done..]. unfold freshness_of. by destruct (_ <=? _).
    + destruct (existsb _ _); [|apply returns_throw]. by apply returns_ret.
  - by apply returns_ret.
Qed.

Definition clock_in_calendar (E : env) : Prop := ∀ n, valid_wall (EPOCH_US + clock E n) = true.

Lemma utc_now_text E :
  clock_in_calendar E → returns E utc_now (λ s, ∃ w, s = utc_text (utc w) ∧ valid_wall w = true).
Proof.
  intros HE w s w' H. unfold utc_now, datetime_now, now_us, bind, ret in H.
  injection H as <- _. by eexists.
Qed.

Lemma observe_health_document urlopen E config :
  clock_in_calendar E →
  returns E (observe_health urlopen config) (λ x, ∃ gw imp w fresh c age,
    x.1 = health_document gw imp (utc_text (utc w)) fresh c age ∧
    known_gateway gw ∧ known_import imp ∧ valid_wall w = true ∧ known_freshness fresh ∧
    counts_signed c ∧ 0 <= age).
Proof.
  intros HE. unfold observe_health.
  eapply returns_bind; [apply probe_known|]. intros g Hg.
  eapply returns_bind; [apply account_counts_signed|]. intros [[c fresh] age] (Hc & Hf & Ha).
  eapply returns_bind; [apply import_known|]. intros imp Hi.
  eapply returns_bind; [by apply utc_now_text|]. intros s (w & -> & Hw).
  apply returns_ret. by exists (status g), imp, w, fresh, c, age.
Qed.

(** The formal document is accepted exactly when its counts add up. *)
Definition formal_verdict (c : counts) (document : json) : res dict :=
  if c_available c + c_limited c + c_unavailable c <=? c_total c
  then Ok (dict_or_empty (reorder true document))
  else legacy_error "formal health account counts do not add up".

Lemma health_document_plain gw imp w fresh c age :
  is_ascii gw = true → is_ascii imp = true → is_ascii fresh = true →
  plain (health_document gw imp (utc_text (utc w)) fresh c age) = true.
Proof.
  intros Hg Hi Hf. pose proof (utc_text_ascii w) as Ht. unfold health_document, counts_json.
  cbn [plain forallb fst snd]. rewrite Hg, Hi, Hf, Ht. reflexivity.
Qed.

Lemma formal_counts_verdict v c :
  keys_are (dict_or_empty v) COUNT_NAMES = true → v = JDict (dict_or_empty v) →
  (∀ n z, In (n, z) [("total"%string, c_total c); ("available"%string, c_available c);
                     ("limited"%string, c_limited c); ("unavailable"%string, c_unavailable c)] →
          dget n (dict_or_empty v) = JInt z) →
  counts_signed c →
  formal_counts v =
    if c_available c + c_limited c + c_unavailable c <=? c_total c then Ok (dict_or_empty v)
    else legacy_error "formal health account counts do not add up".
Proof.
  intros Hk Hv Hd (? & ? & ? & ?). unfold formal_counts, exact. rewrite Hv. cbn [dict_or_empty].
  rewrite Hk. unfold COUNT_NAMES, count_of. cbn [map_res].
  rewrite (Hd "total" (c_total c)), (Hd "available" (c_available c)), (Hd "limited" (c_limited c)),
    (Hd "unavailable" (c_unavailable c)) by (simpl; tauto).
  rewrite !legacy_count_nonneg by done. unfold require. by destruct (_ <=? _).
Qed.

Lemma health_document_verdict gw imp w fresh c age :
  known_gateway gw → known_import imp → valid_wall w = true → known_freshness fresh →
  counts_signed c → 0 <= age →
  formal_document (reorder true (health_document gw imp (utc_text (utc w)) fresh c age)) =
    formal_verdict c (health_document gw imp (utc_text (utc w)) fresh c age).
Proof.
  intros [Hg _] [Hi _] Hw [Hf _] Hc Ha.
  assert (Hr : reorder true (health_document gw imp (utc_text (utc w)) fresh c age) =
    JDict [("accountCounts", reorder true (counts_json c)); ("checkedAt", JStr (utc_text (utc w)));
           ("cloudxVersion", JStr VERSION);
           ("freshness", JDict [("ageSeconds", JInt age); ("state", JStr fresh)]);
           ("gatewayStatus", JStr gw); ("importStatus", JStr imp);
           ("protocolVersion", JInt PROTOCOL_MAX); ("schema", JStr "cloudx.health.v1")])
    by reflexivity.
  unfold formal_verdict. rewrite Hr. unfold formal_document, formal_freshness, exact.
  assert (Hcs : formal_counts (reorder true (counts_json c)) =
    if c_available c + c_limited c + c_unavailable c <=? c_total c
    then Ok (dict_or_empty (reorder true (counts_json c)))
    else legacy_error "formal health account counts do not add up").
  { apply formal_counts_verdict; try done. intros n z [[= <- <-]|[[= <- <-]|[[= <- <-]|[[= <- <-]|[]]]]]; done. }
  cbn -[formal_counts legacy_timestamp utc_text one_state require reorder legacy_text legacy_count version_ok].
  rewrite Hcs.
  rewrite require_true, (legacy_count_nonneg PROTOCOL_MAX), require_true by done.
  rewrite legacy_text_bounded by (split; [done|vm_compute; lia]).
  rewrite require_true by reflexivity. rewrite !one_state_mem by done.
  rewrite legacy_timestamp_utc_text, legacy_count_nonneg by done.
  by destruct (_ <=? _).
Qed.

(** C39: the bridge reads every document the health observation publishes, whatever the
    account state file, the gateway and the lock were, except one whose counts do not add
    up, which it refuses with that very message. *)
Theorem health_is_bridged urlopen config E w document gateway w' :
  clock_in_calendar E →
  observe_health urlopen config E w = (Ok (document, gateway), w') →
  ∃ c d, document = JDict d ∧ dget "accountCounts" d = counts_json c ∧ counts_signed c ∧
    parse_formal_health (published document) = formal_verdict c document.
Proof.
  intros HE H.
  apply (observe_health_document urlopen E config HE) in H
    as (gw & imp & t & fresh & c & age & Hd & Hg & Hi & Ht & Hf & Hc & Ha).
  cbn [fst] in Hd. subst document. eexists c, _. split_and!; [reflexivity|reflexivity|done|].
  pose proof (health_document_plain gw imp t fresh c age (proj2 Hg) (proj2 Hi) (proj2 Hf)) as Hp.
  unfold parse_formal_health, loads_bytes, decode_res, decode_utf8.
  rewrite ascii_utf8, (loads_published _ Hp) by by apply published_ascii.
  by apply health_document_verdict.
Qed.

(** The account state of an older writer, whose counts need not add up. *)
Definition legacy_counts_env : env :=
  Env (λ _, false) (λ _, "x") (λ _, 1767316000000000) (λ _ _, FFin false 1767315000 0) (λ _ _, false) (λ _, 0).
Definition sample_config : Config :=
  MkConfig (path_of "/auth") (path_of "/run/import.lock") (path_of "/run/health.json")
    (path_of "/run/accounts.json") (path_of "/run/source.json") "http://127.0.0.1:8317"
    (path_of "/run/credential").
Definition sample_world : world :=
  World {[ account_state_path sample_config :=
             File (dumps (st_default false true) (JDict [("accountCounts", counts_json (Counts 1 2 0 0))])) 420 ]} 0.

(** Such counts are published, and the bridge refuses the document. *)
Lemma sample_observed :
  match (observe_health (λ _ _, HttpStatus 200) sample_config legacy_counts_env sample_world).1 with
  | Ok (document, _) =>
      dget "accountCounts" (dict_or_empty document) = counts_json (Counts 1 2 0 0) ∧
      is_ok (parse_formal_health (published document)) = false
  | Raise _ => False
  end.
Proof. by vm_compute. Qed.

Lemma health_is_bridged_witness :
  ∃ document c d, document = JDict d ∧ dget "accountCounts" d = counts_json c ∧ counts_signed c ∧
    parse_formal_health (published document) = formal_verdict c document ∧ c = Counts 1 2 0 0.
Proof.
  pose proof sample_observed as Hs.
  destruct (observe_health (λ _ _, HttpStatus 200) sample_config legacy_counts_env sample_world)
    as [[[document gateway]|e] w'] eqn:E; [|destruct Hs].
  destruct (health_is_bridged (λ _ _, HttpStatus 200) sample_config legacy_counts_env sample_world
              document gateway w') as (c & d & Hd & Hc & Hg & Hv); [|exact E|].
  - intros n. reflexivity.
  - exists document, c, d. split_and!; [exact Hd|exact Hc|exact Hg|exact Hv|].
    destruct Hs as [Hs _]. rewrite Hd in Hs. cbn [dict_or_empty] in Hs. rewrite Hc in Hs.
    destruct c. injection Hs. intros. by subst.
Defined.
