(* ===== verification/HttpImporterGate.v ===== *)
(** * The stop gate of the HTTP importer ([cloud/cloudx_cloud/http_importer_gate.py])

    Reads a document of evidence about the legacy importer, refuses it unless every field is
    present and of its type, and lists what still blocks stopping the service. *)

From S2P Require Import Prelude PyStr PyRe PyFloat PyValue PyTime PyJson PyJsonHook PySha FS CpaSweep Capabilities.

Definition MAX_EVIDENCE_BYTES : Z := 64 * 1024.
Definition EVIDENCE_SCHEMA : string := "cloudx.http-importer-stop-gate-evidence.v1".
Definition RESULT_SCHEMA : string := "cloudx.http-importer-stop-gate.v1".
Definition SERVICE_NAME : string := "codex-import.service".
Definition LISTENER_PORT : Z := 8780.

Definition rejected {A} (msg : string) : res A := raise EvidenceRejected msg.

(** ** Fields *)

Definition ev_object (value : json) (keys : list string) (section : string) : res dict :=
  match value with
  | JDict d => if keys_are d keys then Ok d else rejected (section +:+ " has missing or unknown fields")
  | _ => rejected (section +:+ " must be an object")
  end.
Definition ev_boolean (value : json) (field : string) : res bool :=
  match value with JBool b => Ok b | _ => rejected (field +:+ " must be a boolean") end.
Definition ev_count (value : json) (field : string) : res Z :=
  match value with
  | JInt z => if (z <? 0) || (1000000 <? z)
              then rejected (field +:+ " must be a bounded non-negative integer") else Ok z
  | _ => rejected (field +:+ " must be a bounded non-negative integer")
  end.
Definition ev_string (value : json) (field : string) (maximum : nat) : res string :=
  match value with
  | JStr s => if (s =s? "") || Nat.ltb maximum (ulen s)
              then rejected (field +:+ " must be a non-empty bounded string") else Ok s
  | _ => rejected (field +:+ " must be a non-empty bounded string")
  end.
Definition ev_timestamp (value : json) (field : string) : res (string * datetime) :=
  let* raw := ev_string value field 64 in
  match fromisoformat (z_suffix raw) with
  | None => rejected (field +:+ " must be an ISO-8601 timestamp")
  | Some parsed => match dt_off parsed with
                   | None => rejected (field +:+ " must include a timezone")
                   | Some _ => Ok (raw, parsed)
                   end
  end.
Definition ev_optional_timestamp (value : json) (field : string) : res (option datetime) :=
  match value with
  | JNull => Ok None
  | _ => let* (_, parsed) := ev_timestamp value field in Ok (Some parsed)
  end.

(** ** Decoding *)

Definition unique_object (ps : pairs) : res json :=
  let* d := fold_res (λ (d : dict) kv,
    if dmem kv.1 d then rejected "evidence contains duplicate fields" else Ok (dset kv.1 kv.2 d)) [] ps in
  Ok (JDict d).

Definition ev_decode (raw : string) : res dict :=
  if raw =s? "" then rejected "evidence input is empty" else
  if MAX_EVIDENCE_BYTES <? str_len raw then rejected "evidence exceeds the 64 KiB limit" else
  match decode_utf8 raw with
  | None => rejected "evidence must be UTF-8 JSON"
  | Some text =>
      match loads_hook unique_object text with
      | Ok (JDict d) => Ok d
      | Ok _ => rejected "evidence root must be an object"
      | Raise e => if catches JSONDecodeError (exn_cls e) then rejected "evidence must be valid JSON" else Raise e
      end
  end.

(** The bytes of the stream that are read. *)
Definition read_evidence (stream : string) : res string :=
  let raw := str_take_z (MAX_EVIDENCE_BYTES + 1) stream in
  if MAX_EVIDENCE_BYTES <? str_len raw then rejected "evidence exceeds the 64 KiB limit" else Ok raw.

(** ** The sections *)

Record service := Service { sv_active : bool; sv_enabled : bool; sv_stable : bool }.
Definition read_service (evidence : dict) : res service :=
  let* d := ev_object (dget "service" evidence) ["name"; "active"; "enabled"; "identityStable"] "service" in
  if negb (eq_str (dget "name" d) SERVICE_NAME)
  then rejected "service.name must identify codex-import.service" else
  let* active := ev_boolean (dget "active" d) "service.active" in
  let* enabled := ev_boolean (dget "enabled" d) "service.enabled" in
  let* stable := ev_boolean (dget "identityStable" d) "service.identityStable" in
  Ok (Service active enabled stable).

Record listener := Listener { ls_port : Z; ls_listening : bool; ls_established : Z }.
Definition read_listener (evidence : dict) : res listener :=
  let* d := ev_object (dget "listener" evidence) ["port"; "listening"; "establishedConnections"] "listener" in
  let* port := ev_count (dget "port" d) "listener.port" in
  let* listening := ev_boolean (dget "listening" d) "listener.listening" in
  let* established := ev_count (dget "establishedConnections" d) "listener.establishedConnections" in
  Ok (Listener port listening established).

Record traffic := Traffic {
  tr_readable : bool; tr_last : option datetime; tr_unattributed : Z; tr_callers : Z; tr_later : Z }.
(** Aware values are compared as instants. *)
Definition read_traffic (evidence : dict) (captured_at : datetime) : res traffic :=
  let* d := ev_object (dget "traffic" evidence)
    ["journalReadable"; "lastRequestAt"; "unattributedRequests"; "activeHttpCallers"; "laterRequests"]
    "traffic" in
  let* readable := ev_boolean (dget "journalReadable" d) "traffic.journalReadable" in
  let* last := ev_optional_timestamp (dget "lastRequestAt" d) "traffic.lastRequestAt" in
  let* unattributed := ev_count (dget "unattributedRequests" d) "traffic.unattributedRequests" in
  let* callers := ev_count (dget "activeHttpCallers" d) "traffic.activeHttpCallers" in
  let* later := ev_count (dget "laterRequests" d) "traffic.laterRequests" in
  if (match last with Some t => instant_us captured_at <? instant_us t | None => false end)
  then rejected "traffic.lastRequestAt cannot be later than capturedAt"
  else Ok (Traffic readable last unattributed callers later).

Record transactions := Transactions {
  tx_holders : Z; tx_raw : Z; tx_sanitized : bool; tx_status : string }.
Definition read_transactions (evidence : dict) : res transactions :=
  let* d := ev_object (dget "transactions" evidence)
    ["lockHolders"; "rawFailureInputs"; "failureRecordsSanitized"; "importStatus"] "transactions" in
  let* holders := ev_count (dget "lockHolders" d) "transactions.lockHolders" in
  let* inputs := ev_count (dget "rawFailureInputs" d) "transactions.rawFailureInputs" in
  let* sanitized := ev_boolean (dget "failureRecordsSanitized" d) "transactions.failureRecordsSanitized" in
  let* status := ev_string (dget "importStatus" d) "transactions.importStatus" 32 in
  if negb (mem status ["ready"; "busy"; "unavailable"])
  then rejected "transactions.importStatus is unsupported"
  else Ok (Transactions holders inputs sanitized status).

Record adapter := Adapter {
  ad_transport : string; ad_http : Z; ad_sha256 : string; ad_signed : bool }.
Definition read_adapter (evidence : dict) : res adapter :=
  let* d := ev_object (dget "adapter" evidence)
    ["transport"; "httpReferences"; "sha256"; "signedArtifactVerified"] "adapter" in
  let* transport := ev_string (dget "transport" d) "adapter.transport" 16 in
  if negb (mem transport ["ssh"; "http"; "unknown"]) then rejected "adapter.transport is unsupported" else
  let* references := ev_count (dget "httpReferences" d) "adapter.httpReferences" in
  let* sha := ev_string (dget "sha256" d) "adapter.sha256" 64 in
  if negb (is_sha256_text sha) then rejected "adapter.sha256 must be a lowercase SHA-256 digest" else
  let* signed := ev_boolean (dget "signedArtifactVerified" d) "adapter.signedArtifactVerified" in
  Ok (Adapter transport references sha signed).

Record consumers := Consumers { cs_legacy : Z; cs_goal_formal : bool; cs_exporter : bool }.
Definition read_consumers (evidence : dict) : res consumers :=
  let* d := ev_object (dget "consumers" evidence)
    ["legacyHealthReaders"; "goalWatchdogFormalHealth"; "legacyExporterRetained"] "consumers" in
  let* legacy := ev_count (dget "legacyHealthReaders" d) "consumers.legacyHealthReaders" in
  let* goal := ev_boolean (dget "goalWatchdogFormalHealth" d) "consumers.goalWatchdogFormalHealth" in
  let* exporter := ev_boolean (dget "legacyExporterRetained" d) "consumers.legacyExporterRetained" in
  Ok (Consumers legacy goal exporter).

Definition read_dependencies (evidence : dict) : res Z :=
  let* d := ev_object (dget "dependencies" evidence) ["requiredUnits"] "dependencies" in
  ev_count (dget "requiredUnits" d) "dependencies.requiredUnits".

Definition ROLLBACK_FIELDS : list string :=
  ["unitSnapshot"; "runtimeSnapshot"; "tokenMetadataSnapshot"; "failureReceiptsSnapshot"; "restorePlan"].
Definition read_rollback (evidence : dict) : res (list bool) :=
  let* d := ev_object (dget "rollback" evidence) ROLLBACK_FIELDS "rollback" in
  map_res (λ k, ev_boolean (dget k d) ("rollback." +:+ k)) ROLLBACK_FIELDS.

(** ** The blockers *)

(** [_blocker]: appends when the condition holds. *)
Definition blocker (blockers : list (string * string)) (condition : bool) (code message : string)
    : list (string * string) :=
  if condition then blockers ++ [(code, message)] else blockers.
Definition add_blocker (blockers : list (string * string)) (check : bool * string * string) :=
  let '(condition, code, message) := check in blocker blockers condition code message.

Definition ROLLBACK_MESSAGES : list (string * string) :=
  [("rollback_unit_missing", "The importer unit snapshot is missing.");
   ("rollback_runtime_missing", "The importer runtime snapshot is missing.");
   ("rollback_token_metadata_missing", "The importer token metadata snapshot is missing.");
   ("rollback_failure_receipts_missing", "The importer failure receipt snapshot is missing.");
   ("rollback_restore_plan_missing", "The importer restore plan is missing.")].

Definition gate_checks (sv : service) (ls : listener) (tr : traffic) (tx : transactions) (ad : adapter)
    (cs : consumers) (required_units : Z) (rollback : list bool) : list (bool * string * string) :=
  [(negb (sv_active sv), "service_not_active", "The legacy importer baseline is not active.");
   (negb (sv_enabled sv), "service_not_enabled", "The legacy importer baseline is not enabled.");
   (negb (sv_stable sv), "service_identity_changed", "The importer identity changed during observation.");
   (negb (ls_port ls =? LISTENER_PORT), "listener_port_changed", "The importer is not on the accepted port.");
   (negb (ls_listening ls), "listener_missing", "The active importer listener is not observable.");
   (0 <? ls_established ls, "established_connections", "An HTTP importer connection is established.");
   (negb (tr_readable tr), "journal_unreadable", "Importer request history was not readable.");
   (0 <? tr_unattributed tr, "unattributed_requests", "Importer requests remain unattributed.");
   (0 <? tr_callers tr, "active_http_callers", "An active HTTP importer caller remains.");
   (0 <? tr_later tr, "later_requests", "Importer requests occurred after the accepted audit.");
   (0 <? tx_holders tx, "import_lock_held", "An import transaction lock is held.");
   (0 <? tx_raw tx, "raw_failure_inputs", "A raw importer failure input remains.");
   (negb (tx_sanitized tx), "failure_records_unsanitized", "Importer failure records are not sanitized.");
   (tx_status tx <>s? "ready", "import_not_ready", "The formal import status is not ready.");
   (ad_transport ad <>s? "ssh", "adapter_not_ssh", "The installed compatibility adapter is not SSH-backed.");
   (0 <? ad_http ad, "adapter_http_reference", "The active adapter still references HTTP import.");
   (negb (ad_signed ad), "adapter_unsigned", "The active adapter was not verified against a signed artifact.");
   (0 <? cs_legacy cs, "legacy_health_readers", "A legacy importer-health reader remains.");
   (negb (cs_goal_formal cs), "goal_watchdog_legacy_health", "The goal watchdog is not on formal Cloudx health.");
   (negb (cs_exporter cs), "legacy_exporter_missing", "The legacy exporter rollback boundary is not retained.");
   (0 <? required_units, "required_units", "A systemd unit still requires the importer.")] ++
  map (λ x : bool * (string * string), (negb x.1, x.2.1, x.2.2)) (combine rollback ROLLBACK_MESSAGES).

(** ** The verdict *)

(** [.encode("utf-8")]: an unpaired surrogate raises [UnicodeEncodeError], a [ValueError]. *)
Definition encode_strict (s : string) : res string :=
  if utf8_valid s then Ok s else raise ValueError "surrogates not allowed".

Definition gate_document (captured_raw digest : string) (blockers : list (string * string)) : dict :=
  let accepted := match blockers with [] => true | _ => false end in
  [("schema", JStr RESULT_SCHEMA);
   ("scope", JStr "migration-only");
   ("capturedAt", JStr captured_raw);
   ("evidenceDigest", JStr ("sha256:" +:+ digest));
   ("status", JStr (if accepted then "preconditions-satisfied" else "blocked"));
   ("preconditionsSatisfied", JBool accepted);
   ("automaticAction", JBool false);
   ("authorization", JDict [("serviceStop", JBool false); ("required", JStr "separate-operator-confirmation")]);
   ("blockers", JList (map (λ b : string * string,
      JDict [("code", JStr b.1); ("message", JStr b.2)]) blockers))].

Definition evaluate (raw : string) : res dict :=
  let* decoded := ev_decode raw in
  let* evidence := ev_object (JDict decoded)
    ["schema"; "capturedAt"; "service"; "listener"; "traffic"; "transactions"; "adapter"; "consumers";
     "dependencies"; "rollback"] "evidence" in
  if negb (eq_str (dget "schema" evidence) EVIDENCE_SCHEMA) then rejected "unsupported evidence schema" else
  let* (captured_raw, captured_at) := ev_timestamp (dget "capturedAt" evidence) "capturedAt" in
  let* sv := read_service evidence in
  let* ls := read_listener evidence in
  let* tr := read_traffic evidence captured_at in
  let* tx := read_transactions evidence in
  let* ad := read_adapter evidence in
  let* cs := read_consumers evidence in
  let* units := read_dependencies evidence in
  let* rollback := read_rollback evidence in
  let blockers := fold_left add_blocker (gate_checks sv ls tr tx ad cs units rollback) [] in
  let* canonical := encode_strict (dumps (st_compact true false) (JDict evidence)) in
  Ok (gate_document captured_raw (sha256 canonical) blockers).

Definition evaluate_stream (stream : string) : res dict :=
  let* raw := read_evidence stream in evaluate raw.

(** ** What the gate requires *)

(** A field of a section of the evidence. *)
Definition at_field (evidence : dict) (section field : string) (v : json) : Prop :=
  ∃ d, dget section evidence = JDict d ∧ dget field d = v.

Definition flags_required : list (string * string) :=
  [("service", "active"); ("service", "enabled"); ("service", "identityStable"); ("listener", "listening");
   ("traffic", "journalReadable"); ("transactions", "failureRecordsSanitized");
   ("adapter", "signedArtifactVerified"); ("consumers", "goalWatchdogFormalHealth");
   ("consumers", "legacyExporterRetained"); ("rollback", "unitSnapshot"); ("rollback", "runtimeSnapshot");
   ("rollback", "tokenMetadataSnapshot"); ("rollback", "failureReceiptsSnapshot"); ("rollback", "restorePlan")].
Definition counts_required : list (string * string) :=
  [("listener", "establishedConnections"); ("traffic", "unattributedRequests"); ("traffic", "activeHttpCallers");
   ("traffic", "laterRequests"); ("transactions", "lockHolders"); ("transactions", "rawFailureInputs");
   ("adapter", "httpReferences"); ("consumers", "legacyHealthReaders"); ("dependencies", "requiredUnits")].

Definition every {A} (P : A → Prop) (l : list A) : Prop := foldr (λ x, and (P x)) True l.

(** The preconditions, read off the evidence itself. *)
Definition preconditions (evidence : dict) : Prop :=
  every (λ f, at_field evidence f.1 f.2 (JBool true)) flags_required ∧
  every (λ f, at_field evidence f.1 f.2 (JInt 0)) counts_required ∧
  at_field evidence "listener" "port" (JInt LISTENER_PORT) ∧
  at_field evidence "transactions" "importStatus" (JStr "ready") ∧
  at_field evidence "adapter" "transport" (JStr "ssh").

(** ** Lemmas *)

Lemma ev_object_dict v keys section d : ev_object v keys section = Ok d → v = JDict d.
Proof.
  unfold ev_object. destruct v as [| | | | | |e]; try done. destruct (keys_are _ _); [|done]. by intros [= ->].
Qed.
Lemma ev_boolean_spec v field b : ev_boolean v field = Ok b → v = JBool b.
Proof. unfold ev_boolean. destruct v; try done. by intros [= ->]. Qed.
Lemma ev_count_spec v field z : ev_count v field = Ok z → v = JInt z ∧ 0 <= z <= 1000000.
Proof.
  unfold ev_count. destruct v as [| |x| | | |]; try done.
  destruct (Z.ltb_spec x 0); [done|]. destruct (Z.ltb_spec 1000000 x); [done|]. intros [= <-]. split; [done|lia].
Qed.
Lemma ev_string_spec v field n s : ev_string v field n = Ok s → v = JStr s.
Proof. unfold ev_string. destruct v; try done. destruct (_ || _); [done|]. by intros [= ->]. Qed.

Lemma ev_decode_plain raw d : ev_decode raw = Ok d → loads_bytes raw = Ok (JDict d).
Proof.
  unfold ev_decode, loads_bytes, decode_res. intros H. destruct (_ =s? _); [done|]. destruct (_ <? _); [done|].
  destruct (decode_utf8 raw) as [text|]; [|done].
  destruct (loads_hook unique_object text) as [v|e] eqn:E; [|by destruct (catches _ _)].
  apply loads_hook_plain in E; [|clear].
  - rewrite E. destruct v; try done. by injection H as ->.
  - intros ps v. unfold unique_object, dict_of_pairs. intros H.
    destruct (fold_res _ _ _) as [d|] eqn:E; [|done]. injection H as <-. f_equal.
    revert E. generalize (@nil (string * json)). induction ps as [|[k x] ps IH]; intros acc; cbn.
    + by intros [= ->].
    + destruct (dmem k acc); [done|]. apply IH.
Qed.

Lemma fold_blockers checks l :
  fold_left add_blocker checks l =
    l ++ map (λ c, (c.1.2, c.2)) (List.filter (λ c : bool * string * string, c.1.1) checks).
Proof.
  revert l. induction checks as [|[[b code] msg] checks IH]; intros l; cbn; [by rewrite app_nil_r|].
  rewrite IH. unfold blocker. destruct b; [|done]. by rewrite <- app_assoc.
Qed.

(** One step of a reader: the next field is read and its test passed. *)
Ltac read_step H :=
  match type of H with
  | context [match ev_object ?v ?k ?s with _ => _ end] =>
      let E := fresh "E" in destruct (ev_object v k s) eqn:E; [|discriminate H]; apply ev_object_dict in E
  | context [match ev_boolean ?v ?f with _ => _ end] =>
      let E := fresh "E" in destruct (ev_boolean v f) eqn:E; [|discriminate H]; apply ev_boolean_spec in E
  | context [match ev_count ?v ?f with _ => _ end] =>
      let E := fresh "E" in destruct (ev_count v f) eqn:E; [|discriminate H]; apply ev_count_spec in E as [E ?]
  | context [match ev_string ?v ?f ?n with _ => _ end] =>
      let E := fresh "E" in destruct (ev_string v f n) eqn:E; [|discriminate H]; apply ev_string_spec in E
  | context [match ev_optional_timestamp ?v ?f with _ => _ end] =>
      destruct (ev_optional_timestamp v f); [|discriminate H]
  | context [if ?b then rejected _ else _] => destruct b; [discriminate H|]
  end.
Ltac read_all H := repeat read_step H; try (injection H as <-).

Lemma at_field_eq ev s f v w : at_field ev s f v → (at_field ev s f w ↔ v = w).
Proof.
  intros (d & Hd & <-). split; [|intros <-; by exists d].
  intros (d' & Hd' & <-). rewrite Hd in Hd'. by injection Hd' as ->.
Qed.
Lemma at_flag ev s f b : at_field ev s f (JBool b) → (at_field ev s f (JBool true) ↔ negb b = false).
Proof. intros H. rewrite (at_field_eq _ _ _ _ _ H). destruct b; simpl; naive_solver. Qed.
Lemma at_count ev s f z :
  at_field ev s f (JInt z) ∧ 0 <= z → (at_field ev s f (JInt 0) ↔ (0 <? z) = false).
Proof. intros [H ?]. rewrite (at_field_eq _ _ _ _ _ H), Z.ltb_ge. split; [intros [= ->]; lia|]. intros. f_equal. lia. Qed.
Lemma at_text ev s f x y : at_field ev s f (JStr x) → (at_field ev s f (JStr y) ↔ (x <>s? y) = false).
Proof.
  intros H. rewrite (at_field_eq _ _ _ _ _ H). destruct (eqs_spec x y); simpl; naive_solver.
Qed.
Lemma at_number ev s f x y : at_field ev s f (JInt x) → (at_field ev s f (JInt y) ↔ negb (x =? y) = false).
Proof. intros H. rewrite (at_field_eq _ _ _ _ _ H). destruct (Z.eqb_spec x y); simpl; naive_solver. Qed.

Ltac fields H := read_all H; unfold at_field; cbn; split_and!; eauto; tauto.

Lemma read_service_spec ev sv : read_service ev = Ok sv →
  at_field ev "service" "active" (JBool (sv_active sv)) ∧
  at_field ev "service" "enabled" (JBool (sv_enabled sv)) ∧
  at_field ev "service" "identityStable" (JBool (sv_stable sv)).
Proof. unfold read_service. intros H. fields H. Qed.
Lemma read_listener_spec ev ls : read_listener ev = Ok ls →
  at_field ev "listener" "port" (JInt (ls_port ls)) ∧
  at_field ev "listener" "listening" (JBool (ls_listening ls)) ∧
  (at_field ev "listener" "establishedConnections" (JInt (ls_established ls)) ∧ 0 <= ls_established ls).
Proof. unfold read_listener. intros H. fields H. Qed.
Lemma read_traffic_spec ev t tr : read_traffic ev t = Ok tr →
  at_field ev "traffic" "journalReadable" (JBool (tr_readable tr)) ∧
  (at_field ev "traffic" "unattributedRequests" (JInt (tr_unattributed tr)) ∧ 0 <= tr_unattributed tr) ∧
  (at_field ev "traffic" "activeHttpCallers" (JInt (tr_callers tr)) ∧ 0 <= tr_callers tr) ∧
  (at_field ev "traffic" "laterRequests" (JInt (tr_later tr)) ∧ 0 <= tr_later tr).
Proof. unfold read_traffic. intros H. fields H. Qed.
Lemma read_transactions_spec ev tx : read_transactions ev = Ok tx →
  (at_field ev "transactions" "lockHolders" (JInt (tx_holders tx)) ∧ 0 <= tx_holders tx) ∧
  (at_field ev "transactions" "rawFailureInputs" (JInt (tx_raw tx)) ∧ 0 <= tx_raw tx) ∧
  at_field ev "transactions" "failureRecordsSanitized" (JBool (tx_sanitized tx)) ∧
  at_field ev "transactions" "importStatus" (JStr (tx_status tx)).
Proof. unfold read_transactions. intros H. fields H. Qed.
Lemma read_adapter_spec ev ad : read_adapter ev = Ok ad →
  at_field ev "adapter" "transport" (JStr (ad_transport ad)) ∧
  (at_field ev "adapter" "httpReferences" (JInt (ad_http ad)) ∧ 0 <= ad_http ad) ∧
  at_field ev "adapter" "signedArtifactVerified" (JBool (ad_signed ad)).
Proof. unfold read_adapter. intros H. fields H. Qed.
Lemma read_consumers_spec ev cs : read_consumers ev = Ok cs →
  (at_field ev "consumers" "legacyHealthReaders" (JInt (cs_legacy cs)) ∧ 0 <= cs_legacy cs) ∧
  at_field ev "consumers" "goalWatchdogFormalHealth" (JBool (cs_goal_formal cs)) ∧
  at_field ev "consumers" "legacyExporterRetained" (JBool (cs_exporter cs)).
Proof. unfold read_consumers. intros H. fields H. Qed.
Lemma read_dependencies_spec ev units : read_dependencies ev = Ok units →
  at_field ev "dependencies" "requiredUnits" (JInt units) ∧ 0 <= units.
Proof.
  unfold read_dependencies. intros H. read_step H. apply ev_count_spec in H as [H ?].
  unfold at_field. split; [eauto|lia].
Qed.
Lemma read_rollback_spec ev l : read_rollback ev = Ok l →
  ∃ unit runtime token receipts plan, l = [unit; runtime; token; receipts; plan] ∧
  at_field ev "rollback" "unitSnapshot" (JBool unit) ∧
  at_field ev "rollback" "runtimeSnapshot" (JBool runtime) ∧
  at_field ev "rollback" "tokenMetadataSnapshot" (JBool token) ∧
  at_field ev "rollback" "failureReceiptsSnapshot" (JBool receipts) ∧
  at_field ev "rollback" "restorePlan" (JBool plan).
Proof.
  unfold read_rollback. intros H. read_step H. apply map_res_Forall2 in H.
  apply Forall2_cons_inv_l in H as (b1 & ? & H1%ev_boolean_spec & H & ->).
  apply Forall2_cons_inv_l in H as (b2 & ? & H2%ev_boolean_spec & H & ->).
  apply Forall2_cons_inv_l in H as (b3 & ? & H3%ev_boolean_spec & H & ->).
  apply Forall2_cons_inv_l in H as (b4 & ? & H4%ev_boolean_spec & H & ->).
  apply Forall2_cons_inv_l in H as (b5 & ? & H5%ev_boolean_spec & H & ->).
  apply Forall2_nil_inv_l in H as ->.
  exists b1, b2, b3, b4, b5. unfold at_field. split_and!; eauto.
Qed.

(** The gate is clear when no check fires. *)
Definition clear (checks : list (bool * string * string)) : Prop := every (λ c, c.1.1 = false) checks.

Lemma clear_blockers checks : fold_left add_blocker checks [] = [] ↔ clear checks.
Proof.
  rewrite fold_blockers. cbn [app]. unfold clear, every. induction checks as [|[[b code] msg] checks IH]; cbn; [done|].
  destruct b; [split; [done|intros []; done]|]. rewrite IH. tauto.
Qed.

Lemma clear_preconditions ev t sv ls tr tx ad cs units rollback :
  read_service ev = Ok sv → read_listener ev = Ok ls → read_traffic ev t = Ok tr →
  read_transactions ev = Ok tx → read_adapter ev = Ok ad → read_consumers ev = Ok cs →
  read_dependencies ev = Ok units → read_rollback ev = Ok rollback →
  clear (gate_checks sv ls tr tx ad cs units rollback) ↔ preconditions ev.
Proof.
  intros (S1 & S2 & S3)%read_service_spec (L1 & L2 & L3)%read_listener_spec
    (T1 & T2 & T3 & T4)%read_traffic_spec (X1 & X2 & X3 & X4)%read_transactions_spec
    (A1 & A2 & A3)%read_adapter_spec (C1 & C2 & C3)%read_consumers_spec D1%read_dependencies_spec
    (b1 & b2 & b3 & b4 & b5 & -> & R1 & R2 & R3 & R4 & R5)%read_rollback_spec.
  unfold clear, preconditions, every, gate_checks, flags_required, counts_required, ROLLBACK_MESSAGES.
  cbn [app map combine foldr fst snd].
  rewrite (at_flag _ _ _ _ S1), (at_flag _ _ _ _ S2), (at_flag _ _ _ _ S3), (at_number _ _ _ _ _ L1),
    (at_flag _ _ _ _ L2), (at_count _ _ _ _ L3), (at_flag _ _ _ _ T1), (at_count _ _ _ _ T2),
    (at_count _ _ _ _ T3), (at_count _ _ _ _ T4), (at_count _ _ _ _ X1), (at_count _ _ _ _ X2),
    (at_flag _ _ _ _ X3), (at_text _ _ _ _ _ X4), (at_text _ _ _ _ _ A1), (at_count _ _ _ _ A2),
    (at_flag _ _ _ _ A3), (at_count _ _ _ _ C1), (at_flag _ _ _ _ C2), (at_flag _ _ _ _ C3),
    (at_count _ _ _ _ D1), (at_flag _ _ _ _ R1), (at_flag _ _ _ _ R2), (at_flag _ _ _ _ R3),
    (at_flag _ _ _ _ R4), (at_flag _ _ _ _ R5).
  tauto.
Qed.

(** C40: the gate's verdict is exact: whatever the bytes, a verdict says that the
    preconditions hold exactly when every flag is true, every count zero, the port, the
    status and the transport as required in the evidence as [json.loads] reads it; it
    carries the digest of that evidence and never authorises an action. *)
Theorem gate_exact raw doc :
  evaluate raw = Ok doc →
  ∃ ev accepted,
    loads_bytes raw = Ok (JDict ev) ∧
    dget "preconditionsSatisfied" doc = JBool accepted ∧
    (accepted = true ↔ preconditions ev) ∧
    (accepted = true ↔ dget "blockers" doc = JList []) ∧
    dget "evidenceDigest" doc =
      JStr ("sha256:" +:+ sha256 (dumps (st_compact true false) (JDict ev))) ∧
    dget "automaticAction" doc = JBool false ∧
    at_field doc "authorization" "serviceStop" (JBool false).
Proof.
  unfold evaluate. intros H. destruct (ev_decode raw) as [d|] eqn:Hd; [|done].
  apply ev_decode_plain in Hd. read_step H. injection E as ->.
  destruct (negb _); [done|]. destruct (ev_timestamp _ _) as [[text t]|]; [|done].
  destruct (read_service _) as [sv|] eqn:H1; [|done]. destruct (read_listener _) as [ls|] eqn:H2; [|done].
  destruct (read_traffic _ _) as [tr|] eqn:H3; [|done]. destruct (read_transactions _) as [tx|] eqn:H4; [|done].
  destruct (read_adapter _) as [ad|] eqn:H5; [|done]. destruct (read_consumers _) as [cs|] eqn:H6; [|done].
  destruct (read_dependencies _) as [units|] eqn:H7; [|done].
  destruct (read_rollback _) as [rb|] eqn:H8; [|done].
  pose proof (clear_preconditions _ _ _ _ _ _ _ _ _ _ H1 H2 H3 H4 H5 H6 H7 H8) as Hp.
  rewrite <- clear_blockers in Hp. revert H Hp. generalize (fold_left add_blocker (gate_checks sv ls tr tx ad cs units rb) []).
  intros blockers H Hp. unfold encode_strict in H. destruct (utf8_valid _); [|done]. injection H as <-.
  eexists _, (match blockers with [] => true | _ => false end). rewrite Hd.
  split_and!; try reflexivity.
  - rewrite <- Hp. by destruct blockers.
  - by destruct blockers.
  - by eexists.
Qed.

Definition sample_evidence : string :=
  dumps (st_compact false true) (JDict
    [("schema", JStr EVIDENCE_SCHEMA); ("capturedAt", JStr "2026-01-02T03:04:05Z");
     ("service", JDict [("name", JStr SERVICE_NAME); ("active", JBool true); ("enabled", JBool true);
                        ("identityStable", JBool true)]);
     ("listener", JDict [("port", JInt 8780); ("listening", JBool true); ("establishedConnections", JInt 0)]);
     ("traffic", JDict [("journalReadable", JBool true); ("lastRequestAt", JStr "2026-01-01T21:00:00-05:00");
                        ("unattributedRequests", JInt 0); ("activeHttpCallers", JInt 0);
                        ("laterRequests", JInt 0)]);
     ("transactions", JDict [("lockHolders", JInt 0); ("rawFailureInputs", JInt 0);
                             ("failureRecordsSanitized", JBool true); ("importStatus", JStr "ready")]);
     ("adapter", JDict [("transport", JStr "ssh"); ("httpReferences", JInt 0);
                        ("sha256", JStr (sha256 "")); ("signedArtifactVerified", JBool true)]);
     ("consumers", JDict [("legacyHealthReaders", JInt 0); ("goalWatchdogFormalHealth", JBool true);
                          ("legacyExporterRetained", JBool true)]);
     ("dependencies", JDict [("requiredUnits", JInt 0)]);
     ("rollback", JDict (map (λ k, (k, JBool true)) ROLLBACK_FIELDS))]).

Lemma sample_verdict :
  match evaluate sample_evidence with
  | Ok doc => dget "preconditionsSatisfied" doc = JBool true
  | Raise _ => False
  end.
Proof. by vm_compute. Qed.

Lemma gate_exact_witness :
  ∃ doc ev, evaluate sample_evidence = Ok doc ∧ loads_bytes sample_evidence = Ok (JDict ev) ∧
    preconditions ev ∧ dget "blockers" doc = JList [].
Proof.
  pose proof sample_verdict as Hs. destruct (evaluate sample_evidence) as [doc|e] eqn:E; [|destruct Hs].
  destruct (gate_exact sample_evidence doc E) as (ev & accepted & Hl & Ha & Hp & Hb & _).
  rewrite Hs in Ha. injection Ha as <-.
  exists doc, ev. split; [reflexivity|]. split; [exact Hl|]. split; [by apply Hp|by apply Hb].
Defined.
