(* ===== verification/Releases.v ===== *)
(** * Releases and their selectors

    What [cloud/cloudx_cloud/release.py] and [local/cloudx_local/updater.py] share, in the
    same words: version numbers, the links [current] and [previous] that select a release,
    their atomic replacement and the search for an earlier release.  Mapped to [release.py];
    the entries of a directory are visited in the order of their names. *)

From S2P Require Import Prelude PyStr PyFloat PyValue PyJson FS Wp FileData CpaAuth LocalConfig PySha.

Definition version : Type := Z * Z * Z.
Definition version_eqb (a b : version) : bool := bool_decide (a = b).
(** The order of tuples. *)
Definition version_ltb (a b : version) : bool :=
  let '(a1, a2, a3) := a in let '(b1, b2, b3) := b in
  (a1 <? b1) || ((a1 =? b1) && ((a2 <? b2) || ((a2 =? b2) && (a3 <? b3)))).

(** [$] also matches before a final line feed, which [int] ignores. *)
Definition before_final_lf (s : string) : string := if ends_with LF s then drop_last 1 s else s.
Definition three_numbers (s : string) : option version :=
  match split_char "." s with
  | [a; b; c] =>
      if all_digits a && all_digits b && all_digits c
      then Some (digits_val 0 a, digits_val 0 b, digits_val 0 c) else None
  | _ => None
  end.

(** [digest]: the file is read to its end. *)
Definition file_digest (p : path) : M string := let! data := read_bytes p in ret (sha256 data).

Section selectors.
Context (pid : Z).

Definition temporary_link (link : path) : path :=
  child (p_parent link) ("." +:+ p_name link +:+ "." +:+ str_of_Z pid).
Definition atomic_link (link target : path) : M unit :=
  mkdir_parents (p_parent link) 511 ;;
  let temporary := temporary_link link in
  unlink_missing_ok temporary ;;
  symlink_to temporary target ;;
  replace temporary link.
End selectors.

Section staged.
Context (version_tuple : string → res version).

(** [max(candidates, key=...)]: the first of the greatest. *)
Definition better (best : option (version * path)) (parsed : version) (p : path) : option (version * path) :=
  match best with
  | Some (v, _) => if version_ltb v parsed then Some (parsed, p) else best
  | None => Some (parsed, p)
  end.

Definition staged_step (releases : path) (version artifact_name : string)
    (best : option (Releases.version * path)) (name : string) : M (option (Releases.version * path)) :=
  let p := child releases name in
  let! directory := is_dir_p p in
  if negb directory then ret best else
  let! complete := is_file_p (path_join p artifact_name) in
  if negb complete then ret best else
  match version_tuple name with
  | Raise e => if catches RuntimeError (exn_cls e) then ret best else throw e
  | Ok parsed =>
      let! limit := lift (version_tuple version) in
      ret (if version_ltb parsed limit then better best parsed p else best)
  end.

Definition latest_staged_before (root : path) (version artifact_name : string) : M (option path) :=
  let releases := child root "releases" in
  let! present := is_dir_p releases in
  if negb present then ret None else
  let! names := (sys ;; let! f := get_fs in ret (child_names f releases)) in
  let! best := mfold (staged_step releases version artifact_name) None names in
  ret (match best with Some (_, p) => Some p | None => None end).
End staged.

(** ** What replacing a link does *)

Lemma child_parent' dir n : p_parent (child dir n) = dir.
Proof. unfold p_parent, child. destruct dir as [a l]. simpl. by rewrite removelast_last. Qed.
Lemma child_last dir n : p_name (child dir n) = n.
Proof. unfold p_name, child. simpl. apply last_last. Qed.
Lemma child_eq dir n dir' n' : child dir n = child dir' n' → dir = dir' ∧ n = n'.
Proof.
  intros H. split.
  - by rewrite <- (child_parent' dir n), <- (child_parent' dir' n'), H.
  - by rewrite <- (child_last dir n), <- (child_last dir' n'), H.
Qed.

(** The target of the link at a path. *)
Definition link_at (f : fs) (p : path) : option path :=
  match f !! p with Some (Link t) => Some t | _ => None end.

(** Outside [T] nothing changed but directories that were missing. *)
Definition relinked (T : path → Prop) (f g : fs) : Prop :=
  ∀ p, ¬ T p → g !! p = f !! p ∨ (f !! p = None ∧ ∃ m, g !! p = Some (Dir m)).

Lemma relinked_refl T f : relinked T f f.
Proof. by intros p _; left. Qed.
Lemma relinked_dirs T f g : dirs_added f g → relinked T f g.
Proof. intros H p _. apply H. Qed.
Lemma relinked_trans T f g h : relinked T f g → relinked T g h → relinked T f h.
Proof.
  intros H1 H2 p Hp. destruct (H1 p Hp) as [E1|[E1 [m E1']]], (H2 p Hp) as [E2|[E2 [m' E2']]].
  - left. congruence.
  - right. split; [congruence|eauto].
  - right. split; [done|]. exists m. congruence.
  - congruence.
Qed.
Lemma relinked_weaken (T U : path → Prop) f g : (∀ p, T p → U p) → relinked T f g → relinked U f g.
Proof. intros HT H p Hp. apply H. auto. Qed.
Lemma relinked_insert (T : path → Prop) f p n : T p → relinked T f (<[p := n]> f).
Proof. intros HT q Hq. left. apply lookup_insert_ne. by intros ->. Qed.
Lemma relinked_delete (T : path → Prop) f p : T p → relinked T f (delete p f).
Proof. intros HT q Hq. left. apply lookup_delete_ne. by intros ->. Qed.
Lemma relinked_file T f g p d m :
  relinked T f g → ¬ T p → f !! p = Some (File d m) → g !! p = Some (File d m).
Proof. intros H HT E. destruct (H p HT) as [->|[E' _]]; congruence. Qed.
Lemma relinked_link T f g p : relinked T f g → ¬ T p → link_at g p = link_at f p.
Proof. intros H HT. unfold link_at. by destruct (H p HT) as [->|[-> [m ->]]]. Qed.
Lemma dirs_added_link f g p : dirs_added f g → link_at g p = link_at f p.
Proof. intros H. unfold link_at. by destruct (H p) as [->|[-> [m ->]]]. Qed.

Lemma wp_unlink_missing_ok p E f k (Φ : res unit → world → Prop) :
  (∀ k, Φ (Ok tt) (World f k)) → (∀ k, Φ (Ok tt) (World (delete p f) k)) →
  (∀ e k, os_exn e → Φ (Raise e) (World f k)) →
  wp (unlink_missing_ok p) E (World f k) Φ.
Proof.
  intros H1 H2 Hr. unfold unlink_missing_ok, unlink. apply wp_bind, wp_get_fs.
  destruct (f !! p) as [n|] eqn:Hp.
  - apply wp_bind, wp_sys; [intros k1|intros; by apply Hr]. apply wp_bind, wp_get_fs. rewrite Hp.
    destruct n; try (unfold wp, put_fs; simpl; apply H2). by apply wp_throw, Hr.
  - apply wp_sys; [apply H1|intros; by apply Hr].
Qed.

Lemma wp_symlink_to p target E f k (Φ : res unit → world → Prop) :
  (∀ k, f !! p = None → Φ (Ok tt) (World (<[p := Link target]> f) k)) →
  (∀ e k, os_exn e → Φ (Raise e) (World f k)) →
  wp (symlink_to p target) E (World f k) Φ.
Proof.
  intros Ho Hr. unfold symlink_to. apply wp_bind, wp_sys; [intros k1|intros; by apply Hr].
  apply wp_bind, wp_get_fs. destruct (f !! p) eqn:Hp; [by apply wp_throw, Hr|].
  destruct (parent_is_dir f p); [|by apply wp_throw, Hr]. unfold update, wp, put_fs. simpl. by apply Ho.
Qed.

Lemma wp_replace_node src dst E f k (Φ : res unit → world → Prop) :
  (∀ n k, f !! src = Some n → Φ (Ok tt) (World (<[dst := n]> (delete src f)) k)) →
  (∀ e k, os_exn e → Φ (Raise e) (World f k)) →
  wp (replace src dst) E (World f k) Φ.
Proof.
  intros Ho Hr. unfold replace. apply wp_bind, wp_sys; [intros k1|intros; by apply Hr].
  apply wp_bind, wp_get_fs.
  destruct (f !! src) as [n|] eqn:Hs; [|by apply wp_throw, Hr].
  destruct n, (f !! dst) as [[]|]; try (by apply wp_throw, Hr);
    (destruct (parent_is_dir f dst); [|by apply wp_throw, Hr]); unfold wp, put_fs; simpl; by apply Ho.
Qed.

(** A loop that leaves the files alone, by an invariant of its accumulator. *)
Lemma wp_mfold_pure {A S} (step : S → A → M S) (P : S → Prop) l s E f k (Φ : res S → world → Prop) :
  (∀ s a k (Ψ : res S → world → Prop), P s → (∀ s' k, P s' → Ψ (Ok s') (World f k)) →
     (∀ e k, Ψ (Raise e) (World f k)) → wp (step s a) E (World f k) Ψ) →
  P s → (∀ s k, P s → Φ (Ok s) (World f k)) → (∀ e k, Φ (Raise e) (World f k)) →
  wp (mfold step s l) E (World f k) Φ.
Proof.
  intros Hstep Hs Ho Hr. revert s k Hs. induction l as [|a l IH]; intros s k Hs; simpl.
  - by apply wp_ret, Ho.
  - apply wp_bind, Hstep; [done| |intros; apply Hr]. intros s' k' Hs'. by apply IH.
Qed.

Section selector_facts.
Context (pid : Z).

Definition link_paths (link : path) : path → Prop := λ p, p = link ∨ p = temporary_link pid link.

Lemma temporary_ne dir name : temporary_link pid (child dir name) ≠ child dir name.
Proof.
  unfold temporary_link. rewrite child_parent', child_last. intros [_ H]%child_eq.
  apply (f_equal String.length) in H. rewrite !str_length_app in H. simpl in H. lia.
Qed.

Lemma wp_atomic_link dir name target E f k (Φ : res unit → world → Prop) :
  let link := child dir name in
  (∀ g k, relinked (link_paths link) f g → g !! link = Some (Link target) → Φ (Ok tt) (World g k)) →
  (∀ e g k, os_exn e → relinked (link_paths link) f g → link_at g link = link_at f link →
     Φ (Raise e) (World g k)) →
  wp (atomic_link pid link target) E (World f k) Φ.
Proof.
  intros link Ho Hr. unfold atomic_link. apply wp_bind, wp_mkdir_parents.
  2: { intros e g k1 He Hd. apply Hr; [done|by apply relinked_dirs|by apply dirs_added_link]. }
  intros f1 k1 Hd. set (t := temporary_link pid link).
  assert (Hne : t ≠ link) by apply temporary_ne.
  assert (HT : link_paths link t) by by right.
  assert (Hf1 : relinked (link_paths link) f f1) by by apply relinked_dirs.
  assert (Hl1 : link_at f1 link = link_at f link) by by apply dirs_added_link.
  assert (Hgo : ∀ f2 k2, relinked (link_paths link) f f2 → link_at f2 link = link_at f link →
    wp (symlink_to t target ;; replace t link) E (World f2 k2) Φ).
  { intros f2 k2 H2 Hl2. apply wp_bind, wp_symlink_to; [|intros; by apply Hr].
    intros k3 Ht. apply wp_replace_node.
    - intros n k4. rewrite lookup_insert_eq. intros [= <-]. apply Ho; [|by rewrite lookup_insert_eq].
      eapply relinked_trans; [done|]. eapply relinked_trans; [by apply relinked_insert|].
      eapply relinked_trans; [by apply relinked_delete|]. apply relinked_insert. by left.
    - intros e k4 He. apply Hr; [done| |].
      + eapply relinked_trans; [done|]. by apply relinked_insert.
      + unfold link_at. rewrite lookup_insert_ne by done. exact Hl2. }
  apply wp_bind, wp_unlink_missing_ok; [intros; by apply Hgo| |intros; by apply Hr].
  intros k2. apply Hgo.
  - eapply relinked_trans; [done|]. by apply relinked_delete.
  - unfold link_at. rewrite lookup_delete_ne by done. exact Hl1.
Qed.
End selector_facts.
