(* ===== verification/CloudRelease.v ===== *)
(** * Installed releases of the cloud helper ([cloud/cloudx_cloud/release.py])

    A release is a directory under [releases], named by its version; the link [current]
    selects the active one and [previous] the one a rollback returns to. *)

From S2P Require Import Prelude PyStr PyFloat PyValue PyJson FS LocalConfig CpaAuth Releases.

Definition ARTIFACT : string := "cloudx-cloud.pyz".
Definition release_error {A} (msg : string) : M A := mraise RuntimeError msg.

Definition version_tuple (value : string) : res version :=
  match three_numbers (before_final_lf value) with
  | Some v => Ok v
  | None => raise RuntimeError "invalid release version"
  end.

Section release.
Context (root : path) (pid : Z).

Definition release_link_version (name : string) : M (option string) :=
  let link := child root name in
  let! is_link := is_symlink_p link in
  if negb is_link then
    let! present := exists_p link in
    if present then release_error ("cloud release " +:+ name +:+ " is not a symlink") else ret None
  else
    let! target := resolve_lax link in
    let! releases := resolve_lax (child root "releases") in
    if negb (bool_decide (p_parent target = releases))
    then release_error ("cloud release " +:+ name +:+ " points outside the release root") else
    let version := p_name target in
    let! _ := lift (version_tuple version) in
    let! complete := is_file_p (child target ARTIFACT) in
    if negb complete then release_error ("cloud release " +:+ name +:+ " target is incomplete")
    else ret (Some version).

Definition release_dir (version : string) : path := path_join (child root "releases") version.

Definition release_status : M dict :=
  let! current := release_link_version "current" in
  let! previous := release_link_version "previous" in
  let! digest := match current with
                 | Some v => let! d := file_digest (child (release_dir v) ARTIFACT) in ret (Some d)
                 | None => ret None
                 end in
  ret [("schema", JStr "cloudx.release-status.v1");
       ("status", JStr (match current with Some _ => "active" | None => "inactive" end));
       ("currentVersion", opt_str current);
       ("previousVersion", opt_str previous);
       ("currentArtifactSha256", opt_str digest)].

(** The comparison is made only when there is a current version. *)
Definition refuse_downgrade (version : string) (current_version : option string) : M unit :=
  match current_version with
  | None => ret tt
  | Some current =>
      let! new := lift (version_tuple version) in
      let! old := lift (version_tuple current) in
      if version_ltb new old
      then release_error "release activation would be a downgrade; use rollback" else ret tt
  end.

(** The selection of [previous] after [current] has moved to [destination]. *)
Definition keep_previous (version : string) (old_target : option path) (destination : path) : M unit :=
  let previous := child root "previous" in
  let fallback :=
    let! present := is_symlink_p previous in
    if present then ret tt else
    let! earlier := latest_staged_before version_tuple root version ARTIFACT in
    match earlier with Some p => atomic_link pid previous p | None => ret tt end in
  match old_target with
  | Some old => if negb (bool_decide (old = destination)) then atomic_link pid previous old else fallback
  | None => fallback
  end.

Definition activation_document (schema version : string) (observed : dict) : dict :=
  [("schema", JStr schema); ("version", JStr version); ("status", JStr "active");
   ("previousVersion", dget "previousVersion" observed)].

Definition activate (version confirmation : string) : M dict :=
  if confirmation <>s? version
  then release_error "release activation confirmation does not match the version" else
  let! current_version := release_link_version "current" in
  refuse_downgrade version current_version ;;
  let destination := release_dir version in
  let! staged := is_file_p (child destination ARTIFACT) in
  if negb staged then release_error "cloud release is not staged" else
  atomic_link pid (child root "current") destination ;;
  keep_previous version (option_map release_dir current_version) destination ;;
  let! observed := release_status in
  ret (activation_document "cloudx.release-activate.v1" version observed).

Definition rollback (confirmation : string) : M dict :=
  let! selected := release_link_version "previous" in
  match selected with
  | None => release_error "no previous cloud release is available"
  | Some version =>
      if confirmation <>s? version
      then release_error "rollback confirmation does not match the previous version" else
      let! current_version := release_link_version "current" in
      let old_current := option_map release_dir current_version in
      let target := release_dir version in
      atomic_link pid (child root "current") target ;;
      (match old_current with
       | Some old => if negb (bool_decide (old = target)) then atomic_link pid (child root "previous") old
                     else ret tt
       | None => ret tt
       end) ;;
      let! observed := release_status in
      ret (activation_document "cloudx.release-rollback.v1" version observed)
  end.
End release.
