(* ===== verification/CloudReleaseFacts.v ===== *)
(** * The selectors of the cloud helper always select a release

    Whatever calls fail, [activate] and [rollback] change nothing but the two selectors (and
    the temporary links they are made from), and each selector goes on naming a directory with
    an artifact in it.  Without failures a rollback undoes an activation. *)

From S2P Require Import Prelude PyStr PyFloat PyValue PyJson PySha FS Wp FileData LocalConfig CpaAuth.
From S2P Require Import AccountContract Releases CloudRelease.

(** ** Versions and paths *)

Lemma split_char_clean c s : str_forall (λ d, negb (Ascii.eqb c d)) s = true → split_char c s = [s].
Proof.
  induction s as [|d s IH]; [done|]. simpl. destruct (Ascii.eqb c d); [done|]. intros H. by rewrite IH.
Qed.

Lemma split_char_join c s : str_join (String c "") (split_char c s) = s.
Proof.
  induction s as [|d s IH]; [done|]. simpl. destruct (Ascii.eqb_spec c d) as [->|].
  - destruct (split_char d s) as [|x xs] eqn:E; [by destruct s; simpl in E; repeat case_match|].
    change (String d (str_join (String d "") (x :: xs)) = String d s). by rewrite IH.
  - destruct (split_char c s) as [|x xs]; [by destruct s; simpl in IH|].
    destruct xs; simpl in *; by rewrite <- IH.
Qed.

Lemma str_forall_split c f s :
  f c = true → Forall (λ x, str_forall f x = true) (split_char c s) → str_forall f s = true.
Proof.
  intros Hc. induction s as [|d s IH]; [done|]. simpl. destruct (Ascii.eqb_spec c d) as [->|].
  - intros [_ H]%Forall_cons. by rewrite Hc, IH.
  - destruct (split_char c s) as [|x xs].
    + intros [H _]%Forall_cons. simpl in H. rewrite andb_true_r in H. rewrite H. by apply IH.
    + intros [H Hx]%Forall_cons. simpl in H. apply andb_true_iff in H as [-> H]. apply IH. by constructor.
Qed.

Definition version_char (c : ascii) : bool := is_digit c || Ascii.eqb c "." || Ascii.eqb c (ascii_of_nat 10).

Lemma before_final_spec s : s = before_final_lf s ∨ s = before_final_lf s +:+ LF.
Proof.
  unfold before_final_lf, ends_with. destruct (String.prefix (str_rev LF) (str_rev s)) eqn:E; [|by left].
  right. change (str_rev LF) with LF in E. destruct (str_rev s) as [|c r] eqn:Er; [done|].
  destruct (decide (ascii_of_nat 10 = c)) as [<-|Hc].
  2: { unfold LF, chr in E. by rewrite prefix_cons_ne in E. }
  assert (s = str_rev r +:+ LF) as ->.
  { rewrite <- (str_rev_involutive s), Er.
    change (String (ascii_of_nat 10) r) with (LF +:+ r). by rewrite str_rev_app. }
  unfold drop_last. rewrite str_length_app. change (String.length LF) with 1%nat.
  by rewrite Nat.add_sub, str_take_app.
Qed.

Lemma version_chars s v : version_tuple s = Ok v → str_forall version_char s = true.
Proof.
  unfold version_tuple, three_numbers. intros H.
  assert (Hb : str_forall version_char (before_final_lf s) = true).
  { apply (str_forall_split "."); [done|].
    destruct (split_char "." (before_final_lf s)) as [|a [|b [|c [|]]]]; try done.
    destruct (all_digits a) eqn:Ha; [|done]. destruct (all_digits b) eqn:Hb; [|done].
    destruct (all_digits c) eqn:Hc; [|done].
    unfold all_digits in *. apply andb_true_iff in Ha as [Ha _], Hb as [Hb _], Hc as [Hc _].
    assert (Hm : ∀ x, is_digit x = true → version_char x = true) by (intros x Hx; unfold version_char; by rewrite Hx).
    repeat constructor; (eapply str_forall_mono; [exact Hm|assumption]). }
  destruct (before_final_spec s) as [E|E]; rewrite E; [exact Hb|].
  by rewrite str_forall_app, Hb.
Qed.

Lemma version_parts s v : version_tuple s = Ok v → path_parts s = [s] ∧ starts_with "/" s = false.
Proof.
  intros H. pose proof (version_chars s v H) as Hc.
  assert (Hs : str_forall (λ d, negb (Ascii.eqb "/" d)) s = true).
  { eapply str_forall_mono; [|exact Hc]. intros d. by destruct d as [[][][][][][][][]]. }
  unfold path_parts. rewrite split_char_clean by done. cbn [List.filter].
  destruct (eqs_spec s "") as [->|]; [done|]. destruct (eqs_spec s ".") as [->|]; [done|].
  split; [done|]. destruct s as [|d s]; [done|]. simpl in Hc. apply andb_true_iff in Hc as [Hc _].
  by destruct d as [[][][][][][][][]].
Qed.

Lemma drop_dots_last d l x :
  drop_dots d (l ++ [x]) =
    if x =s? ".." then List.removelast (drop_dots d l) else drop_dots d l ++ [x].
Proof. revert d. induction l as [|y l IH]; intros d; simpl; [by destruct (x =s? "..")|apply IH]. Qed.

(** ** The layout of a release root *)

Section facts.
Context (root : path) (pid : Z).

Let cur := child root "current".
Let prev := child root "previous".
Let rels := child root "releases".

(** [releases] is a directory; releases and artifacts are no links. *)
Record layout (f : fs) : Prop := Layout {
  ly_root : drop_dots [] root.2 = root.2;
  ly_releases : ∃ m, f !! rels = Some (Dir m);
  ly_dirs : ∀ name, link_at f (child rels name) = None;
  ly_artifacts : ∀ t, link_at f (child t ARTIFACT) = None }.

(** The release at [t] has its artifact. *)
Definition complete (f : fs) (t : path) : Prop := ∃ d m, f !! child t ARTIFACT = Some (File d m).

Definition selector_paths : path → Prop := λ p, link_paths pid cur p ∨ link_paths pid prev p.

Lemma complete_stat f t :
  layout f → opt_is is_reg (stat_node f (child t ARTIFACT)) = true → complete f t.
Proof.
  intros Hf. pose proof (ly_artifacts f Hf t) as Hl. unfold link_at, complete, stat_node, MAX_LINKS in *.
  cbn [follow]. destruct (f !! child t ARTIFACT) as [[d m| | |]|]; try done. by exists d, m.
Qed.

Lemma artifact_not_selector t : ¬ selector_paths (child t ARTIFACT).
Proof.
  unfold selector_paths, link_paths, temporary_link, cur, prev.
  intros [[H|H]|[H|H]]; try (by apply child_eq in H as [_ H]);
    rewrite child_last in H; by apply child_eq in H as [_ H].
Qed.
Lemma child_longer (p : path) n : child p n ≠ p.
Proof.
  intros H. apply (f_equal (λ q : path, length q.2)) in H. unfold child in H. simpl in H.
  rewrite length_app in H. simpl in H. lia.
Qed.
Lemma in_root_not_selector p : p_parent p ≠ root → ¬ selector_paths p.
Proof.
  unfold selector_paths, link_paths, temporary_link, cur, prev. rewrite !child_parent'.
  intros Hp [[H|H]|[H|H]]; apply Hp; by rewrite H, child_parent'.
Qed.
Lemma release_not_selector name : ¬ selector_paths (child rels name).
Proof. apply in_root_not_selector. rewrite child_parent'. apply child_longer. Qed.
Lemma releases_not_selector : ¬ selector_paths rels.
Proof.
  unfold selector_paths, link_paths, temporary_link, cur, prev, rels.
  intros [[H|H]|[H|H]]; try (by apply child_eq in H as [_ H]);
    rewrite child_last in H; by apply child_eq in H as [_ H].
Qed.

Lemma complete_relinked f g t : relinked selector_paths f g → complete f t → complete g t.
Proof.
  intros H (d & m & Hc). exists d, m. eapply relinked_file; [done| |done]. apply artifact_not_selector.
Qed.
Lemma complete_back f g t : relinked selector_paths f g → complete g t → complete f t.
Proof.
  intros H (d & m & Hc). destruct (H _ (artifact_not_selector t)) as [E|[_ [m' E]]]; [|congruence].
  exists d, m. congruence.
Qed.
Lemma layout_relinked f g : relinked selector_paths f g → layout f → layout g.
Proof.
  intros H [H1 [m H2] H3 H4]. split; [done| |intros name; rewrite <- (H3 name)|intros t; rewrite <- (H4 t)].
  - exists m. destruct (H rels releases_not_selector) as [->|[E _]]; congruence.
  - eapply relinked_link; [done|]. apply release_not_selector.
  - eapply relinked_link; [done|]. apply artifact_not_selector.
Qed.

Lemma release_dir_valid v t : version_tuple v = Ok t → release_dir root v = child rels v.
Proof.
  intros H. destruct (version_parts v t H) as [H1 H2]. unfold release_dir, path_join. by rewrite H2, H1.
Qed.

(** ** Reading a selector *)

Lemma resolve_child (dir : path) name :
  drop_dots [] dir.2 = dir.2 → name ≠ ".."%string → drop_dots [] (child dir name).2 = (child dir name).2.
Proof. intros Hd Hn. unfold child. simpl. rewrite drop_dots_last, Hd. by rewrite eqs_ne. Qed.

Lemma resolved_at f p : link_at f p = None → resolved_link MAX_LINKS f p = p.
Proof. unfold MAX_LINKS, link_at. simpl. destruct (f !! p) as [[]|]; done. Qed.
Lemma resolved_through f p t :
  link_at f p = Some t → link_at f t = None → resolved_link MAX_LINKS f p = t.
Proof.
  unfold MAX_LINKS, link_at. simpl. destruct (f !! p) as [[]|]; try done. intros [= ->].
  destruct (f !! t) as [[]|]; done.
Qed.

Lemma version_not_dots v t : version_tuple v = Ok t → v ≠ ".."%string.
Proof. by intros H ->. Qed.

(** A selector that names a valid version: the release is complete, and when the link
    goes straight to a release, it is that one. *)
Lemma wp_release_link_version name E f k (Φ : res (option string) → world → Prop) :
  layout f →
  (∀ k, link_at f (child root name) = None → Φ (Ok None) (World f k)) →
  (∀ e k, Φ (Raise e) (World f k)) →
  (∀ v t k, version_tuple v = Ok t → complete f (release_dir root v) →
     (∀ v0, link_at f (child root name) = Some (child rels v0) → v0 ≠ ".."%string → v = v0) →
     Φ (Ok (Some v)) (World f k)) →
  wp (release_link_version root name) E (World f k) Φ.
Proof.
  intros Hf Hn He Ho. unfold release_link_version. apply wp_bind, wp_is_symlink; [intros k1|intros; apply He].
  destruct (opt_is is_link _) eqn:Hlink; cbn [negb].
  2: { apply wp_bind, wp_exists; [intros k2|intros; apply He].
       destruct (opt_is (λ _, true) _); [apply He|]. apply Hn.
       unfold link_at. by destruct (f !! child root name) as [[]|]. }
  unfold resolve_lax. repeat (apply wp_bind; repeat wp_step).
  destruct (ly_releases f Hf) as [m Hm].
  assert (Hrel : resolved_link MAX_LINKS f (child root "releases") = rels).
  { apply resolved_at. unfold link_at. by rewrite Hm. }
  rewrite Hrel.
  assert ((rels.1, drop_dots [] rels.2) = rels) as ->.
  { unfold rels. rewrite resolve_child; [reflexivity|apply Hf|done]. }
  set (target := (_, _)). destruct (bool_decide _) eqn:Hp; cbn [negb]; [|apply He].
  apply bool_decide_eq_true in Hp.
  apply wp_bind, wp_lift. destruct (version_tuple (p_name target)) as [t|e] eqn:Hv; [|apply He].
  apply wp_bind, wp_is_file; [intros k2|intros; apply He].
  destruct (opt_is is_reg _) eqn:Hc; cbn [negb]; [|apply He].
  assert (Ht : target = child rels (p_name target)).
  { rewrite <- Hp. unfold child, p_parent, p_name. destruct target as [a l]. simpl.
    destruct l as [|x l _] using rev_ind; [by vm_compute in Hv|]. by rewrite removelast_last, last_last. }
  apply (Ho _ t); [done| |].
  - rewrite (release_dir_valid _ _ Hv). apply complete_stat; [done|]. by rewrite <- Ht.
  - intros v0 Hl Hd. unfold target. rewrite (resolved_through f (child root name) (child rels v0) Hl).
    + rewrite resolve_child; [|unfold rels; rewrite resolve_child; [done|apply Hf|done]|done].
      exact (child_last rels v0).
    + apply Hf.
Qed.

Lemma fs_pure_release_link_version name : fs_pure (release_link_version root name).
Proof. unfold release_link_version, release_error, mraise, resolve_lax. fs_pure_tac. Qed.
Lemma fs_pure_release_status : fs_pure (release_status root).
Proof.
  unfold release_status, file_digest. pose proof fs_pure_release_link_version. fs_pure_tac.
Qed.

Lemma wp_is_dir p E f k (Φ : res bool → world → Prop) :
  (∀ k, Φ (Ok (opt_is is_dirn (stat_node f p))) (World f k)) →
  (∀ e k, Φ (Raise e) (World f k)) → wp (is_dir_p p) E (World f k) Φ.
Proof. intros Ho Hr. unfold is_dir_p. repeat wp_step; [apply Ho|apply Hr]. Qed.

(** The release found is complete. *)
Definition found (f : fs) (best : option (version * path)) : Prop :=
  match best with Some (_, p) => complete f p | None => True end.

Lemma wp_staged_step v best name E f k (Φ : res (option (version * path)) → world → Prop) :
  layout f → found f best →
  (∀ b k, found f b → Φ (Ok b) (World f k)) → (∀ e k, Φ (Raise e) (World f k)) →
  wp (staged_step version_tuple rels v ARTIFACT best name) E (World f k) Φ.
Proof.
  intros Hf Hb Ho Hr. unfold staged_step. apply wp_bind, wp_is_dir; [intros k1|apply Hr].
  destruct (negb _); [by apply Ho|]. apply wp_bind, wp_is_file; [intros k2|apply Hr].
  destruct (opt_is is_reg _) eqn:Hc; cbn [negb]; [|by apply Ho].
  apply (complete_stat f (child rels name) Hf) in Hc.
  destruct (version_tuple name) as [parsed|e]; [|destruct (catches _ _); [by apply Ho|apply Hr]].
  apply wp_bind, wp_lift. destruct (version_tuple v) as [limit|e]; [|apply Hr].
  apply wp_ret, Ho. destruct (version_ltb parsed limit); [|done].
  unfold better. destruct best as [[v' p']|]; [|done]. by destruct (version_ltb _ _).
Qed.

Lemma wp_latest_staged_before v E f k (Φ : res (option path) → world → Prop) :
  layout f →
  (∀ p k, (∀ q, p = Some q → complete f q) → Φ (Ok p) (World f k)) → (∀ e k, Φ (Raise e) (World f k)) →
  wp (latest_staged_before version_tuple root v ARTIFACT) E (World f k) Φ.
Proof.
  intros Hf Ho Hr. unfold latest_staged_before. apply wp_bind, wp_is_dir; [intros k1|apply Hr].
  destruct (negb _); [by apply Ho|]. apply wp_bind. repeat wp_step; [|apply Hr].
  eapply wp_mfold_pure with (P := found f); [|done| |intros; apply Hr].
  - intros. by apply wp_staged_step.
  - intros best k2 Hb. apply wp_ret, Ho. intros q. destruct best as [[v' p']|]; [|done]. by intros [= <-].
Qed.

(** ** Moving a selector *)

(** What a run may have done: nothing but the selectors moved, [current] to [new] at most,
    [previous] to some release, and both were complete. *)
Record moved (f g : fs) (new : path) : Prop := Moved {
  mv_frame : relinked selector_paths f g;
  mv_current : link_at g cur = link_at f cur ∨ link_at g cur = Some new ∧ complete f new;
  mv_previous : link_at g prev = link_at f prev ∨ ∃ t, link_at g prev = Some t ∧ complete f t }.

Lemma moved_refl f new : moved f f new.
Proof. split; [apply relinked_refl|by left|by left]. Qed.

Lemma selector_apart : ¬ link_paths pid cur prev ∧ ¬ link_paths pid prev cur.
Proof.
  unfold link_paths, temporary_link, cur, prev. rewrite !child_parent', !child_last.
  split; intros [H|H]; by apply child_eq in H as [_ H].
Qed.

Lemma wp_move_current f t E g k (Φ : res unit → world → Prop) :
  moved f g t → complete f t →
  (∀ h k, moved f h t → link_at h cur = Some t → Φ (Ok tt) (World h k)) →
  (∀ e h k, moved f h t → Φ (Raise e) (World h k)) →
  wp (atomic_link pid cur t) E (World g k) Φ.
Proof.
  intros [H1 H2 H3] Hc Ho Hr.
  assert (Hw : ∀ h, relinked (link_paths pid cur) g h → relinked selector_paths f h).
  { intros h Hh. eapply relinked_trans; [done|]. eapply relinked_weaken; [|done]. by left. }
  assert (Hp : ∀ h, relinked (link_paths pid cur) g h → link_at h prev = link_at g prev).
  { intros h Hh. eapply relinked_link; [done|]. apply selector_apart. }
  apply wp_atomic_link.
  - intros h k1 Hh Hl. assert (link_at h cur = Some t) by (unfold link_at, cur; by rewrite Hl).
    apply Ho; [|done]. split; [by apply Hw|by right|]. by rewrite (Hp h Hh).
  - intros e h k1 _ Hh Hl. change (link_at h cur = link_at g cur) in Hl.
    apply Hr. split; [by apply Hw|by rewrite Hl|by rewrite (Hp h Hh)].
Qed.

Lemma wp_move_previous f new t E g k (Φ : res unit → world → Prop) :
  moved f g new → complete f t →
  (∀ h k, moved f h new → link_at h cur = link_at g cur → link_at h prev = Some t → Φ (Ok tt) (World h k)) →
  (∀ e h k, moved f h new → link_at h cur = link_at g cur → Φ (Raise e) (World h k)) →
  wp (atomic_link pid prev t) E (World g k) Φ.
Proof.
  intros [H1 H2 H3] Hc Ho Hr.
  assert (Hw : ∀ h, relinked (link_paths pid prev) g h → relinked selector_paths f h).
  { intros h Hh. eapply relinked_trans; [done|]. eapply relinked_weaken; [|done]. by right. }
  assert (Hp : ∀ h, relinked (link_paths pid prev) g h → link_at h cur = link_at g cur).
  { intros h Hh. eapply relinked_link; [done|]. apply selector_apart. }
  apply wp_atomic_link.
  - intros h k1 Hh Hl. assert (link_at h prev = Some t) by (unfold link_at, prev; by rewrite Hl).
    apply Ho; [|by apply Hp|done]. split; [by apply Hw|by rewrite (Hp h Hh)|right; by exists t].
  - intros e h k1 _ Hh Hl. change (link_at h prev = link_at g prev) in Hl. apply Hr; [|by apply Hp].
    split; [by apply Hw|by rewrite (Hp h Hh)|by rewrite Hl].
Qed.

(** [version] is no downgrade of the release that [current] names. *)
Definition no_downgrade (f : fs) (version : string) : Prop :=
  ∀ v0 t0, link_at f cur = Some (child rels v0) → version_tuple v0 = Ok t0 →
    ∃ t, version_tuple version = Ok t ∧ version_ltb t t0 = false.

Definition activated (f : fs) (version confirmation : string) (r : res dict) (g : fs) : Prop :=
  moved f g (release_dir root version) ∧
  (is_ok r = true → link_at g cur = Some (release_dir root version)) ∧
  ((is_ok r = true ∨ link_at g cur ≠ link_at f cur) → confirmation = version ∧ no_downgrade f version).

Lemma wp_release_status E g k (Φ : res dict → world → Prop) :
  (∀ r k, Φ r (World g k)) → wp (release_status root) E (World g k) Φ.
Proof. intros H. apply wp_pure; [apply fs_pure_release_status|done]. Qed.

Lemma wp_keep_previous f v old t E g k (Φ : res unit → world → Prop) :
  layout f → moved f g t → link_at g cur = Some t → (∀ o, old = Some o → complete f o) →
  (∀ r h k, moved f h t → link_at h cur = Some t → Φ r (World h k)) →
  wp (keep_previous root pid v old t) E (World g k) Φ.
Proof.
  intros Hf Hg Hc Hold HΦ. unfold keep_previous.
  assert (Hmove : ∀ o k, complete f o → wp (atomic_link pid prev o) E (World g k) Φ).
  { intros o k1 Ho. eapply wp_move_previous; [exact Hg|done| |].
    - intros h k2 Hh E1 _. apply HΦ; [done|congruence].
    - intros e h k2 Hh E1. apply HΦ; [done|congruence]. }
  assert (Hfall : wp
    (let! present := is_symlink_p prev in
     if present then ret tt else
     let! earlier := latest_staged_before version_tuple root v ARTIFACT in
     match earlier with Some p => atomic_link pid prev p | None => ret tt end) E (World g k) Φ).
  { apply wp_bind, wp_is_symlink; [intros k1|intros; by apply HΦ].
    destruct (opt_is _ _); [by apply HΦ|].
    apply wp_bind, wp_latest_staged_before; [by eapply layout_relinked, Hf; apply Hg| |intros; by apply HΦ].
    intros [p|] k2 Hp; [|by apply HΦ]. specialize (Hp p eq_refl).
    apply Hmove. eapply complete_back; [apply Hg|done]. }
  destruct old as [o|]; [|done]. destruct (bool_decide _); cbn [negb]; [done|]. by apply Hmove, Hold.
Qed.

Lemma wp_activate v confirmation E f k :
  layout f →
  wp (activate root pid v confirmation) E (World f k) (λ r w', activated f v confirmation r (w_fs w')).
Proof.
  intros Hf. unfold activate.
  assert (Hno : ∀ e k, wp (throw e) E (World f k) (λ r w', activated f v confirmation r (w_fs w'))).
  { intros e k1. apply wp_throw. split; [apply moved_refl|]. split; [done|]. intros [|]; done. }
  destruct (eqs_spec confirmation v) as [->|]; [cbn [negb]|apply Hno].
  assert (Hrest : ∀ o k, no_downgrade f v → (∀ c, o = Some c → complete f (release_dir root c)) →
    wp (let! staged := is_file_p (child (release_dir root v) ARTIFACT) in
        if negb staged then release_error "cloud release is not staged" else
        atomic_link pid cur (release_dir root v) ;;
        keep_previous root pid v (option_map (release_dir root) o) (release_dir root v) ;;
        let! observed := release_status root in
        ret (activation_document "cloudx.release-activate.v1" v observed)) E (World f k)
      (λ r w', activated f v v r (w_fs w'))).
  { intros o k1 Hd Ho. apply wp_bind, wp_is_file; [intros k2|intros e k2; apply (Hno e k2)].
    destruct (opt_is is_reg _) eqn:Hs; cbn [negb]; [|apply Hno]. apply complete_stat in Hs; [|done].
    assert (Hany : ∀ (r : res dict) h k, moved f h (release_dir root v) → link_at h cur = Some (release_dir root v) →
      activated f v v r (w_fs (World h k))) by (intros r h k3 Hh Hc; split; [done|]; split; done).
    apply wp_bind. eapply wp_move_current; [apply moved_refl|done| |].
    - intros h k3 Hh Hc. apply wp_bind. eapply wp_keep_previous; [done|done|done| |].
      + intros old. destruct o as [c|]; [|done]. intros [= <-]. by apply Ho.
      + intros r h' k4 Hh' Hc'. destruct r as [u|e]; [|by apply Hany].
        apply wp_bind, wp_release_status. intros [observed|e] k5; [|by apply Hany].
        apply wp_ret. by apply Hany.
    - intros e h k3 Hh. split; [done|]. split; [done|]. intros _. done. }
  apply wp_bind, wp_release_link_version; [done| |intros e k1; apply (Hno e k1)|].
  - intros k1 Hl. apply wp_bind, wp_ret, Hrest; [|done]. intros v0 t0 Hl'. unfold cur in Hl'. congruence.
  - intros c t k1 Hv Hc Hu. apply wp_bind. unfold refuse_downgrade.
    apply wp_bind, wp_lift. destruct (version_tuple v) as [t'|e] eqn:Ev; [|apply (Hno e k1)].
    apply wp_bind, wp_lift. rewrite Hv. destruct (version_ltb t' t) eqn:El; [apply Hno|].
    apply wp_ret, Hrest.
    + intros v0 t0 Hl H0. exists t'. split; [done|]. assert (c = v0) as ->; [|congruence].
      apply Hu; [done|by eapply version_not_dots].
    + by intros ? [= <-].
Qed.

Definition rolled_back (f : fs) (confirmation : string) (r : res dict) (g : fs) : Prop :=
  moved f g (release_dir root confirmation) ∧
  (is_ok r = true → link_at g cur = Some (release_dir root confirmation)) ∧
  ((is_ok r = true ∨ link_at g cur ≠ link_at f cur) →
   ∀ v0, link_at f prev = Some (child rels v0) → v0 ≠ ".."%string → v0 = confirmation).

Lemma wp_release_rollback confirmation E f k :
  layout f →
  wp (rollback root pid confirmation) E (World f k) (λ r w', rolled_back f confirmation r (w_fs w')).
Proof.
  intros Hf. unfold rollback.
  assert (Hno : ∀ e k, wp (throw e) E (World f k) (λ r w', rolled_back f confirmation r (w_fs w'))).
  { intros e k1. apply wp_throw. split; [apply moved_refl|]. split; [done|]. intros [|]; done. }
  apply wp_bind, wp_release_link_version; [done|intros; apply Hno|intros e k1; apply (Hno e k1)|].
  intros v t k1 Hv Hc Hu. destruct (eqs_spec confirmation v) as [->|]; [cbn [negb]|apply Hno].
  assert (Hu' : ∀ v0, link_at f prev = Some (child rels v0) → v0 ≠ ".."%string → v0 = v).
  { intros v0 H1 H2. symmetry. by apply Hu. }
  assert (Hany : ∀ (r : res dict) h k, moved f h (release_dir root v) →
    (is_ok r = true → link_at h cur = Some (release_dir root v)) → rolled_back f v r (w_fs (World h k))).
  { intros r h k3 Hh Hok. split; [done|]. by split. }
  assert (Hrest : ∀ o k, (∀ c, o = Some c → complete f c) →
    wp (atomic_link pid cur (release_dir root v) ;;
        (match o with
         | Some old => if negb (bool_decide (old = release_dir root v)) then atomic_link pid prev old else ret tt
         | None => ret tt
         end) ;;
        let! observed := release_status root in
        ret (activation_document "cloudx.release-rollback.v1" v observed)) E (World f k)
      (λ r w', rolled_back f v r (w_fs w'))).
  { intros o k2 Ho. apply wp_bind. eapply wp_move_current; [apply moved_refl|done| |].
    2: { intros e h k3 Hh. by apply Hany. }
    intros h k3 Hh Hcur.
    assert (Hend : ∀ h k, moved f h (release_dir root v) → link_at h cur = Some (release_dir root v) →
      wp (let! observed := release_status root in
          ret (activation_document "cloudx.release-rollback.v1" v observed)) E (World h k)
        (λ r w', rolled_back f v r (w_fs w'))).
    { intros h' k4 Hh' Hc'. apply wp_bind, wp_release_status. intros [d|e] k5; by apply Hany. }
    apply wp_bind. destruct o as [old|]; [|by apply wp_ret, Hend].
    destruct (bool_decide _); cbn [negb]; [by apply wp_ret, Hend|].
    eapply wp_move_previous; [done|by apply Ho| |].
    - intros h' k4 Hh' Hc' _. apply Hend; [done|congruence].
    - intros e h' k4 Hh' Hc'. by apply Hany. }
  apply wp_bind, wp_release_link_version; [done| |intros e k2; apply (Hno e k2)|].
  - intros k2 _. by apply Hrest.
  - intros c t' k2 _ Hc' _. apply Hrest. by intros ? [= <-].
Qed.

(** ** Every reachable state *)

(** A selector that is a link names a complete release. *)
Record sound (f : fs) : Prop := Sound {
  so_layout : layout f;
  so_current : ∀ t, link_at f cur = Some t → complete f t;
  so_previous : ∀ t, link_at f prev = Some t → complete f t }.

Lemma moved_sound f g new : moved f g new → sound f → sound g.
Proof.
  intros [H1 H2 H3] [Hl Hc Hp]. split; [by eapply layout_relinked| |].
  - intros t Ht. eapply complete_relinked; [done|].
    destruct H2 as [E|[E Hn]]; rewrite E in Ht; [by apply Hc|]. by injection Ht as <-.
  - intros t Ht. eapply complete_relinked; [done|].
    destruct H3 as [E|(t' & E & Hn)]; rewrite E in Ht; [by apply Hp|]. by injection Ht as <-.
Qed.

(** One command, at any time, with any failures. *)
Inductive release_step : fs → fs → Prop :=
| activate_step E k version confirmation f :
    release_step f (w_fs (activate root pid version confirmation E (World f k)).2)
| rollback_step E k confirmation f :
    release_step f (w_fs (rollback root pid confirmation E (World f k)).2).

Lemma release_step_moved f g : release_step f g → layout f → ∃ new, moved f g new.
Proof.
  intros [E k v c f'|E k c f'] Hf.
  - exists (release_dir root v). exact (proj1 (wp_activate v c E f' k Hf)).
  - exists (release_dir root c). exact (proj1 (wp_release_rollback c E f' k Hf)).
Qed.
End facts.

(** C15: the selectors of the cloud helper stay sound: after any sequence of activations and
    rollbacks, with any failing calls in any of them, a selector that is a link names a
    directory that holds an artifact, and nothing but the selectors and their temporary
    links has changed. *)
Theorem selectors_sound root pid f g :
  sound root f → rtc (release_step root pid) f g →
  sound root g ∧ relinked (selector_paths root pid) f g.
Proof.
  intros Hf Hr. induction Hr as [f|f g h Hs Hr IH]; [split; [done|apply relinked_refl]|].
  destruct (release_step_moved root pid f g Hs (so_layout _ _ Hf)) as [new Hm].
  destruct IH as [Hh Hgh]; [by eapply moved_sound|]. split; [done|].
  eapply relinked_trans; [apply Hm|done].
Qed.

(** ** Without failures *)

(** [m] returns [a] and leaves the files as [g]. *)
Definition runs {A} (E : env) (m : M A) (f : fs) (a : A) (g : fs) : Prop :=
  ∀ k, ∃ k', m E (World f k) = (Ok a, World g k').

Lemma runs_ret {A} E (a : A) f : runs E (ret a) f a f.
Proof. intros k. by exists k. Qed.
Lemma runs_bind {A B} E (m : M A) (c : A → M B) f a g b h :
  runs E m f a g → runs E (c a) g b h → runs E (bind m c) f b h.
Proof.
  intros Hm Hc k. destruct (Hm k) as [k1 H1], (Hc k1) as [k2 H2]. exists k2. unfold bind. by rewrite H1.
Qed.
Lemma runs_get_fs E f : runs E get_fs f f f.
Proof. intros k. by exists k. Qed.
Lemma runs_update E p n f : runs E (update p n) f tt (<[p := n]> f).
Proof. intros k. by exists k. Qed.
Lemma runs_put E f g : runs E (put_fs g) f tt g.
Proof. intros k. by exists k. Qed.
Lemma runs_lift {A} E (r : res A) f a : r = Ok a → runs E (lift r) f a f.
Proof. intros -> k. by exists k. Qed.

Lemma runs_seq_assoc {A} E (m1 m2 : M unit) (c : M A) f b g :
  runs E ((m1 ;; m2) ;; c) f b g → runs E (m1 ;; m2 ;; c) f b g.
Proof.
  intros H k. destruct (H k) as [k' H']. exists k'. revert H'. unfold bind.
  by destruct (m1 E (World f k)) as [[[]|e] w].
Qed.

Section runs.
Context (E : env) (quiet : no_faults E).

Lemma runs_sys f : runs E sys f tt f.
Proof using quiet. intros k. exists (S k). by apply sys_ok. Qed.
Lemma runs_sys_get {A} (c : fs → M A) f a g : runs E (c f) f a g → runs E (sys ;; let! h := get_fs in c h) f a g.
Proof using quiet.
  intros H. eapply runs_bind; [apply runs_sys|]. eapply runs_bind; [apply runs_get_fs|done].
Qed.
Lemma runs_is_symlink p f : runs E (is_symlink_p p) f (opt_is is_link (f !! p)) f.
Proof using quiet. apply runs_sys_get, runs_ret. Qed.
Lemma runs_is_file p f : runs E (is_file_p p) f (opt_is is_reg (stat_node f p)) f.
Proof using quiet. apply runs_sys_get, runs_ret. Qed.
Lemma runs_digest p f d m : f !! p = Some (File d m) → runs E (file_digest p) f (sha256 d) f.
Proof using quiet.
  intros Hp. unfold file_digest, read_bytes, open_read, read_node.
  eapply runs_bind; [|apply runs_ret]. eapply runs_bind.
  - apply runs_sys_get. rewrite (stat_file _ _ _ _ Hp). apply runs_ret.
  - eapply runs_bind; [apply runs_sys|apply runs_ret].
Qed.

Lemma runs_mkdir p mode f : dirs_exist f p → runs E (mkdir_parents p mode) f tt f.
Proof using quiet.
  intros Hd. unfold mkdir_parents. eapply runs_bind; [apply runs_sys|].
  unfold dirs_exist in Hd. induction (prefixes_of [] p.2) as [|x l IH]; simpl; [apply runs_ret|].
  eapply runs_bind; [|apply IH; intros; apply Hd; by right].
  destruct (Hd x) as [m Hm]; [by left|]. unfold mkdir1. eapply runs_bind; [apply runs_get_fs|].
  rewrite (stat_dir _ _ _ Hm). apply runs_ret.
Qed.

(** A link may be put at [p]: nothing is there, or something that is no directory. *)
Definition linkable (f : fs) (p : path) : Prop := ∀ m, f !! p ≠ Some (Dir m).

Lemma runs_unlink_missing p f : linkable f p → runs E (unlink_missing_ok p) f tt (delete p f).
Proof using quiet.
  intros Hp. unfold unlink_missing_ok, unlink. eapply runs_bind; [apply runs_get_fs|].
  destruct (f !! p) as [n|] eqn:Hn.
  - apply runs_sys_get. rewrite Hn. destruct n as [| m | |]; try apply runs_put. by destruct (Hp m).
  - rewrite delete_id by done. apply runs_sys.
Qed.

Context (pid : Z).

Lemma runs_atomic_link dir name target f m :
  dirs_exist f dir → f !! dir = Some (Dir m) →
  linkable f (child dir name) → linkable f (temporary_link pid (child dir name)) →
  runs E (atomic_link pid (child dir name) target) f tt
    (<[child dir name := Link target]> (delete (temporary_link pid (child dir name)) f)).
Proof using quiet.
  intros Hd Hm Hl Ht. pose proof (temporary_ne pid dir name) as Hne.
  unfold atomic_link. rewrite child_parent'. set (t := temporary_link pid (child dir name)) in *.
  eapply runs_bind; [by apply runs_mkdir|]. eapply runs_bind; [by apply runs_unlink_missing|].
  assert (Htd : t ≠ dir).
  { intros E'. unfold t, temporary_link in E'. rewrite child_parent' in E'. by apply child_longer in E'. }
  assert (Hpar : ∀ g p, g !! dir = Some (Dir m) → p_parent p = dir → parent_is_dir g p = true).
  { intros g p Hg Hp. unfold parent_is_dir. rewrite Hp, (stat_dir _ _ _ Hg). by destruct p.2 as [|? [|]]. }
  eapply runs_bind.
  - unfold symlink_to. apply runs_sys_get. rewrite lookup_delete_eq, Hpar; [apply runs_update| |].
    + by rewrite lookup_delete_ne.
    + unfold t, temporary_link. by rewrite child_parent', child_parent'.
  - unfold replace. apply runs_sys_get. rewrite lookup_insert_eq.
    rewrite lookup_insert_ne, lookup_delete_ne by done.
    assert (Hput : runs E (if parent_is_dir (<[t:=Link target]> (delete t f)) (child dir name)
      then put_fs (<[child dir name:=Link target]> (delete t (<[t:=Link target]> (delete t f))))
      else oserror "no such directory") (<[t:=Link target]> (delete t f)) tt
      (<[child dir name := Link target]> (delete t f))).
    { assert (Hg : <[t:=Link target]> (delete t f) !! dir = Some (Dir m)).
      { rewrite lookup_insert_ne by exact Htd. by rewrite lookup_delete_ne by exact Htd. }
      rewrite (Hpar _ _ Hg) by apply child_parent'.
      rewrite delete_insert_eq, delete_delete_eq. apply runs_put. }
    destruct (f !! child dir name) as [[| m' | |]|] eqn:En; try done. by destruct (Hl m').
Qed.
End runs.

Section round_trip.
Context (root : path) (pid : Z) (E : env) (quiet : no_faults E).

Let cur := child root "current".
Let prev := child root "previous".
Let rels := child root "releases".

(** The root is a directory, and links can be put in it. *)
Record writable (f : fs) : Prop := Writable {
  wr_dirs : dirs_exist f root;
  wr_root : ∃ m, f !! root = Some (Dir m);
  wr_links : ∀ p, selector_paths root pid p → linkable f p }.

Lemma runs_selected name v t f :
  layout root f → link_at f (child root name) = Some (child rels v) →
  version_tuple v = Ok t → complete f (child rels v) →
  runs E (release_link_version root name) f (Some v) f.
Proof using quiet.
  intros Hf Hl Hv (d & m & Hc). unfold release_link_version.
  eapply runs_bind; [by apply runs_is_symlink|].
  assert (opt_is is_link (f !! child root name) = true) as ->.
  { unfold link_at in Hl. by destruct (f !! child root name) as [[]|]. }
  cbn [negb]. unfold resolve_lax.
  eapply runs_bind; [eapply runs_bind; [apply runs_get_fs|apply runs_ret]|].
  eapply runs_bind; [eapply runs_bind; [apply runs_get_fs|apply runs_ret]|].
  destruct (ly_releases _ _ Hf) as [m' Hm].
  assert (resolved_link MAX_LINKS f (child root "releases") = rels) as ->.
  { apply resolved_at. unfold link_at, rels. by rewrite Hm. }
  rewrite (resolved_through f _ _ Hl) by apply Hf.
  assert (Hr : drop_dots [] rels.2 = rels.2) by (apply resolve_child; [apply Hf|done]).
  rewrite Hr, resolve_child by (done || by eapply version_not_dots).
  change ((child rels v).1, (child rels v).2) with (child rels v). change (rels.1, rels.2) with rels.
  rewrite child_parent', bool_decide_eq_true_2 by done. cbn [negb]. rewrite child_last, Hv.
  eapply runs_bind; [by apply runs_lift|]. eapply runs_bind; [by apply runs_is_file|].
  rewrite (stat_file _ _ _ _ Hc). cbn [opt_is is_reg negb]. apply runs_ret.
Qed.

(** The comparisons of [activate] and [keep_previous] on valid versions. *)
Lemma runs_refuse_downgrade v a t u f :
  version_tuple v = Ok t → version_tuple a = Ok u → version_ltb t u = false →
  runs E (refuse_downgrade v (Some a)) f tt f.
Proof.
  intros Hv Ha Hlt. unfold refuse_downgrade. eapply runs_bind; [by apply runs_lift|].
  eapply runs_bind; [by apply runs_lift|]. rewrite Hlt. apply runs_ret.
Qed.

(** Both selectors name releases. *)
Record selected (f : fs) (a b : string) : Prop := Selected {
  se_layout : layout root f;
  se_writable : writable f;
  se_current : link_at f cur = Some (child rels a);
  se_previous : link_at f prev = Some (child rels b);
  se_valid : (∃ t, version_tuple a = Ok t) ∧ (∃ t, version_tuple b = Ok t);
  se_complete : complete f (child rels a) ∧ complete f (child rels b) }.

Lemma runs_status f a b :
  selected f a b → ∃ doc, dget "previousVersion" doc = JStr b ∧ runs E (release_status root) f doc f.
Proof using quiet.
  intros [Hl _ Hc Hp [[ta Ha] [tb Hb]] [Hca Hcb]]. destruct Hca as (d & m & Hd).
  eexists. split; [|unfold release_status].
  2: { eapply runs_bind; [eapply runs_selected; [done|exact Hc|exact Ha|by exists d, m]|].
       eapply runs_bind; [eapply runs_selected; [done|exact Hp|exact Hb|done]|].
       eapply runs_bind; [|apply runs_ret]. eapply runs_bind; [|apply runs_ret].
       eapply runs_digest; [done|]. rewrite (release_dir_valid root a ta Ha). exact Hd. }
  reflexivity.
Qed.

(** The state after a selector has been moved. *)
Lemma selector_moved f name t :
  child root name = cur ∨ child root name = prev →
  layout root f → writable f →
  let g := <[child root name := Link t]> (delete (temporary_link pid (child root name)) f) in
  runs E (atomic_link pid (child root name) t) f tt g ∧
  relinked (link_paths pid (child root name)) f g ∧ layout root g ∧ writable g ∧
  link_at g (child root name) = Some t.
Proof using quiet.
  intros Hn Hf [Hd [m Hm] Hw] g.
  assert (Hsel : ∀ p, link_paths pid (child root name) p → selector_paths root pid p).
  { intros p Hp. destruct Hn as [E'|E']; rewrite E' in Hp; [by left|by right]. }
  assert (Hrel : relinked (link_paths pid (child root name)) f g).
  { intros p Hp. left. unfold g. rewrite lookup_insert_ne by (intros <-; apply Hp; by left).
    rewrite lookup_delete_ne; [done|]. intros <-. apply Hp. by right. }
  assert (Hkeep : ∀ p m, f !! p = Some (Dir m) → g !! p = Some (Dir m)).
  { intros p m' Hp. destruct (decide (p = child root name)) as [->|H1].
    - by destruct (Hw (child root name) (Hsel _ (or_introl eq_refl)) m').
    - destruct (decide (p = temporary_link pid (child root name))) as [->|H2].
      + by destruct (Hw _ (Hsel _ (or_intror eq_refl)) m').
      + unfold g. by rewrite lookup_insert_ne, lookup_delete_ne by done. }
  split; [|split; [done|split; [|split]]].
  - eapply runs_atomic_link; [done|done|done| |].
    + apply Hw, Hsel. by left.
    + apply Hw, Hsel. by right.
  - eapply layout_relinked; [|done]. by eapply relinked_weaken.
  - split; [intros l Hl; destruct (Hd l Hl) as [m' Hm']; eauto|eauto|].
    intros p Hp m' Hg. unfold g in Hg. destruct (decide (p = child root name)) as [->|H1].
    + by rewrite lookup_insert_eq in Hg.
    + rewrite lookup_insert_ne in Hg by done. apply lookup_delete_Some in Hg as [_ Hg]. by destruct (Hw p Hp m').
  - unfold link_at, g. by rewrite lookup_insert_eq.
Qed.

(** Moving [current] to [a] and [previous] to [b]. *)
Lemma both_moved f a b x y :
  selected f x y → (∃ t, version_tuple a = Ok t) → (∃ t, version_tuple b = Ok t) →
  complete f (child rels a) → complete f (child rels b) →
  ∃ g, runs E (atomic_link pid cur (child rels a) ;; atomic_link pid prev (child rels b)) f tt g ∧
       selected g a b ∧ (∀ t, complete f t → complete g t).
Proof using quiet.
  intros [Hl Hw _ _ _ _] Ha Hb Hca Hcb.
  destruct (selector_moved f "current" (child rels a) (or_introl eq_refl) Hl Hw) as (R1 & F1 & L1 & W1 & S1).
  set (g := <[_ := _]> _) in R1, F1, L1, W1, S1.
  destruct (selector_moved g "previous" (child rels b) (or_intror eq_refl) L1 W1) as (R2 & F2 & L2 & W2 & S2).
  set (h := <[_ := _]> (delete _ g)) in R2, F2, L2, W2, S2.
  assert (Hc : ∀ t, complete f t → complete h t).
  { intros t Ht. eapply complete_relinked; [eapply relinked_weaken; [|exact F2]; by right|].
    eapply complete_relinked; [|exact Ht]. eapply relinked_weaken; [|exact F1]. by left. }
  exists h. split; [eapply runs_bind; [exact R1|exact R2]|]. split; [|done].
  split; [done|done| |exact S2|done|split; by apply Hc].
  change (link_at h cur = Some (child rels a)). rewrite <- S1. eapply relinked_link; [exact F2|].
  apply (selector_apart root pid).
Qed.
Lemma runs_activate f a b v t u :
  selected f a b → version_tuple v = Ok t → version_tuple a = Ok u → version_ltb t u = false → v ≠ a →
  complete f (child rels v) →
  ∃ doc g, runs E (activate root pid v v) f doc g ∧ selected g v a ∧ dget "previousVersion" doc = JStr a.
Proof using quiet.
  intros Hf Hv Ha Hlt Hne Hc.
  destruct (both_moved f v a a b Hf) as (g & R1 & Hg & _); [eauto|eauto|done|apply Hf|].
  destruct (runs_status g v a Hg) as (st & Hst & Rst).
  exists (activation_document "cloudx.release-activate.v1" v st), g.
  split; [|split; [done|exact Hst]].
  destruct Hf as [Hl _ Hcur _ _ [Hca _]].
  unfold activate. rewrite eqs_refl. cbn [negb].
  eapply runs_bind; [by eapply runs_selected|].
  eapply runs_bind; [by eapply runs_refuse_downgrade|].
  cbv zeta. rewrite (release_dir_valid root v t Hv). destruct Hc as (d & m & Hd).
  eapply runs_bind; [by apply runs_is_file|]. fold rels.
  rewrite (stat_file _ _ _ _ Hd). cbn [opt_is is_reg negb option_map].
  rewrite (release_dir_valid root a u Ha). unfold keep_previous.
  rewrite bool_decide_eq_false_2 by (intros [_ E']%child_eq; congruence). cbn [negb].
  apply runs_seq_assoc. eapply runs_bind; [exact R1|].
  eapply runs_bind; [exact Rst|apply runs_ret].
Qed.

Lemma runs_rollback f a b :
  selected f a b → a ≠ b →
  ∃ doc g, runs E (rollback root pid b) f doc g ∧ selected g b a ∧ dget "previousVersion" doc = JStr a.
Proof using quiet.
  intros Hf Hne. pose proof Hf as [Hl _ Hcur Hprev [[ta Ha] [tb Hb]] [Hca Hcb]].
  destruct (both_moved f b a a b Hf) as (g & R1 & Hg & _); [eauto|eauto|done|done|].
  destruct (runs_status g b a Hg) as (st & Hst & Rst).
  exists (activation_document "cloudx.release-rollback.v1" b st), g.
  split; [|split; [done|exact Hst]].
  unfold rollback. eapply runs_bind; [by eapply runs_selected|]. cbv beta iota.
  rewrite eqs_refl. cbn [negb].
  eapply runs_bind; [by eapply runs_selected|]. cbn [option_map]. cbv zeta.
  rewrite (release_dir_valid root a ta Ha), (release_dir_valid root b tb Hb).
  rewrite bool_decide_eq_false_2 by (intros [_ E']%child_eq; congruence). cbn [negb].
  apply runs_seq_assoc. eapply runs_bind; [exact R1|].
  eapply runs_bind; [exact Rst|apply runs_ret].
Qed.
End round_trip.

(** Without failures a rollback undoes an activation: activating a staged release [v]
    over [a] selects [v] and keeps [a] as the previous one, reports it, and the rollback it
    names selects [a] again and keeps [v]. *)
Theorem activate_then_rollback root pid E f k a b v t u :
  no_faults E → selected root pid f a b →
  version_tuple v = Ok t → version_tuple a = Ok u → version_ltb t u = false → v ≠ a →
  complete f (child (child root "releases") v) →
  ∃ doc g k1 doc' h k2,
    activate root pid v v E (World f k) = (Ok doc, World g k1) ∧
    selected root pid g v a ∧ dget "previousVersion" doc = JStr a ∧
    rollback root pid a E (World g k1) = (Ok doc', World h k2) ∧
    selected root pid h a v ∧ dget "previousVersion" doc' = JStr v.
Proof.
  intros HE Hf Hv Ha Hlt Hne Hc.
  destruct (runs_activate root pid E HE f a b v t u) as (doc & g & Hact & Hg & Hd); [done..|].
  destruct (runs_rollback root pid E HE g v a) as (doc' & h & Hrb & Hh & Hd'); [done..|].
  destruct (Hact k) as [k1 E1], (Hrb k1) as [k2 E2].
  exists doc, g, k1, doc', h, k2. by split_and!.
Qed.

(** ** A release root with three releases *)

Definition SAMPLE_ROOT : path := path_of "/opt/cloudx".
Definition sample_release (version : string) : list (path * node) :=
  let dir := child (child SAMPLE_ROOT "releases") version in
  [(dir, Dir 493); (child dir ARTIFACT, File ("artifact " +:+ version) 493)].
Definition sample_entries : list (path * node) :=
  [(path_of "/opt", Dir 493); (SAMPLE_ROOT, Dir 493); (child SAMPLE_ROOT "releases", Dir 493);
   (child SAMPLE_ROOT "current", Link (child (child SAMPLE_ROOT "releases") "1.0.0"));
   (child SAMPLE_ROOT "previous", Link (child (child SAMPLE_ROOT "releases") "0.9.0"))] ++
  sample_release "0.9.0" ++ sample_release "1.0.0" ++ sample_release "1.1.0".
Definition sample_releases : fs := list_to_map sample_entries.

(** The links of a listed tree are in the root, and no artifact is one. *)
Definition links_in_root (root : path) (l : list (path * node)) : bool :=
  forallb (λ e, negb (is_link e.2) ||
                (bool_decide (p_parent e.1 = root) && negb (p_name e.1 =s? ARTIFACT))) l.

Lemma listed_link root l p t :
  links_in_root root l = true → link_at (list_to_map l) p = Some t → p_parent p = root ∧ p_name p ≠ ARTIFACT.
Proof.
  intros H Hl. unfold link_at in Hl. destruct (list_to_map l !! p) as [n|] eqn:En; [|done].
  apply elem_of_list_to_map_2 in En. rewrite list_elem_of_In in En.
  apply (proj1 (forallb_forall _ _) H) in En. cbn [fst snd] in En. destruct n; try done.
  cbn [is_link negb orb] in En. apply andb_true_iff in En as [Hp Hn].
  split; [by apply bool_decide_eq_true in Hp|]. intros E. rewrite E, eqs_refl in Hn. done.
Qed.

Lemma listed_layout root l m :
  drop_dots [] root.2 = root.2 → (list_to_map l : fs) !! child root "releases" = Some (Dir m) →
  links_in_root root l = true → layout root (list_to_map l).
Proof.
  intros H1 H2 H. split; [done|by exists m|intros name|intros t].
  - destruct (link_at _ _) as [t|] eqn:E; [|done]. apply (listed_link root) in E as [E _]; [|done].
    rewrite child_parent' in E. by apply child_longer in E.
  - destruct (link_at _ _) as [t'|] eqn:E; [|done]. apply (listed_link root) in E as [_ E]; [|done].
    by rewrite child_last in E.
Qed.

Lemma sample_layout : layout SAMPLE_ROOT sample_releases.
Proof. by apply (listed_layout _ _ 493); vm_compute. Qed.
Lemma sample_complete v :
  v ∈ ["0.9.0"; "1.0.0"; "1.1.0"]%string → complete sample_releases (child (child SAMPLE_ROOT "releases") v).
Proof.
  rewrite list_elem_of_In. intros [<-|[<-|[<-|[]]]];
    eexists _, _; vm_compute; reflexivity.
Qed.
Lemma sample_current :
  link_at sample_releases (child SAMPLE_ROOT "current") = Some (child (child SAMPLE_ROOT "releases") "1.0.0").
Proof. by vm_compute. Qed.
Lemma sample_previous :
  link_at sample_releases (child SAMPLE_ROOT "previous") = Some (child (child SAMPLE_ROOT "releases") "0.9.0").
Proof. by vm_compute. Qed.
Lemma sample_sound : sound SAMPLE_ROOT sample_releases.
Proof.
  split; [apply sample_layout| |]; intros t; [rewrite sample_current|rewrite sample_previous];
    intros [= <-]; apply sample_complete; repeat constructor.
Qed.
Lemma sample_writable : writable SAMPLE_ROOT 7 sample_releases.
Proof.
  split.
  - intros q Hq. cbn in Hq. destruct Hq as [<-|[<-|[]]]; exists 493; vm_compute; reflexivity.
  - by exists 493; vm_compute.
  - intros p [[->| ->]|[->| ->]] m; by vm_compute.
Qed.
Lemma sample_selected : selected SAMPLE_ROOT 7 sample_releases "1.0.0" "0.9.0".
Proof.
  split; [apply sample_layout|apply sample_writable|apply sample_current|apply sample_previous| |].
  - by split; eexists.
  - split; apply sample_complete; repeat constructor.
Qed.

(** The third call fails. *)
Definition third_fails : env :=
  Env (λ n, Nat.eqb n 2) (λ _, "x") (λ _, 0) (λ _ _, FNan) (λ _ _, false) (λ _, 0).

Lemma selectors_sound_witness :
  ∃ g, rtc (release_step SAMPLE_ROOT 7) sample_releases g ∧
       sound SAMPLE_ROOT g ∧ relinked (selector_paths SAMPLE_ROOT 7) sample_releases g.
Proof.
  set (f1 := w_fs (activate SAMPLE_ROOT 7 "1.1.0" "1.1.0" quiet_env (World sample_releases 0)).2).
  assert (H : rtc (release_step SAMPLE_ROOT 7) sample_releases
                (w_fs (rollback SAMPLE_ROOT 7 "1.0.0" third_fails (World f1 0)).2)).
  { eapply rtc_l; [apply activate_step|]. eapply rtc_l; [apply rollback_step|]. apply rtc_refl. }
  eexists. split; [exact H|]. exact (selectors_sound SAMPLE_ROOT 7 _ _ sample_sound H).
Defined.

Lemma activate_then_rollback_witness :
  ∃ doc g k1 doc' h k2,
    activate SAMPLE_ROOT 7 "1.1.0" "1.1.0" quiet_env (World sample_releases 0) = (Ok doc, World g k1) ∧
    selected SAMPLE_ROOT 7 g "1.1.0" "1.0.0" ∧ dget "previousVersion" doc = JStr "1.0.0" ∧
    rollback SAMPLE_ROOT 7 "1.0.0" quiet_env (World g k1) = (Ok doc', World h k2) ∧
    selected SAMPLE_ROOT 7 h "1.0.0" "1.1.0" ∧ dget "previousVersion" doc' = JStr "1.1.0".
Proof.
  apply (activate_then_rollback SAMPLE_ROOT 7 quiet_env sample_releases 0 "1.0.0" "0.9.0" "1.1.0"
           (1, 1, 0) (1, 0, 0)).
  - intros n. reflexivity.
  - exact sample_selected.
  - reflexivity.
  - reflexivity.
  - reflexivity.
  - discriminate.
  - apply sample_complete. repeat constructor.
Defined.
