(* ===== verification/Trees.v ===== *)
(** * Directory trees

    The calls of [os], [pathlib], [shutil] and [tempfile] that create, copy, move and remove
    whole directories, on the files of [FS], and the rules of [wp] for them. *)

From S2P Require Import Prelude PyStr PyFloat PyValue PyJson FS Wp FileData CpaAuth LocalConfig Releases.

(** ** The calls *)

(** Something is below the directory. *)
Definition occupied (f : fs) (p : path) : bool :=
  existsb (λ e, inside e.1 p && negb (bool_decide (e.1 = p))) (map_to_list f).

(** [os.rmdir]. *)
Definition rmdir (p : path) : M unit :=
  sys ;; let! f := get_fs in
  match f !! p with
  | Some (Dir _) => if occupied f p then oserror "directory not empty" else put_fs (delete p f)
  | Some _ => oserror "not a directory"
  | None => missing
  end.

(** [shutil.rmtree]: the entries, then the directory.  [quiet] handles the failure of one
    call: nothing with [ignore_errors=True], else it is raised. *)
Section rmtree.
Context (quiet : M unit → M unit).

Fixpoint rmtree_entries (fuel : nat) (p : path) : M unit :=
  match fuel with
  | O => ret tt
  | S fuel =>
      quiet sys ;;
      let! f := get_fs in
      miter (λ n,
        let q := child p n in
        let! g := get_fs in
        match g !! q with
        | Some (Dir _) => rmtree_entries fuel q ;; quiet (rmdir q)
        | _ => quiet (unlink q)
        end) (child_names f p)
  end.
(** Every level of a tree is a directory of its own. *)
Definition rmtree (p : path) : M unit :=
  let! f := get_fs in
  match f !! p with
  | Some (Dir _) => rmtree_entries (S (size f)) p ;; quiet (rmdir p)
  | Some _ => quiet (oserror "not a directory")
  | None => quiet missing
  end.
End rmtree.
Definition rmtree_quiet : path → M unit := rmtree ignore_oserror.

(** [p.mkdir(mode=mode)]. *)
Definition mkdir_new (p : path) (mode : Z) : M unit :=
  sys ;; let! f := get_fs in
  match f !! p with
  | Some _ => oserror "file exists"
  | None => if parent_is_dir f p then update p (Dir mode) else missing
  end.

(** [tempfile.mkdtemp(prefix, dir)]. *)
Fixpoint mkdtemp_go (fuel : nat) (prefix : string) (dir : path) : M path :=
  match fuel with
  | O => oserror "No usable temporary directory name found"
  | S fuel =>
      λ E w,
        let p := child dir (prefix +:+ rand E (w_tick w)) in
        (sys ;; let! f := get_fs in
         match f !! p with
         | Some _ => mkdtemp_go fuel prefix dir
         | None => if parent_is_dir f p then update p (Dir 448) ;; ret p else oserror "no such directory"
         end) E w
  end.
Definition mkdtemp : string → path → M path := mkdtemp_go TMP_MAX.

(** [with tempfile.TemporaryDirectory(prefix=prefix) as value]: a failure to remove it is raised. *)
Definition with_temporary_directory {A} (prefix : string) (dir : path) (body : path → M A) : M A :=
  let! t := mkdtemp prefix dir in finally (body t) (rmtree (λ m, m) t).

(** [open(p, "wb")]: the file is created or emptied; the file itself is the result. *)
Definition open_write (p : path) : M path :=
  sys ;; let! f := get_fs in
  match follow MAX_LINKS f p with
  | Some (q, File _ m) => update q (File "" m) ;; ret q
  | Some (_, Dir _) => oserror "is a directory"
  | Some (q, _) => ret q
  | None =>
      if opt_is (λ _, true) (f !! p) || negb (parent_is_dir f p) then missing
      else update p (File "" 420) ;; ret p
  end.
(** [p.write_bytes(data)]. *)
Definition write_bytes (p : path) (data : string) : M unit := let! q := open_write p in write_file q data.

(** [shutil.copy2(src, dst)]: the bytes, then the times and the mode. *)
Definition copy2 (src dst : path) : M unit :=
  let! n := open_read src in
  match n with
  | Dir _ => oserror "is a directory"
  | _ =>
      let! q := open_write dst in
      let! data := read_node n in
      write_file q data ;;
      let! info := stat src in sys ;; chmod dst (node_mode info)
  end.

(** [list(root.rglob(name))]. *)
Definition rglob (name : string) (root : path) : M (list path) :=
  sys ;; let! f := get_fs in
  ret (List.filter (λ p, inside p root && negb (bool_decide (p = root)) && (p_name p =s? name))
         (map fst (map_to_list f))).

(** [os.replace] of a directory: it takes the place of nothing or of an empty directory. *)
Definition swap_path (src dst p : path) : path :=
  match relative_to p src, relative_to p dst with
  | Some l, _ => under dst l.2
  | None, Some l => under src l.2
  | None, None => p
  end.
Definition move_tree (src dst : path) (f : fs) : fs :=
  filter (λ e, inside e.1 src = false)
    (kmap (swap_path src dst) (filter (λ e, inside e.1 dst = false) f)).
Definition replace_directory (src dst : path) : M unit :=
  sys ;; let! f := get_fs in
  match f !! src with
  | Some (Dir _) =>
      if inside dst src || inside src dst then oserror "invalid argument" else
      match f !! dst with
      | Some (Dir _) => if occupied f dst then oserror "directory not empty" else put_fs (move_tree src dst f)
      | Some _ => oserror "not a directory"
      | None => if parent_is_dir f dst then put_fs (move_tree src dst f) else missing
      end
  | Some _ => oserror "not a directory"
  | None => missing
  end.

(** ** Paths below a directory *)

Lemma strip_prefix_spec l k r : strip_prefix l k = Some r ↔ k = l ++ r.
Proof.
  revert k. induction l as [|x l IH]; intros k; simpl.
  - split; [by intros [= ->]|by intros ->].
  - destruct k as [|y k]; [done|]. destruct (eqs_spec x y) as [->|Hne].
    + rewrite IH. split; [by intros ->|by intros [= ->]].
    + split; [done|]. by intros [= -> _].
Qed.

Lemma relative_to_spec p d l : relative_to p d = Some l ↔ l.1 = false ∧ p = under d l.2.
Proof.
  unfold relative_to, under. destruct p as [pa pl], d as [da dl], l as [la ll]. simpl.
  destruct (Bool.eqb_spec pa da) as [->|Hne].
  - destruct (strip_prefix dl pl) as [r|] eqn:E.
    + apply strip_prefix_spec in E as ->. split; [by intros [= <- <-]|].
      intros [-> [= E]]. by apply app_inv_head in E as ->.
    + split; [done|]. intros [_ [= E2]]. assert (strip_prefix dl pl = Some ll) by by apply strip_prefix_spec.
      congruence.
  - split; [done|]. intros [_ [= E _]]. done.
Qed.

Lemma inside_spec p d : inside p d = true ↔ ∃ l, p = under d l.
Proof.
  unfold inside. destruct (relative_to p d) as [l|] eqn:E.
  - apply relative_to_spec in E as [_ ->]. split; [by exists l.2|done].
  - split; [done|]. intros [l ->]. assert (relative_to (under d l) d = Some (false, l)); [|congruence].
    by apply relative_to_spec.
Qed.
Lemma relative_under d l : relative_to (under d l) d = Some (false, l).
Proof. by apply relative_to_spec. Qed.
Lemma relative_outside p d : inside p d = false → relative_to p d = None.
Proof. unfold inside. by destruct (relative_to p d). Qed.

Lemma under_under d l k : under (under d l) k = under d (l ++ k).
Proof. unfold under. simpl. by rewrite app_assoc. Qed.
Lemma under_nil d : under d [] = d.
Proof. destruct d. unfold under. simpl. by rewrite app_nil_r. Qed.
Lemma under_inj d l k : under d l = under d k → l = k.
Proof. unfold under. intros [= E]. by apply app_inv_head in E. Qed.
Lemma child_under d n : child d n = under d [n].
Proof. done. Qed.

Lemma inside_refl p : inside p p = true.
Proof. apply inside_spec. exists []. by rewrite under_nil. Qed.
Lemma inside_trans p q r : inside p q = true → inside q r = true → inside p r = true.
Proof. rewrite !inside_spec. intros [l ->] [k ->]. exists (k ++ l). apply under_under. Qed.
Lemma inside_under d l : inside (under d l) d = true.
Proof. apply inside_spec. by exists l. Qed.
Lemma inside_child d n : inside (child d n) d = true.
Proof. apply inside_under. Qed.
Lemma inside_antisym p q : inside p q = true → inside q p = true → p = q.
Proof.
  rewrite !inside_spec. intros [l ->] [k E]. rewrite under_under in E.
  assert (l ++ k = []) as [-> _]%app_eq_nil by (apply (under_inj q); by rewrite <- E, under_nil).
  apply under_nil.
Qed.
Lemma inside_comparable p a b : inside p a = true → inside p b = true → inside a b = true ∨ inside b a = true.
Proof.
  rewrite !inside_spec. intros [l ->] [k E]. unfold under in *. destruct a as [x la], b as [y lb].
  simpl in *. injection E as -> E. apply app_eq_app in E as (z & [[-> ->]|[-> ->]]); [left|right]; by exists z.
Qed.

(** ** A directory that is renamed *)

Section move.
Context (src dst : path) (Hsd : inside src dst = false) (Hds : inside dst src = false).

Lemma swap_src l : swap_path src dst (under src l) = under dst l.
Proof. unfold swap_path. by rewrite relative_under. Qed.
Lemma swap_dst l : swap_path src dst (under dst l) = under src l.
Proof using Hsd Hds.
  unfold swap_path. rewrite relative_under. rewrite relative_outside; [done|].
  destruct (inside (under dst l) src) eqn:E; [|done].
  destruct (inside_comparable _ _ _ E (inside_under dst l)); congruence.
Qed.
Lemma swap_other p : inside p src = false → inside p dst = false → swap_path src dst p = p.
Proof. intros H1 H2. unfold swap_path. by rewrite !relative_outside. Qed.

Lemma swap_involutive p : swap_path src dst (swap_path src dst p) = p.
Proof using Hsd Hds.
  destruct (inside p src) eqn:E1; [|destruct (inside p dst) eqn:E2].
  - apply inside_spec in E1 as [l ->]. by rewrite swap_src, swap_dst.
  - apply inside_spec in E2 as [l ->]. by rewrite swap_dst, swap_src.
  - rewrite (swap_other p) by done. by apply swap_other.
Qed.
#[local] Instance swap_inj : Inj (=) (=) (swap_path src dst).
Proof using Hsd Hds. intros p q E. by rewrite <- (swap_involutive p), E, swap_involutive. Qed.

Lemma outside_lookup (f : fs) (d p : path) :
  filter (λ e, inside e.1 d = false) f !! p = if inside p d then None else f !! p.
Proof.
  destruct (inside p d) eqn:E.
  - apply map_lookup_filter_None. right. intros n _. simpl. congruence.
  - destruct (f !! p) as [n|] eqn:En.
    + apply map_lookup_filter_Some. by split.
    + apply map_lookup_filter_None. by left.
Qed.

Lemma move_tree_lookup f p :
  move_tree src dst f !! p =
    if inside p src then None else
    if inside p dst then f !! swap_path src dst p else f !! p.
Proof using Hsd Hds.
  unfold move_tree. rewrite outside_lookup. destruct (inside p src) eqn:E1; [done|].
  set (f' := filter _ f). rewrite <- (swap_involutive p) at 1.
  rewrite lookup_kmap by apply _. subst f'. rewrite outside_lookup.
  destruct (inside p dst) eqn:E2.
  - apply inside_spec in E2 as [l ->]. rewrite swap_dst.
    destruct (inside (under src l) dst) eqn:E3; [|done].
    destruct (inside_comparable _ _ _ E3 (inside_under src l)); congruence.
  - rewrite swap_other by done. by rewrite E2.
Qed.

Lemma move_tree_dst f l : move_tree src dst f !! under dst l = f !! under src l.
Proof using Hsd Hds.
  rewrite move_tree_lookup, inside_under, swap_dst.
  destruct (inside (under dst l) src) eqn:E; [|done].
  destruct (inside_comparable _ _ _ E (inside_under dst l)); congruence.
Qed.
Lemma move_tree_src f p : inside p src = true → move_tree src dst f !! p = None.
Proof using Hsd Hds. intros E. by rewrite move_tree_lookup, E. Qed.
Lemma move_tree_other f p :
  inside p src = false → inside p dst = false → move_tree src dst f !! p = f !! p.
Proof using Hsd Hds. intros E1 E2. by rewrite move_tree_lookup, E1, E2. Qed.
End move.

(** ** What may change

    [framed T f g]: outside [T] nothing changed, except that directories on the way to [T]
    may be new. *)

Definition framed (T : path → Prop) (f g : fs) : Prop :=
  ∀ p, ¬ T p → g !! p = f !! p ∨
    (f !! p = None ∧ (∃ m, g !! p = Some (Dir m)) ∧ ∃ q, T q ∧ inside q p = true).
Definition within (d : path) : path → Prop := λ p, inside p d = true.

Lemma framed_refl T f : framed T f f.
Proof. by intros p _; left. Qed.
Lemma framed_trans T f g h : framed T f g → framed T g h → framed T f h.
Proof.
  intros H1 H2 p Hp.
  destruct (H1 p Hp) as [E1|(E1 & [m E1'] & Hq)], (H2 p Hp) as [E2|(E2 & [m' E2'] & Hq')].
  - left. congruence.
  - right. split; [congruence|eauto].
  - right. split; [done|]. rewrite E2. eauto.
  - congruence.
Qed.
Lemma framed_weaken (T U : path → Prop) f g : (∀ p, T p → U p) → framed T f g → framed U f g.
Proof.
  intros HT H p Hp. destruct (H p) as [E|(E & Hm & q & Hq & Hi)]; [auto|by left|].
  right. eauto 6.
Qed.
Lemma framed_insert (T : path → Prop) f p n : T p → framed T f (<[p := n]> f).
Proof. intros HT q Hq. left. apply lookup_insert_ne. by intros ->. Qed.
Lemma framed_delete (T : path → Prop) f p : T p → framed T f (delete p f).
Proof. intros HT q Hq. left. apply lookup_delete_ne. by intros ->. Qed.
Lemma framed_relinked T f g : framed T f g → relinked T f g.
Proof. intros H p Hp. destruct (H p Hp) as [E|(E & Hm & _)]; [by left|by right]. Qed.
Lemma framed_missing T f g p : framed T f g → ¬ T p → g !! p = None → f !! p = None.
Proof. intros H Hp E. destruct (H p Hp) as [E'|(E' & _)]; [congruence|done]. Qed.
(** What lies away from every path of [T] is exactly as before. *)
Lemma framed_apart T f g p :
  framed T f g → ¬ T p → (∀ q, T q → inside q p = false) → g !! p = f !! p.
Proof.
  intros H Hp Ha. destruct (H p Hp) as [E|(_ & _ & q & Hq & Hi)]; [done|]. rewrite Ha in Hi; done.
Qed.

(** ** Computations confined to a part of the tree

    [confined T b m]: outside [T] no node changes; only with [b] an exception can be raised,
    and it is an [OSError]. *)

Definition same_on (T : path → Prop) (f g : fs) : Prop := ∀ q, ¬ T q → g !! q = f !! q.
Definition below (d : path) : path → Prop := λ p, inside p d = true ∧ p ≠ d.

Lemma same_on_refl T f : same_on T f f.
Proof. by intros q _. Qed.
Lemma same_on_trans T f g h : same_on T f g → same_on T g h → same_on T f h.
Proof. intros H1 H2 q Hq. by rewrite (H2 q Hq), (H1 q Hq). Qed.
Lemma same_on_weaken (T U : path → Prop) f g : (∀ p, T p → U p) → same_on T f g → same_on U f g.
Proof. intros HT H q Hq. apply H. auto. Qed.
Lemma same_on_framed T f g : same_on T f g → framed T f g.
Proof. intros H q Hq. left. by apply H. Qed.
Lemma same_on_insert (T : path → Prop) f p n : T p → same_on T f (<[p := n]> f).
Proof. intros HT q Hq. apply lookup_insert_ne. by intros ->. Qed.
Lemma same_on_delete (T : path → Prop) f p : T p → same_on T f (delete p f).
Proof. intros HT q Hq. apply lookup_delete_ne. by intros ->. Qed.

Definition confined {A} (T : path → Prop) (b : bool) (m : M A) : Prop :=
  ∀ E w, same_on T (w_fs w) (w_fs (m E w).2) ∧
    match (m E w).1 with Ok _ => True | Raise e => b = true ∧ os_exn e end.

Lemma confined_ret {A} (T : path → Prop) (b : bool) (a : A) : confined T b (ret a).
Proof. split; [apply same_on_refl|done]. Qed.
Lemma confined_get_fs (T : path → Prop) (b : bool) : confined T b get_fs.
Proof. split; [apply same_on_refl|done]. Qed.
Lemma confined_sys (T : path → Prop) : confined T true sys.
Proof. intros E w. split; [apply same_on_refl|]. unfold sys. by destruct (fault E (w_tick w)). Qed.
Lemma confined_throw {A} (T : path → Prop) e : os_exn e → confined T true (@throw A e).
Proof. intros He E w. by split; [apply same_on_refl|]. Qed.
Lemma confined_bind {A B} (T : path → Prop) (b : bool) (m : M A) (c : A → M B) :
  confined T b m → (∀ a, confined T b (c a)) → confined T b (bind m c).
Proof.
  intros Hm Hc E w. destruct (Hm E w) as [H1 H2]. unfold bind.
  destruct (m E w) as [[a|e] w1]; simpl in *; [|done].
  destruct (Hc a E w1) as [H3 H4]. split; [by eapply same_on_trans|done].
Qed.
Lemma confined_get_bind {A} (T : path → Prop) (b : bool) (c : fs → M A) :
  (∀ (E : env) (w : world), same_on T (w_fs w) (w_fs (c (w_fs w) E w).2) ∧
     match (c (w_fs w) E w).1 with Ok _ => True | Raise e => b = true ∧ os_exn e end) →
  confined T b (bind get_fs c).
Proof. intros H E w. apply H. Qed.
Lemma confined_weaken {A} (T U : path → Prop) (b : bool) (m : M A) :
  (∀ p, T p → U p) → confined T b m → confined U b m.
Proof. intros HT H E w. destruct (H E w) as [H1 H2]. split; [by eapply same_on_weaken|done]. Qed.
Lemma confined_ignore (T : path → Prop) m : confined T true m → confined T false (ignore_oserror m).
Proof.
  intros H E w. destruct (H E w) as [H1 H2]. unfold ignore_oserror, try_with.
  destruct (m E w) as [[a|e] w1]; simpl in *; [done|]. destruct H2 as [_ H2].
  unfold except. simpl. rewrite H2. simpl. done.
Qed.
Lemma confined_miter {A} (T : path → Prop) (b : bool) (c : A → M unit) l : (∀ a, confined T b (c a)) → confined T b (miter c l).
Proof. intros H. induction l as [|a l IH]; simpl; [apply confined_ret|]. by apply confined_bind. Qed.
Lemma wp_confined {A} (T : path → Prop) (b : bool) (m : M A) E f k (Φ : res A → world → Prop) :
  confined T b m →
  (∀ a g k, same_on T f g → Φ (Ok a) (World g k)) →
  (∀ e g k, b = true → os_exn e → same_on T f g → Φ (Raise e) (World g k)) →
  wp m E (World f k) Φ.
Proof.
  intros H Ho Hr. destruct (H E (World f k)) as [H1 H2]. unfold wp.
  destruct (m E (World f k)) as [[a|e] [g k']]; simpl in *; [by apply Ho|]. destruct H2. by apply Hr.
Qed.

Lemma confined_unlink p : confined (only p) true (unlink p).
Proof.
  apply confined_bind; [apply confined_sys|]. intros _. apply confined_get_bind. intros E w.
  destruct (w_fs w !! p) as [[]|]; simpl; (split; [|done]); try apply same_on_refl; by apply same_on_delete.
Qed.
Lemma confined_rmdir p : confined (only p) true (rmdir p).
Proof.
  apply confined_bind; [apply confined_sys|]. intros _. apply confined_get_bind. intros E w.
  destruct (w_fs w !! p) as [[]|]; [| destruct (occupied _ _) | |..]; simpl; (split; [|done]);
    try apply same_on_refl; by apply same_on_delete.
Qed.

Lemma child_ne d n : child d n ≠ d.
Proof.
  intros H. apply (f_equal (λ q : path, length q.2)) in H. unfold child in H. simpl in H.
  rewrite length_app in H. simpl in H. lia.
Qed.
Lemma below_child d n p : inside p (child d n) = true → below d p.
Proof.
  intros H. split; [eapply inside_trans; [done|apply inside_child]|].
  intros ->. apply (child_ne d n), inside_antisym; [apply inside_child|done].
Qed.

Section rmtree_confined.
Context (quiet : M unit → M unit) (b : bool) (Hq : ∀ T m, confined T true m → confined T b (quiet m)).

Lemma confined_rmtree_entries fuel p : confined (below p) b (rmtree_entries quiet fuel p).
Proof using Hq.
  revert p. induction fuel as [|fuel IH]; intros p; simpl; [apply confined_ret|].
  apply confined_bind; [apply Hq, confined_sys|]. intros _.
  apply confined_bind; [apply confined_get_fs|]. intros f. apply confined_miter. intros n.
  apply confined_bind; [apply confined_get_fs|]. intros g.
  assert (H1 : confined (below p) b (quiet (unlink (child p n)))).
  { eapply confined_weaken; [|apply Hq, confined_unlink]. intros q ->. eapply below_child, inside_refl. }
  destruct (g !! child p n) as [[]|]; try exact H1. apply confined_bind; [|intros _].
  - eapply confined_weaken; [|apply IH]. intros q [Hi _]. by eapply below_child.
  - eapply confined_weaken; [|apply Hq, confined_rmdir]. intros q ->. eapply below_child, inside_refl.
Qed.

Lemma confined_rmtree p : confined (within p) b (rmtree quiet p).
Proof using Hq.
  apply confined_bind; [apply confined_get_fs|]. intros f.
  assert (Hno : ∀ msg, confined (within p) b (quiet (oserror msg))).
  { intros msg. by apply Hq, confined_throw. }
  destruct (f !! p) as [[]|]; try apply Hno; [|by apply Hq, confined_throw].
  apply confined_bind; [|intros _].
  - eapply confined_weaken; [|apply confined_rmtree_entries]. by intros q [].
  - eapply confined_weaken; [|apply Hq, confined_rmdir]. intros q ->. apply inside_refl.
Qed.
End rmtree_confined.

(** [rmtree] without [ignore_errors]. *)
Lemma wp_rmtree p E f k (Φ : res unit → world → Prop) :
  (∀ g k, same_on (within p) f g → Φ (Ok tt) (World g k)) →
  (∀ e g k, os_exn e → same_on (within p) f g → Φ (Raise e) (World g k)) →
  wp (rmtree (λ m, m) p) E (World f k) Φ.
Proof.
  intros Ho Hr. eapply (wp_confined (within p) true); [by apply confined_rmtree| |].
  - intros [] g k'. apply Ho.
  - intros e g k' _. apply Hr.
Qed.

Lemma occupied_false f p q : occupied f p = false → inside q p = true → q ≠ p → f !! q = None.
Proof.
  intros H Hi Hne. destruct (f !! q) as [n|] eqn:E; [|done].
  apply elem_of_map_to_list in E. rewrite list_elem_of_In in E.
  assert (occupied f p = true); [|congruence].
  apply existsb_exists. exists (q, n). split; [done|]. simpl. rewrite Hi. by rewrite bool_decide_eq_false_2.
Qed.

(** With it the call always returns; a directory that is gone afterwards left nothing. *)
Lemma wp_rmtree_quiet p E f k (Φ : res unit → world → Prop) :
  (∀ g k, same_on (within p) f g →
     (g !! p = None → f !! p = None ∧ g = f ∨ ∀ q, inside q p = true → g !! q = None) →
     Φ (Ok tt) (World g k)) →
  wp (rmtree_quiet p) E (World f k) Φ.
Proof.
  intros Ho. unfold rmtree_quiet, rmtree. apply wp_bind, wp_get_fs.
  assert (Hsame : ∀ k, f !! p = None → Φ (Ok tt) (World f k)).
  { intros k' Hp. apply Ho; [apply same_on_refl|]. by left. }
  assert (Hother : ∀ msg k, f !! p ≠ None → wp (ignore_oserror (oserror msg)) E (World f k) Φ).
  { intros msg k' Hp. apply Ho; [apply same_on_refl|done]. }
  destruct (f !! p) as [[]|] eqn:Hp; try (by apply Hother); [|by apply (Hsame k)].
  apply wp_bind. eapply wp_confined; [apply (confined_rmtree_entries _ false confined_ignore)| |done].
  intros [] g k1 Hg.
  assert (Hgp : g !! p = Some (Dir mode)).
  { rewrite (Hg p); [done|]. by intros [_ []]. }
  assert (Hw : same_on (within p) f g) by by eapply same_on_weaken; [|exact Hg]; intros q [].
  apply wp_ignore_oserror. unfold rmdir. apply wp_bind, wp_sys.
  2: { intros e k2 He. unfold os_exn in He. rewrite He. apply Ho; [done|]. congruence. }
  intros k2. apply wp_bind, wp_get_fs. rewrite Hgp. destruct (occupied g p) eqn:Hocc.
  - apply wp_throw. simpl. apply Ho; [done|]. congruence.
  - unfold wp, put_fs. simpl. apply Ho.
    + eapply same_on_trans; [done|]. apply same_on_delete. apply inside_refl.
    + intros _. right. intros q Hq. destruct (decide (q = p)) as [->|Hne]; [by rewrite lookup_delete_eq|].
      rewrite lookup_delete_ne by done. by eapply occupied_false.
Qed.

(** ** Rules for the other calls *)

Lemma wp_mkdir_new p mode E f k (Φ : res unit → world → Prop) :
  (∀ k, f !! p = None → Φ (Ok tt) (World (<[p := Dir mode]> f) k)) →
  (∀ e k, os_exn e → Φ (Raise e) (World f k)) →
  wp (mkdir_new p mode) E (World f k) Φ.
Proof.
  intros Ho Hr. unfold mkdir_new. apply wp_bind, wp_sys; [intros k1|intros; by apply Hr].
  apply wp_bind, wp_get_fs. destruct (f !! p) eqn:Hp; [by apply wp_throw, Hr|].
  destruct (parent_is_dir f p); [|by apply wp_throw, Hr]. unfold update, wp, put_fs. simpl. by apply Ho.
Qed.

Lemma wp_mkdtemp prefix dir E f k (Φ : res path → world → Prop) :
  (∀ t k, t ≠ dir → inside t dir = true → f !! t = None → Φ (Ok t) (World (<[t := Dir 448]> f) k)) →
  (∀ e k, os_exn e → Φ (Raise e) (World f k)) →
  wp (mkdtemp prefix dir) E (World f k) Φ.
Proof.
  intros Ho Hr. unfold mkdtemp. revert k. generalize TMP_MAX. intros n. induction n as [|n IH]; intros k.
  - by apply wp_throw, Hr.
  - unfold wp. cbn [mkdtemp_go w_tick]. set (t := child dir _).
    match goal with |- Φ (?m E ?w).1 _ => change (wp m E w Φ) end.
    apply wp_bind, wp_sys; [intros k1|intros; by apply Hr]. apply wp_bind, wp_get_fs.
    destruct (f !! t) eqn:Ht; [apply IH|].
    destruct (parent_is_dir f t); [|by apply wp_throw, Hr].
    unfold wp, update, put_fs, bind. simpl. apply Ho; [apply child_ne|apply inside_child|done].
Qed.

(** Directories on the way to [p] may be new, and nothing else. *)
Definition dirs_to (p : path) (f g : fs) : Prop :=
  ∀ q, g !! q = f !! q ∨ (f !! q = None ∧ (∃ m, g !! q = Some (Dir m)) ∧ inside p q = true).
Lemma dirs_to_refl p f : dirs_to p f f.
Proof. by intros q; left. Qed.
Lemma dirs_to_trans p f g h : dirs_to p f g → dirs_to p g h → dirs_to p f h.
Proof.
  intros H1 H2 q.
  destruct (H1 q) as [E1|(E1 & [m E1'] & Hq)], (H2 q) as [E2|(E2 & [m' E2'] & Hq')].
  - left. congruence.
  - right. split; [congruence|eauto].
  - right. split; [done|]. rewrite E2. eauto.
  - congruence.
Qed.
Lemma dirs_to_framed (T : path → Prop) p f g : T p → dirs_to p f g → framed T f g.
Proof. intros HT H q Hq. destruct (H q) as [E|(E & Hm & Hi)]; [by left|]. right. eauto 6. Qed.
Lemma dirs_to_link p f g q : dirs_to p f g → link_at g q = link_at f q.
Proof. intros H. unfold link_at. by destruct (H q) as [->|(-> & [m ->] & _)]. Qed.
Lemma dirs_to_apart p f g q : dirs_to p f g → inside p q = false → g !! q = f !! q.
Proof. intros H Hi. destruct (H q) as [E|(_ & _ & E)]; [done|congruence]. Qed.
Lemma dirs_to_file p f g q d m : dirs_to p f g → f !! q = Some (File d m) → g !! q = Some (File d m).
Proof. intros H E. destruct (H q) as [->|(E' & _)]; congruence. Qed.
Lemma dirs_to_missing p f g q : dirs_to p f g → g !! q = None → f !! q = None.
Proof. intros H E. destruct (H q) as [<-|(E' & _)]; done. Qed.

Lemma prefixes_inside p l : In l (prefixes_of [] p.2) → inside p (p.1, l) = true.
Proof.
  assert (Hp : ∀ rest (before : list string) l, In l (prefixes_of before rest) → ∃ k, before ++ rest = l ++ k).
  { intros rest. induction rest as [|x rest IH]; intros before l'; simpl; [done|].
    intros [<-|H']; [exists rest; by rewrite <- app_assoc|].
    destruct (IH _ _ H') as [k2 E']. exists k2. by rewrite <- E', <- app_assoc. }
  intros Hl. apply inside_spec. destruct (Hp p.2 [] l Hl) as [k2 E']. exists k2. unfold under.
  simpl in *. rewrite <- E'. by destruct p.
Qed.

Lemma wp_mkdir_parents_to p mode E f k (Φ : res unit → world → Prop) :
  (∀ g k, dirs_to p f g → Φ (Ok tt) (World g k)) →
  (∀ e g k, os_exn e → dirs_to p f g → Φ (Raise e) (World g k)) →
  wp (mkdir_parents p mode) E (World f k) Φ.
Proof.
  intros Ho Hr. unfold mkdir_parents.
  apply wp_bind, wp_sys; [|intros; apply Hr; [done|apply dirs_to_refl]]. intros k1.
  pose proof (prefixes_inside p) as Hl. revert Hl. generalize (prefixes_of [] p.2). intros l Hl.
  assert (Hgo : ∀ g k2, dirs_to p f g →
    wp (miter (λ l, mkdir1 (p.1, l) (if bool_decide (l = p.2) then mode else 493)) l) E (World g k2) Φ).
  { induction l as [|x l IH]; intros g k2 Hg; simpl; [by apply Ho|].
    assert (Hl' : ∀ l', In l' l → inside p (p.1, l') = true) by (intros; apply Hl; by right).
    apply wp_bind. unfold mkdir1. apply wp_bind, wp_get_fs.
    destruct (stat_node g (p.1, x)) as [[]|]; try (by apply wp_throw, Hr); [by apply wp_ret, IH|].
    destruct (g !! (p.1, x)) eqn:Hx; simpl; [by apply wp_throw, Hr|].
    unfold update, wp, put_fs. simpl. apply IH; [done|]. eapply dirs_to_trans; [exact Hg|].
    intros q. destruct (decide (q = (p.1, x))) as [->|Hne].
    - right. split; [done|]. split; [rewrite lookup_insert_eq; eauto|]. apply Hl. by left.
    - left. by apply lookup_insert_ne. }
  apply Hgo, dirs_to_refl.
Qed.

(** Opening for writing a path that is no link. *)
Lemma wp_open_write p E f k (Φ : res path → world → Prop) :
  link_at f p = None →
  (∀ m k, Φ (Ok p) (World (<[p := File "" m]> f) k)) →
  (∀ k, f !! p = Some Special → Φ (Ok p) (World f k)) →
  (∀ e k, os_exn e → Φ (Raise e) (World f k)) →
  wp (open_write p) E (World f k) Φ.
Proof.
  intros Hl Ho Hs Hr. unfold open_write. apply wp_bind, wp_sys; [intros k1|intros; by apply Hr].
  apply wp_bind, wp_get_fs. unfold link_at in Hl. unfold MAX_LINKS. cbn [follow].
  destruct (f !! p) as [[d m|m|t|]|] eqn:Hp; try done.
  - unfold wp, update, put_fs, bind. simpl. apply Ho.
  - by apply wp_throw, Hr.
  - by apply wp_ret, Hs.
  - simpl. destruct (negb (parent_is_dir f p)); simpl; [by apply wp_throw, Hr|].
    unfold wp, update, put_fs, bind. simpl. apply Ho.
Qed.

Lemma wp_write_file p data E f k (Φ : res unit → world → Prop) :
  (∀ d m k, f !! p = Some (File d m) → Φ (Ok tt) (World (<[p := File data m]> f) k)) →
  (∀ e k, os_exn e → Φ (Raise e) (World f k)) →
  wp (write_file p data) E (World f k) Φ.
Proof.
  intros Ho Hr. unfold write_file. apply wp_bind, wp_sys; [intros k1|intros; by apply Hr].
  apply wp_bind, wp_get_fs. destruct (f !! p) as [[d m| | |]|] eqn:Hp; try (by apply wp_throw, Hr).
  unfold wp, update, put_fs. simpl. by eapply Ho.
Qed.

Lemma wp_write_bytes p data E f k (Φ : res unit → world → Prop) :
  link_at f p = None →
  (∀ m k, Φ (Ok tt) (World (<[p := File data m]> f) k)) →
  (∀ e k, os_exn e → Φ (Raise e) (World f k)) →
  (∀ e m k, os_exn e → Φ (Raise e) (World (<[p := File "" m]> f) k)) →
  wp (write_bytes p data) E (World f k) Φ.
Proof.
  intros Hl Ho Hr He. unfold write_bytes. apply wp_bind, wp_open_write; [done| | |intros; by apply Hr].
  - intros m k1. apply wp_write_file; [|intros; by apply He]. intros d m' k2. rewrite lookup_insert_eq.
    intros [= <- <-]. rewrite insert_insert_eq. apply Ho.
  - intros k1 Hs. apply wp_write_file; [|intros; by apply Hr]. congruence.
Qed.

Lemma wp_open_read p E f k (Φ : res node → world → Prop) :
  (∀ n k, stat_node f p = Some n → Φ (Ok n) (World f k)) →
  (∀ e k, os_exn e → Φ (Raise e) (World f k)) →
  wp (open_read p) E (World f k) Φ.
Proof.
  intros Ho Hr. unfold open_read. apply wp_bind, wp_sys; [intros k1|intros; by apply Hr].
  apply wp_bind, wp_get_fs. destruct (stat_node f p) eqn:Hp; [by apply wp_ret, Ho|by apply wp_throw, Hr].
Qed.
Lemma wp_read_node n E f k (Φ : res string → world → Prop) :
  (∀ d k, (∀ d' m, n = File d' m → d = d') → Φ (Ok d) (World f k)) →
  (∀ e k, os_exn e → Φ (Raise e) (World f k)) →
  wp (read_node n) E (World f k) Φ.
Proof.
  intros Ho Hr. unfold read_node. apply wp_bind, wp_sys; [intros k1|intros; by apply Hr].
  destruct n; first [by apply wp_throw, Hr|apply wp_ret, Ho; by intros ? ? [= ->]|apply wp_ret, Ho; done].
Qed.
Lemma wp_chmod_file p d m mode E f k (Φ : res unit → world → Prop) :
  f !! p = Some (File d m) →
  (∀ k, Φ (Ok tt) (World (<[p := File d mode]> f) k)) →
  (∀ e k, os_exn e → Φ (Raise e) (World f k)) →
  wp (chmod p mode) E (World f k) Φ.
Proof. intros Hp. eapply wp_outcome. by apply (chmod_outcome _ (World f k) p d m). Qed.
Lemma wp_stat p E f k (Φ : res node → world → Prop) :
  (∀ n k, stat_node f p = Some n → Φ (Ok n) (World f k)) →
  (∀ e k, os_exn e → Φ (Raise e) (World f k)) →
  wp (stat p) E (World f k) Φ.
Proof. apply wp_open_read. Qed.

(** Only the target of a copy changes; from a regular file it gets the bytes. *)
Lemma wp_copy2 src dst E f k (Φ : res unit → world → Prop) :
  link_at f dst = None →
  (∀ d m k, (∀ d' m', f !! src = Some (File d' m') → src ≠ dst → d = d') →
     Φ (Ok tt) (World (<[dst := File d m]> f) k)) →
  (∀ e g k, os_exn e → same_on (only dst) f g → Φ (Raise e) (World g k)) →
  wp (copy2 src dst) E (World f k) Φ.
Proof.
  intros Hl Ho Hr. pose proof (same_on_refl (only dst) f) as Hrefl.
  assert (Hins : ∀ d m, same_on (only dst) f (<[dst := File d m]> f)) by (intros; by apply same_on_insert).
  unfold copy2. apply wp_bind, wp_open_read; [|intros; by apply Hr]. intros n k1 Hn.
  assert (Hgo : wp (let! q := open_write dst in let! data := read_node n in write_file q data ;;
      let! info := stat src in sys ;; chmod dst (node_mode info)) E (World f k1) Φ).
  { apply wp_bind, wp_open_write; [done| | |intros; by apply Hr].
    - intros m k2. apply wp_bind, wp_read_node; [|intros; by apply Hr]. intros d k3 Hd.
      apply wp_bind, wp_write_file; [|intros; by apply Hr]. intros d1 m1 k4.
      rewrite lookup_insert_eq. intros [= <- <-]. rewrite insert_insert_eq.
      apply wp_bind, wp_stat; [|intros; by apply Hr]. intros info k5 _.
      apply wp_bind, wp_sys; [intros k6|intros; by apply Hr].
      eapply wp_chmod_file; [by rewrite lookup_insert_eq| |intros; by apply Hr].
      intros k7. rewrite insert_insert_eq. apply Ho. intros d' m' Hs _.
      rewrite (stat_file _ _ _ _ Hs) in Hn. injection Hn as <-. by eapply Hd.
    - intros k2 Hs. apply wp_bind, wp_read_node; [|intros; by apply Hr]. intros d k3 _.
      apply wp_bind, wp_write_file; [|intros; by apply Hr]. congruence. }
  destruct n; try exact Hgo. by apply wp_throw, Hr.
Qed.

Lemma wp_replace_directory src dst E f k (Φ : res unit → world → Prop) :
  (∀ k, inside src dst = false → inside dst src = false → (∀ n, f !! dst = Some n → is_dirn n = true) →
     Φ (Ok tt) (World (move_tree src dst f) k)) →
  (∀ e k, os_exn e → Φ (Raise e) (World f k)) →
  wp (replace_directory src dst) E (World f k) Φ.
Proof.
  intros Ho Hr. unfold replace_directory. apply wp_bind, wp_sys; [intros k1|intros; by apply Hr].
  apply wp_bind, wp_get_fs. destruct (f !! src) as [[]|]; try (by apply wp_throw, Hr).
  destruct (inside dst src) eqn:E1; [by apply wp_throw, Hr|].
  destruct (inside src dst) eqn:E2; [by apply wp_throw, Hr|]. cbn [orb].
  destruct (f !! dst) as [[]|]; try (by apply wp_throw, Hr).
  - destruct (occupied f dst); [by apply wp_throw, Hr|]. unfold wp, put_fs. simpl.
    apply Ho; [done|done|]. by intros n [= <-].
  - destruct (parent_is_dir f dst); [|by apply wp_throw, Hr]. unfold wp, put_fs. simpl. by apply Ho.
Qed.
