(* ===== verification/Bundle.v ===== *)
(** * Release bundles

    What [cloud/cloudx_cloud/release.py] and [local/cloudx_local/updater.py] share in the same
    words: the archive that is unpacked, the signed manifest, the artifact it names and the
    self-check of an artifact.  Mapped to [release.py].

    The decoding of the compressed archive, [ssh-keygen] and the interpreter that runs the
    self-check are programs of the host and enter as a record; they change no file. *)

From S2P Require Import Prelude PyStr PyFloat PyValue PyJson PySha FS LocalConfig CpaAuth Releases Trees.

Definition MAX_BUNDLE_BYTES : Z := 64 * 1024 * 1024.
Definition MANIFEST : string := "manifest.json".
Definition MANIFEST_SCHEMA : string := "cloudx.release-manifest.v1".

Inductive member_kind := MDir | MFile | MLink | MOther.
(** One member of an archive; [None]: its bytes cannot be read. *)
Record member := Member { tm_name : string; tm_kind : member_kind; tm_data : option string }.

Record host := Host {
  tmpdir : path;
  signers : string;                                  (* the package data [allowed_signers] *)
  tar_members : string → res (list member);
  ssh_keygen : fs → path → string → path → Z;        (* signers file, message, signature file *)
  run_artifact : fs → path → res (Z * string) }.     (* exit code and output of [self-check] *)

Section bundle.
Context (H : host).
Definition refuse {A} (msg : string) : M A := mraise RuntimeError msg.

(** [stream.read(MAX_BUNDLE_BYTES + 1)] on a stream that holds [available]. *)
Definition read_bundle (available : string) : res string :=
  let raw := str_take_z (MAX_BUNDLE_BYTES + 1) available in
  if MAX_BUNDLE_BYTES <? str_len raw then raise RuntimeError "release bundle exceeds 64 MiB"
  else if raw =s? "" then raise RuntimeError "release bundle is empty" else Ok raw.

(** One turn of the loop of [_extract]. *)
Definition extract_member (destination : path) (m : member) : M unit :=
  let parts := path_parts (tm_name m) in
  if starts_with "/" (tm_name m) || mem ".." parts then refuse "release bundle contains an unsafe path" else
  let target := under destination parts in
  match tm_kind m with
  | MLink | MOther => refuse "release bundle contains an unsupported member"
  | MDir => mkdir_parents target 511
  | MFile =>
      mkdir_parents (p_parent target) 511 ;;
      match tm_data m with
      | None => refuse "release bundle member could not be read"
      | Some data => write_bytes target data
      end
  end.
Definition extract (raw : string) (destination : path) : M unit :=
  let! members := lift (tar_members H raw) in
  miter (extract_member destination) members.

Definition allowed_signers : M string :=
  if signers H =s? "" then refuse "release signer trust root is missing" else ret (signers H).

Definition verify_signature (manifest signature : path) : M unit :=
  let! signer_path := mkstemp "cloudx-signers-" (tmpdir H) in
  let! data := allowed_signers in
  write_file signer_path data ;;
  let! code := finally
    (let! input := read_bytes manifest in
     sys ;; let! f := get_fs in ret (ssh_keygen H f signer_path input signature))
    (unlink_missing_ok signer_path) in
  if code =? 0 then ret tt else refuse "release signature verification failed".

(** [p.with_suffix(suffix)]. *)
Definition with_suffix (p : path) (suffix : string) : path := child (p_parent p) (p_stem p +:+ suffix).

(** The elements of a [for] loop over a JSON value. *)
Definition elements (v : json) : res (list json) :=
  match v with
  | JList l => Ok l
  | JDict d => Ok (map (λ kv, JStr kv.1) d)
  | JStr s => Ok (map (λ c, JStr (String c "")) (chars s))
  | _ => raise TypeError "object is not iterable"
  end.
Definition is_record (component : string) (item : json) : bool :=
  match item with JDict r => eq_str (dget "component" r) component | _ => false end.

Section files.
Context (component bundle_words product_words : string) (public : json → res json).

Definition load_manifest (manifest_path : path) : M json :=
  try_with (let! text := read_text manifest_path in lift (loads text))
    (except [OSError; JSONDecodeError] (λ _, refuse "release manifest is invalid")).

(** The manifest as a dictionary, of this product, with a version, not activated by itself. *)
Definition accept_manifest (manifest : json) : M dict :=
  match manifest with
  | JDict d =>
      if negb (eq_str (dget "schema" d) MANIFEST_SCHEMA)
      then refuse "release manifest schema is unsupported" else
      let! _ := lift (public manifest) in
      if negb (eq_str (dget "product" d) "cloudx") || negb (is_str (dget "version" d))
      then refuse (product_words +:+ " product or version is invalid") else
      match dget "activation" d with
      | JDict a => if negb (is_false (dget "automatic" a))
                   then refuse "release manifest permits automatic activation" else ret d
      | _ => refuse "release manifest permits automatic activation"
      end
  | _ => refuse "release manifest schema is unsupported"
  end.

(** The one record of the component. *)
Definition component_record (d : dict) : M dict :=
  let! items := lift (elements (dget_or "artifacts" (JList []) d)) in
  match List.filter (is_record component) items with
  | [JDict r] => ret r
  | _ => refuse ("release manifest must contain one " +:+ component +:+ " artifact")
  end.

Definition release_files (root : path) : M (path * path * path * dict) :=
  let! manifests := rglob MANIFEST root in
  match manifests with
  | [manifest_path] =>
      let signature_path := with_suffix manifest_path ".json.sig" in
      let! signed := is_file_p signature_path in
      if negb signed then refuse "release signature is missing" else
      verify_signature manifest_path signature_path ;;
      let! manifest := load_manifest manifest_path in
      let! d := accept_manifest manifest in
      let! record := component_record d in
      let artifact := path_join (p_parent manifest_path) (str_or_empty (dget "name" record)) in
      let! present := is_file_p artifact in
      if negb present then refuse (component +:+ " release artifact is missing") else
      let! info := stat artifact in
      let differs := refuse (component +:+ " release artifact hash does not match the manifest") in
      if negb (py_eq (JInt (node_size info)) (dget "size" record)) then differs else
      let! sha := file_digest artifact in
      if negb (py_eq (JStr sha) (dget "sha256" record)) then differs else
      ret (manifest_path, signature_path, artifact, d)
  | _ => refuse (bundle_words +:+ " must contain exactly one manifest")
  end.

Definition verify_artifact_self_check (artifact : path) (version : string) (protocol : json) : M unit :=
  let staged := "staged " +:+ component +:+ " artifact " in
  let! (code, out) := (sys ;; let! f := get_fs in lift (run_artifact H f artifact)) in
  let! document := try_with (lift (loads_bytes out))
    (except [UnicodeDecodeError; JSONDecodeError] (λ _, refuse (staged +:+ "returned an invalid self-check"))) in
  match document with
  | JDict d =>
      if negb (code =? 0) then refuse (staged +:+ "failed its self-check") else
      if negb (eq_str (dget "schema" d) "cloudx.self-check.v1") || negb (eq_str (dget "component" d) component)
      then refuse (staged +:+ "returned the wrong self-check contract") else
      if negb (eq_str (dget "version" d) version) then refuse (staged +:+ "failed version self-check") else
      if negb (py_eq (dget "protocol" d) protocol) then refuse (staged +:+ "failed protocol self-check") else
      if negb (eq_str (dget "status" d) "ok") then refuse (staged +:+ "self-check is not healthy") else ret tt
  | _ => refuse (staged +:+ "failed its self-check")
  end.
End files.
End bundle.
