(* ===== verification/CloudStage.v ===== *)
(** * Staging a release on the cloud host ([cloud/cloudx_cloud/release.py])

    A bundle is unpacked, its manifest and its artifact are verified, and the release is
    built in a directory of its own that is renamed to its place when it is complete.  No
    selector moves. *)

From S2P Require Import Prelude PyStr PyFloat PyValue PyJson PySha PublicMetadata FS LocalConfig CpaAuth.
From S2P Require Import Releases Trees Bundle CloudRelease.

(** [any(test(x) for x in l)]. *)
Fixpoint some_of {A} (test : A → M bool) (l : list A) : M bool :=
  match l with
  | [] => ret false
  | x :: l => let! b := test x in if b then ret true else some_of test l
  end.

Section stage.
Context (H : host) (root : path) (pid : Z).

Definition cloud_release_files : path → M (path * path * path * dict) :=
  release_files H "cloud" "release bundle" "release manifest" validate_public_document.

(** The arguments by which a compatibility release is pinned. *)
Record pinned := Pinned {
  expected_version : option string;
  expected_source_commit : option string;
  expected_manifest_sha256 : option string }.
Definition given (o : option string) : bool := match o with Some s => s <>s? "" | None => false end.
Definition differs (v : json) (o : option string) : bool := negb (py_eq v (opt_str o)).

Definition check_pinned (p : pinned) (version manifest_sha256 : string) (manifest : dict) : M unit :=
  if negb (given (expected_version p)) || negb (given (expected_source_commit p)) ||
     negb (given (expected_manifest_sha256 p))
  then refuse "pinned compatibility identity is incomplete" else
  if differs (JStr version) (expected_version p)
  then refuse "compatibility release version does not match the pinned identity" else
  if differs (dget "sourceCommit" manifest) (expected_source_commit p)
  then refuse "compatibility release source does not match the pinned identity" else
  if differs (JStr manifest_sha256) (expected_manifest_sha256 p)
  then refuse "compatibility release manifest does not match the pinned identity" else ret tt.

(** Asked only without [allow_older_compatibility]. *)
Definition refuse_older (version : string) : M unit :=
  let current := child root "current" in
  let! linked := is_symlink_p current in
  if negb linked then ret tt else
  let! new := lift (version_tuple version) in
  let! active := resolve_lax current in
  let! old := lift (version_tuple (p_name active)) in
  if version_ltb new old then refuse "staging a downgrade is not allowed; use rollback" else ret tt.

Definition stage_document (allow_older : bool) (version status manifest_sha256 artifact_sha256 : string) : dict :=
  [("schema", JStr (if allow_older then "cloudx.release-pinned-compatibility-stage.v1"
                    else "cloudx.release-stage.v1"));
   ("version", JStr version); ("status", JStr status);
   ("manifestSha256", JStr manifest_sha256); ("artifactSha256", JStr artifact_sha256)].

(** The release that is already there must be the same one. *)
Definition check_existing (allow_older : bool) (p : pinned) (destination : path)
    (version artifact_sha256 : string) (manifest : dict) : M unit :=
  let target := child destination ARTIFACT in
  let! same :=
    (let! present := is_file_p target in
     if negb present then ret false else
     let! linked := is_symlink_p target in
     if linked then ret false else
     let! sha := file_digest target in ret (sha =s? artifact_sha256)) in
  if negb same then refuse "a different release is already staged at this version" else
  if negb allow_older then ret tt else
  let existing_manifest := child destination MANIFEST in
  let existing_signature := child destination "manifest.json.sig" in
  let existing_signers := child destination "allowed_signers" in
  let! lacking := some_of (λ q,
      let! present := is_file_p q in if negb present then ret true else is_symlink_p q)
    [existing_manifest; existing_signature; existing_signers] in
  if lacking then refuse "the staged compatibility release is incomplete" else
  let! sha := file_digest existing_manifest in
  if differs (JStr sha) (expected_manifest_sha256 p)
  then refuse "the staged compatibility manifest does not match the pinned identity" else
  let! data := read_bytes existing_signers in
  let! trusted := allowed_signers H in
  if data <>s? trusted then refuse "the staged compatibility signer root is inconsistent" else
  verify_signature H existing_manifest existing_signature ;;
  verify_artifact_self_check H "cloud" target version (dget "protocol" manifest).

Definition stage_directory (version : string) : path :=
  path_join (child root "releases") (".stage-" +:+ version +:+ "-" +:+ str_of_Z pid).

(** The new release is complete before it gets its name. *)
Definition build_release (destination : path) (version : string) (protocol : json)
    (manifest_path signature_path artifact : path) : M unit :=
  mkdir_parents (child root "releases") 493 ;;
  let temporary := stage_directory version in
  rmtree_quiet temporary ;;
  mkdir_new temporary 493 ;;
  try_with
    (let target := child temporary ARTIFACT in
     copy2 artifact target ;;
     chmod target 493 ;;
     copy2 manifest_path (child temporary MANIFEST) ;;
     copy2 signature_path (child temporary "manifest.json.sig") ;;
     (let! trusted := allowed_signers H in write_bytes (child temporary "allowed_signers") trusted) ;;
     verify_artifact_self_check H "cloud" target version protocol ;;
     replace_directory temporary destination)
    (except_all (λ e, rmtree_quiet temporary ;; throw e)).

Definition stage_verified_release (extracted : path) (allow_older : bool) (p : pinned) : M dict :=
  let! (manifest_path, signature_path, artifact, manifest) := cloud_release_files extracted in
  let version := match dget "version" manifest with JStr v => v | _ => "" end in
  let! manifest_sha256 := file_digest manifest_path in
  let! artifact_sha256 := file_digest artifact in
  (if allow_older then check_pinned p version manifest_sha256 manifest else ret tt) ;;
  (if negb allow_older then refuse_older version else ret tt) ;;
  let destination := release_dir root version in
  let! present := exists_p destination in
  if present then
    check_existing allow_older p destination version artifact_sha256 manifest ;;
    ret (stage_document allow_older version "already-staged" manifest_sha256 artifact_sha256)
  else
    build_release destination version (dget "protocol" manifest) manifest_path signature_path artifact ;;
    ret (stage_document allow_older version "staged" manifest_sha256 artifact_sha256).

Definition no_pin : pinned := Pinned None None None.

Definition stage (raw : string) : M dict :=
  let! result := with_temporary_directory "cloudx-release-stage-" (tmpdir H) (λ extracted,
    extract H raw extracted ;; stage_verified_release extracted false no_pin) in
  ret [("schema", JStr "cloudx.release-stage.v1"); ("version", dget "version" result);
       ("status", dget "status" result)].

Definition is_commit (s : string) : bool :=
  Nat.eqb (String.length s) 40 && str_forall (λ c, in_range 97 102 c || is_digit c) s.
Definition is_digest (s : string) : bool :=
  Nat.eqb (String.length s) 64 && str_forall (λ c, in_range 97 102 c || is_digit c) s.

Definition stage_pinned_compatibility (raw version source_commit manifest_sha256 : string) : M dict :=
  let! _ := lift (version_tuple version) in
  if negb (is_commit source_commit) then refuse "invalid pinned compatibility source commit" else
  if negb (is_digest manifest_sha256) then refuse "invalid pinned compatibility manifest digest" else
  with_temporary_directory "cloudx-compatibility-stage-" (tmpdir H) (λ extracted,
    extract H raw extracted ;;
    stage_verified_release extracted true
      (Pinned (Some version) (Some source_commit) (Some manifest_sha256))).
End stage.
