(* ===== verification/CloudStageFacts.v ===== *)
(** * A release is staged whole or not at all

    Whatever calls fail, staging changes nothing but temporary files, its own staging
    directory and, in one step, the directory of the release; what appears there is the
    verified artifact with its signed manifest.  No selector moves. *)

From S2P Require Import Prelude PyStr PyFloat PyValue PyJson PySha PublicMetadata FS Wp FileData LocalConfig CpaAuth.
From S2P Require Import Releases Trees Bundle CloudRelease CloudReleaseFacts CloudStage.

Lemma py_eq_str s v : py_eq (JStr s) v = true → v = JStr s.
Proof. destruct v as [| | | |s'| |]; try done. cbn. by destruct (eqs_spec s s') as [->|]. Qed.

Lemma link_at_file f p n : f !! p = Some n → is_link n = false → link_at f p = None.
Proof. unfold link_at. intros ->. by destruct n. Qed.
Lemma stat_unlinked f p d m :
  link_at f p = None → stat_node f p = Some (File d m) → f !! p = Some (File d m).
Proof.
  unfold link_at, stat_node, MAX_LINKS. cbn [follow]. by destruct (f !! p) as [[]|].
Qed.
Lemma reg_file f p : opt_is is_reg (stat_node f p) = true → ∃ d m, stat_node f p = Some (File d m).
Proof. destruct (stat_node f p) as [[d m| | |]|]; try done. eauto. Qed.

Lemma parent_under d x l : p_parent (under d (x :: l)) = under d (List.removelast (x :: l)).
Proof. unfold p_parent, under. simpl fst. simpl snd. f_equal. by rewrite removelast_app. Qed.
Lemma parent_inside p t : inside p t = true → p ≠ t → inside (p_parent p) t = true.
Proof.
  rewrite inside_spec. intros [[|x l] ->] Hne; [by rewrite under_nil in Hne|].
  rewrite parent_under. apply inside_under.
Qed.

Section facts.
Context (H : host) (root : path) (pid : Z).
Context (Hrt : inside root (tmpdir H) = false) (Htr : inside (tmpdir H) root = false).

Let rels := child root "releases".

(** ** Temporary files *)

(** Neither a file nor a directory. *)
Definition odd (n : node) : bool := match n with Link _ | Special => true | _ => false end.

(** Nothing changed but below the temporary directory of the host, and only files and
    directories are new. *)
Record tmp_run (f g : fs) : Prop := TmpRun {
  tr_framed : framed (within (tmpdir H)) f g;
  tr_odd : ∀ p, opt_is odd (g !! p) = true → opt_is odd (f !! p) = true }.

Lemma tmp_run_refl f : tmp_run f f.
Proof using Type. split; [apply framed_refl|done]. Qed.
Lemma tmp_run_trans f g h : tmp_run f g → tmp_run g h → tmp_run f h.
Proof using Type. intros [A1 A2] [B1 B2]. split; [by eapply framed_trans|eauto]. Qed.
Lemma tmp_run_insert f p n : inside p (tmpdir H) = true → odd n = false → tmp_run f (<[p := n]> f).
Proof using Type.
  intros Hp Hn. split; [by apply framed_insert|]. intros q.
  destruct (decide (q = p)) as [->|Hne]; [|by rewrite lookup_insert_ne].
  rewrite lookup_insert_eq. simpl. by rewrite Hn.
Qed.
Lemma tmp_run_delete f p : inside p (tmpdir H) = true → tmp_run f (delete p f).
Proof using Type.
  intros Hp. split; [by apply framed_delete|]. intros q.
  destruct (decide (q = p)) as [->|Hne]; [by rewrite lookup_delete_eq|by rewrite lookup_delete_ne].
Qed.
Lemma tmp_run_dirs f g p : inside p (tmpdir H) = true → dirs_to p f g → tmp_run f g.
Proof using Type.
  intros Hp Hd. split; [by eapply dirs_to_framed|]. intros q. by destruct (Hd q) as [->|(-> & [m ->] & _)].
Qed.

(** Below [t] there are only files and directories. *)
Definition clean (t : path) (f : fs) : Prop := ∀ p, inside p t = true → opt_is odd (f !! p) = false.
Lemma clean_link t f p : clean t f → inside p t = true → link_at f p = None.
Proof using Type. intros Hc Hp. unfold link_at. specialize (Hc p Hp). by destruct (f !! p) as [[]|]. Qed.
Lemma clean_run t f g : tmp_run f g → clean t f → clean t g.
Proof using Type.
  intros [_ Hl] Hc p Hp. destruct (opt_is odd (g !! p)) eqn:E; [|done]. apply Hl in E. by rewrite Hc in E.
Qed.

(** A run that starts with no link below [t] changes temporary files only. *)
Definition tidy {A} (t : path) (m : M A) : Prop :=
  ∀ E f k, clean t f → wp m E (World f k) (λ _ w, tmp_run f (w_fs w)).

Lemma tidy_pure {A} t (m : M A) : fs_pure m → tidy t m.
Proof using Type. intros Hm E f k _. apply wp_pure; [done|]. intros r k'. apply tmp_run_refl. Qed.
Lemma tidy_bind {A B} t (m : M A) (c : A → M B) : tidy t m → (∀ a, tidy t (c a)) → tidy t (bind m c).
Proof using Type.
  intros Hm Hc E f k Hf. apply wp_bind. eapply wp_mono; [by apply Hm|].
  intros [a|e] [g k'] Hg; [|done]. eapply wp_mono; [apply Hc; by eapply clean_run|].
  intros r w Hw. by eapply tmp_run_trans.
Qed.
Lemma tidy_miter {A} t (c : A → M unit) l : (∀ a, tidy t (c a)) → tidy t (miter c l).
Proof using Type.
  intros Hc. induction l; simpl; [by apply tidy_pure|]. by apply tidy_bind.
Qed.

Section tidy.
Context (t : path) (Ht : inside t (tmpdir H) = true) (Hne : t ≠ tmpdir H).

Lemma below_tmp p : inside p t = true → inside p (tmpdir H) = true ∧ p ≠ tmpdir H.
Proof using Ht Hne.
  intros Hp. split; [by eapply inside_trans|]. intros ->. apply Hne. by apply inside_antisym.
Qed.

Lemma tidy_mkdir_parents p mode : inside p (tmpdir H) = true → tidy t (mkdir_parents p mode).
Proof using Type. intros Hp E f k _. apply wp_mkdir_parents_to; intros; by eapply tmp_run_dirs. Qed.

Lemma tidy_extract_member m : tidy t (extract_member t m).
Proof using Ht Hne.
  unfold extract_member, refuse. destruct (_ || _); [by apply tidy_pure|].
  set (target := under t _). destruct (below_tmp target (inside_under t _)) as [Hi Hi'].
  destruct (tm_kind m); try (by apply tidy_pure); [by apply tidy_mkdir_parents|].
  apply tidy_bind; [by apply tidy_mkdir_parents, parent_inside|]. intros _.
  destruct (tm_data m) as [data|]; [|by apply tidy_pure]. intros E f k Hc.
  apply wp_write_bytes; [by eapply clean_link, inside_under| | |]; intros;
    first [by apply tmp_run_insert|apply tmp_run_refl].
Qed.

Lemma tidy_extract raw : tidy t (extract H raw t).
Proof using Ht Hne.
  unfold extract. apply tidy_bind; [by apply tidy_pure|]. intros l. apply tidy_miter, tidy_extract_member.
Qed.
End tidy.

(** ** The signature *)

(** [ssh-keygen] accepted the message with the trusted signers. *)
Definition signed (message : string) : Prop :=
  ∃ g signer_path signature,
    data_at g signer_path = Some (signers H) ∧ ssh_keygen H g signer_path message signature = 0.

(** What is there stays. *)
Definition grown (f g : fs) : Prop := ∀ q n, f !! q = Some n → g !! q = Some n.

Lemma temp_inside prefix p : is_temp prefix (tmpdir H) p → inside p (tmpdir H) = true.
Proof using Type. intros [x ->]. apply (inside_under (tmpdir H) [prefix +:+ x]). Qed.

Lemma wp_read_directory p m E f k (Φ : res string → world → Prop) :
  f !! p = Some (Dir m) → (∀ e k, Φ (Raise e) (World f k)) → wp (read_bytes p) E (World f k) Φ.
Proof using Type.
  intros Hp Hr. unfold read_bytes. apply wp_bind, wp_open_read; [|intros; apply Hr].
  intros n k1. rewrite (stat_dir _ _ _ Hp). intros [= <-]. unfold read_node. repeat wp_step; apply Hr.
Qed.

Lemma wp_verify_signature mp sp E f k (Φ : res unit → world → Prop) :
  (∀ g k, (opt_is (λ n, negb (odd n)) (f !! mp) = true → ∃ d m, f !! mp = Some (File d m) ∧ signed d) →
     tmp_run f g → grown f g → Φ (Ok tt) (World g k)) →
  (∀ e g k, tmp_run f g → grown f g → Φ (Raise e) (World g k)) →
  wp (verify_signature H mp sp) E (World f k) Φ.
Proof using Type.
  intros Ho Hr. unfold verify_signature.
  apply wp_bind, wp_mkstemp; [|intros; apply Hr; [apply tmp_run_refl|by intros q n]].
  intros s k1 Hs%temp_inside Hfresh.
  assert (Hins : ∀ x mo, tmp_run f (<[s := File x mo]> f) ∧ grown f (<[s := File x mo]> f)).
  { intros x mo. split; [by apply tmp_run_insert|]. intros q n Hq. rewrite lookup_insert_ne; congruence. }
  assert (Hraise : ∀ e x mo k, Φ (Raise e) (World (<[s := File x mo]> f) k)).
  { intros. by apply Hr; apply Hins. }
  apply wp_bind. unfold allowed_signers. destruct (_ =s? _); [by apply wp_throw|]. apply wp_ret.
  apply wp_bind, wp_write_file; [|intros; by apply Hraise]. intros d0 m0 k2.
  rewrite lookup_insert_eq. intros [= <- <-]. rewrite insert_insert_eq. set (g := <[s := _]> f).
  assert (Hclean : ∀ r k (Ψ : res Z → world → Prop),
    (∀ r g k, tmp_run f g → grown f g → (∀ e, r = Raise e → Ψ r (World g k))) →
    (∀ g k, tmp_run f g → grown f g → Ψ r (World g k)) →
    wp (unlink_missing_ok s) E (World g k) (λ r' w, match r' with Ok _ => Ψ r w | Raise e => Ψ (Raise e) w end)).
  { intros r k3 Ψ He Hok. apply wp_unlink_missing_ok.
    - intros. apply Hok; apply Hins.
    - intros. unfold g. rewrite delete_insert_id by done. apply Hok; [apply tmp_run_refl|by intros q n].
    - intros e0 k4 He0. by eapply He; try apply Hins. }
  apply wp_bind, wp_finally.
  assert (Hend : ∀ (r : res Z) k, (r = Ok 0 → opt_is (λ n, negb (odd n)) (f !! mp) = true → ∃ d m, f !! mp = Some (File d m) ∧ signed d) →
    wp (unlink_missing_ok s) E (World g k) (λ r' w, match r' with
      | Ok _ => match r with Ok code => wp (if code =? 0 then ret tt else refuse "release signature verification failed") E w Φ
                           | Raise e => Φ (Raise e) w end
      | Raise e => Φ (Raise e) w end)).
  { intros r k3 Hsig. apply (Hclean r k3 (λ r w, match r with
      | Ok code => wp (if code =? 0 then ret tt else refuse "release signature verification failed") E w Φ
      | Raise e => Φ (Raise e) w end)).
    - intros r' g' k' H1 H2 e ->. by apply Hr.
    - intros g' k' H1 H2. destruct r as [code|e]; [|by apply Hr].
      destruct (Z.eqb_spec code 0) as [->|]; [|by apply wp_throw, Hr].
      apply wp_ret. apply Ho; auto. }
  destruct (opt_is (λ n, negb (odd n)) (f !! mp)) eqn:Hmp.
  2: { eapply wp_bind, wp_pure; [apply fs_pure_read_bytes|]. intros [x|e1] k3; [|by apply (Hend (Raise e1))].
       apply wp_bind, wp_sys; [|intros e1 k4 _; by apply (Hend (Raise e1))]. intros k4.
       apply wp_bind, wp_get_fs, wp_ret. by apply (Hend (Ok _)). }
  assert (Hg : g !! mp = f !! mp) by (unfold g; rewrite lookup_insert_ne; [done|intros ->; by rewrite Hfresh in Hmp]).
  destruct (f !! mp) as [[d m|m| |]|] eqn:Em; try done.
  2: { eapply wp_bind, wp_read_directory; [exact Hg|]. intros e1 k3. by apply (Hend (Raise e1)). }
  eapply wp_bind, wp_read_bytes.
  - by apply stat_file.
  - intros k3. apply wp_bind, wp_sys; [|intros e1 k4 _; by apply (Hend (Raise e1))]. intros k4. apply wp_bind, wp_get_fs, wp_ret.
    apply (Hend (Ok _)). intros [= Hcode] _. exists d, m. split; [done|]. exists g, s, sp. split; [apply data_at_insert|done].
  - intros e1 k3. by apply (Hend (Raise e1)).
Qed.

(** ** The files of a bundle *)

(** The manifest [d] has the record [r] for the cloud helper, of an artifact with the bytes [a]. *)
Record describes (d r : dict) (a : string) : Prop := Describes {
  ds_version : ∃ v, dget "version" d = JStr v;
  ds_public : validate_public_document (JDict d) = Ok (JDict d);
  ds_record : ∃ items, elements (dget_or "artifacts" (JList []) d) = Ok items ∧
                List.filter (is_record "cloud") items = [JDict r];
  ds_size : py_eq (JInt (str_len a)) (dget "size" r) = true;
  ds_sha256 : dget "sha256" r = JStr (sha256 a) }.

Definition artifact_path (manifest_path : path) (r : dict) : path :=
  path_join (p_parent manifest_path) (str_or_empty (dget "name" r)).

(** What [release_files] has found in the files [g]. *)
Record verified_files (t : path) (g : fs) (mp sp art : path) (d r : dict) (m a : string) : Prop := VerifiedFiles {
  vf_manifest : inside mp t = true ∧ mp ≠ t ∧ ∃ mo, g !! mp = Some (File m mo);
  vf_signed : signed m;
  vf_loads : loads_bytes m = Ok (JDict d);
  vf_describes : describes d r a;
  vf_artifact : art = artifact_path mp r ∧ ∃ mo, stat_node g art = Some (File a mo) }.

Lemma wp_accept_manifest v E f k (Φ : res dict → world → Prop) :
  (∀ d k, v = JDict d → validate_public_document v = Ok v → (∃ s, dget "version" d = JStr s) →
     Φ (Ok d) (World f k)) →
  (∀ e k, Φ (Raise e) (World f k)) →
  wp (accept_manifest "release manifest" validate_public_document v) E (World f k) Φ.
Proof using Type.
  intros Ho Hr. unfold accept_manifest, refuse. destruct v; try apply wp_throw, Hr.
  destruct (negb (eq_str _ _)); [apply wp_throw, Hr|]. apply wp_bind, wp_lift.
  destruct (validate_public_document _) as [v'|e] eqn:Ev; [|apply Hr].
  assert (v' = JDict d) as ->.
  { unfold validate_public_document in Ev. by destruct (walk d (JDict d) []); [injection Ev as <-|]. }
  destruct (negb _ || negb _) eqn:Ep; [apply wp_throw, Hr|].
  apply orb_false_iff in Ep as [_ Ep]. apply negb_false_iff in Ep.
  assert (∃ s, dget "version" d = JStr s) by (destruct (dget "version" d); try done; eauto).
  destruct (dget "activation" d); try apply wp_throw, Hr.
  destruct (negb _); [apply wp_throw, Hr|]. by apply wp_ret, Ho.
Qed.

Lemma wp_component_record d E f k (Φ : res dict → world → Prop) :
  (∀ r items k, elements (dget_or "artifacts" (JList []) d) = Ok items →
     List.filter (is_record "cloud") items = [JDict r] → Φ (Ok r) (World f k)) →
  (∀ e k, Φ (Raise e) (World f k)) →
  wp (component_record "cloud" d) E (World f k) Φ.
Proof using Type.
  intros Ho Hr. unfold component_record, refuse. apply wp_bind, wp_lift.
  destruct (elements _) as [items|e] eqn:Ei; [|apply Hr].
  destruct (List.filter _ items) as [|[| | | | | |r] [|]] eqn:Ef; try apply wp_throw, Hr.
  apply wp_ret. by eapply Ho.
Qed.

Lemma wp_load_manifest p m mo E f k (Φ : res json → world → Prop) :
  stat_node f p = Some (File m mo) →
  (∀ v k, loads_bytes m = Ok v → Φ (Ok v) (World f k)) →
  (∀ e k, Φ (Raise e) (World f k)) →
  wp (load_manifest p) E (World f k) Φ.
Proof using Type.
  intros Hp Ho Hr. unfold load_manifest, refuse. apply wp_try.
  assert (Hex : ∀ e k, match except [OSError; JSONDecodeError]
      (λ _, @mraise json RuntimeError "release manifest is invalid") e with
      | Some c => wp c E (World f k) Φ | None => Φ (Raise e) (World f k) end).
  { intros e k1. unfold except. destruct (existsb _ _); [apply wp_throw, Hr|apply Hr]. }
  apply wp_bind. unfold read_text. apply wp_bind. eapply wp_read_bytes; [exact Hp| |intros; apply Hex].
  intros k1. apply wp_lift. unfold loads_bytes in Ho. destruct (decode_res m) as [s|e]; [|apply Hex].
  apply wp_lift. destruct (loads s) as [v|e] eqn:Ev; [by apply Ho|apply Hex].
Qed.

Lemma wp_file_digest p d m E f k (Φ : res string → world → Prop) :
  stat_node f p = Some (File d m) →
  (∀ k, Φ (Ok (sha256 d)) (World f k)) → (∀ e k, Φ (Raise e) (World f k)) →
  wp (file_digest p) E (World f k) Φ.
Proof using Type.
  intros Hp Ho Hr. unfold file_digest. apply wp_bind. eapply wp_read_bytes; [done| |intros; apply Hr].
  intros k1. apply wp_ret, Ho.
Qed.

Lemma wp_rglob name t E f k (Φ : res (list path) → world → Prop) :
  (∀ l k, (∀ p, In p l → inside p t = true ∧ p ≠ t ∧ f !! p ≠ None) → Φ (Ok l) (World f k)) →
  (∀ e k, Φ (Raise e) (World f k)) → wp (rglob name t) E (World f k) Φ.
Proof using Type.
  intros Ho Hr. unfold rglob. repeat wp_step; [|apply Hr]. apply Ho. intros p Hp.
  apply filter_In in Hp as [Hin Hp]. apply andb_true_iff in Hp as [Hp _]. apply andb_true_iff in Hp as [Hp Hn].
  apply negb_true_iff, bool_decide_eq_false in Hn. split_and!; [done|done|].
  apply in_map_iff in Hin as ([q n] & <- & Hin). rewrite <- list_elem_of_In in Hin.
  apply elem_of_map_to_list in Hin. simpl. congruence.
Qed.

Section release_files.
Context (t : path) (Ht : inside t (tmpdir H) = true) (Hne : t ≠ tmpdir H).

Lemma stat_grown f g p n : grown f g → link_at f p = None → f !! p = Some n → stat_node g p = Some n.
Proof using Type.
  intros Hg Hl Hp. unfold stat_node, MAX_LINKS. cbn [follow]. rewrite (Hg p n Hp).
  unfold link_at in Hl. rewrite Hp in Hl. by destruct n.
Qed.

Lemma wp_release_files E f k (Φ : res (path * path * path * dict) → world → Prop) :
  clean t f →
  (∀ mp sp art d r m a g k, tmp_run f g → verified_files t g mp sp art d r m a →
     inside sp t = true → Φ (Ok (mp, sp, art, d)) (World g k)) →
  (∀ e g k, tmp_run f g → Φ (Raise e) (World g k)) →
  wp (cloud_release_files H t) E (World f k) Φ.
Proof using Ht Hne.
  intros Hc Ho Hr. assert (Hrf : ∀ e k, Φ (Raise e) (World f k)) by (intros; apply Hr, tmp_run_refl).
  unfold cloud_release_files, release_files, refuse. apply wp_bind, wp_rglob; [|done].
  intros [|mp [|]] k1 Hl; try apply wp_throw, Hrf. destruct (Hl mp) as (Hmp & Hmpt & Hsome); [by left|].
  set (sp := with_suffix mp _).
  assert (Hsp : inside sp t = true).
  { unfold sp, with_suffix. eapply inside_trans; [apply inside_child|]. by apply parent_inside. }
  apply wp_bind, wp_is_file; [intros k2|done]. destruct (opt_is _ _); cbn [negb]; [|apply wp_throw, Hrf].
  apply wp_bind, wp_verify_signature; [|intros; by apply Hr].
  intros g k3 Hsig Hg Hgr. destruct Hsig as (m & mo & Em & Hs).
  { specialize (Hc mp Hmp). destruct (f !! mp) as [n|]; [|done]. simpl in *. by rewrite Hc. }
  assert (Hrg : ∀ e k, Φ (Raise e) (World g k)) by (intros; by apply Hr).
  assert (Hgm : g !! mp = Some (File m mo)) by by apply Hgr.
  apply wp_bind. eapply wp_load_manifest; [by apply stat_file| |done]. intros v k4 Hv.
  apply wp_bind, wp_accept_manifest; [|done]. intros d k5 -> Hpub Hver.
  apply wp_bind, wp_component_record; [|done]. intros r items k6 Hi Hf.
  change (path_join _ _) with (artifact_path mp r). set (art := artifact_path mp r).
  apply wp_bind, wp_is_file; [intros k7|done]. destruct (opt_is is_reg _) eqn:Ea; cbn [negb]; [|apply wp_throw, Hrg].
  apply reg_file in Ea as (a & ma & Ea).
  apply wp_bind, wp_stat; [|done]. rewrite Ea. intros info k8 [= <-]. cbn [node_size].
  destruct (py_eq (JInt _) _) eqn:Esz; cbn [negb]; [|apply wp_throw, Hrg].
  apply wp_bind. eapply wp_file_digest; [exact Ea| |done]. intros k9.
  destruct (py_eq (JStr _) _) eqn:Esha; cbn [negb]; [|apply wp_throw, Hrg]. apply py_eq_str in Esha.
  apply wp_ret. eapply Ho; [done| |done]. split; [eauto|done|done| |eauto]. split; eauto.
Qed.
End release_files.

(** ** The directory of a release *)

#[local] Abbreviation staging v := (stage_directory root pid v).
#[local] Abbreviation SIGNATURE := "manifest.json.sig"%string.
#[local] Abbreviation SIGNERS := "allowed_signers"%string.

Lemma staging_under v : ∃ x l, staging v = under rels (x :: l).
Proof using Type.
  unfold stage_directory, path_join, path_parts. set (s := v +:+ _).
  change (".stage-" +:+ s) with (String "." (String "s" ("tage-" +:+ s))).
  set (y := "tage-" +:+ s). change (starts_with "/" _) with false. cbn [split_char Ascii.eqb Bool.eqb].
  destruct (split_char "/" y) as [|z zs]; by eexists _, _.
Qed.
Lemma staging_inside v : inside (staging v) rels = true.
Proof using Type. destruct (staging_under v) as (x & l & ->). apply inside_under. Qed.
Lemma rels_not_staging v : inside rels (staging v) = false.
Proof using Type.
  destruct (inside rels (staging v)) eqn:E; [|done]. destruct (staging_under v) as (x & l & Es).
  pose proof (inside_antisym _ _ E (staging_inside v)) as E2. rewrite Es in E2.
  rewrite <- (under_nil rels) in E2 at 1. by apply under_inj in E2.
Qed.

(** A complete release: the artifact [a], the manifest [m], its signature, the signers and
    nothing else. *)
Record holds_release (g : fs) (d : path) (a m : string) : Prop := HoldsRelease {
  hr_dir : g !! d = Some (Dir 493);
  hr_artifact : g !! child d ARTIFACT = Some (File a 493);
  hr_manifest : data_at g (child d MANIFEST) = Some m;
  hr_signature : is_Some (data_at g (child d SIGNATURE));
  hr_signers : data_at g (child d SIGNERS) = Some (signers H);
  hr_only : ∀ l, l ∉ [[]; [ARTIFACT]; [MANIFEST]; [SIGNATURE]; [SIGNERS]] → g !! under d l = None }.

Lemma holds_release_at g d h e a m :
  (∀ l, h !! under e l = g !! under d l) → holds_release g d a m → holds_release h e a m.
Proof using Type.
  intros Hl [H1 H2 H3 H4 H5 H6].
  pose proof (Hl []) as E. rewrite !under_nil in E.
  split; [by rewrite E| | | | |intros l Hn; rewrite Hl; by apply H6];
    unfold data_at in *; rewrite child_under, Hl; done.
Qed.

(** The artifact says that it is well. *)
Definition healthy (g : fs) (artifact : path) (version : string) (protocol : json) : Prop :=
  ∃ out d, run_artifact H g artifact = Ok (0, out) ∧ loads_bytes out = Ok (JDict d) ∧
    eq_str (dget "component" d) "cloud" = true ∧ eq_str (dget "version" d) version = true ∧
    py_eq (dget "protocol" d) protocol = true ∧ eq_str (dget "status" d) "ok" = true.

Lemma wp_self_check artifact v protocol E f k (Φ : res unit → world → Prop) :
  (∀ k, healthy f artifact v protocol → Φ (Ok tt) (World f k)) → (∀ e k, Φ (Raise e) (World f k)) →
  wp (verify_artifact_self_check H "cloud" artifact v protocol) E (World f k) Φ.
Proof using Type.
  intros Ho Hr. unfold verify_artifact_self_check, refuse. apply wp_bind, wp_bind, wp_sys; [intros k1|intros; apply Hr].
  apply wp_bind, wp_get_fs, wp_lift. destruct (run_artifact H f artifact) as [[code out]|e] eqn:Erun; [|apply Hr].
  apply wp_bind, wp_try, wp_lift. destruct (loads_bytes out) as [v'|e] eqn:El.
  2: { unfold except. destruct (existsb _ _); [apply wp_throw, Hr|apply Hr]. }
  destruct v'; try apply wp_throw, Hr. destruct (Z.eqb_spec code 0) as [->|]; cbn [negb]; [|apply wp_throw, Hr].
  destruct (eq_str (dget "schema" d) _); cbn [negb orb]; [|apply wp_throw, Hr].
  destruct (eq_str (dget "component" d) _) eqn:E1; cbn [negb]; [|apply wp_throw, Hr].
  destruct (eq_str (dget "version" d) _) eqn:E2; cbn [negb]; [|apply wp_throw, Hr].
  destruct (py_eq _ _) eqn:E3; cbn [negb]; [|apply wp_throw, Hr].
  destruct (eq_str (dget "status" d) _) eqn:E4; cbn [negb]; [|apply wp_throw, Hr].
  apply wp_ret, Ho. exists out, d. by split_and!.
Qed.

(** Nothing lies below a directory that is not there. *)
Definition vacant (f : fs) (d : path) : Prop := f !! d = None → ∀ q, inside q d = true → f !! q = None.

Lemma framed_file T f g p d m : framed T f g → ¬ T p → f !! p = Some (File d m) → g !! p = Some (File d m).
Proof using Type. intros Hf Hp E. destruct (Hf p Hp) as [->|(E' & _)]; congruence. Qed.

Section build.
Context (v : string) (f : fs).
Hypothesis Hvac : vacant f (staging v).

Lemma wp_fresh_staging E k (rest : M unit) (Φ : res unit → world → Prop) :
  (∀ h k, framed (within (staging v)) f h → h !! staging v = Some (Dir 493) →
     (∀ q, below (staging v) q → h !! q = None) → wp rest E (World h k) Φ) →
  (∀ e h k, framed (within (staging v)) f h → Φ (Raise e) (World h k)) →
  wp (mkdir_parents rels 493 ;; rmtree_quiet (staging v) ;; mkdir_new (staging v) 493 ;; rest) E (World f k) Φ.
Proof using Hvac.
  intros Ho Hr. set (d := staging v) in *.
  assert (Hto : ∀ g, dirs_to rels f g → framed (within d) f g).
  { intros g Hg q Hq. destruct (Hg q) as [E1|(E1 & Hm & Hi)]; [by left|]. right. split_and!; [done|done|].
    exists d. split; [apply inside_refl|]. eapply inside_trans; [apply staging_inside|done]. }
  apply wp_bind, wp_mkdir_parents_to; [intros g1 k1 Hg1|intros; by apply Hr, Hto].
  apply wp_bind, wp_rmtree_quiet. intros g2 k2 Hg2 Hgone.
  assert (Hf2 : framed (within d) f g2) by (eapply framed_trans; [by apply Hto|by apply same_on_framed]).
  apply wp_bind, wp_mkdir_new; [|intros; by apply Hr]. intros k3 Hd. apply Ho.
  - eapply framed_trans; [exact Hf2|]. apply framed_insert, inside_refl.
  - apply lookup_insert_eq.
  - intros q [Hq Hne]. rewrite lookup_insert_ne by done.
    destruct (Hgone Hd) as [[Hd1 ->]|Hall]; [|by apply Hall].
    rewrite (dirs_to_apart _ _ _ _ Hg1).
    + apply Hvac; [|done]. by eapply dirs_to_missing.
    + destruct (inside rels q) eqn:E1; [|done].
      pose proof (rels_not_staging v) as Hn. fold d in Hn. by rewrite (inside_trans rels q d E1 Hq) in Hn.
Qed.

(** The source [src] has the bytes [x], if it lies away from the new directory. *)
Definition source (src : path) (x : string) : Prop :=
  inside src (staging v) = false → ∀ x' mo, f !! src = Some (File x' mo) → x = x'.

Lemma staging_child n : inside (child (staging v) n) (staging v) = true.
Proof using Type. apply inside_child. Qed.
Lemma child_below n : below (staging v) (child (staging v) n).
Proof using Type. split; [apply inside_child|apply child_ne]. Qed.

Lemma wp_copy_into src n E h k (Φ : res unit → world → Prop) :
  framed (within (staging v)) f h → h !! child (staging v) n = None →
  (∀ x m k, source src x → Φ (Ok tt) (World (<[child (staging v) n := File x m]> h) k)) →
  (∀ e g k, same_on (within (staging v)) h g → Φ (Raise e) (World g k)) →
  wp (copy2 src (child (staging v) n)) E (World h k) Φ.
Proof using Type.
  intros Hf Hn Ho Hr. apply wp_copy2; [unfold link_at; by rewrite Hn| |].
  - intros x m k1 Hx. apply Ho. intros Hi x' mo Hs. apply (Hx x' mo).
    + eapply framed_file; [exact Hf| |exact Hs]. unfold within. by rewrite Hi.
    + intros ->. by rewrite staging_child in Hi.
  - intros e g k1 _ Hg. apply Hr. eapply same_on_weaken; [|exact Hg]. intros q ->. apply staging_child.
Qed.

(** The new directory, complete. *)
Lemma wp_fill_staging protocol mp sp art dest E h k (Φ : res unit → world → Prop) :
  let d := staging v in let target := child d ARTIFACT in
  framed (within d) f h → h !! d = Some (Dir 493) → (∀ q, below d q → h !! q = None) →
  (∀ g k a m, framed (within d) f g → same_on (within d) h g → holds_release g d a m →
     healthy g target v protocol → source art a → source mp m →
     wp (replace_directory d dest) E (World g k) Φ) →
  (∀ e g k, same_on (within d) h g → Φ (Raise e) (World g k)) →
  wp (copy2 art target ;; chmod target 493 ;; copy2 mp (child d MANIFEST) ;;
      copy2 sp (child d SIGNATURE) ;;
      (let! trusted := allowed_signers H in write_bytes (child d SIGNERS) trusted) ;;
      verify_artifact_self_check H "cloud" target v protocol ;;
      replace_directory d dest) E (World h k) Φ.
Proof using Type.
  intros d target Hf Hd Hnone Ho Hr.
  assert (Hfree : ∀ n, h !! child d n = None) by (intros; apply Hnone, child_below).
  assert (Hne : ∀ n n', n ≠ n' → child d n ≠ child d n') by (intros n n' Hn [_ E']%child_eq; done).
  assert (Hin : ∀ g n x, same_on (within d) h g → same_on (within d) h (<[child d n := x]> g)).
  { intros g n x Hg. eapply same_on_trans; [exact Hg|]. apply same_on_insert, inside_child. }
  assert (Hfr : ∀ g, same_on (within d) h g → framed (within d) f g).
  { intros g Hg. eapply framed_trans; [exact Hf|by apply same_on_framed]. }
  assert (Hre : ∀ e g' g k, same_on (within d) h g → same_on (within d) g g' → Φ (Raise e) (World g' k)).
  { intros e g' g k1 H1 H2. apply Hr. by eapply same_on_trans. }
  apply wp_bind, wp_copy_into; [done|apply Hfree| |intros; by eapply Hre; [apply same_on_refl|]].
  intros a m1 k1 Ha. assert (S1 := Hin h ARTIFACT (File a m1) (same_on_refl _ _)).
  apply wp_bind. eapply wp_chmod_file; [apply lookup_insert_eq| |intros; by eapply Hre; [exact S1|apply same_on_refl]].
  intros k2. rewrite insert_insert_eq. clear S1.
  assert (S1 := Hin h ARTIFACT (File a 493) (same_on_refl _ _)). set (h1 := <[_ := _]> h) in *.
  assert (N1 : ∀ n, n ≠ ARTIFACT → h1 !! child d n = None).
  { intros n Hn. unfold h1. rewrite lookup_insert_ne; [apply Hfree|by apply Hne]. }
  apply wp_bind, wp_copy_into; [by apply Hfr|by apply N1| |intros; by eapply Hre].
  intros m m2 k3 Hm. assert (S2 := Hin h1 MANIFEST (File m m2) S1). set (h2 := <[_ := _]> h1) in *.
  assert (N2 : ∀ n, n ≠ ARTIFACT → n ≠ MANIFEST → h2 !! child d n = None).
  { intros n Hn Hn'. unfold h2. rewrite lookup_insert_ne; [by apply N1|by apply Hne]. }
  apply wp_bind, wp_copy_into; [by apply Hfr|by apply N2| |intros; by eapply Hre].
  intros s m3 k4 _. assert (S3 := Hin h2 SIGNATURE (File s m3) S2). set (h3 := <[_ := _]> h2) in *.
  assert (N3 : h3 !! child d SIGNERS = None).
  { unfold h3. rewrite lookup_insert_ne; [by apply N2|by apply Hne]. }
  assert (R3 : ∀ e k, Φ (Raise e) (World h3 k)) by (intros; by apply Hr).
  apply wp_bind, wp_bind. unfold allowed_signers. destruct (_ =s? _); [apply wp_throw, R3|]. apply wp_ret.
  apply wp_write_bytes; [unfold link_at; by rewrite N3| |intros; apply R3|intros; by apply Hr, Hin].
  intros m4 k5. assert (S4 := Hin h3 SIGNERS (File (signers H) m4) S3). set (h4 := <[_ := _]> h3) in *.
  apply wp_bind, wp_self_check; [|intros; by apply Hr]. intros k6 Hh.
  apply (Ho h4 k6 a m); try done; [by apply Hfr|].
  assert (L : ∀ n, h4 !! child d n = if decide (n = SIGNERS) then Some (File (signers H) m4) else
      if decide (n = SIGNATURE) then Some (File s m3) else if decide (n = MANIFEST) then Some (File m m2) else
      if decide (n = ARTIFACT) then Some (File a 493) else None).
  { intros n. unfold h4, h3, h2, h1. repeat (case_decide; [subst; by rewrite lookup_insert_eq|];
      rewrite lookup_insert_ne by (apply Hne; congruence)). apply Hfree. }
  split; unfold data_at; rewrite ?L; try done.
  - unfold h4, h3, h2, h1. by rewrite !lookup_insert_ne by apply child_ne.
  - intros l Hl. rewrite !not_elem_of_cons in Hl. destruct Hl as (? & ? & ? & ? & ? & _).
    unfold h4, h3, h2, h1. rewrite !lookup_insert_ne; [apply Hnone| | | |].
    + split; [apply inside_under|]. intros E'. rewrite <- (under_nil d) in E' at 2. by apply under_inj in E'.
    + rewrite child_under. intros E'%under_inj. congruence.
    + rewrite child_under. intros E'%under_inj. congruence.
    + rewrite child_under. intros E'%under_inj. congruence.
    + rewrite child_under. intros E'%under_inj. congruence.
Qed.

(** The release got its name in one step, or nothing but the staging directory changed. *)
Lemma wp_build_release dest protocol mp sp art E k (Φ : res unit → world → Prop) :
  (∀ g h k a m, framed (λ q, within (staging v) q ∨ within dest q) f g →
     (∀ n, f !! dest = Some n → is_dirn n = true) → holds_release g dest a m → healthy h (child (staging v) ARTIFACT) v protocol → source art a → source mp m →
     Φ (Ok tt) (World g k)) →
  (∀ e g k, framed (within (staging v)) f g → Φ (Raise e) (World g k)) →
  wp (build_release H root pid dest v protocol mp sp art) E (World f k) Φ.
Proof using Hvac.
  intros Ho Hr. apply wp_fresh_staging; [|done]. intros h k1 Hf Hd Hnone. apply wp_try.
  assert (Hhandler : ∀ e g k, same_on (within (staging v)) h g →
    wp (rmtree_quiet (staging v) ;; @throw unit e) E (World g k) Φ).
  { intros e g k2 Hg. apply wp_bind, wp_rmtree_quiet. intros g' k3 Hg' _. apply wp_throw, Hr.
    eapply framed_trans; [exact Hf|]. apply same_on_framed. by eapply same_on_trans. }
  apply wp_fill_staging; [done..| |exact Hhandler]. intros g k2 a m Hfg Hs Hrel Hh Ha Hm.
  apply wp_replace_directory; [|intros; by apply Hhandler]. intros k3 E1 E2 Hdest.
  apply (Ho _ g _ a m); try done.
  - intros q Hq. destruct (inside q (staging v)) eqn:Eq; [exfalso; apply Hq; by left|].
    destruct (inside q dest) eqn:Eq'; [exfalso; apply Hq; by right|].
    rewrite move_tree_other by done. destruct (Hfg q) as [E3|(E3 & Hm3 & x & Hx & Hi)].
    + unfold within. congruence.
    + by left.
    + right. split_and!; [done|done|]. exists x. split; [by left|done].
  - intros n Hn. destruct (Hfg dest) as [E3|(E3 & _)]; [unfold within; congruence| |congruence].
    apply Hdest. congruence.
  - eapply holds_release_at; [|exact Hrel]. intros l. by apply move_tree_dst.
Qed.
End build.

(** ** A whole staging *)

Lemma fs_pure_file_digest p : fs_pure (file_digest p).
Proof using Type. unfold file_digest. fs_pure_tac. Qed.
Lemma fs_pure_some_of {A} (test : A → M bool) l : (∀ x, fs_pure (test x)) → fs_pure (some_of test l).
Proof using Type. intros Ht. induction l; simpl; fs_pure_tac. Qed.
Lemma fs_pure_self_check artifact v protocol : fs_pure (verify_artifact_self_check H "cloud" artifact v protocol).
Proof using Type. unfold verify_artifact_self_check, refuse, mraise. fs_pure_tac. Qed.
Lemma fs_pure_refuse_older v : fs_pure (refuse_older root v).
Proof using Type. unfold refuse_older, refuse, mraise, resolve_lax. fs_pure_tac. Qed.
Lemma fs_pure_check_pinned p v m d : fs_pure (check_pinned p v m d).
Proof using Type. unfold check_pinned, refuse, mraise. fs_pure_tac. Qed.

Lemma tidy_verify_signature t mp sp : tidy t (verify_signature H mp sp).
Proof using Type. intros E f k _. apply wp_verify_signature; by intros. Qed.
Lemma tidy_check_existing t older p dest v sha d : tidy t (check_existing H older p dest v sha d).
Proof using Type.
  pose proof fs_pure_file_digest. pose proof fs_pure_self_check.
  assert (Hp : ∀ A (m : M A), fs_pure m → tidy t m) by (intros; by apply tidy_pure).
  unfold check_existing, refuse, mraise. apply tidy_bind; [apply Hp; fs_pure_tac|]. intros same.
  destruct (negb same); [by apply Hp|]. destruct (negb older); [by apply Hp|].
  apply tidy_bind; [apply Hp, fs_pure_some_of; intros; fs_pure_tac|]. intros lacking.
  destruct lacking; [by apply Hp|]. apply tidy_bind; [by apply Hp|]. intros x.
  destruct (differs _ _); [by apply Hp|]. apply tidy_bind; [apply Hp; fs_pure_tac|]. intros data.
  apply tidy_bind; [apply Hp; unfold allowed_signers, refuse, mraise; fs_pure_tac|]. intros trusted.
  destruct (negb _); [by apply Hp|]. apply tidy_bind; [apply tidy_verify_signature|]. intros _. by apply Hp.
Qed.

(** A name of one part. *)
Definition plain (s : string) : Prop := path_parts s = [s] ∧ starts_with "/" s = false.

Lemma plain_dir v : plain v → release_dir root v = child rels v.
Proof using Type. intros [H1 H2]. unfold release_dir, path_join. by rewrite H2, H1. Qed.

Lemma root_tmp q : inside q root = true → inside q (tmpdir H) = false.
Proof using Hrt Htr.
  intros Hq. destruct (inside q (tmpdir H)) eqn:E; [|done].
  destruct (inside_comparable _ _ _ Hq E); congruence.
Qed.
Lemma root_kept f g q : framed (within (tmpdir H)) f g → inside q root = true → g !! q = f !! q.
Proof using Hrt Htr.
  intros Hf Hq. pose proof (root_tmp q Hq) as Hn. eapply framed_apart; [exact Hf|unfold within; congruence|].
  intros q' Hq'. destruct (inside q' q) eqn:E; [|done].
  pose proof (root_tmp q' (inside_trans _ _ _ E Hq)). unfold within in Hq'. congruence.
Qed.
Lemma staging_root v : inside (staging v) root = true.
Proof using Type. eapply inside_trans; [apply staging_inside|apply inside_child]. Qed.

(** Both selectors select what they selected. *)
Definition selectors_kept (f g : fs) : Prop :=
  link_at g (child root "current") = link_at f (child root "current") ∧
  link_at g (child root "previous") = link_at f (child root "previous").

Lemma below_releases_kept T f g :
  framed T f g → (∀ q, T q → inside q (tmpdir H) = true ∨ inside q rels = true) → selectors_kept f g.
Proof using Hrt Htr.
  intros Hf HT.
  assert (Hn : ∀ n, n ≠ "releases"%string → link_at g (child root n) = link_at f (child root n)).
  { intros n Hn. eapply relinked_link; [by eapply framed_relinked|]. intros [E|E]%HT.
    - by rewrite root_tmp in E by apply inside_child.
    - apply inside_spec in E as [l E]. unfold rels in E. rewrite !child_under, under_under in E.
      apply under_inj in E. injection E. congruence. }
  by split; apply Hn.
Qed.
Lemma staging_kept v f g :
  framed (λ q, within (tmpdir H) q ∨ within (staging v) q) f g → selectors_kept f g.
Proof using Hrt Htr.
  intros Hf. eapply below_releases_kept; [exact Hf|]. intros q [Hq|Hq]; [by left|right].
  eapply inside_trans; [exact Hq|apply staging_inside].
Qed.

(** The release [v] is new: signed, described by its manifest, and complete when its names
    stay inside the bundle and the release root. *)
Definition new_release (f g : fs) (v : string) : Prop :=
  ∃ m a d r, signed m ∧ loads_bytes m = Ok (JDict d) ∧ dget "version" d = JStr v ∧ describes d r a ∧
    (∃ h, healthy h (child (staging v) ARTIFACT) v (dget "protocol" d)) ∧
    (plain v → selectors_kept f g) ∧
    (plain v → starts_with "/" (str_or_empty (dget "name" r)) = false →
       f !! release_dir root v = None ∧ holds_release g (release_dir root v) a m).

(** What a staging may have done to the files. *)
Definition staging_outcome (f : fs) (r : res dict) (g : fs) : Prop :=
  ∃ v,
    (framed (λ q, within (tmpdir H) q ∨ within (staging v) q) f g ∧ selectors_kept f g ∧
       ∀ doc, r = Ok doc → dget "status" doc = JStr "already-staged") ∨
    (framed (λ q, within (tmpdir H) q ∨ within (staging v) q ∨ within (release_dir root v) q) f g ∧
       new_release f g v).

(** Only temporary files: an outcome that is no success of its own. *)
Lemma tmp_outcome f g r : framed (within (tmpdir H)) f g →
  (∀ doc, r = Ok doc → dget "status" doc = JStr "already-staged") → staging_outcome f r g.
Proof using Hrt Htr.
  intros Hf Hr. exists ""%string. left.
  assert (Hw : framed (λ q, within (tmpdir H) q ∨ within (staging "") q) f g).
  { eapply framed_weaken; [|exact Hf]. intros p Hp. by left. }
  split_and!; [exact Hw|by eapply staging_kept|done].
Qed.

Section verified.
Context (t : path) (Ht : inside t (tmpdir H) = true) (Hne : t ≠ tmpdir H).

(** The artifact of a manifest in [t] that is named by a relative path. *)
Lemma artifact_inside mp r : inside mp t = true → mp ≠ t →
  starts_with "/" (str_or_empty (dget "name" r)) = false → inside (artifact_path mp r) t = true.
Proof using Type.
  intros Hi Hm Hr. unfold artifact_path, path_join. rewrite Hr.
  eapply inside_trans; [|by apply parent_inside]. apply (inside_under (p_parent mp)).
Qed.

Lemma wp_stage_verified older p E f k :
  clean t f → (∀ v, vacant f (staging v)) →
  wp (stage_verified_release H root pid t older p) E (World f k)
    (λ r w, staging_outcome f r (w_fs w)).
Proof using Ht Hne Hrt Htr.
  intros Hc Hvac. unfold stage_verified_release. apply wp_bind, wp_release_files; [done..| |].
  2: { intros e g k1 [Hg _]. by apply tmp_outcome. }
  intros mp sp art d r m a g k1 [Hg Hodd] [Hmp Hsig Hld Hdesc Hart] Hsp.
  assert (Hfail : ∀ (r : res dict) k, (∀ doc, r = Ok doc → dget "status" doc = JStr "already-staged") →
    staging_outcome f r (w_fs (World g k))) by (intros; by apply tmp_outcome).
  destruct (ds_version _ _ _ Hdesc) as [v Hv]. rewrite Hv. cbv beta iota zeta.
  apply wp_bind, wp_pure; [apply fs_pure_file_digest|]. intros [sha1|e] k2; [|by apply Hfail].
  apply wp_bind, wp_pure; [apply fs_pure_file_digest|]. intros [sha2|e] k3; [|by apply Hfail].
  apply wp_bind, wp_pure; [destruct older; [apply fs_pure_check_pinned|done]|]. intros [[]|e] k4; [|by apply Hfail].
  apply wp_bind, wp_pure; [destruct older; [done|apply fs_pure_refuse_older]|]. intros [[]|e] k5; [|by apply Hfail].
  apply wp_bind, wp_exists; [|intros; by apply Hfail]. intros k6.
  set (dest := release_dir root v). destruct (opt_is _ (stat_node g dest)) eqn:Est.
  - apply wp_bind. eapply wp_mono; [apply (tidy_check_existing t); by eapply clean_run|].
    intros [[]|e] [g' k7] [Hg' _]; [apply wp_ret|]; (apply tmp_outcome; [by eapply framed_trans|]); [|done].
    by intros doc [= <-].
  - apply exists_false in Est. apply wp_bind. eapply wp_build_release.
    + intros Hd q Hq. pose proof (staging_root v) as Hsr.
      rewrite (root_kept f g q Hg) by (by eapply inside_trans). apply (Hvac v); [|done].
      by rewrite <- (root_kept f g _ Hg Hsr).
    + intros g' h k7 a' m' Hf' Hdir Hrel Hh Ha Hm. apply wp_ret. exists v. right.
      assert (Hff : framed (λ q, within (tmpdir H) q ∨ within (staging v) q ∨ within dest q) f g').
      { eapply framed_trans; [eapply framed_weaken; [|exact Hg]; by left|].
        eapply framed_weaken; [|exact Hf']. intros q [Hq|Hq]; auto. }
      split; [exact Hff|].
      exists m, a, d, r. split_and!; [done..|by exists h| |].
      { intros Hplain. eapply below_releases_kept; [exact Hff|].
        intros q [Hq|[Hq|Hq]]; [by left|right..]; (eapply inside_trans; [exact Hq|]);
          [apply staging_inside|]. unfold dest. rewrite plain_dir by done. apply inside_child. }
      intros Hplain Hname.
      assert (Hapart : ∀ q, inside q t = true → inside q (staging v) = false).
      { intros q Hq. destruct (inside q (staging v)) eqn:E1; [|done].
        pose proof (root_tmp q (inside_trans _ _ _ E1 (staging_root v))).
        by rewrite (inside_trans q t (tmpdir H)) in * by done. }
      destruct Hmp as (Hmpt & Hmpne & mo & Hmp), Hart as [-> [ma Hart]].
      split.
      * change (f !! dest = None). rewrite <- (root_kept f g dest Hg).
        -- destruct (g !! dest) as [n|] eqn:En; [|done]. specialize (Hdir n eq_refl). destruct n; try done.
           by rewrite (stat_dir _ _ _ En) in Est.
        -- unfold dest. rewrite plain_dir by done. unfold rels. rewrite !child_under, under_under. apply inside_under.
      * pose proof (artifact_inside mp r Hmpt Hmpne Hname) as Hai.
        assert (Hal : link_at g (artifact_path mp r) = None).
        { apply (clean_link t); [|done]. by eapply clean_run. }
        rewrite <- (Ha (Hapart _ Hai) a ma), <- (Hm (Hapart _ Hmpt) m mo); [exact Hrel|done|].
        by apply stat_unlinked.
    + intros e g' k7 Hg'. exists v. left.
      assert (Hff : framed (λ q, within (tmpdir H) q ∨ within (staging v) q) f g').
      { eapply framed_trans; [eapply framed_weaken; [|exact Hg]; by left|].
        eapply framed_weaken; [|exact Hg']. intros q Hq. by right. }
      split_and!; [exact Hff|by eapply staging_kept|done].
Qed.
End verified.

(** Temporary files before and after an outcome do not count. *)
Lemma outcome_shift f f1 r g g' r' :
  framed (within (tmpdir H)) f f1 → framed (within (tmpdir H)) g g' →
  (∀ doc, r' = Ok doc → r = Ok doc) → staging_outcome f1 r g → staging_outcome f r' g'.
Proof using Hrt Htr.
  intros Hf Hg Hr (v & [(Hff & _ & Hs)|(Hff & Hnew)]); exists v; [left|right].
  - assert (Hall : framed (λ q, within (tmpdir H) q ∨ within (staging v) q) f g').
    { eapply framed_trans; [eapply framed_weaken; [|exact Hf]; by left|].
      eapply framed_trans; [exact Hff|]. eapply framed_weaken; [|exact Hg]. by left. }
    split_and!; [exact Hall|by eapply staging_kept|]. intros doc Hd. by apply Hs, Hr.
  - split.
    { eapply framed_trans; [eapply framed_weaken; [|exact Hf]; by left|].
      eapply framed_trans; [exact Hff|]. eapply framed_weaken; [|exact Hg]. by left. }
    destruct Hnew as (m & a & d & r0 & H1 & H2 & H3 & H4 & H5 & H6 & H7).
    exists m, a, d, r0. split_and!; [done..| |].
    + intros [E1 E2]%H6. unfold selectors_kept, link_at.
      rewrite !(root_kept g g' _ Hg), <- !(root_kept f f1 _ Hf) by apply inside_child. by split.
    + intros Hp Hn. destruct (H7 Hp Hn) as [E1 E2].
      assert (Hdir : inside (release_dir root v) root = true).
      { rewrite plain_dir by done. unfold rels. rewrite !child_under, under_under. apply inside_under. }
      split; [by rewrite <- (root_kept f f1 _ Hf)|]. eapply holds_release_at; [|exact E2].
      intros l. apply (root_kept g g' _ Hg). eapply inside_trans; [apply inside_under|done].
Qed.

Lemma wp_stage_bundle prefix raw older p E f k :
  (∀ d, vacant f d) →
  wp (with_temporary_directory prefix (tmpdir H) (λ extracted,
        extract H raw extracted ;; stage_verified_release H root pid extracted older p)) E (World f k)
    (λ r w, staging_outcome f r (w_fs w)).
Proof using Hrt Htr.
  intros Hvac. apply wp_bind, wp_mkdtemp.
  2: { intros e k1 _. apply tmp_outcome; [apply framed_refl|done]. }
  intros t k1 Hne Ht Hfresh. set (f1 := <[t := _]> f).
  assert (Hf1 : framed (within (tmpdir H)) f f1) by by apply framed_insert.
  assert (Hc1 : clean t f1).
  { intros q Hq. unfold f1. destruct (decide (q = t)) as [->|Hq']; [by rewrite lookup_insert_eq|].
    rewrite lookup_insert_ne by done. by rewrite (Hvac t Hfresh q Hq). }
  assert (Hend : ∀ r g k, staging_outcome f1 r g →
    wp (rmtree (λ m, m) t) E (World g k)
      (λ r' w, match r' with Ok _ => staging_outcome f r (w_fs w) | Raise e => staging_outcome f (Raise e) (w_fs w) end)).
  { intros r g k2 Ho.
    assert (Hw : ∀ g', same_on (within t) g g' → framed (within (tmpdir H)) g g').
    { intros g' Hs. apply same_on_framed. eapply same_on_weaken; [|exact Hs].
      intros q Hq. by eapply inside_trans. }
    apply wp_rmtree; [intros g' k3 Hs|intros e g' k3 _ Hs]; eapply outcome_shift; try exact Ho; try done; auto. }
  apply wp_finally. apply wp_bind. eapply wp_mono; [by apply tidy_extract|].
  intros [[]|e] [f2 k2] Hf2; cbn [w_fs] in Hf2.
  - eapply wp_mono; [apply (wp_stage_verified t Ht Hne)|].
    + by eapply clean_run.
    + intros v Hd q Hq. assert (Hqr : inside q root = true) by (eapply inside_trans; [exact Hq|apply staging_root]).
      destruct Hf2 as [Hf2 _]. rewrite (root_kept f1 f2 q Hf2 Hqr), (root_kept f f1 q Hf1 Hqr).
      apply (Hvac (staging v)); [|done].
      by rewrite <- (root_kept f f1 _ Hf1 (staging_root v)), <- (root_kept f1 f2 _ Hf2 (staging_root v)).
    + intros r [g k3] Ho. apply Hend. eapply outcome_shift; [apply Hf2|apply framed_refl|done|exact Ho].
  - apply Hend. apply tmp_outcome; [apply Hf2|done].
Qed.
End facts.

(** C14: staging is all or nothing, whatever calls fail: when [stage] or
    [stage_pinned_compatibility] ends, in any way, nothing has changed outside the temporary
    files and the staging directory, or one release is new that was not there: its manifest
    was signed, its artifact is the one the manifest describes and passed its self-check, and
    its directory holds them and nothing else.  Neither selector has moved. *)
Theorem stage_all_or_nothing H root pid (m : M dict) E f k :
  inside root (tmpdir H) = false → inside (tmpdir H) root = false → (∀ d, vacant f d) →
  (∃ raw, m = stage H root pid raw) ∨
  (∃ raw version commit digest, m = stage_pinned_compatibility H root pid raw version commit digest) →
  staging_outcome H root pid f (m E (World f k)).1 (w_fs (m E (World f k)).2).
Proof.
  intros Hrt Htr Hvac Hm. change (wp m E (World f k) (λ r w, staging_outcome H root pid f r (w_fs w))).
  assert (Hno : ∀ e k, staging_outcome H root pid f (Raise e) (w_fs (World f k))).
  { intros. apply tmp_outcome; [done|done|apply framed_refl|done]. }
  destruct Hm as [[raw ->]|(raw & v & c & s & ->)].
  - apply wp_bind. eapply wp_mono; [by apply wp_stage_bundle|].
    intros [result|e] [g k1] Ho; [|done]. apply wp_ret.
    destruct Ho as (v & [(H1 & H2 & H3)|Ho]); exists v; [left|by right].
    split_and!; [done|done|]. intros doc [= <-]. change (dget "status" result = JStr "already-staged"). by apply H3.
  - unfold stage_pinned_compatibility, refuse. apply wp_bind, wp_lift.
    destruct (version_tuple v); [|apply Hno]. destruct (negb (is_commit c)); [apply wp_throw, Hno|].
    destruct (negb (is_digest s)); [apply wp_throw, Hno|]. by apply wp_stage_bundle.
Qed.

(** ** A bundle that is staged *)

(** Every directory on the way to a listed path is listed. *)
Definition closed_list (l : list (path * node)) : bool :=
  forallb (λ e, forallb (λ i, opt_is (λ _, true) ((list_to_map l : fs) !! (e.1.1, take i e.1.2)))
                  (seq 0 (S (length e.1.2)))) l.
Lemma closed_vacant l d : closed_list l = true → vacant (list_to_map l) d.
Proof.
  intros Hl Hd q Hq. destruct ((list_to_map l : fs) !! q) as [n|] eqn:E; [|done].
  apply elem_of_list_to_map_2 in E. rewrite list_elem_of_In in E.
  apply (proj1 (forallb_forall _ _) Hl) in E. cbn [fst snd] in E.
  apply inside_spec in Hq as [k ->]. assert (Hi : In (length d.2) (seq 0 (S (length (under d k).2)))).
  { apply in_seq. unfold under. simpl. rewrite length_app. lia. }
  apply (proj1 (forallb_forall _ _) E) in Hi. unfold under in Hi. simpl in Hi.
  rewrite take_app_length in Hi. destruct d as [b dl]. simpl in Hi. by rewrite Hd in Hi.
Qed.

Definition sample_artifact : string := "print(1)".
Definition sample_manifest : string :=
  dumps (st_default true true) (JDict
    [("schema", JStr MANIFEST_SCHEMA); ("product", JStr "cloudx"); ("version", JStr "1.2.0");
     ("activation", JDict [("automatic", JBool false)]); ("protocol", JDict [("min", JInt 1)]);
     ("artifacts", JList [JDict [("component", JStr "cloud"); ("name", JStr ARTIFACT);
                                 ("size", JInt 8); ("sha256", JStr (sha256 sample_artifact))]])]).
Definition sample_host : host :=
  Host (path_of "/tmp") "trusted"
    (λ raw, Ok [Member "b" MDir None; Member "b/manifest.json" MFile (Some sample_manifest);
                Member "b/manifest.json.sig" MFile (Some raw);
                Member "b/cloudx-cloud.pyz" MFile (Some sample_artifact)])
    (λ f signer _ sig, if bool_decide (data_at f signer = Some "trusted"%string ∧ data_at f sig = Some "signed"%string)
                       then 0 else 1)
    (λ f p, Ok (0, dumps (st_default true true) (JDict
       [("schema", JStr "cloudx.self-check.v1"); ("component", JStr "cloud"); ("version", JStr "1.2.0");
        ("protocol", JDict [("min", JInt 1)]); ("status", JStr "ok")]))).
Definition empty_host_list : list (path * node) :=
  [(path_of "/", Dir 493); (path_of "/tmp", Dir 1023); (path_of "/opt", Dir 493)].
Definition empty_host : fs := list_to_map empty_host_list.
Definition staging_env : env :=
  Env (λ _, false) (λ n, pretty (Z.of_nat n)) (λ _, 0) (λ _ _, FNan) (λ _ _, false) (λ _, 0).

(** A signed bundle is staged, under its name; one without a valid signature is not. *)
Lemma sample_staged :
  let '(r, w) := stage sample_host (path_of "/opt/cloudx") 7 "signed" staging_env (World empty_host 0) in
  r = Ok [("schema", JStr "cloudx.release-stage.v1"); ("version", JStr "1.2.0"); ("status", JStr "staged")] ∧
  data_at (w_fs w) (path_of "/opt/cloudx/releases/1.2.0/cloudx-cloud.pyz") = Some sample_artifact ∧
  is_ok (stage sample_host (path_of "/opt/cloudx") 7 "forged" staging_env (World empty_host 0)).1 = false.
Proof. by vm_compute. Qed.
Lemma sample_closed : closed_list empty_host_list = true.
Proof. by vm_compute. Qed.

Lemma stage_all_or_nothing_witness :
  let run := stage sample_host (path_of "/opt/cloudx") 7 "signed" staging_env (World empty_host 0) in
  staging_outcome sample_host (path_of "/opt/cloudx") 7 empty_host run.1 (w_fs run.2).
Proof.
  apply (stage_all_or_nothing sample_host (path_of "/opt/cloudx") 7
           (stage sample_host (path_of "/opt/cloudx") 7 "signed") staging_env empty_host 0).
  - reflexivity.
  - reflexivity.
  - intros d. apply closed_vacant. exact sample_closed.
  - left. exists "signed"%string. reflexivity.
Defined.
