(* ===== verification/PyShlex.v ===== *)
(** * [shlex]: words of a POSIX shell

    [quote], [join] and [split] (with [posix=True], [whitespace_split=True] and no comments);
    splitting what was joined gives the words back. *)

From S2P Require Import Prelude PyStr PyRe.

(** [[a-zA-Z0-9_@%+=:,./-]]. *)
Definition safe_char (c : ascii) : bool := is_alpha c || is_digit c || one_of "_@%+=:,./-" c.
Definition SQ : ascii := ascii_of_nat 39.
Definition DQ : ascii := ascii_of_nat 34.
Definition BACKSLASH : ascii := ascii_of_nat 92.

(** Each single quote becomes [SQ DQ SQ DQ SQ]. *)
Fixpoint escape_quotes (s : string) : string :=
  match s with
  | EmptyString => EmptyString
  | String c s =>
      if Ascii.eqb c SQ
      then String SQ (String DQ (String SQ (String DQ (String SQ (escape_quotes s)))))
      else String c (escape_quotes s)
  end.
Definition shlex_quote (s : string) : string :=
  if s =s? "" then String SQ (String SQ "")
  else if str_forall safe_char s then s
  else String SQ (escape_quotes s +:+ String SQ "").
Definition shlex_join (l : list string) : string := str_join " " (map shlex_quote l).

(** The states of [shlex.read_token]: between words, in a word, in quotes, after a backslash
    that came in a word or in double quotes. *)
Inductive shlex_state := Between | Word | Quoted (q : ascii) | Escaped (in_quotes : bool).
Definition is_blank (c : ascii) : bool := one_of " " c || in_range 9 10 c || Nat.eqb (ord c) 13.
Definition is_quote (c : ascii) : bool := Ascii.eqb c SQ || Ascii.eqb c DQ.

(** [token] is the word so far, reversed; [quoted]: it may be empty. *)
Definition emit (token : string) (quoted : bool) : list string :=
  if (token =s? "") && negb quoted then [] else [str_rev token].
Fixpoint split_go (st : shlex_state) (token : string) (quoted : bool) (s : string) : res (list string) :=
  match s with
  | EmptyString =>
      match st with
      | Between | Word => Ok (emit token quoted)
      | Quoted _ => raise ValueError "No closing quotation"
      | Escaped _ => raise ValueError "No escaped character"
      end
  | String c s =>
      match st with
      | Between | Word =>
          if is_blank c then
            match st with
            | Word => let* l := split_go Between "" false s in Ok (emit token quoted ++ l)
            | _ => split_go Between token quoted s
            end
          else if Ascii.eqb c BACKSLASH then split_go (Escaped false) token quoted s
          else if is_quote c then split_go (Quoted c) token quoted s
          else split_go Word (String c token) quoted s
      | Quoted q =>
          if Ascii.eqb c q then split_go Word token true s
          else if Ascii.eqb c BACKSLASH && Ascii.eqb q DQ then split_go (Escaped true) token true s
          else split_go (Quoted q) (String c token) true s
      | Escaped in_quotes =>
          let token := if in_quotes && negb (Ascii.eqb c BACKSLASH || Ascii.eqb c DQ)
                       then String BACKSLASH token else token in
          split_go (if in_quotes then Quoted DQ else Word) (String c token) quoted s
      end
  end.
Definition shlex_split (s : string) : res (list string) := split_go Between "" false s.

Example splits :
  map shlex_split ["cloudx-remote"; "a  b\ c 'd e'f"; "sudo -n 'x"] =
  [Ok ["cloudx-remote"]; Ok ["a"; "b c"; "d ef"]; raise ValueError "No closing quotation"].
Proof. reflexivity. Qed.

(** ** Splitting what was joined *)

Lemma safe_plain c : safe_char c = true → is_blank c = false ∧ Ascii.eqb c BACKSLASH = false ∧ is_quote c = false.
Proof. by destruct c as [[][][][][][][][]]. Qed.

Lemma split_safe s token quoted k :
  str_forall safe_char s = true →
  split_go Word token quoted (s +:+ k) = split_go Word (str_rev s +:+ token) quoted k.
Proof.
  revert token. induction s as [|c s IH]; intros token H; [done|].
  simpl in H. apply andb_true_iff in H as [Hc Hs]. apply safe_plain in Hc as (H1 & H2 & H3).
  cbn [split_go]. change (String c s +:+ k) with (String c (s +:+ k)). cbn [split_go].
  rewrite H1, H2, H3, IH by done. f_equal. change (String c s) with (String c "" +:+ s).
  by rewrite str_rev_app, str_app_assoc.
Qed.

Lemma split_escaped s token quoted k :
  split_go (Quoted SQ) token quoted (escape_quotes s +:+ String SQ k) =
  split_go Word (str_rev s +:+ token) true k.
Proof.
  revert token quoted. induction s as [|c s IH]; intros token quoted; [done|].
  assert (E : str_rev (String c s) +:+ token = str_rev s +:+ String c token).
  { change (String c s) with (String c "" +:+ s). rewrite str_rev_app, str_app_assoc. done. }
  rewrite E, <- (IH _ true). simpl escape_quotes. destruct (Ascii.eqb_spec c SQ) as [->|Hne]; [done|].
  change (String c (escape_quotes s) +:+ String SQ k) with (String c (escape_quotes s +:+ String SQ k)).
  cbn [split_go]. destruct (Ascii.eqb_spec c SQ); [done|]. by rewrite andb_false_r.
Qed.

(** A quoted word is read up to its end; an empty one counts because of its quotes. *)
Lemma split_word w k :
  ∃ quoted, split_go Between "" false (shlex_quote w +:+ k) = split_go Word (str_rev w) quoted k ∧
    emit (str_rev w) quoted = [w].
Proof.
  assert (He : ∀ b, (w =s? "") = false ∨ b = true → emit (str_rev w) b = [w]).
  { intros b Hb. unfold emit. rewrite str_rev_involutive.
    destruct (eqs_spec (str_rev w) "") as [E|]; [|done].
    apply (f_equal str_rev) in E. rewrite str_rev_involutive in E. subst w.
    by destruct Hb as [H|H]; [|subst b]. }
  unfold shlex_quote. destruct (eqs_spec w "") as [->|Hw]; [by exists true|].
  destruct (str_forall safe_char w) eqn:Hs.
  - exists false. split; [|apply He; by left].
    destruct w as [|c w]; [done|]. simpl in Hs. apply andb_true_iff in Hs as [Hc Hs].
    apply safe_plain in Hc as (H1 & H2 & H3).
    change (String c w +:+ k) with (String c (w +:+ k)). cbn [split_go]. rewrite H1, H2, H3.
    rewrite split_safe by done. f_equal. change (String c w) with (String c "" +:+ w).
    by rewrite str_rev_app.
  - exists true. split; [|apply He; by right].
    change (String SQ (escape_quotes w +:+ String SQ "") +:+ k)
      with (String SQ ((escape_quotes w +:+ String SQ "") +:+ k)).
    rewrite str_app_assoc. change (String SQ "" +:+ k) with (String SQ k).
    change (split_go Between "" false (String SQ (escape_quotes w +:+ String SQ k)))
      with (split_go (Quoted SQ) "" false (escape_quotes w +:+ String SQ k)).
    by rewrite split_escaped, str_app_nil_r.
Qed.

Lemma split_join l : shlex_split (shlex_join l) = Ok l.
Proof.
  unfold shlex_split, shlex_join. induction l as [|w l IH]; [done|].
  destruct l as [|w' l].
  - destruct (split_word w "") as (q & E & He). simpl map. simpl str_join.
    rewrite str_app_nil_r in E. rewrite E. simpl. by rewrite He.
  - change (str_join " " (map shlex_quote (w :: w' :: l)))
      with (shlex_quote w +:+ String " " (str_join " " (map shlex_quote (w' :: l)))).
    destruct (split_word w (String " " (str_join " " (map shlex_quote (w' :: l))))) as (q & -> & He).
    cbn [split_go]. change (is_blank " ") with true. cbn iota. rewrite IH. simpl. by rewrite He.
Qed.
