(* ===== verification/LocalSettings.v ===== *)
(** * Loading the desktop's configuration ([local/cloudx_local/config.py])

    [getenv] is the environment of the process, [which] is [shutil.which], [pw_dir] the home
    directory that the password database names, [expanduser] is [Path.expanduser]. *)

From S2P Require Import Prelude PyStr PyFloat PyValue PyJson FS CpaRecords CpaAuth CpaQuota.
From S2P Require Import LocalConfig LocalMaintenance.

Definition dq : string := chr 34.
Definition LEGACY_API_KEY_COMMAND : string :=
  "sudo -n awk '/^api-keys:/{getline; " +:+
  "gsub(/^[[:space:]]*-[[:space:]]*/, " +:+ dq +:+ dq +:+ "); " +:+
  "gsub(/^" +:+ dq +:+ "|" +:+ dq +:+ "$/, " +:+ dq +:+ dq +:+ "); print; exit}' /etc/cliproxy/config.yaml".

(** [pathlib.Path(v)]: only texts name a path. *)
Definition path_value (v : json) : res path :=
  match v with JStr s => Ok (path_of s) | _ => raise TypeError "expected str, bytes or os.PathLike object" end.
(** [float(v)]. *)
Definition float_value (v : json) : res pyfloat :=
  match v with
  | JStr s => match float_of_text (strip s) with
              | Some f => Ok f | None => raise ValueError "could not convert string to float" end
  | JInt _ | JFloat _ | JBool _ => py_float v
  | _ => raise TypeError "float() argument must be a string or a real number"
  end.
(** [max(2.0, f)]. *)
Definition at_least_two (f : pyfloat) : pyfloat := if is_cmp cmp_gt (fcompare_Z f 2) then f else float_of_int 2.

Section load.
Context (getenv which : string → option string) (pw_dir : option string) (expanduser : path → path).

(** [os.environ.get(name) or ...]: an empty text counts as missing. *)
Definition env_value (name : string) : json :=
  match getenv name with Some v => JStr v | None => JNull end.

Definition user_home : res path :=
  let value := py_or (env_value "CLOUDX_USER_HOME") (env_value "CODEXX_USER_HOME") in
  let value := if truthy value then value
               else match pw_dir with Some d => JStr d | None => env_value "HOME" end in
  if negb (truthy value) then raise RuntimeError "HOME is not set" else
  let* p := path_value value in Ok (expanduser p).

Definition load_json (p : path) : M dict :=
  let! present := is_file_p p in
  if negb present then ret [] else
  let! value := try_with (let! text := read_text p in lift (loads text))
    (except [OSError; JSONDecodeError] (λ _, mraise RuntimeError ("invalid Cloudx config: " +:+ path_str p))) in
  match value with JDict d => ret d | _ => mraise RuntimeError "Cloudx config root must be an object" end.

(** [os.environ.get(name, str(fallback))]. *)
Definition env_path (name : string) (fallback : path) : path :=
  expanduser (match getenv name with Some v => path_of v | None => fallback end).
(** [str(os.environ.get(name) or section.get(key) or fallback)]. *)
Definition setting (name : string) (section : dict) (key fallback : string) : string :=
  py_str (py_or (env_value name) (py_or (dget key section) (JStr fallback))).
(** [pathlib.Path(str(...)).expanduser()]. *)
Definition path_setting (name : string) (section : dict) (key : string) (fallback : path) : path :=
  let v := py_or (env_value name) (dget key section) in
  expanduser (if truthy v then path_of (py_str v) else fallback).
Definition or_int (v : json) (fallback : Z) : res Z := py_int (py_or v (JInt fallback)).

Definition default_codex : M string :=
  let! homebrew := is_file_p (path_of "/opt/homebrew/bin/codex") in
  ret (if homebrew then "/opt/homebrew/bin/codex"
       else match which "codex" with Some s => if s =s? "" then "codex" else s | None => "codex" end).

(** [LocalConfig.load]. *)
Definition load : M local_config :=
  let! home := lift user_home in
  let config_path := env_path "CLOUDX_CONFIG" (under home [".config"; "cloudx"; "config.json"]) in
  let! data := load_json config_path in
  let broker := dict_or_empty (dget "broker" data) in
  let legacy := dict_or_empty (dget "legacy" data) in
  let local_cpa := dict_or_empty (dget "localCpa" data) in
  let chosen := py_or (env_value "CLOUDX_CODEX_BINARY") (dget "codexBinary" data) in
  let! codex_binary := (if truthy chosen then ret (py_str chosen) else default_codex) in
  let! accounts_dir := lift (match dlookup "accountsDir" data with
                             | Some v => path_value v | None => Ok (under home [".codex-accounts"]) end) in
  let ssh := match which "ssh" with Some s => if s =s? "" then "ssh" else s | None => "ssh" end in
  let! port := lift (or_int (dget "forwardPort" legacy) 8317) in
  let! idle := lift (or_int (dget "idleSeconds" broker) 900) in
  let! timeout := lift (float_value (py_or (dget "healthTimeoutSeconds" broker) (JInt 5))) in
  let! attempts := lift (or_int (dget "healthAttempts" broker) 3) in
  let binary := py_or (env_value "CLOUDX_LOCAL_CPA_BINARY") (dget "binary" local_cpa) in
  ret {|
    lc_home := home;
    lc_state_dir := env_path "CLOUDX_STATE_DIR" (under home [".local"; "state"; "cloudx"]);
    lc_auth_dir := Some (path_setting "CLOUDX_LOCAL_CPA_AUTH_DIR" local_cpa "authDir" (under home [".cli-proxy-api"]));
    lc_archive_dir := Some (path_setting "CLOUDX_LOCAL_CPA_ARCHIVE_DIR" local_cpa "archiveDir"
                              (under home [".cli-proxy-api-archive"]));
    lc_failure_dir := Some (path_setting "CLOUDX_LOCAL_CPA_FAILURE_DIR" local_cpa "failureDir"
                              (under home [".local"; "state"; "cloudx"; "cpa-auth-failures"]));
    lc_sweep_dir := Some (path_setting "CLOUDX_LOCAL_CPA_SWEEP_DIR" local_cpa "sweepDir"
                            (under home [".local"; "state"; "cloudx"; "cpa-auth-sweeps"]));
    lc_proxy_url := strip (setting "CLOUDX_LOCAL_CPA_PROXY_URL" local_cpa "proxyUrl" "");
    lc_binary := if truthy binary then Some (expanduser (path_of (py_str binary))) else None;
    lc_capability_manifest := Some (path_setting "CLOUDX_LOCAL_CPA_CAPABILITY_MANIFEST" local_cpa "capabilityManifest"
                                      (under home [".local"; "bin"; "cli-proxy-api.capabilities.json"]));
    lc_capability_probe_url := strip (setting "CLOUDX_LOCAL_CPA_CAPABILITY_PROBE_URL" local_cpa "capabilityProbeUrl"
                                        "http://127.0.0.1:8317/healthz");
    lc_config_path := config_path;
    lc_data_dir := env_path "CLOUDX_DATA_DIR" (under home [".local"; "share"; "cloudx"]);
    lc_cache_dir := env_path "CLOUDX_CACHE_DIR" (under home [".cache"; "cloudx"]);
    lc_accounts_dir := expanduser accounts_dir;
    lc_codex_binary := codex_binary;
    lc_ssh_binary := setting "CLOUDX_SSH_BINARY" data "sshBinary" ssh;
    lc_ssh_host := setting "CLOUDX_SSH_HOST" data "sshHost" "cloud";
    lc_remote_helper := setting "CLOUDX_REMOTE_HELPER" data "remoteHelper" "cloudx-remote";
    lc_forward_host := py_str (py_or (dget "forwardHost" legacy) (JStr "100.90.97.113"));
    lc_forward_port := port;
    lc_api_key_command := py_str (py_or (dget "apiKeyCommand" legacy) (JStr LEGACY_API_KEY_COMMAND));
    lc_idle_seconds := Z.max 60 idle;
    lc_endpoint_timeout := at_least_two timeout;
    lc_endpoint_attempts := Z.max 1 attempts;
    lc_release_repository := py_str (py_or (dget "releaseRepository" data)
                                       (JStr "git@github.com:N0RMANCHEN/cloudx.git")) |}.
End load.
Definition broker_dir (config : local_config) : path := child (lc_state_dir config) "tunnel".
Definition cloud_codex_home (config : local_config) : path := child (lc_data_dir config) "codex-home".

(** * The environment of a process

    [os.environ] and the copies that the program changes before it starts another process. *)

Definition environment : Type := list (string * string).
(** [e.get(name)], [e.pop(name, None)], [e[name] = value]. *)
Fixpoint env_get (e : environment) (name : string) : option string :=
  match e with [] => None | (k, v) :: e => if k =s? name then Some v else env_get e name end.
Definition env_pop (name : string) (e : environment) : environment := List.filter (λ kv, kv.1 <>s? name) e.
Fixpoint env_set (name value : string) (e : environment) : environment :=
  match e with
  | [] => [(name, value)]
  | (k, v) :: e => if k =s? name then (k, value) :: e else (k, v) :: env_set name value e
  end.
Definition env_pops (names : list string) (e : environment) : environment :=
  fold_left (λ e name, env_pop name e) names e.
Definition env_update (values : environment) (e : environment) : environment :=
  fold_left (λ e kv, env_set kv.1 kv.2 e) values e.

(** The variables that would take Codex to another gateway. *)
Definition OPENAI_VARIABLES : list string := ["OPENAI_API_KEY"; "OPENAI_BASE_URL"; "OPENAI_API_BASE"].

Lemma env_get_pop name k e : env_get (env_pop k e) name = if k =s? name then None else env_get e name.
Proof.
  unfold env_pop. induction e as [|[x v] e IH]; simpl; [by destruct (k =s? name)|].
  destruct (eqs_spec x k) as [->|Hx]; simpl.
  - rewrite IH. by destruct (k =s? name).
  - rewrite IH. destruct (eqs_spec x name) as [->|]; [|done]. by destruct (eqs_spec k name) as [->|].
Qed.
Lemma env_get_pops name ks e : env_get (env_pops ks e) name = if mem name ks then None else env_get e name.
Proof.
  unfold env_pops. revert e. induction ks as [|k ks IH]; intros e; [done|]. cbn [fold_left]. rewrite IH, env_get_pop.
  unfold mem. cbn [existsb]. destruct (existsb _ ks); [by rewrite orb_true_r|]. rewrite orb_false_r.
  destruct (eqs_spec k name) as [->|Hk]; [by rewrite String.eqb_refl|].
  destruct (String.eqb_spec name k); [congruence|done].
Qed.
Lemma env_get_set name k v e : env_get (env_set k v e) name = if k =s? name then Some v else env_get e name.
Proof.
  induction e as [|[x y] e IH]; simpl; [done|]. destruct (eqs_spec x k) as [->|Hx]; simpl.
  - by destruct (k =s? name).
  - rewrite IH. destruct (eqs_spec x name) as [->|]; [|done]. destruct (eqs_spec k name) as [->|]; [done|done].
Qed.
