(* ===== verification/Remote.v ===== *)
(** * The remote helper ([local/cloudx_local/remote.py])

    Commands for the cloud helper over SSH, and the checks of what it answers.  [run_ssh]
    stands for [subprocess.run] of the SSH client: the command, its input and its timeout in
    seconds. *)

From S2P Require Import Prelude PyStr PyFloat PyValue PyJson PyShlex FS LocalConfig CpaRecords Health ApiFailure.

Record completed := MkCompleted { cp_returncode : Z; cp_stdout : string; cp_stderr : string }.
Inductive ssh_outcome := Finished (c : completed) | NotFound | TimedOut.

Record remote_endpoint := RemoteEndpoint {
  re_mode : string; re_api_key : string; re_forward_host : string; re_forward_port : Z;
  re_handshake : dict }.

Definition remote_error {A} (msg : string) : M A := mraise RuntimeError msg.

(** [_document]. *)
Definition remote_document (c : completed) (label : string) : M dict :=
  if negb (cp_returncode c =? 0)
  then remote_error (label +:+ " failed with exit " +:+ str_of_Z (cp_returncode c)) else
  let! value := try_with (lift (loads_bytes (cp_stdout c)))
    (except [UnicodeDecodeError; JSONDecodeError] (λ _, remote_error (label +:+ " returned invalid JSON"))) in
  match value with
  | JDict d => ret d
  | _ => remote_error (label +:+ " returned a non-object response")
  end.

(** [_import_failure_reason]. *)
Definition import_failure_reason (c : completed) : string :=
  let stderr := casefold (utf8_replace (cp_stderr c)) in
  let has s := contains s stderr in
  if has "could not resolve hostname" || has "name or service not known"
  then "cloud importer SSH host could not be resolved; check the configured SSH host" else
  if has "permission denied" then "cloud importer SSH authentication was rejected" else
  if has "connection refused" then "cloud importer SSH connection was refused" else
  if has "connection timed out" || has "operation timed out"
  then "cloud importer SSH connection timed out" else
  if has "no route to host" || has "network is unreachable"
  then "cloud importer SSH host is unreachable" else
  if has "cloudx-remote" && (has "not found" || has "command not found")
  then "remote Cloudx importer is unavailable" else
  if cp_returncode c =? 255
  then "cloud importer could not be reached over SSH; check network and SSH configuration"
  else "cloud importer failed before returning a structured result (exit " +:+
       str_of_Z (cp_returncode c) +:+ ")".

Section remote.
Context (run_ssh : list string → option string → Z → M ssh_outcome) (config : local_config).

Definition ssh (command_text : string) (input : option string) (timeout : Z) : M completed :=
  let! outcome := run_ssh [lc_ssh_binary config; "-o"; "BatchMode=yes"; "-o"; "ConnectTimeout=10";
                           lc_ssh_host config; command_text] input timeout in
  match outcome with
  | Finished c => ret c
  | NotFound => remote_error ("ssh executable was not found: " +:+ lc_ssh_binary config)
  | TimedOut => remote_error "SSH command timed out"
  end.

(** [_helper]. *)
Definition helper_command (args : list string) : res string :=
  let* words := shlex_split (lc_remote_helper config) in Ok (shlex_join (words ++ args)).
Definition helper (args : list string) (input : option string) (timeout : Z) : M completed :=
  let! command_text := lift (helper_command args) in ssh command_text input timeout.

Definition handshake : M dict :=
  let! c := helper ["handshake"; "--json"] None 20 in
  if negb (cp_returncode c =? 0) then mraise HelperUnavailable "remote Cloudx helper is unavailable" else
  let! document := remote_document c "remote handshake" in
  if negb (eq_str (dget "schema" document) "cloudx.handshake.v1")
  then remote_error "remote handshake schema is unsupported" else
  match dget "protocol" document with
  | JDict protocol =>
      let! remote_min := lift (py_int (dget_or "min" (JInt 0) protocol)) in
      let! remote_max := lift (py_int (dget_or "max" (JInt 0) protocol)) in
      if Z.min PROTOCOL_MAX remote_max <? Z.max PROTOCOL_MIN remote_min
      then remote_error "local and remote Cloudx protocols are incompatible" else ret document
  | _ => remote_error "remote handshake has no protocol range"
  end.

Definition legacy_handshake : dict :=
  [("schema", JStr "cloudx.handshake.v1"); ("productVersion", JStr "legacy"); ("buildCommit", JStr "legacy");
   ("protocol", JDict [("min", JInt 1); ("max", JInt 1)]);
   ("capabilities", JList [JStr "legacy-gateway.v1"]); ("deploymentId", JStr "legacy-bridge");
   ("gateway", JDict [("version", JStr "external"); ("status", JStr "unknown")]);
   ("importerContractVersion", JInt 0)].

Definition resolve_legacy_endpoint : M remote_endpoint :=
  let! c := ssh (lc_api_key_command config) None 20 in
  let key := strip (utf8_replace (cp_stdout c)) in
  if negb (cp_returncode c =? 0) || (key =s? "")
  then remote_error "legacy bridge could not obtain the scoped gateway credential"
  else ret (RemoteEndpoint "legacy_bridge" key (lc_forward_host config) (lc_forward_port config) legacy_handshake).

(** Only a helper that is not there leads to the legacy bridge. *)
Definition resolve_endpoint : M remote_endpoint :=
  let! shaken := try_with (let! d := handshake in ret (Some d))
    (except [HelperUnavailable] (λ _, ret None)) in
  match shaken with
  | None => resolve_legacy_endpoint
  | Some document =>
      let! c := helper ["client-config"; "--json"] None 20 in
      let! client := remote_document c "remote client config" in
      if negb (eq_str (dget "schema" client) "cloudx.client-config.v1")
      then remote_error "remote client config schema is unsupported" else
      let api_key := strip (str_or_empty (dget "apiKey" client)) in
      let host := strip (str_or_empty (dget "forwardHost" client)) in
      let! port := lift (py_int (py_or (dget "forwardPort" client) (JInt 0))) in
      if (api_key =s? "") || (host =s? "") || (port <? 1) || (65535 <? port)
      then remote_error "remote client config is incomplete"
      else ret (RemoteEndpoint "cloudx" api_key host port document)
  end.

(** A document of the helper with the expected schema. *)
Definition checked_document (c : completed) (label schema : string) : M dict :=
  let! document := remote_document c label in
  if negb (eq_str (dget "schema" document) schema)
  then remote_error (label +:+ " schema is unsupported") else ret document.

Definition remote_health : M dict :=
  let! c := helper ["health"; "--json"] None 20 in checked_document c "remote health" "cloudx.health.v1".

(** A failed import may still have printed its result. *)
Definition import_payload (raw : string) (dry_run force : bool) : M dict :=
  let args := ["import"] ++ (if dry_run then ["--dry-run"] else []) ++ (if force then ["--force"] else []) in
  let! c := helper args (Some raw) 60 in
  let! document :=
    (if cp_returncode c =? 0 then remote_document c "remote import" else
     let! value := try_with (lift (loads_bytes (cp_stdout c)))
       (except [UnicodeDecodeError; JSONDecodeError] (λ _, remote_error (import_failure_reason c))) in
     match value with JDict d => ret d | _ => remote_error (import_failure_reason c) end) in
  if negb (eq_str (dget "schema" document) "cloudx.import.v1")
  then remote_error "remote import schema is unsupported" else ret document.

Definition remote_stage_release (bundle : string) : M dict :=
  let! c := helper ["release-stage"] (Some bundle) 120 in remote_document c "remote release stage".
Definition remote_release_status : M dict :=
  let! c := helper ["release-status"] None 20 in
  checked_document c "remote release status" "cloudx.release-status.v1".
Definition remote_activate_release (version : string) : M dict :=
  let! c := helper ["release-activate"; "--version"; version; "--confirm"; version] None 30 in
  checked_document c "remote release activation" "cloudx.release-activate.v1".
Definition remote_rollback_release (version : string) : M dict :=
  let! c := helper ["release-rollback"; "--confirm"; version] None 30 in
  checked_document c "remote release rollback" "cloudx.release-rollback.v1".
End remote.

(** ** What is sent and what is accepted *)

(** The remote shell reads back the words of the helper and of its arguments. *)
Lemma helper_command_words config args words :
  shlex_split (lc_remote_helper config) = Ok words →
  ∃ text, helper_command config args = Ok text ∧ shlex_split text = Ok (words ++ args).
Proof. intros H. unfold helper_command. rewrite H. eexists. split; [done|]. apply split_join. Qed.
