(* ===== verification/LocalReleases.v ===== *)
(** * Releases on the desktop: selectors ([local/cloudx_local/updater.py])

    The desktop keeps its releases as the cloud host does, with other words, a [v] that may
    precede a version, and three commands that link to the current artifact. *)

From S2P Require Import Prelude PyStr PyFloat PyValue PyJson PyTime FS LocalConfig CpaAuth Releases.

Definition LOCAL_VERSION : string := "0.1.33".
Definition LOCAL_ARTIFACT : string := "cloudx-local.pyz".
Definition updater_error {A} (msg : string) : M A := mraise RuntimeError msg.

(** [VERSION_RE]: the text of its group, without [v] and without a final line feed. *)
Definition version_text (value : string) : option string :=
  let s := before_final_lf value in
  let s := if starts_with "v" s then str_drop 1 s else s in
  match three_numbers s with Some _ => Some s | None => None end.
Definition local_version_tuple (value : string) : res version :=
  match version_text value with
  | Some s => match three_numbers s with
              | Some v => Ok v | None => raise RuntimeError ("invalid release version: " +:+ value) end
  | None => raise RuntimeError ("invalid release version: " +:+ value)
  end.

Definition local_root (config : local_config) : path := under (lc_home config) [".local"; "lib"; "cloudx"].
Definition bin_dir (config : local_config) : path := under (lc_home config) [".local"; "bin"].
Definition COMMANDS : list string := ["codexx"; "cloud"; "cloudx-update"].

Section selectors.
Context (config : local_config) (pid : Z).
Let root := local_root config.
Let current := child root "current".
Let previous := child root "previous".

(** [link.resolve() if link.is_symlink() else None]. *)
Definition selected_target (link : path) : M (option path) :=
  let! linked := is_symlink_p link in
  if linked then let! p := resolve_lax link in ret (Some p) else ret None.

(** A downgrade is refused when there is a current release. *)
Definition refuse_local_downgrade (version msg : string) : M unit :=
  let! linked := is_symlink_p current in
  if negb linked then ret tt else
  let! new := lift (local_version_tuple version) in
  let! active := resolve_lax current in
  let! old := lift (local_version_tuple (p_name active)) in
  if version_ltb new old then updater_error msg else ret tt.

Definition activate_local (version : string) : M (option string) :=
  let destination := path_join (child root "releases") version in
  let! staged := is_file_p (child destination LOCAL_ARTIFACT) in
  if negb staged then updater_error "local release is not staged" else
  let! old_target := selected_target current in
  let! resolved_destination := resolve_lax destination in
  atomic_link pid current destination ;;
  let fallback :=
    let! present := is_symlink_p previous in
    if present then ret tt else
    let! earlier := latest_staged_before local_version_tuple root version LOCAL_ARTIFACT in
    match earlier with Some p => atomic_link pid previous p | None => ret tt end in
  (match old_target with
   | Some old => if negb (bool_decide (old = resolved_destination)) then atomic_link pid previous old else fallback
   | None => fallback
   end) ;;
  mkdir_parents (bin_dir config) 511 ;;
  let stable_artifact := child current LOCAL_ARTIFACT in
  miter (λ name, atomic_link pid (child (bin_dir config) name) stable_artifact) COMMANDS ;;
  let! selected := selected_target previous in ret (option_map p_name selected).

Definition rollback_local (version : string) : M unit :=
  let! linked := is_symlink_p previous in
  let! matches := (if negb linked then ret false else
                   let! p := resolve_lax previous in ret (p_name p =s? version)) in
  if negb matches then updater_error "requested local rollback version is not the previous release" else
  let! old_current := selected_target current in
  let! target := resolve_lax previous in
  atomic_link pid current target ;;
  match old_current with
  | Some old => if negb (bool_decide (old = target)) then atomic_link pid previous old else ret tt
  | None => ret tt
  end.
End selectors.
