(* ===== verification/ShellHook.v ===== *)
(** * The shell hook and the native profile ([local/cloudx_local/updater.py])

    The lines the updater keeps in [.zshrc], and the copy of an account's profile. *)

From S2P Require Import Prelude PyStr PyFloat PyValue PyTime PyJson FS LocalConfig CpaAuth Releases Trees LocalReleases.

Definition HOOK_START : string := "# cloudx shell hook start".
Definition HOOK_END : string := "# cloudx shell hook end".
Definition START_MARKERS : list string := ["# codexx shell hook start"; HOOK_START; "# >>> codexx >>>"].
Definition END_MARKERS : list string := ["# codexx shell hook end"; HOOK_END; "# <<< codexx <<<"].

(** The loop over the lines: what lies between the markers is dropped. *)
Fixpoint drop_hooks (skipping : bool) (lines : list string) : list string :=
  match lines with
  | [] => []
  | line :: lines =>
      if mem (strip line) START_MARKERS then drop_hooks true lines
      else if skipping && mem (strip line) END_MARKERS then drop_hooks false lines
      else if skipping then drop_hooks true lines else line :: drop_hooks false lines
  end.
(** [while filtered and not filtered[-1].strip(): filtered.pop()]. *)
Fixpoint drop_blank_head (lines : list string) : list string :=
  match lines with
  | [] => []
  | line :: rest => if strip line =s? "" then drop_blank_head rest else lines
  end.
Definition drop_blank_tail (lines : list string) : list string := reverse (drop_blank_head (reverse lines)).

Definition hook_lines (hook : path) : list string := [HOOK_START; "source " +:+ path_str hook; HOOK_END].
Definition hooked_lines (original : string) (hook : path) : list string :=
  let filtered := drop_blank_tail (drop_hooks false (splitlines original)) in
  match filtered with [] => [] | _ => filtered ++ [""] end ++ hook_lines hook.
Definition hooked_text (original : string) (hook : path) : string :=
  rstrip (str_join LF (hooked_lines original hook)) +:+ LF.

(** [datetime.now(timezone.utc).strftime("%Y%m%dT%H%M%SZ")]. *)
Definition stamp (t : datetime) : string :=
  let '(y, m, d) := days2ymd (dt_wall t / DAY_US) in
  let sec := dt_wall t mod DAY_US / US in
  pad 4 y +:+ pad 2 m +:+ pad 2 d +:+ "T" +:+
  pad 2 (sec / 3600) +:+ pad 2 ((sec / 60) mod 60) +:+ pad 2 (sec mod 60) +:+ "Z".
Definition now_stamp : M string := let! us := now_us in ret (stamp (utc (EPOCH_US + us))).

Section hook.
Context (config : local_config) (packaged_hook : string).

(** [_shell_hook]: the package data. *)
Definition shell_hook : M string :=
  if packaged_hook =s? "" then updater_error "Cloudx shell hook is missing" else ret packaged_hook.

Definition install_shell_hook (hook_data : option string) : M path :=
  let hook := under (lc_home config) [".config"; "cloudx"; "shell.zsh"] in
  let! data := (match hook_data with Some d => ret d | None => shell_hook end) in
  atomic_write hook data 420 ;;
  let zshrc := child (lc_home config) ".zshrc" in
  let! present := is_file_p zshrc in
  let! original := (if present then read_text zshrc else ret "") in
  let! timestamp := now_stamp in
  let! still := is_file_p zshrc in
  (if still then atomic_write (under (lc_state_dir config) ["shell-backups"; "zshrc-" +:+ timestamp]) original 384
   else ret tt) ;;
  atomic_write zshrc (hooked_text original hook) 420 ;;
  ret hook.

Definition PROFILE_FILES : list string := ["auth.json"; "config.toml"].

(** One file of the profile: the one in place is kept, the account's takes its place. *)
Definition seed_file (source destination backup : path) (name : string) : M unit :=
  let target := child destination name in
  let! present := exists_p target in
  (if present then copy2 target (child backup name) else ret tt) ;;
  let! data := read_bytes (child source name) in atomic_write target data 384.

Definition seed_native_profile (account : string) : M path :=
  let source := path_join (path_join (lc_accounts_dir config) account) ".codex" in
  let! first := is_file_p (child source "auth.json") in
  let! complete := (if first then is_file_p (child source "config.toml") else ret false) in
  if negb complete then updater_error ("source account lacks auth.json or config.toml: " +:+ account) else
  let destination := child (lc_home config) ".codex" in
  ensure_private_directory destination ;;
  let! timestamp := now_stamp in
  let backup := under (lc_state_dir config) ["native-profile-backups"; timestamp] in
  ensure_private_directory backup ;;
  miter (seed_file source destination backup) PROFILE_FILES ;;
  let marker := child (lc_state_dir config) "native-profile-seed.json" in
  atomic_json marker [("account", JStr account); ("at", JStr timestamp); ("backup", JStr (path_str backup))] 384 ;;
  ret backup.
End hook.

(** ** The hook can be installed again *)

Definition unbroken (s : string) : bool := str_forall (λ c, negb (is_line_break c)) s.

Lemma splitlines_line line cur rest :
  unbroken line = true →
  splitlines_go cur (line +:+ LF +:+ rest) = (str_rev cur +:+ line) :: splitlines_go "" rest.
Proof.
  revert cur. induction line as [|c line IH]; intros cur H.
  - simpl. by rewrite str_app_nil_r.
  - unfold unbroken in H. simpl in H. apply andb_true_iff in H as [Hc H].
    change (String c line +:+ LF +:+ rest) with (String c (line +:+ LF +:+ rest)). cbn [splitlines_go].
    assert (Nat.eqb (ord c) 13 = false) as ->.
    { by destruct c as [[][][][][][][][]]. }
    apply negb_true_iff in Hc. rewrite Hc, IH by done. f_equal.
    change (String c cur) with (String c "" +:+ cur).
    rewrite str_rev_app, str_app_assoc. done.
Qed.

Lemma splitlines_join l : l ≠ [] → Forall (λ s, unbroken s = true) l → splitlines (str_join LF l +:+ LF) = l.
Proof.
  intros Hne Hl. unfold splitlines. induction Hl as [|s l Hs Hl IH]; [done|].
  destruct l as [|s' l].
  - simpl str_join. rewrite <- (str_app_nil_r LF). by rewrite splitlines_line.
  - change (str_join LF (s :: s' :: l) +:+ LF) with ((s +:+ LF +:+ str_join LF (s' :: l)) +:+ LF).
    rewrite !str_app_assoc, splitlines_line by done. simpl. f_equal. by apply IH.
Qed.

Lemma unbroken_rev s : unbroken (str_rev s) = unbroken s.
Proof. apply str_forall_rev. Qed.
Lemma splitlines_unbroken s cur :
  unbroken cur = true → Forall (λ s, unbroken s = true) (splitlines_go cur s).
Proof.
  remember (String.length s) as n eqn:En. revert s cur En.
  induction n as [n IH] using lt_wf_ind. intros s cur En Hcur.
  assert (Hrev : unbroken (str_rev cur) = true) by by rewrite unbroken_rev.
  destruct s as [|c s]; cbn [splitlines_go].
  - destruct cur; [constructor|]. by repeat constructor.
  - simpl in En. destruct (Nat.eqb (ord c) 13).
    + destruct s as [|d s]; [by repeat constructor|]. simpl in En.
      destruct (Nat.eqb (ord d) 10); (constructor; [done|]); eapply IH; try done; simpl; lia.
    + destruct (is_line_break c) eqn:Eb; [constructor; [done|]|]; (eapply IH; [|reflexivity|]; [lia|]); [done|].
      unfold unbroken in *. simpl. by rewrite Eb.
Qed.

Definition no_start (line : string) : Prop := mem (strip line) START_MARKERS = false.

Lemma drop_hooks_no_start b l : Forall no_start (drop_hooks b l).
Proof.
  revert b. induction l as [|x l IH]; intros b; cbn [drop_hooks]; [constructor|].
  destruct (mem (strip x) START_MARKERS) eqn:E; [apply IH|].
  destruct (b && _); [apply IH|]. destruct b; [apply IH|]. by constructor.
Qed.
Lemma drop_hooks_app l k : Forall no_start l → drop_hooks false (l ++ k) = l ++ drop_hooks false k.
Proof. intros H. induction H as [|x l Hx _ IH]; [done|]. cbn [drop_hooks app]. unfold no_start in Hx. rewrite Hx. cbn [andb]. by rewrite IH. Qed.
Lemma drop_hooks_subset P b l : Forall P l → Forall P (drop_hooks b l).
Proof.
  intros H. revert b. induction H as [|x l Hx _ IH]; intros b; cbn [drop_hooks]; [constructor|].
  destruct (mem _ _); [apply IH|]. destruct (b && _); [apply IH|]. destruct b; [apply IH|]. by constructor.
Qed.

Lemma drop_blank_idem l : drop_blank_tail (drop_blank_tail l) = drop_blank_tail l.
Proof.
  unfold drop_blank_tail. rewrite reverse_involutive. f_equal.
  induction (reverse l) as [|x k IH]; [done|]. simpl. destruct (strip x =s? "") eqn:E; [done|].
  simpl. by rewrite E.
Qed.
Lemma drop_blank_snoc l : drop_blank_tail (l ++ [""]) = drop_blank_tail l.
Proof. unfold drop_blank_tail. by rewrite reverse_app. Qed.
Lemma drop_blank_subset P l : Forall P l → Forall P (drop_blank_tail l).
Proof.
  intros H. apply Forall_reverse in H. unfold drop_blank_tail. apply Forall_reverse.
  induction H as [|x k Hx Hk IH]; simpl; [constructor|]. destruct (_ =s? _); [done|by constructor].
Qed.

(** White space at the end of a text does not reach its first other character. *)
Lemma rstrip_head f c s : f c = false → ∃ t, rstrip_by f (String c s) = String c t.
Proof.
  intros Hc. unfold rstrip_by. change (String c s) with (String c "" +:+ s). rewrite str_rev_app.
  change (str_rev (String c "")) with (String c "").
  assert (Hd : ∀ a, ∃ b, drop_while f (a +:+ String c "") = b +:+ String c "").
  { induction a as [|x a [b IH]]; [exists ""%string; simpl; by rewrite Hc|]. simpl.
    destruct (f x); [by exists b|]. by exists (String x a). }
  destruct (Hd (str_rev s)) as [b ->]. rewrite str_rev_app. by exists (str_rev b).
Qed.

Lemma str_join_snoc sep l x : l ≠ [] → str_join sep (l ++ [x]) = str_join sep l +:+ sep +:+ x.
Proof.
  intros Hl. induction l as [|y l IH]; [done|]. destruct l as [|z l]; [done|].
  change (str_join sep ((y :: z :: l) ++ [x])) with (y +:+ sep +:+ str_join sep ((z :: l) ++ [x])).
  rewrite IH by done. change (str_join sep (y :: z :: l)) with (y +:+ sep +:+ str_join sep (z :: l)).
  by rewrite !str_app_assoc.
Qed.

Lemma hook_lines_no_start hook : drop_hooks false (hook_lines hook) = [].
Proof.
  unfold hook_lines. set (line := "source " +:+ path_str hook).
  assert (Hs : mem (strip line) START_MARKERS = false ∧ mem (strip line) END_MARKERS = false).
  { unfold line, strip, strip_by, lstrip_by.
    change ("source " +:+ path_str hook) with (String "s" ("ource " +:+ path_str hook)). cbn [drop_while].
    change (is_space "s") with false. cbn iota.
    destruct (rstrip_head is_space "s" ("ource " +:+ path_str hook)) as [t ->]; [done|]. by split. }
  destruct Hs as [H1 H2]. cbn [drop_hooks]. change (mem (strip HOOK_START) START_MARKERS) with true. cbn iota.
  rewrite H1, H2. cbn [andb]. cbn iota. by vm_compute.
Qed.

Lemma hooked_text_join o hook : hooked_text o hook = str_join LF (hooked_lines o hook) +:+ LF.
Proof.
  unfold hooked_text, hooked_lines, hook_lines. set (pre := match _ with [] => [] | _ => _ end).
  f_equal. change [HOOK_START; "source " +:+ path_str hook; HOOK_END]
    with ([HOOK_START; "source " +:+ path_str hook] ++ [HOOK_END]).
  rewrite app_assoc, str_join_snoc by (by destruct pre). set (y := str_join LF _).
  rewrite <- str_app_assoc. unfold rstrip, rstrip_by. rewrite str_rev_app.
  set (z := str_rev (y +:+ LF)). change (str_rev HOOK_END) with (String "d" (str_rev "# cloudx shell hook en")).
  cbn [drop_while]. change (String "d" (str_rev "# cloudx shell hook en") +:+ z) with
    (String "d" (str_rev "# cloudx shell hook en" +:+ z)). cbn [drop_while].
  change (is_space "d") with false. cbn iota.
  change (String "d" (str_rev "# cloudx shell hook en" +:+ z)) with (str_rev HOOK_END +:+ z).
  unfold z. rewrite str_rev_app, !str_rev_involutive. done.
Qed.

Lemma hooked_lines_read o hook :
  unbroken (path_str hook) = true → splitlines (hooked_text o hook) = hooked_lines o hook.
Proof.
  intros Hh. rewrite hooked_text_join. apply splitlines_join.
  - unfold hooked_lines, hook_lines. by destruct (match _ with [] => [] | _ => _ end).
  - unfold hooked_lines. apply Forall_app. split.
    + assert (Hf : Forall (λ s, unbroken s = true) (drop_blank_tail (drop_hooks false (splitlines o)))).
      { by apply drop_blank_subset, drop_hooks_subset, splitlines_unbroken. }
      destruct (drop_blank_tail _); [constructor|]. apply Forall_app. split; [done|by repeat constructor].
    + unfold hook_lines. repeat constructor. unfold unbroken in *. by rewrite str_forall_app, Hh.
Qed.



(** A start marker without an end takes every line after it. *)
Lemma unterminated_hook l k :
  Forall no_start l → Forall (λ x, mem (strip x) END_MARKERS = false) k →
  drop_hooks false (l ++ HOOK_START :: k) = l.
Proof.
  intros Hl Hk. rewrite drop_hooks_app by done. rewrite <- (app_nil_r l) at 2. f_equal.
  change (drop_hooks true k = []). induction Hk as [|x k Hx _ IH]; [done|]. cbn [drop_hooks].
  rewrite Hx. destruct (mem (strip x) START_MARKERS); exact IH.
Qed.
