(* ===== verification/Updater.v ===== *)
(** * The updater of the desktop ([local/cloudx_local/updater.py])

    Staging, activation and rollback of both endpoints, and the signed index of the stable
    release.  [git], the packing of a bundle, the reading of a zip archive and the process
    that a scheduled check starts are programs or libraries of the host. *)

From S2P Require Import Prelude PyStr PyFloat PyValue PyTime PyJson PySha FS LocalConfig CpaAuth Health CpaHealth.
From S2P Require Import Releases Trees Bundle LocalReleases ShellHook Remote.

Record tools := Tools {
  git : list string → M (Z * string);                  (* exit code and output *)
  pack : fs → path → string → string;                  (* a compressed archive of a directory *)
  zip_member : string → string → option string;        (* [None]: the archive or the member is bad *)
  spawn : list string → list (string * string) → path → M unit }.

Section updater.
Context (H : host) (X : tools) (config : local_config) (pid : Z) (packaged_hook : string).
Context (run_ssh : list string → option string → Z → M ssh_outcome).

Definition local_release_files : string → path → M (path * path * path * dict) :=
  λ component, release_files H component "release source" "release" (λ v, Ok v).

Definition safe_extract (raw : string) (destination : path) : M unit :=
  if MAX_BUNDLE_BYTES <? str_len raw then updater_error "release bundle exceeds 64 MiB"
  else extract H raw destination.

(** [with release_source(source) as root]. *)
Definition with_release_source {A} (source : path) (body : path → M A) : M A :=
  let! directory := is_dir_p source in
  if directory then body source else
  let! present := is_file_p source in
  let! usable := (if negb present then ret false else
                  let! info := stat source in ret (node_size info <=? MAX_BUNDLE_BYTES)) in
  if negb usable then updater_error "release source is missing or too large" else
  with_temporary_directory "cloudx-release-" (tmpdir H) (λ root,
    let! raw := read_bytes source in safe_extract raw root ;; body root).

(** [with resolved_stage_source(config, source) as source]: a version is fetched. *)
Definition with_stage_source {A} (source : path) (body : path → M A) : M A :=
  let! present := exists_p source in
  if present then body source else
  match version_text (path_str source) with
  | None => updater_error "release source does not exist"
  | Some version =>
      with_temporary_directory "cloudx-release-fetch-" (tmpdir H) (λ value,
        let destination := child value "release" in
        let! (code, _) := git X ["git"; "clone"; "--quiet"; "--depth=1"; "--branch";
                                 "release-artifacts/v" +:+ version; lc_release_repository config;
                                 path_str destination] in
        if negb (code =? 0) then updater_error "could not fetch the requested signed release"
        else body destination)
  end.

Definition bundle_bytes (release_directory : path) (version : string) : M string :=
  sys ;; let! f := get_fs in
  let raw := pack X f release_directory ("cloudx-" +:+ version) in
  if MAX_BUNDLE_BYTES <? str_len raw then updater_error "release bundle exceeds 64 MiB" else ret raw.

Definition remote_stage_status (document : dict) (version : string) : M string :=
  let status := str_or_empty (dget "status" document) in
  if negb (eq_str (dget "schema" document) "cloudx.release-stage.v1") ||
     negb (eq_str (dget "version" document) version) || negb (mem status ["staged"; "already-staged"])
  then updater_error "remote release stage returned inconsistent status" else ret status.

Definition verify_manifest_binding (manifest_path : path) (expected_sha256 : option string)
    (manifest_version : string) (expected_version : option string) : M unit :=
  let! bound := (match expected_sha256 with
                 | None => ret true
                 | Some sha => if negb (is_sha256 sha) then ret false
                               else let! d := file_digest manifest_path in ret (d =s? sha)
                 end) in
  if negb bound then updater_error "release manifest does not match the signed stable index" else
  match expected_version with
  | Some v => if manifest_version <>s? v
              then updater_error "release version does not match the signed stable index" else ret tt
  | None => ret tt
  end.

Definition manifest_version (manifest : dict) : string := py_str (dget "version" manifest).

(** The release is built beside its place, then renamed. *)
Definition build_local_release (releases destination : path) (version : string) (protocol : json)
    (manifest_path signature_path artifact : path) : M unit :=
  let temporary := path_join releases (".stage-" +:+ version +:+ "-" +:+ str_of_Z pid) in
  rmtree_quiet temporary ;;
  mkdir_new temporary 448 ;;
  try_with
    (let target := child temporary LOCAL_ARTIFACT in
     copy2 artifact target ;;
     chmod target 493 ;;
     copy2 manifest_path (child temporary MANIFEST) ;;
     copy2 signature_path (child temporary "manifest.json.sig") ;;
     (let! trusted := allowed_signers H in write_bytes (child temporary "allowed_signers") trusted) ;;
     verify_artifact_self_check H "local" target version protocol ;;
     replace_directory temporary destination)
    (except_all (λ e, rmtree_quiet temporary ;; throw e)).

Definition stage_local_release (version : string) (manifest : dict)
    (manifest_path signature_path artifact : path) : M string :=
  refuse_local_downgrade config version
    "staging a downgrade is not allowed; use rollback for the previous release" ;;
  let releases := child (local_root config) "releases" in
  ensure_private_directory releases ;;
  let destination := path_join releases version in
  let target := child destination LOCAL_ARTIFACT in
  let! present := exists_p destination in
  if present then
    let! same := (let! file := is_file_p target in
                  if negb file then ret false else
                  let! a := file_digest target in let! b := file_digest artifact in ret (a =s? b)) in
    if negb same then updater_error "a different local release is already staged at this version"
    else ret "already-staged"
  else
    build_local_release releases destination version (dget "protocol" manifest)
      manifest_path signature_path artifact ;;
    ret "staged".

Definition stage_result (version local cloud : string) : dict :=
  [("schema", JStr "cloudx.release-stage.v1"); ("version", JStr version); ("local", JStr local);
   ("cloud", JStr cloud); ("activated", JBool false)].

Definition updater_stage (source : path) (local_only : bool)
    (expected_manifest_sha256 expected_version : option string) : M dict :=
  with_release_source source (λ root,
    let! (manifest_path, signature_path, artifact, manifest) := local_release_files "local" root in
    let version := manifest_version manifest in
    verify_manifest_binding manifest_path expected_manifest_sha256 version expected_version ;;
    let! local_status := stage_local_release version manifest manifest_path signature_path artifact in
    let! remote_status :=
      (if local_only then ret "not-requested" else
       let! bundle := bundle_bytes (p_parent manifest_path) version in
       let! remote := remote_stage_release run_ssh config bundle in
       remote_stage_status remote version) in
    ret (stage_result version local_status remote_status)).

Definition stage_cloud (source : path) (expected_manifest_sha256 expected_version : option string) : M dict :=
  with_release_source source (λ root,
    let! (manifest_path, _, _, manifest) := local_release_files "cloud" root in
    let version := manifest_version manifest in
    verify_manifest_binding manifest_path expected_manifest_sha256 version expected_version ;;
    let! bundle := bundle_bytes (p_parent manifest_path) version in
    let! remote := remote_stage_release run_ssh config bundle in
    let! cloud := remote_stage_status remote version in
    ret (stage_result version "not-requested" cloud)).

(** [_shell_hook_from_artifact]. *)
Definition shell_hook_from_artifact (artifact : path) : M string :=
  let unreadable := updater_error "staged local release has no readable shell hook" in
  let! raw := try_with (read_bytes artifact) (except [OSError] (λ _, unreadable)) in
  match zip_member X raw "cloudx_local/data/cloudx.zsh" with
  | None => unreadable
  | Some data => if data =s? "" then updater_error "staged local release shell hook is empty" else ret data
  end.

(** Activation on the cloud host, checked by its status; when that disagrees the previous
    release is asked for again. *)
Definition apply_cloud (version : string) : M dict :=
  let! activated := remote_activate_release run_ssh config version in
  let! observed := remote_release_status run_ssh config in
  if negb (eq_str (dget "currentVersion" observed) version) then
    (match dget "previousVersion" activated with
     | JStr previous =>
         if previous =s? "" then ret tt else
         try_with (let! _ := remote_rollback_release run_ssh config previous in ret tt)
           (except [RuntimeError] (λ _, ret tt))
     | _ => ret tt
     end) ;;
    updater_error "cloud release status did not report the activated version"
  else ret [("schema", JStr "cloudx.release-activate.v1"); ("endpoint", JStr "cloud"); ("version", JStr version);
            ("status", JStr "active"); ("previousCloud", dget "previousVersion" activated)].

Definition apply_local (version : string) (with_hook : bool) (seed_account : option string) : M dict :=
  refuse_local_downgrade config version "release activation would be a downgrade; use rollback" ;;
  let destination := path_join (child (local_root config) "releases") version in
  let artifact := child destination LOCAL_ARTIFACT in
  let! staged := is_file_p artifact in
  if negb staged then updater_error "local release is not staged" else
  let! hook_data := (if with_hook then let! d := shell_hook_from_artifact artifact in ret (Some d) else ret None) in
  let! local_previous := activate_local config pid version in
  let! hook_path := (if with_hook then let! p := install_shell_hook config packaged_hook hook_data in
                                       ret (Some (path_str p)) else ret None) in
  let! backup_path := (match seed_account with
                       | Some account => if account =s? "" then ret None else
                           let! p := seed_native_profile config account in ret (Some (path_str p))
                       | None => ret None end) in
  ret [("schema", JStr "cloudx.release-activate.v1"); ("endpoint", JStr "local"); ("version", JStr version);
       ("status", JStr "active"); ("previousLocal", opt_str local_previous);
       ("shellHook", opt_str hook_path); ("nativeProfileBackup", opt_str backup_path)].

Definition apply (version confirmation : string) (local_only with_hook : bool) (seed_account : option string)
    (cloud_only : bool) : M dict :=
  if confirmation <>s? version then updater_error "release activation confirmation does not match the version" else
  if Bool.eqb local_only cloud_only then updater_error "select exactly one activation endpoint" else
  if cloud_only then
    if with_hook || match seed_account with Some a => a <>s? "" | None => false end
    then updater_error "shell hook and profile seeding are local-only activation options"
    else apply_cloud version
  else apply_local version with_hook seed_account.

Definition updater_rollback (version : string) (local_only cloud_only : bool) : M dict :=
  if Bool.eqb local_only cloud_only then updater_error "select exactly one rollback endpoint" else
  let! endpoint :=
    (if cloud_only then
       let! _ := remote_rollback_release run_ssh config version in
       let! observed := remote_release_status run_ssh config in
       if negb (eq_str (dget "currentVersion" observed) version)
       then updater_error "cloud release status did not report the rollback version" else ret "cloud"
     else rollback_local config pid version ;; ret "local") in
  ret [("schema", JStr "cloudx.release-rollback.v1"); ("endpoint", JStr endpoint); ("version", JStr version);
       ("status", JStr "active")].

(** ** The signed index of the stable release *)

Definition fetch_stable (repository : string) (cache : path) : M unit :=
  ensure_private_directory cache ;;
  let! present := exists_p (child cache "HEAD") in
  (if present then ret tt else
   let! (code, _) := git X ["git"; "init"; "--bare"; path_str cache] in
   if negb (code =? 0) then updater_error "could not initialize the update cache" else ret tt) ;;
  let! (code, _) := git X ["git"; "--git-dir"; path_str cache; "fetch"; "--force"; "--depth=1"; repository;
                           "refs/heads/release/stable"] in
  if negb (code =? 0) then updater_error "could not fetch the signed stable release index" else ret tt.

Definition git_show (cache : path) (name : string) : M string :=
  let! (code, out) := git X ["git"; "--git-dir"; path_str cache; "show"; "FETCH_HEAD:" +:+ name] in
  if negb (code =? 0) then updater_error "stable release index is incomplete" else ret out.

(** The checks of the document, once its signature is good. *)
Definition accept_index (document : json) : M dict :=
  match document with
  | JDict d =>
      if negb (eq_str (dget "schema" d) "cloudx.release-index.v1")
      then updater_error "stable release index schema is unsupported" else
      let available := str_or_empty (dget "version" d) in
      let! offered := lift (local_version_tuple available) in
      let! running := lift (local_version_tuple LOCAL_VERSION) in
      if version_ltb offered running then updater_error "stable release index attempts a downgrade" else
      if negb (eq_str (dget "artifactRef" d) ("refs/heads/release-artifacts/v" +:+ available))
      then updater_error "stable release index artifact reference is invalid" else
      if negb (is_sha256 (str_or_empty (dget "manifestSha256" d)))
      then updater_error "stable release index manifest hash is invalid" else ret d
  | _ => updater_error "stable release index schema is unsupported"
  end.

Definition stable_index (index_dir : option path) : M dict :=
  let! (index_bytes, signature_bytes) :=
    (match index_dir with
     | Some dir => let! a := read_bytes (child dir "index.json") in
                   let! b := read_bytes (child dir "index.json.sig") in ret (a, b)
     | None => let cache := child (lc_cache_dir config) "update.git" in
               fetch_stable (lc_release_repository config) cache ;;
               let! a := git_show cache "index.json" in
               let! b := git_show cache "index.json.sig" in ret (a, b)
     end) in
  let! document := with_temporary_directory "cloudx-index-" (tmpdir H) (λ root,
    let index_path := child root "index.json" in
    let signature_path := child root "index.json.sig" in
    write_bytes index_path index_bytes ;;
    write_bytes signature_path signature_bytes ;;
    verify_signature H index_path signature_path ;;
    try_with (lift (loads_bytes index_bytes))
      (except [UnicodeDecodeError; JSONDecodeError] (λ _, updater_error "stable release index is invalid"))) in
  accept_index document.

(** [check]: the result is written, and printed unless [quiet]. *)
Definition updater_check (index_dir : option path) : M dict :=
  let! document := stable_index index_dir in
  let available := py_str (dget "version" document) in
  let! us := now_us in
  let result :=
    [("schema", JStr "cloudx.update-check.v1"); ("current", JStr LOCAL_VERSION); ("available", JStr available);
     ("updateAvailable", JBool (available <>s? LOCAL_VERSION));
     ("artifactRef", JStr (py_str (dget "artifactRef" document)));
     ("manifestSha256", JStr (py_str (dget "manifestSha256" document)));
     ("checkedAt", JStr (replace_utc (isoformat (utc (EPOCH_US + us))))); ("activated", JBool false)] in
  atomic_json (child (lc_state_dir config) "update-check.json") result 384 ;;
  ret result.

(** The variables a scheduled check does not inherit. *)
Definition UNINHERITED : list string :=
  ["OPENAI_API_KEY"; "OPENAI_BASE_URL"; "OPENAI_API_BASE"; "CODEX_HOME"; "CODEXX_ACTIVE_ACCOUNT";
   "CODEXX_ACTIVE_HOME"; "CODEXX_ACTIVE_PINNED"].
Definition check_environment (environment : list (string * string)) : list (string * string) :=
  List.filter (λ kv, negb (mem kv.1 UNINHERITED) && (kv.1 <>s? "CLOUDX_USER_HOME")) environment ++
  [("CLOUDX_USER_HOME", path_str (lc_home config))].
Definition getenv_in (environment : list (string * string)) (name : string) : option string :=
  match List.find (λ kv, kv.1 =s? name) environment with Some (_, v) => Some v | None => None end.

(** [executable] is [sys.executable], [argv0] the resolved path of the program. *)
Definition maybe_schedule_check (environment : list (string * string)) (executable argv0 : string) : M unit :=
  if match getenv_in environment "CLOUDX_DISABLE_UPDATE_CHECK" with Some v => v =s? "1" | None => false end
  then ret tt else
  let state := child (lc_state_dir config) "update-check.json" in
  let! us := now_us in
  let! recent := try_with
    (let! changed := st_mtime state in
     ret (is_cmp cmp_lt (fcompare_Z (fadd (timestamp (utc (EPOCH_US + us))) (fneg changed)) (24 * 60 * 60))))
    (except [OSError] (λ _, ret false)) in
  if recent then ret tt else
  let target := match getenv_in environment "CLOUDX_LOCAL_ARTIFACT" with
                | Some a => if a =s? "" then argv0 else a | None => argv0 end in
  let log := child (lc_state_dir config) "update-check.log" in
  ensure_private_directory (p_parent log) ;;
  open_append log ;;
  spawn X [executable; path_str (path_of target); "update"; "check"; "--quiet"] (check_environment environment) log.
End updater.
