(* ===== verification/Upgrade.v ===== *)
(** * Upgrading one endpoint ([local/cloudx_local/upgrade.py])

    The signed index names a release; the endpoint that runs an older one gets it.  A local
    upgrade that fails is undone, and the message says what the selector shows afterwards. *)

From S2P Require Import Prelude PyStr PyFloat PyValue PyTime PyJson FS Wp CpaAuth AccountContract.
From S2P Require Import LocalConfig Releases Trees Bundle Remote LocalReleases ShellHook Updater.

Section upgrade.
Context (H : host) (X : tools) (config : local_config) (pid : Z) (packaged_hook : string).
Context (run_ssh : list string → option string → Z → M ssh_outcome).

Definition current_link : path := child (local_root config) "current".

(** [current.resolve(strict=True).name]: the target must exist. *)
Definition resolve_strict (p : path) : M path :=
  sys ;; let! f := get_fs in
  match stat_node f p with Some _ => resolve_lax p | None => missing end.
Definition selected_name : M string := let! p := resolve_strict current_link in ret (p_name p).

Definition local_current : M string :=
  let! linked := is_symlink_p current_link in
  if negb linked then updater_error "active local Cloudx release selector is unavailable" else
  let! version := try_with selected_name
    (except [OSError] (λ _, updater_error "active local Cloudx release is unavailable")) in
  if version <>s? LOCAL_VERSION
  then updater_error "running Cloudx version does not match the active local selector" else ret version.

Definition cloud_current : M string :=
  let! document := remote_release_status run_ssh config in
  let version := str_or_empty (dget "currentVersion" document) in
  let! _ := lift (local_version_tuple version) in ret version.

(** [_result]. *)
Definition upgrade_result (endpoint status before available after artifact_ref manifest_sha256 : string)
    (staged activated : option dict) : dict :=
  [("schema", JStr "cloudx.upgrade.v1"); ("status", JStr status); ("endpoint", JStr endpoint);
   ("currentBefore", JStr before); ("available", JStr available); ("currentAfter", JStr after);
   ("artifactRef", JStr artifact_ref); ("manifestSha256", JStr manifest_sha256);
   ("stageStatus", match staged with
                   | Some d => JStr (str_or_empty (dget (if endpoint =s? "local" then "local" else "cloud") d))
                   | None => JNull end);
   ("activationStatus", match activated with
                        | Some d => JStr (str_or_empty (dget "status" d)) | None => JNull end);
   ("signedIndexVerified", JBool true);
   ("verificationScope", JStr (if status =s? "upgraded" then "complete-release-chain" else "signed-index-only"));
   ("explicitInvocation", JBool true); ("backgroundActivation", JBool false);
   ("serviceRestarted", JBool false); ("externalCpaManaged", JBool false);
   ("officialCodexReplaced", JBool false);
   ("shellReloadRecommended", JBool ((endpoint =s? "local") && (status =s? "upgraded")))].

Definition FAILED_TWICE : string := "local upgrade failed; rollback verification also failed".
Definition NOT_RESTORED : string := "local upgrade failed; rollback did not restore the prior release".
Definition RESTORED : string := "local upgrade failed and restored the prior release".

(** The recovery: the selector is moved back when it moved, and read again. *)
Definition recover (current available : string) : M string :=
  try_with
    (let! selected := selected_name in
     (if selected =s? available
      then let! _ := updater_rollback config pid run_ssh current true false in ret tt
      else if selected <>s? current
      then updater_error "local selector changed to an unexpected release" else ret tt) ;;
     selected_name)
    (except_all (λ _, updater_error FAILED_TWICE)).

Definition upgrade_local (current available : string) : M (dict * string) :=
  try_with
    (let! activated := apply X config pid packaged_hook run_ssh available available true true None false in
     let! after := selected_name in
     if after <>s? available
     then updater_error "local release selector did not activate the signed release"
     else ret (activated, after))
    (except_all (λ _,
       let! restored := recover current available in
       if restored <>s? current then updater_error NOT_RESTORED else updater_error RESTORED)).

Definition upgrade_cloud (available : string) : M (dict * string) :=
  let! activated := apply X config pid packaged_hook run_ssh available available false false None true in
  let! after := cloud_current in ret (activated, after).

Definition upgrade_endpoint (endpoint : string) (check_only : bool) (index_dir : option path) : M dict :=
  if negb (mem endpoint ["local"; "cloud"]) then updater_error "upgrade endpoint is invalid" else
  let! index := stable_index H X config index_dir in
  let available := py_str (dget "version" index) in
  let artifact_ref := py_str (dget "artifactRef" index) in
  let manifest_sha256 := py_str (dget "manifestSha256" index) in
  let! current := (if endpoint =s? "local" then local_current else cloud_current) in
  let! available_tuple := lift (local_version_tuple available) in
  let! current_tuple := lift (local_version_tuple current) in
  let unchanged status :=
    ret (upgrade_result endpoint status current available current artifact_ref manifest_sha256 None None) in
  if version_ltb available_tuple current_tuple
  then updater_error "signed stable release would downgrade the selected endpoint" else
  if version_eqb available_tuple current_tuple then unchanged "up-to-date" else
  if check_only then unchanged "update-available" else
  let! staged := with_stage_source H X config (path_of available) (λ source,
    if endpoint =s? "local"
    then updater_stage H X config pid run_ssh source true (Some manifest_sha256) (Some available)
    else stage_cloud H X config run_ssh source (Some manifest_sha256) (Some available)) in
  let! (activated, after) :=
    (if endpoint =s? "cloud" then upgrade_cloud available else upgrade_local current available) in
  if after <>s? available then updater_error "upgrade acceptance did not observe the signed target version" else
  ret (upgrade_result endpoint "upgraded" current available after artifact_ref manifest_sha256
         (Some staged) (Some activated)).
End upgrade.

(** * What an upgrade says is what the selector shows

    Whatever calls and external programs do, an upgrade that reports success has selected the
    release it names, and a failed one that reports the prior release restored shows it. *)

Lemma wp_any {A} (m : M A) E w (Φ : res A → world → Prop) : (∀ r w', Φ r w') → wp m E w Φ.
Proof. intros H. apply H. Qed.

Lemma version_ltb_total a b : version_ltb a b = false → version_eqb a b = false → version_ltb b a = true.
Proof.
  destruct a as [[a1 a2] a3], b as [[b1 b2] b3]. unfold version_ltb, version_eqb.
  rewrite bool_decide_eq_false. rewrite !orb_false_iff, !andb_false_iff, !orb_true_iff, !andb_true_iff.
  rewrite !orb_true_iff, !orb_false_iff, !andb_true_iff, !andb_false_iff.
  rewrite !Z.ltb_lt, !Z.ltb_ge, !Z.eqb_eq, !Z.eqb_neq. intros H Hne.
  assert (a1 ≠ b1 ∨ a2 ≠ b2 ∨ a3 ≠ b3).
  { destruct (Z.eq_dec a1 b1), (Z.eq_dec a2 b2), (Z.eq_dec a3 b3); try lia. congruence. }
  lia.
Qed.

Section facts.
Context (H : host) (X : tools) (config : local_config) (pid : Z) (packaged_hook : string).
Context (run_ssh : list string → option string → Z → M ssh_outcome).

(** The version that the selector [current] shows. *)
Definition shown (f : fs) : option string :=
  match stat_node f (current_link config) with
  | Some _ => let q := resolved_link MAX_LINKS f (current_link config) in Some (p_name (q.1, drop_dots [] q.2))
  | None => None
  end.

Lemma wp_selected_name E f k (Φ : res string → world → Prop) :
  (∀ v k, shown f = Some v → Φ (Ok v) (World f k)) → (∀ e k, Φ (Raise e) (World f k)) →
  wp (selected_name config) E (World f k) Φ.
Proof using Type.
  intros Ho Hr. unfold selected_name, resolve_strict. apply wp_bind, wp_bind, wp_sys; [intros k1|intros; apply Hr].
  apply wp_bind, wp_get_fs. unfold shown in Ho. destruct (stat_node f _); [|apply wp_throw, Hr].
  unfold resolve_lax. apply wp_bind, wp_get_fs, wp_ret, wp_ret. by apply Ho.
Qed.

Lemma wp_recover current available E w (Φ : res string → world → Prop) :
  (∀ v f k, shown f = Some v → Φ (Ok v) (World f k)) →
  (∀ w, Φ (Raise (Exn RuntimeError "" FAILED_TWICE)) w) →
  wp (recover config pid run_ssh current available) E w Φ.
Proof using Type.
  intros Ho Hr. unfold recover. apply wp_try. destruct w as [f k].
  assert (Hf : ∀ w, wp (@updater_error string FAILED_TWICE) E w Φ) by (intros; apply Hr).
  apply wp_bind, wp_selected_name; [|intros; apply Hf]. intros v k1 _.
  apply wp_bind, wp_any. intros [[]|e] [f' k2]; [|apply Hf].
  apply wp_selected_name; [intros; by apply Ho|]. intros. apply Hf.
Qed.

(** The three messages of a failed local upgrade. *)
Definition upgrade_verdict (current available : string) (r : res (dict * string)) (f : fs) : Prop :=
  match r with
  | Ok (_, after) => after = available ∧ shown f = Some available
  | Raise e =>
      e = Exn RuntimeError "" RESTORED ∧ shown f = Some current ∨
      e = Exn RuntimeError "" NOT_RESTORED ∨ e = Exn RuntimeError "" FAILED_TWICE
  end.

Lemma wp_upgrade_local current available E w :
  wp (upgrade_local X config pid packaged_hook run_ssh current available) E w
    (λ r w, upgrade_verdict current available r (w_fs w)).
Proof using Type.
  unfold upgrade_local. apply wp_try.
  assert (Hfail : ∀ w, wp (let! restored := recover config pid run_ssh current available in
      if restored <>s? current then updater_error NOT_RESTORED else updater_error RESTORED) E w
      (λ r w, upgrade_verdict current available r (w_fs w))).
  { intros w'. apply wp_bind, wp_recover; [|by intros; right; right]. intros v f k Hv.
    destruct (eqs_spec v current) as [->|]; apply wp_throw; [by left|by right; left]. }
  apply wp_bind, wp_any. intros [activated|e] [f k]; [|apply Hfail].
  apply wp_bind, wp_selected_name; [|intros; apply Hfail]. intros v k1 Hv.
  destruct (eqs_spec v available) as [->|]; cbn [negb]; [by apply wp_ret|apply wp_throw, Hfail].
Qed.

Lemma wp_local_current E w (Φ : res string → world → Prop) :
  (∀ w, Φ (Ok LOCAL_VERSION) w) → (∀ e w, Φ (Raise e) w) → wp (local_current config) E w Φ.
Proof using Type.
  intros Ho Hr. unfold local_current. apply wp_bind, wp_any. intros [linked|e] w1; [|apply Hr].
  destruct (negb linked); [apply wp_throw, Hr|]. apply wp_bind, wp_any. intros [v|e] w2; [|apply Hr].
  destruct (eqs_spec v LOCAL_VERSION) as [->|]; [apply wp_ret, Ho|apply wp_throw, Hr].
Qed.

(** What the result of a local upgrade says, by its status. *)
Definition endpoint_verdict (check_only : bool) (doc : dict) (f : fs) : Prop :=
  ∃ available t u,
    dget "available" doc = JStr available ∧ dget "currentBefore" doc = JStr LOCAL_VERSION ∧
    local_version_tuple available = Ok t ∧ local_version_tuple LOCAL_VERSION = Ok u ∧
    (dget "status" doc = JStr "up-to-date" ∧ t = u ∧ dget "currentAfter" doc = JStr LOCAL_VERSION ∨
     dget "status" doc = JStr "update-available" ∧ check_only = true ∧ version_ltb u t = true ∧
       dget "currentAfter" doc = JStr LOCAL_VERSION ∨
     dget "status" doc = JStr "upgraded" ∧ check_only = false ∧ version_ltb u t = true ∧
       dget "currentAfter" doc = JStr available ∧ shown f = Some available).

Lemma wp_upgrade_endpoint check_only index_dir E w :
  wp (upgrade_endpoint H X config pid packaged_hook run_ssh "local" check_only index_dir) E w
    (λ r w, ∀ doc, r = Ok doc → endpoint_verdict check_only doc (w_fs w)).
Proof using Type.
  unfold upgrade_endpoint. change (negb (mem "local" _)) with false. cbn iota.
  apply wp_bind, wp_any. intros [index|e] w1; [|done].
  set (available := py_str (dget "version" index)).
  change ("local" =s? "local") with true. change ("local" =s? "cloud") with false. cbn iota.
  apply wp_bind, wp_local_current; [|done]. intros w2.
  apply wp_bind, wp_lift. destruct (local_version_tuple available) as [t|e] eqn:Et; [|done].
  apply wp_bind, wp_lift. destruct (local_version_tuple LOCAL_VERSION) as [u|e] eqn:Eu; [|done].
  destruct (version_ltb t u) eqn:Elt; [by apply wp_throw|].
  destruct (version_eqb t u) eqn:Eeq.
  { apply wp_ret. intros doc [= <-]. exists available, t, u. split_and!; [done..|]. left.
    apply bool_decide_eq_true in Eeq. done. }
  pose proof (version_ltb_total t u Elt Eeq) as Hlt.
  destruct check_only.
  { apply wp_ret. intros doc [= <-]. exists available, t, u. split_and!; [done..|]. right. left. done. }
  apply wp_bind, wp_any. intros [staged|e] w3; [|done].
  apply wp_bind. eapply wp_mono; [apply wp_upgrade_local|]. intros [[activated after]|e] w4 Hv; [|done].
  destruct Hv as [-> Hs]. rewrite eqs_refl. cbn [negb]. apply wp_ret. intros doc [= <-].
  exists available, t, u. split_and!; [done..|]. right. right. done.
Qed.
End facts.


(** ** An upgrade that stays although it failed *)

Definition desk_config : local_config :=
  plain_config (path_of "/u") (path_of "/u/.local/state/cloudx") None None "".
Definition desk_root : path := local_root desk_config.
Definition desk_release (version : string) : list (path * node) :=
  let dir := child (child desk_root "releases") version in
  [(dir, Dir 448); (child dir LOCAL_ARTIFACT, File "zip" 493)].
Definition desk_files : fs :=
  list_to_map ([(path_of "/u", Dir 493); (path_of "/u/.local", Dir 493); (path_of "/u/.local/lib", Dir 493);
    (desk_root, Dir 493); (child desk_root "releases", Dir 448);
    (child desk_root "current", Link (child (child desk_root "releases") "0.1.33"));
    (child desk_root "previous", Link (child (child desk_root "releases") "0.1.32"))] ++
    desk_release "0.1.32" ++ desk_release "0.1.33" ++ desk_release "0.1.34").
Definition desk_tools : tools :=
  Tools (λ _, ret (0, ""%string)) (λ _ _ _, "tar") (λ _ _, Some "alias codexx=x"%string) (λ _ _ _, ret tt).
Definition no_ssh (command : list string) (input : option string) (timeout : Z) : M ssh_outcome := ret NotFound.
(** One call fails, the one with this number. *)
Definition one_fault (n : option nat) : env :=
  Env (λ k, bool_decide (Some k = n)) (λ k, pretty (Z.of_nat k)) (λ _, 1767316000000000) (λ _ _, FNan) (λ _ _, false) (λ _, 0).
Definition desk_upgrade (n : option nat) : res (dict * string) * world :=
  upgrade_local desk_tools desk_config 7 "hook" no_ssh "0.1.33" "0.1.34" (one_fault n) (World desk_files 0).

