(* ===== verification/Accounts.v ===== *)
(** * The desktop's account homes ([local/cloudx_local/accounts.py])

    An account is a directory below [accounts_dir] that holds a [.codex] directory.  [environ]
    is the environment of the process; [codex] runs the official executable with an argument
    list and an environment and gives its exit status, or [None] when it is not there;
    [parse_args] is the [argparse] parser, which gives the command or the exit status of its
    own message.  A command's result is what it prints and its exit status. *)

From S2P Require Import Prelude PyStr PyFloat PyValue PyRe PyTime PyJson FS Wp FileData CpaAuth.
From S2P Require Import AccountContract LocalConfig LocalImportSafety Releases CloudReleaseFacts.
From S2P Require Import Trees PyShlex LocalSettings ShellHook.

Definition account_name_re : re :=
  RSeqs [RBol; RChar is_alnum; RBetween 0 63 (RChar (λ c, is_alnum c || one_of "._-" c)); REol].
Definition account_error {A} (msg : string) : M A := mraise RuntimeError msg.

Definition EXIT_VARIABLES : list string :=
  ["CODEX_HOME"; "CODEXX_ACTIVE_ACCOUNT"; "CODEXX_ACTIVE_HOME"; "CODEXX_ACTIVE_PINNED"] ++ OPENAI_VARIABLES.

(** The lines a shell evaluates. *)
Definition export_line (kv : string * string) : string := "export " +:+ kv.1 +:+ "=" +:+ shlex_quote kv.2.
Definition unset_line (name : string) : string := "unset " +:+ name.

Inductive account_command :=
| CAdd (name : string) | CLogin (name : option string) | CStatus (name : option string)
| CLogout (name : option string) | CList | CCurrent | CExit | CRemove (name : string)
| CRename (old new : string) | CHelp.

Section accounts.
Context (config : local_config) (environ : environment).

Definition account_home (name : string) : res path :=
  if re_match account_name_re name then Ok (path_join (path_join (lc_accounts_dir config) name) ".codex")
  else raise RuntimeError "account name must use letters, digits, dot, underscore, or hyphen".

Definition list_accounts : M (list string) :=
  let! present := is_dir_p (lc_accounts_dir config) in
  if negb present then ret [] else
  let! names := (sys ;; let! f := get_fs in ret (child_names f (lc_accounts_dir config))) in
  let! kept := mmap (λ name,
    let p := child (lc_accounts_dir config) name in
    let! is_dir := is_dir_p p in
    let! has_home := (if is_dir then is_dir_p (child p ".codex") else ret false) in
    ret (if has_home && re_match account_name_re name then Some name else None)) names in
  ret (sort_by (λ a b, str_leb (casefold a) (casefold b)) (omap id kept)).

Definition state_path : path := child (lc_state_dir config) "accounts.json".

Definition read_state : M dict :=
  let! present := is_file_p state_path in
  if negb present then ret [] else
  try_with (let! text := read_text state_path in let! data := lift (loads text) in ret (dict_or_empty data))
    (except [OSError; JSONDecodeError] (λ _, ret [])).

Definition current_account : string := strip (default "" (env_get environ "CODEXX_ACTIVE_ACCOUNT")).
Definition last_selected_account : M string :=
  let! state := read_state in ret (str_or_empty (dget "lastSelected" state)).

Definition select_values (name : string) (home : path) : environment :=
  [("HOME", path_str (lc_home config)); ("CODEX_HOME", path_str home); ("CODEXX_ACTIVE_ACCOUNT", name);
   ("CODEXX_ACTIVE_HOME", path_str home); ("CODEXX_ACTIVE_PINNED", "1")].
Definition select_lines (name : string) (home : path) : list string :=
  map export_line (select_values name home) ++ map unset_line OPENAI_VARIABLES.

Definition shell_select (name : string) : M string :=
  let! home := lift (account_home name) in
  let! present := is_dir_p home in
  if negb present then account_error ("unknown account: " +:+ name) else
  atomic_json state_path [("lastSelected", JStr name)] 384 ;;
  ret (str_join LF (select_lines name home)).

Definition exit_lines : list string :=
  export_line ("HOME", path_str (lc_home config)) :: map unset_line EXIT_VARIABLES.
Definition shell_exit : string := str_join LF exit_lines.

Section commands.
Context (codex : list string → environment → M (option Z)).

(** The environment of the official executable. *)
Definition account_environment (home : path) : environment :=
  env_pops ("CODEXX_SHARED_CODEX_ROOT" :: OPENAI_VARIABLES) (env_set "CODEX_HOME" (path_str home) environ).

Definition run_codex_account_command (name : string) (args : list string) : M Z :=
  let! home := lift (account_home name) in
  let! present := is_dir_p home in
  if negb present then account_error ("unknown account: " +:+ name) else
  let! status := codex (lc_codex_binary config :: args) (account_environment home) in
  match status with
  | Some code => ret code
  | None => account_error ("official Codex executable was not found: " +:+ lc_codex_binary config)
  end.

(** The account a command without a name is for. *)
Definition account_command_run (name : option string) (args : list string) : M (string * Z) :=
  let given := default "" name in
  let! chosen := (if given <>s? "" then ret given else
                  if current_account <>s? "" then ret current_account else last_selected_account) in
  if chosen =s? "" then account_error "select an account or pass its name" else
  let! code := run_codex_account_command chosen args in ret ("", code).

Definition line (s : string) : string := s +:+ LF.

Definition add_account (name : string) : M (string * Z) :=
  let! home := lift (account_home name) in
  let! present := exists_p home in
  if present then account_error ("account already exists: " +:+ name) else
  ensure_private_directory home ;; ret (line name, 0).

Definition print_accounts : M (string * Z) :=
  let! names := list_accounts in
  ret (String.concat "" (map (λ name, line ((if name =s? current_account then "* " else "  ") +:+ name)) names), 0).

(** [args.command == "remove"]: the name is not checked, the directory is moved. *)
Definition remove_account (name : string) : M (string * Z) :=
  if current_account =s? name then account_error "exit the active account before removing it" else
  let source := path_join (lc_accounts_dir config) name in
  let! linked := is_symlink_p source in
  let! home_linked := (if linked then ret true else is_symlink_p (child source ".codex")) in
  let! present := (if home_linked then ret false else is_dir_p (child source ".codex")) in
  if negb present then account_error ("unknown account: " +:+ name) else
  let archive := child (lc_state_dir config) "account-archive" in
  ensure_private_directory archive ;;
  let! timestamp := now_stamp in
  let target := path_join archive (timestamp +:+ "-" +:+ name) in
  replace_directory source target ;;
  let! state := read_state in
  (if eq_str (dget "lastSelected" state) name then atomic_json state_path [] 384 else ret tt) ;;
  ret (line (path_str target), 0).

Definition rename_account (old new : string) : M (string * Z) :=
  if current_account =s? old then account_error "exit the active account before renaming it" else
  let! old_home := lift (account_home old) in
  let! new_home := lift (account_home new) in
  let source := p_parent old_home in
  let target := p_parent new_home in
  let! linked := is_symlink_p source in
  let! home_linked := (if linked then ret true else is_symlink_p old_home) in
  let! present := (if home_linked then ret false else is_dir_p old_home) in
  if negb present then account_error ("unknown account: " +:+ old) else
  let! taken := exists_p target in
  if taken then account_error ("account already exists: " +:+ new) else
  replace_directory source target ;;
  let! state := read_state in
  (if eq_str (dget "lastSelected" state) old
   then atomic_json state_path [("lastSelected", JStr new)] 384 else ret tt) ;;
  ret (line new, 0).

Definition run_command (help : string) (c : account_command) : M (string * Z) :=
  match c with
  | CAdd name => add_account name
  | CLogin name => account_command_run name ["login"]
  | CStatus name => account_command_run name ["login"; "status"]
  | CLogout name => account_command_run name ["logout"]
  | CList => print_accounts
  | CCurrent => ret (line (if current_account =s? "" then "-" else current_account), 0)
  | CExit => ret (line shell_exit, 0)
  | CRemove name => remove_account name
  | CRename old new => rename_account old new
  | CHelp => ret (help, 0)
  end.

Definition COMMAND_WORDS : list string :=
  ["add"; "login"; "status"; "logout"; "list"; "current"; "exit"; "use"; "remove"; "rename"; "-h"; "--help"].
Definition print_selection (name : string) : M (string * Z) :=
  let! text := shell_select name in ret (line text, 0).

(** [main(argv)] after [LocalConfig.load]. *)
Definition accounts_main (packaged_hook help : string) (parse_args : list string → account_command + Z)
    (arguments : list string) : M (string * Z) :=
  match arguments with
  | "shell-hook" :: rest =>
      if negb (bool_decide (rest = ["zsh"]) || bool_decide (rest = ["bash"]))
      then account_error "shell-hook compatibility supports zsh or bash"
      else if packaged_hook =s? "" then account_error "Cloudx shell hook is missing" else ret (packaged_hook, 0)
  | "has-account" :: rest =>
      match rest with
      | [name] =>
          let! home := lift (account_home name) in
          let! present := is_dir_p home in ret ("", if present then 0 else 1)
      | _ => ret ("", 2)
      end
  | "use" :: rest =>
      match rest with
      | name :: _ => print_selection name
      | [] => account_error "use compatibility requires an account name"
      end
  | ["resolve-codex-bin"] => ret (line (lc_codex_binary config), 0)
  | _ =>
      let parsed := match parse_args arguments with
                    | inl c => run_command help c
                    | inr code => ret ("", code)
                    end in
      match arguments with
      | [name] => if mem name COMMAND_WORDS then parsed else print_selection name
      | _ => parsed
      end
  end.
End commands.
End accounts.

(** ** A sample *)

Definition sample_accounts : local_config :=
  plain_config (path_of "/home/u's dir") (path_of "/home/u/.local/state/cloudx") None None "".
Definition account_files : fs :=
  list_to_map (map (λ p, (path_of p, Dir 493))
    ["/"; "/home"; "/home/u's dir"; "/home/u"; "/home/u/.local"; "/home/u/.local/state"; "/home/u/.local/state/cloudx";
     "/home/u's dir/.codex-accounts"; "/home/u's dir/.codex-accounts/.codex";
     "/home/u's dir/.codex-accounts/work"; "/home/u's dir/.codex-accounts/work/.codex";
     "/home/u's dir/.codex-accounts/Api"; "/home/u's dir/.codex-accounts/Api/.codex";
     "/home/u's dir/.codex-accounts/empty"]).
Definition calm : env :=
  Env (λ _, false) (λ _, "t") (λ _, 0) (λ _ _, FFin false 0 0) (λ _ _, false) (λ _, 0).

Example account_samples :
  (map (λ n, is_ok (account_home sample_accounts n)) ["work"; "a_b-c.d"; ".codex"; "a/b"; ""; "x" +:+ LF] =
     [true; true; false; false; false; true]) ∧
  (list_accounts sample_accounts calm (World account_files 0)).1 = Ok ["Api"; "work"] ∧
  exit_lines sample_accounts =
    ["export HOME='/home/u'" +:+ QUOTE +:+ "'" +:+ QUOTE +:+ "'s dir'"; "unset CODEX_HOME";
     "unset CODEXX_ACTIVE_ACCOUNT"; "unset CODEXX_ACTIVE_HOME"; "unset CODEXX_ACTIVE_PINNED";
     "unset OPENAI_API_KEY"; "unset OPENAI_BASE_URL"; "unset OPENAI_API_BASE"].
Proof. repeat split; vm_compute; reflexivity. Qed.
(** Only [remove] takes a name as it is: [.] names the directory of all accounts. *)
Example remove_everything :
  (let run := remove_account sample_accounts [] "." calm (World account_files 0) in
   (run.1, map (λ p, bool_decide (is_Some (w_fs run.2 !! path_of p)))
      ["/home/u's dir/.codex-accounts"; "/home/u/.local/state/cloudx/account-archive/19700101T000000Z-./work/.codex"])) =
  (Ok ("/home/u/.local/state/cloudx/account-archive/19700101T000000Z-." +:+ LF, 0), [false; true]).
Proof. vm_compute. reflexivity. Qed.

(** * What the account commands do to the account homes and to the shell

    A removed or renamed account is moved whole, or stays; the lines for the shell mean what
    they are meant to, whatever the paths contain. *)

(** ** What the shell reads *)

(** A text the shell reads as one word, whatever follows. *)
Definition word_text (s w : string) : Prop :=
  ∀ k, ∃ quoted, split_go Between "" false (s +:+ k) = split_go Word (str_rev w) quoted k ∧ emit (str_rev w) quoted = [w].
(** A text the shell reads as the words [ws]: at the end, and before a blank. *)
Definition reads (s : string) (ws : list string) : Prop :=
  shlex_split s = Ok ws ∧
  ∀ c k l, is_blank c = true → shlex_split k = Ok l → shlex_split (s +:+ String c k) = Ok (ws ++ l).

Lemma blank_plain c : is_blank c = true → Ascii.eqb c BACKSLASH = false ∧ is_quote c = false.
Proof. by destruct c as [[][][][][][][][]]. Qed.

Lemma word_reads s w : word_text s w → reads s [w].
Proof.
  intros H. split.
  - destruct (H "") as (q & E & He). rewrite str_app_nil_r in E. unfold shlex_split. rewrite E. simpl. by rewrite He.
  - intros c k l Hc Hk. destruct (H (String c k)) as (q & E & He). unfold shlex_split in *. rewrite E.
    cbn [split_go]. rewrite Hc, Hk. simpl. by rewrite He.
Qed.

Lemma reads_app s ws s' ws' c : is_blank c = true → reads s ws → reads s' ws' → reads (s +:+ String c s') (ws ++ ws').
Proof.
  intros Hc [H1 H2] [H3 H4]. split; [by apply H2|]. intros d k l Hd Hk.
  rewrite str_app_assoc, <- app_assoc. change (String c s' +:+ String d k) with (String c (s' +:+ String d k)).
  apply H2; [done|]. by apply H4.
Qed.

Lemma reads_lines lines wss : lines ≠ [] → Forall2 reads lines wss → reads (str_join LF lines) (concat wss).
Proof.
  intros Hne H. induction H as [|s ws lines wss Hs H IH]; [done|]. destruct H as [|s' ws' lines wss Hs' H].
  - simpl. by rewrite app_nil_r.
  - change (str_join LF (s :: s' :: lines)) with (s +:+ String (ascii_of_nat 10) (str_join LF (s' :: lines))).
    apply reads_app; [done|done|]. by apply IH.
Qed.

(** A quoted text, at the start of a word and inside one. *)
Lemma quoted_text v token k :
  ∃ quoted, split_go Word token false (shlex_quote v +:+ k) = split_go Word (str_rev v +:+ token) quoted k.
Proof.
  unfold shlex_quote. destruct (eqs_spec v "") as [->|Hv]; [by exists true|].
  destruct (str_forall safe_char v) eqn:Hs; [exists false; by apply split_safe|].
  exists true.
  change (String SQ (escape_quotes v +:+ String SQ "") +:+ k) with (String SQ ((escape_quotes v +:+ String SQ "") +:+ k)).
  rewrite str_app_assoc. change (String SQ "" +:+ k) with (String SQ k).
  change (split_go Word token false (String SQ (escape_quotes v +:+ String SQ k)))
    with (split_go (Quoted SQ) token false (escape_quotes v +:+ String SQ k)).
  apply split_escaped.
Qed.

Lemma emit_word w quoted : w ≠ "" → emit (str_rev w) quoted = [w].
Proof.
  intros Hw. unfold emit. rewrite str_rev_involutive. destruct (eqs_spec (str_rev w) "") as [E|]; [|done].
  apply (f_equal str_rev) in E. by rewrite str_rev_involutive in E.
Qed.

Lemma assignment_word c p v :
  safe_char c = true → str_forall safe_char p = true →
  word_text (String c p +:+ shlex_quote v) (String c p +:+ v).
Proof.
  intros Hc Hp k. apply safe_plain in Hc as (H1 & H2 & H3).
  destruct (quoted_text v (str_rev (String c p)) k) as [q Hq].
  exists q. split; [|by apply emit_word].
  rewrite str_app_assoc. change (String c p +:+ shlex_quote v +:+ k) with (String c (p +:+ shlex_quote v +:+ k)).
  cbn [split_go]. rewrite H1, H2, H3, split_safe by done.
  change (String c "") with (str_rev (String c "")). rewrite <- str_rev_app.
  change (String c "" +:+ p) with (String c p). rewrite Hq. by rewrite <- str_rev_app.
Qed.

Lemma safe_word c w : str_forall safe_char (String c w) = true → word_text (String c w) (String c w).
Proof.
  intros H k. exists false. split; [|by apply emit_word].
  simpl in H. apply andb_true_iff in H as [Hc Hw]. apply safe_plain in Hc as (H1 & H2 & H3).
  change (String c w +:+ k) with (String c (w +:+ k)). cbn [split_go]. rewrite H1, H2, H3, split_safe by done.
  change (String c "") with (str_rev (String c "")). by rewrite <- str_rev_app.
Qed.

Lemma reads_export c name v :
  str_forall safe_char (String c name) = true →
  reads (export_line (String c name, v)) ["export"; String c name +:+ "=" +:+ v].
Proof.
  intros H. change (["export"; String c name +:+ "=" +:+ v]) with (["export"] ++ [String c name +:+ "=" +:+ v]).
  change (export_line (String c name, v)) with ("export" +:+ String " " (String c name +:+ "=" +:+ shlex_quote v)).
  apply reads_app; [done|by apply word_reads, safe_word|]. apply word_reads.
  simpl in H. apply andb_true_iff in H as [Hc Hn].
  pose proof (assignment_word c (name +:+ "=") v Hc) as Hw.
  change (String c (name +:+ "=") +:+ ?x) with (String c ((name +:+ "=") +:+ x)) in Hw.
  rewrite !str_app_assoc in Hw. apply Hw. by rewrite str_forall_app, Hn.
Qed.
Lemma reads_unset c name :
  str_forall safe_char (String c name) = true → reads (unset_line (String c name)) ["unset"; String c name].
Proof.
  intros H. change (["unset"; String c name]) with (["unset"] ++ [String c name]).
  change (unset_line (String c name)) with ("unset" +:+ String " " (String c name)).
  apply reads_app; [done|by apply word_reads, safe_word|]. by apply word_reads, safe_word.
Qed.

Definition exported (kv : string * string) : list string := ["export"; kv.1 +:+ "=" +:+ kv.2].
Definition unset (name : string) : list string := ["unset"; name].
Definition plain_name (s : string) : bool := (s <>s? "") && str_forall safe_char s.

Lemma reads_exports kvs :
  forallb (λ kv, plain_name kv.1) kvs = true → Forall2 reads (map export_line kvs) (map exported kvs).
Proof.
  induction kvs as [|[k v] kvs IH]; simpl; [constructor|]. intros [Hk H]%andb_true_iff.
  constructor; [|by apply IH]. apply andb_true_iff in Hk as [Hne Hk]. destruct k as [|c k]; [done|]. by apply reads_export.
Qed.
Lemma reads_unsets names :
  forallb plain_name names = true → Forall2 reads (map unset_line names) (map unset names).
Proof.
  induction names as [|k names IH]; simpl; [constructor|]. intros [Hk H]%andb_true_iff.
  constructor; [|by apply IH]. apply andb_true_iff in Hk as [Hne Hk]. destruct k as [|c k]; [done|]. by apply reads_unset.
Qed.

Lemma reads_select config name home :
  shlex_split (str_join LF (select_lines config name home)) =
    Ok (concat (map exported (select_values config name home)) ++ concat (map unset OPENAI_VARIABLES)).
Proof.
  rewrite <- concat_app. apply reads_lines; [done|]. apply Forall2_app; [by apply reads_exports|by apply reads_unsets].
Qed.

(** ** Names *)

Lemma match_seq a b p s u v : Match (RSeq a b) p s u v → ∃ q t, Match a p s q t ∧ Match b q t u v.
Proof. inversion 1; subst; eauto. Qed.
Lemma match_char g p s q t : Match (RChar g) p s q t → ∃ c, s = String c t ∧ q = Some c ∧ g c = true.
Proof. inversion 1; subst; eauto. Qed.
Lemma match_empty r p s q t : r = REps ∨ r = RBol → Match r p s q t → s = t.
Proof. intros [-> | ->]; by inversion 1. Qed.
Lemma match_eol p s q t : Match REol p s q t → s = t ∧ at_eol t = true.
Proof. by inversion 1. Qed.

Lemma match_upto k g p s q t :
  Match (RUpTo k (RChar g)) p s q t → ∃ u, s = u +:+ t ∧ str_forall g u = true.
Proof.
  revert p s. induction k as [|k IH]; intros p s H; simpl in H.
  - apply match_empty in H as ->; [|by left]. by exists "".
  - unfold ROpt in H. inversion H; subst.
    + match goal with H : Match (RSeq _ _) _ _ _ _ |- _ => apply match_seq in H as (? & ? & (c & -> & -> & Hc)%match_char & H) end.
      match goal with H : Match (RUpTo _ _) _ _ _ _ |- _ => apply IH in H as (u & -> & Hu) end.
      exists (String c u). split; [done|]. simpl. by rewrite Hc.
    + match goal with H : Match REps _ _ _ _ |- _ => apply match_empty in H as ->; [|by left] end. by exists "".
Qed.

Definition name_char (c : ascii) : bool := is_alnum c || one_of "._-" c.
Lemma account_name_chars name :
  re_match account_name_re name = true →
  ∃ c u t, name = String c (u +:+ t) ∧ is_alnum c = true ∧ str_forall name_char u = true ∧ at_eol t = true.
Proof.
  unfold re_match. destruct (ends account_name_re None name) as [|[q t] l] eqn:E; [done|]. intros _.
  assert (H : Match account_name_re None name q t) by (apply ends_spec; rewrite E; by left).
  unfold account_name_re in H. cbn [RSeqs] in H.
  apply match_seq in H as (? & ? & ->%match_empty & H); [|by right].
  apply match_seq in H as (? & ? & (c & -> & -> & Hc)%match_char & H).
  apply match_seq in H as (? & ? & Hu & [-> Ht]%match_eol).
  unfold RBetween in Hu. apply match_seq in Hu as (? & ? & ->%match_empty & Hu); [|by left].
  apply match_upto in Hu as (u & -> & Hu). eauto 8.
Qed.

Lemma account_name_parts name :
  re_match account_name_re name = true → path_parts name = [name] ∧ starts_with "/" name = false.
Proof.
  intros (c & u & t & -> & Hc & Hu & Ht)%account_name_chars.
  assert (Hs : str_forall (λ d, negb (Ascii.eqb "/" d)) (String c (u +:+ t)) = true).
  { simpl. rewrite str_forall_app. apply andb_true_iff. split; [by destruct c as [[][][][][][][][]]|].
    apply andb_true_iff. split.
    - eapply str_forall_mono; [|exact Hu]. intros d. by destruct d as [[][][][][][][][]].
    - unfold at_eol in Ht. destruct (eqs_spec t "") as [->|]; [done|]. by destruct (eqs_spec t LF) as [->|]. }
  unfold path_parts. rewrite split_char_clean by done. cbn [List.filter].
  destruct (eqs_spec (String c (u +:+ t)) "."%string) as [[= -> _]|Hne]; [done|].
  split; [done|]. simpl in Hs. apply andb_true_iff in Hs as [Hs _]. unfold starts_with. apply prefix_cons_ne. by intros <-.
Qed.

Section facts.
Context (config : local_config) (environ : environment).
Abbreviation accounts_dir := (lc_accounts_dir config).
Abbreviation state_dir := (lc_state_dir config).

(** The home of an account is two levels below the directory of the accounts. *)
Lemma account_home_path name home :
  account_home config name = Ok home → home = child (child accounts_dir name) ".codex".
Proof using Type.
  unfold account_home. destruct (re_match account_name_re name) eqn:E; [|done]. intros [= <-].
  apply account_name_parts in E as [E1 E2]. unfold path_join. rewrite E2, E1. done.
Qed.
(** ** Calls *)

Lemma follow_at n f p q x : link_at f p = None → follow n f p = Some (q, x) → q = p.
Proof using Type. unfold link_at. destruct n; simpl; destruct (f !! p) as [[]|]; try done; by intros _ [= <- <-]. Qed.

Lemma wp_private p E f k (Φ : res unit → world → Prop) :
  link_at f p = None →
  (∀ r g k, framed (only p) f g → (∀ e, r = Raise e → os_exn e) → Φ r (World g k)) →
  wp (ensure_private_directory p) E (World f k) Φ.
Proof using Type.
  intros Hl H. unfold ensure_private_directory.
  assert (Hd : ∀ g, dirs_to p f g → framed (only p) f g) by (intros; by eapply dirs_to_framed).
  apply wp_bind, wp_mkdir_parents_to; [|intros e g k1 He Hg; apply H; [auto|by intros ? [= <-]]].
  intros g k1 Hg. apply wp_ignore_oserror. unfold chmod. apply wp_bind, wp_sys.
  2: { intros e k2 He. rewrite He. apply H; [auto|done]. }
  intros k2. apply wp_bind, wp_get_fs. rewrite <- (dirs_to_link _ _ _ p Hg) in Hl.
  destruct (follow MAX_LINKS g p) as [[q n]|] eqn:Hf; [|by apply wp_throw, H; [auto|]].
  apply (follow_at _ _ _ _ _ Hl) in Hf as ->. unfold update, wp, put_fs. simpl. apply H; [|done].
  eapply framed_trans; [by apply Hd|]. by apply framed_insert.
Qed.

Definition state_paths : path → Prop :=
  λ q, q = state_dir ∨ q = state_path config ∨ is_temp ".cloudx-" state_dir q.
Lemma state_paths_inside q : state_paths q → inside q state_dir = true.
Proof using Type. intros [->|[->|[x ->]]]; [apply inside_refl|apply inside_child|apply inside_under]. Qed.

Lemma wp_write_state value E f k (Φ : res unit → world → Prop) :
  link_at f state_dir = None →
  (∀ r g k, framed state_paths f g → Φ r (World g k)) →
  wp (atomic_json (state_path config) value 384) E (World f k) Φ.
Proof using Type.
  intros Hl H. unfold atomic_json, atomic_write.
  assert (Hp : p_parent (state_path config) = state_dir) by apply child_parent'. rewrite Hp.
  assert (Hw : ∀ g, framed (only state_dir) f g → framed state_paths f g).
  { intros g. apply framed_weaken. intros q ->. by left. }
  apply wp_bind, wp_private; [done|]. intros [[]|e] g k1 Hg _; [|by apply H, Hw].
  apply wp_write_replace.
  - intros k2. apply H. eapply framed_trans; [by apply Hw|]. apply framed_insert. right. by left.
  - intros e k2 _. by apply H, Hw.
  - intros e k2 t d m _ Ht _. apply H. eapply framed_trans; [by apply Hw|]. apply framed_insert. right. right. by rewrite <- Hp.
Qed.

Lemma fs_pure_read_state : fs_pure (read_state config).
Proof using Type.
  unfold read_state. apply fs_pure_bind; [apply fs_pure_is_file|]. intros []; simpl; [|apply fs_pure_ret].
  apply fs_pure_try; [|intros e c; apply fs_pure_except; intros _; apply fs_pure_ret].
  apply fs_pure_bind; [apply fs_pure_read_text|]. intros text.
  apply fs_pure_bind; [apply fs_pure_lift|]. intros data. apply fs_pure_ret.
Qed.

(** ** An account that is moved *)

(** Nothing below the accounts changed. *)
Definition stays (f g : fs) : Prop := ∀ p, inside p accounts_dir = true → g !! p = f !! p.
(** What was below [source] is below [target], and the other accounts are as before. *)
Definition moved_whole (source target : path) (f g : fs) : Prop :=
  (∀ l, g !! under target l = f !! under source l) ∧
  (∀ p, inside p accounts_dir = true → inside p source = true → g !! p = None) ∧
  (∀ p, inside p accounts_dir = true → inside p source = false → inside p target = false → g !! p = f !! p).

Definition archive_dir : path := child state_dir "account-archive".

(** What a command that moves an account ends in. *)
Definition move_verdict (c : account_command) (r : res (string * Z)) (f g : fs) : Prop :=
  match r with
  | Ok (text, code) => code = 0 ∧ ∃ source target, moved_whole source target f g ∧
      match c with
      | CRemove name => source = path_join accounts_dir name ∧ inside target archive_dir = true ∧
                        text = line (path_str target)
      | CRename old new => source = child accounts_dir old ∧ target = child accounts_dir new ∧ text = line new
      | _ => False
      end
  | Raise _ => stays f g ∨ ∃ source target, moved_whole source target f g
  end.

Context (Hsep : inside accounts_dir state_dir = false) (Hsep' : inside state_dir accounts_dir = false).

Lemma accounts_apart p q : inside p accounts_dir = true → inside q state_dir = true → inside q p = false.
Proof using Hsep Hsep'.
  intros Hp Hq. destruct (inside q p) eqn:E; [|done].
  pose proof (inside_trans _ _ _ E Hp) as Ha. destruct (inside_comparable _ _ _ Ha Hq); congruence.
Qed.
Lemma accounts_framed (T : path → Prop) f g :
  (∀ q, T q → inside q state_dir = true) → framed T f g → stays f g.
Proof using Hsep Hsep'.
  intros HT Hg p Hp. apply (framed_apart T); [done| |intros q Hq; by apply accounts_apart, HT].
  intros Hq. apply HT in Hq. pose proof (inside_refl p) as Hr. by rewrite (accounts_apart _ _ Hp Hq) in Hr.
Qed.

Lemma state_not_archive q : state_paths q → inside q archive_dir = false.
Proof using Type.
  assert (Hc : ∀ n, n ≠ "account-archive"%string → inside (child state_dir n) archive_dir = false).
  { intros n Hn. destruct (inside (child state_dir n) archive_dir) eqn:E; [|done].
    apply inside_spec in E as [l E]. rewrite child_under in E. unfold archive_dir in E.
    rewrite child_under, under_under in E. by apply under_inj in E as [= ->]. }
  intros [->|[->|[x ->]]]; [|by apply Hc|].
  - destruct (inside state_dir archive_dir) eqn:E; [|done].
    apply (inside_antisym (child state_dir "account-archive")) in E; [by apply child_ne in E|apply inside_child].
  - apply Hc. done.
Qed.

(** The state is written after the move. *)
Lemma moved_framed source target f g h :
  (∀ q, state_paths q → inside q target = false) →
  moved_whole source target f g → framed state_paths g h → moved_whole source target f h.
Proof using Hsep Hsep'.
  intros Ht (H1 & H2 & H3) Hh. pose proof (accounts_framed _ _ _ state_paths_inside Hh) as Ha. split_and!.
  - intros l. rewrite <- H1. assert (Hi : ∀ q, state_paths q → inside q (under target l) = false).
    { intros q Hq. destruct (inside q (under target l)) eqn:E; [|done].
      rewrite <- (Ht q Hq). symmetry. eapply inside_trans; [exact E|apply inside_under]. }
    eapply framed_apart; [done| |exact Hi]. intros Hq. specialize (Hi _ Hq). by rewrite inside_refl in Hi.
  - intros p Hp Hs. rewrite Ha; auto.
  - intros p Hp Hs Hn. rewrite Ha; auto.
Qed.

Lemma moved_tree source target f g :
  inside source target = false → inside target source = false →
  (∀ l, g !! under source l = f !! under source l) → stays f g →
  moved_whole source target f (move_tree source target g).
Proof using Type.
  intros H1 H2 Hs Ha. split_and!.
  - intros l. by rewrite move_tree_dst.
  - intros p _ Hp. by apply move_tree_src.
  - intros p Hp Hp1 Hp2. rewrite move_tree_other; auto.
Qed.
(** The end of a command that moves: the state names the account or not. *)
Lemma wp_settle c source target name value text f g E k :
  link_at g state_dir = None → (∀ q, state_paths q → inside q target = false) →
  moved_whole source target f g →
  (∀ h, moved_whole source target f h → move_verdict c (Ok (text, 0)) f h) →
  wp (let! state := read_state config in
      (if eq_str (dget "lastSelected" state) name then atomic_json (state_path config) value 384 else ret tt) ;;
      ret (text, 0)) E (World g k) (λ r w, move_verdict c r f (w_fs w)).
Proof using Hsep Hsep'.
  intros Hl Ht Hm Hok. apply wp_bind, wp_pure; [apply fs_pure_read_state|]. intros [state|e] k1.
  2: { right. by exists source, target. }
  apply wp_bind. destruct (eq_str _ _).
  - apply wp_write_state; [done|]. intros r h k2 Hh.
    assert (moved_whole source target f h) by by eapply moved_framed.
    destruct r as [[]|e]; [by apply wp_ret, Hok|]. right. by exists source, target.
  - apply wp_ret, wp_ret. by apply Hok.
Qed.

Lemma wp_rename old new f E k :
  link_at f state_dir = None →
  wp (rename_account config environ old new) E (World f k) (λ r w, move_verdict (CRename old new) r f (w_fs w)).
Proof using Hsep Hsep'.
  intros Hl. assert (Hstay : ∀ e k, wp (throw e) E (World f k) (λ r w, move_verdict (CRename old new) r f (w_fs w))).
  { intros e k1. apply wp_throw. by left. }
  unfold rename_account. destruct (_ =s? old); [apply Hstay|].
  apply wp_bind, wp_lift. destruct (account_home config old) as [old_home|e] eqn:Ho; [|by left].
  apply wp_bind, wp_lift. destruct (account_home config new) as [new_home|e] eqn:Hn; [|by left].
  apply account_home_path in Ho as ->, Hn as ->. rewrite !child_parent'.
  apply wp_bind, wp_pure; [apply fs_pure_is_symlink|]. intros [linked|e] k1; [|by left].
  apply wp_bind, wp_pure; [destruct linked; [apply fs_pure_ret|apply fs_pure_is_symlink]|]. intros [home_linked|e] k2; [|by left].
  apply wp_bind, wp_pure; [destruct home_linked; [apply fs_pure_ret|apply fs_pure_is_dir]|]. intros [[]|e] k3; [|apply Hstay|by left].
  apply wp_bind, wp_pure; [apply fs_pure_exists|]. intros [[]|e] k4; [apply Hstay| |by left].
  cbn [negb]. apply wp_bind, wp_replace_directory; [|intros; by left].
  intros k5 H1 H2 _.
  assert (Hother : ∀ p, inside p accounts_dir = false → move_tree (child accounts_dir old) (child accounts_dir new) f !! p = f !! p).
  { intros p Hp. apply move_tree_other; [done|done| |]; (destruct (inside p (child _ _)) eqn:E2; [|done]);
      rewrite (inside_trans _ _ _ E2 (inside_child _ _)) in Hp; done. }
  apply (wp_settle _ (child accounts_dir old) (child accounts_dir new)).
  - unfold link_at. rewrite Hother; [exact Hl|done].
  - intros q Hq%state_paths_inside. by apply accounts_apart; [apply inside_child|].
  - apply moved_tree; [done|done|done|done].
  - intros h Hh. split; [done|]. by exists (child accounts_dir old), (child accounts_dir new).
Qed.

Lemma pad_head n z : ∃ c s, pad (S n) z = String c s ∧ is_digit c = true.
Proof using Type.
  revert z. induction n as [|n IH]; intros z.
  - exists (ascii_of_nat (Z.to_nat (48 + z mod 10))), "". split; [done|].
    pose proof (Z.mod_pos_bound z 10 ltac:(lia)). unfold is_digit, in_range, ord.
    rewrite nat_ascii_embedding by lia. apply andb_true_iff. rewrite !Nat.leb_le. lia.
  - change (pad (S (S n)) z) with (pad (S n) (z / 10) +:+ chr (Z.to_nat (48 + z mod 10))).
    destruct (IH (z / 10)) as (c & s & -> & Hc). by eexists c, _.
Qed.

(** The name in the archive starts with the time, so it is a path below the archive. *)
Lemma archived_inside t name : inside (path_join archive_dir (stamp t +:+ "-" +:+ name)) archive_dir = true.
Proof using Type.
  unfold stamp. destruct (days2ymd _) as [[y m] d]. destruct (pad_head 3 y) as (c & s & -> & Hc).
  unfold path_join.
  match goal with |- context [starts_with "/" ?t] => assert (starts_with "/" t = false) as -> end.
  { destruct (decide ("/"%char = c)) as [<-|Hne]; [done|]. unfold starts_with. by apply prefix_cons_ne. }
  apply inside_under.
Qed.

Lemma wp_remove name f E k :
  link_at f state_dir = None → link_at f archive_dir = None →
  wp (remove_account config environ name) E (World f k) (λ r w, move_verdict (CRemove name) r f (w_fs w)).
Proof using Hsep Hsep'.
  intros Hl Hla. assert (Hstay : ∀ e k, wp (throw e) E (World f k) (λ r w, move_verdict (CRemove name) r f (w_fs w))).
  { intros e k1. apply wp_throw. by left. }
  unfold remove_account. destruct (_ =s? name); [apply Hstay|].
  apply wp_bind, wp_pure; [apply fs_pure_is_symlink|]. intros [linked|e] k1; [|by left].
  apply wp_bind, wp_pure; [destruct linked; [apply fs_pure_ret|apply fs_pure_is_symlink]|]. intros [home_linked|e] k2; [|by left].
  apply wp_bind, wp_pure; [destruct home_linked; [apply fs_pure_ret|apply fs_pure_is_dir]|]. intros [[]|e] k3; [|apply Hstay|by left].
  cbn [negb]. fold archive_dir. apply wp_bind, wp_private; [done|]. intros r g k4 Hg _.
  assert (Hga : stays f g).
  { eapply accounts_framed; [|exact Hg]. intros q ->. apply inside_child. }
  destruct r as [[]|e]; [|by left].
  apply wp_bind, wp_bind, wp_now, wp_ret.
  set (source := path_join accounts_dir name). set (target := path_join archive_dir _).
  assert (Ht : inside target archive_dir = true) by apply archived_inside.
  apply wp_bind, wp_replace_directory; [|intros; by left]. intros k5 H1 H2 _.
  assert (Hno : inside archive_dir source = false).
  { destruct (inside archive_dir source) eqn:E2; [|done]. rewrite (inside_trans _ _ _ Ht E2) in H2. done. }
  assert (Hs : ∀ l, g !! under source l = f !! under source l).
  { intros l. assert (Hn : inside archive_dir (under source l) = false).
    { destruct (inside archive_dir (under source l)) eqn:E2; [|done].
      rewrite (inside_trans _ _ _ E2 (inside_under _ _)) in Hno. done. }
    eapply framed_apart; [exact Hg| |by intros q ->].
    unfold only. intros E2. rewrite <- E2, inside_refl in Hn. done. }
  assert (Hstate : inside state_dir source = false).
  { destruct (inside state_dir source) eqn:E2; [|done].
    rewrite (inside_trans archive_dir state_dir source (inside_child _ _) E2) in Hno. done. }
  assert (Hst : ∀ q, state_paths q → inside q target = false).
  { intros q Hq%state_not_archive. destruct (inside q target) eqn:E2; [|done].
    rewrite (inside_trans _ _ _ E2 Ht) in Hq. done. }
  apply (wp_settle _ source target).
  - unfold link_at. rewrite move_tree_other; [|done|done|done|apply Hst; by left].
    change (link_at g state_dir = None). unfold link_at.
    destruct (Hg state_dir) as [->|(_ & [m ->] & _)]; [|exact Hl|done].
    unfold only, archive_dir. intros E2. symmetry in E2. by apply child_ne in E2.
  - exact Hst.
  - by apply moved_tree.
  - intros h Hh. split; [done|]. exists source, target. split; [done|]. by split_and!.
Qed.
End facts.


(** The text that [codexx use] prints for the shell says what it is meant to, whatever
    characters the paths and the name contain: read by the shell's rules it is the exports of
    the home, the account's directory and its name with exactly these values, then the three
    [unset] commands, and nothing else; and so is the text of [codexx exit]. *)
Theorem shell_text_exact config name E w :
  (∀ text w', shell_select config name E w = (Ok text, w') →
     let home := child (child (lc_accounts_dir config) name) ".codex" in
     account_home config name = Ok home ∧
     shlex_split text = Ok (concat (map exported (select_values config name home)) ++ concat (map unset OPENAI_VARIABLES))) ∧
  shlex_split (shell_exit config) = Ok (exported ("HOME", path_str (lc_home config)) ++ concat (map unset EXIT_VARIABLES)).
Proof.
  split.
  - intros text w' H home. unfold shell_select, bind, lift in H.
    destruct (account_home config name) as [p|e] eqn:Hp; [|done]. apply account_home_path in Hp as Hq. subst p.
    split; [done|]. destruct (is_dir_p _ E w) as [[[]|e] w1]; cbn [negb] in H; try done.
    destruct (atomic_json _ _ _ E w1) as [[[]|e] w2]; [|done].
    assert (Ht : Ok (str_join LF (select_lines config name home)) = Ok text) by exact (f_equal fst H).
    injection Ht as <-. exact (reads_select config name home).
  - apply reads_lines with (wss := exported ("HOME", path_str (lc_home config)) :: map unset EXIT_VARIABLES); [done|].
    constructor; [by apply reads_export|by apply reads_unsets].
Qed.

(** ** Witnesses *)

Lemma shell_text_exact_witness :
  match (shell_select sample_accounts "work" calm (World account_files 0)).1 with
  | Ok text => shlex_split text = Ok (concat (map exported (select_values sample_accounts "work"
      (path_of "/home/u's dir/.codex-accounts/work/.codex"))) ++ concat (map unset OPENAI_VARIABLES))
  | Raise _ => False
  end.
Proof.
  assert (Hok : is_ok (shell_select sample_accounts "work" calm (World account_files 0)).1 = true) by (vm_compute; reflexivity).
  destruct (shell_select sample_accounts "work" calm (World account_files 0)) as [[text|e] w'] eqn:H.
  - exact (proj2 (proj1 (shell_text_exact sample_accounts "work" calm (World account_files 0)) text w' H)).
  - discriminate Hok.
Defined.

(** * The cloud Codex home ([local/cloudx_local/profile.py])

    A directory of its own for cloud mode: the sessions and skills of the shared one are
    linked into it, the credential and the configuration are its own. *)

Definition SHARED_ENTRIES : list string := ["sessions"; "session_index.jsonl"; "skills"].

(** [os.readlink]. *)
Definition readlink (p : path) : M path :=
  sys ;; let! f := get_fs in
  match f !! p with Some (Link t) => ret t | Some _ => oserror "invalid argument" | None => missing end.

Section profile.
Context (config : local_config).
Definition shared_root : path := child (lc_home config) ".codex".

(** One shared entry: a link to it is kept, any other link is refused, a file is kept. *)
Definition link_shared (name : string) : M unit :=
  let target := child (cloud_codex_home config) name in
  let source := child shared_root name in
  let! linked := is_symlink_p target in
  if linked then
    let! t := readlink target in
    if bool_decide (t = source) then ret tt
    else mraise RuntimeError ("Cloudx Codex home has an unexpected symlink: " +:+ path_str target)
  else
    let! present := exists_p target in
    if present then ret tt else symlink_to target source.

Definition prepare_cloud_codex_home : M path :=
  ensure_private_directory (cloud_codex_home config) ;;
  miter link_shared SHARED_ENTRIES ;;
  ret (cloud_codex_home config).

Definition cloud_auth (api_key : string) : dict :=
  [("auth_mode", JStr "apikey"); ("OPENAI_API_KEY", JStr api_key); ("api_key", JStr api_key);
   ("cloudx_auth_source", JStr "scoped-gateway")].
Definition base_url (port : Z) : string := "http://127.0.0.1:" +:+ str_of_Z port +:+ "/v1".

Definition PROXY_VARIABLES : list string :=
  ["HTTP_PROXY"; "HTTPS_PROXY"; "ALL_PROXY"; "http_proxy"; "https_proxy"; "all_proxy"].
Definition ACTIVE_VARIABLES : list string :=
  ["CODEXX_ACTIVE_ACCOUNT"; "CODEXX_ACTIVE_HOME"; "CODEXX_ACTIVE_PINNED"; "CODEXX_SHARED_CODEX_ROOT"].
Definition cloud_environment (environ : environment) (home : path) (api_key : string) (port : Z) : environment :=
  env_pops ACTIVE_VARIABLES (env_pops PROXY_VARIABLES (env_update
    [("CODEX_HOME", path_str home); ("OPENAI_API_KEY", api_key); ("OPENAI_BASE_URL", base_url port);
     ("OPENAI_API_BASE", base_url port); ("NO_PROXY", "127.0.0.1,localhost"); ("no_proxy", "127.0.0.1,localhost")]
    environ)).
Definition cloud_codex_environment (environ : environment) (api_key : string) (port : Z) : M environment :=
  let! home := prepare_cloud_codex_home in
  atomic_json (child home "auth.json") (cloud_auth api_key) 384 ;;
  ret (cloud_environment environ home api_key port).

Definition cloud_config_text (port : Z) : string :=
  "model_provider = " +:+ QUOTE +:+ "openai" +:+ QUOTE +:+ LF +:+
  "openai_base_url = " +:+ QUOTE +:+ base_url port +:+ QUOTE +:+ LF.
Definition prepare_cloud_mode (api_key : string) (port : Z) : M path :=
  let! home := prepare_cloud_codex_home in
  atomic_json (child home "auth.json") (cloud_auth api_key) 384 ;;
  atomic_write (child home "config.toml") (cloud_config_text port) 384 ;;
  ret home.
End profile.

(** The environment of Codex in cloud mode: its gateway, no proxy, no account. *)
Lemma cloud_environment_get environ home api_key port name :
  env_get (cloud_environment environ home api_key port) name =
    if mem name ACTIVE_VARIABLES || mem name PROXY_VARIABLES then None
    else if mem name ["NO_PROXY"; "no_proxy"] then Some "127.0.0.1,localhost"
    else if mem name ["OPENAI_BASE_URL"; "OPENAI_API_BASE"] then Some (base_url port)
    else if name =s? "OPENAI_API_KEY" then Some api_key
    else if name =s? "CODEX_HOME" then Some (path_str home) else env_get environ name.
Proof.
  unfold cloud_environment. rewrite !env_get_pops. destruct (mem name ACTIVE_VARIABLES); [done|].
  destruct (mem name PROXY_VARIABLES); [done|]. cbn [orb]. unfold env_update. cbn [fold_left fst snd].
  rewrite !env_get_set. unfold mem. cbn [existsb]. rewrite !orb_false_r.
  repeat match goal with |- context [?k =s? name] => rewrite (String.eqb_sym k name) end.
  repeat match goal with |- context [(name =s? ?k)%string] => destruct (String.eqb_spec name k) as [->|?]; [done|] end.
  done.
Qed.
