(* ===== verification/BrokerClient.v ===== *)
(** * The client of the tunnel broker ([local/cloudx_local/broker.py])

    One request over the control socket, starting the broker when nothing answers, and the
    leases.  What is outside the program is a record: [exchange] connects to a socket, sends a
    text and gives what is received; [launch] starts a process with an environment and gives
    its pid, [exited] asks whether it has ended; [monotonic_ms] is [time.monotonic()] in
    milliseconds; [fresh_uuid] is [uuid.uuid4()]. *)

From S2P Require Import Prelude PyStr PyFloat PyValue PyTime PyJson FS PyBase64 CpaRecords CpaAuth.
From S2P Require Import JsonRoundTrip ApiFailure Streams Broker LocalConfig LocalSettings.

Definition START_TIMEOUT_MS : Z := 20 * 1000.
Definition NOT_STARTED : string := "Cloudx tunnel broker did not start within 20 seconds".

(** [_ssh_argv]. *)
Definition ssh_argv (config : local_config) (spec : tunnel_spec) (backend_port : Z) : list string :=
  [lc_ssh_binary config; "-N"; "-L";
   "127.0.0.1:" +:+ str_of_Z backend_port +:+ ":" +:+ ts_forward_host spec +:+ ":" +:+ str_of_Z (ts_forward_port spec);
   "-o"; "ExitOnForwardFailure=yes"; "-o"; "ServerAliveInterval=20"; "-o"; "ServerAliveCountMax=3";
   "-o"; "TCPKeepAlive=yes"; "-o"; "ControlMaster=no"; ts_ssh_host spec].

(** [_acquire_singleton]. *)
Definition acquire_singleton (config : local_config) : M unit :=
  let lock_path := child (broker_dir config) "broker.lock" in
  ensure_private_directory (broker_dir config) ;;
  open_append lock_path ;;
  chmod lock_path 384 ;;
  try_with (try_lock lock_path)
    (except [BlockingIOError] (λ _, mraise RuntimeError "another Cloudx tunnel broker is already running")).

(** The text of a request or an answer on the socket. *)
Definition control_line (document : dict) : string := dumps (st_compact false true) (JDict document) +:+ LF.

(** What the client makes of the bytes it receives. *)
Definition reply_value (chunks : list received) : res dict :=
  let* raw := read_request "" chunks in
  let* value := loads_bytes raw in
  match value with
  | JDict value =>
      if truthy (dget "ok" value) then Ok value
      else raise RuntimeError (py_str (py_or (dget "error" value) (JStr "tunnel broker request failed")))
  | _ => raise RuntimeError "tunnel broker returned a non-object response"
  end.

Definition DROPPED_VARIABLES : list string :=
  OPENAI_VARIABLES ++ ["CODEX_HOME"; "CODEXX_ACTIVE_ACCOUNT"; "CODEXX_ACTIVE_HOME"; "CODEXX_ACTIVE_PINNED"].

Record tunnel_lease := TunnelLease { tl_lease_id : string; tl_port : Z; tl_generation : Z }.

(** [os.getpid()], [sys.executable] and [os.path.realpath(sys.argv[0])], and the calls. *)
Record machine := Machine {
  own_pid : Z; executable : string; argv0 : path; fresh_uuid : M string;
  exchange : path → string → Z → M (list received);
  launch : list string → environment → M Z; exited : Z → M bool; monotonic_ms : M Z }.

Section client.
Context (config : local_config) (environ : environment) (X : machine).

Definition socket_path : path := child (broker_dir config) "control.sock".

Definition broker_request (document : dict) (timeout_ms : Z) : M dict :=
  let! chunks := exchange X socket_path (control_line document) timeout_ms in lift (reply_value chunks).

(** [except (OSError, ValueError, RuntimeError)]. *)
Definition CONTROL_ERRORS : list exn_class := [OSError; ValueError; RuntimeError].

Definition ping : M bool :=
  try_with (let! _ := broker_request [("command", JStr "ping")] 500 in ret true) (except CONTROL_ERRORS (λ _, ret false)).

Definition launcher_command : list string :=
  let target := match env_get environ "CLOUDX_LOCAL_ARTIFACT" with
                | Some s => if s =s? "" then argv0 X else path_of s | None => argv0 X end in
  [executable X; path_str target; "_broker"; "serve"].
Definition broker_environment : environment :=
  env_set "CLOUDX_USER_HOME" (path_str (lc_home config)) (env_pops DROPPED_VARIABLES environ).

(** The turns of the wait are a tenth of a second apart, so that there are at most two
    hundred before the deadline. *)
Fixpoint await_broker (fuel : nat) (pid deadline : Z) : M unit :=
  match fuel with
  | O => mraise RuntimeError NOT_STARTED
  | S fuel =>
      let! now := monotonic_ms X in
      if negb (now <? deadline) then mraise RuntimeError NOT_STARTED else
      let! answers := ping in
      if answers then ret tt else
      let! ended := exited X pid in
      if ended then mraise RuntimeError "Cloudx tunnel broker exited during startup" else await_broker fuel pid deadline
  end.
Definition START_TURNS : nat := 201.

Definition start_broker : M unit :=
  let log_path := child (broker_dir config) "broker.log" in
  open_append log_path ;;
  chmod log_path 384 ;;
  let! pid := launch X launcher_command broker_environment in
  let! now := monotonic_ms X in
  await_broker START_TURNS pid (now + START_TIMEOUT_MS).

Definition ensure_started : M unit :=
  let start_lock_path := child (broker_dir config) "start.lock" in
  let! answers := ping in
  if answers then ret tt else
  ensure_private_directory (broker_dir config) ;;
  open_append start_lock_path ;;
  chmod start_lock_path 384 ;;
  sys (* flock *) ;;
  let! answers := ping in
  if answers then ret tt else start_broker.

Definition acquire_for_owner (ssh_host forward_host : string) (forward_port owner_pid : Z) : M dict :=
  ensure_started ;;
  let! identifier := fresh_uuid X in
  let! response := broker_request
    [("command", JStr "acquire"); ("leaseId", JStr identifier); ("ownerPid", JInt owner_pid);
     ("sshHost", JStr ssh_host); ("forwardHost", JStr forward_host); ("forwardPort", JInt forward_port)]
    (START_TIMEOUT_MS + 5000) in
  let! port := lift (or_int (dget "publicPort" response) 0) in
  if (1 <=? port) && (port <=? 65535) then ret response
  else mraise RuntimeError "tunnel broker returned an invalid local port".

Definition acquire_lease (ssh_host forward_host : string) (forward_port : Z) : M tunnel_lease :=
  let! response := acquire_for_owner ssh_host forward_host forward_port (own_pid X) in
  let! port := lift (or_int (dget "publicPort" response) 0) in
  let! generation := lift (or_int (dget "generation" response) 0) in
  ret (TunnelLease (str_or_empty (dget "leaseId" response)) port generation).

Definition release_request (lease_id : string) : M dict :=
  broker_request [("command", JStr "release"); ("leaseId", JStr lease_id)] 5000.

(** [TunnelLease.release], which [__exit__] calls. *)
Definition release_lease (l : tunnel_lease) : M unit :=
  try_with (let! _ := release_request (tl_lease_id l) in ret tt) (except CONTROL_ERRORS (λ _, ret tt)).
(** [with broker.acquire(...) as lease]. *)
Definition with_lease {A} (ssh_host forward_host : string) (forward_port : Z) (body : tunnel_lease → M A) : M A :=
  let! l := acquire_lease ssh_host forward_host forward_port in finally (body l) (release_lease l).

(** [release]. *)
Definition client_release (lease_id : string) : M unit :=
  if lease_id =s? "" then ret tt else
  let! answers := ping in
  if negb answers then ret tt else let! _ := release_request lease_id in ret tt.

Definition client_status : M dict :=
  let! answers := ping in
  if negb answers then ret [("ok", JBool true); ("running", JBool false); ("leases", JInt 0)]
  else broker_request [("command", JStr "status")] 5000.

(** [control_main]: what it prints. *)
Definition control_main (arguments : list string) : M string :=
  match arguments with
  | ["status"] =>
      let! status := client_status in ret (dumps (st_default true true) (JDict status) +:+ LF)
  | ["shutdown"] =>
      let! answers := ping in
      if negb answers then ret "" else
      let! response := broker_request [("command", JStr "shutdown")] 5000 in
      ret (dumps (st_default true true) (JDict response) +:+ LF)
  | _ => mraise RuntimeError "unsupported tunnel broker control invocation"
  end.
End client.

(** * A request and its answer across the control socket

    However the bytes are cut into pieces, the server answers the request the client made,
    and the client gets the answer the server gave. *)

(** ** A line without breaks *)

Definition printable (c : ascii) : bool := negb (Nat.ltb (ord c) 32).
Abbreviation one_line := (str_forall printable).

Lemma escape_printable c : ascii_char c = true → one_line (escape_cp true (Z.of_nat (ord c))) = true.
Proof. by destruct c as [[][][][][][][][]]. Qed.
Lemma dumps_str_line s : is_ascii s = true → one_line (dumps_str true s) = true.
Proof.
  intros Hs. rewrite dumps_str_eq, !str_forall_app by done.
  assert (one_line (escaped true s) = true) as ->; [|done].
  unfold escaped, is_ascii in *. induction s as [|c s IH]; [done|]. simpl in *.
  apply andb_true_iff in Hs as [Hc Hs]. by rewrite str_forall_app, (IH Hs), escape_printable.
Qed.
Lemma enclose_line lvl l r items :
  one_line l = true → one_line r = true → Forall (λ s, one_line s = true) items →
  one_line (enclose (st_compact false true) lvl l r items) = true.
Proof.
  intros Hl Hr Hi. unfold enclose. destruct items as [|i items]; rewrite !str_forall_app, Hl, Hr; [done|].
  simpl newline_at. cbn [str_forall andb]. by rewrite str_join_forall.
Qed.
Lemma dumps_line v : plain v = true → ∀ lvl, one_line (dumps_at (st_compact false true) lvl v) = true.
Proof.
  induction v as [|b|z|f|s|l IH|d IH] using json_rect'; intros Hv lvl; try done.
  - by destruct b.
  - simpl. destruct (str_of_Z_shape z) as (neg & c & ds & -> & Hc & _ & Hds & _).
    assert (Ha : ∀ x, is_digit x = true → printable x = true) by (intros x; by destruct x as [[][][][][][][][]]).
    rewrite str_forall_app. simpl. rewrite Ha by done. rewrite (str_forall_mono is_digit _ ds Ha Hds). by destruct neg.
  - by apply dumps_str_line.
  - simpl. apply enclose_line; [done..|]. apply Forall_map. simpl in Hv.
    rewrite forallb_forall in Hv. rewrite List.Forall_forall in *. intros x Hx. apply IH; auto.
  - simpl in Hv. apply andb_true_iff in Hv as [_ Hv]. rewrite forallb_forall in Hv.
    cbn [dumps_at st_sort st_compact]. apply enclose_line; [done..|]. rewrite !Forall_map, List.Forall_forall in *.
    intros [k x] Hin. specialize (Hv _ Hin). cbn [fst snd st_ascii st_key] in *. apply andb_true_iff in Hv as [Hk Hx].
    rewrite !str_forall_app, dumps_str_line by done. by apply (IH _ Hin).
Qed.

Lemma reorder_id v : reorder false v = v.
Proof.
  induction v as [| | | | |l IH|d IH] using json_rect'; try done; simpl; f_equal.
  - rewrite <- (map_id l) at 2. apply map_ext_in. rewrite List.Forall_forall in IH. auto.
  - rewrite <- (map_id d) at 2. apply map_ext_in. rewrite List.Forall_forall in IH.
    intros [k x] Hin. specialize (IH _ Hin). simpl in *. by rewrite IH.
Qed.

(** What is written is read: the line of a document is that document. *)
Lemma line_loads d : plain (JDict d) = true → loads_bytes (control_line d) = Ok (JDict d).
Proof.
  intros Hd. unfold loads_bytes, decode_res, decode_utf8, control_line.
  assert (Ha : is_ascii (dumps (st_compact false true) (JDict d) +:+ LF) = true).
  { rewrite is_ascii_app. unfold dumps. rewrite dumps_ascii; [done|apply good_compact|done]. }
  rewrite ascii_utf8 by done. cbn iota. rewrite loads_dumps; [|apply good_compact|done|done].
  simpl st_sort. by rewrite reorder_id.
Qed.

(** ** The pieces *)

Lemma line_no_break s : one_line s = true → contains LF s = false.
Proof.
  induction s as [|c s IH]; [done|]. simpl str_forall. intros [Hc Hs]%andb_true_iff.
  rewrite contains_cons, IH by done. rewrite orb_false_r. by destruct c as [[][][][][][][][]].
Qed.

Definition pieces (l : list string) : string := String.concat "" l.
Lemma pieces_cons s l : pieces (s :: l) = s +:+ pieces l.
Proof. destruct l; [by rewrite str_app_nil_r|done]. Qed.

Lemma str_app_eq_app a b c d :
  a +:+ b = c +:+ d → (∃ u, a = c +:+ u ∧ u +:+ b = d) ∨ (∃ u, c = a +:+ u ∧ b = u +:+ d).
Proof.
  revert c. induction a as [|x a IH]; intros c H; [right; by exists c|].
  destruct c as [|y c]; [left; by exists (String x a)|]. simpl in H. injection H as -> H.
  destruct (IH c H) as [(u & -> & Hu)|(u & -> & Hu)]; [left|right]; by exists u.
Qed.

Lemma front_of_break c u k : String c u +:+ k = LF → String c u = LF.
Proof. unfold LF, chr. simpl. intros [= -> Hu]. by destruct u. Qed.

(** The loop takes all the pieces of a line. *)
Lemma read_line line raw l :
  one_line line = true → pieces l = line +:+ LF → Forall (λ s, s ≠ "") l →
  str_len raw + str_len (line +:+ LF) <= MAX_CONTROL_BYTES →
  read_request raw (map Chunk l) = Ok (raw +:+ line +:+ LF).
Proof.
  intros Hline Hl Hne. revert line raw Hline Hl. induction Hne as [|s l Hs Hne IH]; intros line raw Hline Hl Hlen.
  - by destruct line.
  - rewrite pieces_cons in Hl. simpl.
    assert (Hpos : 0 <= str_len (line +:+ LF)) by (unfold str_len; lia).
    rewrite (proj2 (Z.ltb_ge _ _)) by lia. destruct (eqs_spec s "") as [|_]; [done|].
    destruct (str_app_eq_app s (pieces l) line LF Hl) as [(u & -> & Hu)|(u & -> & Hu)].
    + destruct u as [|c u].
      * rewrite str_app_nil_r, line_no_break by done. simpl in Hu.
        rewrite (IH "" (raw +:+ line)); [by rewrite str_app_assoc|done|done|].
        unfold str_len in *. rewrite !str_length_app in *. simpl in *. lia.
      * rewrite (front_of_break c u _ Hu), contains_app_r by done. done.
    + rewrite str_forall_app in Hline. apply andb_true_iff in Hline as [H1 H2].
      rewrite line_no_break by done. rewrite (IH u); [by rewrite !str_app_assoc|done|done|].
      unfold str_len in *. rewrite !str_length_app in *. lia.
Qed.

(** ** The answer *)

Definition yields {A} (P : A → Prop) (m : B A) : Prop := ∀ E w a w', m E w = (Ok a, w') → P a.
Lemma yields_ret {A} (P : A → Prop) a : P a → yields P (bret a).
Proof. intros H E w x w' [= <- _]. done. Qed.
Lemma yields_bind {A C} (P : C → Prop) (m : B A) k : (∀ a, yields P (k a)) → yields P (bbind m k).
Proof. intros H E w x w' E1. unfold bbind in E1. destruct (m E w) as [[a|e] w1]; [|done]. by eapply H. Qed.
Lemma yields_raise {A} (P : A → Prop) c msg : yields P (braise c msg).
Proof. by intros E w x w'. Qed.

(** Whatever the broker answers, it answers [ok]. *)
Lemma response_ok request : yields (λ d, dget "ok" d = JBool true) (response request).
Proof.
  unfold response, status, acquire, release.
  repeat match goal with
         | |- yields _ (if ?b then _ else _) => destruct b
         | |- yields _ (bbind _ _) => apply yields_bind; intros ?
         | |- yields _ (braise _ _) => apply yields_raise
         | |- yields _ (bret _) => by apply yields_ret
         | |- yields _ (match ?p with (_, _) => _ end) => destruct p
         end.
Qed.

(** The pieces in which the line of a document crosses the socket. *)
Definition sent_as (l : list string) (d : dict) : Prop :=
  pieces l = control_line d ∧ Forall (λ s, s ≠ "") l ∧ str_len (control_line d) <= MAX_CONTROL_BYTES.

Lemma read_sent l d : plain (JDict d) = true → sent_as l d → read_request "" (map Chunk l) = Ok (control_line d).
Proof.
  intros Hd (Hl & Hne & Hlen). unfold control_line in *.
  rewrite (read_line (dumps (st_compact false true) (JDict d)) "" l); try done. by apply dumps_line.
Qed.

(** What a client is to make of what its request came to. *)
Definition told (r : res dict) : res dict :=
  match r with
  | Ok answer => Ok answer
  | Raise e => raise RuntimeError (if exn_msg e =s? "" then "tunnel broker request failed" else exn_msg e)
  end.

(** C32: the client and the broker understand each other, however the socket cuts the bytes:
    the broker acts on exactly the request that the client made, and the client gets exactly
    the answer the broker gave, or a [RuntimeError] with the message of the error that the
    broker met. *)
Theorem request_and_answer request l E w answer w' l' :
  plain (JDict request) = true → sent_as l request →
  serve_connection (map Chunk l) E w = (Ok answer, w') →
  plain (JDict answer) = true → sent_as l' answer →
  (response request E w).2 = w' ∧ reply_value (map Chunk l') = told (response request E w).1.
Proof.
  intros Hr Hl Hs Ha Hl'.
  assert (Hv : reply_value (map Chunk l') =
    if truthy (dget "ok" answer) then Ok answer
    else raise RuntimeError (py_str (py_or (dget "error" answer) (JStr "tunnel broker request failed")))).
  { unfold reply_value. rewrite (read_sent _ _ Ha Hl'). cbn iota. by rewrite line_loads. }
  rewrite Hv. destruct Hl as (Hp & Hne & Hlen).
  unfold serve_connection, btry, bbind, blift in Hs. rewrite (read_sent _ request Hr (conj Hp (conj Hne Hlen))) in Hs.
  rewrite (proj2 (Z.ltb_ge _ _)), line_loads in Hs by done.
  destruct (response request E w) as [[d|e] w1] eqn:Hresp.
  - injection Hs as <- <-. apply response_ok in Hresp as Hok. split; [done|]. by rewrite Hok.
  - cbn beta iota in Hs. destruct (existsb _ _); [|done]. unfold bret in Hs. injection Hs as <- <-.
    split; [done|]. unfold refused. unfold told. simpl. by destruct (exn_msg e).
Qed.

(** ** A witness: a lease asked for in two pieces. *)

Definition sample_request : dict :=
  [("command", JStr "acquire"); ("leaseId", JStr "0e8400f2-5a1b-4d3e-9c7f-001122334455"); ("ownerPid", JInt 0);
   ("sshHost", JStr "cloud"); ("forwardHost", JStr "10.0.0.1"); ("forwardPort", JInt 8317)].
Definition quiet_broker : benv :=
  BEnv (λ _, 0) (λ _, 0) (λ _ _, true) (λ _ _, true) (λ _ _, NotFound) (λ _, None) (λ _, None) (λ _, true) (λ _, None) 7.

Lemma request_and_answer_witness :
  let line := control_line sample_request in
  let l := [str_take 30 line; str_drop 30 line] in
  let w := BWorld (new_broker 0) 0 None in
  let answer := refused "tunnel lease owner is not running" in
  serve_connection (map Chunk l) quiet_broker w = (Ok answer, w) ∧
  reply_value [Chunk (control_line answer)] = raise RuntimeError "tunnel lease owner is not running".
Proof.
  intros line l w answer. assert (Hs : serve_connection (map Chunk l) quiet_broker w = (Ok answer, w)) by (vm_compute; reflexivity).
  split; [exact Hs|].
  refine (eq_trans (proj2 (request_and_answer sample_request l quiet_broker w answer w [control_line answer] _ _ Hs _ _)) _).
  - vm_compute; reflexivity.
  - split; [vm_compute; reflexivity|]. split; [repeat constructor; discriminate|vm_compute; discriminate].
  - vm_compute; reflexivity.
  - split; [vm_compute; reflexivity|]. split; [repeat constructor; discriminate|vm_compute; discriminate].
  - vm_compute; reflexivity.
Defined.
