(* ===== verification/ImportUi.v ===== *)
(** * Reports of a credential import ([local/cloudx_local/import_ui.py])

    The counts and the status of an import are checked before they are shown; reasons are
    freed of credentials. *)

From S2P Require Import Prelude PyStr PyFloat PyValue PyRe PyJson.

Definition LOCAL_CPA_DESTINATION : string := "local CPA".
Definition CLOUD_DESTINATION : string := "cloud gateway".
Definition NATIVE_LOCAL_ADAPTER : string := "Cloudx native compatibility (external local CPA)".

(** ** Reasons *)

Definition token_char (c : ascii) : bool := is_alnum c || one_of "_-" c.
Definition tokens : re := RPlus (RChar token_char).
Definition ANSI_ESCAPE : re :=
  RSeqs [RLit (chr 27 +:+ "["); RStar (RChar (in_range 48 63)); RStar (RChar (in_range 32 47)); RChar (in_range 64 126)].
Definition BACKTICK : string := chr 96.
Definition INPUT_SNIPPET : re :=
  RSeqs [RPlus (RChar is_space); RLitI "near"; RPlus (RChar is_space); RLit BACKTICK;
         RStar (RChar (λ c, negb (one_of BACKTICK c))); RLit BACKTICK].
Definition JWT : re :=
  RSeqs [RWordB; RLit "eyJ"; tokens; RLit "."; tokens; RLit "."; RStar (RChar token_char); RWordB].
Definition API_TOKEN : re :=
  RSeqs [RWordB; RLit "sk-"; RRep 8 (RChar token_char); RStar (RChar token_char); RWordB].
Definition quote_mark (c : ascii) : bool := one_of (QUOTE +:+ "'") c.
Definition SENSITIVE_NAME : re :=
  RSeqs [ROpt (RChar quote_mark);
         RAlts [RLitI "access_token"; RLitI "refresh_token"; RLitI "id_token"; RLitI "agent_private_key";
                RSeqs [RLitI "api"; ROpt (RChar (one_of "_-")); RLitI "key"]];
         ROpt (RChar quote_mark); RStar (RChar is_space); RChar (one_of ":="); RStar (RChar is_space)].
Definition SENSITIVE_TEXT : re :=
  RSeqs [ROpt (RChar quote_mark); RPlus (RChar (λ c, negb (quote_mark c || is_space c || one_of ",}" c)));
         ROpt (RChar quote_mark)].

(** [for prefix in (...)]: the first prefix that the reason has is dropped. *)
Definition drop_label (reason : string) : string :=
  match List.find (λ prefix, starts_with prefix (casefold reason)) ["codexx:"; "cloudx:"; "cloud:"] with
  | Some prefix => strip (str_drop (String.length prefix) reason)
  | None => reason
  end.
Definition sanitize_reason (value : string) : string :=
  let reason := drop_label (strip (re_sub ANSI_ESCAPE "" value)) in
  let reason := re_sub INPUT_SNIPPET " near <redacted input>" reason in
  let reason := re_sub JWT "<redacted token>" reason in
  let reason := re_sub API_TOKEN "<redacted token>" reason in
  let reason := re_sub_keep SENSITIVE_NAME SENSITIVE_TEXT "<redacted>" reason in
  let reason := if Nat.ltb 300 (ulen reason) then rstrip (utake 297 reason) +:+ "..." else reason in
  if reason =s? "" then "import failed without a reported reason" else reason.

Example sanitized_reasons :
  map sanitize_reason
    ["cloudx: bad token sk-abcdefgh1 near `secret`"; "refresh_token: 'xyz', api-key=12"; "jwt eyJa.b.c!"; " "] =
  ["bad token <redacted token> near <redacted input>"; "refresh_token: <redacted>, api-key=<redacted>";
   "jwt <redacted token>!"; "import failed without a reported reason"].
Proof. vm_compute. reflexivity. Qed.

(** ** Reports *)

Record import_report := ImportReport {
  ir_status : string; ir_destination : string; ir_imported : option Z; ir_skipped : option Z;
  ir_imported_label : string; ir_skipped_label : string; ir_verification : string;
  ir_details : list (string * string); ir_reasons : list (string * string);
  ir_request_id : string; ir_adapter : string }.

Definition ui_error {A} (msg : string) : res A := raise RuntimeError msg.

(** [render]. *)
Definition labelled (label value : string) : string := "  " +:+ label +:+ ": " +:+ value +:+ LF.
Definition when (value line : string) : string := if value =s? "" then "" else line.
Definition counted_line (label : string) (count : option Z) : string :=
  match count with Some n => labelled label (str_of_Z n) | None => "" end.
Definition render (r : import_report) : string :=
  "Credential import" +:+ LF +:+ labelled "Status" (ir_status r) +:+ labelled "Destination" (ir_destination r) +:+
  String.concat "" (map (λ x, labelled (if x.1 =s? "" then "Reason" else "Reason (" +:+ x.1 +:+ ")") x.2) (ir_reasons r)) +:+
  counted_line (ir_imported_label r) (ir_imported r) +:+ counted_line (ir_skipped_label r) (ir_skipped r) +:+
  when (ir_verification r) (labelled "Verification" (ir_verification r)) +:+
  String.concat "" (map (λ x, labelled x.1 x.2) (ir_details r)) +:+
  when (ir_request_id r) (labelled "Request ID" (ir_request_id r)) +:+
  when (ir_adapter r) (labelled "Adapter" (ir_adapter r)).

Definition failure_report (destination reason code : string) : import_report :=
  ImportReport "failed" destination None None "Imported" "Skipped" "" [] [(code, sanitize_reason reason)] "" "".

Definition counted (count : Z) (singular plural : string) : string :=
  str_of_Z count +:+ " " +:+ (if count =? 1 then singular else plural).
(** [_count]: a count is a whole number, and [True] is none. *)
Definition count_of (document : dict) (name : string) : res Z :=
  match dget name document with
  | JInt n => if n <? 0 then ui_error ("remote import result has an invalid " +:+ name +:+ " count") else Ok n
  | _ => ui_error ("remote import result has an invalid " +:+ name +:+ " count")
  end.

Definition cloud_reason (error : json) : res (string * string) :=
  match error with
  | JDict error =>
      let code := strip (str_or_empty (dget "code" error)) in
      let message := strip (str_or_empty (dget "message" error)) in
      if (code =s? "") || (message =s? "") then ui_error "remote import result has an incomplete error entry"
      else Ok (code, sanitize_reason message)
  | _ => ui_error "remote import result has an invalid error entry"
  end.
Definition cloud_reasons (document : dict) : res (list (string * string)) :=
  match dget "errors" document with
  | JList errors => map_res cloud_reason errors
  | _ => ui_error "remote import result has invalid errors"
  end.

(** What the status of a cloud import is called. *)
Definition cloud_status (status : string) (dry_run : bool) (written : Z) : string :=
  if dry_run then
    if status =s? "accepted" then "preview succeeded (no changes written)"
    else if status =s? "partial" then "preview partially succeeded" else "preview failed"
  else if status =s? "accepted" then (if negb (written =? 0) then "succeeded" else "succeeded (no changes)")
  else if status =s? "partial" then "partially succeeded" else "failed".

Definition cloud_report (document : dict) : res import_report :=
  let status := strip (str_or_empty (dget "status" document)) in
  if negb (mem status ["accepted"; "partial"; "rejected"])
  then ui_error "remote import result has an unsupported status" else
  match dget "dryRun" document with
  | JBool dry_run =>
      let* written := count_of document "written" in
      let* skipped := count_of document "skipped" in
      let* reasons := cloud_reasons document in
      if (status =s? "accepted") && nonempty reasons
      then ui_error "remote import result reports success with errors" else
      if negb (status =s? "accepted") && negb (nonempty reasons)
      then ui_error "remote import result reports failure without a reason" else
      let verification :=
        if dry_run then "not performed for a preview"
        else if status =s? "rejected" then ""
        else "not performed during import; cloud health checks live account validity separately" in
      let details :=
        if negb (skipped =? 0)
        then [("Skip reason", counted skipped "credential" "credentials" +:+ " " +:+
               (if skipped =? 1 then "was" else "were") +:+ " already present and identical")]
        else if (status =s? "accepted") && (written =? 0)
        then [("Details", "no credential changes were required")] else [] in
      let request_id := strip (str_or_empty (dget "requestId" document)) in
      Ok (ImportReport (cloud_status status dry_run written) CLOUD_DESTINATION (Some written) (Some skipped)
            (if dry_run then "Would import" else "Imported") (if dry_run then "Would skip" else "Skipped")
            verification details reasons (if request_id =s? "unavailable" then "" else request_id) "")
  | _ => ui_error "remote import result has an invalid dry-run flag"
  end.

Definition local_report (document : dict) : res import_report :=
  let status := str_or_empty (dget "status" document) in
  match dget "dryRun" document, dget "counts" document with
  | JBool dry_run, JDict counts =>
      if negb (mem status ["accepted"; "preview"]) then ui_error "local import result is invalid" else
      let* discovered := count_of counts "discovered" in
      let* ignored := count_of counts "ignored" in
      let* parsed := count_of counts "parsed" in
      let* duplicates := count_of counts "duplicates" in
      let* written := count_of counts "written" in
      let* unchanged := count_of counts "unchanged" in
      let* skipped := count_of counts "skipped" in
      let* verified := count_of counts "verified" in
      if negb (skipped =? ignored + duplicates + unchanged)
      then ui_error "local import result has inconsistent skipped counts" else
      let verification :=
        if dry_run then "not performed for a preview"
        else if negb (written =? 0) then "complete (" +:+ str_of_Z verified +:+ " verified)"
        else "complete (no new credentials to verify)" in
      let details :=
        [("Source files", str_of_Z discovered +:+ " discovered, " +:+ str_of_Z ignored +:+ " ignored");
         ("Credentials", str_of_Z parsed +:+ " parsed, " +:+ str_of_Z duplicates +:+ " duplicates")] ++
        (if negb (skipped =? 0)
         then [("Skip reason", counted ignored "ignored source file" "ignored source files" +:+ ", " +:+
                counted duplicates "duplicate credential" "duplicate credentials" +:+ ", " +:+
                counted unchanged "unchanged credential" "unchanged credentials")] else []) in
      Ok (ImportReport
            (if dry_run then "preview succeeded (no changes written)"
             else if negb (written =? 0) then "succeeded" else "succeeded (no changes)")
            LOCAL_CPA_DESTINATION (Some written) (Some skipped) (if dry_run then "Would import" else "Imported")
            "Skipped" verification details [] "" NATIVE_LOCAL_ADAPTER)
  | _, _ => ui_error "local import result is invalid"
  end.

(** ** What a report may say *)

Lemma sanitize_reason_bounded value : (ulen (sanitize_reason value) <= 300)%nat ∧ sanitize_reason value ≠ "".
Proof.
  unfold sanitize_reason. generalize (re_sub_keep SENSITIVE_NAME SENSITIVE_TEXT "<redacted>" (re_sub API_TOKEN "<redacted token>"
    (re_sub JWT "<redacted token>" (re_sub INPUT_SNIPPET " near <redacted input>"
      (drop_label (strip (re_sub ANSI_ESCAPE "" value))))))). intros m.
  destruct (Nat.ltb_spec 300 (ulen m)) as [Hl|Hl].
  - destruct (eqs_spec (rstrip (utake 297 m) +:+ "...") "") as [E|E]; [by destruct (rstrip (utake 297 m))|].
    split; [|done]. rewrite ulen_app. change (ulen "...") with 3%nat.
    pose proof (ulen_rstrip_by is_space (utake 297 m)). pose proof (ulen_utake 297 m). unfold rstrip. lia.
  - destruct (eqs_spec m "") as [->|Hne]; [|done]. split; [by apply Nat.leb_le|done].
Qed.

Lemma count_of_ok d name n : count_of d name = Ok n → dget name d = JInt n ∧ 0 <= n.
Proof.
  unfold count_of. destruct (dget name d) as [| |z| | | |]; try done.
  destruct (Z.ltb_spec z 0); [done|]. by intros [= ->].
Qed.

(** A reason that is shown: it has a code, and a text that is short and not empty. *)
Definition shown_reason (x : string * string) : Prop := x.1 ≠ "" ∧ (ulen x.2 <= 300)%nat ∧ x.2 ≠ "".
Lemma cloud_reasons_shown d l : cloud_reasons d = Ok l → Forall shown_reason l.
Proof.
  unfold cloud_reasons. destruct (dget "errors" d) as [| | | | |errors|]; try done.
  revert l. induction errors as [|e errors IH]; intros l; simpl; [intros [= <-]; constructor|].
  destruct (cloud_reason e) as [x|] eqn:Hx; [|done]. destruct (map_res cloud_reason errors) as [xs|]; [|done].
  intros [= <-]. constructor; [|by apply IH]. unfold cloud_reason in Hx. destruct e as [| | | | | |e]; try done.
  destruct (eqs_spec (strip (str_or_empty (dget "code" e))) "") as [|Hc]; [done|].
  destruct (_ =s? ""); [done|]. injection Hx as <-. split; [done|]. apply sanitize_reason_bounded.
Qed.

Definition SUCCESS_WORDS : list string := ["succeeded"; "succeeded (no changes)"; "preview succeeded (no changes written)"].

(** The report of a cloud import is honest: its numbers are the whole, non-negative counts
    of the answer; it says success if and only if the answer is an accepted one, and then it
    has no reasons; and every reason has a code and a non-empty text of at most 300
    characters. *)
Theorem cloud_report_honest d r :
  cloud_report d = Ok r →
  let accepted := strip (str_or_empty (dget "status" d)) = "accepted" in
  (∃ w s, ir_imported r = Some w ∧ ir_skipped r = Some s ∧
     dget "written" d = JInt w ∧ dget "skipped" d = JInt s ∧ 0 <= w ∧ 0 <= s) ∧
  (In (ir_status r) SUCCESS_WORDS ↔ accepted) ∧ (ir_reasons r = [] ↔ accepted) ∧
  Forall shown_reason (ir_reasons r).
Proof.
  unfold cloud_report. intros H.
  set (status := strip _) in *. destruct (mem status _) eqn:Hm; [|done]. cbn [negb] in H.
  destruct (dget "dryRun" d) as [|dry| | | | |]; try done.
  destruct (count_of d "written") as [w|] eqn:Hw; [|done]. destruct (count_of d "skipped") as [s|] eqn:Hs; [|done].
  destruct (cloud_reasons d) as [reasons|] eqn:Hr; [|done].
  destruct ((status =s? "accepted") && nonempty reasons) eqn:H1; [done|].
  destruct (negb (status =s? "accepted") && negb (nonempty reasons)) eqn:H2; [done|].
  apply count_of_ok in Hw as [Hw ?], Hs as [Hs ?]. injection H as <-.
  cbn [ir_imported ir_skipped ir_status ir_reasons].
  split; [by exists w, s|]. split; [|split; [|by eapply cloud_reasons_shown]].
  - unfold cloud_status, SUCCESS_WORDS. destruct (eqs_spec status "accepted") as [E|E].
    + split; [done|]. intros _. destruct dry; [simpl; auto|]. destruct (negb (w =? 0)); simpl; auto.
    + split; [|done]. destruct dry, (status =s? "partial"); simpl; intuition discriminate.
  - destruct (eqs_spec status "accepted") as [E|E], reasons; simpl in *; try done.
Qed.

Definition sample_answer : dict :=
  [("status", JStr "partial"); ("dryRun", JBool false); ("written", JInt 2); ("skipped", JInt 1);
   ("errors", JList [JDict [("code", JStr "invalid_token"); ("message", JStr "cloud: token sk-abcdefgh1")]])].
Lemma cloud_report_honest_witness :
  match cloud_report sample_answer with
  | Ok r => ir_status r = "partially succeeded" ∧ ir_reasons r = [("invalid_token", "token <redacted token>")] ∧
            Forall shown_reason (ir_reasons r)
  | Raise _ => False
  end.
Proof.
  assert (Hok : is_ok (cloud_report sample_answer) = true) by (vm_compute; reflexivity).
  destruct (cloud_report sample_answer) as [r|e] eqn:H; [|discriminate Hok].
  split; [|split].
  - vm_compute in H. injection H as <-. reflexivity.
  - vm_compute in H. injection H as <-. reflexivity.
  - exact (proj2 (proj2 (proj2 (cloud_report_honest sample_answer r H)))).
Defined.
