(* ===== verification/CloudCli.v ===== *)
(** * The desktop's [cloud] command ([local/cloudx_local/cloud_cli.py])

    The probe of the gateway through a leased tunnel, Codex run behind it, and the import of a
    file or a directory.  [models_status] asks the gateway on a port with a key and a timeout
    for its status, [None] when there is no answer; [codex] runs the official executable;
    [stdin] is what is redirected into the command.  A command's result is what it prints on
    the two streams and its exit status. *)

From S2P Require Import Prelude PyStr PyFloat PyValue PyTime PyJson FS PyBase64 CpaRecords CpaAuth.
From S2P Require Import JsonRoundTrip AccountContract Importer ApiFailure Broker LocalConfig.
From S2P Require Import LocalImport Releases LocalSettings Remote Accounts BrokerClient ImportUi.

Definition MAX_IMPORT_BYTES : Z := 16 * 1024 * 1024.
Definition cloud_error {A} (msg : string) : M A := mraise RuntimeError msg.

Record printed := Printed { out : string; err : string; code : Z }.

(** [type(exc).__name__], for the classes the program names. *)
Definition class_name (c : exn_class) : string :=
  match c with
  | PublicMetadataRejected => "PublicMetadataRejected" | AccountStateRejected => "AccountStateRejected"
  | LegacyHealthRejected => "LegacyHealthRejected" | EvidenceRejected => "EvidenceRejected"
  | CpaAuthRejected => "CpaAuthRejected" | CpaHealthUnavailable => "CpaHealthUnavailable"
  | CpaCapabilityError => "CpaCapabilityError" | ImportRejected => "ImportRejected"
  | AgentIdentityError => "AgentIdentityError" | LocalImportError => "LocalImportError"
  | LocalCpaMaintenanceRejected => "LocalCpaMaintenanceRejected" | HelperUnavailable => "HelperUnavailable"
  | AcceptanceRejected => "AcceptanceRejected" | CpaPolicyInstallRejected => "CpaPolicyInstallRejected"
  | SupportRejected => "SupportRejected" | ActiveImportRejected => "ActiveImportRejected" | IndexError => "IndexError"
  | RuntimeError => "RuntimeError" | ValueError => "ValueError" | TypeError => "TypeError"
  | KeyError => "KeyError" | AttributeError => "AttributeError" | OverflowError => "OverflowError"
  | OSError => "OSError" | FileNotFoundError => "FileNotFoundError" | BlockingIOError => "BlockingIOError"
  | UnicodeDecodeError => "UnicodeDecodeError" | JSONDecodeError => "JSONDecodeError"
  end.
(** [str(exc) or exc.__class__.__name__]. *)
Definition exn_text (e : exn) : string := if exn_msg e =s? "" then class_name (exn_cls e) else exn_msg e.

(** ** Sources *)

Definition read_import_file (p : path) : M string :=
  let! linked := is_symlink_p p in
  let! regular := (if linked then ret false else is_file_p p) in
  if negb regular then cloud_error "import source must be a regular file" else
  let! n := stat p in
  if MAX_IMPORT_BYTES <? node_size n then cloud_error "import source exceeds 16 MiB" else
  let! raw := read_bytes p in
  if MAX_IMPORT_BYTES <? str_len raw then cloud_error "import source exceeds 16 MiB" else ret raw.

Definition decode_import_text (raw : string) : M string :=
  match decode_utf8_sig raw with
  | Ok text => ret text
  | Raise _ => match decode_utf16 raw with
               | Some text => ret text
               | None => cloud_error "directory import files must be UTF-8 or UTF-16 text"
               end
  end.

(** One entry of the directory: [None] when it is passed over. *)
Definition import_candidate (root candidate : path) : M (option (string * string)) :=
  let! linked := is_symlink_p candidate in
  let! regular := (if linked then ret false else is_file_p candidate) in
  if negb regular then ret None else
  match relative_to candidate root with
  | None => lift (raise ValueError "is not in the subpath")
  | Some relative =>
      if existsb (λ part, mem part IGNORED_DIRECTORY_NAMES) (List.removelast relative.2) then ret None
      else if negb (mem (casefold (p_suffix candidate)) IMPORT_SUFFIXES) then ret None else
      let! raw := read_import_file candidate in
      let! content := decode_import_text raw in
      ret (Some (path_str relative, content))
  end.

Definition file_entry (file : string * string) : json := JDict [("name", JStr file.1); ("content", JStr file.2)].
Definition import_envelope (files : list (string * string)) : dict :=
  [("schema", JStr "cloudx.import-source.v1"); ("files", JList (map file_entry files))].
Definition envelope_text (files : list (string * string)) : string :=
  dumps (st_compact false true) (JDict (import_envelope files)).

Definition import_directory (root : path) : M string :=
  let! found := LocalImport.rglob root in
  let! files := mmap (import_candidate root) found in
  let files := omap id files in
  match files with
  | [] => cloud_error "directory contains no supported import files"
  | _ =>
      if MAX_IMPORT_BYTES <? str_len (envelope_text files)
      then cloud_error "directory import envelope exceeds 16 MiB" else ret (envelope_text files)
  end.

Definition import_source (stdin : M string) (expanduser : path → path) (source : string) : M string :=
  if source =s? "-" then
    let! raw := stdin in
    if MAX_IMPORT_BYTES <? str_len raw then cloud_error "import source exceeds 16 MiB"
    else if raw =s? "" then cloud_error "import source is empty" else ret raw
  else
    let p := expanduser (path_of source) in
    let! file := is_file_p p in
    let! linked := (if file then is_symlink_p p else ret true) in
    if negb linked then read_import_file p else
    let! dir := is_dir_p p in
    let! linked := (if dir then is_symlink_p p else ret true) in
    if linked then cloud_error "import source does not exist or is not a regular path" else import_directory p.

(** ** Commands *)

Section commands.
Context (run_ssh : list string → option string → Z → M ssh_outcome).
Context (config : local_config) (environ : environment) (X : machine).
Context (models_status : Z → string → pyfloat → M (option Z)) (codex : list string → environment → M (option Z)).

(** The attempts are a second apart. *)
Fixpoint probe_attempts (n : nat) (port : Z) (api_key : string) : M (option Z) :=
  match n with
  | O => ret None
  | S n =>
      let! status := models_status port api_key (lc_endpoint_timeout config) in
      match status with Some z => ret (Some z) | None => probe_attempts n port api_key end
  end.
Definition probe_endpoint : Z → string → M (option Z) := probe_attempts (Z.to_nat (lc_endpoint_attempts config)).

Definition leased {A} (body : remote_endpoint → tunnel_lease → M A) : M A :=
  let! endpoint := resolve_endpoint run_ssh config in
  with_lease config environ X (lc_ssh_host config) (re_forward_host endpoint) (re_forward_port endpoint) (body endpoint).

Definition get_str (d : dict) (key : string) : string := match dlookup key d with Some v => py_str v | None => "-" end.
Definition connection_report (mode : string) (broker : dict) : string :=
  "cloud remote: " +:+ mode +:+ LF +:+
  "tunnel broker: ok (pid=" +:+ get_str broker "pid" +:+ ", ssh=" +:+ get_str broker "sshPid" +:+
  ", leases=" +:+ get_str broker "leases" +:+ ", generation=" +:+ get_str broker "generation" +:+ ")" +:+ LF.
(** What is printed of the gateway's status, and the exit status. *)
Definition gateway_verdict (report : string) (status : option Z) : printed :=
  match status with
  | None => Printed report ("cloud gateway: no HTTP response; broker kept the SSH tunnel unchanged" +:+ LF) 1
  | Some z =>
      let report := report +:+ "cloud gateway: HTTP " +:+ str_of_Z z +:+ LF in
      if (200 <=? z) && (z <? 300) then Printed report "" 0
      else Printed report (if 500 <=? z then "cloud gateway returned a server response; this is not a tunnel disconnect" +:+ LF else "") 1
  end.
Definition check_connection : M printed :=
  leased (λ endpoint l,
    let! status := probe_endpoint (tl_port l) (re_api_key endpoint) in
    let! broker := client_status config X in
    ret (gateway_verdict (connection_report (re_mode endpoint) broker) status)).

Definition run_codex (codex_args : list string) : M Z :=
  leased (λ endpoint l,
    let! environment := cloud_codex_environment config environ (re_api_key endpoint) (tl_port l) in
    let! status := codex ([lc_codex_binary config; "-c";
                           "openai_base_url=" +:+ QUOTE +:+ base_url (tl_port l) +:+ QUOTE] ++ codex_args) environment in
    match status with
    | Some code => ret code
    | None => cloud_error ("official Codex executable was not found: " +:+ lc_codex_binary config)
    end).

(** The [codex] command: [--] in front of the arguments is dropped. *)
Definition cloud_codex (check : bool) (codex_args : list string) : M printed :=
  let codex_args := match codex_args with "--" :: rest => rest | _ => codex_args end in
  if check then
    match codex_args with
    | [] => check_connection
    | _ => cloud_error "cloud codex --check does not accept Codex arguments"
    end
  else let! status := run_codex codex_args in ret (Printed "" "" status).

(** [run_import]: on a terminal a report, else the document. *)
Definition run_import (stdin : M string) (expanduser : path → path) (terminal : bool)
    (source : string) (dry_run force json_output : bool) : M printed :=
  let human := terminal && negb json_output in
  let! outcome := try_with
    (let! raw := import_source stdin expanduser source in
     let! document := import_payload run_ssh config raw dry_run force in
     let! report := (if human then let! r := lift (cloud_report document) in ret (Some r) else ret None) in
     ret (inl (document, report)))
    (except [OSError; RuntimeError] (λ e,
       if human then ret (inr (exn_text e))
       else if catches RuntimeError (exn_cls e) then throw e else cloud_error (exn_text e))) in
  match outcome with
  | inr reason => ret (Printed "" (render (failure_report CLOUD_DESTINATION reason "")) 1)
  | inl (document, report) =>
      let accepted := eq_str (dget "status" document) "accepted" in
      let text := match report with
                  | Some r => render r
                  | None => dumps (st_pretty 2 true true) (JDict document) +:+ LF
                  end in
      let to_out := accepted || negb human in
      ret (Printed (if to_out then text else "") (if to_out then "" else text) (if accepted then 0 else 1))
  end.
End commands.

(** * A directory that is imported

    The envelope that the desktop makes of a directory is what the cloud importer takes apart:
    importing the directory is importing its files, one after the other. *)

Definition ascii_file (file : string * string) : Prop := is_ascii file.1 = true ∧ is_ascii file.2 = true.

Lemma envelope_plain files : Forall ascii_file files → plain (JDict (import_envelope files)) = true.
Proof.
  intros H. assert (Hf : forallb plain (map file_entry files) = true).
  { apply forallb_forall. intros v Hv. apply in_map_iff in Hv as ([n c] & <- & Hin).
    rewrite List.Forall_forall in H. destruct (H _ Hin) as [H1 H2]. simpl in *. by rewrite H1, H2. }
  unfold import_envelope. cbn [plain forallb fst snd map]. rewrite Hf. reflexivity.
Qed.

Lemma envelope_strip files : strip (envelope_text files) = envelope_text files.
Proof.
  assert (Hs : ∃ m, envelope_text files = "{" +:+ m +:+ "}").
  { unfold envelope_text, dumps, import_envelope. cbn [dumps_at st_sort st_compact map]. unfold enclose.
    match goal with |- context [str_join ?sep ?l] => exists (str_join sep l) end. reflexivity. }
  destruct Hs as [m ->]. apply strip_noop; [done|].
  rewrite !str_rev_app. done.
Qed.

Lemma envelope_documents files :
  Forall ascii_file files → json_documents (envelope_text files) = Ok [JDict (import_envelope files)].
Proof.
  intros H. unfold json_documents. rewrite envelope_strip.
  destruct (eqs_spec (envelope_text files) "") as [E|_]; [by unfold envelope_text, dumps in E|].
  unfold envelope_text. rewrite <- (str_app_nil_r (dumps _ _)).
  rewrite loads_dumps; [|apply good_compact|by apply envelope_plain|done]. by rewrite reorder_id.
Qed.

Section importer.
Context (opener : string → M string).
Abbreviation normalize_text := (normalize_text opener).

Lemma normalize_nonempty n text E w r w' : normalize_text n text E w = (Ok r, w') → r ≠ [].
Proof.
  destruct n as [|n]; [done|]. cbn [normalize_text]. unfold bind at 1, lift.
  destruct (json_documents text) as [documents|]; [|done]. cbv beta iota.
  unfold bind at 1. destruct (match envelope documents with _ => _ end E w) as [[records|] w1]; [|done].
  unfold bind at 1. destruct (match records with _ => _ end E w1) as [[l|] w2]; [|done].
  destruct l; [done|]. intros [= <- _]. done.
Qed.

(** The files of an entry list, as the importer reads them back. *)
Definition entry_text (n : nat) (item : json) : M (list dict) :=
  match item with
  | JDict i => match dget "content" i with JStr content => normalize_text n content | _ => invalid_envelope end
  | _ => invalid_envelope
  end.
Lemma mmap_entries n files E w :
  mmap (entry_text n) (map file_entry files) E w = mmap (λ file, normalize_text n file.2) files E w.
Proof.
  revert w. induction files as [|f files IH]; intros w; [done|]. cbn [map mmap]. unfold bind.
  change (entry_text n (file_entry f)) with (normalize_text n f.2).
  destruct (normalize_text n f.2 E w) as [[x|] w1]; [|done]. by rewrite IH.
Qed.
Lemma mmap_nonempty n files E w parts w' :
  files ≠ [] → mmap (λ file : string * string, normalize_text n file.2) files E w = (Ok parts, w') → List.concat parts ≠ [].
Proof.
  destruct files as [|f files]; [done|]. intros _. cbn [mmap]. unfold bind.
  destruct (normalize_text n f.2 E w) as [[x|] w1] eqn:Hx; [|done]. apply normalize_nonempty in Hx.
  destruct (mmap _ files E w1) as [[xs|] w2]; [|done]. intros [= <- _]. simpl. by destruct x.
Qed.


End importer.

Definition sample_files : list (string * string) :=
  [("a.json", "{" +:+ QUOTE +:+ "access_token" +:+ QUOTE +:+ ": " +:+ QUOTE +:+ "t" +:+ QUOTE +:+ "}"); ("b.txt", "nothing")].
