(* ===== verification/ApiDiagnosis.v ===== *)
(** * The diagnosis of API failures ([local/cloudx_local/api_diagnosis.py])

    What a failed turn of Codex came from: the retained error logs of the local gateway or the
    failure that the tunnel broker observed, and the state of the gateway.  [log_dir] is the
    directory of the logs. *)

From S2P Require Import Prelude PyStr PyFloat PyValue PyRe PyTime PyJson FS Wp CpaRecords CpaAuth.
From S2P Require Import AccountContract ImporterSafety ApiFailure Streams Broker PyUrl LocalConfig.
From S2P Require Import LocalSettings Remote Accounts BrokerClient CloudCli.

Definition DIAGNOSIS_SCHEMA : string := "cloudx.api-diagnosis.v1".
Definition MAX_PROFILE_BYTES : Z := 256 * 1024.
Definition MAX_LOG_TAIL_BYTES : Z := 512 * 1024.
Definition MAX_LOG_FILE_BYTES : Z := 32 * 1024 * 1024.
Definition MAX_LOG_FILES : nat := 100.
Definition LOG_LOOKBACK_SECONDS : Z := 6 * 60 * 60.
Definition API_RESPONSE : string := "=== API RESPONSE ===".
Definition RESPONSE : string := "=== RESPONSE ===".

(** ** Lines

    The patterns start at a line ([^] with [re.MULTILINE]) and end at one ([\s*$]): what
    follows is white space that reaches the end or holds a line break. *)

Section lines.
Context {A : Type} (here : string → option A).
Fixpoint search_lines (bol : bool) (s : string) : option A :=
  match (if bol then here s else None) with
  | Some a => Some a
  | None => match s with
            | EmptyString => None
            | String c s => search_lines (Nat.eqb (ord c) 10) s
            end
  end.
End lines.

Definition skip_space : string → string := drop_while is_space.
Definition ends_line (s : string) : bool :=
  let rest := skip_space s in
  (rest =s? "") || contains LF (str_take (String.length s - String.length rest) s).
Definition after (prefix s : string) : option string :=
  if starts_with prefix s then Some (str_drop (String.length prefix) s) else None.
Fixpoint take_until (stop : ascii → bool) (s : string) : string * string :=
  match s with
  | EmptyString => ("", "")
  | String c s' => if stop c then ("", s) else let '(a, b) := take_until stop s' in (String c a, b)
  end.

(** [_BASE_URL], [_TIMESTAMP] and [_STATUS]: the captured text. *)
Definition base_url_at (s : string) : option string :=
  let? s := after "openai_base_url" (skip_space s) in
  let? s := after "=" (skip_space s) in
  let? s := after QUOTE (skip_space s) in
  let '(value, s) := take_until (λ c, one_of QUOTE c) s in
  let? s := after QUOTE s in
  if (value =s? "") || negb (ends_line s) then None else Some value.
Definition timestamp_at (s : string) : option string :=
  let? s := after "Timestamp:" s in
  let '(value, s) := take_until is_space (skip_space s) in
  if (value =s? "") || negb (ends_line s) then None else Some value.
Definition status_at (s : string) : option Z :=
  let? s := after "Status:" s in
  match skip_space s with
  | String a (String b (String c r)) =>
      if in_range 49 53 a && is_digit b && is_digit c && ends_line r
      then Some (digit_val a * 100 + digit_val b * 10 + digit_val c) else None
  | _ => None
  end.

Example found_in_lines :
  search_lines base_url_at true ("x = 1" +:+ LF +:+ "  openai_base_url = " +:+ QUOTE +:+ "http://a" +:+ QUOTE +:+ " ") = Some "http://a" ∧
  search_lines timestamp_at true ("a" +:+ LF +:+ "Timestamp:  2026-01-01T00:00:00Z" +:+ LF) = Some "2026-01-01T00:00:00Z" ∧
  map (search_lines status_at true) ["Status: 429"; "Status: 4290"; " Status: 429"; "Status: 429 x"] = [Some 429; None; None; None].
Proof. repeat split; reflexivity. Qed.

(** ** Reading *)

(** The checks the two readers share: a regular file within the limit, opened without
    following links. *)
Definition open_regular (p : path) (limit : Z) : M node :=
  let! metadata := lstat p in
  let! linked := is_symlink_p p in
  if linked || negb (is_reg metadata) || (limit <? node_size metadata) then oserror "unsafe or oversized file" else
  let! n := open_nofollow p in
  let! opened := fstat n in
  if negb (is_reg opened) || (limit <? node_size opened) then oserror "unsafe or oversized file" else ret n.

Definition read_regular (p : path) (limit : Z) : M string :=
  let! n := open_regular p limit in
  let! raw := read_node n in
  if limit <? str_len raw then oserror "oversized file" else ret raw.

Definition TAIL_CHUNK : Z := 16 * 1024.
(** The loop over the chunks from the end: [remaining] bytes may still be read before
    [position].  A chunk is of a byte at least, so [remaining] bounds the turns. *)
Fixpoint tail_loop (fuel : nat) (data : string) (remaining position : Z) (buffered : string) : string :=
  match fuel with
  | O => ""
  | S fuel =>
      if remaining <=? 0 then "" else
      let amount := Z.min TAIL_CHUNK remaining in
      let position := position - amount in
      let buffered := str_take (Z.to_nat amount) (str_drop (Z.to_nat position) data) +:+ buffered in
      match str_find API_RESPONSE buffered with
      | Some found => str_drop found buffered
      | None => tail_loop fuel data (remaining - amount) position buffered
      end
  end.
Definition response_tail (data : string) : string :=
  let remaining := Z.min (str_len data) MAX_LOG_TAIL_BYTES in
  tail_loop (S (Z.to_nat (remaining / TAIL_CHUNK + 1))) data remaining (str_len data) "".
Definition read_response_tail (p : path) : M string :=
  let! n := open_regular p MAX_LOG_FILE_BYTES in
  let! data := read_node n in ret (response_tail data).

(** ** The local gateway *)

Definition profile_key (home : path) : M string :=
  try_with
    (let! raw := read_regular (child home "auth.json") MAX_PROFILE_BYTES in
     let! auth := lift (loads_bytes raw) in
     ret (match auth with
          | JDict auth => strip (str_or_empty (py_or (dget "OPENAI_API_KEY" auth) (dget "api_key" auth)))
          | _ => ""
          end))
    (except [OSError; UnicodeDecodeError; JSONDecodeError] (λ _, ret "")).

Definition port_of_text (text : string) : res Z :=
  match search_lines base_url_at true text with
  | None => Ok 8317
  | Some value =>
      match urlsplit value with
      | None => raise ValueError "Invalid IPv6 URL"
      | Some u =>
          if (u_scheme u =s? "http") && match u_hostname u with Some h => mem h ["127.0.0.1"; "localhost"] | None => false end
          then match u_port u with
               | None => raise ValueError "Port could not be cast to integer value"
               | Some (Some port) => Ok (if port =? 0 then 80 else port)
               | Some None => Ok 80
               end
          else Ok 8317
      end
  end.
Definition profile_port (home : path) : M Z :=
  try_with
    (let! raw := read_regular (child home "config.toml") MAX_PROFILE_BYTES in
     let! text := lift (decode_res raw) in lift (port_of_text text))
    (except [OSError; UnicodeDecodeError; ValueError] (λ _, ret 8317)).
Definition profile_key_and_port (config : local_config) (account : string) : M (string * Z) :=
  let! home := lift (account_home config account) in
  let! key := profile_key home in
  let! port := profile_port home in ret (key, port).

Definition gateway_state (status : option Z) : string :=
  match status with
  | None => "unreachable"
  | Some z => if (200 <=? z) && (z <? 300) then "reachable"
              else if (z =? 401) || (z =? 403) then "authentication_failed"
              else if 500 <=? z then "server_failure" else "client_failure"
  end.
Definition gateway (state : string) (status : option Z) : dict :=
  [("state", JStr state); ("httpStatus", opt_int status)].
Definition probed_gateway (status : option Z) : dict := gateway (gateway_state status) status.
Definition gateway_cause (g : dict) : string :=
  let state := str_or_empty (dget "state" g) in
  if state =s? "authentication_failed" then CAUSE_GATEWAY_AUTHENTICATION
  else if state =s? "unreachable" then CAUSE_GATEWAY_UNREACHABLE
  else if mem state ["server_failure"; "client_failure"] then CAUSE_GATEWAY_FAILURE else "none".

(** ** The retained logs *)

(** [path.stat().st_mtime] as an instant, or now. *)
Definition log_instant (p : path) : M datetime :=
  let! modified := try_with (let! t := st_mtime p in ret (Some t)) (except [OSError] (λ _, ret None)) in
  match modified with
  | None => utc_now
  | Some t => match fromtimestamp t with
              | Some observed => ret observed
              | None => mraise ValueError "year is out of range"
              end
  end.

Definition parse_response (p : path) (text : string) : M (option dict) :=
  match split_once API_RESPONSE text with
  | None => ret None
  | Some (_, api_response) =>
      let '(body, section) := match split_once RESPONSE api_response with
                              | Some (body, section) => (body, section)
                              | None => (api_response, "")
                              end in
      let status := search_lines status_at true section in
      let! stated := match search_lines timestamp_at true api_response with
                     | Some t => lift (parse_timestamp (JStr t))
                     | None => ret None
                     end in
      let! observed := match stated with Some t => ret t | None => log_instant p end in
      let! failure := lift (classify_http_failure status body observed) in
      ret (Some (as_observation failure "gateway_error_log"))
  end.
Definition parse_log (p : path) : M (option dict) :=
  let! tail := try_with (let! raw := read_response_tail p in ret (Some raw)) (except [OSError] (λ _, ret None)) in
  match tail with
  | None => ret None
  | Some raw => parse_response p (utf8_replace raw)
  end.

Definition is_error_log (name : string) : bool :=
  starts_with "error-" name && ends_with ".log" name && Nat.leb 10 (String.length name).
(** Newest first, in the order of the listing when equal. *)
Definition error_logs (log_dir : path) : M (option (list path)) :=
  try_with
    (let! metadata := lstat log_dir in
     let! linked := is_symlink_p log_dir in
     if linked || negb (is_dirn metadata) then ret None else
     sys ;;
     let! f := get_fs in
     let! kept := mmap (λ name,
       let p := child log_dir name in
       let! regular := is_file_p p in
       let! linked := (if regular then is_symlink_p p else ret true) in
       ret (if linked then None else Some p)) (List.filter is_error_log (child_names f log_dir)) in
     let! keyed := mmap (λ p, let! t := st_mtime p in ret (t, p)) (omap id kept) in
     ret (Some (firstn MAX_LOG_FILES (map snd (sort_by (λ a b, negb (is_cmp cmp_lt (fcompare a.1 b.1))) keyed)))))
    (except [OSError] (λ _, ret None)).

(** An observation with its instant, in microseconds. *)
Definition observed_us (observation : dict) : res (option Z) :=
  let* t := parse_timestamp (dget "observedAt" observation) in Ok (option_map instant_us t).

Definition FIVE_MINUTES : Z := 5 * 60 * US.
(** The observations of the last hours; the sums raise out of the years. *)
Definition recent_observation (current cutoff : datetime) (p : path) : M (option (Z * dict)) :=
  let! observation := parse_log p in
  match observation with
  | None => ret None
  | Some observation =>
      let! observed := lift (observed_us observation) in
      match observed with
      | None => ret None
      | Some t =>
          if t <? instant_us cutoff then ret None else
          let! limit := lift (add_us current FIVE_MINUTES) in
          ret (if instant_us limit <? t then None else Some (t, observation))
      end
  end.

(** The loop over the earlier observations: the first definitive one within the window. *)
Fixpoint masked_cause (latest : Z) (l : list (Z * dict)) : option dict :=
  match l with
  | [] => None
  | (t, candidate) :: l =>
      if ROOT_CAUSE_WINDOW_SECONDS * US <? latest - t then None
      else if existsb (λ c, eq_str (dget "cause" candidate) c) DEFINITIVE_ACCOUNT_CAUSES
      then Some (dupdate candidate [("maskedBy", JStr CAUSE_NO_USABLE_ACCOUNTS)])
      else masked_cause latest l
  end.
Definition choose_observation (l : list (Z * dict)) : option dict :=
  match sort_by (λ a b, b.1 <=? a.1) l with
  | [] => None
  | (t, latest) :: rest =>
      if negb (eq_str (dget "cause" latest) CAUSE_NO_USABLE_ACCOUNTS) then Some latest
      else match masked_cause t rest with Some d => Some d | None => Some latest end
  end.

Definition recent_local_observation (log_dir : path) : M (option dict) :=
  let! current := utc_now in
  let! paths := error_logs log_dir in
  match paths with
  | None => ret None
  | Some paths =>
      let! cutoff := lift (add_us current (- (LOG_LOOKBACK_SECONDS * US))) in
      let! found := mmap (recent_observation current cutoff) paths in
      ret (choose_observation (omap id found))
  end.

(** ** The diagnosis *)

Definition is_json_int (v : json) : bool := match v with JInt _ | JBool _ => true | _ => false end.
Definition is_json_str (v : json) : bool := match v with JStr _ => true | _ => false end.
Definition keep_if (test : json → bool) (v : json) : json := if test v then v else JNull.
Definition str_or (v : json) (fallback : string) : string := py_str (py_or v (JStr fallback)).

Definition diagnosis_document (target status cause confidence : string) (g evidence : dict) : dict :=
  [("schema", JStr DIAGNOSIS_SCHEMA); ("target", JStr target); ("status", JStr status); ("cause", JStr cause);
   ("confidence", JStr confidence); ("gateway", JDict g); ("evidence", JDict evidence)].
Definition observed_diagnosis (target : string) (g observation : dict) : dict :=
  diagnosis_document target "failure_classified" (str_or (dget "cause" observation) CAUSE_UNKNOWN)
    (if truthy (dget "maskedBy" observation) then "inferred"
     else if truthy (dget "definitive" observation) then "exact" else "unknown") g
    [("source", JStr (str_or (dget "source" observation) "none"));
     ("httpStatus", keep_if is_json_int (dget "httpStatus" observation));
     ("signal", JStr (str_or (dget "signal" observation) "none"));
     ("observedAt", keep_if is_json_str (dget "observedAt" observation));
     ("retryAt", keep_if is_json_str (dget "retryAt" observation));
     ("maskedBy", keep_if (λ v, eq_str v CAUSE_NO_USABLE_ACCOUNTS) (dget "maskedBy" observation))].
Definition gateway_diagnosis (target : string) (g : dict) (now : string) : dict :=
  let cause := gateway_cause g in
  diagnosis_document target (if cause =s? "none" then "no_recent_failure" else "gateway_failure") cause
    (if cause =s? "none" then "unknown" else "exact") g
    [("source", JStr "gateway_probe"); ("httpStatus", keep_if is_json_int (dget "httpStatus" g));
     ("signal", JStr "none"); ("observedAt", JStr now); ("retryAt", JNull); ("maskedBy", JNull)].
Definition diagnosis (target : string) (g : dict) (observation : option dict) : M dict :=
  match observation with
  | Some observation => ret (observed_diagnosis target g observation)
  | None =>
      let! t := utc_now in
      let! now := lift (iso_utc t) in ret (gateway_diagnosis target g now)
  end.

Section diagnose.
Context (run_ssh : list string → option string → Z → M ssh_outcome).
Context (config : local_config) (environ : environment) (X : machine) (log_dir : path).
Context (models_status : Z → string → pyfloat → M (option Z)).

Definition diagnose_local (account : string) : M dict :=
  let! (key, port) := profile_key_and_port config account in
  let! g := (if key =s? "" then ret (gateway "authentication_failed" None)
             else let! status := probe_endpoint config models_status port key in ret (probed_gateway status)) in
  let! observation := recent_local_observation log_dir in
  diagnosis "local_api" g observation.

Definition last_failure (status : dict) : option dict :=
  match dget "lastApiFailure" status with JDict d => Some d | _ => None end.
(** An observation that was made before the probe failed is kept. *)
Definition diagnose_cloud : M dict :=
  let! before := client_status config X in
  let observation := last_failure before in
  let! endpoint := try_with (let! e := resolve_endpoint run_ssh config in ret (Some e))
    (except [OSError; RuntimeError; ValueError] (λ _, ret None)) in
  let! probed :=
    match endpoint with
    | None => ret (None, observation)
    | Some endpoint =>
        let! l := try_with (let! l := acquire_lease config environ X (lc_ssh_host config)
                                        (re_forward_host endpoint) (re_forward_port endpoint) in ret (Some l))
          (except [OSError; RuntimeError; ValueError] (λ _, ret None)) in
        match l with
        | None => ret (None, observation)
        | Some l =>
            try_with
              (finally
                 (let! status := probe_endpoint config models_status (tl_port l) (re_api_key endpoint) in
                  let! refreshed := client_status config X in
                  ret (status, match observation with Some d => Some d | None => last_failure refreshed end))
                 (release_lease config X l))
              (except [OSError; RuntimeError; ValueError] (λ _, ret (None, observation)))
        end
    end in
  diagnosis "cloud_gateway" (probed_gateway probed.1) probed.2.

(** The target of [diagnose]: forced by the command, given, or taken from the active mode. *)
Definition diagnosis_target (forced given : option string) : M string :=
  match forced, given with
  | Some forced, Some _ => mraise RuntimeError (forced +:+ " diagnose does not accept another target")
  | Some target, None | None, Some target => ret target
  | None, None =>
      let mode := strip (default "" (env_get environ "CLOUDX_MODE")) in
      let active := strip (default "" (env_get environ "CODEXX_ACTIVE_ACCOUNT")) in
      if (mode =s? "cloud") || (active =s? "cloud") then ret "cloud"
      else if (mode =s? "api") || mem active ["api"; "cpa"] then ret (if mem active ["api"; "cpa"] then active else "api")
      else mraise RuntimeError "diagnose requires an active api/cloud mode or an explicit api, cpa, or cloud target"
  end.
Definition run_diagnosis (forced given : option string) : M dict :=
  let! target := diagnosis_target forced given in
  if target =s? "cloud" then diagnose_cloud else diagnose_local target.
End diagnose.

(** ** What is printed *)

Definition CAUSE_LABELS : list (string * string) :=
  [(CAUSE_ACCOUNT_DEACTIVATED, "account deactivated");
   (CAUSE_QUOTA_EXHAUSTED, "quota exhausted");
   (CAUSE_RATE_LIMITED, "temporarily rate limited");
   (CAUSE_LOGIN_REQUIRED, "login required");
   (CAUSE_ACCESS_DENIED, "access or model permission denied");
   (CAUSE_NO_USABLE_ACCOUNTS, "no usable accounts");
   (CAUSE_GATEWAY_AUTHENTICATION, "gateway authentication failed");
   (CAUSE_GATEWAY_UNREACHABLE, "gateway unreachable");
   (CAUSE_GATEWAY_FAILURE, "gateway failure");
   (CAUSE_UPSTREAM_FAILURE, "upstream provider failure");
   (CAUSE_UNKNOWN, "undetermined");
   ("none", "none")].
Definition MEANINGS : list (string * string) :=
  [(CAUSE_ACCOUNT_DEACTIVATED, "The upstream response explicitly says the account is deactivated or suspended; this is not a " +:+
     "quota or token-expiry diagnosis.");
   (CAUSE_QUOTA_EXHAUSTED, "The account usage allowance or credit window is exhausted; the evidence does not indicate " +:+
     "account deactivation or an invalid login token.");
   (CAUSE_RATE_LIMITED, "The provider is temporarily limiting request or token rate; this is distinct from a depleted " +:+
     "usage allowance.");
   (CAUSE_LOGIN_REQUIRED, "The access or refresh credential is invalid, expired, revoked, or already used; this is not " +:+
     "evidence that quota is exhausted.");
   (CAUSE_ACCESS_DENIED, "The credential lacks permission for the requested model, project, or organization; a generic " +:+
     "403 is not treated as account deactivation.");
   (CAUSE_NO_USABLE_ACCOUNTS, "The gateway has no currently selectable account, but it did not preserve a more specific " +:+
     "upstream reason.");
   (CAUSE_GATEWAY_AUTHENTICATION, "The client credential presented to the gateway was rejected.");
   (CAUSE_GATEWAY_UNREACHABLE, "No HTTP response was received from the selected gateway.");
   (CAUSE_GATEWAY_FAILURE, "The gateway returned a server-side failure before a usable upstream result.");
   (CAUSE_UPSTREAM_FAILURE, "The upstream provider returned a server-side failure without an account-specific cause.");
   (CAUSE_UNKNOWN, "Available evidence cannot safely distinguish deactivation, quota, login, permission, or " +:+
     "provider failure.");
   ("none", "The gateway probe is reachable, but a model-list check alone does not prove that an upstream " +:+
     "account has remaining quota.")].
Definition NEXT_STEPS : list (string * string) :=
  [(CAUSE_ACCOUNT_DEACTIVATED, "Replace the credential or use the provider appeal/support path; re-login or waiting for quota " +:+
     "reset will not resolve an explicit deactivation.");
   (CAUSE_QUOTA_EXHAUSTED, "Wait until the reported reset time or use an account with remaining allowance.");
   (CAUSE_RATE_LIMITED, "Retry with bounded backoff or reduce request concurrency and token rate.");
   (CAUSE_LOGIN_REQUIRED, "Re-authenticate the affected upstream account and replace the stale credential.");
   (CAUSE_ACCESS_DENIED, "Check model entitlement, organization/project membership, and the requested model.");
   (CAUSE_NO_USABLE_ACCOUNTS, "Inspect credential health; do not assume quota exhaustion or deactivation without a definitive " +:+
     "upstream signal.");
   (CAUSE_GATEWAY_AUTHENTICATION, "Verify the scoped local gateway key without exposing or rotating it as part of diagnosis.");
   (CAUSE_GATEWAY_UNREACHABLE, "Check the local service or cloud tunnel/network path; diagnosis does not restart either one.");
   (CAUSE_GATEWAY_FAILURE, "Inspect the external gateway health and retained error evidence; diagnosis does not restart " +:+
     "the gateway.");
   (CAUSE_UPSTREAM_FAILURE, "Retry with bounded backoff; if it persists, inspect provider and gateway health without " +:+
     "changing credentials.");
   (CAUSE_UNKNOWN, "Retry once, then run diagnosis immediately after the failure so the structured upstream " +:+
     "evidence is still available.");
   ("none", "Run this command immediately after a failed Codex turn to classify the retained response " +:+
     "evidence.")].

(** [TABLE.get(cause, fallback)]. *)
Fixpoint text_of (table : list (string * string)) (key fallback : string) : string :=
  match table with [] => fallback | (k, v) :: table => if k =s? key then v else text_of table key fallback end.

Definition printed_line (label value : string) : string := "  " +:+ label +:+ ": " +:+ value +:+ LF.
Definition printed_if (v : json) (label : string) : string := if truthy v then printed_line label (py_str v) else "".
(** [" (HTTP %d)" % status], for a whole number that passes the test; [True] is 1. *)
Definition http_note (test : Z → bool) (v : json) : string :=
  match v with
  | JInt z => if test z then " (HTTP " +:+ str_of_Z z +:+ ")" else ""
  | JBool b => if test (if b then 1 else 0) then " (HTTP " +:+ (if b then "1" else "0") +:+ ")" else ""
  | _ => ""
  end.
Definition render_diagnosis (document : dict) : string :=
  let cause := str_or (dget "cause" document) CAUSE_UNKNOWN in
  let evidence := dict_or_empty (dget "evidence" document) in
  let g := dict_or_empty (dget "gateway" document) in
  let signal := dget "signal" evidence in
  "API diagnosis" +:+ LF +:+
  printed_line "Target" (if eq_str (dget "target" document) "local_api" then "local API" else "cloud gateway") +:+
  printed_line "Result" (text_of
    [("failure_classified", "failure classified"); ("gateway_failure", "gateway failure classified");
     ("no_recent_failure", "no recent failure evidence")] (str_or_empty (dget "status" document)) "unknown") +:+
  printed_line "Cause" (text_of CAUSE_LABELS cause "undetermined") +:+
  printed_line "Confidence" (match dlookup "confidence" document with Some v => py_str v | None => "unknown" end) +:+
  printed_line "Gateway" (replace_char "_" " " (str_or (dget "state" g) "unknown") +:+
                          http_note (λ _, true) (dget "httpStatus" g)) +:+
  (if negb (bool_decide (signal = JNull)) && negb (eq_str signal "none")
   then printed_line "Upstream signal" (py_str signal +:+ http_note (λ z, 400 <=? z) (dget "httpStatus" evidence)) else "") +:+
  (if eq_str (dget "maskedBy" evidence) CAUSE_NO_USABLE_ACCOUNTS
   then printed_line "Later response" "no usable accounts (the earlier definitive cause was retained)" else "") +:+
  printed_if (dget "observedAt" evidence) "Observed" +:+
  printed_if (dget "retryAt" evidence) "Retry after" +:+
  printed_line "Meaning" (text_of MEANINGS cause (text_of MEANINGS CAUSE_UNKNOWN "")) +:+
  printed_line "Next step" (text_of NEXT_STEPS cause (text_of NEXT_STEPS CAUSE_UNKNOWN "")).

(** [run]: what it prints. *)
Definition diagnosis_text (json_output : bool) (document : dict) : string :=
  if json_output then dumps (st_pretty 2 true true) (JDict document) +:+ LF else render_diagnosis document.

(** * What a diagnosis rests on

    The end of a log is searched without reading all of it, and finds what the whole end
    holds; an observation that is reported is a recent one. *)

(** ** The search from the end *)

Lemma find_spec sub s i :
  str_find sub s = Some i → String.prefix sub (str_drop i s) = true ∧ (i <= String.length s)%nat.
Proof.
  unfold str_find. assert (H : ∀ j, find_from j sub s = Some i →
    ∃ k, i = (j + k)%nat ∧ String.prefix sub (str_drop k s) = true ∧ (k <= String.length s)%nat).
  { induction s as [|c s IH]; intros j; cbn [find_from].
    - destruct (String.prefix sub "") eqn:E; [|done]. intros [= <-]. exists 0%nat. split_and!; [lia|done|simpl; lia].
    - destruct (String.prefix sub (String c s)) eqn:E.
      + intros [= <-]. exists 0%nat. split_and!; [lia|done|lia].
      + intros (k & -> & Hk & Hl)%IH. exists (S k). split_and!; [lia|done|simpl; lia]. }
  intros (k & -> & Hk & Hl)%H. done.
Qed.
Lemma find_contains sub s : contains sub s = match str_find sub s with Some _ => true | None => false end.
Proof. done. Qed.

Lemma take_drop n s : str_take n s +:+ str_drop n s = s.
Proof. revert s. induction n as [|n IH]; intros [|c s]; try done.
  change (String c (str_take n s +:+ str_drop n s) = String c s). by rewrite IH.
Qed.
(** A chunk and what follows it. *)
Lemma chunk_then n i s : str_take n (str_drop i s) +:+ str_drop (i + n) s = str_drop i s.
Proof. rewrite <- str_drop_drop. apply take_drop. Qed.

Section tail.
Context (data : string).
Abbreviation len := (str_len data).

(** What a search of the part of the data from [start] on is to give. *)
Definition found_in (start : Z) (r : string) : Prop :=
  match contains API_RESPONSE (str_drop (Z.to_nat start) data) with
  | false => r = ""
  | true => starts_with API_RESPONSE r = true ∧ ∃ i, start <= i ∧ r = str_drop (Z.to_nat i) data
  end.

Lemma tail_loop_spec fuel remaining position :
  0 <= remaining → remaining <= position → position <= len →
  contains API_RESPONSE (str_drop (Z.to_nat position) data) = false →
  remaining <= Z.of_nat fuel * TAIL_CHUNK →
  found_in (position - remaining) (tail_loop fuel data remaining position (str_drop (Z.to_nat position) data)).
Proof using Type.
  revert remaining position. induction fuel as [|fuel IH]; intros remaining position H0 Hr Hp Hno Hf.
  { unfold found_in. replace (position - remaining) with position by lia. by rewrite Hno. }
  cbn [tail_loop]. destruct (Z.leb_spec remaining 0) as [Hz|Hz].
  { unfold found_in. replace (position - remaining) with position by lia. by rewrite Hno. }
  set (amount := Z.min TAIL_CHUNK remaining). assert (Ha : 0 < amount <= remaining) by (unfold amount, TAIL_CHUNK; lia).
  replace (str_take (Z.to_nat amount) (str_drop (Z.to_nat (position - amount)) data) +:+ str_drop (Z.to_nat position) data)
    with (str_drop (Z.to_nat (position - amount)) data).
  2: { symmetry. etrans; [|apply (chunk_then (Z.to_nat amount))].
       by replace (Z.to_nat (position - amount) + Z.to_nat amount)%nat with (Z.to_nat position) by lia. }
  destruct (str_find API_RESPONSE _) as [i|] eqn:Hi.
  - apply find_spec in Hi as [Hi _]. unfold found_in. rewrite str_drop_drop in *.
    assert (Hc : contains API_RESPONSE (str_drop (Z.to_nat (position - remaining)) data) = true).
    { rewrite <- (chunk_then (Z.to_nat (position - amount) + i - Z.to_nat (position - remaining))).
      apply contains_app_r, find_from_prefix.
      replace (Z.to_nat (position - remaining) + (Z.to_nat (position - amount) + i - Z.to_nat (position - remaining)))%nat
        with (Z.to_nat (position - amount) + i)%nat by lia. done. }
    rewrite Hc. split; [done|]. exists (position - amount + Z.of_nat i). split; [lia|]. f_equal. lia.
  - replace (position - remaining) with ((position - amount) - (remaining - amount)) by lia.
    apply IH; [lia|lia|lia|by rewrite find_contains, Hi|]. unfold amount, TAIL_CHUNK in *. lia.
Qed.
End tail.


(** ** The observation of the logs *)

Definition timely (now : Z) (e : Z * dict) : Prop :=
  observed_us e.2 = Ok (Some e.1) ∧ now - LOG_LOOKBACK_SECONDS * US <= e.1 <= now + FIVE_MINUTES.

Lemma add_us_instant t d u : add_us t d = Ok u → instant_us u = instant_us t + d.
Proof. unfold add_us. destruct (valid_wall _); [|done]. intros [= <-]. unfold instant_us. simpl. lia. Qed.

Lemma wp_recent_observation current cutoff p E w :
  add_us current (- (LOG_LOOKBACK_SECONDS * US)) = Ok cutoff →
  wp (recent_observation current cutoff p) E w (λ r _, ∀ o, r = Ok o → ∀ e, o = Some e → timely (instant_us current) e).
Proof.
  intros Hc%add_us_instant. unfold recent_observation. apply wp_bind. unfold wp at 1.
  destruct (parse_log p E w) as [[[d|]|e] w1]; cbn [fst snd]; [|by apply wp_ret; intros o [= <-]|done].
  apply wp_bind, wp_lift. destruct (observed_us d) as [[t|]|] eqn:Ht; [|by apply wp_ret; intros o [= <-]|done].
  destruct (Z.ltb_spec t (instant_us cutoff)); [by apply wp_ret; intros o [= <-]|].
  apply wp_bind, wp_lift. destruct (add_us current FIVE_MINUTES) as [limit|] eqn:Hl; [|done].
  apply add_us_instant in Hl. apply wp_ret. destruct (Z.ltb_spec (instant_us limit) t); intros o [= <-] e [= <-].
  split; [done|]. simpl. lia.
Qed.

Definition definitive (d : dict) : Prop := ∃ c, In c DEFINITIVE_ACCOUNT_CAUSES ∧ eq_str (dget "cause" d) c = true.
(** The observation [d] is one of [l]: the newest, or an earlier definitive one that an answer
    without usable accounts hides. *)
Definition chosen (l : list (Z * dict)) (d : dict) : Prop :=
  (∃ t, In (t, d) l ∧ ∀ e, In e l → e.1 <= t) ∨
  (∃ t d0 t1 d1, In (t, d0) l ∧ In (t1, d1) l ∧ d = dupdate d0 [("maskedBy", JStr CAUSE_NO_USABLE_ACCOUNTS)] ∧
     definitive d0 ∧ eq_str (dget "cause" d1) CAUSE_NO_USABLE_ACCOUNTS = true ∧
     t1 - ROOT_CAUSE_WINDOW_SECONDS * US <= t <= t1 ∧ ∀ e, In e l → e.1 <= t1).

Lemma masked_cause_spec latest l d :
  masked_cause latest l = Some d →
  ∃ t d0, In (t, d0) l ∧ d = dupdate d0 [("maskedBy", JStr CAUSE_NO_USABLE_ACCOUNTS)] ∧ definitive d0 ∧
    latest - ROOT_CAUSE_WINDOW_SECONDS * US <= t.
Proof.
  induction l as [|[t c] l IH]; [done|]. cbn [masked_cause].
  destruct (Z.ltb_spec (ROOT_CAUSE_WINDOW_SECONDS * US) (latest - t)); [done|].
  destruct (existsb _ _) eqn:Hx.
  - intros [= <-]. exists t, c. split_and!; [by left|done| |lia]. by apply existsb_exists in Hx.
  - intros (t' & d0 & Hin & Hrest)%IH. exists t', d0. split; [by right|done].
Qed.

Lemma choose_observation_spec l d : choose_observation l = Some d → chosen l d.
Proof.
  unfold choose_observation. set (leb := λ a b : Z * dict, b.1 <=? a.1).
  assert (Htot : ∀ x y, leb x y = false → leb y x = true) by (intros x y; unfold leb; rewrite Z.leb_gt, Z.leb_le; lia).
  assert (Htr : ∀ x y z, leb x y = true → leb y z = true → leb x z = true) by (intros x y z; unfold leb; rewrite !Z.leb_le; lia).
  pose proof (sort_by_sorted leb Htot l) as Hs. pose proof (sort_by_In leb) as Hin.
  destruct (sort_by leb l) as [|[t latest] rest] eqn:E; [done|].
  assert (Hmem : ∀ e, In e ((t, latest) :: rest) ↔ In e l) by (intros e; rewrite <- E; apply Hin).
  assert (Hmax : ∀ e, In e l → e.1 <= t).
  { intros e He%Hmem. destruct He as [<-|He]; [done|].
    apply Sorted_StronglySorted in Hs; [|intros x y z; apply Htr].
    inversion Hs as [|? ? _ Hall]; subst. rewrite List.Forall_forall in Hall. specialize (Hall e He).
    unfold leb in Hall. apply Z.leb_le in Hall. done. }
  destruct (negb (eq_str (dget "cause" latest) CAUSE_NO_USABLE_ACCOUNTS)) eqn:Hc.
  - intros [= <-]. left. exists t. split; [apply Hmem; by left|done].
  - apply negb_false_iff in Hc. destruct (masked_cause t rest) as [m|] eqn:Hm; intros [= <-].
    + apply masked_cause_spec in Hm as (t0 & d0 & H0 & -> & Hd & Hw). right. exists t0, d0, t, latest.
      assert (In (t0, d0) l) by (apply Hmem; by right).
      split_and!; try done; [apply Hmem; by left|by apply (Hmax (t0, d0))].
    + left. exists t. split; [apply Hmem; by left|done].
Qed.

Lemma In_omap {A} (l : list (option A)) a : In a (omap id l) → In (Some a) l.
Proof. induction l as [|[x|] l IH]; simpl; [done| |]; intuition congruence. Qed.


(** ** A witness: a quota failure that a later answer hides *)

Definition log_text (time body : string) : string :=
  "request" +:+ LF +:+ API_RESPONSE +:+ LF +:+ "Timestamp: " +:+ time +:+ LF +:+ body +:+ LF +:+ RESPONSE +:+ LF +:+
  "Status: 429" +:+ LF.
Definition error_body (type : string) : string :=
  "{" +:+ QUOTE +:+ "error" +:+ QUOTE +:+ ": {" +:+ QUOTE +:+ "type" +:+ QUOTE +:+ ": " +:+ QUOTE +:+ type +:+ QUOTE +:+ "}}".
Definition log_files : fs :=
  list_to_map
    [(path_of "/logs", Dir 493);
     (path_of "/logs/error-1.log", File (log_text "1970-01-01T00:00:00Z" (error_body "usage_limit_reached")) 420);
     (path_of "/logs/error-2.log", File (log_text "1970-01-01T00:01:00Z" (error_body "auth_unavailable")) 420);
     (path_of "/logs/main.log", File "x" 420)].
Definition log_env : env :=
  Env (λ _, false) (λ _, "t") (λ _, 120 * US) (λ _ _, FFin false 0 0) (λ _ _, false) (λ _, 0).

