(* ===== verification/CloudConfig.v ===== *)
(** * The cloud component's configuration ([cloud/cloudx_cloud/config.py])

    The fields that the health observation reads are [Health.Config]; the others are here.
    [environ] is the environment of the process, [expanduser] is [Path.expanduser]. *)

From S2P Require Import Prelude PyStr PyFloat PyValue PyRe PyTime PyJson FS PublicMetadata.
From S2P Require Import AccountState Gateway Health PySha CpaRecords CpaAuth PyUrl LocalConfig.
From S2P Require Import Capabilities LocalSettings.

Record cloud_config := CloudConfig {
  cc_base : Config; cc_gateway_version : string; cc_forward_host : string; cc_forward_port : Z;
  cc_deployment_id : string; cc_build_commit : string;
  cc_binary : option path; cc_capability_manifest : option path }.

Section from_environment.
Context (environ : environment) (expanduser : path → path).
Definition cloud_path (name fallback : string) : path := expanduser (path_of (default fallback (env_get environ name))).
Definition cloud_text (name fallback : string) : string := default fallback (env_get environ name).

(** [Config.from_environment]; [int()] of the port raises. *)
Definition from_environment : res cloud_config :=
  let* port := py_int (JStr (cloud_text "CLOUDX_GATEWAY_FORWARD_PORT" "8317")) in
  Ok {|
    cc_base := MkConfig
      (cloud_path "CLOUDX_AUTH_DIR" "/var/lib/cloudx/shadow-auth")
      (cloud_path "CLOUDX_IMPORT_LOCK" "/run/cloudx-shadow/import.lock")
      (cloud_path "CLOUDX_HEALTH_PATH" "/run/cloudx-shadow/health.json")
      (cloud_path "CLOUDX_ACCOUNT_STATE_PATH" "/run/cloudx-shadow/accounts.json")
      (cloud_path "CLOUDX_ACCOUNT_STATE_SOURCE" "/var/lib/codex-quota-monitor/state.json")
      (rstrip_slash (cloud_text "CLOUDX_GATEWAY_URL" "http://127.0.0.1:8317"))
      (cloud_path "CLOUDX_CLIENT_CREDENTIAL_FILE" "/etc/cloudx/client-credential");
    cc_gateway_version := cloud_text "CLOUDX_GATEWAY_VERSION" "external";
    cc_forward_host := cloud_text "CLOUDX_GATEWAY_FORWARD_HOST" "127.0.0.1";
    cc_forward_port := port;
    cc_deployment_id := cloud_text "CLOUDX_DEPLOYMENT_ID" "shadow";
    cc_build_commit := cloud_text "CLOUDX_BUILD_COMMIT" "development";
    cc_binary := match env_get environ "CLOUDX_CPA_BINARY" with
                 | Some s => if s =s? "" then None else Some (expanduser (path_of s)) | None => None end;
    cc_capability_manifest := Some (cloud_path "CLOUDX_CPA_CAPABILITY_MANIFEST" "/etc/cloudx/cloud-cpa-capabilities.json") |}.
End from_environment.

(** * Attested capabilities of the cloud gateway ([cloud/cloudx_cloud/cpa_capabilities.py])

    The same checks as on the desktop ([Capabilities], whose helpers have the same text), with
    the cloud's schema, configuration and probe address.  [opener] stands for the HTTP client,
    [expanduser] for [Path.expanduser]. *)

Definition CLOUD_CAPABILITIES_SCHEMA : string := "cloudx.cloud-cpa-capabilities.v1".

Section attest.
Context (expanduser : path → path) (opener : string → M (Z * json)).

Definition cloud_manifest (config : cloud_config) : M dict :=
  match cc_capability_manifest config with
  | None => capability_error "manifest_missing"
  | Some configured =>
      let! raw := safe_regular_bytes (expanduser configured) CAP_MAX_MANIFEST_BYTES "manifest_unavailable" in
      match loads_bytes raw with
      | Ok (JDict document) =>
          if eq_str (dget "schema" document) CLOUD_CAPABILITIES_SCHEMA then ret document
          else capability_error "manifest_invalid"
      | _ => capability_error "manifest_invalid"
      end
  end.

Definition cloud_binary (config : cloud_config) (document : dict) : M string :=
  let manifest_binary := bounded_text (dget "binary" document) 1024 in
  if manifest_binary =s? "" then capability_error "binary_unbound" else
  let declared := expanduser (path_of manifest_binary) in
  let p := match cc_binary config with Some configured => expanduser configured | None => declared end in
  if negb p.1 || negb declared.1 then capability_error "binary_unbound" else
  let! a := resolve_lax p in
  let! b := resolve_lax declared in
  if negb (bool_decide (a = b)) then capability_error "binary_unbound" else
  let! raw := safe_regular_bytes p MAX_BINARY_BYTES "binary_unavailable" in
  let! info := on_oserror (lstat p) "binary_unavailable" in
  if Z.land (node_mode info) 64 =? 0 then capability_error "binary_unavailable"
  else ret (sha256 raw).

(** Any host is probed, unlike on the desktop; [None] is the refusal [probe_invalid]. *)
Definition cloud_probe_url (config : cloud_config) : option string :=
  let value := rstrip_slash (gateway_url (cc_base config)) +:+ "/healthz" in
  let? u := urlsplit value in
  let? port := u_port u in
  if negb (u_scheme u =s? "http") ||
     (match u_hostname u with Some _ => false | None => true end) ||
     negb (match port with Some _ => true | None => false end) ||
     (match u_username u with Some _ => true | None => false end) ||
     (match u_password u with Some _ => true | None => false end) ||
     negb (u_path u =s? "/healthz") || (u_query u <>s? "") || (u_fragment u <>s? "")
  then None else Some value.

Definition cloud_live (config : cloud_config) : M (list string) :=
  match cloud_probe_url config with
  | None => capability_error "probe_invalid"
  | Some address =>
      let! (status_code, value) := try_with (opener address)
        (except [OSError; ValueError] (λ _, capability_error "probe_unavailable")) in
      match value with
      | JStr value =>
          if negb (status_code =? 200) then capability_error "probe_rejected"
          else ret (named_capabilities value)
      | _ => capability_error "probe_rejected"
      end
  end.

Definition cloud_attest (config : cloud_config) (required : string) : M attestation :=
  let capability := casefold (strip required) in
  if negb (is_capability capability) then capability_error "capability_invalid" else
  let! document := cloud_manifest config in
  let! actual_digest := cloud_binary config document in
  let expected_digest := casefold (bounded_text (dget "binarySha256" document) 64) in
  let runtime_version := bounded_text (dget "runtimeVersion" document) 128 in
  let! declared := declared_capabilities document in
  if negb (is_sha256_text expected_digest) || (actual_digest <>s? expected_digest)
  then capability_error "binary_digest_mismatch"
  else if (runtime_version =s? "") || negb (mem capability declared)
  then capability_error "capability_missing"
  else
    let! live := cloud_live config in
    if negb (mem capability live) then capability_error "live_capability_missing"
    else ret (Attestation runtime_version actual_digest declared).

(** [check]: the reason of the refusal, or nothing. *)
Definition cloud_check (config : cloud_config) (required : string) : M string :=
  try_with (let! _ := cloud_attest config required in ret "")
    (except [CpaCapabilityError] (λ e, ret (exn_msg e))).
End attest.

(** * The packaged documents ([cloud/cloudx_cloud/consumer_credential.py], [consumer_traffic.py],
    [compatibility_profile.py], [systemd_templates.py], [compatibility_scripts.py])

    Documents that the package carries are printed only when their digest is the pinned one and
    they are fit for the public.  [resource] is the data of the package, by its name. *)

Section contracts.
Context (resource : string → option string).
Definition contract_error {A} (msg : string) : res A := raise RuntimeError msg.

(** What the three readers share: the words of their messages, the resource, the schema and
    the digest differ. *)
Definition read_contract (words name schema digest : string) : res json :=
  match resource name with
  | None => contract_error (words +:+ " is missing")
  | Some raw =>
      if sha256 raw <>s? digest then contract_error (words +:+ " digest is invalid") else
      match loads_bytes raw with
      | Ok (JDict document) =>
          if eq_str (dget "schema" document) schema then validate_public_document (JDict document)
          else contract_error (words +:+ " schema is unsupported")
      | Ok _ => contract_error (words +:+ " schema is unsupported")
      | Raise _ => contract_error (words +:+ " is invalid")
      end
  end.

Definition CREDENTIAL_RESOURCE : string := "data/contracts/phi-cloud-consumer-credential.v1.json".
Definition credential_policy : res json :=
  read_contract "Phi cloud consumer credential policy" CREDENTIAL_RESOURCE "cloudx.phi-cloud-consumer-credential.v1"
    "bfe39440d0296ef5b4a3d7bb674fac632badfb869fee0fc8fc101f7447cc1d5b".
Definition TRAFFIC_RESOURCE : string := "data/contracts/phi-cloud-consumer-traffic-policy.v1.json".
Definition traffic_policy : res json :=
  read_contract "Phi cloud consumer traffic policy" TRAFFIC_RESOURCE "cloudx.phi-cloud-consumer-traffic-policy.v1"
    "128dde9f5b76375d1d72f1542a33d76f53ff5a2361fcc065a4dff367f9f1790a".
Definition PROFILE_RESOURCE : string := "data/contracts/phi-mesh-compatibility-profile.v1.json".
Definition compatibility_profile : res json :=
  read_contract "Phi Mesh compatibility profile" PROFILE_RESOURCE "cloudx.phi-mesh-compatibility-profile.v1"
    "e5877a7f2588198b82bfc6dc55dfd18c851a77487c59ab67fad6629a56dca2c3".

Definition TEMPLATES : list string :=
  ["cloudx-account-state.service"; "cloudx-account-state.timer"; "cloudx-cpa-failure.path";
   "cloudx-cpa-failure.service"; "cloudx-cpa-health.service"; "cloudx-cpa-health.timer"; "cloudx-cpa-sweep.path";
   "cloudx-cpa-sweep.service"; "cloudx-health.service"; "cloudx-health.timer";
   "cloudx-legacy-health-bridge.env.example"; "cloudx-legacy-health-bridge-canary.service";
   "cloudx-legacy-health-bridge.service"; "cloudx-legacy-health-bridge.timer"].
Definition SCRIPTS : list string := ["codex-gateway-import"].

(** [read_template] and [read_compatibility_script]. *)
Definition read_named (names : list string) (unknown lacking directory name : string) : res string :=
  if negb (mem name names) then raise ValueError unknown else
  match resource (directory +:+ name) with
  | Some data => if data =s? "" then contract_error lacking else decode_res data
  | None => contract_error lacking
  end.
Definition read_template : string → res string :=
  read_named TEMPLATES "unknown Cloudx systemd template" "Cloudx systemd template is missing" "data/systemd/".
Definition read_compatibility_script : string → res string :=
  read_named SCRIPTS "unknown Cloudx compatibility script" "Cloudx compatibility script is missing" "data/compat/".
End contracts.

(** ** The documents of the package

    Single quotes stand for the double quotes of the files. *)

Definition shipped (s : string) : string := replace_char "'" (ascii_of_nat 34) s.
Definition CREDENTIAL_DATA : string := shipped "{
  'schema': 'cloudx.phi-cloud-consumer-credential.v1',
  'consumer': 'phi_cloud',
  'credentialKind': 'gateway_bearer',
  'audience': 'cloudx_gateway',
  'purpose': 'provider_inference',
  'representation': {
    'principal': 'phi_cloud_service',
    'device': false,
    'task': false,
    'session': false
  },
  'scope': {
    'allowedOperations': [
      'gateway_inference'
    ],
    'deniedOperations': [
      'account_import',
      'cloudx_remote_admin',
      'gateway_configuration_mutation',
      'release_activation',
      'release_rollback',
      'release_staging',
      'device_identity_assertion'
    ]
  },
  'enforcement': {
    'gatewayBasePath': '/v1',
    'sshLogin': false,
    'cloudxRemote': false,
    'cloudxAuthRead': false,
    'cloudxReleaseRead': false
  },
  'storage': {
    'secretPath': '/etc/cloudx/consumers/phi-cloud/credential',
    'owner': 'root',
    'group': 'phi-cloudx-consumer',
    'mode': '0640',
    'repositoryAllowed': false,
    'releaseDirectoryAllowed': false
  },
  'lifecycle': {
    'revocable': true,
    'rotatable': true,
    'overlapDuringRotation': true,
    'rotationOrder': [
      'install_new_gateway_key',
      'write_new_consumer_secret',
      'canary_new_credential',
      'revoke_previous_gateway_key'
    ],
    'revocationOrder': [
      'disable_phi_consumer',
      'revoke_gateway_key',
      'remove_consumer_secret'
    ],
    'rollbackBeforePreviousRevocation': true,
    'operatorConfirmationRequired': true
  },
  'authorization': {
    'policyContainsSecret': false,
    'installAuthorized': false,
    'rotationAuthorized': false,
    'revocationAuthorized': false,
    'serviceRestartAuthorized': false
  }
}
".
Definition TRAFFIC_DATA : string := shipped "{
  'schema': 'cloudx.phi-cloud-consumer-traffic-policy.v1',
  'consumer': 'phi_cloud',
  'admission': {
    'unit': 'logical_gateway_request',
    'scope': 'single_consumer_global',
    'partitioning': 'none',
    'priority': 'fifo'
  },
  'limits': {
    'maxInFlight': 4,
    'maxQueueDepth': 16,
    'sustainedAttemptsPerMinute': 30,
    'burstAttempts': 4,
    'everyAttemptConsumesRateBudget': true,
    'retryKeepsInFlightSlot': true
  },
  'queue': {
    'discipline': 'fifo',
    'admissionTimeoutMilliseconds': 30000,
    'fullBehavior': 'reject_without_gateway_attempt',
    'timeoutBehavior': 'reject_without_gateway_attempt'
  },
  'timeouts': {
    'connectMilliseconds': 5000,
    'responseHeaderMilliseconds': 30000,
    'streamIdleMilliseconds': 60000,
    'overallMilliseconds': 300000
  },
  'retry': {
    'maxAttempts': 3,
    'backoffBaseMilliseconds': 500,
    'backoffMaxMilliseconds': 5000,
    'jitter': 'full',
    'retryAfterMaxMilliseconds': 30000,
    'retryAfterAboveCapBehavior': 'fail',
    'retryableTransportFailures': [
      'connect_timeout',
      'connection_reset',
      'temporary_dns_failure',
      'tls_handshake_timeout'
    ],
    'retryableHttpStatuses': [
      408,
      429,
      500,
      502,
      503,
      504
    ],
    'neverRetryAfterResponseBytes': true
  },
  'outcomes': {
    'queueFull': 'consumer_queue_full',
    'queueTimeout': 'consumer_queue_timeout',
    'rateLimited': 'consumer_rate_limited',
    'requestTimeout': 'consumer_request_timeout',
    'retryExhausted': 'consumer_retry_exhausted'
  },
  'authorization': {
    'policyReadOnly': true,
    'policyInstallsEnforcement': false,
    'policyMutatesGateway': false
  }
}
".
Definition PROFILE_DATA : string := shipped "{
  'schema': 'cloudx.phi-mesh-compatibility-profile.v1',
  'profileVersion': 1,
  'topology': {
    'schema': 'cloudx.phi-mesh-topology.v1',
    'consumer': 'phi_cloud',
    'directDeviceAccess': false
  },
  'protocol': {
    'min': 1,
    'max': 1
  },
  'contracts': {
    'handshake': {
      'schema': 'cloudx.handshake.v1',
      'command': 'cloudx-remote handshake --json',
      'requiredCapabilities': [
        'client-config.v1',
        'health.v1',
        'legacy-gateway.v1',
        'legacy-health-bridge.v1'
      ],
      'secretFree': true
    },
    'health': {
      'schema': 'cloudx.health.v1',
      'command': 'cloudx-remote health --json',
      'publishedPath': '/run/cloudx/health.json',
      'secretFree': true
    },
    'legacyHealthBridge': {
      'contract': 'cloudx.health',
      'schemaVersion': 1,
      'sourceSchema': 'cloudx.health.v1',
      'command': 'cloudx-remote legacy-health-bridge',
      'publishedPath': '/var/lib/cloudx/health/v1.json',
      'migrationOnly': true,
      'automaticInstallation': false,
      'secretFree': true
    },
    'gateway': {
      'capability': 'legacy-gateway.v1',
      'basePath': '/v1',
      'configurationSchema': 'cloudx.client-config.v1'
    },
    'credential': {
      'configurationSchema': 'cloudx.client-config.v1',
      'secretBearing': true,
      'profileContainsSecret': false,
      'lifecycle': 'separate_scoped_credential_lifecycle'
    },
    'release': {
      'manifestSchema': 'cloudx.release-manifest.v1',
      'indexSchema': 'cloudx.release-index.v1',
      'statusSchema': 'cloudx.release-status.v1',
      'statusCommand': 'cloudx-remote release-status',
      'automaticActivation': false
    },
    'rollback': {
      'resultSchema': 'cloudx.release-rollback.v1',
      'command': 'cloudx-remote release-rollback --confirm <previous-version>',
      'currentAndPreviousRequired': true,
      'offlineRequired': true
    }
  },
  'compatibility': {
    'protocolOverlapRequired': true,
    'currentAndPreviousReleaseRequired': true,
    'independentReleaseOrdering': true,
    'synchronizedDeploymentRequired': false
  },
  'authorization': {
    'profileReadOnly': true,
    'profileGrantsCredentialAccess': false,
    'profileGrantsImport': false,
    'profileGrantsGatewayMutation': false,
    'profileGrantsReleaseMutation': false
  }
}
".

Definition package_data (name : string) : option string :=
  if name =s? CREDENTIAL_RESOURCE then Some CREDENTIAL_DATA
  else if name =s? TRAFFIC_RESOURCE then Some TRAFFIC_DATA
  else if name =s? PROFILE_RESOURCE then Some PROFILE_DATA else None.

(** The documents that the package ships are printed as they are: each has the digest
    that its reader pins, is an object of the expected schema, and names nothing that the
    public must not see; with any other bytes each reader refuses. *)
Theorem shipped_documents_published :
  (∀ read data, In (read, data)
     [(credential_policy, CREDENTIAL_DATA); (traffic_policy, TRAFFIC_DATA); (compatibility_profile, PROFILE_DATA)] →
     read package_data = loads_bytes data ∧ is_ok (read package_data) = true) ∧
  (∀ resource read document, In read [credential_policy; traffic_policy; compatibility_profile] →
     read resource = Ok document →
     ∃ name raw d, resource name = Some raw ∧ document = JDict d ∧ loads_bytes raw = Ok document ∧
       validate_public_document document = Ok document ∧
       In (sha256 raw) (map sha256 [CREDENTIAL_DATA; TRAFFIC_DATA; PROFILE_DATA])).
Proof.
  split.
  - intros read data [[= <- <-]|[[= <- <-]|[[= <- <-]|[]]]]; split; vm_compute; reflexivity.
  - assert (Hone : ∀ resource words name schema digest document,
      In digest (map sha256 [CREDENTIAL_DATA; TRAFFIC_DATA; PROFILE_DATA]) →
      read_contract resource words name schema digest = Ok document →
      ∃ name raw d, resource name = Some raw ∧ document = JDict d ∧ loads_bytes raw = Ok document ∧
        validate_public_document document = Ok document ∧
        In (sha256 raw) (map sha256 [CREDENTIAL_DATA; TRAFFIC_DATA; PROFILE_DATA])).
    { intros resource words name schema digest document Hd H. unfold read_contract in H.
      destruct (resource name) as [raw|] eqn:Hr; [|done].
      destruct (eqs_spec (sha256 raw) digest) as [<-|]; [|done]. cbn [negb] in H.
      destruct (loads_bytes raw) as [[| | | | | |d]|] eqn:Hl; try done. destruct (eq_str _ _); [|done].
      assert (document = JDict d) as ->.
      { unfold validate_public_document in H. destruct (walk d (JDict d) []); [|done]. by injection H. }
      exists name, raw, d. by split_and!. }
    intros resource read document Hin H.
    destruct Hin as [<-|[<-|[<-|[]]]]; (eapply Hone; [|exact H]); vm_compute; auto.
Qed.
