(* ===== verification/CloudMain.v ===== *)
(** * The cloud command line ([cloud/cloudx_cloud/cli.py])

    [main] after the argument parser: each command, the errors it reports and its exit status.
    [network], [renew], [probe] and [opener] are the HTTP clients of the parts; [stdin] is what
    is redirected into the command, [resource] the data of the package. *)

From S2P Require Import Prelude PyStr PyFloat PyValue PyRe PyTime PyJson FS PublicMetadata.
From S2P Require Import AccountState Gateway Health Capacity PyBase64 PySha CpaRecords CpaAuth.
From S2P Require Import JsonRoundTrip AccountContract Importer CpaQuota CpaHealth LocalConfig.
From S2P Require Import LegacyBridge LegacyBridgeFacts HttpImporterGate Releases CloudRelease Trees.
From S2P Require Import Bundle CloudStage PyShlex LocalSettings Remote ImportUi CloudConfig.

Definition IMPORT_CONTRACT_VERSION : Z := 1.

(** What a command prints on the two streams, and its exit status. *)
Record answer := Answer { an_out : string; an_err : string; an_code : Z }.

Definition protocol_range : json := JDict [("min", JInt PROTOCOL_MIN); ("max", JInt PROTOCOL_MAX)].
Definition CAPABILITIES : list string :=
  ["account-state-adapter.v1"; "capacity.v1"; "client-config.v1"; "import-compatibility-script.v1";
   "cpa-health-native.v1"; "cpa-health-templates.v1"; "health.v1"; "health-publisher-templates.v1";
   "http-importer-stop-gate.v1"; "agent-identity-import.v1"; "import.v1"; "legacy-gateway.v1";
   "legacy-health-bridge.v1"; "phi-cloud-consumer-credential.v1"; "phi-cloud-consumer-traffic-policy.v1";
   "phi-mesh-compatibility-profile.v1"].
Definition handshake_document (config : cloud_config) (gateway_status : string) : dict :=
  [("schema", JStr "cloudx.handshake.v1"); ("productVersion", JStr VERSION);
   ("buildCommit", JStr (cc_build_commit config)); ("protocol", protocol_range);
   ("capabilities", JList (map JStr CAPABILITIES)); ("deploymentId", JStr (cc_deployment_id config));
   ("gateway", JDict [("version", JStr (cc_gateway_version config)); ("status", JStr gateway_status)]);
   ("importerContractVersion", JInt IMPORT_CONTRACT_VERSION)].

Definition client_document (config : cloud_config) (key : string) : dict :=
  [("schema", JStr "cloudx.client-config.v1"); ("apiKey", JStr key);
   ("forwardHost", JStr (cc_forward_host config)); ("forwardPort", JInt (cc_forward_port config));
   ("basePath", JStr "/v1")].
Definition client_config (config : cloud_config) : M dict :=
  let! key := read_credential (client_credential_file (cc_base config)) in ret (client_document config key).

Definition self_check_document : dict :=
  [("schema", JStr "cloudx.self-check.v1"); ("component", JStr "cloud"); ("version", JStr VERSION);
   ("protocol", protocol_range); ("status", JStr "ok")].

(** [rejected]: the document of an import that was refused. *)
Definition rejected_document (raw : string) (e : exn) (dry_run : bool) : dict :=
  let '(request_id, request_hash) :=
    if raw =s? "" then ("unavailable", String.concat "" (repeat "0"%string 64)) else request_identity raw in
  [("schema", JStr "cloudx.import.v1"); ("requestId", JStr request_id); ("requestHash", JStr request_hash);
   ("status", JStr "rejected"); ("dryRun", JBool dry_run); ("written", JInt 0); ("skipped", JInt 0);
   ("errors", JList [JDict [("code", JStr (exn_code e)); ("message", JStr (exn_msg e))]])].

Inductive command :=
| Handshake | HealthCommand (publish : bool) | CapacityCommand (consumer_min consumer_max : Z) | AdaptAccountState
| CpaHealthCommand (a : args) | CpaRestore (selector confirm : string) (auth_dir archive_dir : path)
| ClientConfig | ImportCommand (dry_run force : bool)
| ReleaseStage | ReleaseStatus | ReleaseActivate (version confirm : string) | ReleaseRollback (confirm : string)
| SystemdTemplate (name : string) | CompatibilityScript (name : string) | CompatibilityProfile
| LegacyHealthBridge (source : path) (publish_to : option path)
| ConsumerCredentialPolicy | ConsumerTrafficPolicy | HttpImporterStopGate | SelfCheck.

Definition printed_text (text : string) : answer := Answer text "" 0.
(** [emit]. *)
Definition emit (document : json) (code : Z) : M answer :=
  let! text := lift (emit_json true true document) in ret (Answer text "" code).
(** [except (...) as exc: emit_error(label, exc); return 1]. *)
Definition guarded (label : string) (classes : list exn_class) (m : M answer) : M answer :=
  try_with m (except classes (λ e, ret (Answer "" (emit_error label (exn_msg e)) 1))).

Section main.
Context (environ : environment) (expanduser : path → path) (resource : string → option string) (stdin : string).
Context (network : string → list (string * string) → http_outcome) (renew : string → M string).
Context (probe : string → list (string * string) → M reply) (opener : string → M (Z * json)).
Context (H : host) (root : path) (pid : Z).

Definition import_command (config : cloud_config) (dry_run force : bool) : M answer :=
  let base := cc_base config in
  match read_limited stdin MAX_SOURCE_BYTES with
  | Raise e =>
      if catches ImportRejected (exn_cls e) then emit (JDict (rejected_document "" e dry_run)) 2 else throw e
  | Ok raw =>
      let! outcome := try_with
        (let! result := import_records renew raw (auth_dir base) (import_lock_path base) dry_run force
           (Some (cloud_check expanduser opener config)) in ret (as_dict result, 0))
        (except [ImportRejected] (λ e, ret (JDict (rejected_document raw e dry_run), 2))) in
      emit outcome.1 outcome.2
  end.

(** The commands that need no configuration; [None] for the others. *)
Definition standalone (c : command) : option (M answer) :=
  let policy label read := guarded label [RuntimeError] (let! d := lift (read resource) in emit d 0) in
  match c with
  | SystemdTemplate name =>
      Some (let! text := lift (read_template resource name) in let! text := lift (emit_text text) in ret (printed_text text))
  | CompatibilityScript name =>
      Some (let! text := lift (read_compatibility_script resource name) in
            let! text := lift (emit_text text) in ret (printed_text text))
  | CompatibilityProfile => Some (policy "compatibility-profile"%string compatibility_profile)
  | ConsumerCredentialPolicy => Some (policy "phi-consumer-credential-policy"%string credential_policy)
  | ConsumerTrafficPolicy => Some (policy "phi-consumer-traffic-policy"%string traffic_policy)
  | LegacyHealthBridge source publish_to =>
      Some (guarded "legacy-health-bridge" [LegacyHealthRejected; OSError; ValueError]
        (let! d := bridge_file source publish_to (default "unknown"%string (env_get environ "CLOUDX_BUILD_COMMIT")) in
         emit (JDict d) 0))
  | HttpImporterStopGate =>
      Some (match evaluate_stream stdin with
            | Ok d => emit (JDict d) (if truthy (dget "preconditionsSatisfied" d) then 0 else 2)
            | Raise e =>
                if catches EvidenceRejected (exn_cls e)
                then ret (Answer "" (emit_error "http-importer-stop-gate" (exn_msg e)) 1) else throw e
            end)
  | CpaHealthCommand a =>
      Some (guarded "cpa-health" [CpaAuthRejected; CpaHealthUnavailable; OSError]
        (let! text := CpaHealth.run probe a in ret (printed_text text)))
  | CpaRestore selector confirm auth_dir archive_dir =>
      Some (guarded "cpa-health-restore" [CpaAuthRejected; CpaHealthUnavailable; OSError]
        (let! text := CpaHealth.restore_run selector confirm auth_dir archive_dir in ret (printed_text text)))
  | _ => None
  end.

Definition configured (config : cloud_config) (c : command) : M answer :=
  let base := cc_base config in
  match c with
  | Handshake =>
      let! gateway := probe_gateway network (gateway_url base) (Some (client_credential_file base)) in
      emit (JDict (handshake_document config (status gateway))) 0
  | ClientConfig =>
      guarded "client-config unavailable" [OSError; ValueError; RuntimeError]
        (let! d := client_config config in emit (JDict d) 0)
  | HealthCommand publish =>
      let! document := build_health network base in
      (if publish then publish_health (health_path base) document else ret tt) ;;
      emit document 0
  | CapacityCommand consumer_min consumer_max =>
      guarded "capacity" [OSError; ValueError; RuntimeError]
        (let! d := build_capacity network base consumer_min consumer_max in emit d 0)
  | AdaptAccountState =>
      guarded "adapt-account-state" [AccountStateRejected; OSError]
        (let! d := adapt_file (account_state_source_path base) (account_state_path base) in emit d 0)
  | ImportCommand dry_run force => import_command config dry_run force
  | ReleaseStage =>
      guarded "release-stage" [OSError; ValueError; RuntimeError]
        (let! raw := lift (read_bundle stdin) in let! d := stage H root pid raw in emit (JDict d) 0)
  | ReleaseStatus =>
      guarded "release-status" [OSError; RuntimeError] (let! d := release_status root in emit (JDict d) 0)
  | ReleaseActivate version confirm =>
      guarded "release-activate" [OSError; RuntimeError] (let! d := activate root pid version confirm in emit (JDict d) 0)
  | ReleaseRollback confirm =>
      guarded "release-rollback" [OSError; RuntimeError] (let! d := rollback root pid confirm in emit (JDict d) 0)
  | SelfCheck => emit (JDict self_check_document) 0
  | _ => ret (Answer "" "" 2)
  end.

Definition cloud_main (c : command) : M answer :=
  match standalone c with
  | Some m => m
  | None => let! config := lift (from_environment environ expanduser) in configured config c
  end.
End main.

(** * The desktop and the cloud understand each other

    What the cloud command line prints, the desktop reads: the connection data of the gateway,
    and the outcome of an import. *)

(** ** Printed documents *)

Lemma emit_ok doc code E w a w' :
  emit (JDict doc) code E w = (Ok a, w') →
  an_code a = code ∧ an_err a = "" ∧ an_out a = dumps (st_compact true true) (JDict doc) +:+ LF.
Proof.
  unfold emit, emit_json, validate_public_document, bind, lift.
  destruct (walk doc (JDict doc) []); [|done]. cbv beta iota. unfold ret. intros [= <- _]. done.
Qed.

Lemma printed_read doc :
  plain (JDict doc) = true →
  loads_bytes (dumps (st_compact true true) (JDict doc) +:+ LF) = Ok (reorder true (JDict doc)).
Proof.
  intros Hd. unfold loads_bytes, decode_res, decode_utf8.
  rewrite ascii_utf8; [|rewrite is_ascii_app; unfold dumps; rewrite dumps_ascii; [done|apply good_compact|done]].
  cbn iota. by rewrite loads_dumps; [|apply good_compact|..].
Qed.

Lemma document_read c doc label :
  plain (JDict doc) = true → cp_returncode c = 0 → cp_stdout c = dumps (st_compact true true) (JDict doc) +:+ LF →
  ∃ d, read_as doc d ∧ ∀ E w, remote_document c label E w = (Ok d, w).
Proof.
  intros Hd Hc Ho. destruct (reordered doc Hd) as (d & Hr & Has). exists d. split; [done|]. intros E w.
  unfold remote_document. rewrite Hc, Ho, printed_read, Hr by done. done.
Qed.

(** The helper, asked over SSH, answers what the cloud command line printed. *)
Definition helper_answers (run_ssh : list string → option string → Z → M ssh_outcome) (config : local_config)
    (args : list string) (a : answer) : Prop :=
  ∃ words, shlex_split (lc_remote_helper config) = Ok words ∧
    ∀ line input timeout E w, List.last line "" = shlex_join (words ++ args) →
      run_ssh line input timeout E w =
        (Ok (Finished (MkCompleted (an_code a) (an_out a) (an_err a))), w).

Lemma helper_run run_ssh config args a input timeout E w :
  helper_answers run_ssh config args a →
  helper run_ssh config args input timeout E w = (Ok (MkCompleted (an_code a) (an_out a) (an_err a)), w).
Proof.
  intros (words & Hw & Hr). unfold helper, helper_command, ssh, bind, lift. rewrite Hw. cbv beta iota.
  by rewrite Hr.
Qed.

(** ** The connection *)

Lemma credential_stripped p E w key w' : read_credential p E w = (Ok key, w') → strip key = key ∧ key ≠ "".
Proof.
  unfold read_credential, bind, lift, mraise, throw. destruct (stat p E w) as [[n|] w1]; [|done].
  destruct (negb _); [done|]. destruct (read_text p E w1) as [[text|] w2]; [|done].
  destruct (eqs_spec (strip text) ""); [done|].
  destruct (if starts_with "{" (strip text) then _ else Ok (strip text)) as [value|] eqn:Hv; [|done].
  assert (Hs : strip value = value).
  { destruct (starts_with "{" (strip text)); [|injection Hv as <-; apply strip_idem].
    destruct (loads (strip text)) as [[| | | | | |d]|]; try done. destruct (dget "apiKey" d); try done.
    injection Hv as <-. apply strip_idem. }
  destruct (eqs_spec value ""); [done|]. unfold ret. intros [= <- _]. done.
Qed.

Lemma text_or_empty s : str_or_empty (JStr s) = s.
Proof. by destruct s. Qed.

Definition ascii_config (config : cloud_config) : Prop :=
  is_ascii (cc_build_commit config) = true ∧ is_ascii (cc_deployment_id config) = true ∧
  is_ascii (cc_gateway_version config) = true ∧ is_ascii (cc_forward_host config) = true.

Lemma handshake_plain config status :
  ascii_config config → is_ascii status = true → plain (JDict (handshake_document config status)) = true.
Proof.
  intros (H1 & H2 & H3 & _) Hs. unfold handshake_document. cbn [plain forallb fst snd map CAPABILITIES].
  rewrite H1, H2, H3, Hs. reflexivity.
Qed.
Lemma client_plain config key :
  ascii_config config → is_ascii key = true → plain (JDict (client_document config key)) = true.
Proof.
  intros (_ & _ & _ & H4) Hk. unfold client_document. cbn [plain forallb fst snd map]. rewrite Hk, H4. reflexivity.
Qed.

(** The handshake that the cloud prints is one that the desktop accepts. *)
Lemma handshake_accepted run_ssh dc config status a E w :
  plain (JDict (handshake_document config status)) = true →
  helper_answers run_ssh dc ["handshake"; "--json"] a → an_code a = 0 →
  an_out a = dumps (st_compact true true) (JDict (handshake_document config status)) +:+ LF →
  ∃ d, read_as (handshake_document config status) d ∧ handshake run_ssh dc E w = (Ok d, w).
Proof.
  intros Hp Hh Hc Ho.
  destruct (document_read (MkCompleted (an_code a) (an_out a) (an_err a)) _ "remote handshake" Hp Hc Ho) as (d & Hd & Hrun).
  exists d. split; [done|]. unfold handshake, bind. rewrite (helper_run _ _ _ a) by done.
  cbn [cp_returncode]. assert (negb (an_code a =? 0) = false) as -> by by rewrite Hc.
  rewrite Hrun.
  rewrite (Hd "schema"), (Hd "protocol"). reflexivity.
Qed.

Lemma probe_status network url file E w g w' :
  probe_gateway network url file E w = (Ok g, w') → is_ascii (status g) = true.
Proof.
  assert (Hc : ∀ code, is_ascii (status (classify_status code)) = true).
  { intros code. unfold classify_status. destruct (_ && _); [done|]. destruct (_ || _); [done|]. by destruct (_ && _). }
  assert (Hs : ∀ h E w g w', send network url h E w = (Ok g, w') → is_ascii (status g) = true).
  { intros h E0 w0 g0 w0'. unfold send, ret, throw. destruct (network _ h); try (by intros [= <- _]); done. }
  unfold probe_gateway. destruct file as [p|]; [|apply Hs].
  unfold bind. destruct (is_file_p p E w) as [[[]|] w1]; [|apply Hs|done].
  destruct (try_with _ _ E w1) as [[[k|]|] w2]; [apply Hs| |done]. unfold ret. by intros [= <- _].
Qed.

(** C9: the desktop finds the gateway that the cloud describes: when the helper it reaches over
    SSH prints what the cloud's [handshake] and [client-config] commands print, the desktop
    connects with exactly the key in the cloud's credential file, to the configured host and
    port, and keeps the cloud's deployment identity. *)
Theorem desktop_finds_gateway environ expanduser cc resource stdin network renew probe opener H root pid
    E1 w1 ah w1' E2 w2 ac w2' dc run_ssh E w :
  let main := cloud_main environ expanduser resource stdin network renew probe opener H root pid in
  from_environment environ expanduser = Ok cc → ascii_config cc →
  strip (cc_forward_host cc) = cc_forward_host cc → cc_forward_host cc ≠ "" → 1 <= cc_forward_port cc <= 65535 →
  main Handshake E1 w1 = (Ok ah, w1') → main ClientConfig E2 w2 = (Ok ac, w2') → an_code ac = 0 →
  helper_answers run_ssh dc ["handshake"; "--json"] ah → helper_answers run_ssh dc ["client-config"; "--json"] ac →
  ∃ key w3, read_credential (client_credential_file (cc_base cc)) E2 w2 = (Ok key, w3) ∧
    (is_ascii key = true →
     ∃ shaken, resolve_endpoint run_ssh dc E w =
                 (Ok (RemoteEndpoint "cloudx" key (cc_forward_host cc) (cc_forward_port cc) shaken), w) ∧
               dget "deploymentId" shaken = JStr (cc_deployment_id cc)).
Proof.
  intros main Hcc Hascii Hhost Hne Hport Hh Hc Hcode Hah Hac.
  unfold main, cloud_main in Hh, Hc. cbn [standalone] in Hh, Hc.
  unfold bind at 1, lift in Hh. unfold bind at 1, lift in Hc. rewrite Hcc in Hh, Hc. cbn [configured] in Hh, Hc.
  unfold bind at 1 in Hh. destruct (probe_gateway _ _ _ E1 w1) as [[g|] w1a] eqn:Hg; [|done].
  apply probe_status in Hg. apply emit_ok in Hh as (Hhc & _ & Hho).
  unfold guarded, try_with, client_config in Hc. unfold bind in Hc.
  destruct (read_credential _ E2 w2) as [[key|e] w3] eqn:Hk.
  2: { unfold except in Hc. destruct (existsb _ _); [|done]. unfold ret in Hc. injection Hc as <- _. done. }
  cbv beta iota in Hc. unfold ret at 1 in Hc. destruct (emit _ 0 E2 w3) as [[a|e] w4] eqn:He.
  2: { unfold except in Hc. destruct (existsb _ _); [|done]. unfold ret in Hc. injection Hc as <- _. done. }
  injection Hc as -> ->. exists key, w3. split; [done|]. intros Hka.
  apply emit_ok in He as (_ & _ & Hco). apply credential_stripped in Hk as [Hks Hkn].
  destruct (handshake_accepted run_ssh dc cc (status g) ah E w) as (shaken & Hs & Hrun);
    [by apply handshake_plain|exact Hah|exact Hhc|exact Hho|].
  exists shaken. split; [|by rewrite (Hs "deploymentId")].
  destruct (document_read (MkCompleted (an_code ac) (an_out ac) (an_err ac)) (client_document cc key) "remote client config")
    as (d & Hd & Hdrun); [by apply client_plain|done|done|].
  unfold resolve_endpoint. unfold bind at 1, try_with. unfold bind at 1. rewrite Hrun. cbv beta iota. unfold ret at 1.
  unfold bind at 1. rewrite (helper_run _ _ _ ac) by done. unfold bind at 1. rewrite Hdrun.
  rewrite (Hd "schema"), (Hd "apiKey"), (Hd "forwardHost"), (Hd "forwardPort"). cbn [reorder client_document].
  change (reorder true (dget "schema" (client_document cc key))) with (JStr "cloudx.client-config.v1").
  change (reorder true (dget "apiKey" (client_document cc key))) with (JStr key).
  change (reorder true (dget "forwardHost" (client_document cc key))) with (JStr (cc_forward_host cc)).
  change (reorder true (dget "forwardPort" (client_document cc key))) with (JInt (cc_forward_port cc)).
  rewrite !text_or_empty, Hks, Hhost. unfold bind, lift.
  assert (py_int (py_or (JInt (cc_forward_port cc)) (JInt 0)) = Ok (cc_forward_port cc)) as ->.
  { unfold py_or. by destruct (truthy (JInt (cc_forward_port cc))) eqn:Ht; [|apply negb_false_iff, Z.eqb_eq in Ht; rewrite Ht]. }
  rewrite eqs_ne, eqs_ne, (proj2 (Z.ltb_ge _ _)), (proj2 (Z.ltb_ge _ _)) by (done || lia). reflexivity.
Qed.

(** ** An import *)

Lemma plan_step_count auth force s record E w s' w' :
  plan_step auth force s record E w = (Ok s', w') → s.2 <= s'.2.
Proof.
  unfold plan_step. intros (link & w1 & _ & H)%bind_ok. apply bind_ok in H as (unsafe & w2 & _ & H).
  destruct unsafe; [done|]. apply bind_ok in H as (present & w3 & _ & H). apply bind_ok in H as (previous & w4 & _ & H).
  destruct previous as [d|]; [destruct (d =s? _); [|destruct (negb force); [done|]]|]; injection H as <- _; simpl; lia.
Qed.
Lemma plan_count auth force l s E w s' w' :
  mfold (plan_step auth force) s l E w = (Ok s', w') → s.2 <= s'.2.
Proof.
  revert s w. induction l as [|r l IH]; intros s w; simpl; [by intros [= <- _]|].
  intros (s1 & w1 & H1%plan_step_count & H2%IH)%bind_ok. lia.
Qed.

(** The result of an import that is accepted. *)
Lemma import_result_shape renew raw auth lock dry force checker E w r w' :
  import_records renew raw auth lock dry force checker E w = (Ok r, w') →
  ∃ n k, r = ImportResult (str_take 16 (sha256 raw)) (sha256 raw) "accepted" dry (Z.of_nat n) k ∧ 0 <= k.
Proof.
  unfold import_records. cbn [request_identity].
  intros (records & w1 & _ & H)%bind_ok. apply bind_ok in H as ([] & w2 & _ & H). apply bind_ok in H as ([] & w3 & _ & H).
  apply bind_ok in H as ([] & w4 & _ & H). apply bind_ok in H as ([] & w5 & _ & H).
  apply bind_ok in H as ([plan skipped] & w6 & Hp & H). apply plan_count in Hp. simpl in Hp.
  destruct dry.
  - injection H as <- _. by exists (length plan), skipped.
  - apply bind_ok in H as ([] & w7 & _ & H). injection H as <- _. by exists (length plan), skipped.
Qed.

Lemma take_ascii n s : is_ascii s = true → is_ascii (str_take n s) = true.
Proof.
  unfold is_ascii. revert s. induction n as [|n IH]; intros [|c s]; try done. simpl.
  intros [-> H]%andb_true_iff. by apply IH.
Qed.

(** The reason of a refusal is a text that both sides can print. *)
Definition stated (e : exn) : Prop :=
  is_ascii (exn_code e) = true ∧ is_ascii (exn_msg e) = true ∧ strip (exn_code e) ≠ "" ∧ strip (exn_msg e) ≠ "".

(** The two documents of the import command. *)
Definition accepted_document (d : dict) (dry : bool) (written skipped : Z) : Prop :=
  dget "schema" d = JStr "cloudx.import.v1" ∧ dget "status" d = JStr "accepted" ∧ dget "dryRun" d = JBool dry ∧
  dget "written" d = JInt written ∧ dget "skipped" d = JInt skipped ∧ dget "errors" d = JList [].
Definition refused_document (d : dict) (dry : bool) (e : exn) : Prop :=
  dget "schema" d = JStr "cloudx.import.v1" ∧ dget "status" d = JStr "rejected" ∧ dget "dryRun" d = JBool dry ∧
  dget "written" d = JInt 0 ∧ dget "skipped" d = JInt 0 ∧
  ∃ error, dget "errors" d = JList [JDict error] ∧ dget "code" error = JStr (exn_code e) ∧ dget "message" error = JStr (exn_msg e).

Definition import_args (dry force : bool) : list string :=
  ["import"] ++ (if dry then ["--dry-run"] else []) ++ (if force then ["--force"] else []).

(** What the desktop reads of the document that the cloud prints. *)
Lemma payload_read run_ssh dc raw (dry force : bool) args a doc E w :
  args = import_args dry force →
  plain (JDict doc) = true → dget "schema" doc = JStr "cloudx.import.v1" →
  helper_answers run_ssh dc args a → an_out a = dumps (st_compact true true) (JDict doc) +:+ LF →
  ∃ d, read_as doc d ∧ import_payload run_ssh dc raw dry force E w = (Ok d, w).
Proof.
  intros -> Hp Hs Ha Ho. destruct (reordered doc Hp) as (d & Hr & Hd). exists d. split; [done|].
  unfold import_payload. unfold bind at 1. rewrite (helper_run _ _ _ a) by done. cbn [cp_returncode].
  assert (Hl : loads_bytes (an_out a) = Ok (JDict d)) by by rewrite Ho, printed_read, Hr.
  assert (Hsd : eq_str (dget "schema" d) "cloudx.import.v1" = true) by by rewrite (Hd "schema"), Hs.
  destruct (an_code a =? 0) eqn:Hc; unfold bind, remote_document, try_with, lift; cbn [cp_returncode cp_stdout];
    rewrite ?Hc, Hl; cbn [negb]; unfold bind, try_with, lift, ret; by rewrite ?Hl, Hsd.
Qed.

Lemma count_read d name n : dget name d = JInt n → 0 <= n → count_of d name = Ok n.
Proof. unfold count_of. intros -> H. by rewrite (proj2 (Z.ltb_ge _ _)). Qed.

Lemma accepted_report d dry written skipped :
  accepted_document d dry written skipped → 0 <= written → 0 <= skipped →
  ∃ r, cloud_report d = Ok r ∧ ir_imported r = Some written ∧ ir_skipped r = Some skipped ∧ ir_reasons r = [].
Proof.
  intros (_ & Hs & Hd & Hw & Hk & He) H1 H2. unfold cloud_report, cloud_reasons. rewrite Hs, Hd, He, !(count_read d _ _ Hw) by done.
  rewrite (count_read d "skipped" skipped) by done.
  change (strip (str_or_empty (JStr "accepted"))) with "accepted"%string. cbn [map_res]. eexists. split; [reflexivity|done].
Qed.
Lemma refused_report d dry e :
  refused_document d dry e → stated e →
  ∃ r, cloud_report d = Ok r ∧ ir_reasons r = [(strip (exn_code e), sanitize_reason (strip (exn_msg e)))].
Proof.
  intros (_ & Hs & Hd & Hw & Hk & error & He & Hc & Hm) (_ & _ & Hcn & Hmn). unfold cloud_report, cloud_reasons, cloud_reason.
  rewrite Hs, Hd, He, !(count_read d _ _ Hw) by done. rewrite (count_read d "skipped" 0) by done.
  change (strip (str_or_empty (JStr "rejected"))) with "rejected"%string. cbn [map_res].
  rewrite Hc, Hm, !text_or_empty, !eqs_ne by done. eexists. split; [reflexivity|done].
Qed.

Lemma rejected_plain raw e dry : stated e → plain (JDict (rejected_document raw e dry)) = true.
Proof.
  intros (H1 & H2 & _). unfold rejected_document. destruct (raw =s? ""); unfold request_identity;
    cbn [plain forallb fst snd map]; rewrite ?take_ascii, ?sha256_ascii, H1, H2 by apply sha256_ascii; reflexivity.
Qed.
Lemma accepted_plain raw dry written skipped :
  ∃ doc, as_dict (ImportResult (str_take 16 (sha256 raw)) (sha256 raw) "accepted" dry written skipped) = JDict doc ∧
    plain (JDict doc) = true ∧ accepted_document doc dry written skipped.
Proof.
  eexists. split; [reflexivity|]. split; [|repeat split].
  cbn [plain forallb fst snd map Importer.ir_request_id Importer.ir_request_hash].
  rewrite take_ascii, sha256_ascii by apply sha256_ascii. reflexivity.
Qed.


(** ** Witnesses *)

Definition still_env : env := Env (λ _, false) (λ _, "t") (λ _, 0) (λ _ _, FFin false 0 0) (λ _ _, false) (λ _, 0).
Definition sample_host : host :=
  Host (path_of "/tmp") "" (λ _, Ok []) (λ _ _ _ _, 0) (λ _ _, raise RuntimeError "not run").
Definition cloud_files : fs := {[ path_of "/etc/cloudx/client-credential" := File ("key-1" +:+ LF) 384 ]}.
Definition sample_main (c : command) : M answer :=
  cloud_main [] (λ p, p) (λ _, None) "" (λ _ _, HttpStatus 200) (λ _, mraise OSError "no network")
    (λ _ _, mraise OSError "no network") (λ _, mraise OSError "no network") sample_host (path_of "/opt") 7 c.
Definition sample_desktop : local_config := plain_config (path_of "/home/u") (path_of "/home/u/state") None None "".
Definition sample_answered (c : command) : answer :=
  match (sample_main c still_env (World cloud_files 0)).1 with Ok a => a | Raise _ => Answer "" "" 1 end.
(** The helper on the other side. *)
Definition sample_ssh (words : list string) (_ : option string) (_ : Z) : M ssh_outcome :=
  let a := if List.last words "" =s? "cloudx-remote handshake --json" then sample_answered Handshake
           else if List.last words "" =s? "cloudx-remote client-config --json" then sample_answered ClientConfig
           else sample_answered (ImportCommand true false) in
  ret (Finished (MkCompleted (an_code a) (an_out a) (an_err a))).

Lemma sample_ran c :
  is_ok (sample_main c still_env (World cloud_files 0)).1 = true →
  ∃ w, sample_main c still_env (World cloud_files 0) = (Ok (sample_answered c), w).
Proof.
  unfold sample_answered. destruct (sample_main c _ _) as [[a|e] w]; [|done]. by exists w.
Qed.

Lemma sample_helper (args : list string) c :
  (if shlex_join (["cloudx-remote"] ++ args) =s? "cloudx-remote handshake --json" then sample_answered Handshake
   else if shlex_join (["cloudx-remote"] ++ args) =s? "cloudx-remote client-config --json" then sample_answered ClientConfig
   else sample_answered (ImportCommand true false)) = sample_answered c →
  helper_answers sample_ssh sample_desktop args (sample_answered c).
Proof.
  intros H. exists ["cloudx-remote"%string]. split; [reflexivity|]. intros line input timeout E w Hl.
  unfold sample_ssh. rewrite Hl, H. reflexivity.
Qed.

Lemma desktop_finds_gateway_witness :
  ∃ key w3, read_credential (path_of "/etc/cloudx/client-credential") still_env (World cloud_files 0) = (Ok key, w3) ∧
    (is_ascii key = true →
     ∃ shaken, resolve_endpoint sample_ssh sample_desktop still_env (World ∅ 0) =
                 (Ok (RemoteEndpoint "cloudx" key "127.0.0.1" 8317 shaken), World ∅ 0) ∧
               dget "deploymentId" shaken = JStr "shadow").
Proof.
  destruct (from_environment [] (λ p, p)) as [cc|e] eqn:Hcc; [|discriminate Hcc].
  destruct (sample_ran Handshake ltac:(vm_compute; reflexivity)) as [w1 Hh].
  destruct (sample_ran ClientConfig ltac:(vm_compute; reflexivity)) as [w2 Hc].
  assert (Hcode : an_code (sample_answered ClientConfig) = 0) by (vm_compute; reflexivity).
  injection Hcc as <-.
  refine (desktop_finds_gateway [] (λ p, p) _ (λ _, None) "" (λ _ _, HttpStatus 200) (λ _, mraise OSError "no network")
    (λ _ _, mraise OSError "no network") (λ _, mraise OSError "no network") sample_host (path_of "/opt") 7
    still_env (World cloud_files 0) _ w1 still_env (World cloud_files 0) _ w2 sample_desktop sample_ssh still_env (World ∅ 0)
    eq_refl _ _ _ _ Hh Hc Hcode _ _).
  - repeat split.
  - reflexivity.
  - discriminate.
  - split; vm_compute; discriminate.
  - apply sample_helper. reflexivity.
  - apply sample_helper. reflexivity.
Defined.

