(* ===== verification/Modes.v ===== *)
(** * Modes of the current shell ([local/cloudx_local/modes.py])

    What a shell evaluates to select an account, to select the cloud, or to leave both.  A
    shell in cloud mode owns a lease of the tunnel, which every change of mode releases. *)

From S2P Require Import Prelude PyStr PyFloat PyValue PyRe PyTime PyJson FS CpaAuth Broker.
From S2P Require Import LocalConfig Releases Trees PyShlex LocalSettings Remote ShellHook Accounts.
From S2P Require Import BrokerClient ImportUi CloudCli.

Definition MODE_VARIABLES : list string := ["CLOUDX_MODE"; "CLOUDX_MODE_LEASE_ID"; "CLOUDX_MODE_BROKER_PORT"].
Definition clear_mode_lines : list string := map unset_line MODE_VARIABLES.
Definition mode_of_account (name : string) : string := if name =s? "api" then "api" else "account".

Section modes.
Context (run_ssh : list string → option string → Z → M ssh_outcome).
Context (config : local_config) (environ : environment) (X : machine).
Context (models_status : Z → string → pyfloat → M (option Z)).

Definition release_cloud_lease : M unit :=
  let lease_id := strip (default "" (env_get environ "CLOUDX_MODE_LEASE_ID")) in
  if lease_id =s? "" then ret tt
  else try_with (client_release config X lease_id) (except CONTROL_ERRORS (λ _, ret tt)).

Definition account_lines (text name : string) : list string :=
  splitlines text ++ clear_mode_lines ++ [export_line ("CLOUDX_MODE", mode_of_account name)].
Definition select_account (name : string) : M string :=
  release_cloud_lease ;;
  let! text := shell_select config name in
  ret (str_join LF (account_lines text name)).

Definition cloud_values (home : path) (lease_id : string) (port : Z) : environment :=
  [("HOME", path_str (lc_home config)); ("CODEX_HOME", path_str home); ("CODEXX_ACTIVE_ACCOUNT", "cloud");
   ("CODEXX_ACTIVE_HOME", path_str home); ("CODEXX_ACTIVE_PINNED", "1"); ("CLOUDX_MODE", "cloud");
   ("CLOUDX_MODE_LEASE_ID", lease_id); ("CLOUDX_MODE_BROKER_PORT", str_of_Z port);
   ("NO_PROXY", "127.0.0.1,localhost"); ("no_proxy", "127.0.0.1,localhost")].
Definition cloud_lines (home : path) (lease_id : string) (port : Z) : list string :=
  map export_line (cloud_values home lease_id port) ++ map unset_line OPENAI_VARIABLES.

(** The body of the [try]: the gateway is asked through the tunnel, then the cloud home is
    prepared. *)
Definition checked_home (api_key : string) (port : Z) : M path :=
  let! status := probe_endpoint config models_status port api_key in
  match status with
  | Some z =>
      if (200 <=? z) && (z <? 300) then prepare_cloud_mode config api_key port
      else cloud_error "cloud mode gateway check failed"
  | None => cloud_error "cloud mode gateway check failed"
  end.

Definition select_cloud (shell_pid : Z) : M string :=
  if shell_pid <=? 1 then cloud_error "cloud mode requires a live shell PID" else
  release_cloud_lease ;;
  let! endpoint := resolve_endpoint run_ssh config in
  let! response := acquire_for_owner config environ X (lc_ssh_host config) (re_forward_host endpoint)
                     (re_forward_port endpoint) shell_pid in
  let lease_id := str_or_empty (dget "leaseId" response) in
  let! port := lift (or_int (dget "publicPort" response) 0) in
  let! home := try_with (checked_home (re_api_key endpoint) port)
                 (except_all (λ e, client_release config X lease_id ;; throw e)) in
  ret (str_join LF (cloud_lines home lease_id port)).

Definition exit_mode : M string :=
  release_cloud_lease ;; ret (str_join LF (splitlines (shell_exit config) ++ clear_mode_lines)).
End modes.

(** * What changing the mode of a shell does

    The lease of a cloud mode that was not reached is given back, and the text for the shell
    says exactly the mode that was reached. *)

(** ** Lines that are split and joined again *)

(** Whether a text has no line break but LF, and whether it ends in something else. *)
Definition lf_only (s : string) : bool := str_forall (λ c, negb (is_line_break c) || Nat.eqb (ord c) 10) s.
Fixpoint ends_plain (s : string) : bool :=
  match s with
  | "" => false
  | String c "" => negb (is_line_break c)
  | String _ s => ends_plain s
  end%string.

Lemma lf_char c : is_line_break c = true → Nat.eqb (ord c) 10 = true → c = ascii_of_nat 10.
Proof. by destruct c as [[][][][][][][][]]. Qed.
Lemma rejoin_go s cur :
  lf_only s = true → (s = "" → cur <> "") → (s = "" ∨ ends_plain s = true) →
  str_join LF (splitlines_go cur s) = str_rev cur +:+ s ∧ splitlines_go cur s ≠ [].
Proof.
  revert cur. induction s as [|c s IH]; intros cur Hs Hc He; cbn [splitlines_go].
  - destruct cur; [by destruct (Hc eq_refl)|]. by rewrite str_app_nil_r.
  - unfold lf_only in Hs. cbn [str_forall] in Hs. apply andb_true_iff in Hs as [Hx Hs].
    destruct He as [?|He]; [done|].
    assert (E13 : Nat.eqb (ord c) 13 = false) by (clear -Hx; by destruct c as [[][][][][][][][]]).
    rewrite E13. destruct (is_line_break c) eqn:Hb.
    + apply (lf_char c) in Hx as ->; [|done]. destruct s as [|d s]; [done|].
      destruct (IH "" Hs ltac:(done) (or_intror He)) as [H1 H2].
      destruct (splitlines_go "" (String d s)) as [|l ls]; [done|]. split; [|done].
      change (str_join LF (str_rev cur :: l :: ls)) with (str_rev cur +:+ LF +:+ str_join LF (l :: ls)). by rewrite H1.
    + destruct (IH (String c cur) Hs ltac:(done)) as [H1 H2]; [by destruct s; [left|right]|]. split; [|done].
      rewrite H1. change (String c cur) with (String c "" +:+ cur). by rewrite str_rev_app, str_app_assoc.
Qed.
Lemma splitlines_rejoin s : lf_only s = true → ends_plain s = true → str_join LF (splitlines s) = s.
Proof. intros Hs He. apply (rejoin_go s ""); [done|by intros ->|by right]. Qed.

Lemma ends_plain_app s t : ends_plain t = true → ends_plain (s +:+ t) = true.
Proof.
  intros Ht. induction s as [|c s IH]; [done|]. simpl.
  destruct (s +:+ t) eqn:E; [by rewrite <- E in IH; rewrite E in IH|done].
Qed.
Lemma join_app l l' : l ≠ [] → l' ≠ [] → str_join LF (l ++ l') = str_join LF l +:+ LF +:+ str_join LF l'.
Proof.
  intros Hl Hl'. induction l as [|s [|s' l] IH]; [done| |].
  - destruct l'; done.
  - change (str_join LF ((s :: s' :: l) ++ l')) with (s +:+ LF +:+ str_join LF ((s' :: l) ++ l')).
    rewrite IH by done. change (str_join LF (s :: s' :: l)) with (s +:+ LF +:+ str_join LF (s' :: l)).
    by rewrite !str_app_assoc.
Qed.

Lemma lf_only_app s t : lf_only (s +:+ t) = lf_only s && lf_only t.
Proof. apply str_forall_app. Qed.
Lemma lf_only_escape s : lf_only s = true → lf_only (escape_quotes s) = true.
Proof.
  unfold lf_only. induction s as [|c s IH]; [done|]. simpl. intros [Hc H]%andb_true_iff.
  destruct (Ascii.eqb c SQ); rewrite ?str_forall_app; simpl; rewrite IH by done; [done|]. by rewrite Hc.
Qed.
Lemma lf_only_quote s : lf_only s = true → lf_only (shlex_quote s) = true.
Proof.
  intros H. unfold shlex_quote. destruct (s =s? ""); [done|]. destruct (str_forall safe_char s); [done|].
  change (String SQ (escape_quotes s +:+ String SQ "")) with (String SQ "" +:+ escape_quotes s +:+ String SQ "").
  by rewrite !lf_only_app, lf_only_escape.
Qed.
Lemma lf_only_export k v : lf_only k = true → lf_only v = true → lf_only (export_line (k, v)) = true.
Proof. intros Hk Hv. unfold export_line. cbn [fst snd]. by rewrite !lf_only_app, Hk, lf_only_quote. Qed.
Lemma lf_only_join l : Forall (λ s, lf_only s = true) l → lf_only (str_join LF l) = true.
Proof.
  induction 1 as [|s [|s' l] Hs H IH]; [done|done|].
  change (str_join LF (s :: s' :: l)) with (s +:+ LF +:+ str_join LF (s' :: l)). by rewrite !lf_only_app, Hs, IH.
Qed.

(** ** The texts *)

Lemma name_lf_only name : re_match account_name_re name = true → lf_only name = true.
Proof.
  intros (c & u & t & -> & Hc & Hu & Ht)%account_name_chars. unfold lf_only. cbn [str_forall]. rewrite str_forall_app.
  assert (H : ∀ d, name_char d = true → negb (is_line_break d) || Nat.eqb (ord d) 10 = true).
  { intros d. by destruct d as [[][][][][][][][]]. }
  apply andb_true_iff. split; [apply H; unfold name_char; by rewrite Hc|]. apply andb_true_iff. split.
  - eapply str_forall_mono; [|exact Hu]. exact H.
  - unfold at_eol in Ht. destruct (eqs_spec t "") as [->|]; [done|]. by destruct (eqs_spec t LF) as [->|].
Qed.

(** The words of a text of exports, followed by lines that are kept as they are. *)
Lemma relined lines rest wss wss' :
  Forall (λ s, lf_only s = true) lines → ends_plain (str_join LF lines) = true → lines ≠ [] → rest ≠ [] →
  Forall2 reads lines wss → Forall2 reads rest wss' →
  shlex_split (str_join LF (splitlines (str_join LF lines) ++ rest)) = Ok (concat wss ++ concat wss').
Proof.
  intros Hl He Hn Hr H H'. apply lf_only_join in Hl.
  destruct (rejoin_go (str_join LF lines) "" Hl) as [E Hne]; [by intros Hx; rewrite Hx in He|by right|].
  fold (splitlines (str_join LF lines)) in E, Hne. change (str_rev "" +:+ ?x) with x in E.
  rewrite join_app, E by done.
  rewrite <- join_app by done. rewrite <- concat_app. apply reads_lines; [by destruct lines|]. by apply Forall2_app.
Qed.

Section texts.
Context (config : local_config) (environ : environment) (X : machine).

End texts.

(** ** The lease of a cloud mode *)

Lemma reads_cloud config home lease_id port :
  shlex_split (str_join LF (cloud_lines config home lease_id port)) =
    Ok (concat (map exported (cloud_values config home lease_id port)) ++ concat (map unset OPENAI_VARIABLES)).
Proof.
  rewrite <- concat_app. apply reads_lines; [done|]. apply Forall2_app; [by apply reads_exports|by apply reads_unsets].
Qed.

Section leases.
Context (run_ssh : list string → option string → Z → M ssh_outcome).
Context (config : local_config) (environ : environment) (X : machine).
Context (models_status : Z → string → pyfloat → M (option Z)).

(** The work up to the lease. *)
Definition lease_cloud (shell_pid : Z) : M (remote_endpoint * dict) :=
  release_cloud_lease config environ X ;;
  let! endpoint := resolve_endpoint run_ssh config in
  let! response := acquire_for_owner config environ X (lc_ssh_host config) (re_forward_host endpoint)
                     (re_forward_port endpoint) shell_pid in
  ret (endpoint, response).

Lemma acquired_port host fh fp pid E w response w' :
  acquire_for_owner config environ X host fh fp pid E w = (Ok response, w') →
  ∃ port, or_int (dget "publicPort" response) 0 = Ok port ∧ 1 <= port <= 65535.
Proof.
  unfold acquire_for_owner, bind, lift. intros H. destruct (ensure_started _ _ _ E w) as [[[]|] w1]; [|done].
  destruct (fresh_uuid X E w1) as [[u|] w2]; [|done].
  destruct (broker_request _ _ _ _ E w2) as [[d|] w3]; [|done].
  destruct (or_int (dget "publicPort" d) 0) as [port|] eqn:Hp; [|done].
  destruct (Z.leb_spec 1 port); [|done]. destruct (Z.leb_spec port 65535); [|done]. simpl in H.
  injection H as <- <-. by exists port.
Qed.

(** C8: a cloud mode is reached with a working gateway or its lease is given back: once the
    broker has granted a lease to the shell, [select_cloud] either prints exactly the exports
    of that lease and its port, after the gateway answered 2xx through that port with the
    endpoint's key and the cloud home was written for it, or it fails and its last act is the
    release of that lease. *)
Theorem cloud_mode_leases shell_pid E w endpoint response w1 :
  1 < shell_pid → lease_cloud shell_pid E w = (Ok (endpoint, response), w1) →
  let lease_id := str_or_empty (dget "leaseId" response) in
  ∃ port, or_int (dget "publicPort" response) 0 = Ok port ∧ 1 <= port <= 65535 ∧
  match select_cloud run_ssh config environ X models_status shell_pid E w with
  | (Ok text, w') =>
      ∃ status home w2,
        probe_endpoint config models_status port (re_api_key endpoint) E w1 = (Ok (Some status), w2) ∧ 200 <= status < 300 ∧
        prepare_cloud_mode config (re_api_key endpoint) port E w2 = (Ok home, w') ∧
        shlex_split text = Ok (concat (map exported (cloud_values config home lease_id port)) ++
                               concat (map unset OPENAI_VARIABLES))
  | (Raise _, w') => ∃ w2, w' = (client_release config X lease_id E w2).2
  end.
Proof.
  intros Hpid Hl lease_id. unfold lease_cloud, bind in Hl. unfold select_cloud.
  rewrite (proj2 (Z.leb_gt _ _)) by done. unfold bind at 1.
  destruct (release_cloud_lease config environ X E w) as [[[]|] wa]; [|done]. unfold bind at 1.
  destruct (resolve_endpoint run_ssh config E wa) as [[ep|] wb]; [|done]. unfold bind at 1.
  destruct (acquire_for_owner _ _ _ _ _ _ _ E wb) as [[resp|] wc] eqn:Ha; [|done].
  unfold ret in Hl. injection Hl as -> -> ->. apply acquired_port in Ha as (port & Hp & Hr).
  exists port. split; [done|]. split; [done|]. unfold bind, lift. rewrite Hp. unfold try_with.
  destruct (checked_home config models_status (re_api_key endpoint) port E w1) as [[home|e] w2] eqn:Hc.
  - unfold ret. unfold checked_home, bind in Hc.
    destruct (probe_endpoint _ _ _ _ E w1) as [[[status|]|] w3]; [|done|done].
    destruct (Z.leb_spec 200 status); [|done]. destruct (Z.ltb_spec status 300); [|done]. cbn [andb] in Hc.
    exists status, home, w3. by rewrite reads_cloud.
  - unfold except_all. fold lease_id. destruct (client_release config X lease_id E w2) as [[[]|e'] w4] eqn:Hx;
      exists w2; by rewrite Hx.
Qed.

(** Selecting an account gives the lease back before it looks at the name: a name that is no
    account leaves the shell in cloud mode, without its tunnel. *)
Lemma failed_selection_drops_lease name e E w w1 w2 :
  release_cloud_lease config environ X E w = (Ok tt, w1) → shell_select config name E w1 = (Raise e, w2) →
  select_account config environ X name E w = (Raise e, w2).
Proof. intros H H'. unfold select_account, bind. by rewrite H, H'. Qed.
End leases.

(** ** Witnesses *)

(** A host without the helper, whose gateway key is [key-1]; a broker that grants every
    request and leaves the last one in [/sent]; a gateway that answers [status]. *)
Definition legacy_ssh (words : list string) (_ : option string) (_ : Z) : M ssh_outcome :=
  ret (Finished (if List.last words "" =s? lc_api_key_command sample_accounts
                 then MkCompleted 0 ("key-1" +:+ LF) "" else MkCompleted 127 "" "")).
Definition sent_to : path := path_of "/sent".
Definition granted : string :=
  control_line [("ok", JBool true); ("leaseId", JStr "lease-1"); ("publicPort", JInt 4711); ("generation", JInt 1)].
Definition granting : machine :=
  Machine 7 "python3" (path_of "/opt/cloudx") (ret "lease-1"%string)
    (λ _ sent _, let! f := get_fs in put_fs (<[sent_to := File sent 384]> f) ;; ret [Chunk granted])
    (λ _ _, mraise OSError "not started") (λ _, ret false) (ret 0).
Definition cloud_try (status : Z) : res string * world :=
  select_cloud legacy_ssh sample_accounts [] granting (λ _ _ _, ret (Some status)) 42 calm (World account_files 0).
Definition last_sent (w : world) : option string :=
  match w_fs w !! sent_to with Some (File s _) => Some s | _ => None end.

Lemma cloud_mode_leases_witness :
  is_ok (cloud_try 200).1 = true ∧ is_ok (cloud_try 503).1 = false ∧
  last_sent (cloud_try 503).2 = Some (control_line [("command", JStr "release"); ("leaseId", JStr "lease-1")]) ∧
  ∃ endpoint response w1,
    lease_cloud legacy_ssh sample_accounts [] granting 42 calm (World account_files 0) = (Ok (endpoint, response), w1) ∧
    ∃ port, or_int (dget "publicPort" response) 0 = Ok port ∧ 1 <= port <= 65535 ∧
      match cloud_try 503 with
      | (Ok _, _) => True
      | (Raise _, w') => ∃ w2, w' = (client_release sample_accounts granting (str_or_empty (dget "leaseId" response)) calm w2).2
      end.
Proof.
  split; [vm_compute; reflexivity|]. split; [vm_compute; reflexivity|]. split; [vm_compute; reflexivity|].
  assert (Hok : is_ok (lease_cloud legacy_ssh sample_accounts [] granting 42 calm (World account_files 0)).1 = true)
    by (vm_compute; reflexivity).
  destruct (lease_cloud legacy_ssh sample_accounts [] granting 42 calm (World account_files 0))
    as [[[endpoint response]|e] w1] eqn:Hl; [|discriminate Hok].
  exists endpoint, response, w1. split; [reflexivity|].
  destruct (cloud_mode_leases legacy_ssh sample_accounts [] granting (λ _ _ _, ret (Some 503)) 42 calm
    (World account_files 0) endpoint response w1 ltac:(lia) Hl) as (port & Hp & Hr & H).
  exists port. split; [exact Hp|]. split; [exact Hr|].
  unfold cloud_try in *. destruct (select_cloud _ _ _ _ _ _ _ _) as [[t|e] w']; [exact I|exact H].
Defined.


(** A mistyped account in cloud mode: the lease is released, the shell is told nothing. *)
Example mistyped_account :
  let run := select_account sample_accounts [("CLOUDX_MODE", "cloud"); ("CLOUDX_MODE_LEASE_ID", "lease-1")] granting
               "wrok" calm (World account_files 0) in
  run.1 = raise RuntimeError "unknown account: wrok" ∧
  last_sent run.2 = Some (control_line [("command", JStr "release"); ("leaseId", JStr "lease-1")]).
Proof. split; vm_compute; reflexivity. Qed.
