(* ===== verification/LocalCpa.v ===== *)
(** * The desktop's [import] command ([local/cloudx_local/local_cpa.py])

    The options, the import from a path or from redirected input, and what is printed: the
    document, a report on a terminal, or the counts.  [url_open], [expanduser] and [opener] are
    those of [LocalImport]; [stdin n] reads at most [n] characters, and [stdin_tty] and
    [terminal] say whether the standard input and output are terminals. *)

From S2P Require Import Prelude PyStr PyFloat PyValue PyTime PyJson FS AgentIdentity Wp CpaRecords.
From S2P Require Import LocalConfig LocalImport LocalImportSafety ImportUi CloudCli.

Record import_options := ImportOptions {
  io_force : bool; io_dry_run : bool; io_json : bool; io_name_prefix : string }.

Fixpoint options_from (o : import_options) (extra : list string) : res import_options :=
  match extra with
  | [] => Ok o
  | token :: rest =>
      if token =s? "--force" then options_from (ImportOptions true (io_dry_run o) (io_json o) (io_name_prefix o)) rest else
      if token =s? "--dry-run" then options_from (ImportOptions (io_force o) true (io_json o) (io_name_prefix o)) rest else
      if token =s? "--json" then options_from (ImportOptions (io_force o) (io_dry_run o) true (io_name_prefix o)) rest else
      if token =s? "--name-prefix" then
        match rest with
        | [] => import_error "invalid_arguments" "--name-prefix requires a value"
        | value :: rest =>
            options_from (ImportOptions (io_force o) (io_dry_run o) (io_json o) (str_or (strip value) (io_name_prefix o))) rest
        end else
      if starts_with "--name-prefix=" token then
        options_from (ImportOptions (io_force o) (io_dry_run o) (io_json o)
          (str_or (strip (str_drop (String.length "--name-prefix=") token)) (io_name_prefix o))) rest
      else import_error "invalid_arguments" ("unknown local import option: " +:+ token)
  end.
Definition options (extra : list string) : res import_options :=
  options_from (ImportOptions true false false "codexx-import") extra.

Definition COUNT_LINES : list (string * string) :=
  [("discovered", "discovered"); ("skipped", "skipped"); ("parsed", "parsed"); ("duplicates", "duplicates");
   ("unchanged", "unchanged"); ("imported", "written"); ("verified", "verified")].
Definition raw_counts (r : local_import_result) : string :=
  let counts := dict_or_empty (dget "counts" (result_document r)) in
  String.concat "" (map (λ x, x.1 +:+ ": " +:+ py_str (dget x.2 counts) +:+ LF) COUNT_LINES).

Section command.
Context (url_open : string → M (string + Z)) (expanduser : path → path) (opener : string → M (Z * json)).
Context (config : local_config) (stdin : Z → M string) (stdin_tty terminal : bool).

Definition import_from (o : import_options) (source : string) : M local_import_result :=
  if source =s? "-" then
    if stdin_tty then lraise "source_missing" "stdin source requires redirected input" else
    let! text := stdin (LOCAL_MAX_SOURCE_BYTES + 1) in
    import_text url_open expanduser opener config text (io_force o) (io_dry_run o) (io_name_prefix o)
  else import_path url_open expanduser opener config (path_of source) (io_force o) (io_dry_run o) (io_name_prefix o).
(** The [try] block. *)
Definition attempt_import (source : string) (extra : list string) : M (import_options * local_import_result) :=
  let! o := lift (options extra) in let! r := import_from o source in ret (o, r).

Definition document_line (document : dict) : string := dumps (st_compact true true) (JDict document) +:+ LF.
Definition import_refused (extra : list string) (e : exn) : printed :=
  let reason := sanitize_reason (exn_msg e) in
  let document := failure_document (exn_code e) reason (mem "--dry-run" extra) in
  if mem "--json" extra then Printed (document_line document) "" 1
  else if terminal then Printed "" (render (failure_report LOCAL_CPA_DESTINATION reason (exn_code e))) 1
  else Printed "" ("codexx import: " +:+ exn_code e +:+ ": " +:+ reason +:+ LF) 1.

Definition import_local (source : string) (extra : list string) : M printed :=
  let! outcome := try_with (let! x := attempt_import source extra in ret (inl x))
                    (except [LocalImportError] (λ e, ret (inr e))) in
  match outcome with
  | inr e => ret (import_refused extra e)
  | inl (o, r) =>
      if io_json o then ret (Printed (document_line (result_document r)) "" 0)
      else if terminal then let! report := lift (local_report (result_document r)) in ret (Printed (render report) "" 0)
      else ret (Printed (raw_counts r) "" 0)
  end.
End command.

Example option_samples :
  options ["--dry-run"; "--name-prefix= team "; "--json"] = Ok (ImportOptions true true true "team") ∧
  options ["--name-prefix"; " "] = Ok (ImportOptions true false false "codexx-import") ∧
  options ["--name-prefix"] = import_error "invalid_arguments" "--name-prefix requires a value" ∧
  options ["-f"] = import_error "invalid_arguments" "unknown local import option: -f".
Proof. repeat split; reflexivity. Qed.

(** * What the desktop's [import] command reports

    Every credential that was read is accounted for, and the report of an import that
    succeeded is never refused by the checks of the report. *)

(** ** Counts *)

Lemma mmap_length {A B} (g : A → M B) l E w ys w' : mmap g l E w = (Ok ys, w') → length ys = length l.
Proof.
  revert ys w w'. induction l as [|x l IH]; intros ys w w'; cbn [mmap]; [intros [= <- _]; reflexivity|].
  intros (y & w1 & _ & H)%bind_ok. apply bind_ok in H as (zs & w2 & H & [= <- _]). simpl. f_equal. by apply (IH _ _ _ H).
Qed.

Lemma changes_length plans states : (length (changes_of plans states) <= length plans)%nat.
Proof.
  unfold changes_of. assert (H : (length (combine plans states) <= length plans)%nat) by (rewrite length_combine; lia).
  etransitivity; [|exact H]. clear H. induction (combine plans states) as [|[p [[t o] []]] l IH]; simpl; lia.
Qed.
Lemma count_same_bound states : 0 <= count_same states <= Z.of_nat (length states).
Proof. unfold count_same. pose proof (List.filter_length_le (λ s : path * option string * bool, s.2) states). lia. Qed.

Definition counted_all (plans written unchanged verified : Z) : Prop :=
  written + unchanged = plans ∧ 0 <= written ∧ 0 <= unchanged ∧ 0 <= verified.

Lemma with_lock_ok {A} auth_dir (body : M A) E w r w' :
  with_import_lock auth_dir body E w = (Ok r, w') → ∃ w1 w2, body E w1 = (Ok r, w2).
Proof.
  unfold with_import_lock. intros ([] & w1 & _ & H)%bind_ok. apply bind_ok in H as (link & w2 & _ & H).
  destruct link; [done|]. apply bind_ok in H as ([] & w3 & _ & H). unfold finally at 1 in H.
  match type of H with match ?m with _ => _ end = _ => destruct m as [r1 w4] eqn:Hb end.
  destruct (finally sys sys E w4) as [[[]|] w5]; [|done]. injection H as -> _.
  apply bind_ok in Hb as ([] & w6 & _ & H). apply bind_ok in H as (now & w7 & _ & H).
  apply bind_ok in H as ([] & w8 & _ & H). eauto.
Qed.

Lemma write_plans_counts auth_dir plans force dry E w written unchanged verified w' :
  write_plans auth_dir plans force dry E w = (Ok (written, unchanged, verified), w') →
  counted_all (Z.of_nat (length plans)) written unchanged verified.
Proof.
  unfold write_plans, counted_all. intros (link & w1 & _ & H)%bind_ok. apply bind_ok in H as (unsafe & w2 & _ & H).
  destruct unsafe; [done|]. destruct dry.
  - apply bind_ok in H as (dir & w3 & _ & H). apply bind_ok in H as (states & w4 & Hs & H).
    apply bind_ok in H as ([] & w5 & _ & H). injection H as <- <- <- _.
    assert (length states <= length plans)%nat.
    { destruct dir; [by rewrite (mmap_length _ _ _ _ _ _ Hs)|]. injection Hs as <- _. simpl. lia. }
    pose proof (count_same_bound states). lia.
  - apply with_lock_ok in H as (w3 & w4 & H). apply bind_ok in H as (states & w5 & _ & H).
    apply bind_ok in H as ([] & w6 & _ & H). apply bind_ok in H as ([] & w7 & _ & H). injection H as <- <- <- _.
    pose proof (changes_length plans states). lia.
Qed.

(** The counts of a result: none is negative, and every credential is a duplicate, written or
    unchanged. *)
Definition accounted (r : local_import_result) : Prop :=
  li_parsed r = li_duplicates r + li_written r + li_unchanged r ∧
  Forall (λ n, 0 <= n) [li_discovered r; li_ignored r; li_parsed r; li_duplicates r; li_written r; li_unchanged r; li_verified r].

Lemma deduplicate_bound seen l : 0 <= (deduplicate seen l).2.
Proof.
  revert seen. induction l as [|[flat hint] l IH]; intros seen; cbn [deduplicate]; [simpl; lia|].
  destruct (mem _ seen).
  - specialize (IH seen). destruct (deduplicate seen l). simpl in *. lia.
  - specialize (IH (local_fingerprint flat :: seen)). by destruct (deduplicate _ l).
Qed.

Section runs.
Context (url_open : string → M (string + Z)) (expanduser : path → path) (opener : string → M (Z * json)).
Context (config : local_config).

Lemma complete_counts flats discovered ignored force dry prefix E w r w' :
  complete_import expanduser opener config flats discovered ignored force dry prefix E w = (Ok r, w') →
  0 <= discovered → 0 <= ignored → accounted r ∧ li_dry_run r = dry.
Proof.
  unfold complete_import. pose proof (deduplicate_length [] flats) as Hl. pose proof (deduplicate_bound [] flats) as Hb.
  destruct (deduplicate [] flats) as [unique duplicates]. simpl in Hl, Hb.
  intros ([] & w1 & _ & H)%bind_ok Hd Hi. apply bind_ok in H as (auth_dir & w2 & _ & H).
  apply bind_ok in H as ([[written unchanged] verified] & w3 & H & Hr). injection Hr as <- _.
  apply write_plans_counts in H as (H1 & H2 & H3 & H4). unfold plan_files in H1. rewrite plan_length in H1.
  split; [|done]. split; simpl; [lia|]. repeat constructor; lia.
Qed.

Lemma mfold_inv {A B} (g : A → B → M A) (P : A → Prop) l a E w a' w' :
  (∀ a b E w a' w', P a → g a b E w = (Ok a', w') → P a') → P a → mfold g a l E w = (Ok a', w') → P a'.
Proof.
  intros Hg. revert a w. induction l as [|b l IH]; intros a w Ha; cbn [mfold]; [by intros [= <- _]|].
  intros (a1 & w1 & H & Hl)%bind_ok. eapply IH; [|exact Hl]. by eapply Hg.
Qed.

Lemma discover_counts directory dry E w flats discovered ignored w' :
  discover_directory url_open directory dry E w = (Ok (flats, discovered, ignored), w') → 0 <= discovered ∧ 0 <= ignored.
Proof.
  unfold discover_directory. intros (found & w1 & _ & H)%bind_ok.
  apply bind_ok in H as ([[candidates ign] disc] & w2 & Hg & H).
  apply (mfold_inv _ (λ s : list path * Z * Z, 0 <= s.1.2 ∧ 0 <= s.2)) in Hg; [|clear|simpl; lia].
  2: { intros [[c i] d] p E w a' w' [Hi Hd]. unfold gather_step. intros (kind & w1 & _ & H)%bind_ok. injection H as <- _.
       simpl in *. destruct kind as [[]|]; simpl; lia. }
  simpl in Hg. destruct (Nat.ltb _ _); [done|]. apply bind_ok in H as (sizes & w3 & _ & H).
  destruct (_ <? _); [done|]. apply bind_ok in H as ([fl ig] & w4 & Hr & H).
  apply (mfold_inv _ (λ s : list (dict * string) * Z, 0 <= s.2)) in Hr; [|clear|simpl; lia].
  2: { intros [fs i] p E w a' w' Hi. unfold read_candidate. intros (text & w1 & _ & H)%bind_ok.
       destruct (_ || _); [injection H as <- _; simpl in *; lia|]. apply bind_ok in H as (ex & w2 & _ & H).
       injection H as <- _. simpl in *. lia. }
  simpl in Hr. destruct fl; [done|]. injection H as <- <- <- _. lia.
Qed.

Lemma import_counts stdin tty o source E w r w' :
  import_from url_open expanduser opener config stdin tty o source E w = (Ok r, w') →
  accounted r ∧ li_dry_run r = io_dry_run o.
Proof.
  unfold import_from. destruct (source =s? "-").
  - destruct tty; [done|]. intros (text & w1 & _ & H)%bind_ok. unfold import_text in H.
    destruct (_ <? _); [done|]. apply bind_ok in H as (flats & w2 & _ & H). by eapply complete_counts.
  - unfold import_path. intros (link & w1 & _ & H)%bind_ok. destruct link; [done|].
    apply bind_ok in H as (dir & w2 & _ & H). destruct dir.
    { apply bind_ok in H as ([[flats d] i] & w3 & Hd & H). apply discover_counts in Hd as [? ?]. by eapply complete_counts. }
    apply bind_ok in H as (file & w3 & _ & H). destruct file; [|done]. cbn [negb] in H.
    destruct (mem _ IMPORT_SUFFIXES); [|done]. cbn [negb] in H. apply bind_ok in H as (text & w4 & _ & H).
    destruct (marker_present text); [|done]. cbn [negb] in H. apply bind_ok in H as (flats & w5 & _ & H).
    by eapply complete_counts.
Qed.
End runs.

(** ** The report *)

(** What a report on the terminal says of a result. *)
Definition reports (report : import_report) (r : local_import_result) : Prop :=
  ir_imported report = Some (li_written r) ∧
  ir_skipped report = Some (li_ignored r + li_duplicates r + li_unchanged r) ∧
  ir_reasons report = [] ∧
  ir_status report = if li_dry_run r then "preview succeeded (no changes written)"%string
                     else if (li_written r =? 0)%Z then "succeeded (no changes)"%string else "succeeded"%string.

Lemma count_is d name n : dget name d = JInt n → 0 <= n → count_of d name = Ok n.
Proof. intros H Hn. unfold count_of. rewrite H. by rewrite (proj2 (Z.ltb_ge _ _)). Qed.

Lemma local_report_ok r : accounted r → ∃ report, local_report (result_document r) = Ok report ∧ reports report r.
Proof.
  intros [_ Hn]. repeat (apply List.Forall_cons_iff in Hn as [? Hn]). unfold local_report.
  change (dget "dryRun" (result_document r)) with (JBool (li_dry_run r)). cbv zeta.
  match goal with |- context [dget "counts" (result_document r)] =>
    let d := eval cbv [result_document] in (result_document r) in
    let c := eval cbn in (dget "counts" d) in change (dget "counts" (result_document r)) with c end.
  assert (mem (str_or_empty (dget "status" (result_document r))) ["accepted"; "preview"] = true) as ->
    by (unfold result_document; by destruct (li_dry_run r)).
  cbn [negb]. unfold skipped_items.
  repeat match goal with |- context [count_of ?d ?k] => rewrite (count_is d k _ eq_refl) by lia; cbv beta iota end. rewrite Z.eqb_refl. cbn [negb].
  eexists. split; [reflexivity|]. unfold reports. cbn [ir_imported ir_skipped ir_reasons ir_status].
  split; [done|]. split; [done|]. split; [done|]. destruct (li_dry_run r); [done|]. by destruct (li_written r =? 0).
Qed.

(** C18: the import command reports what the import did: its own checks never refuse a result,
    so an import that succeeded ends with status 0 and prints, as asked, the document, the
    seven counts, or a report with the number of files that were written and of credentials
    and files that were passed over, where no count is negative and every credential is
    written, unchanged or a duplicate; an import that was refused ends with status 1 and its
    sanitised reason; and no other exception is hidden. *)
Theorem local_import_reported url_open expanduser opener config stdin tty terminal source extra E w :
  let attempt := attempt_import url_open expanduser opener config stdin tty source extra E w in
  match import_local url_open expanduser opener config stdin tty terminal source extra E w with
  | (Ok p, w') =>
      (∃ o r, attempt = (Ok (o, r), w') ∧ accounted r ∧ li_dry_run r = io_dry_run o ∧ code p = 0 ∧ err p = ""%string ∧
         if io_json o then out p = document_line (result_document r)
         else if terminal then ∃ report, out p = render report ∧ reports report r
         else out p = raw_counts r) ∨
      (∃ e, attempt = (Raise e, w') ∧ catches LocalImportError (exn_cls e) = true ∧
         p = import_refused terminal extra e ∧ code p = 1)
  | (Raise e, w') => attempt = (Raise e, w') ∧ catches LocalImportError (exn_cls e) = false
  end.
Proof.
  intros attempt. unfold import_local, bind at 1, try_with, bind at 1. fold attempt.
  destruct attempt as [[[o r]|e] w1] eqn:Ha; unfold ret at 1.
  - assert (Hc : accounted r ∧ li_dry_run r = io_dry_run o).
    { unfold attempt, attempt_import in Ha. apply bind_ok in Ha as (o' & w2 & _ & Ha).
      apply bind_ok in Ha as (r' & w3 & Hi & Ha). injection Ha as -> -> _. by apply import_counts in Hi. }
    destruct Hc as [Hacc Hdry]. destruct (io_json o) eqn:Hj; [|destruct terminal].
    + left. exists o, r. by rewrite Hj.
    + destruct (local_report_ok r Hacc) as (report & Hr & Hrep). unfold bind, lift. rewrite Hr. unfold ret.
      left. exists o, r. rewrite Hj. eauto 10.
    + left. exists o, r. by rewrite Hj.
  - unfold except. cbn [existsb]. rewrite orb_false_r. destruct (catches LocalImportError (exn_cls e)) eqn:Hk; [|done].
    right. exists e. repeat split; [done|]. unfold import_refused. destruct (mem _ extra); [done|]. by destruct terminal.
Qed.
