(* ===== verification/DesktopMain.v ===== *)
(** * The desktop's programs ([codexx_cli.py], [cli.py], the commands of [cloud_cli.py],
    [upgrade.py], [updater.py] and [broker.py] in [local/cloudx_local/])

    Which part of the program a list of words runs.  The artifact is one file that is called
    as [codexx], [cloud] or [cloudx-update].  The [argparse] parsers are parameters: each
    gives the arguments of its command, or the status with which it ends the program after its
    own message.  [serve] is [BrokerServer(config).serve()]. *)

From S2P Require Import Prelude PyStr PyFloat PyValue PyTime PyJson FS Health AgentIdentity.
From S2P Require Import CpaRecords CpaAuth CpaQuota Broker LocalConfig LocalProbe LocalMaintenance.
From S2P Require Import Releases Trees Bundle LocalSettings Remote LocalReleases ShellHook Updater.
From S2P Require Import Upgrade Accounts BrokerClient ImportUi CloudCli ApiDiagnosis Modes LocalCpa.

(** ** What the parsers give *)

Definition parsed (A : Type) : Type := list string → A + Z.
Record mode_args := ModeArgs { ma_mode : string; ma_name : option string; ma_shell_pid : option Z }.
Record upgrade_args := UpgradeArgs { ua_check : bool; ua_json : bool; ua_index_dir : option path }.
Inductive cloud_command :=
| CloudCodex (check : bool) (codex_args : list string)
| CloudDiagnose (json_output : bool)
| CloudImport (source : string) (dry_run force json_output : bool)
| CloudUpgrade (a : upgrade_args).
Inductive update_command :=
| UpdateCheck (index_dir : option path) (quiet : bool)
| UpdateStage (source : path) (local_only : bool)
| UpdateApply (version confirm : string) (local_only cloud_only install_shell_hook : bool) (seed_native_from : option string)
| UpdateRollback (confirm : string) (local_only cloud_only : bool).
Record parsers := Parsers {
  parse_mode : parsed mode_args; parse_account : parsed account_command;
  parse_diagnose : parsed (option string * bool); parse_refresh : parsed bool;
  parse_restore : parsed (string * string); parse_upgrade : parsed upgrade_args;
  parse_cloud : parsed cloud_command; parse_update : parsed update_command }.

(** What is outside the program. *)
Record surroundings := Surroundings {
  environ : environment; load_config : M local_config; machine_of : machine;
  ssh_run : list string → option string → Z → M ssh_outcome;
  models : local_config → Z → string → pyfloat → M (option Z);
  codex_run : list string → environment → M (option Z);
  token_endpoint : string → M (string + Z); service : string → M (Z * json);
  probe_http : option string → string → list (string * string) → M reply;
  expand : path → path; host_of : host; tools_of : tools; process_id : Z; parent_pid : Z; packaged : string;
  stdin_bytes : M string; stdin_text : Z → M string; stdin_terminal : bool; stdout_terminal : bool;
  serve : local_config → M Z }.

Section programs.
Context (S : surroundings) (P : parsers) (codexx_help account_help : string).

Definition said (text : string) : printed := Printed text "" 0.
Definition usage (status : Z) : M printed := ret (Printed "" "" status).
Definition pretty (document : dict) : string := dumps (st_pretty 2 true true) (JDict document) +:+ LF.
Definition with_args {A} (p : parsed A) (arguments : list string) (run : A → M printed) : M printed :=
  match p arguments with inl a => run a | inr status => usage status end.

(** ** Diagnosis, upgrade and maintenance *)

Definition log_dir_of (config : local_config) : path :=
  expand S (match env_get (environ S) "CLOUDX_LOCAL_CPA_LOG_DIR" with
            | Some s => path_of s | None => under (lc_home config) [".cli-proxy-api"; "logs"] end).
Definition diagnose_run (config : local_config) (forced : option string) (arguments : list string) : M printed :=
  with_args (parse_diagnose P) arguments (λ a,
    let! document := run_diagnosis (ssh_run S) config (environ S) (machine_of S) (log_dir_of config) (models S config) forced a.1 in
    ret (said (diagnosis_text a.2 document))).

(** [_render] of an upgrade: [%s] of a value that is not there is [None]. *)
Definition UPGRADE_LABELS : list (string * string) :=
  [("up-to-date", "already up to date"); ("update-available", "update available (no changes made)"); ("upgraded", "upgraded")].
Definition render_upgrade (document : dict) : string :=
  "Cloudx upgrade" +:+ LF +:+
  printed_line "Status" (text_of UPGRADE_LABELS (py_str (dget "status" document)) "failed") +:+
  printed_line "Destination" (if eq_str (dget "endpoint" document) "local" then "this computer" else "cloud helper") +:+
  printed_line "Before" (py_str (dget "currentBefore" document)) +:+
  printed_line "Available" (py_str (dget "available" document)) +:+
  printed_line "Current" (py_str (dget "currentAfter" document)) +:+
  printed_line "Verification"
    (if eq_str (dget "verificationScope" document) "complete-release-chain"
     then "signed index, exact manifest, artifact digest, and self-check"
     else "signed stable index only; no release artifact fetched") +:+
  printed_line "Service restarted" "no" +:+
  (if truthy (dget "shellReloadRecommended" document)
   then printed_line "Next" "open a new shell to load the upgraded command surface" else "").
Definition upgrade_args_run (config : local_config) (endpoint : string) (a : upgrade_args) : M printed :=
  let! document := upgrade_endpoint (host_of S) (tools_of S) config (process_id S) (packaged S) (ssh_run S)
                     endpoint (ua_check a) (ua_index_dir a) in
  ret (said (if ua_json a then pretty document else render_upgrade document)).
Definition upgrade_run (config : local_config) (endpoint : string) (arguments : list string) : M printed :=
  with_args (parse_upgrade P) arguments (upgrade_args_run config endpoint).

Definition sweep_concurrency : Z :=
  match env_get (environ S) "CLOUDX_LOCAL_CPA_SWEEP_CONCURRENCY" with
  | Some s => default DEFAULT_CONCURRENCY (int_of_str s)
  | None => DEFAULT_CONCURRENCY
  end.
Definition sorted_line (document : dict) : string := dumps (st_default true true) (JDict document) +:+ LF.
Definition refresh_run (config : local_config) (arguments : list string) : M printed :=
  with_args (parse_refresh P) arguments (λ apply,
    let! document := refresh_document (probe_http S) (expand S) config sweep_concurrency apply in
    ret (said (sorted_line document))).
Definition restore_run (config : local_config) (arguments : list string) : M printed :=
  with_args (parse_restore P) arguments (λ a,
    let! document := local_restore (expand S) config a.1 a.2 in ret (said (sorted_line document))).

(** ** [codexx] *)

Definition mode_config {A} (run : local_config → M A) : M A := let! config := load_config S in run config.
Definition print_mode (m : M string) : M printed := let! text := m in ret (said (text +:+ LF)).
Definition exit_run (config : local_config) : M printed := print_mode (exit_mode config (environ S) (machine_of S)).
Definition account_run (config : local_config) (name : string) : M printed :=
  print_mode (select_account config (environ S) (machine_of S) name).

(** [_mode]. *)
Definition mode_run (arguments : list string) : M printed :=
  with_args (parse_mode P) arguments (λ a,
    let name := default "" (ma_name a) in
    let! config := load_config S in
    if ma_mode a =s? "cloud" then
      if name <>s? "" then cloud_error "cloud mode does not accept an account name" else
      print_mode (select_cloud (ssh_run S) config (environ S) (machine_of S) (models S config)
                    (default (parent_pid S) (ma_shell_pid a)))
    else if ma_mode a =s? "account" then
      if name =s? "" then cloud_error "account mode requires an account name" else account_run config name
    else if name <>s? "" then cloud_error "exit mode does not accept an account name" else exit_run config).

(** [cloud_cli.main]. *)
Definition upgrade_words (a : upgrade_args) : list string :=
  (if ua_check a then ["--check"] else []) ++ (if ua_json a then ["--json"] else []) ++
  match ua_index_dir a with Some p => ["--index-dir"; path_str p] | None => [] end.
Definition cloud_run (arguments : list string) : M printed :=
  with_args (parse_cloud P) arguments (λ c,
    let! config := load_config S in
    match c with
    | CloudCodex check codex_args =>
        cloud_codex (ssh_run S) config (environ S) (machine_of S) (models S config) (codex_run S) check codex_args
    | CloudDiagnose json_output => diagnose_run config (Some "cloud"%string) (if json_output then ["--json"] else [])
    | CloudImport source dry_run force json_output =>
        run_import (ssh_run S) config (stdin_bytes S) (expand S) (stdout_terminal S) source dry_run force json_output
    | CloudUpgrade a => upgrade_run config "cloud" (upgrade_words a)
    end).

Definition LIFECYCLE : list string :=
  ["add"; "login"; "status"; "logout"; "list"; "current"; "remove"; "rename"; "-h"; "--help"].
Definition local_target (word : string) : bool := mem word ["api"; "cpa"].
Definition IMPORT_USAGE : string := "a local file or directory is required; usage: codexx import <source>".
Definition import_run (arguments : list string) : M printed :=
  match arguments with
  | [] =>
      if stdout_terminal S then ret (Printed "" (render (failure_report LOCAL_CPA_DESTINATION IMPORT_USAGE "")) 2)
      else cloud_error "local CPA import requires a local file or directory"
  | source :: extra =>
      let! config := load_config S in
      import_local (token_endpoint S) (expand S) (service S) config (stdin_text S) (stdin_terminal S) (stdout_terminal S) source extra
  end.
Definition accounts_run (arguments : list string) : M printed :=
  let! config := load_config S in
  let! a := accounts_main config (environ S) (codex_run S) (packaged S) account_help (parse_account P) arguments in
  ret (Printed a.1 "" a.2).

(** The command that two words select for the local gateway. *)
Definition local_command (word : string) : option (local_config → list string → M printed) :=
  if word =s? "refresh" then Some refresh_run else if word =s? "restore" then Some restore_run else None.

Definition codexx_main (arguments : list string) : M printed :=
  match arguments with
  | [] | ["-h"] | ["--help"] => ret (said (codexx_help +:+ LF))
  | "_mode" :: rest => mode_run rest
  | "cloud" :: "import" :: rest => cloud_run ("import"%string :: rest)
  | "cloud" :: "upgrade" :: rest => cloud_run ("upgrade"%string :: rest)
  | "cloud" :: "diagnose" :: rest => let! config := load_config S in diagnose_run config (Some "cloud"%string) rest
  | "diagnose" :: rest => let! config := load_config S in diagnose_run config None rest
  | "upgrade" :: rest => let! config := load_config S in upgrade_run config "local" rest
  | "cloud" :: _ => mode_run ["cloud"; "--shell-pid"; str_of_Z (parent_pid S)]
  | "import" :: rest => import_run rest
  | ["exit"] => let! config := load_config S in exit_run config
  | "use" :: rest =>
      match rest with
      | [name] => let! config := load_config S in account_run config name
      | _ => cloud_error "use requires exactly one account name"
      end
  | [word] => if mem word LIFECYCLE then accounts_run arguments else let! config := load_config S in account_run config word
  | word :: second :: rest =>
      if local_target word && (second =s? "diagnose") then let! config := load_config S in diagnose_run config (Some word) rest
      else if local_target word then
        match local_command second with
        | Some run => let! config := load_config S in run config rest
        | None => accounts_run arguments
        end
      else accounts_run arguments
  end.

(** ** [cloudx-update], and the artifact *)

Definition update_run (arguments : list string) : M printed :=
  with_args (parse_update P) arguments (λ c,
    let! config := load_config S in
    match c with
    | UpdateCheck index_dir quiet =>
        let! result := updater_check (host_of S) (tools_of S) config index_dir in
        ret (said (if quiet then "" else pretty result))
    | UpdateStage source local_only =>
        let! result := with_stage_source (host_of S) (tools_of S) config source (λ source,
          updater_stage (host_of S) (tools_of S) config (process_id S) (ssh_run S) source local_only None None) in
        ret (said (pretty result))
    | UpdateApply version confirm local_only cloud_only install_shell_hook seed_native_from =>
        let! result := apply (tools_of S) config (process_id S) (packaged S) (ssh_run S) version confirm local_only
                         install_shell_hook seed_native_from cloud_only in
        ret (said (pretty result))
    | UpdateRollback confirm local_only cloud_only =>
        let! result := updater_rollback config (process_id S) (ssh_run S) confirm local_only cloud_only in
        ret (said (pretty result))
    end).

Definition schedule_update_check : M unit :=
  try_with (let! config := load_config S in
            maybe_schedule_check (tools_of S) config (environ S) (executable (machine_of S)) (path_str (argv0 (machine_of S))))
    (except [OSError; RuntimeError] (λ _, ret tt)).
Definition maybe_update_check (arguments : list string) : M unit :=
  match arguments with
  | "upgrade" :: _ | "cloud" :: "upgrade" :: _ => ret tt
  | _ => schedule_update_check
  end.

Definition self_check : dict :=
  [("schema", JStr "cloudx.self-check.v1"); ("component", JStr "local"); ("version", JStr LOCAL_VERSION);
   ("protocol", JDict [("min", JInt PROTOCOL_MIN); ("max", JInt PROTOCOL_MAX)]); ("status", JStr "ok")].

Definition desktop_main (program : string) (arguments : list string) : M printed :=
  let codexx arguments := maybe_update_check arguments ;; codexx_main arguments in
  let cloud arguments := maybe_update_check arguments ;; cloud_run arguments in
  if program =s? "codexx" then codexx arguments else
  if program =s? "cloud" then cloud arguments else
  if program =s? "cloudx-update" then update_run arguments else
  match arguments with
  | "_broker" :: rest =>
      if bool_decide (rest = ["serve"]) then
        let! config := load_config S in let! status := serve S config in ret (Printed "" "" status)
      else cloud_error "unsupported tunnel broker invocation"
  | "_broker-control" :: rest =>
      if bool_decide (rest = ["status"]) || bool_decide (rest = ["shutdown"]) then
        let! config := load_config S in
        let! text := control_main config (machine_of S) rest in ret (said text)
      else cloud_error "unsupported tunnel broker control invocation"
  | ["self-check"] => ret (said (document_line self_check))
  | [] => cloud_error "invoke this artifact as codexx, cloud, or cloudx-update"
  | command :: rest =>
      if command =s? "codexx" then codexx rest
      else if command =s? "cloud" then cloud rest
      else if mem command ["update"; "cloudx-update"] then update_run rest
      else cloud_error ("unknown local component entrypoint: " +:+ command)
  end.

(** [if __name__ == "__main__"]. *)
Definition run_desktop (program : string) (arguments : list string) : M printed :=
  try_with (desktop_main program arguments)
    (except [RuntimeError] (λ e, ret (Printed "" ("cloudx: " +:+ exn_msg e +:+ LF) 1))).
End programs.

