(* ===== verification/ReleaseLib.v ===== *)
(** * The release tools ([scripts/release_lib.py], [build.py], [create_release.py], [verify_release.py])

    How a release is made and checked before it is published.  [ROOT] is the checkout;
    [zip_archive] is the archive of named files with their attributes and bytes; [keygen_sign]
    writes a signature beside a file or raises, [keygen_verify] gives the exit status and the
    error text of [ssh-keygen -Y verify]; [tar_archive] packs a directory; [git_head] is what
    [git rev-parse HEAD] prints when it succeeds. *)

From S2P Require Import Prelude PyStr PyFloat PyValue PyTime PyJson FS PublicMetadata PyBase64.
From S2P Require Import PySha Wp FileData CpaRecords CpaAuth JsonRoundTrip CpaHealth ApiFailure.
From S2P Require Import LocalConfig LegacyBridgeFacts Releases CloudReleaseFacts Trees Bundle.
From S2P Require Import ShellHook CloudCli.

Definition RELEASE_IDENTITY : string := "cloudx-release".

(** ** [release_lib.py] *)

(** [VERSION_RE] has no [v], and [$] also matches before a final line feed. *)
Definition release_version (s : string) : option version := three_numbers (before_final_lf s).
Definition version_tuple (s : string) : res version :=
  match release_version s with Some v => Ok v | None => raise ValueError ("invalid version: " +:+ s) end.

Definition artifact_record (p : path) (component : string) : M dict :=
  let! digest := file_digest p in
  let! info := stat p in
  ret [("name", JStr (p_name p)); ("component", JStr component); ("sha256", JStr digest); ("size", JInt (node_size info))].

(** [isinstance(v, int)]: a truth value is one. *)
Definition int_value (v : json) : option Z :=
  match v with JInt z => Some z | JBool b => Some (if b then 1 else 0) | _ => None end.
Definition note (bad : bool) (message : string) : list string := if bad then [message] else [].

Definition version_errors (manifest : dict) : list string :=
  note (match dget "version" manifest with
        | JStr v => match release_version v with Some _ => false | None => true end
        | _ => true end) "invalid version".
Definition activation_errors (manifest : dict) : list string :=
  note (match dget "activation" manifest with JDict a => negb (is_false (dget "automatic" a)) | _ => true end)
    "automatic activation must be false".
Definition protocol_errors (manifest : dict) : list string :=
  match dget "protocol" manifest with
  | JDict p => match int_value (dget "min" p), int_value (dget "max" p) with
               | Some low, Some high => note (high <? low) "inverted protocol range"
               | _, _ => ["invalid protocol range"]%string
               end
  | _ => ["invalid protocol range"]%string
  end.

Definition hashable (v : json) : bool := match v with JList _ | JDict _ => false | _ => true end.
(** The set of the components; a list or an object is no element of a set. *)
Definition components (artifacts : list json) : res (list json) :=
  map_res (λ v, if hashable v then Ok v else raise TypeError "unhashable type")
    (omap (λ item, match item with JDict r => Some (dget "component" r) | _ => None end) artifacts).
Definition local_and_cloud (names : list json) : bool :=
  forallb (λ v, eq_str v "local" || eq_str v "cloud") names &&
  existsb (λ v, eq_str v "local") names && existsb (λ v, eq_str v "cloud") names.

Definition record_errors (item : json) : list string :=
  match item with
  | JDict r =>
      note (negb (is_sha256 (before_final_lf (py_str (dget_or "sha256" (JStr "") r))))) "invalid artifact hash" ++
      note (match int_value (dget "size" r) with Some n => n <? 1 | None => true end) "invalid artifact size"
  | _ => ["invalid artifact record"]%string
  end.
Definition artifact_errors (manifest : dict) : res (list string) :=
  match dget "artifacts" manifest with
  | JList artifacts =>
      let* names := components artifacts in
      Ok (note (negb (local_and_cloud names)) "manifest must contain local and cloud artifacts" ++
          flat_map record_errors artifacts)
  | _ => Ok ["artifacts must be a list"]%string
  end.

Definition validate_manifest (manifest : dict) : res (list string) :=
  let* artifact_errors := artifact_errors manifest in
  Ok (note (negb (eq_str (dget "schema" manifest) Bundle.MANIFEST_SCHEMA)) "unsupported manifest schema" ++
      note (negb (eq_str (dget "product" manifest) "cloudx")) "wrong product" ++
      version_errors manifest ++ activation_errors manifest ++ protocol_errors manifest ++ artifact_errors).

(** [item[key]] of an artifact record. *)
Definition item_field (item : json) (key : string) : res json :=
  match item with
  | JDict r => match dlookup key r with Some v => Ok v | None => raise KeyError key end
  | _ => raise TypeError "indices must be integers"
  end.
Definition artifact_name (item : json) : res string :=
  let* name := item_field item "name" in
  match name with JStr s => Ok s | _ => raise TypeError "unsupported operand type for /" end.
Definition artifact_check (directory : path) (item : json) : M (list string) :=
  let! name := lift (artifact_name item) in
  let p := path_join directory name in
  let! present := is_file_p p in
  if negb present then ret ["missing artifact: " +:+ name] else
  let! info := stat p in
  let! size := lift (item_field item "size") in
  let! digest := file_digest p in
  let! expected := lift (item_field item "sha256") in
  ret (note (negb (py_eq (JInt (node_size info)) size)) ("size mismatch: " +:+ name) ++
       note (negb (py_eq (JStr digest) expected)) ("hash mismatch: " +:+ name)).
Definition verify_artifacts (manifest : dict) (directory : path) : M (list string) :=
  let! items := lift (elements (dget_or "artifacts" (JList []) manifest)) in
  let! errors := mmap (artifact_check directory) items in
  ret (List.concat errors).

Definition load_release_manifest (p : path) : M dict :=
  let! text := read_text p in
  let! data := lift (loads text) in
  match data with JDict d => ret d | _ => mraise ValueError "manifest root must be an object" end.

Section tools.
Context (keygen_verify : string → path → string → path → M (Z * string)) (keygen_sign : path → M unit).
Context (zip_archive : list (string * Z * string) → string) (tar_archive : fs → path → string → string).
Context (git_head : M (option string)).
Context (ROOT : path).

Definition verify_release_signature (manifest_path signature_path allowed_signers : path) (identity : string) : M unit :=
  let! message := read_bytes manifest_path in
  let! (status, stderr) := keygen_verify identity allowed_signers message signature_path in
  if negb (status =? 0)
  then mraise RuntimeError ("release signature verification failed: " +:+ strip (utf8_replace stderr)) else ret tt.

(** ** [verify_release.py] *)

Definition downgrade_errors (manifest : dict) (current_version : option string) (allow_downgrade : bool) : res (list string) :=
  match current_version with
  | Some current =>
      if (current =s? "") || allow_downgrade then Ok [] else
      match dlookup "version" manifest with
      | Some (JStr v) =>
          let* a := version_tuple v in let* b := version_tuple current in
          Ok (note (version_ltb a b) "release is a downgrade")
      | Some _ => raise TypeError "expected string"
      | None => raise KeyError "version"
      end
  | None => Ok []
  end.
Definition verify_release (given allowed_signers : path) (identity : string) (current_version : option string)
    (allow_downgrade : bool) : M printed :=
  let! release_dir := resolve_lax given in
  let manifest_path := child release_dir MANIFEST in
  let! manifest := load_release_manifest manifest_path in
  let! invalid := lift (validate_manifest manifest) in
  let! mismatched := verify_artifacts manifest release_dir in
  let! downgrade := lift (downgrade_errors manifest current_version allow_downgrade) in
  match invalid ++ mismatched ++ downgrade with
  | [] =>
      verify_release_signature manifest_path (child release_dir "manifest.json.sig") allowed_signers identity ;;
      ret (Printed ("release: verified " +:+ py_str (dget "version" manifest) +:+ LF) "" 0)
  | errors => ret (Printed "" (String.concat "" (map (λ e, "release: " +:+ e +:+ LF) errors)) 1)
  end.

(** ** [build.py] *)

(** [sorted(source.rglob("*"))], the files that are packed. *)
Definition source_files (source : path) : M (list path) :=
  let! found := LocalImport.rglob source in
  let! kept := mmap (λ p,
    let! file := is_file_p p in
    ret (if file && negb (mem "__pycache__" p.2) && (p_suffix p <>s? ".pyc") then Some p else None)) found in
  ret (omap id kept).
Definition zip_entry (source p : path) : M (string * Z * string) :=
  let! info := stat p in
  let! data := read_bytes p in
  let name := match relative_to p source with Some r => path_str r | None => path_str p end in
  ret (name, Z.shiftl (if negb (Z.land (node_mode info) 73 =? 0) then 493 else 420) 16, data).
Definition build_component (component : string) (destination : path) (version : string) : M path :=
  let source := child ROOT component in
  let! present := is_file_p (child source "__main__.py") in
  if negb present then mraise RuntimeError (component +:+ " component has no __main__.py") else
  mkdir_parents destination 511 ;;
  let target := path_join destination ("cloudx-" +:+ component +:+ "-" +:+ version +:+ ".pyz") in
  let! opened := open_write target in
  let! files := source_files source in
  let! entries := mmap (zip_entry source) files in
  write_file opened ("#!/usr/bin/env python3" +:+ LF +:+ zip_archive entries) ;;
  chmod target 493 ;;
  ret target.
Definition read_version : M string := let! text := read_text (child ROOT "VERSION") in ret (strip text).
Definition build_all (destination : path) : M (path * path) :=
  let! version := read_version in
  let! local := build_component "local" destination version in
  let! cloud := build_component "cloud" destination version in
  ret (local, cloud).

(** ** [create_release.py] *)

Definition CONTRACTS : list string :=
  ["capacity"; "health"; "handshake"; "httpImporterStopGate"; "import"; "legacyHealthBridge";
   "phiCloudConsumerCredential"; "phiCloudConsumerTrafficPolicy"; "phiMeshCompatibilityProfile"].
Definition release_manifest (version commit : string) (local cloud : dict) : dict :=
  [("schema", JStr Bundle.MANIFEST_SCHEMA); ("product", JStr "cloudx"); ("version", JStr version);
   ("sourceCommit", JStr commit); ("protocol", JDict [("min", JInt 1); ("max", JInt 1)]);
   ("contracts", JDict (map (λ k, (k, JInt 1)) CONTRACTS));
   ("artifacts", JList [JDict local; JDict cloud]);
   ("activation", JDict [("automatic", JBool false); ("serviceRestartRequired", JBool false)])].
Definition manifest_text (manifest : dict) : string := dumps (st_pretty 2 true true) (JDict manifest) +:+ LF.

(** [raise SystemExit(message)]. *)
Definition exit_with (message : string) : M printed := ret (Printed "" (message +:+ LF) 1).
Definition create_release (output allowed_signers : path) (identity : string) : M printed :=
  let! version := read_version in
  let release_dir := path_join output version in
  let! present := exists_p release_dir in
  if present then exit_with ("release directory already exists: " +:+ path_str release_dir) else
  mkdir_parents (p_parent release_dir) 511 ;;
  mkdir_new release_dir 511 ;;
  let! (local_artifact, cloud_artifact) := build_all release_dir in
  let! head := git_head in
  let! local := artifact_record local_artifact "local" in
  let! cloud := artifact_record cloud_artifact "cloud" in
  let manifest := release_manifest version (match head with Some h => strip h | None => "uncommitted" end) local cloud in
  let manifest_path := child release_dir MANIFEST in
  write_bytes manifest_path (manifest_text manifest) ;;
  keygen_sign manifest_path ;;
  let! signed := exists_p (with_suffix manifest_path ".json.sig") in
  if negb signed then exit_with "ssh-keygen did not create the expected signature" else
  copy2 allowed_signers (child release_dir "allowed_signers") ;;
  write_bytes (child release_dir "SIGNING_IDENTITY") (identity +:+ LF) ;;
  let bundle := path_join output ("cloudx-" +:+ version +:+ "-offline.tar.gz") in
  let! f := get_fs in
  write_bytes bundle (tar_archive f release_dir ("cloudx-" +:+ version)) ;;
  ret (Printed (path_str release_dir +:+ LF +:+ path_str bundle +:+ LF) "" 0).
End tools.

(** * What the release tools make and check is what both endpoints accept

    The manifest of a new release is valid and is read back by the desktop and the cloud; a
    release that the verifier passes is one whose files they take. *)

(** ** What a valid manifest says *)

Lemma note_nil b m : note b m = [] → b = false.
Proof. by destruct b. Qed.

Lemma valid_manifest d :
  validate_manifest d = Ok [] →
  eq_str (dget "schema" d) Bundle.MANIFEST_SCHEMA = true ∧ eq_str (dget "product" d) "cloudx" = true ∧
  is_str (dget "version" d) = true ∧
  (∃ a, dget "activation" d = JDict a ∧ is_false (dget "automatic" a) = true) ∧
  ∃ artifacts, dget "artifacts" d = JList artifacts.
Proof.
  unfold validate_manifest. destruct (artifact_errors d) as [l|] eqn:Ha; [|done]. intros [= H].
  apply app_eq_nil in H as [H1%note_nil%negb_false_iff H]. apply app_eq_nil in H as [H2%note_nil%negb_false_iff H].
  apply app_eq_nil in H as [H3 H]. apply app_eq_nil in H as [H4 H]. apply app_eq_nil in H as [_ H5].
  split; [done|]. split; [done|]. split.
  { unfold version_errors in H3. apply note_nil in H3. by destruct (dget "version" d). }
  split.
  - unfold activation_errors in H4. apply note_nil in H4. destruct (dget "activation" d) as [| | | | | |a]; try done.
    exists a. split; [done|]. by apply negb_false_iff.
  - unfold artifact_errors in Ha. destruct (dget "artifacts" d) as [| | | | |l'|]; try (injection Ha as <-; done). by exists l'.
Qed.

Lemma accepts_manifest product_words (public : json → res json) d v E w :
  validate_manifest d = Ok [] → public (JDict d) = Ok v → accept_manifest product_words public (JDict d) E w = (Ok d, w).
Proof.
  intros (H1 & H2 & H3 & (a & Ha & Hf) & _)%valid_manifest Hp. unfold accept_manifest, bind, lift.
  by rewrite H1, Hp, H2, H3, Ha, Hf.
Qed.

(** The one record of a component. *)
Definition only_record (component : string) (d r : dict) : Prop :=
  ∃ artifacts, dget "artifacts" d = JList artifacts ∧ List.filter (is_record component) artifacts = [JDict r].
Lemma finds_record component d r E w : only_record component d r → component_record component d E w = (Ok r, w).
Proof.
  intros (l & Hl & Hf). unfold component_record, bind, lift.
  assert (dget_or "artifacts" (JList []) d = JList l) as ->.
  { unfold dget_or. unfold dget in Hl. by destruct (dlookup "artifacts" d). }
  cbn [elements]. by rewrite Hf.
Qed.

(** ** What the verifier checked *)

(** The file that a record names has its size and its digest. *)
Definition matches (f : fs) (directory : path) (r : dict) : Prop :=
  ∃ name data mode, dget "name" r = JStr name ∧ stat_node f (path_join directory name) = Some (File data mode) ∧
    py_eq (JInt (str_len data)) (dget "size" r) = true ∧ py_eq (JStr (sha256 data)) (dget "sha256" r) = true.

Lemma sys_run E f k u w' : sys E (World f k) = (Ok u, w') → w_fs w' = f.
Proof. intros H. pose proof (fs_pure_sys E (World f k)) as Hp. by rewrite H in Hp. Qed.
Lemma stat_run E p f k n w' : stat p E (World f k) = (Ok n, w') → stat_node f p = Some n ∧ w_fs w' = f.
Proof.
  unfold stat. intros (u & w1 & Hp%sys_run & H)%bind_ok.
  unfold bind, get_fs in H. rewrite Hp in H. destruct (stat_node f p) as [m|]; [|done].
  apply pair_equal_spec in H as [[= ->] <-]. done.
Qed.
Lemma file_run E p f k b w' : is_file_p p E (World f k) = (Ok b, w') → b = opt_is is_reg (stat_node f p) ∧ w_fs w' = f.
Proof.
  unfold is_file_p. intros (u & w1 & Hp%sys_run & H)%bind_ok.
  unfold bind, get_fs, ret in H. rewrite Hp in H. by apply pair_equal_spec in H as [[= <-] <-].
Qed.
Lemma read_run E p f k s w' : read_bytes p E (World f k) = (Ok s, w') →
  w_fs w' = f ∧ ∃ n, stat_node f p = Some n ∧ ((∃ m, n = File s m) ∨ is_reg n = false ∧ s = ""%string).
Proof.
  intros H. split.
  { pose proof (fs_pure_read_bytes p E (World f k)) as Hp. by rewrite H in Hp. }
  unfold read_bytes, open_read in H. apply bind_ok in H as (n & w1 & H & Hr).
  apply bind_ok in H as (u & w2 & Hp%sys_run & H).
  unfold bind, get_fs in H. rewrite Hp in H. destruct (stat_node f p) as [m|]; [|done]. injection H as -> _.
  exists n. split; [done|]. unfold read_node in Hr. apply bind_ok in Hr as (u' & w3 & _ & Hr).
  destruct n as [data mode|mode|t|]; try done; injection Hr as <- _; eauto.
Qed.

Lemma world_eta w f : w_fs w = f → w = World f (w_tick w).
Proof. intros <-. by destruct w. Qed.
Ltac same_world H := apply world_eta in H; rewrite H in *; clear H.

Lemma artifact_check_ok directory r E f k w' :
  artifact_check directory (JDict r) E (World f k) = (Ok [], w') → matches f directory r ∧ w_fs w' = f.
Proof.
  unfold artifact_check. intros (name & w1 & Hn & H)%bind_ok. injection Hn as Hn <-.
  apply bind_ok in H as (present & w2 & Hf & H). apply file_run in Hf as [-> Hw]. same_world Hw.
  destruct (opt_is is_reg _) eqn:Hreg; [|done]. cbn [negb] in H.
  apply bind_ok in H as (info & w3 & Hs & H). apply stat_run in Hs as [Hs Hw]. same_world Hw. rewrite Hs in Hreg. cbn [opt_is] in Hreg.
  apply bind_ok in H as (size & w4 & Hsz & H). injection Hsz as Hsz <-.
  apply bind_ok in H as (digest & w5 & Hd & H). unfold file_digest in Hd. apply bind_ok in Hd as (data & w6 & Hr & Hd).
  apply read_run in Hr as [Hw (n & Hn' & Hk)]. rewrite Hs in Hn'. injection Hn' as <-. same_world Hw.
  injection Hd as <- <-. destruct Hk as [[m ->]|[Hk _]]; [|by rewrite Hk in Hreg].
  apply bind_ok in H as (expected & w7 & Hx & H). injection Hx as Hx <-.
  apply pair_equal_spec in H as [[= H] <-]. apply app_eq_nil in H as [H1%note_nil%negb_false_iff H2%note_nil%negb_false_iff].
  split; [|done]. unfold artifact_name in Hn.
  assert (Hfield : ∀ key v, item_field (JDict r) key = Ok v → dget key r = v).
  { intros key v. cbn [item_field]. unfold dget. destruct (dlookup key r); [by intros [= ->]|done]. }
  destruct (item_field (JDict r) "name") as [v|] eqn:Hv; [|done]. destruct v; try done. injection Hn as ->.
  exists name, data, m. rewrite (Hfield _ _ Hv), (Hfield _ _ Hsz), (Hfield _ _ Hx). done.
Qed.

Lemma mmap_in {A B} (g : A → M B) l E w ys w' x :
  (∀ a, fs_pure (g a)) → mmap g l E w = (Ok ys, w') → In x l →
  ∃ y k w1, g x E (World (w_fs w) k) = (Ok y, w1) ∧ In y ys.
Proof.
  intros Hg. revert ys w. induction l as [|a l IH]; intros ys w; [done|]. cbn [mmap].
  intros (y & w1 & Ha & H)%bind_ok Hx. apply bind_ok in H as (zs & w2 & H & Hr). injection Hr as <- <-.
  assert (Hw : w_fs w1 = w_fs w) by (pose proof (Hg a E w) as Hp; by rewrite Ha in Hp).
  destruct Hx as [->|Hx].
  - exists y, (w_tick w), w1. split; [by destruct w|by left].
  - destruct (IH zs w1 H Hx) as (y' & k & w3 & Hy & Hin). rewrite Hw in Hy. exists y', k, w3. split; [done|by right].
Qed.

Lemma fs_pure_artifact_check directory item : fs_pure (artifact_check directory item).
Proof. unfold artifact_check, file_digest. fs_pure_tac. Qed.

Lemma concat_nil {A} (l : list (list A)) x : List.concat l = [] → In x l → x = [].
Proof. induction l as [|y l IH]; [done|]. simpl. intros [H1 H2]%app_eq_nil [<-|H]; auto. Qed.

Lemma verify_artifacts_ok d artifacts directory E f k w' item :
  dget "artifacts" d = JList artifacts → verify_artifacts d directory E (World f k) = (Ok [], w') → In (JDict item) artifacts →
  matches f directory item.
Proof.
  intros Hd. unfold verify_artifacts. intros (items & w1 & Hi & H)%bind_ok Hin. injection Hi as Hi <-.
  assert (items = artifacts) as ->.
  { unfold dget_or in Hi. unfold dget in Hd. destruct (dlookup "artifacts" d) as [j|]; [|done]. simpl in Hd. subst j.
    by injection Hi as ->. }
  apply bind_ok in H as (errors & w2 & Hm & H). injection H as H <-.
  destruct (mmap_in _ _ _ _ _ _ _ (fs_pure_artifact_check directory) Hm Hin) as (y & k' & w3 & Hy & Hyin).
  rewrite (concat_nil _ _ H Hyin) in Hy. by apply artifact_check_ok in Hy as [? _].
Qed.

(** ** The verifier and the endpoints *)

Section verified.
Context (keygen_verify : string → path → string → path → M (Z * string)).

Lemma verified_facts given signers identity current allow E f k root w0 text w' :
  resolve_lax given E (World f k) = (Ok root, w0) →
  verify_release keygen_verify given signers identity current allow E (World f k) = (Ok (Printed text "" 0), w') →
  ∃ raw mode d, stat_node f (child root MANIFEST) = Some (File raw mode) ∧
    decode_res raw = Ok raw ∧ loads raw = Ok (JDict d) ∧ validate_manifest d = Ok [] ∧
    ∀ component r, only_record component d r → matches f root r.
Proof.
  intros Hroot. unfold verify_release. intros (root' & w1 & Hr & H)%bind_ok.
  rewrite Hroot in Hr. injection Hr as <- <-.
  assert (Hw : w_fs w0 = f).
  { unfold resolve_lax, bind, get_fs, ret in Hroot. by apply pair_equal_spec in Hroot as [_ <-]. }
  same_world Hw. apply bind_ok in H as (d & w2 & Hl & H). unfold load_release_manifest in Hl.
  apply bind_ok in Hl as (raw & w3 & Ht & Hl). unfold read_text in Ht. apply bind_ok in Ht as (raw' & w4 & Hb & Ht).
  apply read_run in Hb as [Hw (n & Hn & Hk)]. injection Ht as Ht <-.
  assert (raw' = raw) as -> by (unfold decode_res in Ht; destruct (decode_utf8 raw') eqn:Hu; [|done];
    unfold decode_utf8 in Hu; destruct (utf8_valid raw'); [by injection Hu as ->; injection Ht as ->|done]).
  apply bind_ok in Hl as (data & w5 & Hd & Hl). injection Hd as Hd <-. destruct data as [| | | | | |d']; try done.
  injection Hl as -> <-. destruct Hk as [[m ->]|[_ ->]]; [|done]. same_world Hw.
  apply bind_ok in H as (invalid & w6 & Hv & H). injection Hv as Hv <-.
  apply bind_ok in H as (mismatched & w7 & Hm & H). apply bind_ok in H as (down & w8 & Hdown & H).
  destruct (invalid ++ mismatched ++ down) as [|e errors] eqn:Herr.
  2: { injection H as H _. done. }
  apply app_eq_nil in Herr as [-> [-> ->]%app_eq_nil].
  exists raw, m, d. repeat (split; [done|]). intros component r (artifacts & Ha & Hf).
  eapply verify_artifacts_ok; [exact Ha|exact Hm|].
  apply (proj1 (List.filter_In (is_record component) (JDict r) artifacts)). rewrite Hf. by left.
Qed.
End verified.

Section quiet_runs.
Context (E : env) (quiet : no_faults E).

Lemma runs_stat p f n : stat_node f p = Some n → runs E (stat p) f n f.
Proof using quiet. intros H. apply runs_sys_get; [done|]. rewrite H. apply runs_ret. Qed.
Lemma runs_read p f data m : stat_node f p = Some (File data m) → runs E (read_bytes p) f data f.
Proof using quiet.
  intros H. eapply runs_bind; [apply runs_sys_get; [done|]; rewrite H; apply runs_ret|].
  eapply runs_bind; [by apply runs_sys|apply runs_ret].
Qed.
Lemma runs_file_digest p f data m : stat_node f p = Some (File data m) → runs E (file_digest p) f (sha256 data) f.
Proof using quiet. intros H. eapply runs_bind; [by eapply runs_read|apply runs_ret]. Qed.
Lemma runs_pure {A} (m : M A) f a : (∀ k, (m E (World f k)).1 = Ok a) → fs_pure m → runs E m f a f.
Proof.
  intros H Hp k. specialize (H k). specialize (Hp E (World f k)). destruct (m E (World f k)) as [r w]. simpl in *. subst r.
  apply world_eta in Hp. rewrite Hp. eauto.
Qed.
End quiet_runs.

Lemma manifest_signature root : with_suffix (child root MANIFEST) ".json.sig" = child root "manifest.json.sig".
Proof. unfold with_suffix, p_stem. rewrite child_parent', child_last. reflexivity. Qed.

(** What the verifier passes, the endpoints take.  When [verify_release] passes a directory
    whose only manifest is at its top, and the endpoint's own key accepts the signature, then
    without failing calls [release_files] gives, for each component that has one record in the
    manifest, the verified manifest and the artifact of that record, whose bytes are those the
    verifier saw.  The cloud also refuses a manifest that is not fit for the public. *)
Theorem verified_release_accepted keygen_verify H given signers identity current allow E f k root w0 text w' :
  no_faults E → resolve_lax given E (World f k) = (Ok root, w0) →
  verify_release keygen_verify given signers identity current allow E (World f k) = (Ok (Printed text "" 0), w') →
  let manifest_path := child root MANIFEST in
  let signature_path := child root "manifest.json.sig" in
  (∀ k, (rglob MANIFEST root E (World f k)).1 = Ok [manifest_path]) →
  opt_is is_reg (stat_node f signature_path) = true →
  runs E (Bundle.verify_signature H manifest_path signature_path) f tt f →
  ∃ raw mode d, stat_node f manifest_path = Some (File raw mode) ∧ loads raw = Ok (JDict d) ∧
    ∀ component r bundle_words product_words public v,
      only_record component d r → public (JDict d) = Ok v →
      matches f root r ∧
      runs E (release_files H component bundle_words product_words public root) f
        (manifest_path, signature_path, path_join root (str_or_empty (dget "name" r)), d) f.
Proof.
  intros quiet Hroot Hv mp sp Hone Hsig Hkey.
  destruct (verified_facts _ _ _ _ _ _ _ _ _ _ _ _ _ Hroot Hv) as (raw & mode & d & Hf & Hdec & Hload & Hvalid & Hm).
  exists raw, mode, d. split; [done|]. split; [done|]. intros component r bw pw public v Honly Hpub.
  pose proof (Hm component r Honly) as Hmatch. split; [done|].
  destruct Hmatch as (name & data & m & Hname & Hstat & Hsize & Hsha).
  unfold release_files. eapply runs_bind; [apply runs_pure; [exact Hone|unfold rglob; fs_pure_tac]|].
  cbv beta iota zeta. assert (with_suffix mp ".json.sig" = sp) as -> by apply manifest_signature.
  eapply runs_bind; [by apply runs_is_file|]. rewrite Hsig. cbn [negb].
  eapply runs_bind; [exact Hkey|]. eapply runs_bind.
  { intros j. destruct (runs_read E quiet mp f raw mode Hf j) as [j' Hj]. exists j'.
    unfold Bundle.load_manifest, try_with, read_text, bind, lift. rewrite Hj, Hdec, Hload. done. }
  eapply runs_bind; [intros j; exists j; by eapply accepts_manifest|].
  eapply runs_bind; [intros j; exists j; by apply finds_record|].
  assert (p_parent mp = root) as -> by apply child_parent'. rewrite Hname.
  assert (str_or_empty (JStr name) = name) as Hse by by destruct name. rewrite Hse.
  eapply runs_bind; [by apply runs_is_file|]. rewrite Hstat. cbn [opt_is is_reg negb].
  eapply runs_bind; [by apply runs_stat|]. cbn [node_size]. rewrite Hsize. cbn [negb].
  eapply runs_bind; [by eapply runs_file_digest|]. rewrite Hsha. cbn [negb]. apply runs_ret.
Qed.

(** ** The manifest of a new release *)

Lemma sha256_is_sha256 data : is_sha256 (before_final_lf (sha256 data)) = true.
Proof.
  destruct (sha256_chars is_hex data) as [Hc Hl].
  { intros n Hn. split; [|done].
    assert (forallb (λ n, str_forall is_hex (hex2 n)) (seq 0 256) = true) as H by by vm_compute.
    rewrite forallb_forall in H. apply H, in_seq. lia. }
  assert (Hlf : ends_with LF (sha256 data) = false).
  { unfold ends_with. rewrite <- str_forall_rev in Hc. destruct (str_rev (sha256 data)) as [|c s]; [done|].
    simpl in Hc. apply andb_true_iff in Hc as [Hc _]. by destruct c as [[][][][][][][][]]. }
  unfold before_final_lf. rewrite Hlf. unfold is_sha256. by rewrite Hl, Hc.
Qed.

(** The record of an artifact with these bytes. *)
Definition new_record (component name data : string) : dict :=
  [("name", JStr name); ("component", JStr component); ("sha256", JStr (sha256 data)); ("size", JInt (str_len data))].
Lemma artifact_record_is E p component f data m :
  no_faults E → stat_node f p = Some (File data m) →
  runs E (artifact_record p component) f (new_record component (p_name p) data) f.
Proof.
  intros quiet H. eapply runs_bind; [by eapply runs_file_digest|]. eapply runs_bind; [by apply runs_stat|apply runs_ret].
Qed.

Definition sorted_record (component name digest : string) (size : Z) : dict :=
  [("component", JStr component); ("name", JStr name); ("sha256", JStr digest); ("size", JInt size)].

(** The manifest that [create_release] writes is read back as a valid one, in which each
    component has one record, with the name, the digest and the size of its artifact. *)
Theorem created_manifest_valid version commit v local_name local cloud_name cloud :
  release_version version = Some v →
  forallb is_ascii [version; commit; local_name; cloud_name] = true → 1 <= str_len local → 1 <= str_len cloud →
  let manifest := release_manifest version commit (new_record "local" local_name local) (new_record "cloud" cloud_name cloud) in
  ∃ d, loads (manifest_text manifest) = Ok (JDict d) ∧ validate_manifest d = Ok [] ∧
    only_record "local" d (sorted_record "local" local_name (sha256 local) (str_len local)) ∧
    only_record "cloud" d (sorted_record "cloud" cloud_name (sha256 cloud) (str_len cloud)).
Proof.
  intros Hv Ha Hl Hc manifest. cbn [forallb] in Ha. repeat (apply andb_true_iff in Ha as [? Ha]).
  assert (Hp : plain (JDict manifest) = true).
  { unfold manifest, release_manifest, new_record. cbn [plain forallb fst snd map CONTRACTS].
    rewrite !sha256_ascii, H, H0, H1, H2. reflexivity. }
  destruct (reordered manifest Hp) as (d & Hd & Has). exists d. split.
  { unfold manifest_text. rewrite loads_dumps, <- Hd; [done|apply good_pretty|done|done]. }
  assert (Harts : dget "artifacts" d = JList [JDict (sorted_record "local" local_name (sha256 local) (str_len local));
                                             JDict (sorted_record "cloud" cloud_name (sha256 cloud) (str_len cloud))]).
  { rewrite Has. unfold manifest, release_manifest, new_record, sorted_record.
    generalize (sha256 local), (sha256 cloud), (str_len local), (str_len cloud). intros. reflexivity. }
  split; [|split; eexists; (split; [exact Harts|reflexivity])].
  unfold validate_manifest, artifact_errors. rewrite Harts.
  unfold version_errors, activation_errors, protocol_errors.
  rewrite (Has "schema"), (Has "product"), (Has "version"), (Has "activation"), (Has "protocol").
  change (reorder true (dget "version" manifest)) with (JStr version). cbv beta iota. rewrite Hv.
  cbn [components omap option_bind map_res flat_map record_errors].
  change (py_str (dget_or "sha256" (JStr "") (sorted_record "local" local_name (sha256 local) (str_len local)))) with (sha256 local).
  change (py_str (dget_or "sha256" (JStr "") (sorted_record "cloud" cloud_name (sha256 cloud) (str_len cloud)))) with (sha256 cloud).
  rewrite !sha256_is_sha256.
  change (dget "size" (sorted_record "local" local_name (sha256 local) (str_len local))) with (JInt (str_len local)).
  change (dget "size" (sorted_record "cloud" cloud_name (sha256 cloud) (str_len cloud))) with (JInt (str_len cloud)).
  cbn [int_value]. rewrite !(proj2 (Z.ltb_ge _ _)) by done. reflexivity.
Qed.

(** * The backup of the legacy desktop ([scripts/backup_legacy_local.py])

    The files of the program that Cloudx replaces are copied below a new directory, with a
    manifest; a link keeps the old program startable, and its shims of [git] are replaced by
    direct ones.  The inode that the source compares before it reads a file is not part of the
    model. *)

Definition BACKUP_CONFIRMATION : string := "BACK UP LOCAL CODEX-PLUS API AND CPA".
Definition MAX_FILE_BYTES : Z := 64 * 1024 * 1024.
Definition MAX_TOTAL_BYTES : Z := 128 * 1024 * 1024.
Definition LEGACY_GIT_SHIM_MARKER : string := "exec codexx git-shim".
Definition DIRECT_GIT_SHIM : string :=
  "#!/usr/bin/env bash" +:+ LF +:+ "set -euo pipefail" +:+ LF +:+ "exec /usr/bin/git " +:+ QUOTE +:+ "$@" +:+ QUOTE +:+ LF.
Definition backup_error {A} (msg : string) : M A := mraise RuntimeError msg.

(** ** What is backed up *)

(** A directory that is no link. *)
Definition real_directory (p : path) : M bool :=
  let! directory := is_dir_p p in
  if negb directory then ret false else let! linked := is_symlink_p p in ret (negb linked).
Definition file_or_link (p : path) : M bool :=
  let! file := is_file_p p in if file then ret true else is_symlink_p p.
Definition entries (dir : path) : M (list path) :=
  sys ;; let! f := get_fs in ret (map (child dir) (sort_by str_leb (child_names f dir))).
(** [[p for p in l if test(p)]]. *)
Definition mfilter (test : path → M bool) (l : list path) : M (list path) :=
  let! kept := mmap (λ p, let! b := test p in ret (if b then Some p else None)) l in ret (omap id kept).

Definition runtime_paths (home : path) : M (list path) :=
  let runtime := under home [".local"; "bin"; "codexx_app"] in
  let! present := real_directory runtime in
  if negb present then ret [] else
  let! found := LocalImport.rglob runtime in
  mfilter (λ p, let! kept := file_or_link p in
                ret (kept && negb (mem "__pycache__" p.2) && (p_suffix p <>s? ".pyc"))) found.

Definition git_shim (account : path) : path := under account [".local"; "bin"; "git"].
Definition account_git_shims (home : path) : M (list path) :=
  let accounts := child home ".codex-accounts" in
  let! present := real_directory accounts in
  if negb present then ret [] else
  let! found := entries accounts in
  let! kept := mfilter real_directory found in
  mfilter file_or_link (map git_shim kept).

Definition LEGACY_FILES : list string :=
  [".zshrc"; ".local/bin/codexx"; ".local/bin/codexx.py"; ".local/bin/cli-proxy-api"; ".config/codexx/config.toml";
   "Library/LaunchAgents/com.codexx.cliproxyapi.plist"; ".codex-accounts/api/.codex/auth.json";
   ".codex-accounts/api/.codex/config.toml"; ".codex-accounts/api/.local/bin/codexx";
   ".codex-accounts/cpa/.codex/auth.json"; ".codex-accounts/cpa/.codex/config.toml"].
(** [{str(path): path for path in paths}] in the order of the texts. *)
Definition unique_paths (l : list path) : list path :=
  sort_by (λ a b, str_leb (path_str a) (path_str b)) (remove_dups l).
Definition candidate_paths (home : path) : M (list path) :=
  let cpa := child home ".cli-proxy-api" in
  let! present := real_directory cpa in
  let! credentials := (if present then let! found := entries cpa in mfilter file_or_link found else ret []) in
  let! shims := account_git_shims home in
  let! runtime := runtime_paths home in
  ret (unique_paths (map (path_join home) LEGACY_FILES ++ credentials ++ shims ++ runtime)).

(** [(sources with their metadata, total)]. *)
Definition source_step (s : list (path * node) * Z) (p : path) : M (list (path * node) * Z) :=
  let '(found, total) := s in
  let! present := (let! present := exists_p p in if present then ret true else is_symlink_p p) in
  if negb present then ret s else
  let! metadata := lstat p in
  let! linked := is_symlink_p p in
  if linked || negb (is_reg metadata) then backup_error ("legacy backup source must be a regular file: " +:+ path_str p) else
  if MAX_FILE_BYTES <? node_size metadata then backup_error ("legacy backup source exceeds 64 MiB: " +:+ path_str p) else
  let total := total + node_size metadata in
  if MAX_TOTAL_BYTES <? total then backup_error "legacy backup exceeds 128 MiB" else
  ret (found ++ [(p, metadata)], total).
Definition source_metadata (paths : list path) : M (list (path * node)) :=
  let! (found, _) := mfold source_step ([], 0) paths in
  match found with [] => backup_error "no legacy API or CPA files were found" | _ => ret found end.

Definition read_source_file (p : path) : M string :=
  let! n := open_nofollow p in
  let! opened := fstat n in
  if negb (is_reg opened) then backup_error ("legacy backup source changed during read: " +:+ path_str p) else
  if MAX_FILE_BYTES <? node_size opened then backup_error ("legacy backup source exceeds 64 MiB: " +:+ path_str p) else
  let! raw := read_node opened in
  if MAX_FILE_BYTES <? str_len raw then backup_error ("legacy backup source exceeds 64 MiB: " +:+ path_str p) else ret raw.

(** [atomic_write]. *)
Definition backup_write (p : path) (data : string) (mode : Z) : M unit :=
  mkdir_parents (p_parent p) 448 ;; write_replace ("." +:+ p_name p +:+ ".") mode p data.

(** ** The copy and its manifest *)

(** ["%04o" % mode]. *)
Fixpoint octal_digits (fuel : nat) (z : Z) : string :=
  match fuel with
  | O => ""
  | S fuel => (if z <? 8 then "" else octal_digits fuel (z / 8)) +:+ str_of_Z (z mod 8)
  end.
Definition octal4 (mode : Z) : string :=
  let s := octal_digits 12 mode in
  String.concat "" (repeat "0"%string (4 - String.length s)) +:+ s.
Definition backup_record (source relative : path) (raw : string) (mode : Z) : json :=
  JDict [("source", JStr (path_str source)); ("backup", JStr (path_str relative)); ("sha256", JStr (sha256 raw));
         ("size", JInt (str_len raw)); ("mode", JStr (octal4 mode))].
(** Where a source is copied to, below the backup. *)
Definition backup_name (home source : path) : res path :=
  match relative_to source home with
  | Some relative => Ok (false, "home"%string :: relative.2)
  | None => raise ValueError "is not in the subpath"
  end.
Definition backup_target (destination name : path) : path := under destination name.2.

(** One source: its record and its size. *)
Definition copy_source (home destination : path) (source : path * node) : M (json * Z) :=
  let! raw := read_source_file source.1 in
  let! name := lift (backup_name home source.1) in
  backup_write (backup_target destination name) raw (node_mode source.2) ;;
  ret (backup_record source.1 name raw (node_mode source.2), str_len raw).

Definition BACKUP_SCHEMA : string := "cloudx.legacy-local-backup.v1".
Definition now_text : M string := let! us := now_us in ret (replace_utc (isoformat (utc (EPOCH_US + us)))).
Definition sum_sizes (l : list (json * Z)) : Z := fold_left Z.add (map snd l) 0.
Definition backup_document (created_at : string) (home : path) (records : list (json * Z)) : dict :=
  [("schema", JStr BACKUP_SCHEMA); ("createdAt", JStr created_at); ("home", JStr (path_str home));
   ("fileCount", JInt (Z.of_nat (length records))); ("totalBytes", JInt (sum_sizes records));
   ("files", JList (map fst records))].
Definition backup_manifest (destination : path) : path := child destination "manifest.json".
Definition write_manifest (destination : path) (document : dict) : M unit :=
  backup_write (backup_manifest destination) (json_file_text document) 384.
Definition backup_result (status : string) (destination : path) (fields : dict) : dict :=
  [("schema", JStr "cloudx.legacy-local-backup-result.v1"); ("status", JStr status); ("backup", JStr (path_str destination));
   ("manifest", JStr (path_str (backup_manifest destination)))] ++ fields.

Definition copy_sources (home destination : path) (sources : list (path * node)) : M (list (json * Z)) :=
  mmap (copy_source home destination) sources.
Definition create_backup (home destination : path) : M dict :=
  let! candidates := candidate_paths home in
  let! sources := source_metadata candidates in
  mkdir_parents (p_parent destination) 493 ;;
  mkdir_new destination 448 ;;
  chmod destination 448 ;;
  let! records := copy_sources home destination sources in
  let! created_at := now_text in
  write_manifest destination (backup_document created_at home records) ;;
  ret (backup_result "created" destination
         [("fileCount", JInt (Z.of_nat (length records))); ("totalBytes", JInt (sum_sizes records))]).

(** ** Recovery *)

Section recovery.
Context (pid : Z).

(** One shim: whether it was replaced. *)
Definition detach_shim (shim : path) : M (option json) :=
  let! metadata := lstat shim in
  let! linked := is_symlink_p shim in
  if linked || negb (is_reg metadata) then backup_error ("legacy git shim must be a regular file: " +:+ path_str shim) else
  let! raw := read_source_file shim in
  if negb (contains LEGACY_GIT_SHIM_MARKER raw) then ret None else
  backup_write shim DIRECT_GIT_SHIM 493 ;; ret (Some (JStr (path_str shim))).
Definition recovery_link (entrypoint launcher : path) : M unit :=
  let! present := (let! present := exists_p entrypoint in if present then ret true else is_symlink_p entrypoint) in
  if present then
    let! linked := is_symlink_p entrypoint in
    let! same := (if linked then let! a := resolve_lax entrypoint in let! b := resolve_lax launcher in ret (bool_decide (a = b))
                  else ret false) in
    if same then ret tt else backup_error "legacy recovery entrypoint already exists with a different target"
  else
    let temporary := temporary_link pid entrypoint in
    unlink_missing_ok temporary ;; symlink_to temporary launcher ;; replace temporary entrypoint.
Definition activate_recovery_paths (home destination : path) : M dict :=
  let launcher := under destination ["home"; ".local"; "bin"; "codexx"] in
  let! file := is_file_p launcher in
  let! linked := (if file then is_symlink_p launcher else ret true) in
  if linked then backup_error "legacy recovery launcher is unavailable" else
  let entrypoint := under home [".local"; "bin"; "codexx-legacy"] in
  mkdir_parents (p_parent entrypoint) 448 ;;
  recovery_link entrypoint launcher ;;
  let! shims := account_git_shims home in
  let! detached := mmap detach_shim shims in
  ret [("schema", JStr "cloudx.legacy-local-recovery.v1"); ("entrypoint", JStr (path_str entrypoint));
       ("detachedGitShims", JList (omap id detached))].
End recovery.

(** ** Adding what a backup lacks *)

Definition read_backup (destination : path) : M dict :=
  let! document := try_with
    (let! text := read_text (backup_manifest destination) in lift (loads text))
    (except [OSError; JSONDecodeError] (λ _, backup_error "legacy backup manifest is unavailable or invalid")) in
  match document with
  | JDict d => if eq_str (dget "schema" d) BACKUP_SCHEMA then ret d
               else backup_error "legacy backup manifest schema is unsupported"
  | _ => backup_error "legacy backup manifest schema is unsupported"
  end.
Definition recorded_names (records : list json) : list string :=
  omap (λ item, match item with JDict r => Some (py_str (dget "backup" r)) | _ => None end) records.

(** [(records, total, added)]. *)
Definition augment_step (home destination : path) (existing : list string) (s : list json * Z * Z) (source : path)
    : M (list json * Z * Z) :=
  let '(records, total, added) := s in
  let! name := lift (backup_name home source) in
  if mem (path_str name) existing then ret s else
  let! present := (let! present := exists_p source in if present then ret true else is_symlink_p source) in
  if negb present then ret s else
  let! found := source_metadata [source] in
  let metadata := match found with (_, n) :: _ => n | [] => File "" 0 end in
  let! raw := read_source_file source in
  if MAX_TOTAL_BYTES <? total + str_len raw then backup_error "legacy backup exceeds 128 MiB" else
  backup_write (backup_target destination name) raw (node_mode metadata) ;;
  ret (records ++ [backup_record source name raw (node_mode metadata)], total + str_len raw, added + 1).
(** [sorted(records, key=lambda item: str(item.get("backup")))]. *)
Definition record_key (item : json) : res string :=
  match item with JDict r => Ok (py_str (dget "backup" r)) | _ => raise AttributeError "object has no attribute 'get'" end.
Definition sort_records (records : list json) : res (list json) :=
  let* keyed := map_res (λ item, let* k := record_key item in Ok (k, item)) records in
  Ok (map snd (sort_by (λ a b, str_leb a.1 b.1) keyed)).
Definition augment_runtime (home destination : path) : M dict :=
  let! document := read_backup destination in
  match dget "files" document with
  | JList records =>
      let existing := recorded_names records in
      let! total := lift (py_int (py_or (dget "totalBytes" document) (JInt 0))) in
      let! candidates := candidate_paths home in
      let! (records, total, added) := mfold (augment_step home destination existing) (records, total, 0) candidates in
      let! files := lift (sort_records records) in
      let count := JInt (Z.of_nat (length files)) in
      let! updated_at := now_text in
      write_manifest destination
        (dset "updatedAt" (JStr updated_at) (dset "totalBytes" (JInt total)
          (dset "fileCount" count (dset "files" (JList files) document)))) ;;
      ret (backup_result "augmented" destination [("addedFiles", JInt added); ("fileCount", count); ("totalBytes", JInt total)])
  | _ => backup_error "legacy backup manifest has no file records"
  end.

(** ** The command *)

Definition plan_document (fields : dict) : dict :=
  [("schema", JStr "cloudx.legacy-local-backup-plan.v1"); ("status", JStr "confirmation-required");
   ("confirmation", JStr BACKUP_CONFIRMATION)] ++ fields.
Definition INCLUDES : list string :=
  ["legacy codexx entrypoints and shell configuration"; "legacy codexx_app runtime package";
   "api and cpa account profiles"; "local CLIProxyAPI binary, launchd definition, config, and top-level credentials"].
Definition backup_main (home : path) (apply : bool) (confirm : string) (augment : option path) : M dict :=
  let refused {A} : M A := backup_error "legacy local backup confirmation does not match" in
  match augment with
  | Some backup =>
      if negb apply then
        let! candidates := candidate_paths home in
        ret (plan_document [("operation", JStr "augment-runtime"); ("backup", JStr (path_str backup));
                            ("candidateFileCount", JInt (Z.of_nat (length candidates)))])
      else if confirm <>s? BACKUP_CONFIRMATION then refused else augment_runtime home backup
  | None =>
      let! candidates := candidate_paths home in
      let! sources := source_metadata candidates in
      if negb apply then
        ret (plan_document [("fileCount", JInt (Z.of_nat (length sources)));
                            ("totalBytes", JInt (fold_left Z.add (map (λ s : path * node, node_size s.2) sources) 0));
                            ("includes", JList (map JStr INCLUDES))])
      else if confirm <>s? BACKUP_CONFIRMATION then refused else
        let! timestamp := now_stamp in
        create_backup home (under home [".local"; "state"; "cloudx"; "legacy-backups"; timestamp])
  end.
