(* ===== verification/Ops.v ===== *)
(** * What the operator scripts share

    The programs under [scripts/] that change a running host: commands they start, files they
    replace, results they read.  The owner of a file is not part of the model: [os.chown] is a
    call that may fail.  [spares] says that a computation loses or changes none of some files,
    whatever fails, [untouched] that it creates none of them either; it is how the scripts'
    theorems speak of other programs too. *)

From S2P Require Import Prelude PyStr PyFloat PyValue PyJson FS Wp FileData LocalConfig Trees Releases.

Record completed := Completed { c_status : Z; c_stdout : string; c_stderr : string }.

Definition chown : M unit := sys.
(** [d[key]] of an object that was read. *)
Definition ditem (d : dict) (key : string) : res json :=
  match dlookup key d with Some v => Ok v | None => raise KeyError key end.
(** [v.items()], [for k in v] of an object. *)
Definition ditems (v : json) : res dict :=
  match v with JDict d => Ok d | _ => raise AttributeError "object has no attribute 'items'" end.

(** [os.open(path, O_RDWR | O_CREAT | O_NOFOLLOW, 0o600)] of a lock, then [flock]; it is given
    back when the descriptor is closed. *)
Definition open_lock (p : path) : M unit :=
  sys ;; let! f := get_fs in
  match f !! p with
  | Some (Link _) => oserror "too many levels of symbolic links"
  | Some (Dir _) => oserror "is a directory"
  | Some _ => ret tt
  | None => if parent_is_dir f p then update p (File "" 384) else missing
  end ;;
  sys.

(** The shape of the scripts' atomic writes: a temporary file beside the target is filled,
    renamed, and removed if it is still there. *)
Definition temp_prefix (p : path) : string := "." +:+ p_name p +:+ ".".
Definition staged_write (fill : path → M unit) (mode : Z) (p : path) : M unit :=
  mkdir_parents (p_parent p) mode ;;
  let! t := mkstemp (temp_prefix p) (p_parent p) in
  finally (fill t ;; replace t p ;; fsync_directory (p_parent p)) (unlink_missing_ok t).

(** ** Computations that change the files within a preorder *)

Record change := Change { change_rel :> fs → fs → Prop; change_preorder : PreOrder change_rel }.
#[export] Existing Instance change_preorder.
Definition moves {A : Type} (R : change) (m : M A) : Prop := ∀ E w, R (w_fs w) (w_fs (m E w).2).

Section moves.
Context (R : change).

Lemma moves_pure {A : Type} (m : M A) : fs_pure m → moves R m.
Proof. intros H E w. by rewrite (H E w). Qed.
Lemma moves_bind {A B : Type} (m : M A) (c : A → M B) : moves R m → (∀ a, moves R (c a)) → moves R (bind m c).
Proof.
  intros Hm Hc E w. unfold bind. specialize (Hm E w). destruct (m E w) as [[a|e] w1]; [|done].
  etrans; [exact Hm|apply Hc].
Qed.
Lemma moves_try {A : Type} (m : M A) h : moves R m → (∀ e c, h e = Some c → moves R c) → moves R (try_with m h).
Proof.
  intros Hm Hh E w. unfold try_with. specialize (Hm E w). destruct (m E w) as [[a|e] w1]; [done|].
  destruct (h e) as [c|] eqn:He; [|done]. etrans; [exact Hm|by apply (Hh e)].
Qed.
Lemma moves_except {A : Type} cs (c : exn → M A) e c' : (∀ e, moves R (c e)) → except cs c e = Some c' → moves R c'.
Proof. intros Hc. unfold except. destruct (existsb _ _); naive_solver. Qed.
Lemma moves_finally {A : Type} (m : M A) c : moves R m → moves R c → moves R (finally m c).
Proof.
  intros Hm Hc E w. unfold finally. specialize (Hm E w). destruct (m E w) as [r w1]. specialize (Hc E w1).
  destruct (c E w1) as [[] w2]; simpl in *; by etrans.
Qed.
Lemma moves_mmap {A B : Type} (c : A → M B) l : (∀ a, moves R (c a)) → moves R (mmap c l).
Proof.
  intros Hc. induction l as [|x l IH]; [by apply moves_pure|]. cbn [mmap].
  apply moves_bind; [done|]. intros y. apply moves_bind; [done|]. intros ys. by apply moves_pure.
Qed.
Lemma moves_miter {A : Type} (c : A → M unit) l : (∀ a, In a l → moves R (c a)) → moves R (miter c l).
Proof.
  induction l as [|x l IH]; intros Hc; [by apply moves_pure|]. cbn [miter].
  apply moves_bind; [apply Hc; by left|]. intros _. apply IH. intros a Ha. apply Hc. by right.
Qed.
Lemma moves_mfold {A T : Type} (c : T → A → M T) l s : (∀ s a, moves R (c s a)) → moves R (mfold c s l).
Proof.
  intros Hc. revert s. induction l as [|x l IH]; intros s; [by apply moves_pure|]. cbn [mfold].
  by apply moves_bind.
Qed.
(** From a rule of [wp] whose outcomes are all related. *)
Lemma moves_wp {A : Type} (m : M A) : (∀ E f k, wp m E (World f k) (λ _ w', R f (w_fs w'))) → moves R m.
Proof. intros H E [f k]. exact (H E f k). Qed.
End moves.

Create HintDb moves.

(** Prove [moves] by the structure of the program: what leaves the files alone, what a hint
    says, then the parts. *)
Ltac moves_tac :=
  repeat lazymatch goal with
  | |- moves _ (bind _ _) => apply moves_bind; [|intros ?]
  | |- moves _ (try_with _ _) =>
      apply moves_try; [|intros ? ? ?He; first
        [ refine (moves_except _ _ _ _ _ _ He); intros ? | unfold except_all in He; injection He as <- ]]
  | |- moves _ (finally _ _) => apply moves_finally
  | |- moves _ (mmap _ _) => apply moves_mmap; intros ?
  | |- moves _ (miter _ _) => apply moves_miter; intros ? ?
  | |- moves _ (mfold _ _ _) => apply moves_mfold; intros ? ?
  | |- moves _ (match ?x with _ => _ end) => destruct x
  | |- moves _ _ => first [ solve [eauto with moves nocore] | apply moves_pure; solve [done | eauto with cloudx nocore] ]
  end.

(** ** Keeping files, and leaving them alone *)

Lemma keeps_preorder T : PreOrder (keeps T).
Proof. split; [intros f; apply keeps_refl|intros f g h; apply keeps_trans]. Qed.
Lemma same_preorder T : PreOrder (same_data T).
Proof. split; [intros f; apply same_refl|intros f g h; apply same_trans]. Qed.
Definition keeping (T : path → Prop) : change := Change (keeps T) (keeps_preorder T).
Definition sparing (T : path → Prop) : change := Change (same_data T) (same_preorder T).

Section files.
Context (S : path → Prop).
(** No file of [S] is lost or changed; nor created. *)
Abbreviation spares := (moves (keeping (λ p, ¬ S p))) (only parsing).
Abbreviation untouched := (moves (sparing (λ p, ¬ S p))) (only parsing).

Lemma untouched_spares {A : Type} (m : M A) : untouched m → spares m.
Proof. intros H E w. apply same_keeps, H. Qed.

Lemma untouched_mkdir_parents p mode : untouched (mkdir_parents p mode).
Proof.
  apply moves_wp. intros E f k. apply wp_mkdir_parents.
  - intros g k' H. by apply same_none, same_dirs.
  - intros e g k' _ H. by apply same_none, same_dirs.
Qed.
Lemma untouched_chmod p mode : untouched (chmod p mode).
Proof. apply moves_wp. intros E f k. apply wp_chmod; intros; [by apply same_none|apply same_refl]. Qed.
Lemma untouched_mkdir_new p mode : untouched (mkdir_new p mode).
Proof.
  apply moves_wp. intros E f k. apply wp_mkdir_new; [|intros; apply same_refl].
  intros k' Hp q _. cbn [w_fs]. destruct (decide (q = p)) as [->|Hne]; [|by apply data_at_insert_ne].
  unfold data_at. by rewrite lookup_insert_eq, Hp.
Qed.
Lemma untouched_unlink_missing_ok p : ¬ S p → untouched (unlink_missing_ok p).
Proof.
  intros Hp. apply moves_wp. intros E f k. apply wp_unlink_missing_ok; intros; try apply same_refl.
  intros q Hq. cbn [w_fs]. apply data_at_delete_ne. intros ->. by apply Hq.
Qed.
Lemma untouched_unlink p : ¬ S p → untouched (unlink p).
Proof.
  intros Hp. apply moves_wp. intros E f k. unfold unlink. apply wp_bind, wp_sys; [intros k1|intros; apply same_refl].
  apply wp_bind, wp_get_fs. destruct (f !! p) as [[]|]; try (apply wp_throw, same_refl);
    (unfold wp, put_fs; cbn [fst snd w_fs]; intros q Hq; apply data_at_delete_ne; intros ->; by apply Hq).
Qed.
Lemma untouched_replace src dst : ¬ S src → ¬ S dst → untouched (replace src dst).
Proof.
  intros Hs Hd. apply moves_wp. intros E f k. apply wp_replace_node; [|intros; apply same_refl].
  intros n k' _ q Hq. cbn [w_fs]. rewrite data_at_insert_ne, data_at_delete_ne; [done|..]; intros ->; by apply Hq.
Qed.
Lemma spares_open_lock p : spares (open_lock p).
Proof.
  apply moves_wp. intros E f k. unfold open_lock. apply wp_bind, wp_sys; [intros k1|intros; apply keeps_refl].
  apply wp_bind, wp_get_fs. apply wp_bind.
  destruct (f !! p) as [[d m|m|t|]|] eqn:Hp; try (apply wp_throw, keeps_refl);
    try (apply wp_ret, wp_sys; intros; apply keeps_refl).
  destruct (parent_is_dir f p); [|apply wp_throw, keeps_refl]. unfold update, wp at 1, put_fs. cbn [fst snd w_fs].
  apply wp_sys; intros; by apply keeps_none, keeps_insert_free, data_at_fresh.
Qed.
Lemma untouched_rmtree d : (∀ p, S p → inside p d = false) → untouched (rmtree (λ m, m) d).
Proof.
  intros Hd. apply moves_wp. intros E f k.
  assert (Hw : ∀ g, same_on (within d) f g → same_data (λ p, ¬ S p) f g).
  { intros g H p Hp. unfold data_at. rewrite H; [done|]. unfold within. intros Hi. apply Hp. intros HS. by rewrite Hd in Hi. }
  apply wp_rmtree; intros; by apply Hw.
Qed.
Lemma untouched_rmtree_quiet d : (∀ p, S p → inside p d = false) → untouched (rmtree_quiet d).
Proof.
  intros Hd E w. pose proof (confined_rmtree ignore_oserror false (λ T m H, confined_ignore T m H) d E w) as [H _].
  intros p Hp. unfold data_at. rewrite H; [done|]. unfold within. intros Hi. apply Hp. intros HS. by rewrite Hd in Hi.
Qed.
End files.

Abbreviation spares S := (moves (keeping (λ p, ¬ S p))).
Abbreviation untouched S := (moves (sparing (λ p, ¬ S p))).

#[export] Hint Resolve untouched_mkdir_parents untouched_chmod untouched_mkdir_new spares_open_lock untouched_spares : moves.

(** ** Atomic writes *)

(** [fill] touches the temporary file only and leaves [raw] in it. *)
Definition fills (fill : path → M unit) (raw : string) : Prop :=
  ∀ t E f k (Φ : res unit → world → Prop), data_at f t ≠ None →
    (∀ g k, same_data (only t) f g → data_at g t = Some raw → Φ (Ok tt) (World g k)) →
    (∀ e g k, os_exn e → same_data (only t) f g → Φ (Raise e) (World g k)) →
    wp (fill t) E (World f k) Φ.

Lemma staged_temp_ne p t : is_temp (temp_prefix p) (p_parent p) t → t ≠ p.
Proof.
  intros [x ->] E. apply (f_equal p_name) in E. unfold p_name at 1 in E. cbn [snd] in E. rewrite last_last in E.
  apply (f_equal String.length) in E. unfold temp_prefix in E. rewrite !str_length_app in E. cbn [String.length] in E. lia.
Qed.

(** What a write may touch: its target and the temporary names beside it. *)
Definition written (p : path) : path → Prop := λ q, q = p ∨ is_temp (temp_prefix p) (p_parent p) q.

(** The target has its old bytes or the new ones, and the new ones without an exception; every
    other file keeps its bytes, and only a temporary file can be new. *)
Lemma wp_staged_write fill mode p raw E f k (Φ : res unit → world → Prop) :
  fills fill raw →
  (∀ g k, keeps (only p) f g → same_data (written p) f g → data_at g p = Some raw → Φ (Ok tt) (World g k)) →
  (∀ e g k, os_exn e → keeps (only p) f g → same_data (written p) f g →
     (data_at g p = data_at f p ∨ data_at g p = Some raw) → Φ (Raise e) (World g k)) →
  wp (staged_write fill mode p) E (World f k) Φ.
Proof.
  intros Hfill Ho Hr. unfold staged_write. apply wp_bind, wp_mkdir_parents.
  2: { intros e g k1 He Hd. apply Hr; [done|by apply keeps_none, keeps_dirs|by apply same_none, same_dirs|].
       left. by apply same_at, same_dirs. }
  intros f1 k1 Hd. assert (Hs1 : same_data none f f1) by by apply same_dirs.
  assert (Hk1 : keeps (only p) f f1) by by apply same_keeps, same_none.
  assert (Hp1 : data_at f1 p = data_at f p) by by apply same_at.
  apply wp_bind, wp_mkstemp; [|intros; apply Hr; auto using same_none]. intros t k2 Ht Hfresh.
  assert (Hne : t ≠ p) by by apply staged_temp_ne.
  assert (Hnt : ∀ d, data_at f t ≠ Some d).
  { intros d H. rewrite <- (same_at _ _ t Hs1) in H. by rewrite (data_at_fresh _ _ Hfresh) in H. }
  (** What is left to prove once only the temporary file differs. *)
  assert (Hlast : ∀ r f2 k2, match r with Ok _ => data_at f2 p = Some raw | Raise e => os_exn e end →
    keeps (only p) f f2 → same_data (written p) f f2 → (data_at f2 p = data_at f p ∨ data_at f2 p = Some raw) →
    wp (unlink_missing_ok t) E (World f2 k2)
      (λ r' w, match r' with Ok _ => Φ r w | Raise e => Φ (Raise e) w end)).
  { intros r f2 k3 Hres Hk Hs Hdp.
    assert (Hkd : keeps (only p) f (delete t f2)).
    { intros q d Hq Hqd. rewrite data_at_delete_ne; [by apply Hk|]. intros ->. by apply (Hnt d). }
    assert (Hsd : same_data (written p) f (delete t f2)).
    { intros q Hq. rewrite data_at_delete_ne; [by apply Hs|]. intros ->. apply Hq. by right. }
    assert (Hpd : data_at (delete t f2) p = data_at f2 p) by by apply data_at_delete_ne.
    apply wp_unlink_missing_ok.
    - intros k4. destruct r as [[]|e]; [by apply Ho|by apply Hr].
    - intros k4. destruct r as [[]|e]; [apply Ho; [done..|by rewrite Hpd]|apply Hr; [done..|by rewrite Hpd]].
    - intros e k4 He. by apply Hr. }
  set (f2 := <[t := File "" 384]> f1).
  assert (Hkeep2 : ∀ g, same_data (only t) f2 g → keeps (only p) f g ∧ same_data (written p) f g ∧ data_at g p = data_at f p).
  { intros g Hg. split; [|split].
    - intros q d Hq Hqd. assert (q ≠ t) by (intros ->; by apply (Hnt d)).
      rewrite Hg by done. unfold f2. rewrite data_at_insert_ne by done. by apply Hk1.
    - intros q Hq. assert (q ≠ t) by (intros ->; apply Hq; by right).
      rewrite Hg by done. unfold f2. rewrite data_at_insert_ne by done. by apply same_at.
    - rewrite Hg by (intros ?; congruence). unfold f2. by rewrite data_at_insert_ne. }
  apply wp_finally, wp_bind. unfold f2. apply Hfill; [by rewrite data_at_insert|..].
  2: { intros e g k3 He Hg. destruct (Hkeep2 g Hg) as (? & ? & ?). apply Hlast; auto. }
  intros g k3 Hg Hgt. destruct (Hkeep2 g Hg) as (Hgk & Hgs & Hgp). apply wp_bind, wp_replace_node.
  2: { intros e k4 He. apply Hlast; auto. }
  intros n k4 Hn. set (g2 := <[p := n]> (delete t g)).
  assert (Hp2 : data_at g2 p = Some raw).
  { unfold g2, data_at in *. rewrite lookup_insert_eq. by rewrite Hn in Hgt. }
  assert (Hk2 : keeps (only p) f g2).
  { intros q d Hq Hqd. assert (q ≠ t) by (intros ->; by apply (Hnt d)). unfold g2.
    rewrite data_at_insert_ne by done. rewrite data_at_delete_ne by done. by apply Hgk. }
  assert (Hs2 : same_data (written p) f g2).
  { intros q Hq. assert (q ≠ t) by (intros ->; apply Hq; by right). assert (q ≠ p) by (intros ->; apply Hq; by left).
    unfold g2. rewrite data_at_insert_ne by done. rewrite data_at_delete_ne by done. by apply Hgs. }
  apply wp_fsync_directory; intros; apply Hlast; auto.
Qed.

Lemma spares_staged_write (S : path → Prop) fill mode p raw : fills fill raw → ¬ S p → spares S (staged_write fill mode p).
Proof.
  intros Hf Hp. apply moves_wp. intros E f k.
  assert (Hw : ∀ g, keeps (only p) f g → keeps (λ q, ¬ S q) f g).
  { intros g. apply keeps_weaken. by intros q ->. }
  apply (wp_staged_write _ _ _ raw); [done|..]; intros; by apply Hw.
Qed.
(** A file whose name does not begin with a dot is no temporary file. *)
Definition visible (p : path) : Prop := starts_with "." (p_name p) = false.
Lemma written_visible p q : visible q → written p q → q = p.
Proof.
  intros Hv [->|[x ->]]; [done|]. unfold visible, p_name in Hv. cbn [snd] in Hv. rewrite last_last in Hv.
  change (String.prefix "." (String "." ((p_name p +:+ ".") +:+ x)) = false) in Hv. exfalso. revert Hv.
  by destruct ((p_name p +:+ ".") +:+ x).
Qed.
Lemma untouched_staged_write (S : path → Prop) fill mode p raw :
  fills fill raw → (∀ q, S q → visible q) → ¬ S p → untouched S (staged_write fill mode p).
Proof.
  intros Hf Hv Hp. apply moves_wp. intros E f k.
  assert (Hw : ∀ g, same_data (written p) f g → same_data (λ q, ¬ S q) f g).
  { intros g H q Hq. apply H. intros Hw. apply Hq. intros HS. apply Hp. rewrite <- (written_visible p q); auto. }
  apply (wp_staged_write _ _ _ raw); [done|..]; intros; by apply Hw.
Qed.
