(* ===== verification/Acceptance.v ===== *)
(** * The live acceptance of the cloud failure policy ([scripts/cloud_cpa_failure_policy_transaction.py])

    The script runs on the cloud host: it holds the one active credential back, puts three
    exhausted ones in its place, watches the service react, and puts everything back, also
    after a failure.  [host] is what it finds there: the programs it starts, the gateway, the
    clocks, the account of the service, the owner of a file.  A command that runs out of time
    raises [OSError] here, which the script handles alike.  An exception keeps the number of
    the transaction in place of the message, which [main] never prints. *)

From S2P Require Import Prelude PyStr PyFloat PyValue PyRe PyTime PyJson PyBase64 PySha FS CpaRecords CpaAuth.
From S2P Require Import ApiFailure LocalConfig Releases Trees ShellHook Ops.

Definition ACTIVE_VERSION : string := "0.1.21".
Definition ACCEPT_CONFIRMATION : string := "ACCEPT CLOUD CPA FAILURE POLICY 0.1.21".
Definition ACCEPT_SCHEMA : string := "cloudx.cloud-cpa-failure-policy-acceptance.v1".
Definition ACTIVE_ARTIFACT : path := path_of "/opt/cloudx/current/cloudx-cloud.pyz".
Definition AUTH_DIR : path := path_of "/var/lib/codex-gateway/cliproxy-auth".
Definition ARCHIVE_DIR : path := path_of "/var/lib/codex-gateway/cliproxy-auth-archive".
Definition FAILURE_DIR : path := path_of "/var/lib/codex-gateway/cliproxy-auth-failures".
Definition SWEEP_DIR : path := path_of "/var/lib/codex-gateway/cliproxy-auth-sweeps".
Definition STATE_DIR : path := path_of "/var/lib/cloudx/cpa-health".
Definition TRANSACTION_ROOT : path := path_of "/var/lib/codex-gateway/cpa-policy-acceptance".
Definition CLIENT_CREDENTIAL : path := path_of "/etc/cloudx/client-credential".
Definition CPA_SERVICE : string := "cliproxy.service".
Definition CPA_POLICY_BINARY : path := path_of "/opt/cliproxy-cloudx/releases/7.2.71-cloudx-policy.5/cli-proxy-api".
Definition CPA_POLICY_SHA256 : string := "5f83b1821d2be7cf5b7615973e4e6130d477386e16eae3a50af46e99bf7af7f8".
Definition HEALTH_SERVICE : string := "cloudx-cpa-health.service".
Definition FAILURE_PATH : string := "cloudx-cpa-failure.path".
Definition SWEEP_PATH : string := "cloudx-cpa-sweep.path".
Definition PROXY_URL : string := "http://127.0.0.1:7890".
Definition EXPECTED_TEXT : string := "CLOUDX_CPA_POLICY_RECOVERY_OK".
Definition MAX_FILE_BYTES : Z := 4 * 1024 * 1024.
Definition MAX_INPUT_BYTES : Z := 16 * 1024 * 1024.
Definition MAX_OUTPUT_BYTES : Z := 2 * 1024 * 1024.
Definition CANARY_PREFIX : string := "cloudx-m4b-limited-".
Definition ARCHIVE_BASELINE : Z := 45.

Record host := Host {
  spawn : list string → list (string * string) → M completed;
  gateway : string → string → list (string * string) → option string → M (Z * list (string * string) * string);
  pause : Z → M unit;                    (* [time.sleep], in milliseconds *)
  monotonic : M Z;                       (* milliseconds *)
  seconds_since : Z → Z → pyfloat;       (* [round(b - a, 3)] *)
  account_ids : string → M (Z * Z);      (* [pwd.getpwnam] *)
  file_owner : path → M (Z * Z);
  token_hex : nat → M string;
  token_urlsafe : nat → M string;
  environ : list (string * string);
  executable : string;
  script : path;                         (* [__file__] *)
  linux_root : bool }.

Definition rejected {A} (code : string) : M A := mraise_code AcceptanceRejected code "".
Definition rejected_in {A} (transaction : path) (code : string) : M A :=
  mraise_code AcceptanceRejected code (p_name transaction).

(** ** Files *)

(** [_safe_bytes]: the descriptor is read to its end. *)
Definition safe_bytes (p : path) (maximum : Z) : M string :=
  let! opened := try_with (open_nofollow p) (except [OSError] (λ _, rejected "unsafe_file")) in
  let! info := fstat opened in
  if negb (is_reg info) || (maximum <? node_size info) then rejected "unsafe_file" else
  let! raw := read_node opened in
  if (raw =s? "") || (maximum <? str_len raw) then rejected "unsafe_file" else ret raw.
Definition safe_sha256 (p : path) : M string := let! raw := safe_bytes p MAX_FILE_BYTES in ret (sha256 raw).

Definition fill_bytes (raw : string) (mode : Z) (owner : option (Z * Z)) (t : path) : M unit :=
  write_file t raw ;; fsync ;; chmod t mode ;; match owner with Some _ => chown | None => ret tt end.
Definition atomic_bytes (p : path) (raw : string) (mode : Z) (owner : option (Z * Z)) : M unit :=
  staged_write (fill_bytes raw mode owner) 448 p.
Definition atomic_json (p : path) (document : dict) : M unit := atomic_bytes p (json_file_text document) 384 None.

Definition json_file (p : path) (maximum : Z) : M dict :=
  let! value := try_with (let! raw := safe_bytes p maximum in lift (loads_bytes raw))
    (except [UnicodeDecodeError; JSONDecodeError] (λ _, rejected "invalid_json")) in
  match value with JDict d => ret d | _ => rejected "invalid_json" end.
(** [_output_json]. *)
Definition output_json (raw : string) : M dict :=
  let! value := try_with (lift (loads_bytes raw))
    (except [UnicodeDecodeError; JSONDecodeError] (λ _, rejected "invalid_output")) in
  match value with JDict d => ret d | _ => rejected "invalid_output" end.

Definition regular_step (suffix : string) (root : path) (kept : list path) (name : string) : M (list path) :=
  let p := child root name in
  let! file := is_file_p p in
  let! linked := (if file then is_symlink_p p else ret true) in
  ret (if negb linked && ((suffix =s? "") || ends_with suffix name) then kept ++ [p] else kept).
Definition regular_files (root : path) (suffix : string) : M (list path) :=
  let! info := try_with (lstat root) (except [OSError] (λ _, rejected "unsafe_directory")) in
  if is_link info || negb (is_dirn info) then rejected "unsafe_directory" else
  let! names := (sys ;; let! f := get_fs in ret (sort_by str_leb (child_names f root))) in
  mfold (regular_step suffix root) [] names.
(** [{path.name: _sha256(path) for path in files}]. *)
Definition digests (files : list path) : M dict :=
  mmap (λ p, let! d := safe_sha256 p in ret (p_name p, JStr d)) files.

Definition archive_count (root : path) : M Z :=
  let! manifest := json_file (child root "manifest.json") MAX_FILE_BYTES in
  match dget "entries" manifest with JList l => ret (Z.of_nat (length l)) | _ => rejected "archive_invalid" end.

Section host.
Context (X : host).

(** ** Commands *)

Definition run (argv : list string) (env : list (string * string)) (check : bool) : M completed :=
  let! done := try_with (spawn X argv env) (except [OSError] (λ _, rejected "command_failed")) in
  if (MAX_OUTPUT_BYTES <? str_len (c_stdout done)) || (MAX_OUTPUT_BYTES <? str_len (c_stderr done))
  then rejected "output_oversized" else
  if check && negb (c_status done =? 0) then rejected "command_failed" else ret done.

Definition service_field (name field : string) : M string :=
  let! done := run ["systemctl"; "show"; name; "-p"; field; "--value"] (environ X) true in
  ret (strip (utf8_replace (c_stdout done))).
Definition service_count (name field : string) : M Z :=
  let! text := service_field name field in
  lift (py_int (JStr (if text =s? "" then "0" else text))).
Definition service_state (name : string) : M dict :=
  let! pid := service_count name "MainPID" in
  let! restarts := service_count name "NRestarts" in
  let! active := service_field name "ActiveState" in
  let! sub := service_field name "SubState" in
  ret [("MainPID", JInt pid); ("NRestarts", JInt restarts); ("ActiveState", JStr active); ("SubState", JStr sub)].
Definition unit_ready (name : string) : M bool :=
  let! enabled := run ["systemctl"; "is-enabled"; name] (environ X) false in
  let! active := run ["systemctl"; "is-active"; name] (environ X) false in
  ret ((c_status enabled =? 0) && (c_status active =? 0)).

Definition active_version : M string :=
  let current := path_of "/opt/cloudx/current" in
  let! linked := is_symlink_p current in
  if negb linked then ret "" else
  try_with (let! p := resolve current in ret (p_name p)) (except [OSError] (λ _, ret "")).

(** The text of an environment: the last value of a name counts. *)
Definition signed_environ : list (string * string) :=
  environ X ++ [("CLOUDX_CPA_PROXY_URL", PROXY_URL); ("CLOUDX_CPA_SWEEP_CONCURRENCY", "32")]%string.
Definition signed_health (arguments : list string) : M dict :=
  let! done := run (executable X :: path_str ACTIVE_ARTIFACT :: arguments) signed_environ true in
  output_json (c_stdout done).
Definition self_check : M unit :=
  let! document := signed_health ["self-check"] in
  if negb (eq_str (dget "status" document) "ok") || negb (eq_str (dget "version" document) ACTIVE_VERSION)
  then rejected "release_mismatch" else ret tt.

(** ** The gateway *)

Definition client_credential : M string :=
  let! raw := safe_bytes CLIENT_CREDENTIAL 4096 in
  let! text := lift (decode_res raw) in
  if strip text =s? "" then rejected "gateway_credential" else ret (strip text).
Definition lower_headers (headers : list (string * string)) : dict :=
  fold_left (λ d h, dset (str_lower h.1) (JStr h.2) d) headers [].
Definition request (method path : string) (body : option dict) : M (Z * dict * string) :=
  let! credential := client_credential in
  let headers := ("Authorization", "Bearer " +:+ credential)%string ::
                 match body with Some _ => [("Content-Type", "application/json")%string] | None => [] end in
  let raw := match body with Some d => Some (dumps (st_default false true) (JDict d)) | None => None end in
  try_with
    (let! (status, received, data) := gateway X method path headers raw in
     if MAX_OUTPUT_BYTES <? str_len data then rejected "gateway_output" else ret (status, lower_headers received, data))
    (except [OSError] (λ _, rejected "gateway_unavailable")).

Definition PRIORITY : list string := ["codex-auto-review"; "gpt-5.3-codex"; "gpt-5.2-codex"; "gpt-5.1-codex"].
Definition model_ids (document : dict) : list string :=
  match dget "data" document with
  | JList l => omap (λ item, match item with JDict d => as_str (dget "id" d) | _ => None end) l
  | _ => []
  end.
(** The generator sees the list it extends, so that no model is added twice. *)
Definition ordered_models (models : list string) : list string :=
  fold_left (λ ordered m, if contains "codex" (str_lower m) && negb (mem m ordered) then ordered ++ [m] else ordered)
    models (List.filter (λ m, mem m models) PRIORITY).
Definition gateway_models : M (list string) :=
  let! (status, _, raw) := request "GET" "/v1/models" None in
  if negb (status =? 200) then rejected "models_unavailable" else
  let! document := output_json raw in
  let models := model_ids document in
  ret (match ordered_models models with [] => firstn 8 models | l => l end).

Fixpoint json_strings (v : json) : list string :=
  match v with
  | JStr s => [s]
  | JDict d => flat_map (λ kv, json_strings (snd kv)) d
  | JList l => flat_map json_strings l
  | _ => []
  end.
Definition answer_accepted (status : Z) (raw : string) : bool :=
  (status =? 200) &&
  match loads_bytes raw with Ok v => contains EXPECTED_TEXT (str_join LF (json_strings v)) | Raise _ => false end.
Definition canary_body (model : string) : dict :=
  [("model", JStr model); ("input", JStr ("Reply with exactly " +:+ EXPECTED_TEXT)); ("max_output_tokens", JInt 64);
   ("stream", JBool false)].
Definition CONCURRENCY_HEADER : string := "x-cpa-max-concurrent-api-requests".
Definition retried (status : Z) : bool := existsb (Z.eqb status) [400; 409; 429; 500; 502; 503; 504].

(** The tries of one model, and the number of attempts so far. *)
Fixpoint canary_tries (remaining : nat) (model : string) (attempts : Z) : M (option dict * Z) :=
  match remaining with
  | O => ret (None, attempts)
  | S remaining =>
      let attempts := attempts + 1 in
      let! (status, headers, raw) := request "POST" "/v1/responses" (Some (canary_body model)) in
      if answer_accepted status raw && eq_str (dget_or CONCURRENCY_HEADER (JStr "") headers) "2"
      then ret (Some [("status", JInt 200); ("policy", JInt 2); ("attempts", JInt attempts); ("model", JStr model)], attempts)
      else if retried status && negb (Nat.eqb remaining 0) then pause X 2000 ;; canary_tries remaining model attempts
      else ret (None, attempts)
  end.
Fixpoint canary_models (models : list string) (attempts : Z) : M dict :=
  match models with
  | [] => rejected "live_canary_failed"
  | model :: models =>
      let! (found, attempts) := canary_tries 3 model attempts in
      match found with Some d => ret d | None => canary_models models attempts end
  end.
Definition live_canary : M dict := let! models := gateway_models in canary_models (firstn 8 models) 0.

(** [with _transaction_lock()]. *)
Definition with_transaction_lock {A} (body : M A) : M A :=
  mkdir_parents TRANSACTION_ROOT 448 ;; chown ;; chmod TRANSACTION_ROOT 448 ;;
  open_lock (child TRANSACTION_ROOT ".acceptance.lock") ;; open_lock (child AUTH_DIR ".cloudx-import.lock") ;;
  body.

(** ** The three samples *)

Definition samples_rejected {A} : res A := raise_code AcceptanceRejected "quota_samples" "".
Definition quota_sample (item : json) : res string :=
  match item with
  | JStr s =>
      match (if is_ascii s then b64_strict s else None) with
      | Some value =>
          match loads_bytes value with
          | Ok (JDict _) => if (value =s? "") || (MAX_FILE_BYTES <? str_len value) then samples_rejected else Ok value
          | _ => samples_rejected
          end
      | None => samples_rejected
      end
  | _ => samples_rejected
  end.
Definition quota_samples (raw : string) : res (list string) :=
  if (raw =s? "") || (MAX_INPUT_BYTES <? str_len raw) then samples_rejected else
  match loads_bytes raw with
  | Ok (JDict d) =>
      if negb (forallb (λ k, mem k ["schema"; "samples"]%string) (dkeys d) && dmem "schema" d && dmem "samples" d) ||
         negb (eq_str (dget "schema" d) "cloudx.cpa-quota-samples.v1") then samples_rejected else
      match dget "samples" d with
      | JList [a; b; c] =>
          if negb (forallb is_str [a; b; c]) then samples_rejected else
          let* samples := map_res quota_sample [a; b; c] in
          if Nat.eqb (length (dedup (map sha256 samples))) 3 then Ok samples else samples_rejected
      | _ => samples_rejected
      end
  | _ => samples_rejected
  end.

(** ** Before the transaction *)

Record baseline := Baseline {
  bl_service : dict; bl_active_name : string; bl_active_digest : string; bl_sweep : dict;
  bl_state_digest : string; bl_archive_count : Z; bl_canary : dict }.

(** [decode("ascii", errors="replace")]. *)
Definition ascii_replace (s : string) : string :=
  str_flat_map (λ c, if Nat.ltb (ord c) 128 then String c "" else encode_cp 65533) s.
Definition first_word (s : string) : res string :=
  match str_words s with w :: _ => Ok w | [] => raise IndexError "list index out of range" end.
Definition trigger_present (files : list path) : bool := existsb (λ p, p_name p =s? "trigger.json") files.

Definition preflight_service : M dict :=
  if negb (linux_root X) then rejected "wrong_host" else
  let! version := active_version in
  if version <>s? ACTIVE_VERSION then rejected "release_mismatch" else
  self_check ;;
  let! failure := unit_ready FAILURE_PATH in
  let! ready := (if failure then unit_ready SWEEP_PATH else ret false) in
  if negb ready then rejected "watcher_unavailable" else
  let! service := service_state CPA_SERVICE in
  let! shown := run ["systemctl"; "show"; CPA_SERVICE; "-p"; "ExecStart"; "--value"] (environ X) true in
  let! summed := run ["sha256sum"; path_str CPA_POLICY_BINARY] (environ X) true in
  let! digest := lift (first_word (ascii_replace (c_stdout summed))) in
  if negb (contains (path_str CPA_POLICY_BINARY) (utf8_replace (c_stdout shown))) || (digest <>s? CPA_POLICY_SHA256)
  then rejected "policy_mismatch" else
  if negb (eq_str (dget "ActiveState" service) "active") || negb (eq_str (dget "SubState" service) "running") ||
     match dget "MainPID" service with JInt pid => pid <=? 0 | _ => true end
  then rejected "cpa_unavailable" else ret service.
Definition preflight_pool : M path :=
  let! active := regular_files AUTH_DIR ".json" in
  match active with
  | [credential] =>
      let! failures := regular_files FAILURE_DIR ".json" in
      match failures with
      | [] =>
          let! sweep := regular_files SWEEP_DIR "" in
          if trigger_present sweep then rejected "watcher_input" else
          let! archived := archive_count ARCHIVE_DIR in
          if negb (archived =? ARCHIVE_BASELINE) then rejected "archive_baseline" else
          let! (uid, gid) := account_ids X "cliproxy" in
          let! info := stat credential in
          let! (owner, group) := file_owner X credential in
          if negb (node_mode info =? 384) || negb (owner =? uid) || negb (group =? gid)
          then rejected "active_pool" else ret credential
      | _ => rejected "watcher_input"
      end
  | _ => rejected "active_pool"
  end.
Definition preflight : M baseline :=
  let! service := preflight_service in
  let! credential := preflight_pool in
  let! canary := live_canary in
  let! failures := regular_files FAILURE_DIR ".json" in
  match failures with
  | [] =>
      let! sweep := regular_files SWEEP_DIR "" in
      if trigger_present sweep then rejected "watcher_input" else
      let! digest := safe_sha256 credential in
      let! sweep_digests := digests sweep in
      let state := child STATE_DIR "state.json" in
      let! present := is_file_p state in
      let! state_digest := (if present then safe_sha256 state else ret "") in
      ret (Baseline service (p_name credential) digest sweep_digests state_digest ARCHIVE_BASELINE canary)
  | _ => rejected "watcher_input"
  end.

(** ** The transaction on disk *)

Definition manifest_path (transaction : path) : path := child transaction "manifest.json".
Definition evidence (transaction : path) (name : string) : path := under transaction ["evidence"; name].
Definition held_active (transaction : path) (name : string) : path := path_join (under transaction ["hold"; "active"]) name.
Definition held_sweep (transaction : path) (name : string) : path := path_join (under transaction ["hold"; "sweep"]) name.
Definition staged (transaction : path) (name : string) : path := path_join (under transaction ["staged"]) name.
(** [path.mkdir(parents=True, mode=0o700)]. *)
Definition mkdir_private (p : path) : M unit := mkdir_parents (p_parent p) 493 ;; mkdir_new p 448.

Definition canary_name (index : Z) : string := CANARY_PREFIX +:+ str_of_Z index +:+ ".json".
Fixpoint stage_canaries (transaction : path) (index : Z) (samples : list string) : M dict :=
  match samples with
  | [] => ret []
  | raw :: samples =>
      atomic_bytes (staged transaction (canary_name index)) raw 384 None ;;
      let! rest := stage_canaries transaction (index + 1) samples in
      ret ((canary_name index, JStr (sha256 raw)) :: rest)
  end.
Definition recovery_confirmation (transaction_id : string) : string := "RECOVER CLOUD CPA FAILURE POLICY " +:+ transaction_id.
Definition recovery_manual (recovery transaction : path) (confirmation : string) : string :=
  "Cloud CPA failure-policy acceptance recovery" +:+ LF +:+ LF +:+
  "Run exactly:" +:+ LF +:+
  "sudo /usr/bin/python3 " +:+ path_str recovery +:+ " --recover --transaction " +:+ path_str transaction +:+
  " --confirm " +:+ dumps (st_default false true) (JStr confirmation) +:+ LF +:+
  "The command restores the held active credential, removes only transaction canaries, " +:+
  "restores watcher input, and performs a real gateway canary." +:+ LF.
Definition transaction_manifest (transaction_id created_at : string) (base : baseline) (canaries : dict) (uid gid : Z)
    (tool_digest : string) : dict :=
  [("schema", JStr ACCEPT_SCHEMA); ("transactionId", JStr transaction_id); ("phase", JStr "prepared");
   ("createdAt", JStr created_at); ("activeName", JStr (bl_active_name base)); ("activeDigest", JStr (bl_active_digest base));
   ("sweep", JDict (bl_sweep base)); ("stateDigest", JStr (bl_state_digest base)); ("canaries", JDict canaries);
   ("archiveCount", JInt (bl_archive_count base)); ("service", JDict (bl_service base)); ("cliproxyUid", JInt uid);
   ("cliproxyGid", JInt gid); ("recoveryToolSha256", JStr tool_digest); ("rawCredentialTemporarilyStored", JBool true)].

Definition fill_transaction (transaction : path) (base : baseline) (samples : list string) : M path :=
  let transaction_id := p_name transaction in
  let recovery := child transaction "recover.py" in
  let! tool := safe_bytes (script X) (1024 * 1024) in
  atomic_bytes recovery tool 448 None ;;
  let! (uid, gid) := account_ids X "cliproxy" in
  let! canaries := stage_canaries transaction 1 samples in
  let! created_at := iso_now in
  let! tool_digest := safe_sha256 recovery in
  atomic_json (manifest_path transaction)
    (transaction_manifest transaction_id created_at base canaries uid gid tool_digest) ;;
  atomic_bytes (child transaction "RECOVERY.md")
    (recovery_manual recovery transaction (recovery_confirmation transaction_id)) 384 None ;;
  let! rehearsal := run [executable X; path_str recovery; "--self-test"] (environ X) true in
  let! document := output_json (c_stdout rehearsal) in
  if negb (eq_str (dget "status" document) "passed") then rejected_in transaction "recovery_rehearsal" else
  atomic_json (evidence transaction "recovery-rehearsal.json") document ;;
  ret transaction.
Definition prepare_transaction (base : baseline) (samples : list string) : M path :=
  let! stamp := now_stamp in
  let! nonce := token_hex X 4 in
  let transaction := child TRANSACTION_ROOT (stamp +:+ "-" +:+ nonce) in
  mkdir_new transaction 448 ;; chown ;;
  miter (λ l, mkdir_private (under transaction l) ;; chown)
    [["hold"; "active"]; ["hold"; "sweep"]; ["staged"]; ["evidence"]]%string ;;
  try_with (fill_transaction transaction base samples) (except_all (λ e, rmtree_quiet transaction ;; throw e)).

(** ** The isolated sweeps *)

Definition b64url_char (z : Z) : ascii :=
  default "A"%char (String.get (Z.to_nat (Z.land z 63)) "ABCDEFGHIJKLMNOPQRSTUVWXYZabcdefghijklmnopqrstuvwxyz0123456789-_").
Definition code (c : ascii) : Z := Z.of_nat (ord c).
(** [base64.urlsafe_b64encode(raw).decode("ascii").rstrip("=")]. *)
Fixpoint b64url (s : string) : string :=
  let put n k := b64url_char (Z.shiftr n k) in
  match s with
  | String a (String b (String c rest)) =>
      let n := 65536 * code a + 256 * code b + code c in
      String (put n 18) (String (put n 12) (String (put n 6) (String (put n 0) (b64url rest))))
  | String a (String b "") =>
      let n := 65536 * code a + 256 * code b in String (put n 18) (String (put n 12) (String (put n 6) ""))
  | String a "" => let n := 65536 * code a in String (put n 18) (String (put n 12) "")
  | "" => ""
  end.
Definition token_part (d : dict) : string := b64url (dumps (st_compact true true) (JDict d)).
Definition synthetic_token : M string :=
  let! us := now_us in
  let! nonce := token_hex X 8 in
  let! signature := token_urlsafe X 8 in
  ret (token_part [("alg", JStr "none"); ("typ", JStr "JWT")] +:+ "." +:+
       token_part [("exp", JInt (us / US + 3600)); ("nonce", JStr nonce)] +:+ "." +:+ signature).
Definition write_trigger (p : path) : M unit :=
  let! now := iso_now in
  atomic_json p [("schema", JStr "cloudx.cpa-sweep-trigger.v1"); ("reason", JStr "auth_unavailable"); ("observedAt", JStr now)].

Definition sweep_credential (classification : string) (source : option path) : M string :=
  match source with
  | Some p => safe_bytes p MAX_FILE_BYTES
  | None =>
      let! token := synthetic_token in
      let payload := [("type", JStr "codex"); ("access_token", JStr token); ("disabled", JBool false)] ++
        (if classification =s? "provisional" then [("refresh_token", JStr "cloudx-refreshable-401-canary")] else []) in
      ret (dumps (st_default true true) (JDict payload) +:+ LF)
  end.
Definition restore_permanent (auth archive credential : path) (original_digest : string) : M unit :=
  let! manifest := json_file (child archive "manifest.json") MAX_FILE_BYTES in
  match dget "entries" manifest with
  | JList [JDict entry] =>
      let selector := py_str (py_or (dget "quarantine_name" entry) (JStr "")) in
      let! restored := signed_health ["cpa-health-restore"; selector; "--confirm"; selector;
                                      "--auth-dir"; path_str auth; "--archive-dir"; path_str archive] in
      if negb (eq_str (dget "status" restored) "restored") || negb (eq_int (dget "restored_count" restored) 1)
      then rejected "restore_failed" else
      let! digest := safe_sha256 credential in
      let! count := (if digest <>s? original_digest then ret 1 else archive_count archive) in
      if negb (count =? 0) then rejected "restore_mismatch" else ret tt
  | _ => rejected "permanent_manifest"
  end.
(** What a sweep of each kind must have done; the fields it adds to the result. *)
Definition sweep_outcome (classification : string) (document : dict) (auth archive credential : path) (original_digest : string) : M dict :=
  let one key := eq_int (dget key document) 1 in
  let none_archived := eq_int (dget "archived_count" document) 0 in
  let kept : M bool := is_file_p credential in
  if classification =s? "quota" then
    let! ok := (if one "limited" && none_archived then kept else ret false) in
    if negb ok then rejected "quota_archived" else ret [("limited", JInt 1); ("archived", JInt 0)]
  else if classification =s? "provisional" then
    let! ok := (if none_archived then kept else ret false) in
    let! same := (if ok then let! d := safe_sha256 credential in ret (d =s? original_digest) else ret false) in
    if negb same then rejected "provisional_archived" else ret [("provisional401", JBool true); ("archived", JInt 0)]
  else
    let! remaining := (if one "invalid" && one "probe_failure_archived_count" then exists_p credential else ret true) in
    if remaining then rejected "permanent_not_archived" else
    restore_permanent auth archive credential original_digest ;;
    ret [("permanentArchived", JInt 1); ("digestMatched", JBool true); ("restored", JInt 1)].
Definition isolated_sweep (transaction : path) (kind : string) (source : option path) : M dict :=
  let classification := if starts_with "quota-" kind then "quota"%string else kind in
  let root := under transaction ["isolated"; kind] in
  let auth := child root "auth" in let archive := child root "archive" in let failure := child root "failure" in
  let sweep := child root "sweep" in let state := child root "state" in
  miter mkdir_private [auth; archive; failure; sweep; state] ;;
  let credential := child auth (kind +:+ "-canary.json") in
  let! raw := sweep_credential classification source in
  atomic_bytes credential raw 384 None ;;
  let! original_digest := safe_sha256 credential in
  write_trigger (child sweep "trigger.json") ;;
  let! document := signed_health
    ["cpa-health"; "--sweep-if-triggered"; "--auth-dir"; path_str auth; "--archive-dir"; path_str archive;
     "--failure-dir"; path_str failure; "--sweep-dir"; path_str sweep; "--state-dir"; path_str state;
     "--proxy-url"; PROXY_URL; "--probe-concurrency"; "8"; "--failure-confirmations"; "1"]%string in
  if negb (eq_str (dget "probe_gate" document) "reachable" && is_true (dget "sweep_triggered" document) &&
           eq_str (dget "sweep_trigger_status" document) "consumed" && eq_int (dget "probe_concurrency" document) 1)
  then rejected "isolated_sweep" else
  let! fields := sweep_outcome classification document auth archive credential original_digest in
  let result := [("kind", JStr kind); ("probeConcurrency", JInt 1); ("networkProbe", JBool true)] ++ fields in
  atomic_json (evidence transaction (kind +:+ ".json")) result ;;
  rmtree (λ m, m) root ;;
  ret result.

(** ** The live part *)

Definition int_field (d : dict) (key : string) : M Z := lift (let* v := ditem d key in py_int v).
Definition text_field (d : dict) (key : string) : M string := lift (let* v := ditem d key in Ok (py_str v)).

Definition put_canary (transaction : path) (uid gid : Z) (canary : string * json) : M unit :=
  let p := staged transaction canary.1 in
  let! digest := safe_sha256 p in
  if negb (py_eq (JStr digest) canary.2) then rejected_in transaction "staged_changed" else
  let! raw := safe_bytes p MAX_FILE_BYTES in
  atomic_bytes (path_join AUTH_DIR canary.1) raw 384 (Some (uid, gid)).
Definition activate_limited (transaction : path) : M unit :=
  let! manifest := json_file (manifest_path transaction) MAX_FILE_BYTES in
  let! active_name := text_field manifest "activeName" in
  let active := path_join AUTH_DIR active_name in
  let! digest := safe_sha256 active in
  let! expected := lift (ditem manifest "activeDigest") in
  if negb (py_eq (JStr digest) expected) then rejected_in transaction "baseline_changed" else
  let! files := regular_files SWEEP_DIR "" in
  let! current := digests files in
  let! recorded := lift (ditem manifest "sweep") in
  if negb (py_eq (JDict current) recorded) then rejected_in transaction "baseline_changed" else
  replace active (held_active transaction active_name) ;;
  let! sweep := lift (ditems recorded) in
  miter (λ name, replace (path_join SWEEP_DIR name) (held_sweep transaction name)) (dkeys sweep) ;;
  let! uid := int_field manifest "cliproxyUid" in
  let! gid := int_field manifest "cliproxyGid" in
  let! canaries := lift (let* v := ditem manifest "canaries" in ditems v) in
  miter (put_canary transaction uid gid) canaries ;;
  fsync_directory AUTH_DIR ;;
  atomic_json (manifest_path transaction) (dset "phase" (JStr "limited-active") manifest) ;;
  pause X 4000.

(** [int(state.get(key) or 0)]. *)
Definition or_zero (state : dict) (key : string) : res Z := py_int (py_or (dget key state) (JInt 0)).
Definition concurrency_at_least_3 (v : json) : bool :=
  match v with JInt z => 3 <=? z | _ => false end.
(** The tests of the state, from the first to the last, until one is false. *)
Definition sweep_seen (state : dict) (digest before : string) : res bool :=
  if negb ((digest <>s? before) && is_true (dget "sweep_triggered" state) &&
           eq_str (dget "sweep_trigger_status" state) "consumed" && eq_str (dget "probe_gate" state) "reachable" &&
           concurrency_at_least_3 (dget "probe_concurrency" state)) then Ok false else
  let* limited := or_zero state "limited" in
  if limited <? 3 then Ok false else
  let* archived := or_zero state "archived_count" in
  if negb (archived =? 0) then Ok false else
  let* probes := or_zero state "probe_failure_archived_count" in
  if negb (probes =? 0) then Ok false else
  let* receipts := or_zero state "runtime_failure_archived_count" in
  Ok (receipts =? 0).
Definition sorted_statuses (l : list Z) : list json := map JInt (sort_by Z.leb (remove_dups l)).
Definition aggregate_result (transaction : path) (state : dict) (signal : bool) (attempts : Z) (statuses : list Z)
    (started : Z) : M dict :=
  let! concurrency := lift (py_int (dget "probe_concurrency" state)) in
  let! limited := lift (or_zero state "limited") in
  let! now := monotonic X in
  let result := [("aggregateTriggerObserved", JBool true); ("responseAuthUnavailableObserved", JBool signal);
    ("businessPolicy", JInt 2); ("businessAttempts", JInt attempts); ("httpStatuses", JList (sorted_statuses statuses));
    ("sweepProbeConcurrency", JInt concurrency); ("limited", JInt limited); ("archived", JInt 0);
    ("triggerStatus", JStr "consumed"); ("elapsedSeconds", JFloat (seconds_since X started now))] in
  atomic_json (evidence transaction "natural-aggregate.json") result ;; ret result.
(** The turns of the wait are two tenths of a second apart: there are at most ten before
    the deadline. *)
Definition WAIT_TURNS : nat := 11.
Fixpoint await_sweep (fuel : nat) (transaction : path) (manifest : dict) (deadline : Z) (result : dict → M dict) : M (option dict) :=
  match fuel with
  | O => ret None
  | S fuel =>
      let! now := monotonic X in
      if negb (now <? deadline) then ret None else
      let state_path := child STATE_DIR "state.json" in
      let! present := is_file_p state_path in
      let! found := (if negb present then ret None else
        let! state := json_file state_path MAX_FILE_BYTES in
        let! digest := safe_sha256 state_path in
        let! seen := lift (sweep_seen state digest (py_str (py_or (dget "stateDigest" manifest) (JStr "")))) in
        if negb seen then ret None else
        let! count := archive_count ARCHIVE_DIR in
        let! failures := (if count =? ARCHIVE_BASELINE then regular_files FAILURE_DIR ".json" else ret [ARCHIVE_DIR]) in
        match failures with
        | [] => let! d := result state in ret (Some d)
        | _ => rejected_in transaction "archive_changed"
        end) in
      match found with
      | Some d => ret (Some d)
      | None => pause X 200 ;; await_sweep fuel transaction manifest deadline result
      end
  end.
Fixpoint aggregate_attempts (remaining : nat) (transaction : path) (manifest : dict) (model : string) (started : Z)
    (signal : bool) (attempts : Z) (statuses : list Z) : M dict :=
  match remaining with
  | O => rejected_in transaction "aggregate_not_triggered"
  | S remaining =>
      let attempts := attempts + 1 in
      let! (status, headers, raw) := request "POST" "/v1/responses"
        (Some [("model", JStr model); ("input", JStr "Return one word."); ("max_output_tokens", JInt 16); ("stream", JBool false)]) in
      let statuses := statuses ++ [status] in
      if negb (eq_str (dget CONCURRENCY_HEADER headers) "2") then rejected_in transaction "policy_mismatch" else
      let lowered := str_lower (str_take_z 65536 raw) in
      let signal := signal || contains "auth_unavailable" lowered || contains "no auth available" lowered in
      let! now := monotonic X in
      let! found := await_sweep WAIT_TURNS transaction manifest (now + 2000)
        (λ state, aggregate_result transaction state signal attempts statuses started) in
      match found with
      | Some d => ret d
      | None => pause X 500 ;; aggregate_attempts remaining transaction manifest model started signal attempts statuses
      end
  end.
Definition natural_aggregate (transaction : path) : M dict :=
  let! manifest := json_file (manifest_path transaction) MAX_FILE_BYTES in
  let! models := gateway_models in
  match models with
  | [] => rejected "models_unavailable"
  | model :: _ =>
      let! started := monotonic X in aggregate_attempts 16 transaction manifest model started false 0 []
  end.

(** ** Recovery *)

Definition restore_archived (transaction : path) (names : list string) : M unit :=
  let! manifest := json_file (child ARCHIVE_DIR "manifest.json") MAX_FILE_BYTES in
  match dget "entries" manifest with
  | JList entries =>
      let field d key := py_str (py_or (dget key d) (JStr "")) in
      let selectors := omap (λ e, match e with
        | JDict d => if mem (field d "source_relative") names then Some (field d "quarantine_name") else None
        | _ => None end) entries in
      miter (λ selector,
        let! restored := signed_health ["cpa-health-restore"; selector; "--confirm"; selector;
                                        "--auth-dir"; path_str AUTH_DIR; "--archive-dir"; path_str ARCHIVE_DIR] in
        if negb (eq_str (dget "status" restored) "restored") then rejected_in transaction "canary_restore_failed" else ret tt)
        selectors
  | _ => rejected_in transaction "archive_invalid"
  end.
Definition remove_canary (transaction : path) (name : string) : M unit :=
  let p := path_join AUTH_DIR name in
  let! present := exists_p p in
  if negb present then ret tt else
  let! linked := is_symlink_p p in
  let! file := (if linked then ret false else is_file_p p) in
  if negb file then rejected_in transaction "recovery_unsafe" else unlink p.
Definition collect_receipt (transaction : path) (names : list string) (receipt : path) : M unit :=
  let! document := try_with (let! d := json_file receipt (16 * 1024) in ret (Some d))
    (except [AcceptanceRejected] (λ _, ret None)) in
  match document with
  | Some d => if mem (py_str (py_or (dget "authFile" d) (JStr ""))) names
              then replace receipt (evidence transaction ("failure-" +:+ p_name receipt)) else ret tt
  | None => ret tt
  end.
Definition collect_sweep (transaction : path) (sweep_baseline : dict) (p : path) : M unit :=
  let expected := py_str (py_or (dget (p_name p) sweep_baseline) (JStr "")) in
  let! same := (if expected =s? "" then ret false else let! d := safe_sha256 p in ret (d =s? expected)) in
  if same then ret tt else
  let target := evidence transaction ("post-sweep-" +:+ p_name p) in
  unlink_missing_ok target ;; replace p target.
(** [target.exists() and _sha256(target) == digest]. *)
Definition has_digest (p : path) (digest : json) : M bool :=
  let! present := exists_p p in
  if negb present then ret false else let! d := safe_sha256 p in ret (py_eq (JStr d) digest).
Definition restore_sweep (transaction : path) (item : string * json) : M unit :=
  let target := path_join SWEEP_DIR item.1 in
  let held := held_sweep transaction item.1 in
  let! back := has_digest target item.2 in
  if back then unlink_missing_ok held else
  let! there := has_digest held item.2 in
  if there then replace held target else rejected_in transaction "recovery_incomplete".
Definition restore_active (transaction : path) (manifest : dict) (active_name active_digest : string) : M unit :=
  let target := path_join AUTH_DIR active_name in
  let held := held_active transaction active_name in
  let! back := has_digest target (JStr active_digest) in
  if back then unlink_missing_ok held else
  let! there := has_digest held (JStr active_digest) in
  let! free := (if there then let! taken := exists_p target in ret (negb taken) else ret false) in
  if negb free then rejected_in transaction "recovery_incomplete" else
  replace held target ;; chmod target 384 ;;
  let! _ := int_field manifest "cliproxyUid" in
  let! _ := int_field manifest "cliproxyGid" in
  chown.

Definition already_recovered (transaction : path) (manifest : dict) : M dict :=
  let! active := regular_files AUTH_DIR ".json" in
  let! service := service_state CPA_SERVICE in
  let! same :=
    match active with
    | [p] =>
        let! name := text_field manifest "activeName" in
        if p_name p <>s? name then ret false else
        let! recorded := lift (ditem manifest "service") in
        if negb (py_eq (JDict service) recorded) then ret false else
        let! count := archive_count ARCHIVE_DIR in
        let! expected := int_field manifest "archiveCount" in ret (count =? expected)
    | _ => ret false
    end in
  if negb same then rejected_in transaction "recovery_incomplete" else
  ret [("activeRestored", JBool true); ("serviceUnchanged", JBool true); ("archiveRestored", JBool true);
       ("alreadyRecovered", JBool true)].

(** [sorted(str(name) for name in manifest.get("canaries", {}))]: of an object, the keys. *)
Definition canary_names (manifest : dict) : res (list string) :=
  match dget_or "canaries" (JDict []) manifest with
  | JDict d => Ok (sort_by str_leb (dkeys d))
  | JList l => Ok (sort_by str_leb (map py_str l))
  | JStr s => Ok (sort_by str_leb (map (λ c, String c "") (chars s)))
  | _ => raise TypeError "object is not iterable"
  end.
(** Everything is put back in place. *)
Definition put_back (transaction : path) (manifest : dict) : M string :=
  let! names := lift (canary_names manifest) in
  restore_archived transaction names ;;
  miter (remove_canary transaction) names ;;
  let! receipts := regular_files FAILURE_DIR ".json" in
  miter (collect_receipt transaction names) receipts ;;
  let sweep_baseline := dict_or_empty (dget "sweep" manifest) in
  let! found := regular_files SWEEP_DIR "" in
  miter (collect_sweep transaction sweep_baseline) found ;;
  miter (restore_sweep transaction) sweep_baseline ;;
  let! active_name := text_field manifest "activeName" in
  let! active_digest := text_field manifest "activeDigest" in
  restore_active transaction manifest active_name active_digest ;;
  fsync_directory AUTH_DIR ;; fsync_directory SWEEP_DIR ;;
  rmtree_quiet (under transaction ["staged"]) ;; rmtree_quiet (under transaction ["isolated"]) ;;
  ret active_name.
(** The service and the pool are those of the baseline. *)
Definition check_baseline (transaction : path) (manifest : dict) (active_name : string) : M unit :=
  let! service := service_state CPA_SERVICE in
  let! active := regular_files AUTH_DIR ".json" in
  let! recorded := lift (ditem manifest "service") in
  if negb (py_eq (JDict service) recorded) || negb (match active with [p] => p_name p =s? active_name | _ => false end)
  then rejected_in transaction "recovery_incomplete" else
  let! count := archive_count ARCHIVE_DIR in
  let! expected := int_field manifest "archiveCount" in
  if negb (count =? expected) then rejected_in transaction "recovery_incomplete" else
  let! failures := regular_files FAILURE_DIR ".json" in
  match failures with [] => ret tt | _ => rejected_in transaction "recovery_incomplete" end.
Definition recover (transaction : path) : M dict :=
  let! manifest := json_file (manifest_path transaction) MAX_FILE_BYTES in
  if eq_str (dget "phase" manifest) "recovered" then already_recovered transaction manifest else
  let! active_name := put_back transaction manifest in
  pause X 4000 ;;
  let! canary := live_canary in
  check_baseline transaction manifest active_name ;;
  let! recovered_at := iso_now in
  atomic_json (manifest_path transaction)
    (dset "recoveredAt" (JStr recovered_at) (dset "rawCredentialTemporarilyStored" (JBool false)
      (dset "phase" (JStr "recovered") manifest))) ;;
  let result := [("activeRestored", JBool true); ("serviceUnchanged", JBool true); ("archiveRestored", JBool true);
                 ("liveCanary", JDict canary)] in
  atomic_json (evidence transaction "recovery.json") result ;;
  ret result.

(** ** The whole *)

Definition idle_acceptance (transaction : path) : M dict :=
  let! before := service_state CPA_SERVICE in
  let! _ := run ["systemctl"; "start"; HEALTH_SERVICE] (environ X) true in
  let! state := json_file (child STATE_DIR "state.json") MAX_FILE_BYTES in
  let quiet := eq_str (dget "probe_gate" state) "not_triggered" && eq_int (dget "probe_concurrency" state) 0 &&
               is_false (dget "sweep_triggered" state) && eq_str (dget "sweep_trigger_status" state) "absent" in
  let! same := (if quiet then let! after := service_state CPA_SERVICE in ret (py_eq (JDict after) (JDict before)) else ret false) in
  if negb same then rejected_in transaction "idle_probe" else
  let result := [("probeGate", JStr "not_triggered"); ("probeConcurrency", JInt 0); ("trigger", JStr "absent");
                 ("cpaServiceUnchanged", JBool true)] in
  atomic_json (evidence transaction "idle.json") result ;; ret result.

Definition receipt_path (transaction : path) : path := child transaction "receipt.json".
Definition accepted_receipt (transaction : path) (limited : Z) (service provisional permanent aggregate recovered idle : dict) : res dict :=
  let* pid := ditem service "MainPID" in
  let* restarts := ditem service "NRestarts" in
  Ok [("schema", JStr ACCEPT_SCHEMA); ("status", JStr "accepted"); ("transactionId", JStr (p_name transaction));
      ("businessPolicy", JInt 2); ("quotaSampleCount", JInt 3);
      ("realQuota", JDict [("sampleCount", JInt 3); ("limited", JInt limited); ("archived", JInt 0)]);
      ("provisional", JDict provisional); ("permanent", JDict permanent); ("aggregate", JDict aggregate);
      ("recovery", JDict recovered); ("idle", JDict idle); ("cpaPid", pid); ("cpaRestarts", restarts);
      ("serviceRestarted", JBool false); ("rawCredentialStored", JBool false)].
Definition failed_receipt (transaction : path) (code : string) (recovered : dict) : dict :=
  [("schema", JStr ACCEPT_SCHEMA); ("status", JStr "failed-recovered"); ("transactionId", JStr (p_name transaction));
   ("failureCode", JStr code); ("recovery", JDict recovered); ("serviceRestarted", JBool false);
   ("rawCredentialStored", JBool false)].

(** The handler of the body: [recovered] is what the body had set. *)
Definition fail_acceptance {A} (transaction : path) (recovered : option dict) (e : exn) : M A :=
  let! recovered := match recovered with
    | Some d => ret d
    | None => try_with (recover transaction) (except_all (λ _, rejected_in transaction "recovery_incomplete"))
    end in
  let code := if bool_decide (exn_cls e = AcceptanceRejected) then exn_code e else "acceptance_failed"%string in
  atomic_json (receipt_path transaction) (failed_receipt transaction code recovered) ;;
  rejected_in transaction code.
(** The body up to the recovery it makes itself, and what it still does after it. *)
Definition before_recovery (transaction : path) : M (Z * dict * dict * dict) :=
  let! checks := mmap (λ index, isolated_sweep transaction ("quota-" +:+ str_of_Z index) (Some (staged transaction (canary_name index)))) [1; 2; 3] in
  let! limited := lift (map_res (λ d, let* v := ditem d "limited" in py_int v) checks) in
  let! provisional := isolated_sweep transaction "provisional" None in
  let! permanent := isolated_sweep transaction "permanent" None in
  activate_limited transaction ;;
  let! aggregate := natural_aggregate transaction in
  ret (fold_left Z.add limited 0, provisional, permanent, aggregate).
Definition after_recovery (transaction : path) (service : dict) (found : Z * dict * dict * dict) (recovered : dict) : M dict :=
  let '(limited, provisional, permanent, aggregate) := found in
  let! idle := idle_acceptance transaction in
  let! receipt := lift (accepted_receipt transaction limited service provisional permanent aggregate recovered idle) in
  atomic_json (receipt_path transaction) receipt ;;
  ret receipt.
Definition run_transaction (transaction : path) (service : dict) : M dict :=
  let! (found, recovered) := try_with
    (let! found := before_recovery transaction in let! recovered := recover transaction in ret (found, recovered))
    (except_all (fail_acceptance transaction None)) in
  try_with (after_recovery transaction service found recovered) (except_all (fail_acceptance transaction (Some recovered))).
Definition remote_apply (samples : list string) : M dict :=
  with_transaction_lock
    (let! base := preflight in
     let! transaction := prepare_transaction base samples in
     run_transaction transaction (bl_service base)).

(** ** The command *)

Definition remote_self_test : M dict :=
  with_temporary_directory "tmp" (path_of "/tmp") (λ root,
    let source := child root "held" in
    let target := child root "active" in
    write_bytes source "baseline" ;;
    let! digest := safe_sha256 source in
    replace source target ;;
    let! moved := safe_sha256 target in
    let! remaining := (if moved =s? digest then exists_p source else ret true) in
    if remaining then rejected "recovery_rehearsal" else
    ret [("schema", JStr "cloudx.cloud-cpa-recovery-self-test.v1"); ("status", JStr "passed")]).
Definition accept_main (self_test do_recover apply : bool) (confirm : string) (transaction : option path) (stdin : string) : M dict :=
  if self_test then remote_self_test else
  if do_recover then
    match transaction with
    | Some t => if confirm =s? recovery_confirmation (p_name t) then recover t else rejected "confirmation_mismatch"
    | None => rejected "confirmation_mismatch"
    end
  else if negb apply || (confirm <>s? ACCEPT_CONFIRMATION) then rejected "confirmation_mismatch" else
  let! samples := lift (quota_samples (str_take_z (MAX_INPUT_BYTES + 1) stdin)) in
  remote_apply samples.
(** What is printed, and the exit status; other exceptions end the program. *)
Definition accept_program (self_test do_recover apply : bool) (confirm : string) (transaction : option path) (stdin : string)
    : M (dict * Z) :=
  try_with (let! d := accept_main self_test do_recover apply confirm transaction stdin in ret (d, 0))
    (except [AcceptanceRejected] (λ e,
       ret ([("schema", JStr ACCEPT_SCHEMA); ("status", JStr "rejected"); ("failureCode", JStr (exn_code e));
             ("transactionId", JStr (exn_msg e)); ("recoveryRequired", JBool (exn_code e =s? "recovery_incomplete"))], 2))).
End host.
