(* ===== verification/AcceptanceSafety.v ===== *)
(** * The live acceptance never loses the held credential

    From a prepared transaction on, whatever calls fail, a file with the recorded digest is in
    the pool or in the transaction's own directory; it is back in the pool whenever the script
    ends without asking for a manual recovery, and a later recovery that succeeds puts it back.
    Other programs (the service, the helper, the gateway) may do what they like with all other
    files. *)

From S2P Require Import Prelude PyStr PyFloat PyValue PyRe PyTime PyJson PyBase64 PySha JsonRoundTrip FS Wp FileData.
From S2P Require Import CpaRecords CpaAuth ApiFailure LocalConfig AccountContract Releases Trees ShellHook Ops Acceptance.

(** ** Objects that are written, changed and read again *)

Lemma plain_dset k v d : plain (JDict d) = true → is_ascii k = true → plain v = true → plain (JDict (dset k v d)) = true.
Proof.
  cbn [plain]. rewrite !andb_true_iff, !bool_decide_eq_true, !forallb_forall. intros [Hn Hd] Hk Hv. split.
  - apply NoDup_ListNoDup, dset_NoDup. by apply NoDup_ListNoDup.
  - clear Hn. induction d as [|[j u] d IH]; cbn [dset].
    + intros x [<-|[]]. cbn [fst snd]. by rewrite Hk, Hv.
    + destruct (eqs_spec k j) as [<-|_]; intros x [<-|Hx]; cbn [fst snd].
      * by rewrite Hk, Hv.
      * apply Hd. by right.
      * apply (Hd (j, u)). by left.
      * apply IH; [|done]. intros y Hy. apply Hd. by right.
Qed.

Lemma plain_reorder v : plain v = true → plain (reorder true v) = true.
Proof.
  induction v as [| | | | |l IH|d IH] using json_rect'; try done.
  - cbn [plain reorder]. rewrite !forallb_forall, List.Forall_forall in *. intros Hl x Hx.
    apply in_map_iff in Hx as (y & <- & Hy). auto.
  - cbn [plain reorder]. rewrite !andb_true_iff, !bool_decide_eq_true, !forallb_forall. intros [Hn Hd]. split.
    + unfold sort_items. rewrite sort_by_perm, map_map. exact Hn.
    + intros x Hx. apply sort_by_In, in_map_iff in Hx as ([k u] & <- & Hy). cbn [fst snd].
      specialize (Hd _ Hy). cbn [fst snd] in Hd. apply andb_true_iff in Hd as [-> Hu].
      rewrite List.Forall_forall in IH. by apply (IH (k, u)).
Qed.

Lemma reorder_keys c c' : reorder true (JDict c) = JDict c' → ∀ k, In k (dkeys c') ↔ In k (dkeys c).
Proof.
  intros [= <-] k. unfold dkeys, sort_items. split.
  - intros ((j, u) & <- & H%sort_by_In)%in_map_iff. apply in_map_iff in H as ((i, v) & [= <- <-] & H). apply in_map_iff. by exists (i, v).
  - intros ((j, u) & <- & H)%in_map_iff. apply in_map_iff. exists (j, reorder true u). split; [done|].
    apply sort_by_In, in_map_iff. by exists (j, u).
Qed.

Lemma json_text_back d : plain (JDict d) = true →
  ∃ d', loads_bytes (json_file_text d) = Ok (JDict d') ∧ reorder true (JDict d) = JDict d' ∧ read_as d d' ∧ plain (JDict d') = true.
Proof.
  intros Hp. destruct (reordered d Hp) as (d' & Hd & Has). exists d'. split; [|repeat split; [done..|]].
  - unfold loads_bytes, json_file_text, decode_res, decode_utf8. rewrite ascii_utf8.
    + rewrite loads_dumps, <- Hd; [done|apply good_pretty|done|done].
    + rewrite is_ascii_app. unfold dumps. rewrite dumps_ascii by (done || apply good_pretty). done.
  - rewrite <- Hd. by apply plain_reorder.
Qed.

Lemma iso_ascii w : is_ascii (isoformat (utc w)) = true.
Proof.
  rewrite isoformat_body, is_ascii_app. unfold utc_body. destruct (days2ymd _) as [[y m] d].
  assert (Hd : ∀ n z, is_ascii (pad n z) = true).
  { intros n z. eapply str_forall_mono; [|apply (pad_digit_chars n z)]. intros c. by destruct c as [[][][][][][][][]]. }
  unfold date_text, time_text, frac_text. destruct (_ =? 0); rewrite !is_ascii_app, !Hd; done.
Qed.

(** ** Files that are read *)

Lemma fs_pure_safe_bytes p maximum : fs_pure (safe_bytes p maximum).
Proof. unfold safe_bytes. fs_pure_tac. Qed.
#[export] Hint Resolve fs_pure_safe_bytes : cloudx.
Lemma fs_pure_safe_sha256 p : fs_pure (safe_sha256 p).
Proof. unfold safe_sha256. fs_pure_tac. Qed.
Lemma fs_pure_json_file p maximum : fs_pure (json_file p maximum).
Proof. unfold json_file. fs_pure_tac. Qed.
Lemma fs_pure_regular_files root suffix : fs_pure (regular_files root suffix).
Proof.
  unfold regular_files. apply fs_pure_bind; [fs_pure_tac|]. intros info. destruct (_ || _); [done|].
  apply fs_pure_bind; [fs_pure_tac|]. intros names. apply fs_pure_mfold. intros s name. unfold regular_step. fs_pure_tac.
Qed.
#[export] Hint Resolve fs_pure_safe_sha256 fs_pure_json_file fs_pure_regular_files : cloudx.
Lemma fs_pure_has_digest p d : fs_pure (has_digest p d).
Proof. unfold has_digest. fs_pure_tac. Qed.
Lemma fs_pure_archive_count root : fs_pure (archive_count root).
Proof. unfold archive_count. fs_pure_tac. Qed.
Lemma fs_pure_digests l : fs_pure (digests l).
Proof. unfold digests. fs_pure_tac. Qed.
Lemma fs_pure_output_json raw : fs_pure (output_json raw).
Proof. unfold output_json. fs_pure_tac. Qed.
#[export] Hint Resolve fs_pure_has_digest fs_pure_archive_count fs_pure_digests fs_pure_output_json : cloudx.
Lemma fs_pure_rejected {A} c : fs_pure (@rejected A c).
Proof. done. Qed.
Lemma fs_pure_rejected_in {A} t c : fs_pure (@rejected_in A t c).
Proof. done. Qed.
#[export] Hint Resolve fs_pure_rejected fs_pure_rejected_in : cloudx.

(** What was read is in the file. *)
Lemma wp_safe_bytes p maximum E f k (Φ : res string → world → Prop) :
  (∀ raw k, data_at f p = Some raw → Φ (Ok raw) (World f k)) → (∀ e k, Φ (Raise e) (World f k)) →
  wp (safe_bytes p maximum) E (World f k) Φ.
Proof.
  intros Ho Hr. unfold safe_bytes, open_nofollow. apply wp_bind, wp_try, wp_bind, wp_sys.
  2: { intros e k1 He. unfold except. cbn [existsb]. unfold os_exn in He. rewrite He. apply wp_throw, Hr. }
  intros k1. apply wp_bind, wp_get_fs.
  destruct (f !! p) as [[d m|m|t|]|] eqn:Hp; try (apply wp_throw; unfold except; apply wp_throw, Hr); apply wp_ret;
    unfold fstat; apply wp_bind, wp_bind, wp_sys; try (intros; apply Hr); intros k2; apply wp_ret; cbn [is_reg negb orb];
    try (apply wp_throw, Hr).
  destruct (maximum <? _); [apply wp_throw, Hr|]. unfold read_node. apply wp_bind, wp_bind, wp_sys; [|intros; apply Hr].
  intros k3. apply wp_ret. destruct (_ || _); [apply wp_throw, Hr|]. apply wp_ret, Ho. unfold data_at. by rewrite Hp.
Qed.
Lemma wp_safe_sha256 p E f k (Φ : res string → world → Prop) :
  (∀ raw k, data_at f p = Some raw → Φ (Ok (sha256 raw)) (World f k)) → (∀ e k, Φ (Raise e) (World f k)) →
  wp (safe_sha256 p) E (World f k) Φ.
Proof.
  intros Ho Hr. apply wp_bind, wp_safe_bytes; [|intros; apply Hr]. intros raw k1 H. by apply wp_ret, Ho.
Qed.
Lemma wp_json_file p maximum E f k (Φ : res dict → world → Prop) :
  (∀ raw d k, data_at f p = Some raw → loads_bytes raw = Ok (JDict d) → Φ (Ok d) (World f k)) →
  (∀ e k, Φ (Raise e) (World f k)) → wp (json_file p maximum) E (World f k) Φ.
Proof.
  intros Ho Hr. unfold json_file. apply wp_bind, wp_try, wp_bind, wp_safe_bytes.
  2: { intros e k1. destruct (except _ _ e) as [c|] eqn:He; [|apply Hr]. unfold except in He.
       destruct (existsb _ _); [|done]. injection He as <-. apply wp_throw, Hr. }
  intros raw k1 Hraw. apply wp_lift. destruct (loads_bytes raw) as [v|e] eqn:Hl.
  - destruct v; try (apply wp_throw, Hr). by eapply wp_ret, Ho.
  - destruct (except _ _ e) as [c|] eqn:He; [|apply Hr]. unfold except in He.
    destruct (existsb _ _); [|done]. injection He as <-. apply wp_throw, Hr.
Qed.
(** [has_digest] is true of a file with that digest only. *)
Lemma wp_has_digest p d E f k (Φ : res bool → world → Prop) :
  (∀ raw k, data_at f p = Some raw → py_eq (JStr (sha256 raw)) d = true → Φ (Ok true) (World f k)) →
  (∀ k, Φ (Ok false) (World f k)) → (∀ e k, Φ (Raise e) (World f k)) →
  wp (has_digest p d) E (World f k) Φ.
Proof.
  intros Ht Hf Hr. unfold has_digest. apply wp_bind, wp_exists; [|intros; apply Hr]. intros k1.
  destruct (opt_is _ _); [|by apply wp_ret, Hf]. apply wp_bind, wp_safe_sha256; [|intros; apply Hr].
  intros raw k2 Hraw. apply wp_ret. destruct (py_eq _ d) eqn:Hd; [by eapply Ht|apply Hf].
Qed.

(** ** Writing *)

Lemma fill_bytes_fills raw mode owner : fills (fill_bytes raw mode owner) raw.
Proof.
  intros t E f k Φ Ht Ho Hr. destruct (f !! t) as [[d m|m|q|]|] eqn:Hft; try (by unfold data_at in Ht; rewrite Hft in Ht).
  unfold fill_bytes. apply wp_bind. eapply wp_outcome; [by eapply write_file_outcome| |intros; apply Hr; [done|apply same_refl]].
  intros k1. cbn [w_fs]. set (f1 := <[t := File raw m]> f).
  assert (H1 : same_data (only t) f f1) by (intros q Hq; by apply data_at_insert_ne).
  assert (Hd1 : data_at f1 t = Some raw) by apply data_at_insert.
  apply wp_bind, wp_sys; [intros k2|intros; by apply Hr]. apply wp_bind, wp_chmod; [|intros; by apply Hr].
  intros g k3 Hg. assert (H2 : same_data (only t) f g) by (eapply same_trans; [exact H1|by apply same_none]).
  assert (Hd2 : data_at g t = Some raw) by (rewrite (same_at _ _ t Hg); exact Hd1).
  destruct owner; [|by apply wp_ret, Ho]. apply wp_sys; intros; [by apply Ho|by apply Hr].
Qed.

Lemma spares_atomic_bytes (S : path → Prop) p raw mode owner : ¬ S p → spares S (atomic_bytes p raw mode owner).
Proof. intros Hp. eapply spares_staged_write; [apply fill_bytes_fills|done]. Qed.

(** ** Other programs *)

(** They lose none of the files [S]. *)
Record leaves (S : path → Prop) (X : host) : Prop := Leaves {
  l_spawn : ∀ argv env, spares S (spawn X argv env);
  l_gateway : ∀ method p headers body, spares S (gateway X method p headers body);
  l_pause : ∀ z, spares S (pause X z);
  l_monotonic : spares S (monotonic X);
  l_account : ∀ user, spares S (account_ids X user);
  l_owner : ∀ p, spares S (file_owner X p);
  l_hex : ∀ n, spares S (token_hex X n);
  l_urlsafe : ∀ n, spares S (token_urlsafe X n) }.

Section others.
Context (S : path → Prop) (X : host) (HX : leaves S X).

Lemma spares_run argv env check : spares S (run X argv env check).
Proof using HX. pose proof (l_spawn S X HX). unfold run. moves_tac. Qed.
#[local] Hint Resolve spares_run : moves.
Lemma spares_service name : spares S (service_state X name).
Proof using HX. unfold service_state, service_count, service_field. moves_tac. Qed.
Lemma spares_signed arguments : spares S (signed_health X arguments).
Proof using HX. unfold signed_health. moves_tac. Qed.
Lemma spares_request method p body : spares S (request X method p body).
Proof using HX. pose proof (l_gateway S X HX). unfold request, client_credential. moves_tac. Qed.
#[local] Hint Resolve spares_request : moves.
Lemma spares_models : spares S (gateway_models X).
Proof using HX. unfold gateway_models. moves_tac. Qed.
Lemma spares_live_canary : spares S (live_canary X).
Proof using HX.
  pose proof (l_pause S X HX). unfold live_canary. apply moves_bind; [apply spares_models|]. intros models.
  generalize 0 at 1. induction (firstn 8 models) as [|m l IH]; intros z; cbn [canary_models]; [moves_tac|].
  apply moves_bind; [|intros [[d|] a]; [moves_tac|apply IH]].
  generalize 3%nat. intros n. revert z. induction n as [|n IHn]; intros z; cbn [canary_tries]; [moves_tac|].
  apply moves_bind; [apply spares_request|]. intros [[status headers] raw].
  destruct (_ && _); [moves_tac|]. destruct (_ && _); [|moves_tac]. by apply moves_bind.
Qed.
End others.
#[export] Hint Resolve spares_run spares_service spares_signed spares_request spares_models spares_live_canary : moves.

(** ** The held credential *)

(** A file name: one part of a path. *)
Definition plain_name (s : string) : Prop := starts_with "/" s = false ∧ path_parts s = [s].
Lemma join_plain d s : plain_name s → path_join d s = child d s.
Proof. intros [H1 H2]. unfold path_join, child. by rewrite H1, H2. Qed.

Definition transaction_dir (id : string) : path := child TRANSACTION_ROOT id.
Definition pool_file (name : string) : path := child AUTH_DIR name.
Definition held_file (id name : string) : path := under (transaction_dir id) ["hold"; "active"; name].
(** The files that other programs must leave: the credential, where it is held, the manifest. *)
Definition guarded (id name : string) (p : path) : Prop :=
  p = pool_file name ∨ p = held_file id name ∨ p = manifest_path (transaction_dir id).

(** A path that is none of the three, by its parts. *)
Ltac apart := intros [HE|[HE|HE]]; apply (f_equal snd) in HE; vm_compute in HE; first [discriminate HE|congruence].

(** What the script wrote into the manifest. *)
Record good_manifest (name digest : string) (d : dict) : Prop := GoodManifest {
  g_plain : plain (JDict d) = true;
  g_name : dget "activeName" d = JStr name;
  g_digest : dget "activeDigest" d = JStr digest;
  g_canaries : ∃ c, dget "canaries" d = JDict c ∧ ∀ k, In k (dkeys c) → plain_name k ∧ k ≠ name;
  g_sweep : ∃ s, dget "sweep" d = JDict s ∧ ∀ k, In k (dkeys s) → plain_name k }.

Lemma dget_dset_ne k k' v d : k ≠ k' → dget k (dset k' v d) = dget k d.
Proof. intros H. unfold dget. by rewrite dlookup_dset_ne. Qed.
Lemma good_dset name digest k v d :
  k ∉ ["activeName"; "activeDigest"; "canaries"; "sweep"]%string → is_ascii k = true → plain v = true →
  good_manifest name digest d → good_manifest name digest (dset k v d).
Proof.
  intros Hk Ha Hv [Hp Hn Hd Hc Hs]. rewrite !not_elem_of_cons in Hk. destruct Hk as (? & ? & ? & ? & _).
  split; [by apply plain_dset|..]; by rewrite dget_dset_ne.
Qed.
Lemma good_back name digest d d' :
  reorder true (JDict d) = JDict d' → read_as d d' → plain (JDict d') = true →
  good_manifest name digest d → good_manifest name digest d'.
Proof.
  intros Hr Has Hp [_ Hn Hd (c & Hc & Hck) (s & Hs & Hsk)]. split; [done|..]; rewrite ?Has, ?Hn, ?Hd; try done.
  - rewrite Hc. eexists. split; [reflexivity|]. intros k Hk. apply Hck, (proj1 (reorder_keys c _ eq_refl k)), Hk.
  - rewrite Hs. eexists. split; [reflexivity|]. intros k Hk. apply Hsk, (proj1 (reorder_keys s _ eq_refl k)), Hk.
Qed.

Section credential.
Context (X : host) (id name digest : string) (Hname : plain_name name).
Context (HX : leaves (guarded id name) X).
Abbreviation T := (transaction_dir id).
Abbreviation G := (guarded id name).

Definition holds (f : fs) (p : path) : Prop := ∃ raw, data_at f p = Some raw ∧ sha256 raw = digest.
Definition recorded (f : fs) (d : dict) : Prop :=
  ∃ text, data_at f (manifest_path T) = Some text ∧ loads_bytes text = Ok (JDict d) ∧ good_manifest name digest d.
Definition is_recovered (d : dict) : bool := eq_str (dget "phase" d) "recovered".
(** The credential is in the pool, or held and not yet declared to be back. *)
Definition kept (f : fs) : Prop :=
  ∃ d, recorded f d ∧ (holds f (pool_file name) ∨ (holds f (held_file id name) ∧ is_recovered d = false)).
Definition home (f : fs) : Prop := (∃ d, recorded f d) ∧ holds f (pool_file name).
Definition prepared (f : fs) : Prop := ∃ d, recorded f d ∧ is_recovered d = false ∧ holds f (pool_file name).

Lemma home_kept f : home f → kept f.
Proof. intros [[d Hd] H]. exists d. auto. Qed.
Lemma prepared_home f : prepared f → home f.
Proof. intros (d & Hd & _ & H). split; [by exists d|done]. Qed.
Lemma recorded_eq f d text d' : recorded f d → data_at f (manifest_path T) = Some text → loads_bytes text = Ok (JDict d') → d' = d.
Proof. intros (t & Ht & Hl & _) Hd Hl'. rewrite Ht in Hd. injection Hd as ->. rewrite Hl in Hl'. by injection Hl'. Qed.

Lemma holds_keeps f g p : G p → keeps (λ p, ¬ G p) f g → holds f p → holds g p.
Proof. intros Hp Hk (raw & Hr & Hd). exists raw. split; [|done]. apply Hk; [tauto|done]. Qed.
Lemma recorded_keeps f g d : keeps (λ p, ¬ G p) f g → recorded f d → recorded g d.
Proof. intros Hk (t & Ht & H). exists t. split; [|done]. apply Hk; [|done]. intros Hn. apply Hn. right. by right. Qed.

Definition stable (P : fs → Prop) : Prop := ∀ f g, keeps (λ p, ¬ G p) f g → P f → P g.
Lemma kept_stable : stable kept.
Proof.
  intros f g Hk (d & Hd & H). exists d. split; [by eapply recorded_keeps|].
  destruct H as [H|[H Hp]]; [left|right; split; [|done]]; eapply holds_keeps; try done; [by left|by right; left].
Qed.
Lemma home_stable : stable home.
Proof.
  intros f g Hk [[d Hd] H]. split; [exists d; by eapply recorded_keeps|]. eapply holds_keeps; [by left|done..].
Qed.
Lemma prepared_stable : stable prepared.
Proof.
  intros f g Hk (d & Hd & Hp & H). exists d. split; [by eapply recorded_keeps|]. split; [done|].
  eapply holds_keeps; [by left|done..].
Qed.
Lemma wp_spares {A} (m : M A) (P : fs → Prop) E f k (Φ : res A → world → Prop) :
  spares G m → stable P → P f → (∀ r g k, P g → Φ r (World g k)) → wp m E (World f k) Φ.
Proof.
  intros Hm HP Hf H. specialize (Hm E (World f k)). unfold wp. destruct (m E (World f k)) as [r [g k']].
  apply H. eapply HP; [exact Hm|done].
Qed.

Lemma text_field_is d key s E w : dget key d = JStr s → text_field d key E w = (Ok s, w).
Proof. unfold dget, text_field, ditem. destruct (dlookup key d) as [v|]; [|done]. intros Hv. simpl in Hv. by subst v. Qed.
Lemma wp_text_field d key s E f k (Φ : res string → world → Prop) :
  dget key d = JStr s → Φ (Ok s) (World f k) → wp (text_field d key) E (World f k) Φ.
Proof. intros Hs H. unfold wp. by rewrite (text_field_is _ _ _ E (World f k) Hs). Qed.
Lemma ditem_dict d key c : dget key d = JDict c → ditem d key = Ok (JDict c).
Proof. unfold dget, ditem. destruct (dlookup key d) as [v|]; [|done]. intros Hv. simpl in Hv. by subst v. Qed.

(** Writing the manifest: the credential stays where it is. *)
Lemma wp_record_manifest d E f k (Φ : res unit → world → Prop) :
  good_manifest name digest d → kept f → (is_recovered d = true → holds f (pool_file name)) →
  (∀ r g k, kept g → (holds f (pool_file name) → holds g (pool_file name)) → Φ r (World g k)) →
  wp (atomic_json (manifest_path T) d) E (World f k) Φ.
Proof.
  intros Hgood Hkept Hback H.
  assert (Hmove : ∀ g p, keeps (only (manifest_path T)) f g → p ≠ manifest_path T → holds f p → holds g p).
  { intros g p Hk Hp (raw & Hr & Hd). exists raw. split; [|done]. by apply Hk. }
  assert (Hpool : pool_file name ≠ manifest_path T) by (intros HE; apply (f_equal snd) in HE; discriminate HE).
  assert (Hheld : held_file id name ≠ manifest_path T) by (intros HE; apply (f_equal snd) in HE; vm_compute in HE; congruence).
  destruct Hkept as (d0 & Hd0 & Hwhere).
  assert (Hold : ∀ g, keeps (only (manifest_path T)) f g → data_at g (manifest_path T) = data_at f (manifest_path T) → kept g).
  { intros g Hk Hsame. exists d0. split.
    - destruct Hd0 as (t & Ht & Hrest). exists t. by rewrite Hsame.
    - destruct Hwhere as [?|[? ?]]; [left|right; split; [|done]]; by eapply Hmove. }
  assert (Hnew : ∀ g, keeps (only (manifest_path T)) f g → data_at g (manifest_path T) = Some (json_file_text d) → kept g).
  { intros g Hk Htext. destruct (json_text_back d (g_plain _ _ _ Hgood)) as (d' & Hl & Hr & Has & Hp).
    exists d'. split.
    - eexists. split; [exact Htext|]. split; [exact Hl|]. by eapply good_back.
    - assert (is_recovered d' = is_recovered d) as Hph.
      { unfold is_recovered. rewrite Has. by destruct (dget "phase" d). }
      destruct Hwhere as [Hw|[Hw _]]; [left; by eapply Hmove|]. rewrite Hph. destruct (is_recovered d) eqn:Hr'.
      + left. eapply Hmove; [done..|]. by apply Hback.
      + right. split; [by eapply Hmove|done]. }
  eapply wp_staged_write; [apply fill_bytes_fills|..].
  - intros g k' Hk _ Hd. apply H; [by apply Hnew|]. intros Hh. by eapply Hmove.
  - intros e g k' _ Hk _ Hd. apply H; [|intros Hh; by eapply Hmove]. destruct Hd; [by apply Hold|by apply Hnew].
Qed.

(** ** The steps *)

Lemma pool_apart k : k ≠ name → ¬ G (child AUTH_DIR k).
Proof.
  intros Hk [HE|[HE|HE]]; [by apply child_eq in HE as [_ ?]|..]; apply (f_equal snd) in HE; vm_compute in HE; discriminate HE.
Qed.
Lemma failure_apart k : ¬ G (child FAILURE_DIR k).
Proof. apart. Qed.
Lemma sweep_apart k : ¬ G (child SWEEP_DIR k).
Proof. apart. Qed.
Lemma evidence_apart k : ¬ G (evidence T k).
Proof. apart. Qed.
Lemma receipt_apart : ¬ G (receipt_path T).
Proof. apart. Qed.
Lemma held_sweep_apart k : plain_name k → ¬ G (held_sweep T k).
Proof. intros Hk. unfold held_sweep. rewrite join_plain by done. apart. Qed.
Lemma held_active_eq : held_active T name = held_file id name.
Proof using Hname. unfold held_active. by rewrite join_plain. Qed.
Lemma pool_eq : path_join AUTH_DIR name = pool_file name.
Proof using Hname. by rewrite join_plain. Qed.
Lemma below_apart l p : l ∈ ["staged"; "isolated"]%string → G p → inside p (under T [l]) = false.
Proof.
  intros Hl Hp. destruct (inside p (under T [l])) eqn:Hi; [|done]. exfalso. apply inside_spec in Hi as [r ->].
  rewrite !elem_of_cons in Hl. revert Hp. destruct Hl as [->|[->|Hl]]; [apart|apart|by apply elem_of_nil in Hl].
Qed.

(** The entries of a directory. *)
Lemma wp_regular_files root suffix E f k (Φ : res (list path) → world → Prop) :
  (∀ l k, (∀ p, In p l → ∃ n, p = child root n) → Φ (Ok l) (World f k)) → (∀ e k, Φ (Raise e) (World f k)) →
  wp (regular_files root suffix) E (World f k) Φ.
Proof.
  intros Ho Hr. unfold regular_files. apply wp_bind, wp_pure; [fs_pure_tac|]. intros [info|e] k1; [|apply Hr].
  destruct (_ || _); [apply wp_throw, Hr|]. apply wp_bind, wp_pure; [fs_pure_tac|]. intros [names|e] k2; [|apply Hr].
  apply (wp_mfold_pure _ (λ l, ∀ p, In p l → ∃ n, p = child root n)); [|done|done|apply Hr].
  intros s n k3 Ψ Hs Ho' Hr'. unfold regular_step. apply wp_bind, wp_is_file; [|apply Hr']. intros k4.
  apply wp_bind, wp_pure; [fs_pure_tac|]. intros [linked|e] k5; [|apply Hr']. apply wp_ret, Ho'.
  destruct (_ && _); [|done]. intros p [Hp|[<-|[]]]%in_app_or; [by apply Hs|by exists n].
Qed.

Lemma spares_put_canary uid gid c : plain_name c.1 → c.1 ≠ name → spares G (put_canary T uid gid c).
Proof.
  intros Hp Hne. unfold put_canary. rewrite join_plain by done.
  pose proof (spares_atomic_bytes G _ "" 384 (Some (uid, gid)) (pool_apart _ Hne)).
  assert (∀ raw, spares G (atomic_bytes (child AUTH_DIR c.1) raw 384 (Some (uid, gid)))) by
    (intros; by apply spares_atomic_bytes, pool_apart).
  moves_tac.
Qed.

(** Putting the exhausted credentials in place: the credential is held, or still in the pool. *)
Lemma wp_activate_limited E f k : prepared f → wp (activate_limited X T) E (World f k) (λ _ w, kept (w_fs w)).
Proof using Hname HX.
  intros Hprep. pose proof (home_kept _ (prepared_home _ Hprep)) as Hkept. pose proof Hprep as (d & Hd & Hph & raw & Hraw & Hdig).
  unfold activate_limited. apply wp_bind, wp_json_file; [|intros; exact Hkept]. intros text d' k1 Ht Hl.
  rewrite (recorded_eq _ _ _ _ Hd Ht Hl). destruct Hd as (t & Ht' & Hl' & Hgood).
  apply wp_bind, (wp_text_field _ _ name); [apply Hgood|]. rewrite pool_eq, held_active_eq.
  apply wp_bind, wp_pure; [fs_pure_tac|]. intros [dg|e] k2; [|exact Hkept].
  apply wp_bind, wp_lift. destruct (ditem d "activeDigest") as [expected|e]; [|exact Hkept].
  destruct (negb _); [exact Hkept|]. apply wp_bind, wp_pure; [fs_pure_tac|]. intros [files|e] k3; [|exact Hkept].
  apply wp_bind, wp_pure; [fs_pure_tac|]. intros [current|e] k4; [|exact Hkept].
  destruct (g_sweep _ _ _ Hgood) as (s & Hs & Hsk). rewrite (ditem_dict _ _ _ Hs). apply wp_bind, wp_lift.
  destruct (negb _); [exact Hkept|]. apply wp_bind, wp_replace_node; [|intros; exact Hkept]. intros n k5 Hn.
  set (f1 := <[held_file id name:=n]> (delete (pool_file name) f)).
  assert (Hk1 : kept f1).
  { exists d. split.
    - exists t. split; [|done]. unfold f1. rewrite data_at_insert_ne, data_at_delete_ne; [done|..]; intros HE;
        apply (f_equal snd) in HE; vm_compute in HE; congruence.
    - right. split; [|done]. exists raw. split; [|done]. unfold data_at in *. unfold f1. rewrite lookup_insert_eq. by rewrite Hn in Hraw. }
  apply wp_bind, wp_lift. apply wp_bind, (wp_spares _ kept); [|exact kept_stable|exact Hk1|].
  { apply moves_miter. intros a Ha. rewrite join_plain by auto. apply untouched_spares, untouched_replace; [apply sweep_apart|by apply held_sweep_apart, Hsk]. }
  intros [[]|e] f2 k6 Hk2; [|exact Hk2].
  apply wp_bind, wp_pure; [done|]. intros [uid|e] k7; [|exact Hk2].
  apply wp_bind, wp_pure; [done|]. intros [gid|e] k8; [|exact Hk2].
  destruct (g_canaries _ _ _ Hgood) as (c & Hc & Hck). rewrite (ditem_dict _ _ _ Hc). apply wp_bind, wp_lift. cbn [ditems].
  apply wp_bind, (wp_spares _ kept); [|exact kept_stable|exact Hk2|].
  { apply moves_miter. intros a Ha. assert (In a.1 (dkeys c)) as [? ?]%Hck by by apply in_map. by apply spares_put_canary. }
  intros [[]|e] f3 k9 Hk3; [|exact Hk3].
  apply wp_bind, wp_fsync_directory; [|intros; exact Hk3]. intros k10.
  apply wp_bind, wp_record_manifest; [|done|by unfold is_recovered; rewrite dget_dset|].
  { apply good_dset; [|done|done|done]. rewrite !not_elem_of_cons. repeat split; try discriminate. apply not_elem_of_nil. }
  intros [[]|e] f4 k11 Hk4 _; [|exact Hk4].
  apply (wp_spares _ kept); [apply (l_pause _ _ HX)|exact kept_stable|exact Hk4|]. by intros r g k12 ?.
Qed.

Lemma spares_restore_archived names : spares G (restore_archived X T names).
Proof using HX. unfold restore_archived. moves_tac. Qed.
Lemma spares_remove_canary k : plain_name k → k ≠ name → spares G (remove_canary T k).
Proof.
  intros Hk Hne. unfold remove_canary. rewrite join_plain by done.
  pose proof (untouched_unlink G _ (pool_apart _ Hne)). moves_tac.
Qed.
Lemma spares_collect_receipt names n : spares G (collect_receipt T names (child FAILURE_DIR n)).
Proof.
  unfold collect_receipt. pose proof (untouched_replace G _ _ (failure_apart n) (evidence_apart ("failure-" +:+ p_name (child FAILURE_DIR n)))).
  moves_tac.
Qed.
Lemma spares_collect_sweep b n : spares G (collect_sweep T b (child SWEEP_DIR n)).
Proof.
  unfold collect_sweep. pose proof (evidence_apart ("post-sweep-" +:+ p_name (child SWEEP_DIR n))) as He.
  pose proof (untouched_unlink_missing_ok G _ He). pose proof (untouched_replace G _ _ (sweep_apart n) He). moves_tac.
Qed.
Lemma spares_restore_sweep item : plain_name item.1 → spares G (restore_sweep T item).
Proof.
  intros Hk. unfold restore_sweep. rewrite join_plain by done. pose proof (held_sweep_apart _ Hk) as Hh.
  pose proof (untouched_unlink_missing_ok G _ Hh). pose proof (untouched_replace G _ _ Hh (sweep_apart item.1)). moves_tac.
Qed.

(** The credential goes back: without an exception it is in the pool, with one it is still kept. *)
Lemma py_eq_text s u : py_eq (JStr s) (JStr u) = true → s = u.
Proof. cbn [py_eq]. by intros H%String.eqb_eq. Qed.
Lemma wp_restore_active d E f k (Φ : res unit → world → Prop) :
  recorded f d → is_recovered d = false → kept f →
  (∀ g k, home g → Φ (Ok tt) (World g k)) → (∀ e g k, kept g → Φ (Raise e) (World g k)) →
  wp (restore_active T d name digest) E (World f k) Φ.
Proof using Hname HX.
  intros Hd Hph Hkept Ho Hr. unfold restore_active. rewrite pool_eq, held_active_eq.
  assert (Hne : pool_file name ≠ held_file id name) by (intros HE; apply (f_equal snd) in HE; vm_compute in HE; congruence).
  assert (Hm1 : manifest_path T ≠ held_file id name) by (intros HE; apply (f_equal snd) in HE; vm_compute in HE; congruence).
  assert (Hm2 : manifest_path T ≠ pool_file name) by (intros HE; apply (f_equal snd) in HE; vm_compute in HE; congruence).
  assert (Hrec : ∀ g, data_at g (manifest_path T) = data_at f (manifest_path T) → recorded g d).
  { intros g Hg. destruct Hd as (t & Ht & H). exists t. by rewrite Hg. }
  assert (Hhome : ∀ g, data_at g (manifest_path T) = data_at f (manifest_path T) → holds g (pool_file name) → home g).
  { intros g Hg Hh. split; [exists d; by apply Hrec|done]. }
  apply wp_bind, wp_has_digest; [| |intros; by apply Hr].
  { intros raw k1 Hraw Hdig%py_eq_text. assert (Hh : holds f (pool_file name)) by by exists raw.
    apply wp_unlink_missing_ok; [intros k2; apply Ho; by apply Hhome| |intros; by apply Hr].
    intros k2. apply Ho, Hhome; [by apply data_at_delete_ne|]. exists raw. by rewrite data_at_delete_ne. }
  intros k1. apply wp_bind, wp_has_digest; [|intros k2; apply wp_bind, wp_ret; cbn [negb]; by apply wp_throw, Hr|intros; by apply Hr].
  intros raw k2 Hraw Hdig%py_eq_text. apply wp_bind, wp_bind, wp_exists; [|intros; by apply Hr]. intros k3.
  apply wp_ret. destruct (negb _); [by apply wp_throw, Hr|].
  apply wp_bind, wp_replace_node; [|intros; by apply Hr]. intros n k4 Hn.
  set (g := <[pool_file name:=n]> (delete (held_file id name) f)).
  assert (Hg : home g).
  { apply Hhome.
    - unfold g. by rewrite data_at_insert_ne, data_at_delete_ne.
    - exists raw. split; [|done]. unfold data_at in *. unfold g. rewrite lookup_insert_eq. by rewrite Hn in Hraw. }
  apply (wp_spares _ home); [|exact home_stable|exact Hg|].
  - apply moves_bind; [apply untouched_spares, untouched_chmod|]. intros _. moves_tac.
  - intros [[]|e] h k5 Hh; [by apply Ho|by apply Hr, home_kept].
Qed.

Lemma wp_put_back d E f k (Φ : res string → world → Prop) :
  recorded f d → is_recovered d = false → kept f →
  (∀ g k, home g → Φ (Ok name) (World g k)) → (∀ e g k, kept g → Φ (Raise e) (World g k)) →
  wp (put_back X T d) E (World f k) Φ.
Proof using Hname HX.
  intros Hd Hph Hkept Ho Hr. pose proof Hd as (t & Ht & Hl & Hgood). unfold put_back.
  destruct (g_canaries _ _ _ Hgood) as (c & Hc & Hck). destruct (g_sweep _ _ _ Hgood) as (s & Hs & Hsk).
  assert (canary_names d = Ok (sort_by str_leb (dkeys c))) as ->.
  { unfold canary_names, dget_or. unfold dget in Hc. destruct (dlookup "canaries" d); [|done]. simpl in Hc. by subst. }
  rewrite Hs. cbn [dict_or_empty]. set (names := sort_by str_leb (dkeys c)).
  assert (Hnames : ∀ n, In n names → plain_name n ∧ n ≠ name) by (intros n Hn%sort_by_In; by apply Hck).
  (** What is left untouched by every step until the credential itself. *)
  set (P := λ g, recorded g d ∧ kept g).
  assert (HP : stable P) by (intros g h Hk [? ?]; split; [by eapply recorded_keeps|by eapply kept_stable]).
  apply wp_bind, wp_lift.
  apply wp_bind, (wp_spares _ P); [apply spares_restore_archived|done|done|]. intros [[]|e] f1 k1 [Hd1 Hk1]; [|by apply Hr].
  apply wp_bind, (wp_spares _ P); [|done|done|].
  { apply moves_miter. intros n Hn. apply spares_remove_canary; by apply Hnames. }
  intros [[]|e] f2 k2 [Hd2 Hk2]; [|by apply Hr].
  apply wp_bind, wp_regular_files; [|intros; by apply Hr]. intros receipts k3 Hreceipts.
  apply wp_bind, (wp_spares _ P); [|done|done|].
  { apply moves_miter. intros p Hp. destruct (Hreceipts p Hp) as [n ->]. apply spares_collect_receipt. }
  intros [[]|e] f3 k4 [Hd3 Hk3]; [|by apply Hr].
  apply wp_bind, wp_regular_files; [|intros; by apply Hr]. intros found k5 Hfound.
  apply wp_bind, (wp_spares _ P); [|done|done|].
  { apply moves_miter. intros p Hp. destruct (Hfound p Hp) as [n ->]. apply spares_collect_sweep. }
  intros [[]|e] f4 k6 [Hd4 Hk4]; [|by apply Hr].
  apply wp_bind, (wp_spares _ P); [|done|done|].
  { apply moves_miter. intros item Hin. apply spares_restore_sweep, Hsk. by apply in_map. }
  intros [[]|e] f5 k7 [Hd5 Hk5]; [|by apply Hr].
  apply wp_bind, (wp_text_field _ _ name); [apply Hgood|]. apply wp_bind, (wp_text_field _ _ digest); [apply Hgood|].
  apply wp_bind, wp_restore_active with (d := d); [done..| |intros; by apply Hr]. intros f6 k8 Hh6.
  apply wp_bind, wp_fsync_directory; [|intros; by apply Hr, home_kept]. intros k9.
  apply wp_bind, wp_fsync_directory; [|intros; by apply Hr, home_kept]. intros k10.
  apply wp_bind, (wp_spares _ home); [|exact home_stable|done|].
  { apply untouched_spares, untouched_rmtree_quiet. intros p Hp. apply below_apart; [set_solver|done]. }
  intros [[]|e] f7 k11 Hh7; [|by apply Hr, home_kept].
  apply wp_bind, (wp_spares _ home); [|exact home_stable|done|].
  { apply untouched_spares, untouched_rmtree_quiet. intros p Hp. apply below_apart; [set_solver|done]. }
  intros [[]|e] f8 k12 Hh8; [|by apply Hr, home_kept]. by apply wp_ret, Ho.
Qed.

Lemma fs_pure_acceptance_now : fs_pure iso_now.
Proof. unfold iso_now. fs_pure_tac. Qed.
#[local] Hint Resolve fs_pure_acceptance_now : cloudx.

Lemma spares_check_baseline d n : spares G (check_baseline X T d n).
Proof using HX. unfold check_baseline, int_field. moves_tac. Qed.
Lemma spares_already_recovered d : spares G (already_recovered X T d).
Proof using HX. unfold already_recovered, text_field, int_field. moves_tac. Qed.
Lemma spares_evidence n d : spares G (atomic_json (evidence T n) d).
Proof. apply spares_atomic_bytes, evidence_apart. Qed.
Lemma spares_receipt d : spares G (atomic_json (receipt_path T) d).
Proof. apply spares_atomic_bytes, receipt_apart. Qed.

(** A recovery that succeeds has the credential in the pool; one that fails still keeps it. *)
Lemma wp_recover_held E f k (Φ : res dict → world → Prop) :
  kept f → (∀ a g k, home g → Φ (Ok a) (World g k)) → (∀ e g k, kept g → Φ (Raise e) (World g k)) →
  wp (recover X T) E (World f k) Φ.
Proof using Hname HX.
  intros Hkept Ho Hr. pose proof Hkept as (d & Hd & Hwhere). unfold recover.
  apply wp_bind, wp_json_file; [|intros; by apply Hr]. intros text d' k1 Ht Hl. rewrite (recorded_eq _ _ _ _ Hd Ht Hl).
  fold (is_recovered d). destruct (is_recovered d) eqn:Hph.
  { assert (Hh : home f) by (split; [by exists d|by destruct Hwhere as [?|[_ ?]]]).
    apply (wp_spares _ home); [apply spares_already_recovered|exact home_stable|done|].
    intros [a|e] g k2 Hg; [by apply Ho|by apply Hr, home_kept]. }
  apply wp_bind, wp_put_back; [done..| |intros; by apply Hr]. intros f1 k2 Hh1.
  apply wp_bind, (wp_spares _ home); [apply (l_pause _ _ HX)|exact home_stable|done|]. intros [[]|e] f2 k3 Hh2; [|by apply Hr, home_kept].
  apply wp_bind, (wp_spares _ home); [by apply spares_live_canary|exact home_stable|done|]. intros [canary|e] f3 k4 Hh3; [|by apply Hr, home_kept].
  apply wp_bind, (wp_spares _ home); [apply spares_check_baseline|exact home_stable|done|]. intros [[]|e] f4 k5 Hh4; [|by apply Hr, home_kept].
  apply wp_bind. unfold iso_now at 1. apply wp_bind, wp_now, wp_ret.
  destruct Hd as (t & _ & _ & Hgood). apply wp_bind, wp_record_manifest; [|by apply home_kept|intros _; apply Hh4|].
  { repeat (apply good_dset; [rewrite !not_elem_of_cons; repeat split; first [discriminate|apply not_elem_of_nil]|done| |]); try done.
    apply iso_ascii. }
  intros r f5 k6 Hk5 Hmoved. destruct r as [[]|e]; [|by apply Hr].
  assert (Hh5 : home f5) by (split; [destruct Hk5 as (d5 & ? & _); by exists d5|by apply Hmoved, Hh4]).
  apply wp_bind, (wp_spares _ home); [apply spares_evidence|exact home_stable|done|]. intros [[]|e] f6 k7 Hh6; [|by apply Hr, home_kept].
  by apply wp_ret, Ho.
Qed.

Lemma spares_mkdir_private p : spares G (mkdir_private p).
Proof. unfold mkdir_private. moves_tac. Qed.
Lemma isolated_apart kind l : ¬ G (under T ("isolated" :: kind :: l)%string).
Proof. apart. Qed.
Lemma spares_sweep_credential c source : spares G (sweep_credential X c source).
Proof using HX. pose proof (l_hex _ _ HX). pose proof (l_urlsafe _ _ HX). unfold sweep_credential, synthetic_token. moves_tac. Qed.
Lemma spares_sweep_outcome c d auth archive credential digest' : spares G (sweep_outcome X c d auth archive credential digest').
Proof using HX. unfold sweep_outcome, restore_permanent. moves_tac. Qed.
Lemma spares_isolated_sweep kind source : spares G (isolated_sweep X T kind source).
Proof using HX.
  unfold isolated_sweep. pose proof spares_mkdir_private. pose proof spares_evidence. pose proof spares_sweep_credential.
  pose proof spares_sweep_outcome.
  assert (∀ raw, spares G (atomic_bytes (child (child (under T ["isolated"; kind]%string) "auth") (kind +:+ "-canary.json")) raw 384 None)).
  { intros raw. apply spares_atomic_bytes, (isolated_apart kind ["auth"; _]%string). }
  assert (spares G (write_trigger (child (child (under T ["isolated"; kind]%string) "sweep") "trigger.json"))).
  { unfold write_trigger. apply moves_bind; [by apply moves_pure, fs_pure_acceptance_now|]. intros now.
    apply spares_atomic_bytes, (isolated_apart kind ["sweep"; "trigger.json"]%string). }
  assert (spares G (rmtree (λ m, m) (under T ["isolated"; kind]%string))).
  { apply untouched_spares, untouched_rmtree. intros p Hp. destruct (inside p _) eqn:Hi; [|done]. apply inside_spec in Hi as [l ->].
    rewrite under_under in Hp. by destruct (isolated_apart kind l). }
  moves_tac.
Qed.

Lemma spares_await_sweep n d deadline result :
  (∀ state, spares G (result state)) → spares G (await_sweep X n T d deadline result).
Proof using HX.
  intros Hres. pose proof (l_monotonic _ _ HX). pose proof (l_pause _ _ HX).
  induction n as [|n IH]; cbn [await_sweep]; [moves_tac|]. moves_tac.
Qed.
Lemma spares_natural_aggregate : spares G (natural_aggregate X T).
Proof using HX.
  pose proof (l_monotonic _ _ HX). pose proof (l_pause _ _ HX). pose proof spares_evidence.
  unfold natural_aggregate. apply moves_bind; [moves_tac|]. intros d. apply moves_bind; [by apply spares_models|].
  intros [|m l]; [moves_tac|]. apply moves_bind; [done|]. intros started.
  generalize false, 0, (@nil Z). generalize 16%nat. intros n.
  induction n as [|n IH]; intros signal attempts statuses; cbn [aggregate_attempts]; [moves_tac|].
  apply moves_bind; [by apply spares_request|]. intros [[status headers] raw]. destruct (negb _); [moves_tac|].
  apply moves_bind; [done|]. intros now. apply moves_bind.
  - apply spares_await_sweep. intros state. unfold aggregate_result. moves_tac.
  - intros [x|]; [moves_tac|]. apply moves_bind; [done|]. intros _. apply IH.
Qed.
Lemma spares_idle_acceptance : spares G (idle_acceptance X T).
Proof using HX. unfold idle_acceptance. pose proof spares_evidence. moves_tac. Qed.

(** ** The whole transaction *)

Definition restored (r : res dict) (f : fs) : Prop :=
  match r with Ok _ => True | Raise e => exn_code e ≠ "recovery_incomplete" end → holds f (pool_file name).

Lemma wp_fail_acceptance {A} recovered e E f k :
  match recovered with Some _ => home f | None => kept f end →
  wp (@fail_acceptance X A T recovered e) E (World f k)
    (λ r w, kept (w_fs w) ∧ match r with Ok _ => False | Raise e' => exn_code e' ≠ "recovery_incomplete" → holds (w_fs w) (pool_file name) end).
Proof using Hname HX.
  intros Hf. unfold fail_acceptance.
  assert (Hend : ∀ d f k, home f → wp (
    let code := if bool_decide (exn_cls e = AcceptanceRejected) then exn_code e else "acceptance_failed"%string in
    atomic_json (receipt_path T) (failed_receipt T code d) ;; @rejected_in A T code) E (World f k)
    (λ r w, kept (w_fs w) ∧ match r with Ok _ => False | Raise e' => exn_code e' ≠ "recovery_incomplete" → holds (w_fs w) (pool_file name) end)).
  { intros d f1 k1 Hh. cbv zeta. apply wp_bind, (wp_spares _ home); [apply spares_receipt|exact home_stable|done|].
    intros [[]|e'] g k2 Hg; [apply wp_throw|]; (split; [by apply home_kept|]); intros _; apply Hg. }
  destruct recovered as [d|]; [apply wp_bind, wp_ret; by apply Hend|].
  apply wp_bind, wp_try, wp_recover_held; [done|intros d g k1 Hg; by apply Hend|].
  intros e' g k1 Hg. unfold except_all. apply wp_throw. by split.
Qed.

Lemma wp_before_recovery E f k (Φ : res (Z * dict * dict * dict) → world → Prop) :
  prepared f → (∀ r g k, kept g → Φ r (World g k)) → wp (before_recovery X T) E (World f k) Φ.
Proof using Hname HX.
  intros Hprep H. unfold before_recovery.
  assert (Hk : ∀ g, prepared g → kept g) by (intros g Hg; by apply home_kept, prepared_home).
  apply wp_bind, (wp_spares _ prepared); [apply moves_mmap; intros; apply spares_isolated_sweep|exact prepared_stable|done|].
  intros [checks|e] f1 k1 H1; [|by apply H, Hk]. apply wp_bind, wp_lift. destruct (map_res _ checks) as [limited|e]; [|by apply H, Hk].
  apply wp_bind, (wp_spares _ prepared); [apply spares_isolated_sweep|exact prepared_stable|done|]. intros [prov|e] f2 k2 H2; [|by apply H, Hk].
  apply wp_bind, (wp_spares _ prepared); [apply spares_isolated_sweep|exact prepared_stable|done|]. intros [perm|e] f3 k3 H3; [|by apply H, Hk].
  apply wp_bind. eapply wp_mono; [by apply wp_activate_limited|]. intros [[]|e] [f4 k4] H4; [|by apply H].
  apply wp_bind, (wp_spares _ kept); [apply spares_natural_aggregate|exact kept_stable|done|]. intros [agg|e] f5 k5 H5; [|by apply H].
  by apply wp_ret, H.
Qed.

Lemma wp_run_transaction service E f k :
  prepared f → wp (run_transaction X T service) E (World f k) (λ r w, kept (w_fs w) ∧ restored r (w_fs w)).
Proof using Hname HX.
  intros Hprep. unfold run_transaction.
  assert (Hfail : ∀ {B} (r : res B) w, (kept (w_fs w) ∧ match r with Ok _ => False | Raise e' => exn_code e' ≠ "recovery_incomplete" → holds (w_fs w) (pool_file name) end) →
    ∀ e, r = Raise e → kept (w_fs w) ∧ restored (Raise e) (w_fs w)) by (intros B r w [? ?] e ->; split; [done|intros ?; auto]).
  apply wp_bind, wp_try, wp_bind, wp_before_recovery; [done|]. intros [found|e] f1 k1 H1.
  2: { unfold except_all. eapply wp_mono; [by apply wp_fail_acceptance|]. intros [?|e'] w [? ?]; [done|]. by split. }
  apply wp_bind, wp_recover_held; [done| |].
  2: { intros e g k2 Hg. unfold except_all. eapply wp_mono; [by apply wp_fail_acceptance|]. intros [?|e'] w [? ?]; [done|]. by split. }
  intros recovered f2 k2 H2. apply wp_ret.
  assert (Hin : ∀ r g k, home g → match r with
     | Ok a => kept g ∧ restored (Ok a) g
     | Raise e => wp (fail_acceptance X T (Some recovered) e) E (World g k) (λ r w, kept (w_fs w) ∧ restored r (w_fs w)) end).
  { intros [a|e] g k3 Hg; [split; [by apply home_kept|intros _; apply Hg]|].
    eapply wp_mono; [by apply wp_fail_acceptance|]. intros [?|e'] w [? ?]; [done|]. by split. }
  apply wp_try. unfold after_recovery. destruct found as [[[limited prov] perm] agg]. unfold except_all.
  apply wp_bind, (wp_spares _ home); [apply spares_idle_acceptance|exact home_stable|done|]. intros [idle|e] f3 k3 H3; [|by apply (Hin (Raise e))].
  apply wp_bind, wp_lift. destruct (accepted_receipt _ _ _ _ _ _ _ _) as [receipt|e]; [|by apply (Hin (Raise e))].
  apply wp_bind, (wp_spares _ home); [apply spares_receipt|exact home_stable|done|]. intros [[]|e] f4 k4 H4; [|by apply (Hin (Raise e))].
  by apply wp_ret, (Hin (Ok receipt) f4 k4).
Qed.
End credential.

(** C6: from a prepared transaction on, whatever calls fail and whatever other programs do to
    other files, a file with the digest of the baseline credential is in the pool or held by the
    transaction; it is in the pool when the script ends with its receipt or with any failure
    but [recovery_incomplete].  After that failure too, as long as the three files are left
    alone, [--recover] never loses the credential, and has it in the pool when it succeeds. *)
Theorem acceptance_keeps_credential X id name digest service E f k r w' :
  plain_name name → leaves (guarded id name) X → prepared id name digest f →
  run_transaction X (transaction_dir id) service E (World f k) = (r, w') →
  (holds digest (w_fs w') (pool_file name) ∨ holds digest (w_fs w') (held_file id name)) ∧
  (match r with Ok _ => True | Raise e => exn_code e ≠ "recovery_incomplete" end → holds digest (w_fs w') (pool_file name)) ∧
  ∀ E2 g k2 r2 w2, keeps (λ p, ¬ guarded id name p) (w_fs w') g →
    recover X (transaction_dir id) E2 (World g k2) = (r2, w2) →
    (holds digest (w_fs w2) (pool_file name) ∨ holds digest (w_fs w2) (held_file id name)) ∧
    (is_ok r2 = true → holds digest (w_fs w2) (pool_file name)).
Proof.
  intros Hname HX Hprep Hrun. pose proof (wp_run_transaction X id name digest Hname HX service E f k Hprep) as H.
  unfold wp in H. rewrite Hrun in H. destruct H as [Hkept Hres].
  assert (Hwhere : ∀ g, kept id name digest g → holds digest g (pool_file name) ∨ holds digest g (held_file id name)).
  { intros g (d & _ & [?|[? _]]); auto. }
  split; [by apply Hwhere|]. split; [exact Hres|]. intros E2 g k2 r2 w2 Hk Hrec.
  pose proof (wp_recover_held X id name digest Hname HX E2 g k2
    (λ r w, kept id name digest (w_fs w) ∧ (is_ok r = true → holds digest (w_fs w) (pool_file name)))) as H.
  unfold wp in H. rewrite Hrec in H. destruct H as [H1 H2].
  - by eapply kept_stable.
  - intros a h k3 Hh. split; [by apply home_kept|]. intros _. apply Hh.
  - by intros e h k3 Hh.
  - split; [by apply Hwhere|exact H2].
Qed.

(** ** A transaction *)

(** A host whose service runs as process 7 and whose gateway answers as it should. *)
Definition sample_host : host :=
  Host (λ argv _, ret (Completed 0 (match argv with [_; _; _; _; "MainPID"; _] => "7" | [_; _; _; _; "NRestarts"; _] => "0"
                                    | [_; _; _; _; "ActiveState"; _] => "active" | _ => "running" end)%string ""))
    (λ method _ _ _, ret (200, [(CONCURRENCY_HEADER, "2"%string)],
       if method =s? "GET" then dumps (st_default false true) (JDict [("data", JList [JDict [("id", JStr "gpt-5.3-codex")]])])
       else dumps (st_default false true) (JDict [("output", JStr EXPECTED_TEXT)])))
    (λ _, ret tt) (ret 0) (λ _ _, FFin false 0 0) (λ _, ret (1, 1)) (λ _, ret (1, 1)) (λ _, ret "00") (λ _, ret "00")
    [] "python3" (path_of "/root/accept.py") true.
Definition sample_service : dict :=
  [("MainPID", JInt 7); ("NRestarts", JInt 0); ("ActiveState", JStr "active"); ("SubState", JStr "running")].
Definition sample_id : string := "20260719T000000Z-00".
Definition sample_manifest : dict :=
  transaction_manifest sample_id "2026-07-19T00:00:00+00:00"
    (Baseline sample_service "a.json" (sha256 "{}") [("last.json", JStr (sha256 "last"))] "" 1 [])
    [(canary_name 1, JStr (sha256 "one"))] 1 1 (sha256 "tool").
Definition sample_files : fs :=
  let dir s := (path_of s, Dir 448) in
  let file s d := (path_of s, File d 384) in
  let at_ s := ("/var/lib/codex-gateway/cpa-policy-acceptance/" +:+ sample_id +:+ s)%string in
  list_to_map
    [dir "/var"; dir "/var/lib"; dir "/var/lib/codex-gateway"; dir "/var/lib/codex-gateway/cliproxy-auth";
     dir "/var/lib/codex-gateway/cliproxy-auth-failures"; dir "/var/lib/codex-gateway/cliproxy-auth-sweeps";
     dir "/var/lib/codex-gateway/cliproxy-auth-archive"; dir "/var/lib/codex-gateway/cpa-policy-acceptance";
     dir (at_ ""); dir (at_ "/hold"); dir (at_ "/hold/active"); dir (at_ "/hold/sweep"); dir (at_ "/staged"); dir (at_ "/evidence");
     file "/var/lib/codex-gateway/cliproxy-auth/a.json" "{}"; file "/var/lib/codex-gateway/cliproxy-auth-sweeps/last.json" "last";
     file "/var/lib/codex-gateway/cliproxy-auth-archive/manifest.json" (dumps (st_default false true) (JDict [("entries", JList [JNull])]));
     file (at_ ("/staged/" +:+ canary_name 1)) "one"; file (at_ "/manifest.json") (json_file_text sample_manifest);
     file "/etc/cloudx/client-credential" "key"].
Definition calm : env := Env (λ _, false) (λ _, "x"%string) (λ _, 0) (λ _ _, FNan) (λ _ _, false) (λ _, 0).

Lemma sample_good : good_manifest "a.json" (sha256 "{}") sample_manifest.
Proof.
  split.
  - vm_compute. reflexivity.
  - reflexivity.
  - vm_compute. reflexivity.
  - eexists. split; [reflexivity|]. intros x [<-|[]]. split; [split; reflexivity|discriminate].
  - eexists. split; [reflexivity|]. intros x [<-|[]]. split; reflexivity.
Qed.
Lemma sample_prepared : prepared sample_id "a.json" (sha256 "{}") sample_files.
Proof.
  destruct (json_text_back sample_manifest) as (d & Hl & Hr & Has & Hp); [apply sample_good|].
  exists d. split; [|split].
  - exists (json_file_text sample_manifest). split; [vm_compute; reflexivity|]. split; [exact Hl|].
    eapply good_back; [exact Hr|exact Has|exact Hp|exact sample_good].
  - unfold is_recovered. rewrite Has. reflexivity.
  - exists "{}"%string. split; [vm_compute; reflexivity|reflexivity].
Qed.
Lemma sample_leaves S : leaves S sample_host.
Proof. split; intros; by apply moves_pure. Qed.

(** The credential is held while the exhausted one is in the pool, and comes back. *)
Example limited_then_recovered :
  let T := transaction_dir sample_id in
  let run := (activate_limited sample_host T ;; let! f := get_fs in let! d := recover sample_host T in ret (f, dget "activeRestored" d))
    calm (World sample_files 0) in
  let show f := map (data_at f) [pool_file "a.json"; held_file sample_id "a.json"; pool_file (canary_name 1); child SWEEP_DIR "last.json"] in
  match run with
  | (Ok (f, done), w) => (show f, show (w_fs w), done)
  | _ => ([], [], JNull)
  end = ([None; Some "{}"; Some "one"; None], [Some "{}"; None; None; Some "last"], JBool true)%string.
Proof. vm_compute. reflexivity. Qed.

Lemma acceptance_keeps_credential_witness :
  prepared sample_id "a.json" (sha256 "{}") sample_files ∧
  let w' := (run_transaction sample_host (transaction_dir sample_id) sample_service calm (World sample_files 0)).2 in
  holds (sha256 "{}") (w_fs w') (pool_file "a.json") ∨ holds (sha256 "{}") (w_fs w') (held_file sample_id "a.json").
Proof.
  split; [exact sample_prepared|]. cbv zeta.
  destruct (run_transaction sample_host (transaction_dir sample_id) sample_service calm (World sample_files 0)) as [r w'] eqn:Hrun.
  destruct (acceptance_keeps_credential sample_host sample_id "a.json" (sha256 "{}") sample_service calm sample_files 0 r w'
    ltac:(split; reflexivity) (sample_leaves _) sample_prepared Hrun) as [H _]. exact H.
Defined.
