(* ===== verification/PolicyInstallSafety.v ===== *)
(** * The activation of the policy build on the cloud host is undone as a whole

    Whatever calls fail and whatever the service answers, each of the three files that select
    the build holds its old bytes or the new ones; an activation that succeeds leaves the three
    new ones, one that fails leaves the three old ones, unless its message says that the
    restoration could not be verified.  Other programs leave the three files alone. *)

From S2P Require Import Prelude PyStr PyFloat PyValue PyRe PyTime PyJson PyBase64 PySha FS Wp FileData.
From S2P Require Import CpaRecords CpaAuth ApiFailure LocalConfig LocalSettings Releases Trees Ops PolicyInstall.

(** ** What is read *)

Lemma fs_pure_safe_snapshot p maximum required : fs_pure (safe_snapshot p maximum required).
Proof. unfold safe_snapshot, refused. fs_pure_tac. Qed.
#[export] Hint Resolve fs_pure_safe_snapshot : cloudx.
Lemma fs_pure_refused {A} msg : fs_pure (@refused A msg).
Proof. done. Qed.
#[export] Hint Resolve fs_pure_refused : cloudx.
Lemma fs_pure_top_level_config p : fs_pure (top_level_config p).
Proof. unfold top_level_config. fs_pure_tac. Qed.
Lemma fs_pure_check_empty p : fs_pure (check_empty p).
Proof. unfold check_empty. fs_pure_tac. Qed.
Lemma fs_pure_service_name v : fs_pure (service_name v).
Proof. done. Qed.
Lemma fs_pure_missing_directories v : fs_pure (missing_directories v).
Proof. unfold missing_directories. apply fs_pure_bind; [|done]. apply fs_pure_mmap. intros p. fs_pure_tac. Qed.
Lemma fs_pure_check_baseline_binary v msg : fs_pure (check_baseline_binary v msg).
Proof. unfold check_baseline_binary. fs_pure_tac. Qed.
#[export] Hint Resolve fs_pure_top_level_config fs_pure_check_empty fs_pure_service_name fs_pure_missing_directories
  fs_pure_check_baseline_binary : cloudx.

(** A call that fails is never one on a missing file. *)
Lemma wp_sys_plain E f k (Φ : res unit → world → Prop) :
  (∀ k, Φ (Ok tt) (World f k)) → (∀ k, Φ (Raise (Exn OSError "" "system call failed")) (World f k)) →
  wp sys E (World f k) Φ.
Proof. unfold wp, sys. intros Ho Hr. simpl. destruct (fault E k); [apply Hr|apply Ho]. Qed.

(** A file that was unlinked, or was missing, is gone. *)
Lemma wp_unlink_gone p E f k (Φ : res unit → world → Prop) :
  (∀ k, data_at f p = None → Φ (Ok tt) (World f k)) → (∀ k, Φ (Ok tt) (World (delete p f) k)) →
  (∀ e k, os_exn e → Φ (Raise e) (World f k)) → wp (unlink_missing_ok p) E (World f k) Φ.
Proof.
  intros H1 H2 Hr. unfold unlink_missing_ok, unlink. apply wp_bind, wp_get_fs.
  destruct (f !! p) as [n|] eqn:Hp.
  - apply wp_bind, wp_sys; [intros k1|intros; by apply Hr]. apply wp_bind, wp_get_fs. rewrite Hp.
    destruct n; try (unfold wp, put_fs; simpl; apply H2). by apply wp_throw, Hr.
  - apply wp_sys; [intros; by apply H1, data_at_fresh|intros; by apply Hr].
Qed.

(** What a snapshot says of the file: its bytes, or that there are none. *)
Definition snapshot_data (s : snapshot) : option string := if sn_existed s then Some (sn_data s) else None.
Lemma wp_safe_snapshot p maximum required E f k (Φ : res snapshot → world → Prop) :
  (∀ s k, data_at f p = snapshot_data s → Φ (Ok s) (World f k)) → (∀ e k, Φ (Raise e) (World f k)) →
  wp (safe_snapshot p maximum required) E (World f k) Φ.
Proof.
  intros Ho Hr. unfold safe_snapshot, open_nofollow. apply wp_bind, wp_try, wp_bind, wp_bind, wp_sys_plain.
  2: { intros k1. cbn. apply wp_throw, Hr. }
  intros k1. apply wp_bind, wp_get_fs.
  destruct (f !! p) as [[d m|m|t|]|] eqn:Hp; try (apply wp_throw; cbn; apply wp_throw, Hr).
  4: { apply wp_throw. cbn. destruct required; [apply wp_throw, Hr|]. apply wp_ret, wp_ret, Ho. by apply data_at_fresh. }
  all: apply wp_ret, wp_ret; unfold fstat; apply wp_bind, wp_bind, wp_sys; try (intros; apply Hr); intros k2;
    apply wp_ret; cbn [is_reg negb orb]; try (apply wp_throw, Hr).
  destruct (maximum <? _); [apply wp_throw, Hr|]. unfold read_node. apply wp_bind, wp_bind, wp_sys; [|intros; apply Hr].
  intros k3. apply wp_ret. destruct (maximum <? _); [apply wp_throw, Hr|]. apply wp_ret, Ho.
  unfold data_at. by rewrite Hp.
Qed.

(** ** What is written *)

Lemma fill_owned_fills raw mode : fills (fill_owned raw mode) raw.
Proof.
  intros t E f k Φ Ht Ho Hr. unfold fill_owned, chown. apply wp_bind, wp_chmod; [|intros; apply Hr; [done|apply same_refl]].
  intros g k1 Hg. apply wp_bind, wp_sys; [intros k2|intros; apply Hr; [done|by apply same_none]].
  rewrite <- (same_at _ _ t Hg) in Ht.
  destruct (g !! t) as [[d m|m|q|]|] eqn:Hgt; try (by unfold data_at in Ht; rewrite Hgt in Ht).
  apply wp_bind. eapply wp_outcome; [by eapply write_file_outcome| |intros; apply Hr; [done|by apply same_none]].
  intros k3. cbn [w_fs]. set (g1 := <[t := File raw m]> g).
  assert (H1 : same_data (only t) f g1).
  { intros q Hq. unfold g1. rewrite data_at_insert_ne by done. by apply (same_none (only t) _ _ Hg). }
  assert (Hd : data_at g1 t = Some raw) by apply data_at_insert.
  unfold fsync. apply wp_bind, wp_sys; [intros k4|intros; by apply Hr]. apply wp_sys; intros; [by apply Ho|by apply Hr].
Qed.

Section writes.
Context (S : path → Prop) (HS : ∀ p, S p → visible p).
Lemma untouched_write_owned p raw mode : ¬ S p → untouched S (write_owned p raw mode).
Proof using HS. intros Hp. eapply untouched_staged_write; [apply fill_owned_fills|done..]. Qed.
Lemma untouched_rmdir p : untouched S (rmdir p).
Proof using.
  apply moves_wp. intros E f k. unfold rmdir. apply wp_bind, wp_sys; [intros k1|intros; apply same_refl].
  apply wp_bind, wp_get_fs. destruct (f !! p) as [[d m|m|t|]|] eqn:Hp; try (apply wp_throw, same_refl).
  destruct (occupied f p); [apply wp_throw, same_refl|]. unfold wp, put_fs. cbn [fst snd w_fs]. intros q _.
  destruct (decide (q = p)) as [->|Hne]; [|by apply data_at_delete_ne]. unfold data_at. by rewrite lookup_delete_eq, Hp.
Qed.
#[local] Hint Resolve untouched_rmdir : moves.
Lemma untouched_ensure_directory p mode : untouched S (ensure_directory p mode).
Proof using. unfold ensure_directory, chown. moves_tac. Qed.
#[local] Hint Resolve untouched_ensure_directory : moves.
Lemma untouched_remove_empty p : untouched S (remove_empty p).
Proof using.
  unfold remove_empty. apply moves_bind; [|intros b; moves_tac]. apply moves_try; [moves_tac|]. intros e c He.
  destruct (catches _ _); [injection He as <-; moves_tac|]. refine (moves_except _ _ _ _ _ _ He). intros. moves_tac.
Qed.
#[local] Hint Resolve untouched_remove_empty : moves.
Lemma untouched_remove_created l : untouched S (remove_created_empty_directories l).
Proof using. unfold remove_created_empty_directories. moves_tac. Qed.
Lemma untouched_backup (X : machine) root name l :
  untouched S (m_time_ns X) → (∀ p, S p → inside p root = false) → untouched S (backup_snapshot X root name l).
Proof using HS.
  intros Hns Hroot.
  assert (Hbelow : ∀ a b, ¬ S (child (child root a) b)).
  { intros a b H. apply Hroot in H. by rewrite (inside_trans _ _ _ (inside_child _ _) (inside_child _ _)) in H. }
  unfold backup_snapshot. moves_tac; by apply untouched_write_owned.
Qed.
End writes.
#[export] Hint Resolve untouched_ensure_directory untouched_remove_created : moves.

(** ** Other programs *)

(** They lose, change or create none of the files [S]. *)
Record quiet (S : path → Prop) (X : machine) : Prop := Quiet {
  q_spawn : ∀ argv env cwd, untouched S (m_spawn X argv env cwd);
  q_http : ∀ host port method p headers body, untouched S (m_http X host port method p headers body);
  q_pause : ∀ z, untouched S (m_pause X z);
  q_monotonic : untouched S (m_monotonic X);
  q_time_ns : untouched S (m_time_ns X);
  q_account : ∀ user, untouched S (m_account X user) }.

Section others.
Context (S : path → Prop) (X : machine) (HX : quiet S X).

Lemma untouched_exchange host port method p headers body : untouched S (exchange X host port method p headers body).
Proof using HX. pose proof (q_http S X HX). unfold exchange. moves_tac. Qed.
Lemma untouched_run argv check : untouched S (run_command X argv check).
Proof using HX. pose proof (q_spawn S X HX). unfold run_command. moves_tac. Qed.
#[local] Hint Resolve untouched_exchange untouched_run : moves.
Lemma untouched_pause z : untouched S (m_pause X z).
Proof using HX. apply q_pause, HX. Qed.
Lemma untouched_account user : untouched S (m_account X user).
Proof using HX. apply q_account, HX. Qed.
Lemma untouched_monotonic : untouched S (m_monotonic X).
Proof using HX. apply q_monotonic, HX. Qed.
#[local] Hint Resolve untouched_pause untouched_monotonic : moves.
Lemma untouched_probe_health config required : untouched S (probe_health X config required).
Proof using HX.
  unfold probe_health. apply moves_bind; [moves_tac|]. intros [host port]. apply moves_bind; [moves_tac|]. intros now.
  generalize false. induction READY_TURNS as [|n IH]; intros saw; cbn [health_turns]; moves_tac.
Qed.
#[local] Hint Resolve untouched_probe_health : moves.
Lemma untouched_probe_policy config : untouched S (probe_policy X config).
Proof using HX.
  unfold probe_policy. apply moves_bind; [moves_tac|]. intros _. apply moves_bind; [moves_tac|]. intros [host port].
  apply moves_bind; [moves_tac|]. intros now. induction READY_TURNS as [|n IH]; cbn [policy_turns]; moves_tac.
Qed.
Lemma untouched_wait_active name : untouched S (wait_systemd_active X name).
Proof using HX.
  unfold wait_systemd_active. apply moves_bind; [moves_tac|]. intros now.
  induction WAIT_ACTIVE_TURNS as [|n IH]; cbn [await_active]; moves_tac.
Qed.
Lemma untouched_require_active v : untouched S (require_active_cloudx X v).
Proof using HX. unfold require_active_cloudx. moves_tac. Qed.
Lemma untouched_verify_candidate p v : untouched S (verify_candidate X p v).
Proof using HX. unfold verify_candidate. moves_tac. Qed.
End others.
#[export] Hint Resolve untouched_account untouched_exchange untouched_run untouched_probe_health untouched_probe_policy
  untouched_wait_active untouched_require_active untouched_verify_candidate : moves.

(** ** The three files *)

Definition selected (v : target) : list path := [tg_path v "gatewayDropIn"; tg_path v "healthDropIn"; tg_path v "capabilityManifest"].
Definition selects (v : target) (p : path) : Prop := p ∈ selected v.
(** The bytes that an activation gives them. *)
Definition new_data (v : target) : list (path * string) :=
  zip (selected v) [gateway_drop_in v; health_drop_in v; capability_manifest_text v].

Section cloud.
Context (X : machine) (v : target) (f0 : fs).
Abbreviation S := (selects v).
Context (HX : quiet S X) (Hdistinct : NoDup (selected v)) (Hvisible : ∀ p, S p → visible p)
  (Hbackup : ∀ p, S p → inside p (tg_path v "backupRoot") = false).

Definition old (p : path) : option string := data_at f0 p.
Definition new (p : path) : option string :=
  match List.find (λ e, bool_decide (fst e = p)) (new_data v) with Some (_, raw) => Some raw | None => None end.
(** Every one of the files holds its old or its new bytes. *)
Definition mixed (g : fs) : Prop := ∀ p, S p → data_at g p = old p ∨ data_at g p = new p.
(** It is [want]ed in the files [l] already. *)
Definition turned (want : path → option string) (l : list path) (g : fs) : Prop :=
  mixed g ∧ ∀ p, p ∈ l → data_at g p = want p.
Abbreviation kin := (same_data (λ p, ¬ S p)).

Lemma turned_same want l f g : l ⊆ selected v → kin f g → turned want l f → turned want l g.
Proof using.
  intros Hl Hs [Hm Hw]. split.
  - intros p Hp. rewrite Hs by tauto. by apply Hm.
  - intros p Hp. rewrite Hs by (intros H; by apply H, Hl). by apply Hw.
Qed.
Lemma wp_untouched {A} want l (m : M A) E f k (Φ : res A → world → Prop) :
  untouched S m → l ⊆ selected v → turned want l f → (∀ r g k, turned want l g → Φ r (World g k)) → wp m E (World f k) Φ.
Proof using.
  intros Hm Hl Hf H. specialize (Hm E (World f k)). unfold wp. destruct (m E (World f k)) as [r [g k']].
  apply H. by apply (turned_same _ _ f).
Qed.

Lemma wp_put p raw mode E f k want l (Φ : res unit → world → Prop) :
  want = old ∨ want = new → S p → want p = Some raw → l ⊆ selected v → turned want l f →
  (∀ g k, turned want (p :: l) g → Φ (Ok tt) (World g k)) →
  (∀ e g k, mixed g → Φ (Raise e) (World g k)) →
  wp (write_owned p raw mode) E (World f k) Φ.
Proof using Hvisible.
  intros Hwant Hp Hraw Hl [Hm Hw] Ho Hr.
  assert (Hmix : ∀ g, same_data (written p) f g → data_at g p = data_at f p ∨ data_at g p = Some raw → mixed g).
  { intros g Hs Hd q Hq. destruct (decide (q = p)) as [->|Hne].
    - destruct Hd as [->| ->]; [by apply Hm|]. rewrite <- Hraw. destruct Hwant as [->| ->]; auto.
    - rewrite Hs; [by apply Hm|]. intros Hwr. by apply Hne, written_visible; [apply Hvisible|]. }
  eapply wp_staged_write; [apply fill_owned_fills|..].
  - intros g k' _ Hs Hd. apply Ho. split; [by apply Hmix; auto|]. intros q [->|Hq]%elem_of_cons; [by rewrite Hraw|].
    destruct (decide (q = p)) as [->|Hne]; [by rewrite Hraw|]. rewrite Hs; [by apply Hw|].
    intros Hwr. by apply Hne, written_visible; [apply Hvisible, Hl|].
  - intros e g k' _ _ Hs Hd. apply Hr. by apply Hmix.
Qed.
Lemma wp_restore_snapshot p s E f k l (Φ : res unit → world → Prop) :
  S p → old p = snapshot_data s → l ⊆ selected v → turned old l f →
  (∀ g k, turned old (p :: l) g → Φ (Ok tt) (World g k)) →
  (∀ e g k, mixed g → Φ (Raise e) (World g k)) →
  wp (restore_snapshot p s) E (World f k) Φ.
Proof using Hvisible.
  intros Hp Hs Hl Hf Ho Hr. unfold restore_snapshot. unfold snapshot_data in Hs. destruct (sn_existed s).
  { apply (wp_put _ _ _ _ _ _ old l); auto. }
  assert (Hgone : ∀ g, kin f g ∨ (∀ q, q ≠ p → data_at g q = data_at f q) → data_at g p = None → turned old (p :: l) g).
  { intros g Hsame Hnone. destruct Hf as [Hm Hw].
    assert (Hq : ∀ q, S q → q ≠ p → data_at g q = data_at f q).
    { intros q HSq Hne. destruct Hsame as [H|H]; [by apply H; tauto|by apply H]. }
    split.
    - intros q HSq. destruct (decide (q = p)) as [->|Hne]; [left; by rewrite Hs|]. rewrite Hq by done. by apply Hm.
    - intros q [->|Hin]%elem_of_cons; [by rewrite Hs|]. destruct (decide (q = p)) as [->|Hne]; [by rewrite Hs|].
      rewrite Hq; [by apply Hw|by apply Hl|done]. }
  assert (Hrest : ∀ g k, turned old (p :: l) g →
    wp (let! present := is_dir_p (p_parent p) in if present then fsync_directory (p_parent p) else ret tt) E (World g k) Φ).
  { intros g k' Hg. eapply (wp_untouched old (p :: l)); [moves_tac| |done|].
    - intros q [->|Hq]%elem_of_cons; [done|by apply Hl].
    - intros [[]|e] h k2 Hh; [by apply Ho|by apply Hr, Hh]. }
  apply wp_bind, wp_unlink_gone.
  - intros k1 Hnone. apply Hrest, Hgone; [by left; apply same_refl|]. done.
  - intros k1. apply Hrest, Hgone; [right; intros; by apply data_at_delete_ne|]. unfold data_at. by rewrite lookup_delete_eq.
  - intros e k1 _. apply Hr, Hf.
Qed.

Abbreviation gateway := (tg_path v "gatewayDropIn").
Abbreviation health := (tg_path v "healthDropIn").
Abbreviation capability := (tg_path v "capabilityManifest").
Lemma selected_three : S gateway ∧ S health ∧ S capability.
Proof using. unfold selects, selected. rewrite !elem_of_cons. naive_solver. Qed.
Lemma new_is p raw : (p, raw) ∈ new_data v → new p = Some raw.
Proof using Hdistinct.
  clear HX Hvisible Hbackup. unfold new, new_data, selected in *. apply NoDup_cons in Hdistinct as [H1 H2]. apply NoDup_cons in H2 as [H2 _].
  cbn [zip zip_with]. intros H. repeat apply elem_of_cons in H as [H|H]; [..|by apply elem_of_nil in H];
    injection H as -> ->; cbn [List.find fst]; repeat case_bool_decide; try done; set_solver.
Qed.
Lemma turned_all want l g : selected v ⊆ l → turned want l g → turned want (selected v) g.
Proof using. intros Hl [Hm Hw]. split; [done|]. intros p Hp. by apply Hw, Hl. Qed.
Lemma turned_nil want g : mixed g → turned want [] g.
Proof using. intros Hm. split; [done|]. intros p H. by apply elem_of_nil in H. Qed.

(** A list of some of the three; a step that leaves them alone. *)
Ltac among := unfold selected; clear; set_solver.
Ltac aside := lazymatch goal with |- wp _ _ _ _ => eapply wp_untouched; [moves_tac| |eassumption|]; [among|] end.

Lemma wp_switch_cloud E f k (Φ : res (Z * Z * string) → world → Prop) :
  mixed f → (∀ a g k, turned new (selected v) g → Φ (Ok a) (World g k)) → (∀ e g k, mixed g → Φ (Raise e) (World g k)) →
  wp (switch_cloud X v) E (World f k) Φ.
Proof using HX Hdistinct Hvisible.
  intros Hf Ho Hr. pose proof selected_three as (HG & HH & HC).
  assert (Hnew : new gateway = Some (gateway_drop_in v) ∧ new health = Some (health_drop_in v) ∧
    new capability = Some (capability_manifest_text v)).
  { repeat split; apply new_is; unfold new_data; unfold selected; cbn [zip zip_with]; clear; set_solver. }
  destruct Hnew as (NG & NH & NC). unfold switch_cloud.
  apply wp_bind. apply (wp_put _ _ _ _ _ _ new []); [by right|done|done|among|by apply turned_nil| |done]. intros g1 k1 H1.
  apply wp_bind. apply (wp_put _ _ _ _ _ _ new [gateway]); [by right|done|done|among|done| |done]. intros g2 k2 H2.
  apply wp_bind. aside. intros [?|e] g3 k3 H3; [|by apply Hr, H3].
  apply wp_bind. aside. intros [service|e] g4 k4 H4; [|by apply Hr, H4].
  apply wp_bind. aside. intros [?|e] g5 k5 H5; [|by apply Hr, H5].
  apply wp_bind. aside. intros [pid|e] g6 k6 H6; [|by apply Hr, H6].
  apply wp_bind. aside. intros [shown|e] g7 k7 H7; [|by apply Hr, H7].
  destruct (negb _); [by apply wp_throw, Hr, H7|].
  apply wp_bind. aside. intros [[status policy]|e] g8 k8 H8; [|by apply Hr, H8].
  apply wp_bind. aside. intros [?|e] g9 k9 H9; [|by apply Hr, H9].
  apply wp_bind. aside. intros [?|e] g10 k10 H10; [|by apply Hr, H10].
  apply wp_bind. apply (wp_put _ _ _ _ _ _ new [health; gateway]); [by right|done|done|among|done| |done]. intros g11 k11 H11.
  apply wp_ret, Ho. eapply turned_all; [|exact H11]. among.
Qed.

Lemma wp_restore_cloud before created E f k (Φ : res unit → world → Prop) :
  old gateway = snapshot_data (di_gateway before) → old health = snapshot_data (di_health before) →
  old capability = snapshot_data (di_capability before) → mixed f →
  (∀ g k, turned old (selected v) g → Φ (Ok tt) (World g k)) → (∀ e g k, mixed g → Φ (Raise e) (World g k)) →
  wp (restore_cloud X v before created) E (World f k) Φ.
Proof using HX Hvisible.
  intros OG OH OC Hf Ho Hr. pose proof selected_three as (HG & HH & HC). unfold restore_cloud.
  apply wp_bind. apply (wp_restore_snapshot _ _ _ _ _ []); [done|done|among|by apply turned_nil| |done]. intros g1 k1 H1.
  apply wp_bind. apply (wp_restore_snapshot _ _ _ _ _ [gateway]); [done|done|among|done| |done]. intros g2 k2 H2.
  apply wp_bind. apply (wp_restore_snapshot _ _ _ _ _ [health; gateway]); [done|done|among|done| |done]. intros g3 k3 H3.
  apply wp_bind. aside. intros [?|e] g4 k4 H4; [|by apply Hr, H4].
  apply wp_bind. aside. intros [service|e] g5 k5 H5; [|by apply Hr, H5].
  apply wp_bind. aside. intros [?|e] g6 k6 H6; [|by apply Hr, H6].
  apply wp_bind. aside. intros [?|e] g7 k7 H7; [|by apply Hr, H7].
  apply wp_bind. aside. intros [?|e] g8 k8 H8; [|by apply Hr, H8].
  aside. intros [[]|e] g9 k9 H9; [|by apply Hr, H9].
  apply Ho. eapply turned_all; [|exact H9]. among.
Qed.

(** How an activation may end. *)
Definition ended {A} (r : res A) (g : fs) : Prop :=
  mixed g ∧ match r with
            | Ok _ => turned new (selected v) g
            | Raise e => exn_msg e = CLOUD_NOT_RESTORED ∨ turned old (selected v) g
            end.
Lemma ended_early {A} e g : turned old (selected v) g → @ended A (Raise e) g.
Proof using. intros H. split; [apply H|by right]. Qed.

Lemma wp_cloud_transaction before created E f k :
  old gateway = snapshot_data (di_gateway before) → old health = snapshot_data (di_health before) →
  old capability = snapshot_data (di_capability before) → mixed f →
  wp (try_with (switch_cloud X v) (except_all (λ _, roll_back_cloud X v before created))) E (World f k)
    (λ r w, ended r (w_fs w)).
Proof using HX Hdistinct Hvisible.
  intros OG OH OC Hf. apply wp_try, wp_switch_cloud; [done|intros a g k1 H; split; [apply H|done]|].
  intros e g k1 Hm. cbn [except_all]. unfold roll_back_cloud. apply wp_bind, wp_try.
  apply wp_restore_cloud; auto.
  - intros g2 k2 H. by apply wp_throw, ended_early.
  - intros e2 g2 k2 H. unfold except_all. apply wp_throw. split; [done|by left].
Qed.

Lemma same_snapshot_new p s raw g : turned old (selected v) g → S p → old p = snapshot_data s →
  same_snapshot s raw = true → data_at g p = Some raw.
Proof using.
  intros [_ Hw] Hp Hs [He Hd]%andb_true_iff. rewrite (Hw p Hp), Hs. unfold snapshot_data. rewrite He.
  by destruct (eqs_spec (sn_data s) raw) as [->|_].
Qed.

Lemma wp_activate_cloud E f k : turned old (selected v) f → wp (activate_cloud X v) E (World f k) (λ r w, ended r (w_fs w)).
Proof using HX Hdistinct Hvisible Hbackup.
  intros Hf. pose proof selected_three as (HG & HH & HC). unfold activate_cloud.
  destruct (_ || _); [by apply wp_throw, ended_early|].
  apply wp_bind. aside. intros [?|e] g1 k1 H1; [|by apply ended_early].
  apply wp_bind. aside. intros [?|e] g2 k2 H2; [|by apply ended_early].
  apply wp_bind. aside. intros [?|e] g3 k3 H3; [|by apply ended_early].
  assert (Hread : ∀ p s, S p → data_at g3 p = snapshot_data s → old p = snapshot_data s).
  { intros p s Hp <-. symmetry. by apply H3. }
  apply wp_bind. unfold read_drop_ins. apply wp_bind, wp_safe_snapshot; [|intros; by apply ended_early].
  intros sg k4 Dg. apply wp_bind, wp_safe_snapshot; [|intros; by apply ended_early].
  intros sh k5 Dh. apply wp_bind, wp_safe_snapshot; [|intros; by apply ended_early].
  intros sc k6 Dc. apply wp_ret. apply Hread in Dg, Dh, Dc; [|done..]. cbn [di_gateway di_health di_capability].
  destruct (_ && _) eqn:Hsame.
  { apply andb_true_iff in Hsame as [[Sg Sh]%andb_true_iff Sc].
    assert (Hn : ∀ g, turned old (selected v) g → turned new (selected v) g).
    { intros g Hg. split; [apply Hg|]. intros p Hp. unfold selected in Hp.
      rewrite !elem_of_cons in Hp. destruct Hp as [->|[->|[->|[]%elem_of_nil]]];
        (erewrite same_snapshot_new by done; symmetry; apply new_is; unfold new_data; unfold selected; cbn [zip zip_with]; clear; set_solver). }
    apply wp_bind. aside. intros [service|e] g4 k7 H4; [|by apply ended_early].
    apply wp_bind. aside. intros [pid|e] g5 k8 H5; [|by apply ended_early].
    apply wp_bind. aside. intros [[status policy]|e] g6 k9 H6; [|by apply ended_early].
    apply wp_bind. aside. intros [?|e] g7 k10 H7; [|by apply ended_early].
    apply wp_ret. split; [apply H7|by apply Hn]. }
  apply wp_bind. aside. intros [?|e] g4 k7 H4; [|by apply ended_early].
  apply wp_bind. aside. intros [created|e] g5 k8 H5; [|by apply ended_early].
  apply wp_bind. aside. intros [?|e] g6 k9 H6; [|by apply ended_early].
  apply wp_bind. aside. intros [?|e] g7 k10 H7; [|by apply ended_early].
  apply wp_bind. eapply wp_untouched; [apply untouched_backup; [done|apply q_time_ns, HX|done]|done|exact H7|].
  intros [backup|e] g8 k11 H8; [|by apply ended_early].
  apply wp_bind. eapply wp_mono; [apply wp_cloud_transaction; try done; apply H8|].
  intros [[[pid status] policy]|e] [g9 k12] H9; [|exact H9]. apply wp_ret. exact H9.
Qed.
End cloud.

(** ** The contract *)

(** C7: activate_cloud, whatever calls fail and whatever the programs it starts and the service
    answer, as long as they leave the three selecting files alone: each of the gateway's drop-in,
    the health check's drop-in and the capability manifest holds its old bytes (or is still
    missing) or the new ones.  An activation that returns leaves all three new; one that raises
    leaves all three old, unless its message is the one that says that the baseline could not be
    verified. *)
Theorem cloud_activation_undone X v E f k r w' :
  quiet (selects v) X → NoDup (selected v) →
  (∀ p, selects v p → visible p ∧ inside p (tg_path v "backupRoot") = false) →
  activate_cloud X v E (World f k) = (r, w') →
  (∀ p raw, (p, raw) ∈ new_data v → data_at (w_fs w') p = data_at f p ∨ data_at (w_fs w') p = Some raw) ∧
  match r with
  | Ok _ => ∀ p raw, (p, raw) ∈ new_data v → data_at (w_fs w') p = Some raw
  | Raise e => exn_msg e = CLOUD_NOT_RESTORED ∨ ∀ p, selects v p → data_at (w_fs w') p = data_at f p
  end.
Proof.
  intros HX Hd Hp Hrun.
  assert (Hf : turned v f (old f) (selected v) f) by (split; [intros p _; by left|done]).
  assert (Hin : ∀ p raw, (p, raw) ∈ new_data v → selects v p) by (intros p raw H; by eapply elem_of_zip_l).
  pose proof (wp_activate_cloud X v f HX Hd (λ p H, proj1 (Hp p H)) (λ p H, proj2 (Hp p H)) E f k Hf) as [Hm Hr].
  rewrite Hrun in Hm, Hr. cbn [fst snd] in Hm, Hr. split.
  - intros p raw H. destruct (Hm p (Hin _ _ H)) as [->|Hn]; [by left|right]. by rewrite Hn, (new_is v Hd p raw).
  - destruct r as [d|e].
    + intros p raw H. rewrite (proj2 Hr p (Hin _ _ H)). by apply new_is.
    + destruct Hr as [Hr|[_ Hr]]; [by left|right; exact Hr].
Qed.

(** ** An activation that the service does not live up to *)

Definition sample_candidate : string := "candidate".
Definition sample_contract : dict :=
  [("schema", JStr "cloudx.cliproxy-policy-deployment.v1");
   ("targets", JDict [("local", JDict []); ("cloud", JDict
     [("version", JStr "1.0"); ("candidateSha256", JStr (sha256 sample_candidate)); ("baselineSha256", JStr (sha256 "baseline"));
      ("candidateSize", JInt 9); ("requiredActiveCloudxVersion", JStr "0.1.0"); ("service", JStr "cliproxy.service");
      ("capabilities", JList [JStr "auth-sweep"]); ("baselineBinary", JStr "/opt/cpa/bin"); ("stageRoot", JStr "/opt/cpa/staged");
      ("backupRoot", JStr "/var/backup"); ("authDirectory", JStr "/var/auth"); ("failureDirectory", JStr "/var/failures");
      ("sweepDirectory", JStr "/var/sweeps"); ("config", JStr "/etc/cpa.yaml"); ("capabilityManifest", JStr "/etc/cloudx.json");
      ("gatewayDropIn", JStr "/etc/gateway.conf"); ("healthDropIn", JStr "/etc/health.conf")])])].
Definition sample_target : target :=
  match expanded_target (path_of "/root") "cloud" sample_contract with Ok v => v | Raise _ => Target "" [] "" [] [] (false, []) end.
(** [capabilities] is what the running service names. *)
Definition sample_machine (capabilities : string) : machine :=
  let done text := ret (Completed 0 text "") in
  Machine (λ argv _ _,
    if mem "self-check" argv then done (dumps (st_default false true)
      (JDict [("schema", JStr "cloudx.self-check.v1"); ("status", JStr "ok"); ("version", JStr "0.1.0")]))
    else if mem "-h" argv then done "CLIProxyAPI Version: 1.0, built"
    else if mem "ExecStart" argv then done "ExecStart=/opt/cpa/staged/1.0/cli-proxy-api"
    else if mem "show" argv then done ("ActiveState=active" +:+ LF +:+ "SubState=running" +:+ LF +:+ "MainPID=7")
    else done "")%string
  (λ _ _ method _ _ _,
     if method =s? "GET" then ret (200, [(CAPABILITY_HEADER, capabilities)], dumps (st_default false true) (JDict [("status", JStr "ok")]))
     else ret (401, [("X-CPA-Max-Concurrent-API-Requests", "2")], ""))%string
  (λ _, sys) (sys ;; λ E w, (Ok (1000 * Z.of_nat (w_tick w)), w)) (ret 5) (λ _, ret tt) (λ _, ret true)
  (λ _, Ok []) (λ _, ""%string) [] "python3" "linux" 0 (path_of "/root") (path_of "/tmp").
Definition sample_disk : fs :=
  let dir s := (path_of s, Dir 493) in
  let file s d := (path_of s, File d 420) in
  list_to_map
    [dir "/etc"; dir "/opt"; dir "/opt/cloudx"; dir "/opt/cloudx/current"; dir "/opt/cpa"; dir "/opt/cpa/staged";
     dir "/opt/cpa/staged/1.0"; dir "/var"; file "/opt/cloudx/current/cloudx-cloud.pyz" "artifact"; file "/opt/cpa/bin" "baseline";
     file "/opt/cpa/staged/1.0/cli-proxy-api" sample_candidate; file "/etc/gateway.conf" "old gateway";
     file "/etc/cpa.yaml" ("host: 0.0.0.0" +:+ LF +:+ "port: 8317" +:+ LF)].
Definition faultless : env := Env (λ _, false) (λ _, "x"%string) (λ _, 0) (λ _ _, FNan) (λ _ _, false) (λ _, 0).
Definition sample_run (capabilities : string) : res dict * world :=
  activate_cloud (sample_machine capabilities) sample_target faultless (World sample_disk 0).

(** The service that names the capability is activated; the one that does not is put back. *)
Example activated :
  let '(r, w) := sample_run "auth-sweep" in
  (match r with Ok d => dget "status" d | Raise e => JStr (exn_msg e) end, map (data_at (w_fs w)) (selected sample_target)) =
  (JStr "active", map (λ e, Some (snd e)) (new_data sample_target)).
Proof. vm_compute. reflexivity. Qed.
Example rolled_back :
  let '(r, w) := sample_run "" in
  (match r with Ok d => dget "status" d | Raise e => JStr (exn_msg e) end, map (data_at (w_fs w)) (selected sample_target)) =
  (JStr CLOUD_ROLLED_BACK, [Some "old gateway"%string; None; None]).
Proof. vm_compute. reflexivity. Qed.

Lemma sample_quiet S capabilities : quiet S (sample_machine capabilities).
Proof.
  split; intros; apply moves_pure; cbn; repeat (destruct (mem _ _); [done|]); repeat (destruct (_ =s? _); [done|]);
    try done; fs_pure_tac.
Qed.

Lemma cloud_activation_undone_witness :
  map (data_at (w_fs (sample_run "").2)) (selected sample_target) = map (data_at sample_disk) (selected sample_target).
Proof.
  destruct (cloud_activation_undone (sample_machine "") sample_target faultless sample_disk 0 (sample_run "").1 (sample_run "").2) as [_ H].
  - apply sample_quiet.
  - apply (bool_decide_unpack _). vm_compute. exact I.
  - intros p Hp. apply list_elem_of_In in Hp. destruct Hp as [<-|[<-|[<-|[]]]]; split; vm_compute; reflexivity.
  - apply surjective_pairing.
  - assert (Hr : ∃ e, (sample_run "").1 = Raise e ∧ exn_msg e = CLOUD_ROLLED_BACK).
    { eexists. split; vm_compute; reflexivity. }
    destruct Hr as (e & He & Hm). rewrite He in H. destruct H as [H|H].
    + rewrite Hm in H. discriminate H.
    + apply map_ext_in. intros p Hp. apply H, list_elem_of_In, Hp.
Defined.
