(* ===== verification/ActiveImport.v ===== *)
(** * Importing one credential on the live host ([scripts/import_active_cloud_cpa_credential.py])

    The signed importer of the cloud helper adds one credential to the pool, the gateway answers
    a request with it, and the credential is moved away again when something is not as it should
    be.  [site] is what the script finds on the host: programs, the gateway, users, the owner of
    a file.  A command that runs out of time raises [OSError], and so does a failed exchange
    with the gateway ([HTTPException]); the script handles them alike.  The result that an
    [ActiveImportRejected] may carry follows its message after a NUL character. *)

From S2P Require Import Prelude PyStr PyFloat PyValue PyRe PyTime PyJson PyBase64 PySha FS CpaRecords CpaAuth.
From S2P Require Import ApiFailure LocalConfig Releases Trees ShellHook Ops.

Definition IMPORT_VERSION : string := "0.1.18".
Definition IMPORT_CONFIRMATION : string := "IMPORT ONE ACTIVE CLOUD CPA CREDENTIAL 0.1.18".
Definition IMPORT_PLAN_SCHEMA : string := "cloudx.active-cpa-import-plan.v1".
Definition IMPORT_SCHEMA : string := "cloudx.active-cpa-import.v1".
Definition MAX_INPUT_BYTES : Z := 16 * 1024 * 1024.
Definition MAX_RESPONSE_BYTES : Z := 2 * 1024 * 1024.
Definition AUTH_DIR : path := path_of "/var/lib/codex-gateway/cliproxy-auth".
Definition ARCHIVE_DIR : path := path_of "/var/lib/codex-gateway/cliproxy-auth-archive".
Definition FAILURE_DIR : path := path_of "/var/lib/codex-gateway/cliproxy-auth-failures".
Definition SWEEP_DIR : path := path_of "/var/lib/codex-gateway/cliproxy-auth-sweeps".
Definition IMPORT_ROOT : path := path_of "/var/lib/codex-gateway/active-import-transactions".
Definition IMPORT_LOCK : path := child AUTH_DIR ".cloudx-import.lock".
Definition ACTIVE_ARTIFACT : path := path_of "/opt/cloudx/current/cloudx-cloud.pyz".
Definition CLIENT_CREDENTIAL : path := path_of "/etc/cloudx/client-credential".
Definition CPA_SERVICE : string := "cliproxy.service".
Definition FAILURE_PATH : string := "cloudx-cpa-failure.path".
Definition SWEEP_PATH : string := "cloudx-cpa-sweep.path".
Definition USABLE_TEXT : string := "CLOUDX_CLOUD_CPA_USABLE_OK".
Definition MODEL_PRIORITY : list string :=
  ["gpt-5.3-codex"; "gpt-5.2-codex"; "gpt-5.1-codex-max"; "gpt-5.1-codex"; "gpt-5-codex"].

Record account := Account { pw_name : string; pw_uid : Z; pw_gid : Z }.
Record site := Site {
  s_spawn : list string → option string → M completed;      (* argv, input *)
  s_http : string → Z → string → string → list (string * string) → option string → M (Z * list (string * string) * string);
  s_pause : Z → M unit;                  (* [time.sleep], in milliseconds *)
  s_account : string → M account;        (* [pwd.getpwnam] *)
  s_owner : path → M (Z * Z);
  s_hex : nat → M string;                (* [secrets.token_hex] *)
  s_link : string → M path;              (* [os.readlink] below [/proc] *)
  s_compile : string → M unit;           (* [compile] of a Python text *)
  s_tools : path * path * path;          (* the files of the three scripts *)
  s_python : string;
  s_pid : Z;                             (* [os.getpid()] *)
  s_linux_root : bool }.

(** ** Rejections *)

Definition NUL : string := String (ascii_of_nat 0) "".
Definition rejection (code message : string) (result : option dict) : exn :=
  Exn ActiveImportRejected code
    (match result with Some d => message +:+ NUL +:+ dumps (st_default false true) (JDict d) | None => message end).
Definition rejects {A} (code message : string) : M A := throw (rejection code message None).
Definition rejects_with {A} (code message : string) (result : dict) : M A := throw (rejection code message (Some result)).
(** [exc.result], [str(exc)]. *)
Definition exn_result (e : exn) : option dict :=
  match split_once NUL (exn_msg e) with
  | Some (_, text) => match loads text with Ok (JDict d) => Some d | _ => None end
  | None => None
  end.
Definition exn_text (e : exn) : string := match split_once NUL (exn_msg e) with Some (text, _) => text | None => exn_msg e end.
Definition is_rejection (e : exn) : bool := bool_decide (exn_cls e = ActiveImportRejected).

(** ** Files *)

Definition sorted_names (root : path) : M (list string) := sys ;; let! f := get_fs in ret (sort_by str_leb (child_names f root)).
Definition json_file_step (root : path) (kept : list path) (name : string) : M (list path) :=
  let p := child root name in
  if p_suffix p <>s? ".json" then ret kept else
  let! file := is_file_p p in
  let! linked := (if file then is_symlink_p p else ret true) in
  ret (if linked then kept else kept ++ [p]).
Definition regular_json_files (root : path) : M (list path) :=
  let! linked := is_symlink_p root in
  let! present := (if linked then ret false else is_dir_p root) in
  if negb present then rejects "unsafe_auth_dir" "active CPA auth directory is unavailable" else
  let! names := sorted_names root in
  mfold (json_file_step root) [] names.
Definition file_step (root : path) (kept : list path) (name : string) : M (list path) :=
  let p := child root name in
  let! file := is_file_p p in
  let! linked := (if file then is_symlink_p p else ret true) in
  ret (if linked then kept else kept ++ [p]).
Definition regular_files (root : path) : M (list path) :=
  let! present := is_dir_p root in
  let! linked := (if present then is_symlink_p root else ret true) in
  if linked then ret [] else
  let! names := sorted_names root in
  mfold (file_step root) [] names.

Definition observation_keys (d : dict) : bool :=
  forallb (λ k, mem k ["schema"; "state"; "observedAt"]%string) (dkeys d) &&
  dmem "schema" d && dmem "state" d && dmem "observedAt" d.
Definition available_observation (v : json) : bool :=
  match v with
  | JDict d => eq_str (dget "schema" d) "cloudx.cpa-pool-observation.v1" && eq_str (dget "state" d) "available" &&
               is_str (dget "observedAt" d) && observation_keys d
  | _ => false
  end.
Definition observation_step (accepted : Z) (p : path) : M Z :=
  if p_name p =s? "trigger.json" then rejects "unexpected_trigger" "successful canary emitted an unavailable trigger" else
  let! document := try_with (let! text := read_text p in lift (loads text))
    (except [OSError; JSONDecodeError] (λ _, rejects "observation_invalid" "CPA pool observation is invalid")) in
  if available_observation document then ret (accepted + 1)
  else rejects "observation_invalid" "CPA pool observation is not identity-free available state".
Definition require_available_pool_observation (root : path) : M Z :=
  let! files := regular_files root in
  match files with
  | [] => rejects "observation_missing" "CPA did not emit an available pool observation"
  | _ => mfold observation_step 0 files
  end.
Definition archive_entries : M Z :=
  let! document := try_with (let! text := read_text (child ARCHIVE_DIR "manifest.json") in lift (loads text))
    (except [OSError; JSONDecodeError] (λ _, rejects "archive_unavailable" "CPA archive manifest is unavailable")) in
  match dget "entries" (dict_or_empty document) with
  | JList l => ret (Z.of_nat (length l))
  | _ => rejects "archive_unavailable" "CPA archive manifest is invalid"
  end.

(** [os.open(path, O_WRONLY | O_CREAT | O_EXCL, mode)]. *)
Definition open_new (p : path) (mode : Z) : M unit :=
  sys ;; let! f := get_fs in
  match f !! p with
  | Some _ => oserror "file exists"
  | None => if parent_is_dir f p then update p (File "" mode) else missing
  end.
(** [with os.fdopen(descriptor, "wb") as handle: ...]. *)
Definition fill_handle (p : path) (raw : string) : M unit := write_file p raw ;; fsync ;; sys.

Section site.
Context (X : site).

Definition validate_private_directory (p : path) (uid gid : Z) : M unit :=
  let! info := lstat p in
  let! linked := is_symlink_p p in
  if linked || negb (is_dirn info) then rejects "unsafe_directory" "active import directory is unsafe" else
  let! (owner, group) := s_owner X p in
  if negb (node_mode info =? 448) || negb (owner =? uid) || negb (group =? gid)
  then rejects "unsafe_directory" "active import directory ownership changed" else ret tt.
Definition ensure_transaction_root : M unit :=
  mkdir_parents IMPORT_ROOT 511 ;; chown ;; chmod IMPORT_ROOT 448 ;; validate_private_directory IMPORT_ROOT 0 0.

Definition temporary_name (p : path) (nonce : string) : path :=
  child (p_parent p) ("." +:+ p_name p +:+ "." +:+ str_of_Z (s_pid X) +:+ "." +:+ nonce).
Definition write_json (p : path) (document : dict) : M unit :=
  let! nonce := s_hex X 3 in
  let temporary := temporary_name p nonce in
  open_new temporary 384 ;;
  finally (fill_handle temporary (json_file_text document) ;; chmod temporary 384 ;; replace temporary p)
    (unlink_missing_ok temporary).

(** ** Commands *)

Definition run_program (argv : list string) (input : option string) : M completed :=
  try_with (s_spawn X argv input) (except [OSError] (λ _, rejects "command_failed" "active import command failed")).
Definition safe_json (raw : string) : M dict :=
  let! value := try_with (lift (loads_bytes raw))
    (except [UnicodeDecodeError; JSONDecodeError] (λ _, rejects "invalid_result" "active import returned invalid JSON")) in
  match value with JDict d => ret d | _ => rejects "invalid_result" "active import returned an invalid document" end.
Definition installed_version : M string :=
  let current := path_of "/opt/cloudx/current" in
  let! linked := is_symlink_p current in
  if negb linked then ret "" else
  try_with (let! p := resolve current in ret (p_name p)) (except [OSError] (λ _, ret "")).
Definition SERVICE_FIELDS : list string := ["MainPID"; "NRestarts"; "ActiveState"; "SubState"; "Result"].
Definition service_field (name key : string) : M (string * json) :=
  let! done := run_program ["systemctl"; "show"; name; "-p"; key; "--value"] None in
  if negb (c_status done =? 0) then rejects "service_unavailable" "CPA service state is unavailable"
  else ret (key, JStr (strip (utf8_replace (c_stdout done)))).
Definition service_state (name : string) : M dict := mmap (service_field name) SERVICE_FIELDS.
Definition unit_state (name : string) : M (bool * bool) :=
  let! enabled := run_program ["systemctl"; "is-enabled"; name] None in
  let! active := run_program ["systemctl"; "is-active"; name] None in
  ret (c_status enabled =? 0, c_status active =? 0).
Definition unit_ready (name : string) : M bool := let! (enabled, active) := unit_state name in ret (enabled && active).

Definition read_input (stdin : string) : M string :=
  let raw := str_take_z (MAX_INPUT_BYTES + 1) stdin in
  if (raw =s? "") || (MAX_INPUT_BYTES <? str_len raw) then rejects "input_invalid" "credential input is empty or oversized"
  else ret raw.

Definition import_command (variables : list string) (dry_run : bool) (user : string) : list string :=
  ["sudo"; "-n"; "-u"; user; "env"; "CLOUDX_AUTH_DIR=" +:+ path_str AUTH_DIR; "CLOUDX_IMPORT_LOCK=" +:+ path_str IMPORT_LOCK]
  ++ variables ++ [s_python X; path_str ACTIVE_ARTIFACT; "import"%string] ++ (if dry_run then ["--dry-run"%string] else []).
Definition imported_document (done : completed) (message : string) : M dict :=
  let! document := safe_json (c_stdout done) in
  if negb (c_status done =? 0) || negb (eq_str (dget "status" document) "accepted") then rejects "import_rejected" message
  else ret document.
Definition signed_import (raw : string) (dry_run : bool) : M dict :=
  let! cliproxy := s_account X "cliproxy" in
  let! done := run_program (import_command [] dry_run (pw_name cliproxy)) (Some raw) in
  imported_document done "signed active importer rejected the credential".

(** ** The gateway *)

Definition client_credential : M string :=
  let! value := try_with (let! text := read_text CLIENT_CREDENTIAL in ret (strip text))
    (except [OSError] (λ _, rejects "credential_unavailable" "gateway client credential is unavailable")) in
  if (value =s? "") || Nat.ltb 4096 (ulen value) then rejects "credential_unavailable" "gateway client credential is invalid"
  else ret value.
Definition lower_headers (headers : list (string * string)) : dict :=
  fold_left (λ d h, dset (str_lower h.1) (JStr h.2) d) headers [].
Definition request (host : string) (port : Z) (credential method path : string) (body : option dict) : M (Z * dict * string) :=
  let headers := ("Authorization", "Bearer " +:+ credential)%string ::
                 match body with Some _ => [("Content-Type", "application/json")%string] | None => [] end in
  let raw := match body with Some d => Some (dumps (st_default false true) (JDict d)) | None => None end in
  try_with
    (let! (status, received, data) := s_http X host port method path headers raw in
     if MAX_RESPONSE_BYTES <? str_len data then rejects "response_oversized" "gateway response is oversized"
     else ret (status, lower_headers received, data))
    (except [OSError] (λ _, rejects "gateway_unavailable" "gateway request failed")).

Definition model_ids (data : json) : list string :=
  match data with JList l => omap (λ item, match item with JDict d => as_str (dget "id" d) | _ => None end) l | _ => [] end.
Definition add_models (wanted : string → bool) (ordered models : list string) : list string :=
  fold_left (λ ordered m, if wanted m && negb (mem m ordered) then ordered ++ [m] else ordered) models ordered.
Definition select_models (document : dict) : list string :=
  let models := model_ids (dget "data" document) in
  let ordered := add_models (λ m, mem m models) [] MODEL_PRIORITY in
  add_models (λ _, true) (add_models (λ m, contains "codex" (str_lower m)) ordered models) models.
Definition listed_models (raw : string) : M (list string) :=
  let! value := try_with (let! v := lift (loads_bytes raw) in ret (Some v))
    (except [UnicodeDecodeError; JSONDecodeError] (λ _, ret None)) in
  match value with
  | Some (JDict d) => ret (select_models d)
  | Some _ => mraise AttributeError "object has no attribute 'get'"
  | None => ret []
  end.
Fixpoint await_models (tries : nat) (host : string) (port : Z) (credential : string) (models : list string) : M (list string) :=
  match tries with
  | O => ret models
  | S tries =>
      let! (status, _, raw) := request host port credential "GET" "/v1/models" None in
      let! models := (if status =? 200 then listed_models raw else ret models) in
      if (status =? 200) && negb (match models with [] => true | _ => false end) then ret models
      else s_pause X 1000 ;; await_models tries host port credential models
  end.

Fixpoint strings (v : json) : list string :=
  match v with
  | JStr s => [s]
  | JDict d => flat_map (λ kv, strings (snd kv)) d
  | JList l => flat_map strings l
  | _ => []
  end.
Definition usable_answer (status : Z) (raw : string) : bool :=
  (status =? 200) &&
  match loads_bytes raw with Ok v => contains USABLE_TEXT (str_join LF (strings v)) | Raise _ => false end.
Definition usable_body (model : string) : dict :=
  [("model", JStr model); ("input", JStr ("Reply with exactly " +:+ USABLE_TEXT)); ("max_output_tokens", JInt 64);
   ("stream", JBool false)].
Definition POLICY_HEADER : string := "x-cpa-max-concurrent-api-requests".
Definition retried (status : Z) : bool := existsb (Z.eqb status) [400; 409; 429; 500; 502; 503; 504].

(** What the tries so far have seen: their number, the last status and the last policy. *)
Record tries := Tries { t_attempts : Z; t_status : Z; t_policy : json }.
Definition canary_fields (t : tries) : dict :=
  [("httpStatus", JInt (t_status t)); ("policy", t_policy t); ("attempts", JInt (t_attempts t))].
Fixpoint try_model (remaining : nat) (host : string) (port : Z) (credential model : string) (t : tries) : M (option dict * tries) :=
  match remaining with
  | O => ret (None, t)
  | S remaining =>
      let! (status, headers, raw) := request host port credential "POST" "/v1/responses" (Some (usable_body model)) in
      let policy := dget_or POLICY_HEADER (JStr "") headers in
      let t := Tries (t_attempts t + 1) status policy in
      if usable_answer status raw && eq_str policy "2"
      then ret (Some (("model"%string, JStr model) :: canary_fields t), t)
      else if retried status && negb (Nat.eqb remaining 0)
      then s_pause X 2000 ;; try_model remaining host port credential model t
      else ret (None, t)
  end.
Fixpoint try_models (models : list string) (host : string) (port : Z) (credential : string) (t : tries) : M dict :=
  match models with
  | [] => rejects_with (if eq_str (t_policy t) "" || eq_str (t_policy t) "2" then "live_model_failed" else "policy_mismatch")
            "live model canary failed" (canary_fields t)
  | model :: models =>
      let! (found, t) := try_model 3 host port credential model t in
      match found with Some d => ret d | None => try_models models host port credential t end
  end.
Definition live_canary (host : string) (port : Z) : M dict :=
  let! credential := client_credential in
  let! models := await_models 20 host port credential [] in
  match models with
  | [] => rejects "models_unavailable" "gateway did not expose a usable model"
  | _ => try_models (firstn 8 models) host port credential (Tries 0 0 (JStr ""))
  end.

(** ** The import *)

Definition move_to_transaction_rollback (p transaction : path) (prefix : string) : M unit :=
  let rollback := child transaction "rollback" in
  let! present := is_dir_p rollback in
  (if present then ret tt else mkdir_new rollback 448) ;;
  chown ;; validate_private_directory rollback 0 0 ;;
  let! here := st_dev p in
  let! there := st_dev rollback in
  if negb (here =? there) then rejects "rollback_unavailable" "active import rollback is not same-filesystem" else
  replace p (child rollback (prefix +:+ p_name p)).

Definition import_plan (host : string) (port : Z) : dict :=
  [("schema", JStr IMPORT_PLAN_SCHEMA); ("status", JStr "confirmation-required"); ("confirmation", JStr IMPORT_CONFIRMATION);
   ("requiredActiveCloudxVersion", JStr IMPORT_VERSION); ("input", JStr "one-credential-via-stdin");
   ("gateway", JStr (host +:+ ":" +:+ str_of_Z port)); ("requiresEmptyActivePool", JBool true);
   ("signedImporterDryRun", JBool true); ("signedImporterApply", JBool true); ("liveResponsesCanary", JBool true);
   ("requiredBusinessPolicy", JInt 2); ("automaticRollbackOnUnknownFailure", JBool true);
   ("rawCredentialStored", JBool false); ("serviceRestarted", JBool false); ("automaticAction", JBool false)].

(** What the pool and the watchers looked like before. *)
Record before_import := BeforeImport { b_service : dict; b_archive : Z }.
Definition import_preflight : M before_import :=
  if negb (s_linux_root X) then rejects "wrong_host" "active cloud import requires root on Linux" else
  let! version := installed_version in
  if version <>s? IMPORT_VERSION then rejects "release_mismatch" "required signed Cloudx release is not active" else
  let! checked := run_program [s_python X; path_str ACTIVE_ARTIFACT; "self-check"] None in
  let! document := safe_json (c_stdout checked) in
  if negb (eq_str (dget "version" document) IMPORT_VERSION) || negb (eq_str (dget "status" document) "ok")
  then rejects "release_mismatch" "active signed Cloudx self-check failed" else
  let! failure := unit_ready FAILURE_PATH in
  let! ready := (if failure then unit_ready SWEEP_PATH else ret false) in
  if negb ready then rejects "watcher_unavailable" "cloud CPA watchers are not active" else
  let! files := regular_json_files AUTH_DIR in
  match files with
  | _ :: _ => rejects "active_pool_not_empty" "active CPA pool must be empty for first acceptance"
  | [] =>
      let! service := service_state CPA_SERVICE in
      let! archived := archive_entries in
      let! failures := regular_files FAILURE_DIR in
      let! sweeps := regular_files SWEEP_DIR in
      match failures ++ sweeps with
      | [] => ret (BeforeImport service archived)
      | _ => rejects "watcher_input_not_empty" "CPA watcher inputs must be empty before first active import"
      end
  end.
Definition import_transaction_dir (raw : string) (before : before_import) : M path :=
  ensure_transaction_root ;;
  let! stamp := now_stamp in
  let! nonce := s_hex X 4 in
  let transaction := child IMPORT_ROOT (stamp +:+ "-" +:+ nonce) in
  mkdir_new transaction 448 ;; chown ;; validate_private_directory transaction 0 0 ;;
  let! created_at := iso_now in
  write_json (child transaction "manifest.json")
    [("schema", JStr IMPORT_SCHEMA); ("transactionId", JStr (p_name transaction)); ("createdAt", JStr created_at);
     ("requestHash", JStr (sha256 raw)); ("activeBefore", JInt 0); ("archiveBefore", JInt (b_archive before));
     ("rawCredentialStored", JBool false)] ;;
  ret transaction.

Definition text_count (service : dict) (key : string) : M json :=
  lift (let* v := ditem service key in let* n := py_int v in Ok (JInt n)).
Definition import_receipt (transaction : path) (before : before_import) (request_id : json) (canary : dict) (observations : Z)
    : M dict :=
  let! model := lift (ditem canary "model") in
  let! status := lift (ditem canary "httpStatus") in
  let! policy := lift (ditem canary "policy") in
  let! attempts := lift (ditem canary "attempts") in
  let! pid := text_count (b_service before) "MainPID" in
  let! restarts := text_count (b_service before) "NRestarts" in
  ret [("schema", JStr IMPORT_SCHEMA); ("transactionId", JStr (p_name transaction)); ("status", JStr "accepted");
       ("requestId", request_id); ("written", JInt 1); ("activeAuth", JInt 1); ("archiveEntries", JInt (b_archive before));
       ("liveModelTraffic", JStr "passed"); ("model", model); ("httpStatus", status); ("policy", policy);
       ("canaryAttempts", attempts); ("poolObservation", JStr "available"); ("poolObservationCount", JInt observations);
       ("sweepTrigger", JBool false); ("cpaPid", pid); ("cpaRestarts", restarts); ("serviceRestarted", JBool false);
       ("rawCredentialStored", JBool false)].

(** The body up to the moment it knows the new file, and after it. *)
Definition import_target (raw : string) (preview : dict) : M (dict * path) :=
  let! imported := signed_import raw false in
  if negb (eq_int (dget "written" imported) 1) || negb (py_eq (dget "requestId" imported) (dget "requestId" preview))
  then rejects "apply_mismatch" "active import apply result changed" else
  let! after := regular_json_files AUTH_DIR in
  match after with
  | [target] => ret (imported, target)
  | _ => rejects "target_mismatch" "active import did not create exactly one credential"
  end.
Definition import_acceptance (host : string) (port : Z) (transaction : path) (before : before_import) (imported : dict) (target : path)
    : M dict :=
  let! info := stat target in
  let! cliproxy := s_account X "cliproxy" in
  let! (owner, group) := s_owner X target in
  if negb (node_mode info =? 384) || negb (owner =? pw_uid cliproxy) || negb (group =? pw_gid cliproxy)
  then rejects "target_unsafe" "active credential ownership or mode is invalid" else
  let! canary := live_canary host port in
  let! service := service_state CPA_SERVICE in
  if negb (py_eq (JDict service) (JDict (b_service before))) then rejects "service_changed" "CPA service changed during active import" else
  let! files := regular_json_files AUTH_DIR in
  let! same := (if Nat.eqb (length files) 1 then let! archived := archive_entries in ret (archived =? b_archive before) else ret false) in
  if negb same then rejects "state_changed" "CPA credential/archive state changed unexpectedly" else
  let! failures := regular_files FAILURE_DIR in
  match failures with
  | _ :: _ => rejects "failure_receipt_changed" "successful canary emitted a failure receipt"
  | [] =>
      let! observations := require_available_pool_observation SWEEP_DIR in
      let! receipt := import_receipt transaction before (dget "requestId" imported) canary observations in
      write_json (child transaction "receipt.json") receipt ;;
      ret receipt
  end.

Definition contain_import {A} (transaction : path) (before : before_import) (target : option path) (e : exn) : M A :=
  s_pause X 3000 ;;
  let! archived := archive_entries in
  let! target := match target with
    | Some p => ret (Some p)
    | None => let! files := regular_json_files AUTH_DIR in ret (match files with [p] => Some p | _ => None end)
    end in
  match target with
  | Some p => let! present := exists_p p in if present then move_to_transaction_rollback p transaction "" else ret tt
  | None => ret tt
  end ;;
  let! sweeps := regular_files SWEEP_DIR in
  miter (λ p, move_to_transaction_rollback p transaction "sweep-") sweeps ;;
  let! failures := regular_files FAILURE_DIR in
  miter (λ p, move_to_transaction_rollback p transaction "failure-") failures ;;
  let! remaining := regular_json_files AUTH_DIR in
  let! restored :=
    match remaining with
    | [] =>
        let! service := service_state CPA_SERVICE in
        if negb (py_eq (JDict service) (JDict (b_service before))) then ret false else
        let! failures := regular_files FAILURE_DIR in
        match failures with
        | [] => let! sweeps := regular_files SWEEP_DIR in ret (match sweeps with [] => true | _ => false end)
        | _ => ret false
        end
    | _ => ret false
    end in
  let shown := match exn_result e with
    | Some d => omap (λ k, match dlookup k d with Some v => Some (k, v) | None => None end) ["httpStatus"; "policy"; "attempts"]%string
    | None => []
    end in
  let receipt := [("schema", JStr IMPORT_SCHEMA); ("transactionId", JStr (p_name transaction)); ("status", JStr "failed");
    ("failureCode", JStr (exn_code e)); ("watcherArchived", JBool (b_archive before <? archived)%Z);
    ("baselineRestored", JBool restored); ("serviceRestarted", JBool false); ("rawCredentialStored", JBool false)]%string ++ shown in
  write_json (child transaction "receipt.json") receipt ;;
  rejects_with (exn_code e) "active credential import failed and was contained" receipt.
(** [except ActiveImportRejected]: any other exception leaves what was imported in place. *)
Definition import_transaction_body (raw host : string) (port : Z) (preview : dict) (transaction : path) (before : before_import) : M dict :=
  let handler {A} target : exn → option (M A) := except [ActiveImportRejected] (contain_import transaction before target) in
  let! (imported, target) := try_with (import_target raw preview) (handler None) in
  try_with (import_acceptance host port transaction before imported target) (handler (Some target)).
Definition import_apply (raw host : string) (port : Z) : M dict :=
  let! before := import_preflight in
  let! preview := signed_import raw true in
  if negb (eq_int (dget "written" preview) 1) || negb (eq_int (dget "skipped" preview) 0)
  then rejects "dry_run_mismatch" "active import dry-run did not plan exactly one write" else
  let! transaction := import_transaction_dir raw before in
  import_transaction_body raw host port preview transaction before.

Definition import_main (host : string) (port : Z) (apply : bool) (confirm stdin : string) : M dict :=
  if negb apply then ret (import_plan host port) else
  if confirm <>s? IMPORT_CONFIRMATION then rejects "confirmation_mismatch" "active import confirmation does not match" else
  let! raw := read_input stdin in
  import_apply raw host port.
(** What is printed on the two streams, and the exit status. *)
Definition reported (name : string) (m : M dict) : M (string * string * Z) :=
  try_with (let! d := m in ret (dumps (st_default true true) (JDict d) +:+ LF, ""%string, 0))
    (except [ActiveImportRejected] (λ e, ret
       (match exn_result e with Some d => dumps (st_default true true) (JDict d) +:+ LF | None => ""%string end,
        name +:+ ": " +:+ exn_text e +:+ LF, 1))).
Definition import_program (host : string) (port : Z) (apply : bool) (confirm stdin : string) : M (string * string * Z) :=
  reported "import-active-cloud-cpa" (import_main host port apply confirm stdin).
End site.
