(* ===== verification/Promotion.v ===== *)
(** * Promoting a batch of agent identities ([scripts/promote_cloud_agent_identity_batch.py],
    [cloud_agent_identity_promotion_support.py])

    A batch of agent identities is imported into the live pool by the signed importer, answers
    requests while the earlier credentials are held back, and stays; or everything is put back.
    The host is [ActiveImport.site].  The comparison of inodes and times of a file before and
    after it was read is not part of the model. *)

From S2P Require Import Prelude PyStr PyFloat PyValue PyRe PyTime PyJson PyBase64 PySha FS CpaRecords CpaAuth.
From S2P Require Import ApiFailure LocalConfig Releases Trees ShellHook Ops ActiveImport.

(** ** [cloud_agent_identity_promotion_support.py] *)

Definition PROMOTION_VERSION : string := "0.1.33".
Definition REQUIRED_CPA_VERSION : string := "7.2.71-cloudx-policy.8".
Definition REQUIRED_CPA_SHA256 : string := "4dfa561451662ca5deae566f6fcfdc32bec7f42590439fa053000c4b84f915c0".
Definition REQUIRED_CAPABILITY : string := "codex-agent-identity-v1".
Definition PROMOTION_PLAN_SCHEMA : string := "cloudx.active-agent-identity-promotion-plan.v1".
Definition PROMOTION_SCHEMA : string := "cloudx.active-agent-identity-promotion.v1".
Definition MAX_BATCH : Z := 32.
Definition hex_digit (c : ascii) : bool := is_digit c || in_range 97 102 c.
Definition TRANSACTION_RE : re :=
  RSeq (RBetween 8 8 (RChar is_digit)) (RSeq (RChar (Ascii.eqb "T")) (RSeq (RBetween 6 6 (RChar is_digit))
    (RSeq (RChar (Ascii.eqb "Z")) (RSeq (RChar (Ascii.eqb "-")) (RBetween 8 8 (RChar hex_digit)))))).

Definition confirmation (digest : string) (active added : Z) (allow : bool) : string :=
  (if allow then "RECOVER UNAVAILABLE CLOUD AGENT IDENTITY BATCH" else "PROMOTE CLOUD AGENT IDENTITY BATCH") +:+ " " +:+
  PROMOTION_VERSION +:+ " " +:+ str_of_Z active +:+ "+" +:+ str_of_Z added +:+ " " +:+ str_take 16 digest.
Definition recovery_confirmation (transaction_id : string) : string :=
  "ROLL BACK CLOUD AGENT IDENTITY PROMOTION " +:+ transaction_id.
Definition validate_expectations (digest : string) (active added : Z) : res unit :=
  let reject message := Raise (rejection "invalid_arguments" message None) in
  if negb (re_fullmatch (RBetween 64 64 (RChar hex_digit)) digest) then reject "expected request SHA-256 is invalid" else
  if (active <? 1) || (128 <? active) then reject "expected active count is invalid" else
  if (added <? 1) || (MAX_BATCH <? added) then reject "expected batch count is invalid" else Ok tt.
Definition plan (digest : string) (active added : Z) (allow : bool) : res dict :=
  let* _ := validate_expectations digest active added in
  Ok [("schema", JStr PROMOTION_PLAN_SCHEMA); ("status", JStr "confirmation-required");
      ("confirmation", JStr (confirmation digest active added allow)); ("requiredActiveCloudxVersion", JStr PROMOTION_VERSION);
      ("requiredCpaVersion", JStr REQUIRED_CPA_VERSION); ("requiredCpaSha256", JStr REQUIRED_CPA_SHA256);
      ("requiredCapability", JStr REQUIRED_CAPABILITY); ("requestSha256", JStr digest); ("activeBefore", JInt active);
      ("newCredentials", JInt added); ("activeAfter", JInt (active + added));
      ("baselinePoolStateRequired", JStr (if allow then "unavailable" else "available")); ("signedImporterDryRun", JBool true);
      ("signedImporterApply", JBool true); ("baselineTemporarilyHeldForCohortCanary", JBool true);
      ("cohortCanaryRequests", JInt added); ("automaticRollback", JBool true);
      ("manualRecoveryPreparedBeforeMutation", JBool true); ("rawCredentialStored", JBool false);
      ("serviceRestarted", JBool false); ("automaticAction", JBool false)].
Definition recovery_plan (transaction_id : string) : res dict :=
  if negb (re_fullmatch TRANSACTION_RE transaction_id) then Raise (rejection "invalid_arguments" "transaction ID is invalid" None) else
  Ok [("schema", JStr PROMOTION_PLAN_SCHEMA); ("status", JStr "confirmation-required");
      ("confirmation", JStr (recovery_confirmation transaction_id)); ("transactionId", JStr transaction_id);
      ("action", JStr "restore-pre-promotion-active-pool"); ("serviceRestarted", JBool false); ("automaticAction", JBool false)].

(** ** Files *)

Definition MAX_FILE_BYTES : Z := 16 * 1024 * 1024.
Definition MAX_MANIFEST_BYTES : Z := 64 * 1024.
Definition PROMOTION_ROOT : path := path_of "/var/lib/codex-gateway/agent-identity-promotions".
Definition RUNTIME_ROOT : path := path_of "/run/cloudx-agent-identity-promotion".
Definition CAPABILITY_SIDECAR : path := path_of "/etc/cloudx/cloud-cpa-capabilities.json".
Definition PKCS8_PREFIX : string :=
  of_chars (map byte [48; 46; 2; 1; 0; 48; 5; 6; 3; 43; 101; 112; 4; 34; 4; 32]).

Definition safe_bytes (p : path) (maximum : Z) : M string :=
  let! linked := (if p.1 then is_symlink_p p else ret true) in
  if linked then rejects "unsafe_file" "promotion input file is unsafe" else
  let! n := try_with (open_nofollow p) (except [OSError] (λ _, rejects "unsafe_file" "promotion input file is unavailable")) in
  let! before := fstat n in
  if negb (is_reg before) || (maximum <? node_size before) then rejects "unsafe_file" "promotion input file is invalid" else
  let! raw := read_node n in
  let! _ := fstat n in
  let! _ := try_with (lstat p) (except [OSError] (λ _, rejects "unsafe_file" "promotion input file changed while reading")) in
  if maximum <? str_len raw then rejects "unsafe_file" "promotion input file changed while reading" else ret raw.
Definition safe_sha256 (p : path) (maximum : Z) : M string := let! raw := safe_bytes p maximum in ret (sha256 raw).
Definition json_file (p : path) (maximum : Z) : M dict :=
  let! value := try_with (let! raw := safe_bytes p maximum in lift (loads_bytes raw))
    (except [UnicodeDecodeError; JSONDecodeError] (λ _, rejects "invalid_state" "promotion state is invalid")) in
  match value with JDict d => ret d | _ => rejects "invalid_state" "promotion state is invalid" end.

Definition file_map_step (root : path) (found : dict) (name : string) : M dict :=
  let p := child root name in
  let! linked := is_symlink_p p in
  if linked then rejects "unsafe_file" "promotion state contains a symlink" else
  let! file := is_file_p p in
  if negb file then ret found else
  let! digest := safe_sha256 p MAX_FILE_BYTES in ret (dset name (JStr digest) found).
Definition file_map (root : path) : M dict :=
  let! linked := is_symlink_p root in
  let! present := (if linked then ret false else is_dir_p root) in
  if negb present then rejects "unsafe_directory" "promotion state directory is unavailable" else
  let! names := sorted_names root in
  mfold (file_map_step root) [] names.

(** [except Exception: target.unlink(missing_ok=True); raise]. *)
Definition copy_private (source target : path) (mode : Z) : M unit :=
  let! raw := safe_bytes source MAX_FILE_BYTES in
  open_new target mode ;;
  try_with (fill_handle target raw ;; chmod target mode ;; chown) (except_all (λ e, unlink_missing_ok target ;; throw e)).

Definition promotion_archive : M (list json) :=
  let! document := json_file (child ARCHIVE_DIR "manifest.json") MAX_MANIFEST_BYTES in
  match dget "entries" document with
  | JList entries =>
      if negb (eq_str (dget "schema" document) "cloudx.cpa-quarantine.v1") || negb (forallb is_dict entries)
      then rejects "archive_invalid" "CPA archive manifest is invalid" else ret entries
  | _ => rejects "archive_invalid" "CPA archive manifest is invalid"
  end.

Definition pool_observation_state : M string :=
  let! files := regular_files SWEEP_DIR in
  match files with
  | [p] =>
      if p_name p <>s? "pool-state.json" then rejects "observation_invalid" "CPA pool observation inventory is invalid" else
      let! document := json_file p (16 * 1024) in
      match dget "state" document with
      | JStr state =>
          if negb (eq_str (dget "schema" document) "cloudx.cpa-pool-observation.v1") ||
             negb (mem state ["available"; "unavailable"]%string) || negb (is_str (dget "observedAt" document)) ||
             negb (observation_keys document)
          then rejects "observation_invalid" "CPA pool observation is not identity-free state" else ret state
      | _ => rejects "observation_invalid" "CPA pool observation is not identity-free state"
      end
  | _ => rejects "observation_invalid" "CPA pool observation inventory is invalid"
  end.

(** ** The agent identity of a file *)

Definition FORBIDDEN_FIELDS : list string :=
  ["access_token"; "refresh_token"; "id_token"; "token"; "tokens"; "task"; "task_id"; "agent_task"; "agent_task_id"].
Definition target_invalid {A} : res A := Raise (rejection "target_invalid" "promoted Agent Identity record is invalid" None).
(** The fingerprint of the record in the file. *)
Definition record_fingerprint (document : dict) : res string :=
  match dget "agent_runtime_id" document, dget "agent_private_key" document with
  | JStr runtime_id, JStr private_key =>
      if (casefold (str_or_empty (dget "auth_mode" document)) <>s? "agentidentity") ||
         negb (eq_str (dget "type" document) "codex") || negb (eq_str (dget "auth_kind" document) "oauth") ||
         negb (is_false (dget "disabled" document)) || negb (is_false (dget "websockets" document)) ||
         (strip runtime_id =s? "") || Nat.ltb 256 (ulen runtime_id) || existsb (λ key, dmem key document) FORBIDDEN_FIELDS
      then target_invalid else
      match b64_strict private_key with
      | Some der =>
          if negb (Nat.eqb (String.length der) 48) || negb (starts_with PKCS8_PREFIX der) then target_invalid
          else Ok (sha256 (strip runtime_id +:+ NUL +:+ der))
      | None => target_invalid
      end
  | _, _ => target_invalid
  end.
Definition agent_fingerprint (p : path) : M string :=
  let! document := json_file p (128 * 1024) in lift (record_fingerprint document).

Section site.
Context (X : site).

Definition private_directory (p : path) (mode uid gid : Z) : M unit :=
  mkdir_parents p 511 ;;
  let! linked := is_symlink_p p in
  let! present := (if linked then ret false else is_dir_p p) in
  if negb present then rejects "unsafe_directory" "promotion directory is unsafe" else
  chown ;; chmod p mode ;;
  let! info := stat p in
  let! (owner, group) := s_owner X p in
  if negb (node_mode info =? mode) || negb (owner =? uid) || negb (group =? gid)
  then rejects "unsafe_directory" "promotion directory ownership changed" else ret tt.

Definition validate_active_file (uid gid : Z) (p : path) : M unit :=
  let! info := stat p in
  let! (owner, group) := s_owner X p in
  if negb (node_mode info =? 384) || negb (owner =? uid) || negb (group =? gid)
  then rejects "active_pool_unsafe" "active CPA credential ownership or mode is invalid" else ret tt.
Definition validate_active_files (paths : list path) (uid gid : Z) : M unit := miter (validate_active_file uid gid) paths.

(** ** Before the promotion *)

Definition capability_state (service : dict) : M (dict * path) :=
  let! document := json_file CAPABILITY_SIDECAR MAX_MANIFEST_BYTES in
  let binary := path_of (str_or_empty (dget "binary" document)) in
  let mismatch {A} : M A := rejects "capability_mismatch" "active cloud CPA capability evidence does not match" in
  match dget "capabilities" document with
  | JList capabilities =>
      if negb (eq_str (dget "schema" document) "cloudx.cloud-cpa-capabilities.v1") ||
         negb (eq_str (dget "runtimeVersion" document) REQUIRED_CPA_VERSION) ||
         negb (eq_str (dget "binarySha256" document) REQUIRED_CPA_SHA256) ||
         negb (existsb (λ c, eq_str c REQUIRED_CAPABILITY) capabilities) || negb (binary.1) then mismatch else
      let! digest := safe_sha256 binary (256 * 1024 * 1024) in
      if digest <>s? REQUIRED_CPA_SHA256 then mismatch else
      let! pid := lift (py_int (let v := dget "MainPID" service in if truthy v then v else JInt 0)) in
      let! executable := try_with
        (let! target := s_link X ("/proc/" +:+ str_of_Z pid +:+ "/exe") in resolve target)
        (except [OSError; ValueError] (λ _, rejects "service_unavailable" "active cloud CPA executable is unavailable")) in
      let! resolved := resolve binary in
      if bool_decide (executable = resolved) then ret (document, binary)
      else rejects "capability_mismatch" "active cloud CPA executable does not match"
  | _ => mismatch
  end.

Record promotion_baseline := PromotionBaseline {
  pb_service : dict; pb_active : list path; pb_active_map : dict; pb_archive : list json; pb_failures : dict; pb_sweeps : dict;
  pb_uid : Z; pb_gid : Z; pb_sidecar : dict; pb_binary : path; pb_state : string }.

Definition unsafe_entry (name : string) : M bool :=
  let p := child AUTH_DIR name in
  if p_suffix p <>s? ".json" then ret false else
  let! linked := is_symlink_p p in
  if linked then ret true else let! file := is_file_p p in ret (negb file).
Fixpoint any_unsafe (names : list string) : M bool :=
  match names with
  | [] => ret false
  | name :: names => let! bad := unsafe_entry name in if bad then ret true else any_unsafe names
  end.
Definition digest_of (p : path) : M (string * json) := let! d := safe_sha256 p MAX_FILE_BYTES in ret (p_name p, JStr d).

Definition promotion_service : M dict :=
  if negb (s_linux_root X) then rejects "wrong_host" "active Agent Identity promotion requires root on Linux" else
  let! version := installed_version in
  if version <>s? PROMOTION_VERSION then rejects "release_mismatch" "required signed Cloudx release is not active" else
  let! checked := run_program X [s_python X; path_str ACTIVE_ARTIFACT; "self-check"] None in
  let! document := safe_json (c_stdout checked) in
  if negb (eq_str (dget "status" document) "ok") || negb (eq_str (dget "version" document) PROMOTION_VERSION)
  then rejects "release_mismatch" "active signed Cloudx self-check failed" else
  let! failure := unit_ready X FAILURE_PATH in
  let! ready := (if failure then unit_ready X SWEEP_PATH else ret false) in
  if negb ready then rejects "watcher_unavailable" "cloud CPA watchers are not active" else
  let! service := service_state X CPA_SERVICE in
  if negb (eq_str (dget "ActiveState" service) "active") || negb (eq_str (dget "SubState" service) "running")
  then rejects "service_unavailable" "cloud CPA service is unavailable" else ret service.
Definition promotion_preflight (expected : Z) (allow : bool) : M promotion_baseline :=
  let! service := promotion_service in
  let! cliproxy := s_account X "cliproxy" in
  let! names := (sys ;; let! f := get_fs in ret (child_names f AUTH_DIR)) in
  let! bad := any_unsafe names in
  if bad then rejects "active_pool_unsafe" "active CPA credential entry is unsafe" else
  let! active := regular_json_files AUTH_DIR in
  if negb (Z.of_nat (length active) =? expected)
  then rejects "active_pool_changed" "active CPA count does not match the confirmed baseline" else
  validate_active_files active (pw_uid cliproxy) (pw_gid cliproxy) ;;
  let! failures := regular_files FAILURE_DIR in
  match failures with
  | _ :: _ => rejects "watcher_input_not_empty" "CPA failure input is not empty"
  | [] =>
      let! state := pool_observation_state in
      if state <>s? (if allow then "unavailable" else "available")%string
      then rejects "observation_mismatch" "CPA pool observation does not match the confirmed baseline" else
      let! archive := promotion_archive in
      let! (sidecar, binary) := capability_state service in
      let! active_map := mmap digest_of active in
      let! failure_map := file_map FAILURE_DIR in
      let! sweep_map := file_map SWEEP_DIR in
      ret (PromotionBaseline service active active_map archive failure_map sweep_map (pw_uid cliproxy) (pw_gid cliproxy)
             sidecar binary state)
  end.

Definition with_promotion_lock {A} (body : M A) : M A :=
  private_directory PROMOTION_ROOT 448 0 0 ;;
  let lock := child PROMOTION_ROOT ".promotion.lock" in
  open_append lock ;; chmod lock 384 ;;
  try_with (try_lock lock) (except [BlockingIOError] (λ _, rejects "promotion_busy" "another active promotion is running")) ;;
  body.

Definition manifest_path (transaction : path) : path := child transaction "manifest.json".
Definition tool (transaction : path) (name : string) : path := under transaction ["tool"; name].
Definition backup_file (transaction : path) (name : string) : path := path_join (under transaction ["baseline"; "active"]) name.
Definition held_file (transaction : path) (name : string) : path := path_join (under transaction ["hold"; "active"]) name.

Definition copy_tool (transaction : path) (source : path) (name : string) (mode : Z) : M unit :=
  copy_private source (tool transaction name) mode.
Definition promotion_manifest (transaction_id created_at digest : string) (base : promotion_baseline) (added : Z)
    (tool_digest helper_digest support_digest : string) : dict :=
  let n := Z.of_nat (length (pb_active base)) in
  [("schema", JStr PROMOTION_SCHEMA); ("transactionId", JStr transaction_id); ("createdAt", JStr created_at);
   ("phase", JStr "prepared"); ("requestHash", JStr digest); ("expectedNew", JInt added); ("activeBefore", JInt n);
   ("activeAfter", JInt (n + added)); ("baselineActive", JDict (pb_active_map base)); ("archiveEntries", JList (pb_archive base));
   ("archiveCount", JInt (Z.of_nat (length (pb_archive base)))); ("failureMap", JDict (pb_failures base));
   ("sweepMap", JDict (pb_sweeps base)); ("service", JDict (pb_service base)); ("baselinePoolState", JStr (pb_state base));
   ("cliproxyUid", JInt (pb_uid base)); ("cliproxyGid", JInt (pb_gid base)); ("promoted", JDict []);
   ("rawCredentialStored", JBool false); ("toolSha256", JStr tool_digest); ("helperSha256", JStr helper_digest);
   ("supportSha256", JStr support_digest)].
Definition prepare_promotion (base : promotion_baseline) (digest : string) (added : Z) : M path :=
  let! stamp := now_stamp in
  let! nonce := s_hex X 4 in
  let transaction := child PROMOTION_ROOT (stamp +:+ "-" +:+ nonce) in
  private_directory transaction 448 0 0 ;;
  miter (λ l, private_directory (under transaction l) 448 0 0)
    [["baseline"; "active"]; ["hold"; "active"]; ["rollback"; "active"]; ["rollback"; "failure"]; ["evidence"]; ["tool"]]%string ;;
  let '(main, helper, support) := s_tools X in
  let! main := resolve main in
  let! helper := resolve helper in
  let! support := resolve support in
  copy_tool transaction main "promote_cloud_agent_identity_batch.py" 448 ;;
  copy_tool transaction helper "import_active_cloud_cpa_credential.py" 384 ;;
  copy_tool transaction support "cloud_agent_identity_promotion_support.py" 384 ;;
  miter (λ source, copy_private source (backup_file transaction (p_name source)) 384) (pb_active base) ;;
  let! created_at := iso_now in
  let! tool_digest := safe_sha256 (tool transaction "promote_cloud_agent_identity_batch.py") MAX_FILE_BYTES in
  let! helper_digest := safe_sha256 (tool transaction "import_active_cloud_cpa_credential.py") MAX_FILE_BYTES in
  let! support_digest := safe_sha256 (tool transaction "cloud_agent_identity_promotion_support.py") MAX_FILE_BYTES in
  write_json X (manifest_path transaction)
    (promotion_manifest (p_name transaction) created_at digest base added tool_digest helper_digest support_digest) ;;
  let! text := (let! raw := safe_bytes (tool transaction "promote_cloud_agent_identity_batch.py") MAX_FILE_BYTES in lift (decode_res raw)) in
  s_compile X text ;;
  ret transaction.

(** ** The import *)

Definition attestation_copy (transaction : path) (sidecar : dict) : M path :=
  let! cliproxy := s_account X "cliproxy" in
  private_directory RUNTIME_ROOT 493 0 0 ;;
  let active := child RUNTIME_ROOT (p_name transaction) in
  private_directory active 488 0 (pw_gid cliproxy) ;;
  let target := child active "capabilities.json" in
  open_new target 288 ;;
  fill_handle target (dumps (st_default true true) (JDict sidecar) +:+ LF) ;;
  chown ;; chmod target 288 ;;
  ret target.
Definition cleanup_attestation (p : path) : M unit := rmtree_quiet (p_parent p) ;; ignore_oserror (rmdir RUNTIME_ROOT).
Definition batch_import (raw : string) (dry_run : bool) (host : string) (port : Z) (binary attestation : path) : M dict :=
  let! cliproxy := s_account X "cliproxy" in
  let variables := ["CLOUDX_GATEWAY_URL=http://" +:+ host +:+ ":" +:+ str_of_Z port; "CLOUDX_CPA_BINARY=" +:+ path_str binary;
                    "CLOUDX_CPA_CAPABILITY_MANIFEST=" +:+ path_str attestation]%string in
  let! done := run_program X (import_command X variables dry_run (pw_name cliproxy)) (Some raw) in
  imported_document done "signed active importer rejected the Agent Identity batch".

Definition fingerprint_of (p : path) : M (string * json) := let! d := agent_fingerprint p in ret (p_name p, JStr d).
Definition validate_promoted (paths : list path) (expected uid gid : Z) : M dict :=
  if negb (Z.of_nat (length paths) =? expected)
  then rejects "target_mismatch" "active importer did not create the confirmed batch" else
  validate_active_files paths uid gid ;;
  let! promoted := mmap fingerprint_of paths in
  if negb (Z.of_nat (length (dedup (map (λ kv, py_str (snd kv)) promoted))) =? expected)
  then rejects "target_mismatch" "promoted Agent Identity records are not distinct" else ret promoted.

(** ** Holding the earlier credentials back *)

Definition hold_file (transaction : path) (name : string) : M unit :=
  let source := path_join AUTH_DIR name in
  let target := held_file transaction name in
  let! file := is_file_p source in
  let! linked := (if file then is_symlink_p source else ret true) in
  let! taken := (if linked then ret true else exists_p target) in
  if taken then rejects "baseline_changed" "active baseline changed before cohort canary" else
  let! here := st_dev source in
  let! there := st_dev (under transaction ["hold"; "active"]) in
  if negb (here =? there) then rejects "rollback_unavailable" "active baseline hold is not same-filesystem" else
  replace source target.
Definition hold_baseline (transaction : path) (names : list string) : M unit :=
  miter (hold_file transaction) names ;;
  fsync_directory AUTH_DIR ;; fsync_directory (under transaction ["hold"; "active"]).

(** A regular file that is not a link. *)
Definition plain_file (p : path) : M bool :=
  let! file := is_file_p p in let! linked := (if file then is_symlink_p p else ret true) in ret (negb linked).
Definition restore_file (transaction : path) (uid gid : Z) (item : string * json) : M unit :=
  let target := path_join AUTH_DIR item.1 in
  let! back := plain_file target in
  if back then validate_active_file uid gid target else
  let! held := plain_file (held_file transaction item.1) in
  let source := if held then held_file transaction item.1 else backup_file transaction item.1 in
  let unavailable : M unit := rejects "recovery_incomplete" "active baseline recovery source is unavailable" in
  let! usable := plain_file source in
  if negb usable then unavailable else
  let! digest := safe_sha256 source MAX_FILE_BYTES in
  if negb (py_eq (JStr digest) item.2) then unavailable else
  (if held then replace source target
   else let! raw := safe_bytes source MAX_FILE_BYTES in open_new target 384 ;; fill_handle target raw) ;;
  chmod target 384 ;; chown.
(** [dict(v or {})] of what the manifest holds; a list of pairs is not part of the model. *)
Definition dict_of (v : json) : res dict :=
  if truthy v then match v with JDict d => Ok d | _ => raise ValueError "dictionary update sequence" end else Ok [].
Definition manifest_int (manifest : dict) (key : string) : res Z := let* v := ditem manifest key in py_int v.
Definition restore_baseline (transaction : path) (manifest : dict) : M unit :=
  let! uid := lift (manifest_int manifest "cliproxyUid") in
  let! gid := lift (manifest_int manifest "cliproxyGid") in
  let! items := lift (dict_of (dget "baselineActive" manifest)) in
  miter (restore_file transaction uid gid) items ;;
  fsync_directory AUTH_DIR.

(** The number of attempts of [count] canaries. *)
Fixpoint canaries (count : nat) (host : string) (port attempts : Z) : M Z :=
  match count with
  | O => ret attempts
  | S count =>
      let! result := live_canary X host port in
      if negb (eq_int (dget "httpStatus" result) 200) || negb (eq_str (dget "policy" result) "2")
      then rejects "live_model_failed" "active Agent Identity cohort canary failed" else
      let! n := lift (py_int (let v := dget "attempts" result in if truthy v then v else JInt 0)) in
      canaries count host port (attempts + n)
  end.
Definition verify_baseline_behavior (host : string) (port : Z) (state : string) : M bool :=
  if state =s? "available" then let! _ := canaries 1 host port 0 in ret true else
  if state <>s? "unavailable" then rejects "recovery_incomplete" "promotion baseline state is invalid" else
  let! refused := try_with (let! _ := live_canary X host port in ret false)
    (except [ActiveImportRejected] (λ e,
       if (exn_code e =s? "live_model_failed") && eq_int (dget "httpStatus" (default [] (exn_result e))) 503 then ret true
       else rejects "recovery_incomplete" "unavailable baseline behavior changed")) in
  if refused then ret true else rejects "recovery_incomplete" "unavailable baseline unexpectedly became usable".

(** ** Putting everything back *)

Definition field_text (key : string) (entry : json) : string := str_or_empty (dget key (dict_or_empty entry)).
Definition restore_promoted (selector : string) : M unit :=
  let! done := run_program X [s_python X; path_str ACTIVE_ARTIFACT; "cpa-health-restore"; selector; "--confirm"; selector;
    "--auth-dir"; path_str AUTH_DIR; "--archive-dir"; path_str ARCHIVE_DIR]%string None in
  let! document := safe_json (c_stdout done) in
  if negb (c_status done =? 0) || negb (eq_str (dget "status" document) "restored")
  then rejects "recovery_incomplete" "promoted archived credential could not be contained" else ret tt.
Definition restore_promoted_archives (names : list string) : M unit :=
  let! entries := promotion_archive in
  miter restore_promoted
    (map (field_text "quarantine_name") (List.filter (λ entry, mem (field_text "source_relative" entry) names) entries)).
Definition move_failure (transaction : path) (baseline : dict) (names : list string) (p : path) : M unit :=
  if dmem (p_name p) baseline then ret tt else
  let! document := try_with (let! d := json_file p (16 * 1024) in ret (Some d)) (except [ActiveImportRejected] (λ _, ret None)) in
  match document with
  | Some d => if mem (str_or_empty (dget "authFile" d)) names
              then replace p (under transaction ["rollback"; "failure"; p_name p]) else ret tt
  | None => ret tt
  end.
Definition move_promoted_failures (transaction : path) (names : list string) : M unit :=
  let! manifest := json_file (manifest_path transaction) MAX_FILE_BYTES in
  let! baseline := lift (dict_of (dget "failureMap" manifest)) in
  let! files := regular_files FAILURE_DIR in
  miter (move_failure transaction baseline names) files.
Definition remove_promoted_file (transaction : path) (name : string) : M unit :=
  let source := path_join AUTH_DIR name in
  let target := path_join (under transaction ["rollback"; "active"]) name in
  let! present := exists_p source in
  if negb present then ret tt else
  let! linked := is_symlink_p source in
  let! file := (if linked then ret false else is_file_p source) in
  let! taken := (if file then exists_p target else ret true) in
  if taken then rejects "recovery_incomplete" "promoted credential recovery path is unsafe" else replace source target.
Definition remove_promoted (transaction : path) (names : list string) : M unit :=
  miter (remove_promoted_file transaction) names ;;
  fsync_directory AUTH_DIR ;; fsync_directory (under transaction ["rollback"; "active"]).
Definition remove_transaction_trigger (transaction : path) : M unit :=
  let trigger := child SWEEP_DIR "trigger.json" in
  let! present := plain_file trigger in
  if negb present then ret tt else
  let target := under transaction ["evidence"; "rollback-trigger.json"] in
  unlink_missing_ok target ;; replace trigger target.

(** The names to take out of the pool: those the manifest lists, or all that are new. *)
Definition promoted_names (manifest : dict) (baseline_names : list string) : M (list string) :=
  let! recorded := lift (dict_of (dget "promoted" manifest)) in
  match recorded with
  | _ :: _ => ret (sort_by str_leb (dkeys recorded))
  | [] =>
      let! files := regular_json_files AUTH_DIR in
      let active := List.filter (λ n, negb (mem n baseline_names)) (map p_name files) in
      let! known := lift (let v := dget "archiveEntries" manifest in
                          if truthy v then match v with JList l => Ok l | _ => raise TypeError "object is not iterable" end else Ok []) in
      let! entries := promotion_archive in
      let archived := map (field_text "source_relative")
        (List.filter (λ e, negb (existsb (py_eq e) known) && is_str (dget "source_relative" (dict_or_empty e))) entries) in
      ret (sort_by str_leb (List.filter (λ n, n <>s? "") (dedup (active ++ archived))))
  end.
Definition same_active (files : list path) (names : list string) : bool :=
  bool_decide (sort_by str_leb (map p_name files) = names).
(** [int(manifest.get("archiveCount") or -1)]: an empty archive counts as minus one. *)
Definition expected_archive (manifest : dict) : res Z :=
  py_int (let v := dget "archiveCount" manifest in if truthy v then v else JInt (-1)).
Definition baseline_restored (manifest : dict) (baseline_names : list string) (active : list path) (service : dict) : M bool :=
  if negb (same_active active baseline_names) || negb (py_eq (JDict service) (dget "service" manifest)) then ret false else
  let! entries := promotion_archive in
  let! expected := lift (expected_archive manifest) in
  if negb (Z.of_nat (length entries) =? expected) then ret false else
  let! failures := file_map FAILURE_DIR in
  let! before := lift (dict_of (dget "failureMap" manifest)) in
  ret (py_eq (JDict failures) (JDict before)).
Definition roll_back_to (transaction : path) (host : string) (port : Z) (verify : bool) (manifest : dict)
    (baseline_names : list string) : M dict :=
  let! promoted := promoted_names manifest baseline_names in
  restore_baseline transaction manifest ;;
  restore_promoted_archives promoted ;;
  remove_promoted transaction promoted ;;
  move_promoted_failures transaction promoted ;;
  remove_transaction_trigger transaction ;;
  s_pause X 4000 ;;
  let state := py_str (let v := dget "baselinePoolState" manifest in if truthy v then v else JStr "available") in
  let! verified := (if verify then verify_baseline_behavior host port state else ret false) in
  let! active := regular_json_files AUTH_DIR in
  let! service := service_state X CPA_SERVICE in
  let! restored := baseline_restored manifest baseline_names active service in
  let! observed := pool_observation_state in
  if observed <>s? state then rejects "recovery_incomplete" "promotion baseline pool state was not restored" else
  if negb restored then rejects "recovery_incomplete" "active Agent Identity promotion baseline was not restored" else
  let! recovered_at := iso_now in
  write_json X (manifest_path transaction)
    (dset "rawCredentialStored" (JBool false) (dset "recoveredAt" (JStr recovered_at) (dset "phase" (JStr "recovered") manifest))) ;;
  let! entries := promotion_archive in
  let result := [("schema", JStr PROMOTION_SCHEMA); ("status", JStr "recovered"); ("transactionId", JStr (p_name transaction));
    ("activeRestored", JInt (Z.of_nat (length active))); ("archiveRestored", JInt (Z.of_nat (length entries)));
    ("baselineBehaviorVerified", JBool verified); ("baselinePoolState", JStr state); ("serviceRestarted", JBool false);
    ("rawCredentialStored", JBool false)]%string in
  write_json X (under transaction ["evidence"; "recovery.json"]) result ;;
  ret result.
Definition rollback_promotion (transaction : path) (host : string) (port : Z) (verify : bool) : M dict :=
  let! manifest := json_file (manifest_path transaction) MAX_FILE_BYTES in
  let! base := lift (dict_of (dget "baselineActive" manifest)) in
  roll_back_to transaction host port verify manifest (sort_by str_leb (dkeys base)).

(** ** The promotion *)

Definition preview_batch (raw digest : string) (added : Z) (host : string) (port : Z) (binary attestation : path) : M dict :=
  let! preview := batch_import raw true host port binary attestation in
  if negb (eq_str (dget "requestHash" preview) digest) || negb (eq_int (dget "written" preview) added) ||
     negb (eq_int (dget "skipped" preview) 0)
  then rejects "dry_run_mismatch" "active importer preview does not match the confirmed batch" else ret preview.
Definition import_batch (raw digest : string) (added : Z) (host : string) (port : Z) (base : promotion_baseline)
    (attestation : path) : M dict :=
  let! preview := preview_batch raw digest added host port (pb_binary base) attestation in
  let! imported := batch_import raw false host port (pb_binary base) attestation in
  if negb (eq_str (dget "requestHash" imported) digest) ||
     negb (py_eq (dget "requestId" imported) (dget "requestId" preview)) || negb (eq_int (dget "written" imported) added) ||
     negb (eq_int (dget "skipped" imported) 0)
  then rejects "apply_mismatch" "active importer result changed after preview" else
  let! current := regular_json_files AUTH_DIR in
  validate_promoted (List.filter (λ p, negb (dmem (p_name p) (pb_active_map base))) current) added (pb_uid base) (pb_gid base).
Definition unchanged_state (base : promotion_baseline) : M bool :=
  let! service := service_state X CPA_SERVICE in
  if negb (py_eq (JDict service) (JDict (pb_service base))) then ret false else
  let! entries := promotion_archive in
  if negb (Nat.eqb (length entries) (length (pb_archive base))) then ret false else
  let! failures := file_map FAILURE_DIR in
  ret (py_eq (JDict failures) (JDict (pb_failures base))).
Definition promotion_receipt (transaction : path) (digest : string) (expected added active : Z) (base : promotion_baseline)
    (promoted : dict) (attempts : Z) : res dict :=
  let* pid := (let* v := ditem (pb_service base) "MainPID" in py_int v) in
  let* restarts := (let* v := ditem (pb_service base) "NRestarts" in py_int v) in
  Ok [("schema", JStr PROMOTION_SCHEMA); ("status", JStr "accepted"); ("transactionId", JStr (p_name transaction));
      ("requestHash", JStr digest); ("written", JInt added); ("skipped", JInt 0); ("activeBefore", JInt expected);
      ("activeAfter", JInt active); ("baselinePoolState", JStr (pb_state base));
      ("distinctAgentIdentities", JInt (Z.of_nat (length (dedup (map (λ kv, py_str (snd kv)) promoted)))));
      ("cohortCanaryRequests", JInt added); ("cohortCanaryAttempts", JInt attempts); ("finalCanaryRequests", JInt 1);
      ("archiveEntries", JInt (Z.of_nat (length (pb_archive base)))); ("failureInputs", JInt 0); ("sweepTrigger", JBool false);
      ("cpaPid", JInt pid); ("cpaRestarts", JInt restarts); ("serviceRestarted", JBool false);
      ("rawCredentialStored", JBool false); ("manualRecoveryConfirmation", JStr (recovery_confirmation (p_name transaction)))].
(** The earlier credentials are away while the new ones answer. *)
Definition cohort_canary (transaction : path) (manifest : dict) (base : promotion_baseline) (added : Z) (host : string) (port : Z) : M Z :=
  hold_baseline transaction (sort_by str_leb (dkeys (pb_active_map base))) ;;
  finally (s_pause X 5000 ;; canaries (Z.to_nat added) host port 0) (restore_baseline transaction manifest).
Definition promote_batch (raw digest : string) (expected added : Z) (host : string) (port : Z) (base : promotion_baseline)
    (transaction attestation : path) : M dict :=
  let! promoted := import_batch raw digest added host port base attestation in
  let! manifest := json_file (manifest_path transaction) MAX_FILE_BYTES in
  let manifest := dset "promoted" (JDict promoted) (dset "phase" (JStr "imported") manifest) in
  write_json X (manifest_path transaction) manifest ;;
  s_pause X 4000 ;;
  let! attempts := cohort_canary transaction manifest base added host port in
  s_pause X 3000 ;;
  let! _ := canaries 1 host port 0 in
  let! repeated := batch_import raw true host port (pb_binary base) attestation in
  let! active := regular_json_files AUTH_DIR in
  let! same :=
    (if negb (eq_str (dget "requestHash" repeated) digest) || negb (eq_int (dget "written" repeated) 0) ||
        negb (eq_int (dget "skipped" repeated) added) || negb (Z.of_nat (length active) =? expected + added)
     then ret false else unchanged_state base) in
  if negb same then rejects "acceptance_mismatch" "active Agent Identity promotion acceptance changed" else
  let! _ := require_available_pool_observation SWEEP_DIR in
  let! receipt := lift (promotion_receipt transaction digest expected added (Z.of_nat (length active)) base promoted attempts) in
  let! accepted_at := iso_now in
  write_json X (manifest_path transaction) (dset "acceptedAt" (JStr accepted_at) (dset "phase" (JStr "accepted") manifest)) ;;
  write_json X (child transaction "receipt.json") receipt ;;
  ret receipt.

Definition CONTAINED : string := "active Agent Identity promotion failed and was contained".
Definition NEEDS_RECOVERY : string := "active Agent Identity promotion failed; manual recovery is required".
(** Only a [Rejected] of the rollback is caught; another exception ends the script without a report. *)
Definition fail_promotion {A} (transaction : path) (host : string) (port : Z) (e : exn) : M A :=
  let code := if is_rejection e then exn_code e else "transaction_error"%string in
  let! recovered := try_with (let! _ := rollback_promotion transaction host port true in ret true)
    (except [ActiveImportRejected] (λ _, ret false)) in
  let failure := [("schema", JStr PROMOTION_SCHEMA); ("status", JStr "failed"); ("transactionId", JStr (p_name transaction));
    ("failureCode", JStr code); ("baselineRestored", JBool recovered); ("serviceRestarted", JBool false);
    ("rawCredentialStored", JBool false)]%string in
  write_json X (child transaction "failure.json") failure ;;
  rejects_with code (if recovered then CONTAINED else NEEDS_RECOVERY) failure.
Definition run_promotion (raw digest : string) (expected added : Z) (host : string) (port : Z) (base : promotion_baseline)
    (transaction : path) : M dict :=
  let! attestation := try_with (attestation_copy transaction (pb_sidecar base)) (except_all (fail_promotion transaction host port)) in
  finally (try_with (promote_batch raw digest expected added host port base transaction attestation)
             (except_all (fail_promotion transaction host port)))
    (cleanup_attestation attestation).
Definition promotion_apply (raw digest : string) (expected added : Z) (host : string) (port : Z) (allow : bool) : M dict :=
  with_promotion_lock
    (let! base := promotion_preflight expected allow in
     let! transaction := prepare_promotion base digest added in
     run_promotion raw digest expected added host port base transaction).
Definition recover_existing (transaction_id host : string) (port : Z) : M dict :=
  let transaction := path_join PROMOTION_ROOT transaction_id in
  let! linked := is_symlink_p transaction in
  let! present := (if linked then ret false else is_dir_p transaction) in
  if negb (bool_decide (p_parent transaction = PROMOTION_ROOT)) || negb present
  then rejects "transaction_unavailable" "promotion transaction is unavailable" else
  with_promotion_lock (rollback_promotion transaction host port true).

(** ** The command *)

Definition read_batch (stdin digest : string) : M string :=
  let! raw := read_input stdin in
  if sha256 raw <>s? digest then rejects "input_mismatch" "credential input does not match the confirmed request" else ret raw.
Definition promotion_main (digest : string) (expected added : Z) (host : string) (port : Z) (recover : string) (apply allow : bool)
    (confirm stdin : string) : M dict :=
  if recover <>s? "" then
    let! document := lift (recovery_plan recover) in
    if negb apply then ret document else
    if negb (eq_str (dget "confirmation" document) confirm)
    then rejects "confirmation_mismatch" "promotion recovery confirmation does not match"
    else recover_existing recover host port
  else
  let! document := lift (plan digest expected added allow) in
  if negb apply then ret document else
  if negb (eq_str (dget "confirmation" document) confirm)
  then rejects "confirmation_mismatch" "promotion confirmation does not match" else
  let! raw := read_batch stdin digest in
  promotion_apply raw digest expected added host port allow.
Definition promotion_program (digest : string) (expected added : Z) (host : string) (port : Z) (recover : string) (apply allow : bool)
    (confirm stdin : string) : M (string * string * Z) :=
  reported "promote-cloud-agent-identity" (promotion_main digest expected added host port recover apply allow confirm stdin).
End site.
