(* ===== verification/PromotionFacts.v ===== *)
(** * What a promotion accepts, keeps and cannot undo

    The records that the cloud importer writes are the records the promotion accepts, and it
    tells them apart by the bytes of their keys; the copies it makes of the earlier credentials
    stay, whatever happens; a rollback with an empty archive never succeeds. *)

From S2P Require Import Prelude PyStr PyFloat PyValue PyRe PyTime PyJson PyBase64 PySha FS AgentIdentity Wp FileData.
From S2P Require Import CpaRecords CpaAuth Importer ApiFailure LocalConfig Releases Trees ShellHook Ops ActiveImport Promotion.

(** ** Imported records *)


Definition sample_key : string := "MC4CAQAwBQYDK2VwBCIEIAABAgMEBQYHCAkKCwwNDg8QERITFBUWFxgZGhscHR4f".
Definition sample_identity : dict :=
  [("auth_mode", JStr "agentIdentity"); ("agent_runtime_id", JStr " runtime-1 "); ("agent_private_key", JStr sample_key);
   ("access_token", JStr "dropped")].

(** Two texts of one key: the importer takes the records for two, the promotion for one. *)
Example one_key_two_texts :
  let copy key := dset "agent_private_key" (JStr key) sample_identity in
  let normal key := normalize (copy key) "" "" in
  match normal sample_key, normal (sample_key +:+ "=") with
  | Ok a, Ok b => (bool_decide (import_fingerprint_parts a = import_fingerprint_parts b),
                   bool_decide (record_fingerprint a = record_fingerprint b))
  | _, _ => (true, false)
  end = (false, true).
Proof. vm_compute. reflexivity. Qed.

(** ** An empty archive *)

(** Every value of [m] satisfies [P]; [m] has no value. *)
Definition yields {A : Type} (P : A → Prop) (m : M A) : Prop := ∀ E w a, (m E w).1 = Ok a → P a.
Abbreviation fails := (yields (λ _, False)).
Lemma yields_ok {A : Type} (P : A → Prop) a : P a → yields P (ret a).
Proof. by intros H E w b [= <-]. Qed.
Lemma yields_throw {A : Type} (P : A → Prop) e : yields P (throw e).
Proof. done. Qed.
Lemma yields_then {A B : Type} (P : A → Prop) (Q : B → Prop) (m : M A) (c : A → M B) :
  yields P m → (∀ a, P a → yields Q (c a)) → yields Q (bind m c).
Proof.
  intros Hm Hc E w b. unfold bind. specialize (Hm E w). destruct (m E w) as [[a|e] w1]; [|done].
  intros H. eapply Hc; [by apply Hm|exact H].
Qed.
Lemma yields_after {A B : Type} (Q : B → Prop) (m : M A) (c : A → M B) : (∀ a, yields Q (c a)) → yields Q (bind m c).
Proof. intros H. apply (yields_then (λ _, True)); [done|]. intros a _. apply H. Qed.
Lemma fails_wp {A : Type} (m : M A) E w : fails m → wp m E w (λ r _, ∃ e, r = Raise e).
Proof.
  intros H. unfold wp. specialize (H E w). destruct (m E w) as [[a|e] w1]; [exfalso; by eapply H|by exists e].
Qed.

(** What was read is in the file. *)
Lemma wp_promotion_bytes p maximum E f k (Φ : res string → world → Prop) :
  (∀ raw k, data_at f p = Some raw → Φ (Ok raw) (World f k)) → (∀ e k, Φ (Raise e) (World f k)) →
  wp (safe_bytes p maximum) E (World f k) Φ.
Proof.
  intros Ho Hr. unfold safe_bytes. apply wp_bind, wp_pure; [destruct (p.1); fs_pure_tac|].
  intros [linked|e] k1; [|apply Hr]. destruct linked; [apply wp_throw, Hr|].
  unfold open_nofollow. apply wp_bind, wp_try, wp_bind, wp_sys.
  2: { intros e k2 He. unfold except. cbn [existsb]. unfold os_exn in He. rewrite He. apply wp_throw, Hr. }
  intros k2. apply wp_bind, wp_get_fs.
  destruct (f !! p) as [[c m|m|t|]|] eqn:Hp; try (apply wp_throw; unfold except; apply wp_throw, Hr); apply wp_ret;
    unfold fstat; apply wp_bind, wp_bind, wp_sys; try (intros; apply Hr); intros k3; apply wp_ret; cbn [is_reg negb orb];
    try (apply wp_throw, Hr).
  destruct (maximum <? _); [apply wp_throw, Hr|]. unfold read_node. apply wp_bind, wp_bind, wp_sys; [|intros; apply Hr].
  intros k4. apply wp_ret. apply wp_bind, wp_pure; [fs_pure_tac|]. intros [?|e] k5; [|apply Hr].
  apply wp_bind, wp_pure; [fs_pure_tac|]. intros [?|e] k6; [|apply Hr].
  destruct (maximum <? _); [apply wp_throw, Hr|]. apply wp_ret, Ho. unfold data_at. by rewrite Hp.
Qed.
Lemma wp_promotion_json p maximum E f k (Φ : res dict → world → Prop) :
  (∀ raw d k, data_at f p = Some raw → loads_bytes raw = Ok (JDict d) → Φ (Ok d) (World f k)) →
  (∀ e k, Φ (Raise e) (World f k)) → wp (json_file p maximum) E (World f k) Φ.
Proof.
  intros Ho Hr. unfold json_file.
  assert (Hexc : ∀ e k1, match except [UnicodeDecodeError; JSONDecodeError]
      (λ _, rejects (A := json) "invalid_state" "promotion state is invalid") e with
    | Some c => wp c E (World f k1) (λ r w', match r with
        | Ok a => wp (match a with JDict d => ret d | _ => rejects "invalid_state" "promotion state is invalid" end) E w' Φ
        | Raise e => Φ (Raise e) w' end)
    | None => Φ (Raise e) (World f k1) end).
  { intros e k1. destruct (except _ _ e) as [c|] eqn:He; [|apply Hr]. unfold except in He.
    destruct (existsb _ _); [|done]. injection He as <-. apply wp_throw, Hr. }
  apply wp_bind, wp_try, wp_bind, wp_promotion_bytes; [|intros e k1; apply Hexc].
  intros raw k1 Hraw. apply wp_lift. destruct (loads_bytes raw) as [v|e] eqn:Hl; [|apply Hexc].
  destruct v; try (apply wp_throw, Hr). by eapply wp_ret, Ho.
Qed.

Section empty.
Context (X : site) (d : dict) (Hempty : dget "archiveCount" d = JInt 0).

Lemma never_restored names active service : yields (λ b, b = false) (baseline_restored d names active service).
Proof using Hempty.
  unfold baseline_restored. destruct (_ || _); [by apply yields_ok|]. apply yields_after. intros entries.
  apply (yields_then (λ z, z = -1)).
  { unfold expected_archive. rewrite Hempty. by intros E w z [= <-]. }
  intros expected ->. destruct (_ =? -1) eqn:Heq; [apply Z.eqb_eq in Heq; lia|]. by apply yields_ok.
Qed.
(** The rollback once the manifest is read. *)
Lemma rollback_fails transaction host port verify names : fails (roll_back_to X transaction host port verify d names).
Proof using Hempty.
  unfold roll_back_to. do 9 (apply yields_after; intros ?). apply yields_after. intros service.
  apply (yields_then (λ b, b = false)); [apply never_restored|]. intros restored ->.
  apply yields_after. intros observed. destruct (observed <>s? _); apply yields_throw.
Qed.

(** When the archive was empty before the promotion, no rollback ever succeeds: the count
    that the manifest records, zero, is read as minus one.  The script reports that a manual
    recovery is required, and that recovery is the same rollback. *)
Theorem empty_archive_never_recovers transaction host port verify E f k text r w' :
  data_at f (manifest_path transaction) = Some text → loads_bytes text = Ok (JDict d) →
  rollback_promotion X transaction host port verify E (World f k) = (r, w') → ∃ e, r = Raise e.
Proof using Hempty.
  intros Htext Hd Hrun.
  assert (H : wp (rollback_promotion X transaction host port verify) E (World f k) (λ r _, ∃ e, r = Raise e)).
  { unfold rollback_promotion. apply wp_bind, wp_promotion_json; [|intros e k1; by exists e]. intros raw d' k1 Hraw Hl.
    assert (d' = d) as -> by (rewrite Htext in Hraw; injection Hraw as <-; rewrite Hd in Hl; by injection Hl).
    apply fails_wp, yields_after. intros base. apply rollback_fails. }
  unfold wp in H. by rewrite Hrun in H.
Qed.
End empty.

(** ** A failure that is not contained *)

(** The importer adds a file to the pool; [owner] answers for the owner of that file. *)
Definition lone_site (owner : M (Z * Z)) : site :=
  Site (λ argv _, if mem "import" argv
          then update (child AUTH_DIR "new.json") (File "{}" 384) ;;
               ret (Completed 0 (dumps (st_default false true) (JDict [("status", JStr "accepted"); ("written", JInt 1)])) "")
          else ret (Completed 0 "7" ""))
    (λ _ _ _ _ _ _, oserror "refused") (λ _, ret tt) (λ name, ret (Account name 5 5)) (λ p, if p_name p =s? "new.json" then owner else ret (0, 0)) (λ _, ret "00")
    (λ _, oserror "no such link") (λ _, ret tt) ((false, []), (false, []), (false, [])) "python3" 1 true.
Definition lone_transaction : path := child IMPORT_ROOT "t".
Definition lone_files : fs :=
  let dir p := (p, Dir 448) in
  list_to_map [dir AUTH_DIR; dir FAILURE_DIR; dir SWEEP_DIR; dir ARCHIVE_DIR; dir lone_transaction;
    (child ARCHIVE_DIR "manifest.json", File (dumps (st_default false true) (JDict [("entries", JList [])])) 384)].
Definition faultless : env := Env (λ _, false) (λ _, "x"%string) (λ _, 0) (λ _ _, FNan) (λ _ _, false) (λ _, 0).
(** The class of the exception, the imported credential and the receipt. *)
Definition lone_run (owner : M (Z * Z)) : option exn_class * option string * bool :=
  let before := BeforeImport (map (λ k, (k, JStr "7")) SERVICE_FIELDS) 0 in
  let '(r, w) := import_transaction_body (lone_site owner) "{}" "127.0.0.1" 8317 [] lone_transaction before faultless (World lone_files 0) in
  (match r with Raise e => Some (exn_cls e) | Ok _ => None end, data_at (w_fs w) (child AUTH_DIR "new.json"),
   bool_decide (data_at (w_fs w) (child lone_transaction "receipt.json") ≠ None)).

(** A rejection moves the credential out of the pool and leaves a receipt; any other exception
    leaves it in the pool, without one. *)
Example rejected_is_contained : lone_run (ret (1, 1)) = (Some ActiveImportRejected, None, true).
Proof. vm_compute. reflexivity. Qed.
Example error_is_not_contained : lone_run (oserror "owner") = (Some OSError, Some "{}"%string, false).
Proof. vm_compute. reflexivity. Qed.
